(* ===== verification/_CoqProject ===== *)
-Q . S2P
Prelude.v
Bits.v
Packet.v
Bptc.v
LinkControl.v
VoiceBurst.v
Rewrite.v
Timeslot.v
Strings.v
Net.v
Guard.v
Routing.v
PrivateRoute.v
IpscFrame.v
Translator.v
MmdvmTraffic.v
SharedArbiter.v
Text.v
Rptc.v
Sha256.v
Sha1.v
MmdvmServer.v
MmdvmLogin.v
Ingress.v
Config.v
IpscServer.v
HyteraFrame.v
Hytera.v
HyteraBursts.v
HyteraPeers.v
HyteraSend.v
HyteraCalls.v
G711.v
NrlFrame.v
NrlBridge.v
NrlCalls.v
HyteraNrl.v
HyteraAnalog.v
Audio.v
Dmrid.v
TimeText.v
RegistryTypes.v
Store.v
Registry.v
CallFlow.v
Managed.v
Web.v
WebSocket.v
Wiring.v
Transmission.v
Startup.v
