(* ===== verification/Prelude.v ===== *)
(** * A verification library for ipsc2mmdvm

    The program is a gateway of digital mobile radio.  Repeaters of several
    makes (Motorola IPSC, Hytera, MMDVM hotspots) send voice calls to it as
    packets; it decides who may use a timeslot, rewrites talkgroups, translates
    between the packet formats and passes the calls on to other repeaters and to
    upstream MMDVM masters.  This library models its core as executable Rocq
    functions translated from the Go sources and proves what makes each part
    correct.

    ** Files and sources

    - [Prelude] (this file): machine integers, byte slices, panics, time, and
      the lemmas and tactics shared by all files.  [Bits], [Strings], [Text],
      [Net]: bit strings, formatted keys, UTF-8 text and numbers in fields,
      network addresses; they model the parts of Go's standard library the
      sources use.  [Sha256], [Sha1]: the hashes, and HMAC over SHA-1.
    - [Packet]: the DMRD packet (internal/mmdvm/proto/packet.go).
    - [Bptc]: the BPTC(196,96) code, the slot type and the bursts that carry a
      Full Link Control (internal/dmr/bptc/bptc19696.go).
    - [LinkControl]: data types, Full LC with its Reed-Solomon parity, CRC5
      (internal/dmr/types.go, link_control.go, embedded_lc.go).
    - [VoiceBurst]: AMBE frames, voice bursts and their inspection
      (internal/dmr/ambe.go, voice_burst.go, burst_inspect.go).
    - [Rewrite]: the rewrite rules and the chains a network builds of them
      (internal/mmdvm/rewrite/rewrite.go, buildRewriteRules of mmdvm/client.go).
    - [Timeslot]: the arbiter of a timeslot (internal/timeslot/manager.go).
    - [Guard]: the admission of packets from repeaters (internal/repeater/guard.go).
    - [Routing]: talkgroup subscriptions (internal/routing/subscriptions.go).
    - [PrivateRoute]: the routing of private calls (cmd/private_routing.go).
    - [IpscFrame], [Translator]: the IPSC packet formats and the translation in
      both directions (internal/ipsc/translator.go).
    - [MmdvmTraffic]: the data path of an MMDVM network, through the rewrite
      rules and the arbiters (internal/mmdvm/client.go).  [SharedArbiter]: the
      outbound handlers of several networks around the arbiter they share, cut at
      the calls of the arbiter and at every delivery.
    - [Rptc]: the configuration message of MMDVM clients (sendRPTC of
      mmdvm/packets.go, parseRPTCConfig of mmdvm/server.go).
    - [MmdvmServer]: the MMDVM server with its session table
      (internal/mmdvm/server.go).
    - [MmdvmLogin]: the login, the ping loop and the watchdog of an MMDVM client
      (internal/mmdvm/client.go, packets.go), and client and server together.
    - [Ingress]: the way of a packet from a frontend through the guard, the
      subscriptions and the private-call cache to the frontends (handleIngress,
      routeGroupCall, sendToTarget of cmd/root.go).
    - [Config]: the configuration and its validation (internal/config/config.go).
    - [IpscServer]: the IPSC server with its table of peers, authentication,
      expiry and paced sending (internal/ipsc/server.go).
    - [HyteraFrame], [Hytera], [HyteraSend]: the packet formats of Hytera
      repeaters, the registration, identification and reception of the server,
      and its sending (internal/hytera/server.go).  The theorems about single
      packets and received calls are in [HyteraBursts], those about histories of
      repeaters in [HyteraPeers], those about sent calls in [HyteraCalls].
    - [G711]: A-law and mu-law (internal/nrl/g711.go).  [NrlFrame]: the packets
      between the program and NRL servers (internal/nrl/protocol.go, dmr.go, and
      the codec of internal/hytera/nrl_bridge.go).
    - [NrlBridge]: the sessions that connect talkgroups with NRL servers
      (internal/nrl/bridge.go), with the theorems about calls in [NrlCalls].
    - [HyteraNrl]: the sessions that connect analog Hytera repeaters with NRL
      servers (internal/hytera/nrl_bridge.go), with the theorems about them in
      [HyteraAnalog].
    - [Audio]: the hub, the pool that decodes DMR calls for listeners, and the
      mixer of a browser (internal/audio/hub.go, dmr.go, web/audio_mixer.go).
    - [Dmrid]: the table of identifiers and callsigns (internal/dmrid/resolver.go).
    - [TimeText]: times as the text of RFC 3339 in the database.
    - [RegistryTypes], [Store], [Registry]: devices, calls, users and static
      groups; the database as an interface; its implementation as SQL statements on
      tables; and the service on the interface (internal/registry/types.go,
      store.go, service.go).  [CallFlow]: the calls of the service with its
      goroutines running at the same time.
    - [Managed]: links to masters as rows of the device table
      (internal/mmdvm/managed_config.go).
    - [Web], [WebSocket]: accounts, sessions and the handlers of the API, and the
      loop of a browser (internal/web/server.go, auth.go).
    - [Wiring]: the callbacks that enter peers, links and calls into the registry
      and open and close the links to NRL servers (cmd/root.go).  [Transmission]:
      what the packets of a stream become in the registry.  [Startup]: what is read
      from the database before the program runs (cmd/root.go).

    Each component keeps its state in a record named as in the source, and each
    method is a function from the state, its arguments and the clock to the new
    state and the results; the packets, callbacks and statuses a method sends
    are appended to lists in the state.

    ** How the parts interact

    A packet from a repeater passes the guard, is routed by subscription or by
    the private-call cache, and reaches an MMDVM network, which rewrites it, asks
    its inbound arbiter for the slot and queues it for the master.  A packet from
    a master is rewritten back, asks the arbiter all networks share, and is
    translated to IPSC or handed on.  [MmdvmTraffic] is proved against the
    operations of [Timeslot] and [Rewrite]; [MmdvmServer] uses the data path of
    [MmdvmTraffic]; [MmdvmLogin] runs the client against the server; [Ingress]
    composes [Guard], [Routing], [PrivateRoute] and [Translator] as cmd/root.go
    does, with the frontends behind an interface.  The loops of the Hytera server
    first offer a datagram to its NRL bridge; the argument [bridged] of their steps
    says whether it was taken, which is so exactly for packets with analog voice
    ([bridge_takes_analog]).

    The frontends report their peers and calls to the registry ([Wiring]), which
    keeps them in memory and in the database ([Registry] against the class
    [RegistryStore], which [Store] implements).  The web server changes both, and
    with the static groups also the routing table of [Routing]; at the start
    ([Startup]) the devices, calls, links and subscriptions come from the database.
    Decoded calls go through the hub of [Audio] to the browsers of [WebSocket].

    ** What is proved

    - Codes and formats: packets, AMBE frames, voice bursts, Link Control blocks
      and configuration messages are read back as written, Link Control also
      with a wrong bit; the parities and check sums have the algebraic
      properties of their codes.
    - Translation: a whole voice call sent through two translators arrives as
      the same call; sequence numbers and timestamps of a stream run on without
      gaps, through wrap-around; the stream tables stay well formed; the inputs
      that panic are characterised.
    - Arbitration: nothing is lost or reordered within a stream as long as no
      call times out, the backlog drains, the slots are independent, the arbiter
      refines a queue of calls that a timeout empties (against the package comment,
      [timeout_discards]); the same for the path through a network and, for any
      schedule of their goroutines, for several networks that share an arbiter,
      where however a drained call can be overtaken ([drained_overtaken]); the drain
      loops end.
    - Routing: the indexes of the subscriptions are consistent after any history,
      and routes are exactly the subscribed devices other than the source.
    - Admission: two sources never hold a slot together, repeats are refused
      within their window; an admitted group call is offered exactly once to each
      subscriber, and the echo check of the program never finds anything.
    - Repeaters: the IPSC and the Hytera server know exactly the repeaters heard
      within their timeouts and report exactly the lost ones; with authentication
      everything a peer does goes back to a datagram with the right HMAC; an RDAC
      identification rests on the whole exchange; what is sent goes to the
      targets only, paced for IPSC and numbered without gaps for Hytera.
    - Voice to and from NRL servers: the audio of a talk spurt becomes the DMR
      stream of a reference that takes it as a whole, the bursts of a DMR stream
      become payloads without loss, the audio of an analog repeater passes in both
      directions without loss or reordering while the loops run, its calls are
      reported one after the other, and a failed write stops a repeater for good;
      A-law loses at most a thirty-second of a sample and keeps their order.
    - Configuration: Validate accepts exactly the valid configurations.
    - Registry and database: the tables stay sound whatever operations run and
      whichever statements fail; the calls in memory stay consistent in every
      interleaving of the goroutines, though two first bursts at the same time leave
      a record open ([overlapping_first_bursts]); without overlapping operations the
      packets of a transmission make one record and records are open exactly while
      their call is going on; a sweep ends exactly the silent ones, and the service
      starts in a consistent state; repeaters with the same identifier are merged
      with their groups; times, links and static groups survive the database, and
      after a restart the routing table has the subscriptions it had, unless a
      change of an NRL link was stored by half ([nrl_half_stored]).  A report of a
      device overwrites its disabled flag and its notes.
    - Web server: without the session of an administrator no account gains anything,
      a session goes back to a login with the right password, a first start leaves
      an administrator who can log in, and browsers and their targets are counted
      right, with no channel left behind at the audio hub.
    - Listening: a frame is the sum of the streams that speak, and no two calls share
      a vocoder.
    - Login: only the password authenticates, a login completes, a wrong password
      is refused, sessions stay consistent and time out exactly; where the code
      does otherwise than it means to, a theorem says so.

    ** Modelling choices and bounds

    Integers are [Z] with the wrap-around of their Go type written out.  A slice
    access the code does not guard goes through [outcome] and can panic.  Time is
    in nanoseconds and an argument of the operations.  Maps are [gmap]; where the
    iteration order of a Go map matters it is a parameter with the law that it is
    a permutation.  Pointers shared between table entries are locations of a
    store ([Translator]).  Goroutines are the events of a step function, one
    event for each critical section or message; channels are lists, and
    the blocking of a full channel is modelled in [HyteraNrl] only.  The fuelled
    functions are the drain loops of [MmdvmTraffic], with one round more than there
    are waiting calls ([drain_terminates]), and loops that take pieces off a list
    (the trimming of strings in [Text], the audio buffers of [NrlBridge] and
    [HyteraNrl]), with a round per element, which the theorems show to be enough.  The packages dmrgo (DMR bursts and Full LC) and md380 (the
    vocoder) are not in the repository: they are type classes with the laws the
    theorems use, instantiated in the witnesses; so are encoding/json at the types of
    the program, bcrypt and the parser of mail addresses.  Floating-point positions
    are the rationals they stand for.  An operation of the store is a sequence of
    statements, each a function on the tables; which of the coming statements fail
    is part of the state, a failed one changes nothing, and a transaction that fails
    is undone.

    Some operations are one event although the code holds no lock over the whole of
    them.  handleOutboundPacket of [MmdvmTraffic] is whole, and [SharedArbiter] has
    it in its parts; so are RecordCall, finishActiveCall and the sweep of
    [Registry], and [CallFlow] has them in theirs.  pacePeer of [IpscServer] writes
    at the instant that it puts into lastSend.  A session of [HyteraNrl] is fed by
    one reader, where the P2P and the DMR loop both call handleHyteraVoice: their
    packets come in some order.  The functions a websocket defers are one event of
    [WebSocket]; a failing upgrade registers nothing and is left out, and a first write
    that fails is a connection that is closed at once.

    ** Not modelled

    Sockets, dialling, logging and metrics; SQLite itself, opening its file and
    adding columns to the tables of older versions; the text of HTTP errors, the
    runtime panel and the files of the browser application; and of cmd/root.go the
    creation of the servers, the order in which they are stopped and the command
    line.  They are input and output around the program, or third-party code the
    sources only call. *)

From Stdlib Require Export ZArith Lia Bool Btauto.
From stdpp Require Export base numbers list gmap strings pretty sorting.

Declare Scope go_scope.
Delimit Scope go_scope with go.
#[global] Open Scope Z_scope.

(** ** Machine integers

    Go's unsigned integers of width [w] are integers of [0, 2^w); every
    operation of the source that can leave the range is followed by the
    wrap-around of its type.  [uint] is 64 bits wide. *)

Definition u8 (z : Z) : Z := z mod 2 ^ 8.
Definition u16 (z : Z) : Z := z mod 2 ^ 16.
Definition u32 (z : Z) : Z := z mod 2 ^ 32.
Definition u64 (z : Z) : Z := z mod 2 ^ 64.
(** The conversion to [int16]. *)
Definition i16 (z : Z) : Z := (z + 2 ^ 15) mod 2 ^ 16 - 2 ^ 15.

Definition is_byte (z : Z) : Prop := 0 <= z < 256.
Definition is_u24 (z : Z) : Prop := 0 <= z < 2 ^ 24.
Definition is_u32 (z : Z) : Prop := 0 <= z < 2 ^ 32.
Definition is_u64 (z : Z) : Prop := 0 <= z < 2 ^ 64.
Definition is_bit (z : Z) : Prop := z = 0 \/ z = 1.

#[export] Instance is_byte_dec z : Decision (is_byte z).
Proof. unfold is_byte. apply _. Defined.
#[export] Instance is_u24_dec z : Decision (is_u24 z).
Proof. unfold is_u24. apply _. Defined.
#[export] Instance is_u32_dec z : Decision (is_u32 z).
Proof. unfold is_u32. apply _. Defined.
#[export] Instance is_u64_dec z : Decision (is_u64 z).
Proof. unfold is_u64. apply _. Defined.
#[export] Instance is_bit_dec z : Decision (is_bit z).
Proof. unfold is_bit. apply _. Defined.

(** ** Byte slices and arrays

    A [[]byte] or [[N]byte] is a list of integers.  [l .[ i ]] reads an
    element at an index the code has already checked (an array, or a slice
    behind a length guard); reads the code does not guard go through
    [index], which panics out of range. *)

Definition byte_at (l : list Z) (i : nat) : Z := default 0 (l !! i).
Notation "l .[ i ]" := (byte_at l i) (at level 1, left associativity, format "l .[ i ]").

(** ** Panics

    A Go function that can panic returns an [outcome]. *)

Inductive outcome (A : Type) : Type :=
| Done (a : A)
| Panic.
Arguments Done {A} a.
Arguments Panic {A}.

Definition obind {A B} (c : outcome A) (k : A -> outcome B) : outcome B :=
  match c with
  | Done a => k a
  | Panic => Panic
  end.
Notation "'let!' x ':=' c 'in' k" := (obind c (fun x => k))
  (at level 10, x pattern, c at level 100, k at level 200) : go_scope.
#[global] Open Scope go_scope.

Definition index (l : list Z) (i : nat) : outcome Z :=
  match l !! i with
  | Some v => Done v
  | None => Panic
  end.

(** ** Time

    [time.Time] is the number of nanoseconds since Go's zero time, so that
    [IsZero] is equality with [0]; [Sub] saturates at the bounds of
    [time.Duration], as the library does. *)

Definition time := Z.
Definition max_duration : Z := 2 ^ 63 - 1.
Definition time_sub (a b : time) : Z := Z.max (- 2 ^ 63) (Z.min max_duration (a - b)).
Definition time_is_zero (t : time) : bool := t =? 0.
Definition millisecond : Z := 1000000.
Definition second : Z := 1000 * millisecond.
Definition minute : Z := 60 * second.

Lemma time_sub_gt a b d : - 2 ^ 63 <= d < max_duration -> (time_sub a b > d <-> a - b > d).
Proof. unfold time_sub, max_duration. lia. Qed.

(** Times that do not go back, the latest first, and none after [now]. *)
Fixpoint no_backstep (ts : list time) (now : time) : Prop :=
  match ts with
  | [] => True
  | t :: ts => t <= now /\ no_backstep ts t
  end.

(** ** Hint databases and tactics *)

Create HintDb bytes.
Create Rewrite HintDb bitspec.

(** [bitblast]: prove an equation between integers bit by bit. *)
#[export] Hint Rewrite Z.lor_spec Z.lxor_spec Z.land_spec Z.testbit_0_l : bitspec.

Ltac split_ands :=
  repeat match goal with
  | H : _ /\ _ |- _ => destruct H
  | |- _ /\ _ => split
  end.

(** Close a decidable proposition without variables by evaluation. *)
Ltac by_eval := apply (bool_decide_eq_true_1 _); vm_compute; reflexivity.

(** Decide the boolean comparisons of a goal or hypothesis. *)
Ltac case_bools :=
  repeat match goal with
  | |- context [ ?a =? ?b ] => destruct (Z.eqb_spec a b)
  | |- context [ ?a <=? ?b ] => destruct (Z.leb_spec a b)
  | |- context [ ?a <? ?b ] => destruct (Z.ltb_spec a b)
  | |- context [ Nat.eqb ?a ?b ] => destruct (Nat.eqb_spec a b)
  | |- context [ Nat.ltb ?a ?b ] => destruct (Nat.ltb_spec a b)
  | |- context [ Nat.leb ?a ?b ] => destruct (Nat.leb_spec a b)
  end.

(** ** Ranges *)

Lemma u8_range z : is_byte (u8 z).
Proof. apply Z.mod_pos_bound. done. Qed.
Lemma u32_range z : is_u32 (u32 z).
Proof. apply Z.mod_pos_bound. done. Qed.
Lemma u64_range z : is_u64 (u64 z).
Proof. apply Z.mod_pos_bound. done. Qed.
Lemma u8_id z : is_byte z -> u8 z = z.
Proof. apply Z.mod_small. Qed.
Lemma u32_id z : is_u32 z -> u32 z = z.
Proof. apply Z.mod_small. Qed.
Lemma u64_id z : is_u64 z -> u64 z = z.
Proof. apply Z.mod_small. Qed.
#[export] Hint Resolve u8_range u32_range u64_range : bytes.

(** A power-of-two range is stable under the bit operations. *)
Lemma nonneg_lt_pow2_bits z w :
  0 <= w -> 0 <= z -> (forall i, w <= i -> Z.testbit z i = false) -> z < 2 ^ w.
Proof.
  intros Hw Hz Hbits.
  destruct (Z.lt_ge_cases z (2 ^ w)) as [H | H]; [done |].
  assert (Hpos : 0 < z) by (pose proof (Z.pow_pos_nonneg 2 w); lia).
  assert (Hlog : w <= Z.log2 z).
  { rewrite <- (Z.log2_pow2 w) by lia. by apply Z.log2_le_mono. }
  specialize (Hbits _ Hlog). by rewrite Z.bit_log2 in Hbits.
Qed.

Lemma testbit_high z w i : 0 <= z < 2 ^ w -> 0 <= w -> w <= i -> Z.testbit z i = false.
Proof.
  intros Hz Hw Hi. rewrite <- (Z.mod_small z (2 ^ w)) by done.
  by apply Z.mod_pow2_bits_high.
Qed.

Lemma range_bits z w :
  0 <= w -> (0 <= z < 2 ^ w <-> 0 <= z /\ forall i, w <= i -> Z.testbit z i = false).
Proof.
  intros Hw. split.
  - intros Hz. split; [lia |]. intros i Hi. by eapply testbit_high.
  - intros [H0 Hb]. split; [done |]. by apply nonneg_lt_pow2_bits.
Qed.

Lemma byte_range z : is_byte z <-> 0 <= z < 2 ^ 8.
Proof. unfold is_byte. change (2 ^ 8) with 256. lia. Qed.

Lemma lor_range w a b :
  0 <= w -> 0 <= a < 2 ^ w -> 0 <= b < 2 ^ w -> 0 <= Z.lor a b < 2 ^ w.
Proof.
  intros Hw. rewrite !range_bits by done. intros [Ha Hab] [Hb Hbb]. split.
  - rewrite Z.lor_nonneg. lia.
  - intros i Hi. rewrite Z.lor_spec, Hab, Hbb by done. done.
Qed.
Lemma lxor_range w a b :
  0 <= w -> 0 <= a < 2 ^ w -> 0 <= b < 2 ^ w -> 0 <= Z.lxor a b < 2 ^ w.
Proof.
  intros Hw. rewrite !range_bits by done. intros [Ha Hab] [Hb Hbb]. split.
  - rewrite Z.lxor_nonneg. lia.
  - intros i Hi. rewrite Z.lxor_spec, Hab, Hbb by done. done.
Qed.
Lemma land_range w a b :
  0 <= w -> 0 <= b < 2 ^ w -> 0 <= Z.land a b < 2 ^ w.
Proof.
  intros Hw. rewrite !range_bits by done. intros [Hb Hbb]. split.
  - rewrite Z.land_nonneg. lia.
  - intros i Hi. rewrite Z.land_spec, Hbb, andb_false_r by done. done.
Qed.

Lemma byte_lor a b : is_byte a -> is_byte b -> is_byte (Z.lor a b).
Proof. rewrite !byte_range. by apply lor_range. Qed.
Lemma byte_lxor a b : is_byte a -> is_byte b -> is_byte (Z.lxor a b).
Proof. rewrite !byte_range. by apply lxor_range. Qed.
Lemma byte_land a b : is_byte b -> is_byte (Z.land a b).
Proof. rewrite !byte_range. by apply land_range. Qed.
#[export] Hint Resolve byte_lor byte_lxor byte_land : bytes.

Lemma is_bit_range z : is_bit z <-> 0 <= z < 2 ^ 1.
Proof. unfold is_bit. change (2 ^ 1) with 2. lia. Qed.
Lemma bit_lxor a b : is_bit a -> is_bit b -> is_bit (Z.lxor a b).
Proof. rewrite !is_bit_range. by apply lxor_range. Qed.
Lemma bit_b2z b : is_bit (Z.b2z b).
Proof. destruct b; [by right | by left]. Qed.
Lemma bit_is_byte z : is_bit z -> is_byte z.
Proof. intros [-> | ->]; done. Qed.
#[export] Hint Resolve bit_lxor bit_b2z bit_is_byte : bytes.

(** ** Element access *)

Lemma byte_at_lookup l i v : l !! i = Some v -> l.[i] = v.
Proof. unfold byte_at. by intros ->. Qed.
Lemma lookup_byte_at l i : (i < length l)%nat -> l !! i = Some (l.[i]).
Proof.
  intros Hi. destruct (lookup_lt_is_Some_2 l i Hi) as [v Hv].
  by rewrite (byte_at_lookup _ _ _ Hv).
Qed.
Lemma byte_at_ge l i : (length l <= i)%nat -> l.[i] = 0.
Proof. intros Hi. unfold byte_at. by rewrite lookup_ge_None_2. Qed.
Lemma byte_at_insert l i x : (i < length l)%nat -> (<[i:=x]> l).[i] = x.
Proof. intros Hi. unfold byte_at. by rewrite list_lookup_insert_eq. Qed.
Lemma byte_at_insert_ne l i j x : i <> j -> (<[i:=x]> l).[j] = l.[j].
Proof. intros Hne. unfold byte_at. by rewrite list_lookup_insert_ne. Qed.
Lemma byte_at_app_l l1 l2 i : (i < length l1)%nat -> (l1 ++ l2).[i] = l1.[i].
Proof. intros Hi. unfold byte_at. by rewrite lookup_app_l. Qed.
Lemma byte_at_app_r l1 l2 i :
  (length l1 <= i)%nat -> (l1 ++ l2).[i] = l2.[i - length l1].
Proof. intros Hi. unfold byte_at. by rewrite lookup_app_r. Qed.
Lemma byte_at_replicate n i : (replicate n 0).[i] = 0.
Proof.
  unfold byte_at. destruct (replicate n 0 !! i) eqn:E; [| done].
  apply lookup_replicate in E as [-> _]. done.
Qed.
Lemma byte_at_take l n i : (i < n)%nat -> (take n l).[i] = l.[i].
Proof. intros Hi. unfold byte_at. by rewrite lookup_take_lt. Qed.
Lemma byte_at_drop l n i : (drop n l).[i] = l.[n + i].
Proof. unfold byte_at. by rewrite lookup_drop. Qed.
Lemma byte_at_map_seq f n i : (i < n)%nat -> (f <$> seq 0 n).[i] = f i.
Proof. intros Hi. unfold byte_at. by rewrite list_lookup_fmap, lookup_seq_lt. Qed.
Lemma byte_at_Forall (P : Z -> Prop) l i : Forall P l -> P 0 -> P (l.[i]).
Proof.
  intros Hl H0. destruct (decide (i < length l)%nat) as [Hi | Hi].
  - eapply Forall_lookup_1; [done |]. by apply lookup_byte_at.
  - rewrite byte_at_ge by lia. done.
Qed.

Lemma byte_at_ext l1 l2 :
  length l1 = length l2 -> (forall i, (i < length l1)%nat -> l1.[i] = l2.[i]) -> l1 = l2.
Proof.
  intros Hlen Heq. apply list_eq_same_length with (length l1); [done | done |].
  intros i x y Hi Hx Hy.
  rewrite <- (byte_at_lookup _ _ _ Hx), <- (byte_at_lookup _ _ _ Hy). by apply Heq.
Qed.

(** ** Loops

    A Go loop [for i := 0; i < n; i++ { s = f(s, i) }] is
    [foldl f s (seq 0 n)]; its invariant rule. *)

Lemma foldl_seq_ind {A} (P : nat -> A -> Prop) (f : A -> nat -> A) k n a :
  P k a ->
  (forall i x, (k <= i < k + n)%nat -> P i x -> P (S i) (f x i)) ->
  P (k + n)%nat (foldl f a (seq k n)).
Proof.
  revert k a. induction n as [| n IH]; intros k a H0 Hstep; simpl.
  - by rewrite Nat.add_0_r.
  - replace (k + S n)%nat with (S k + n)%nat by lia. apply IH.
    + apply Hstep; [lia | done].
    + intros i x Hi. apply Hstep. lia.
Qed.

Lemma foldl_inv {A B} (P : A -> Prop) (f : A -> B -> A) l a :
  P a -> (forall x b, b ∈ l -> P x -> P (f x b)) -> P (foldl f a l).
Proof.
  revert a. induction l as [| b l IH]; intros a H0 Hstep; simpl; [done |].
  apply IH.
  - apply Hstep; [by left | done].
  - intros x b' Hb. apply Hstep. by right.
Qed.

(** ** Big-endian fields *)

Definition put_be16 (v : Z) : list Z := [u8 (Z.shiftr v 8); u8 v].
Definition put_be24 (v : Z) : list Z := [u8 (Z.shiftr v 16); u8 (Z.shiftr v 8); u8 v].
Definition put_be32 (v : Z) : list Z :=
  [u8 (Z.shiftr v 24); u8 (Z.shiftr v 16); u8 (Z.shiftr v 8); u8 v].
Definition get_be16 (a b : Z) : Z := Z.lor (Z.shiftl a 8) b.
Definition get_be24 (a b c : Z) : Z := Z.lor (Z.lor (Z.shiftl a 16) (Z.shiftl b 8)) c.
Definition get_be32 (a b c d : Z) : Z :=
  Z.lor (Z.lor (Z.lor (Z.shiftl a 24) (Z.shiftl b 16)) (Z.shiftl c 8)) d.

Lemma u8_testbit v n : 0 <= n < 8 -> Z.testbit (u8 v) n = Z.testbit v n.
Proof. intros Hn. unfold u8. by rewrite Z.mod_pow2_bits_low by lia. Qed.

(** [prove_bits]: an equation between integers built from shifts, masks and
    byte conversions, by comparing every bit below [w] one by one. *)
Lemma Z_ext_below w a b :
  0 <= a < 2 ^ w -> 0 <= b < 2 ^ w -> 0 <= w ->
  (forall i, 0 <= i < w -> Z.testbit a i = Z.testbit b i) -> a = b.
Proof.
  intros Ha Hb Hw H. apply Z.bits_inj'. intros i Hi.
  destruct (Z.lt_ge_cases i w).
  - apply H. lia.
  - by rewrite (testbit_high a w i), (testbit_high b w i).
Qed.

Lemma shiftr_split v k : 0 <= v -> 0 <= k -> v = Z.lor (Z.shiftl (Z.shiftr v k) k) (v mod 2 ^ k).
Proof.
  intros Hv Hk. apply Z.bits_inj'. intros i Hi. rewrite Z.lor_spec, Z.shiftl_spec by done.
  destruct (Z.lt_ge_cases i k).
  - rewrite (Z.testbit_neg_r _ (i - k)), Z.mod_pow2_bits_low by lia. done.
  - rewrite Z.shiftr_spec, Z.mod_pow2_bits_high by lia.
    replace (i - k + k) with i by lia. by rewrite orb_false_r.
Qed.

Lemma lor_shift_add a b k : 0 <= k -> 0 <= b < 2 ^ k -> Z.lor (Z.shiftl a k) b = a * 2 ^ k + b.
Proof.
  intros Hk Hb. rewrite <- Z.shiftl_mul_pow2, <- Z.add_lor_land by done.
  enough (Z.land (Z.shiftl a k) b = 0) by lia. apply Z.bits_inj'. intros i Hi.
  rewrite Z.land_spec, Z.shiftl_spec, Z.testbit_0_l by done.
  destruct (Z.lt_ge_cases i k).
  - by rewrite (Z.testbit_neg_r _ (i - k)) by lia.
  - rewrite (testbit_high b k i) by done. apply andb_false_r.
Qed.

Lemma get_be16_add a b : is_byte b -> get_be16 a b = a * 256 + b.
Proof. intros Hb. unfold get_be16. by rewrite lor_shift_add. Qed.
Lemma get_be24_add a b c :
  is_byte b -> is_byte c -> get_be24 a b c = a * 65536 + b * 256 + c.
Proof.
  unfold is_byte. intros Hb Hc. unfold get_be24. rewrite <- Z.lor_assoc.
  rewrite (lor_shift_add b) by (cbn; lia). rewrite lor_shift_add by (cbn; lia). cbn. lia.
Qed.
Lemma get_be32_add a b c d :
  is_byte b -> is_byte c -> is_byte d ->
  get_be32 a b c d = a * 16777216 + b * 65536 + c * 256 + d.
Proof.
  unfold is_byte. intros Hb Hc Hd. unfold get_be32. rewrite <- !Z.lor_assoc.
  rewrite (lor_shift_add c) by (cbn; lia). rewrite (lor_shift_add b) by (cbn; lia).
  rewrite lor_shift_add by (cbn; lia). cbn. lia.
Qed.

Ltac be_arith :=
  unfold u8, is_byte, is_u24, is_u32 in *; rewrite ?Z.shiftr_div_pow2 by done;
  change (2 ^ 8) with 256 in *; change (2 ^ 16) with 65536 in *;
  change (2 ^ 24) with 16777216 in *; change (2 ^ 32) with 4294967296 in *.

(** Reading back a big-endian field. *)
Lemma get_put_be16 v : 0 <= v < 65536 -> get_be16 (u8 (Z.shiftr v 8)) (u8 v) = v.
Proof.
  intros Hv. rewrite get_be16_add by apply u8_range. be_arith.
  rewrite (Z.mod_small (v / 256)) by (split; [apply Z.div_pos | apply Z.div_lt_upper_bound]; lia).
  pose proof (Z.div_mod v 256). lia.
Qed.
Lemma get_put_be24 v :
  is_u24 v -> get_be24 (u8 (Z.shiftr v 16)) (u8 (Z.shiftr v 8)) (u8 v) = v.
Proof.
  intros Hv. rewrite get_be24_add by apply u8_range. be_arith. Z.to_euclidean_division_equations. lia.
Qed.
Lemma get_put_be32 v :
  is_u32 v ->
  get_be32 (u8 (Z.shiftr v 24)) (u8 (Z.shiftr v 16)) (u8 (Z.shiftr v 8)) (u8 v) = v.
Proof.
  intros Hv. rewrite get_be32_add by apply u8_range. be_arith. Z.to_euclidean_division_equations. lia.
Qed.

(** The bytes of a field that was read. *)
Lemma put_get_be24 a b c :
  is_byte a -> is_byte b -> is_byte c -> put_be24 (get_be24 a b c) = [a; b; c].
Proof.
  intros Ha Hb Hc. unfold put_be24. rewrite get_be24_add by done. be_arith.
  repeat f_equal; Z.to_euclidean_division_equations; lia.
Qed.
Lemma put_get_be32 a b c d :
  is_byte a -> is_byte b -> is_byte c -> is_byte d -> put_be32 (get_be32 a b c d) = [a; b; c; d].
Proof.
  intros Ha Hb Hc Hd. unfold put_be32. rewrite get_be32_add by done. be_arith.
  repeat f_equal; Z.to_euclidean_division_equations; lia.
Qed.
Lemma get_be24_range a b c : is_byte a -> is_byte b -> is_byte c -> is_u24 (get_be24 a b c).
Proof. intros Ha Hb Hc. rewrite get_be24_add by done. be_arith. lia. Qed.
Lemma get_be32_range a b c d :
  is_byte a -> is_byte b -> is_byte c -> is_byte d -> is_u32 (get_be32 a b c d).
Proof. intros Ha Hb Hc Hd. rewrite get_be32_add by done. be_arith. lia. Qed.
#[export] Hint Resolve get_be24_range get_be32_range : bytes.

(** ** Loops that fill an array

    [for a in l { out[p(a)] = f(a) }] *)

Definition scatter {A} (p : A -> nat) (f : A -> Z) (l : list A) (out : list Z) : list Z :=
  foldl (fun out a => <[p a := f a]> out) out l.

Lemma scatter_length {A} (p : A -> nat) f l out : length (scatter p f l out) = length out.
Proof.
  apply (foldl_inv (fun d => length d = length out)); [done |].
  intros d b _ Hd. by rewrite length_insert.
Qed.

Lemma scatter_other {A} (p : A -> nat) f l out i :
  (forall a, a ∈ l -> p a <> i) -> (scatter p f l out).[i] = out.[i].
Proof.
  intros Hne. apply (foldl_inv (fun d => d.[i] = out.[i])); [done |].
  intros d b Hb Hd. rewrite byte_at_insert_ne by auto. done.
Qed.

Lemma scatter_hit {A} (p : A -> nat) f l out a :
  (forall b c, b ∈ l -> c ∈ l -> p b = p c -> b = c) ->
  a ∈ l -> (p a < length out)%nat -> (scatter p f l out).[p a] = f a.
Proof.
  revert out. induction l as [| b l IH] using rev_ind; intros out Hinj Ha Hlen.
  - by apply not_elem_of_nil in Ha.
  - unfold scatter. rewrite foldl_app. simpl.
    destruct (decide (p b = p a)) as [Hp | Hp].
    + assert (b = a) as -> by (apply Hinj; [rewrite ?elem_of_app, ?list_elem_of_singleton; tauto | done | done]).
      rewrite byte_at_insert; [done |].
      change (p a < length (scatter p f l out))%nat. by rewrite scatter_length.
    + rewrite byte_at_insert_ne by done. apply IH; [| | done].
      * intros x y Hx Hy. apply Hinj; apply elem_of_app; by left.
      * apply elem_of_app in Ha as [Ha | Ha]; [done |].
        apply list_elem_of_singleton in Ha as ->. done.
Qed.

(** The loop over every index of a fresh array. *)
Lemma scatter_fill f n : scatter (fun i => i) f (seq 0 n) (replicate n 0) = f <$> seq 0 n.
Proof.
  apply byte_at_ext.
  - by rewrite scatter_length, length_replicate, length_fmap, length_seq.
  - rewrite scatter_length, length_replicate. intros i Hi.
    rewrite byte_at_map_seq by done.
    apply (scatter_hit (fun i => i)); [done | apply elem_of_seq; lia |].
    by rewrite length_replicate.
Qed.

(** [copy(dst[off:], src)] *)
Lemma byte_at_inserts_in off src dst i :
  (off <= i < off + length src)%nat -> (off + length src <= length dst)%nat ->
  (list_inserts off src dst).[i] = src.[i - off].
Proof.
  intros Hi Hl. unfold byte_at. rewrite list_lookup_inserts by lia. done.
Qed.
Lemma byte_at_inserts_out off src dst i :
  (i < off \/ off + length src <= i)%nat -> (list_inserts off src dst).[i] = dst.[i].
Proof.
  intros [Hi | Hi]; unfold byte_at.
  - by rewrite list_lookup_inserts_lt.
  - by rewrite list_lookup_inserts_ge.
Qed.

Lemma forallb_seq (P : nat -> bool) n k :
  forallb P (seq 0 n) = true -> (k < n)%nat -> P k = true.
Proof. rewrite forallb_forall. intros H Hk. apply H, in_seq. lia. Qed.

Lemma small_cases n z : 0 <= z < Z.of_nat n -> exists k, (k < n)%nat /\ z = Z.of_nat k.
Proof. intros Hz. exists (Z.to_nat z). lia. Qed.

(** Nested counting loops are one loop over the flattened index. *)
Lemma foldl_seq_shift {A} (F : A -> nat -> A) a k n :
  foldl F a (seq k n) = foldl (fun s j => F s (k + j)%nat) a (seq 0 n).
Proof.
  rewrite <- (Nat.add_0_r k) at 1. rewrite <- fmap_add_seq. generalize (seq 0 n). intros l.
  revert a. induction l as [| x l IH]; intros a; [done |]. apply IH.
Qed.

Lemma foldl_ext_in {A B} (f g : A -> B -> A) l a :
  (forall x b, b ∈ l -> f x b = g x b) -> foldl f a l = foldl g a l.
Proof.
  revert a. induction l as [| b l IH]; intros a H; [done |]. cbn [foldl].
  rewrite H by (by left). apply IH. intros x c Hc. apply H. by right.
Qed.

Lemma foldl_seq_nested {A} (F : A -> nat -> A) (G : A -> nat -> nat -> A) a n m :
  (forall s i j, (i < n)%nat -> (j < m)%nat -> G s i j = F s (i * m + j)%nat) ->
  foldl (fun s i => foldl (fun s j => G s i j) s (seq 0 m)) a (seq 0 n) =
  foldl F a (seq 0 (n * m)).
Proof.
  intros HG. induction n as [| n IH]; [done |].
  replace (S n * m)%nat with (n * m + m)%nat by lia.
  rewrite seq_S, seq_app, !foldl_app, IH by (intros; apply HG; lia). cbn [foldl].
  rewrite (foldl_seq_shift F _ (0 + n * m)). apply foldl_ext_in.
  intros s j Hj. apply elem_of_seq in Hj. rewrite HG by lia. f_equal.
Qed.

(** Loops that agree while an invariant holds. *)
Lemma foldl_ext_inv {A B} (P : A -> Prop) (f g : A -> B -> A) l a :
  P a -> (forall x b, b ∈ l -> P x -> f x b = g x b /\ P (g x b)) -> foldl f a l = foldl g a l.
Proof.
  revert a. induction l as [| b l IH]; intros a Ha H; [done |]. simpl.
  destruct (H a b) as [-> Hp]; [by left | done |].
  apply IH; [done |]. intros x c Hc. apply H. by right.
Qed.

Lemma foldl_fixed {A B} (f : A -> B -> A) a l : (forall b, b ∈ l -> f a b = a) -> foldl f a l = a.
Proof.
  intros H. apply (foldl_inv (fun x => x = a)); [done |]. intros x b Hb ->. auto.
Qed.

Lemma b2z_eqb_1 z : is_bit z -> Z.b2z (z =? 1) = z.
Proof. by intros [-> | ->]. Qed.
Lemma eqb_1_b2z b : (Z.b2z b =? 1) = b.
Proof. by destruct b. Qed.

(** [a & (1 << k) != 0] *)
Lemma land_bit_testbit a k : 0 <= k -> negb (Z.land a (Z.shiftl 1 k) =? 0) = Z.testbit a k.
Proof.
  intros Hk. rewrite Z.shiftl_1_l.
  assert (Z.land a (2 ^ k) = if Z.testbit a k then 2 ^ k else 0) as ->.
  { apply Z.bits_inj'. intros i Hi. rewrite Z.land_spec.
    destruct (Z.eq_dec i k) as [-> | Hne].
    - rewrite Z.pow2_bits_true, andb_true_r by done.
      destruct (Z.testbit a k); [by rewrite Z.pow2_bits_true | by rewrite Z.testbit_0_l].
    - rewrite Z.pow2_bits_false, andb_false_r by lia.
      destruct (Z.testbit a k); [by rewrite Z.pow2_bits_false by lia | by rewrite Z.testbit_0_l]. }
  destruct (Z.testbit a k); [| done].
  destruct (Z.eqb_spec (2 ^ k) 0); [| done]. pose proof (Z.pow_pos_nonneg 2 k). lia.
Qed.
