(* ===== verification/Bits.v ===== *)
(** * Bits inside byte arrays

    The DMR code reads and writes bits most significant first inside byte
    arrays: [(data[i/8] >> (7 - i%8)) & 1] and
    [data[i/8] |= 1 << (7 - i%8)].  This file gives the two idioms, the loop
    that packs a run of bits, and the extensionality principle that turns an
    equation between byte arrays into one between their bits. *)

From S2P Require Import Prelude.

Definition bit_at (bs : list Z) (i : nat) : Z :=
  Z.land (Z.shiftr (bs.[i / 8]) (Z.of_nat (7 - i mod 8))) 1.

Definition set_bit (bs : list Z) (i : nat) : list Z :=
  <[(i / 8)%nat := Z.lor (bs.[i / 8]) (Z.shiftl 1 (Z.of_nat (7 - i mod 8)))]> bs.

(** [for i := 0; i < n; i++ { if p(i) { dst[(off+i)/8] |= 1 << (7-(off+i)%8) } }] *)
Definition or_bits (dst : list Z) (off n : nat) (p : nat -> bool) : list Z :=
  foldl (fun d i => if p i then set_bit d (off + i) else d) dst (seq 0 n).

Lemma bit_at_testbit bs i :
  bit_at bs i = Z.b2z (Z.testbit (bs.[i / 8]) (Z.of_nat (7 - i mod 8))).
Proof.
  unfold bit_at. change 1 with (Z.ones 1). rewrite Z.land_ones by lia. change (2 ^ 1) with 2.
  by rewrite Z.shiftr_div_pow2, <- Z.testbit_spec' by lia.
Qed.

Lemma bit_at_is_bit bs i : is_bit (bit_at bs i).
Proof. rewrite bit_at_testbit. auto with bytes. Qed.
#[export] Hint Resolve bit_at_is_bit : bytes.

Lemma bit_at_eqb_1 bs i :
  (bit_at bs i =? 1) = Z.testbit (bs.[i / 8]) (Z.of_nat (7 - i mod 8)).
Proof. rewrite bit_at_testbit. by destruct (Z.testbit _ _). Qed.

Lemma bit_at_eq_b2z bs i : bit_at bs i = Z.b2z (bit_at bs i =? 1).
Proof. rewrite bit_at_eqb_1. apply bit_at_testbit. Qed.

Lemma shift_one_testbit k j : 0 <= k -> 0 <= j -> Z.testbit (Z.shiftl 1 k) j = (j =? k).
Proof.
  intros Hk Hj. rewrite Z.shiftl_1_l. destruct (Z.eqb_spec j k) as [-> | Hne].
  - by rewrite Z.pow2_bits_true.
  - by rewrite Z.pow2_bits_false by lia.
Qed.

Lemma set_bit_length bs i : length (set_bit bs i) = length bs.
Proof. apply length_insert. Qed.

Lemma div_mod_ne_8 i j : i <> j -> (i / 8 = j / 8)%nat -> (i mod 8 <> j mod 8)%nat.
Proof.
  intros Hne Hd Hm. pose proof (Nat.div_mod_eq i 8). pose proof (Nat.div_mod_eq j 8). lia.
Qed.

Lemma bit_at_set_bit bs i : (i < 8 * length bs)%nat -> bit_at (set_bit bs i) i = 1.
Proof.
  intros Hi. rewrite bit_at_testbit. unfold set_bit.
  rewrite byte_at_insert by (apply Nat.Div0.div_lt_upper_bound; lia).
  rewrite Z.lor_spec, shift_one_testbit, Z.eqb_refl, orb_true_r by lia. done.
Qed.

Lemma bit_at_set_bit_ne bs i j : i <> j -> bit_at (set_bit bs i) j = bit_at bs j.
Proof.
  intros Hne. rewrite !bit_at_testbit. unfold set_bit.
  destruct (decide (i / 8 = j / 8)%nat) as [Hd | Hd]; [| by rewrite byte_at_insert_ne].
  destruct (decide (i / 8 < length bs)%nat) as [Hl | Hl].
  - rewrite <- Hd, byte_at_insert by done.
    rewrite Z.lor_spec, shift_one_testbit by lia.
    pose proof (div_mod_ne_8 i j Hne Hd).
    pose proof (Nat.mod_upper_bound i 8). pose proof (Nat.mod_upper_bound j 8).
    destruct (Z.eqb_spec (Z.of_nat (7 - j mod 8)) (Z.of_nat (7 - i mod 8))); [lia |].
    by rewrite orb_false_r.
  - by rewrite list_insert_ge by lia.
Qed.

Lemma bit_at_zeros n i : bit_at (replicate n 0) i = 0.
Proof. unfold bit_at. by rewrite byte_at_replicate, Z.shiftr_0_l. Qed.

Lemma set_bit_bytes bs i : Forall is_byte bs -> Forall is_byte (set_bit bs i).
Proof.
  intros Hb. apply Forall_insert; [done |]. apply byte_lor.
  - by apply byte_at_Forall.
  - rewrite Z.shiftl_1_l. split; [lia |].
    change 256 with (2 ^ 8). apply Z.pow_lt_mono_r; lia.
Qed.

Lemma or_bits_length dst off n p : length (or_bits dst off n p) = length dst.
Proof.
  unfold or_bits. apply (foldl_inv (fun d => length d = length dst)); [done |].
  intros d b _ Hd. destruct (p b); by rewrite ?set_bit_length.
Qed.

Lemma or_bits_bytes dst off n p :
  Forall is_byte dst -> Forall is_byte (or_bits dst off n p).
Proof.
  intros Hd. apply (foldl_inv (Forall is_byte)); [done |].
  intros d b _ IH. destruct (p b); auto using set_bit_bytes.
Qed.
#[export] Hint Resolve set_bit_bytes or_bits_bytes : bytes.

Lemma zeros_bytes n : Forall is_byte (replicate n 0).
Proof. by apply Forall_replicate. Qed.
#[export] Hint Resolve zeros_bytes : bytes.

(** What the packing loop leaves at every bit position. *)
Lemma bit_at_or_bits dst off n p j :
  (off + n <= 8 * length dst)%nat ->
  bit_at (or_bits dst off n p) j =
  if decide (off <= j < off + n)%nat
  then if p (j - off)%nat then 1 else bit_at dst j
  else bit_at dst j.
Proof.
  intros Hlen. unfold or_bits.
  refine (proj2 (foldl_seq_ind (fun k d => length d = length dst /\
    bit_at d j = if decide (off <= j < off + k)%nat
                 then if p (j - off)%nat then 1 else bit_at dst j else bit_at dst j) _ 0 n dst _ _)).
  - split; [done |]. rewrite decide_False by lia. done.
  - intros i d Hi [Hl IH].
    split; [destruct (p i); by rewrite ?set_bit_length |].
    destruct (decide (j = off + i)%nat) as [-> | Hne].
    + rewrite decide_True by lia. rewrite decide_False in IH by lia.
      replace (off + i - off)%nat with i by lia.
      destruct (p i); [rewrite bit_at_set_bit by lia; done | done].
    + assert (Hs : bit_at (if p i then set_bit d (off + i) else d) j = bit_at d j)
        by (destruct (p i); [apply bit_at_set_bit_ne; lia | done]).
      rewrite Hs, IH. case_decide; case_decide; try lia; done.
Qed.

(** Writing over zero bits leaves exactly the bits written. *)
Lemma bit_at_or_bits_zero dst off n p j :
  (off + n <= 8 * length dst)%nat -> (off <= j < off + n)%nat -> bit_at dst j = 0 ->
  bit_at (or_bits dst off n p) j = Z.b2z (p (j - off)%nat).
Proof.
  intros Hlen Hj Hz. rewrite bit_at_or_bits, decide_True by done. rewrite Hz.
  by destruct (p _).
Qed.

Lemma bit_at_or_bits_out dst off n p j :
  (off + n <= 8 * length dst)%nat -> (j < off \/ off + n <= j)%nat ->
  bit_at (or_bits dst off n p) j = bit_at dst j.
Proof. intros Hlen Hj. rewrite bit_at_or_bits, decide_False by lia. done. Qed.

(** Two byte arrays with the same bits are equal. *)
Lemma bytes_ext l1 l2 :
  length l1 = length l2 -> Forall is_byte l1 -> Forall is_byte l2 ->
  (forall i, (i < 8 * length l1)%nat -> bit_at l1 i = bit_at l2 i) -> l1 = l2.
Proof.
  intros Hlen H1 H2 Hbits. apply byte_at_ext; [done |]. intros i Hi.
  apply (Z_ext_below 8); [by apply byte_range, byte_at_Forall .. | lia |].
  intros k Hk.
  specialize (Hbits (8 * i + (7 - Z.to_nat k))%nat ltac:(lia)).
  rewrite !bit_at_testbit in Hbits.
  rewrite (Nat.mul_comm 8), Nat.div_add_l, Nat.div_small, Nat.add_0_r in Hbits by lia.
  rewrite Nat.add_comm, Nat.Div0.mod_add, Nat.mod_small in Hbits by lia.
  replace (Z.of_nat (7 - (7 - Z.to_nat k))) with k in Hbits by lia.
  by destruct (Z.testbit (l1.[i]) k), (Z.testbit (l2.[i]) k).
Qed.

(** Packing the bits of a byte array rebuilds it. *)
Lemma or_bits_rebuild bs n p :
  length bs = n -> Forall is_byte bs ->
  (forall i, (i < 8 * n)%nat -> p i = (bit_at bs i =? 1)) ->
  or_bits (replicate n 0) 0 (8 * n) p = bs.
Proof.
  intros Hl Hb Hp. apply bytes_ext; rewrite ?or_bits_length, ?length_replicate; auto with bytes.
  intros i Hi.
  rewrite bit_at_or_bits_zero by (rewrite ?length_replicate, ?bit_at_zeros; lia).
  rewrite Nat.sub_0_r, Hp, <- bit_at_eq_b2z by done. done.
Qed.

(** The packing loop from its first iteration. *)
Lemma or_bits_S dst off n p :
  or_bits dst off (S n) p =
  or_bits (if p 0%nat then set_bit dst off else dst) (S off) n (fun i => p (S i)).
Proof.
  unfold or_bits. cbn [seq foldl]. rewrite Nat.add_0_r, foldl_seq_shift. cbn [Nat.add].
  apply foldl_ext_in. intros d i _. by rewrite Nat.add_succ_r.
Qed.

Lemma or_bits_ext dst off n p q :
  (forall i, (i < n)%nat -> p i = q i) -> or_bits dst off n p = or_bits dst off n q.
Proof.
  intros H. apply foldl_ext_in. intros d i Hi. apply elem_of_seq in Hi. by rewrite H by lia.
Qed.

Lemma bit_at_insert l b v j :
  (b < length l)%nat -> (j / 8)%nat = b ->
  bit_at (<[b := v]> l) j = Z.b2z (Z.testbit v (Z.of_nat (7 - j mod 8))).
Proof. intros Hb <-. by rewrite bit_at_testbit, byte_at_insert. Qed.
Lemma bit_at_insert_ne l b v j : (j / 8)%nat <> b -> bit_at (<[b := v]> l) j = bit_at l j.
Proof. intros Hb. unfold bit_at. by rewrite byte_at_insert_ne. Qed.

(** Pasting a nibble over half of a byte. *)
Lemma nibble_low x y k :
  0 <= k < 8 ->
  Z.testbit (Z.lor (Z.land x 0xF0) (Z.land y 0x0F)) k = if k <? 4 then Z.testbit y k else Z.testbit x k.
Proof.
  intros Hk. rewrite Z.lor_spec, !Z.land_spec.
  assert (k = 0 \/ k = 1 \/ k = 2 \/ k = 3 \/ k = 4 \/ k = 5 \/ k = 6 \/ k = 7) as Hc by lia.
  assert (Ha : Z.testbit 0xF0 k = negb (k <? 4)) by (repeat destruct Hc as [-> | Hc]; by subst).
  assert (Hb : Z.testbit 0x0F k = (k <? 4)) by (repeat destruct Hc as [-> | Hc]; by subst).
  rewrite Ha, Hb. destruct (k <? 4); btauto.
Qed.
Lemma nibble_high x y k :
  0 <= k < 8 ->
  Z.testbit (Z.lor (Z.land x 0x0F) (Z.land y 0xF0)) k = if k <? 4 then Z.testbit x k else Z.testbit y k.
Proof. intros Hk. rewrite Z.lor_comm. by apply nibble_low. Qed.
