(* ===== verification/Packet.v ===== *)
(** * The MMDVM DMRD packet (internal/mmdvm/proto/packet.go)

    The 55-byte packet every component exchanges: the record [Packet],
    [Equal], [Decode] and [Encode].  A Go string is the list of its bytes. *)

From S2P Require Import Prelude.

Definition minPacketLen : nat := 53.
Definition maxPacketLen : nat := 55.

Record Packet := mkPacket {
  Signature : list Z;
  Seq : Z;
  Src : Z;
  Dst : Z;
  Repeater : Z;
  Slot : bool;
  GroupCall : bool;
  FrameType : Z;
  DTypeOrVSeq : Z;
  StreamID : Z;
  DMRData : list Z
}.

#[export] Instance Packet_eq_dec : EqDecision Packet.
Proof. solve_decision. Defined.

(** The zero value of the struct. *)
Definition zero_packet : Packet :=
  mkPacket [] 0 0 0 0 false false 0 0 0 (replicate 33 0).

Definition Equal (p other : Packet) : bool :=
  if negb (bool_decide (Signature p = Signature other)) then false
  else if negb (Seq p =? Seq other) then false
  else if negb (Src p =? Src other) then false
  else if negb (Dst p =? Dst other) then false
  else if negb (Repeater p =? Repeater other) then false
  else if negb (eqb (Slot p) (Slot other)) then false
  else if negb (eqb (GroupCall p) (GroupCall other)) then false
  else if negb (FrameType p =? FrameType other) then false
  else if negb (DTypeOrVSeq p =? DTypeOrVSeq other) then false
  else if negb (StreamID p =? StreamID other) then false
  else if negb (bool_decide (DMRData p = DMRData other)) then false
  else true.

Definition Decode (data : list Z) : Packet * bool :=
  if (length data <? minPacketLen)%nat then (zero_packet, false)
  else if (maxPacketLen <? length data)%nat then (zero_packet, false)
  else
    let bits := data.[15] in
    ({| Signature := take 4 data;
        Seq := data.[4];
        Src := get_be24 (data.[5]) (data.[6]) (data.[7]);
        Dst := get_be24 (data.[8]) (data.[9]) (data.[10]);
        Repeater := get_be32 (data.[11]) (data.[12]) (data.[13]) (data.[14]);
        Slot := negb (Z.land bits 0x80 =? 0);
        GroupCall := Z.land bits 0x40 =? 0;
        FrameType := Z.shiftr (Z.land bits 0x30) 4;
        DTypeOrVSeq := Z.land bits 0x0F;
        StreamID := get_be32 (data.[16]) (data.[17]) (data.[18]) (data.[19]);
        DMRData := take 33 (drop 20 data) |}, true).

(** The flags byte at offset 15. *)
Definition encode_flags (p : Packet) : Z :=
  let bits := 0 in
  let bits := if Slot p then Z.lor bits 0x80 else bits in
  let bits := if negb (GroupCall p) then Z.lor bits 0x40 else bits in
  let bits := Z.lor bits (u8 (Z.shiftl (Z.land (FrameType p) 3) 4)) in
  Z.lor bits (u8 (Z.land (DTypeOrVSeq p) 0xF)).

Definition Encode (p : Packet) : list Z :=
  let data := replicate maxPacketLen 0 in
  let data := list_inserts 0 (take 4 (Signature p)) data in
  let data := <[4%nat := u8 (Seq p)]> data in
  let data := <[5%nat := u8 (Z.shiftr (Src p) 16)]> data in
  let data := <[6%nat := u8 (Z.shiftr (Src p) 8)]> data in
  let data := <[7%nat := u8 (Src p)]> data in
  let data := <[8%nat := u8 (Z.shiftr (Dst p) 16)]> data in
  let data := <[9%nat := u8 (Z.shiftr (Dst p) 8)]> data in
  let data := <[10%nat := u8 (Dst p)]> data in
  let data := <[11%nat := u8 (Z.shiftr (Repeater p) 24)]> data in
  let data := <[12%nat := u8 (Z.shiftr (Repeater p) 16)]> data in
  let data := <[13%nat := u8 (Z.shiftr (Repeater p) 8)]> data in
  let data := <[14%nat := u8 (Repeater p)]> data in
  let data := <[15%nat := encode_flags p]> data in
  let data := <[16%nat := u8 (Z.shiftr (StreamID p) 24)]> data in
  let data := <[17%nat := u8 (Z.shiftr (StreamID p) 16)]> data in
  let data := <[18%nat := u8 (Z.shiftr (StreamID p) 8)]> data in
  let data := <[19%nat := u8 (StreamID p)]> data in
  let data := list_inserts 20 (take 33 (DMRData p)) data in
  let data := <[53%nat := 0]> data in
  <[54%nat := 0]> data.

(** ** The packets the wire can carry *)

Record packet_wf (p : Packet) : Prop := {
  wf_sig_len : length (Signature p) = 4%nat;
  wf_sig : Forall is_byte (Signature p);
  wf_seq : is_byte (Seq p);
  wf_src : is_u24 (Src p);
  wf_dst : is_u24 (Dst p);
  wf_rpt : is_u32 (Repeater p);
  wf_frame : 0 <= FrameType p < 4;
  wf_dtype : 0 <= DTypeOrVSeq p < 16;
  wf_stream : is_u32 (StreamID p);
  wf_data_len : length (DMRData p) = 33%nat;
  wf_data : Forall is_byte (DMRData p)
}.

#[export] Instance packet_wf_dec p : Decision (packet_wf p).
Proof.
  refine (cast_if (decide (
    (length (Signature p) = 4%nat /\ Forall is_byte (Signature p) /\ is_byte (Seq p) /\
     is_u24 (Src p) /\ is_u24 (Dst p) /\ is_u32 (Repeater p)) /\
    (0 <= FrameType p < 4 /\ 0 <= DTypeOrVSeq p < 16 /\ is_u32 (StreamID p) /\
     length (DMRData p) = 33%nat /\ Forall is_byte (DMRData p)))));
    [constructor; tauto | intros []; tauto].
Defined.

(** ** Layout *)

Lemma encode_length p : length (Encode p) = 55%nat.
Proof. unfold Encode. by rewrite !length_insert, length_inserts, !length_insert, length_inserts. Qed.

(** The packet as the concatenation of its fields. *)
Definition layout (p : Packet) : list Z :=
  Signature p ++ [Seq p] ++ put_be24 (Src p) ++ put_be24 (Dst p) ++ put_be32 (Repeater p) ++
  [encode_flags p] ++ put_be32 (StreamID p) ++ DMRData p ++ [0; 0].

Lemma encode_layout p :
  length (Signature p) = 4%nat -> length (DMRData p) = 33%nat -> is_byte (Seq p) ->
  Encode p = layout p.
Proof.
  destruct p as [sig sq sr ds rp sl gc ft dt st dd]. cbn [Signature DMRData Seq].
  intros Hs Hd Hq. unfold Encode, layout. cbn [Signature DMRData Seq Src Dst Repeater StreamID].
  rewrite (u8_id sq Hq).
  do 4 (destruct sig as [| ? sig]; [done |]). destruct sig; [| done].
  do 33 (destruct dd as [| ? dd]; [done |]). destruct dd; [| done].
  reflexivity.
Qed.

(** ** The flags byte *)

Lemma flags_roundtrip p :
  0 <= FrameType p < 4 -> 0 <= DTypeOrVSeq p < 16 ->
  let b := encode_flags p in
  negb (Z.land b 0x80 =? 0) = Slot p /\ (Z.land b 0x40 =? 0) = GroupCall p /\
  Z.shiftr (Z.land b 0x30) 4 = FrameType p /\ Z.land b 0x0F = DTypeOrVSeq p.
Proof.
  intros Hf Hd b. subst b. unfold encode_flags.
  generalize dependent (FrameType p). generalize dependent (DTypeOrVSeq p). intros d Hd f Hf.
  assert (f = 0 \/ f = 1 \/ f = 2 \/ f = 3) as Hf' by lia.
  apply (small_cases 16) in Hd as (k & Hk & ->).
  destruct Hf' as [-> | [-> | [-> | ->]]]; destruct (Slot p), (GroupCall p);
    do 16 (destruct k as [| k]; [by vm_compute |]); lia.
Qed.

(** Any byte is the flags byte of what is read from it. *)
Definition reflag (b : Z) : Packet :=
  mkPacket [] 0 0 0 0 (negb (Z.land b 0x80 =? 0)) (Z.land b 0x40 =? 0)
    (Z.shiftr (Z.land b 0x30) 4) (Z.land b 0x0F) 0 [].

Lemma reflag_all :
  forallb (fun k => encode_flags (reflag (Z.of_nat k)) =? Z.of_nat k) (seq 0 256) = true.
Proof. vm_compute. reflexivity. Qed.

Lemma reflag_flags b : is_byte b -> encode_flags (reflag b) = b.
Proof.
  intros Hb. apply (small_cases 256) in Hb as (k & Hk & ->).
  pose proof (forallb_seq _ _ k reflag_all Hk) as H. by apply Z.eqb_eq in H.
Qed.

(** ** Decoding an encoded packet *)

(** The branch of [Decode] behind the two length guards. *)
Definition decode_fields (data : list Z) : Packet :=
  let f := reflag (data.[15]) in
  mkPacket (take 4 data) (data.[4])
    (get_be24 (data.[5]) (data.[6]) (data.[7])) (get_be24 (data.[8]) (data.[9]) (data.[10]))
    (get_be32 (data.[11]) (data.[12]) (data.[13]) (data.[14]))
    (Slot f) (GroupCall f) (FrameType f) (DTypeOrVSeq f)
    (get_be32 (data.[16]) (data.[17]) (data.[18]) (data.[19])) (take 33 (drop 20 data)).

Lemma decode_accepts data :
  (53 <= length data <= 55)%nat -> Decode data = (decode_fields data, true).
Proof.
  intros Hl. unfold Decode, minPacketLen, maxPacketLen.
  destruct (Nat.ltb_spec (length data) 53); [lia |].
  by destruct (Nat.ltb_spec 55 (length data)); [lia |].
Qed.

Lemma decode_rejects data :
  (length data < 53 \/ 55 < length data)%nat -> Decode data = (zero_packet, false).
Proof.
  intros Hl. unfold Decode, minPacketLen, maxPacketLen.
  destruct (Nat.ltb_spec (length data) 53); [done |].
  by destruct (Nat.ltb_spec 55 (length data)); [| lia].
Qed.

Lemma decode_fields_layout p : packet_wf p -> decode_fields (layout p) = p.
Proof.
  intros [Hsl Hs Hq Hsr Hds Hrp Hft Hdt Hst Hdl Hd].
  destruct (flags_roundtrip p Hft Hdt) as (F1 & F2 & F3 & F4).
  unfold layout. revert F1 F2 F3 F4. generalize (encode_flags p). intros b.
  destruct p as [sig sq sr ds rp sl gc ft dt st dd].
  cbn [Signature DMRData Seq Src Dst Repeater StreamID Slot GroupCall FrameType DTypeOrVSeq] in *.
  intros F1 F2 F3 F4.
  do 4 (destruct sig as [| ? sig]; [done |]). destruct sig; [| done].
  do 33 (destruct dd as [| ? dd]; [done |]). destruct dd; [| done].
  unfold decode_fields, reflag. cbn [Slot GroupCall FrameType DTypeOrVSeq].
  f_equal; [exact (get_put_be24 sr Hsr) | exact (get_put_be24 ds Hds) | exact (get_put_be32 rp Hrp)
    | exact F1 | exact F2 | exact F3 | exact F4 | exact (get_put_be32 st Hst)].
Qed.

Lemma layout_decode_fields data :
  (53 <= length data <= 55)%nat -> Forall is_byte data ->
  layout (decode_fields data) = take 53 data ++ [0; 0].
Proof.
  intros Hl Hb.
  assert (Hat : forall i, is_byte (data.[i])) by (intros; by apply byte_at_Forall).
  unfold layout, decode_fields. cbn [Signature DMRData Seq Src Dst Repeater StreamID].
  rewrite !put_get_be24, !put_get_be32 by auto.
  unfold encode_flags. cbn [Slot GroupCall FrameType DTypeOrVSeq].
  change (Z.lor _ _) with (encode_flags (reflag (data.[15]))).
  rewrite reflag_flags by auto. clear Hat Hb.
  do 53 (destruct data as [| ? data]; [cbn in Hl; lia |]). reflexivity.
Qed.

Lemma decode_fields_wf data :
  (53 <= length data)%nat -> Forall is_byte data -> packet_wf (decode_fields data).
Proof.
  intros Hl Hb.
  assert (Hat : forall i, is_byte (data.[i])) by (intros; by apply byte_at_Forall).
  constructor; cbn [decode_fields reflag Signature Seq Src Dst Repeater FrameType DTypeOrVSeq
    StreamID DMRData]; auto with bytes.
  - rewrite length_take. lia.
  - by apply Forall_take.
  - rewrite Z.shiftr_div_pow2 by lia.
    pose proof (land_range 6 (data.[15]) 0x30 ltac:(lia) ltac:(cbn; lia)) as H. cbn in H |- *.
    split; [apply Z.div_pos | apply Z.div_lt_upper_bound]; lia.
  - apply (land_range 4); cbn; lia.
  - rewrite length_take, length_drop. lia.
  - by apply Forall_take, Forall_drop.
Qed.

(** ** Properties *)

(** decoding the encoding of a packet whose fields fit the wire gives the
    packet back, with the metadata bytes dropped. *)
Theorem decode_encode p : packet_wf p -> Decode (Encode p) = (p, true).
Proof.
  intros Hp. rewrite decode_accepts by (rewrite encode_length; lia).
  rewrite encode_layout by apply Hp. by rewrite decode_fields_layout.
Qed.

(** [Decode] accepts exactly the lengths 53 to 55; re-encoding what it
    accepts gives back the 53 bytes of the packet followed by two zero
    metadata bytes, and what it yields fits the wire; everything else is the
    zero packet and [false]. *)
Theorem encode_decode data :
  Forall is_byte data ->
  (if decide (53 <= length data <= 55)%nat
   then exists p, Decode data = (p, true) /\ packet_wf p /\ Encode p = take 53 data ++ [0; 0]
   else Decode data = (zero_packet, false)).
Proof.
  intros Hb. case_decide as Hl; [| apply decode_rejects; lia].
  pose proof (decode_fields_wf data ltac:(lia) Hb) as Hwf.
  exists (decode_fields data). split; [by apply decode_accepts |]. split; [done |].
  rewrite encode_layout by apply Hwf. by apply layout_decode_fields.
Qed.

(** [Equal] decides equality of packets. *)
Theorem equal_spec p q : Equal p q = true <-> p = q.
Proof.
  split; [| intros ->; unfold Equal; rewrite !bool_decide_true by done;
            by rewrite !Z.eqb_refl, !eqb_reflx].
  destruct p, q. unfold Equal. cbn. intros H.
  repeat match type of H with
  | (if negb (bool_decide ?P) then _ else _) = _ => case_bool_decide; [| done]; cbn in H
  | (if negb (?a =? ?b) then _ else _) = _ => destruct (Z.eqb_spec a b); [| done]; cbn in H
  | (if negb (eqb ?a ?b) then _ else _) = _ => destruct (eqb_spec a b); [| done]; cbn in H
  end.
  by subst.
Qed.

(** ** Witnesses *)

(** A voice packet for talkgroup 9 on the second slot. *)
Definition sample : Packet :=
  mkPacket [68; 77; 82; 68] 7 3120001 9 312000 true true 1 3 305419896 (Z.of_nat <$> seq 0 33).

Lemma decode_encode_witness :
  packet_wf sample /\ Decode (Encode sample) = (sample, true).
Proof. split; [by_eval | apply decode_encode; by_eval]. Defined.

Lemma encode_decode_witness :
  exists p, Decode (Encode sample) = (p, true) /\ packet_wf p /\
            Encode p = take 53 (Encode sample) ++ [0; 0].
Proof.
  apply (encode_decode (Encode sample)). by_eval.
Defined.
