(* ===== verification/Bptc.v ===== *)
(** * BPTC(196,96) (internal/dmr/bptc/bptc19696.go)

    The block product turbo code of the Link Control bursts: [Encode],
    [Decode] with the row and column Hamming correction, the burst builder
    and the burst decoder, and the Golay(20,8) slot type.

    The proofs view the 196-bit block as the reserved bit and 13 rows of 15
    cells; a block is a codeword ([codeword]) when the parity equations of
    rows 0-8 and of all columns hold. *)

From S2P Require Import Prelude Bits.

Definition zeros (n : nat) : list Z := replicate n 0.

(** ** Parity *)

(** [d] is the slice [grid[base : base+11]]; the writes are past its end. *)
Definition computeRowParity (grid : list Z) (r : nat) : list Z :=
  let base := (1 + r * 15)%nat in
  let d := take 11 (drop base grid) in
  let grid := <[(base + 11)%nat := Z.lxor (Z.lxor (Z.lxor (Z.lxor (Z.lxor (Z.lxor (d.[0]) (d.[1])) (d.[2])) (d.[3])) (d.[5])) (d.[7])) (d.[8])]> grid in
  let grid := <[(base + 12)%nat := Z.lxor (Z.lxor (Z.lxor (Z.lxor (Z.lxor (Z.lxor (d.[1]) (d.[2])) (d.[3])) (d.[4])) (d.[6])) (d.[8])) (d.[9])]> grid in
  let grid := <[(base + 13)%nat := Z.lxor (Z.lxor (Z.lxor (Z.lxor (Z.lxor (Z.lxor (d.[2]) (d.[3])) (d.[4])) (d.[5])) (d.[7])) (d.[9])) (d.[10])]> grid in
  <[(base + 14)%nat := Z.lxor (Z.lxor (Z.lxor (Z.lxor (Z.lxor (Z.lxor (d.[0]) (d.[1])) (d.[2])) (d.[4])) (d.[6])) (d.[7])) (d.[10])]> grid.

Definition computeColParity (grid : list Z) (c : nat) : list Z :=
  let d := (fun r => grid.[1 + r * 15 + c]) <$> seq 0 9 in
  let grid := <[(1 + 9 * 15 + c)%nat := Z.lxor (Z.lxor (Z.lxor (Z.lxor (d.[0]) (d.[1])) (d.[3])) (d.[5])) (d.[6])]> grid in
  let grid := <[(1 + 10 * 15 + c)%nat := Z.lxor (Z.lxor (Z.lxor (Z.lxor (Z.lxor (d.[0]) (d.[1])) (d.[2])) (d.[4])) (d.[6])) (d.[7])]> grid in
  let grid := <[(1 + 11 * 15 + c)%nat := Z.lxor (Z.lxor (Z.lxor (Z.lxor (Z.lxor (Z.lxor (d.[0]) (d.[1])) (d.[2])) (d.[3])) (d.[5])) (d.[7])) (d.[8])]> grid in
  <[(1 + 12 * 15 + c)%nat := Z.lxor (Z.lxor (Z.lxor (Z.lxor (d.[0]) (d.[2])) (d.[4])) (d.[5])) (d.[8])]> grid.

(** ** Encode *)

(** [grid[pos] = data[idx]; idx++] *)
Definition place (data : list Z) (st : list Z * nat) (pos : nat) : list Z * nat :=
  let '(grid, idx) := st in (<[pos := data.[idx]]> grid, S idx).

Definition place_data (data : list Z) : list Z :=
  let st := (zeros 196, 0%nat) in
  let st := foldl (fun st c => place data st (1 + c)) st (seq 3 8) in
  let st := foldl (fun st r =>
              let base := (1 + r * 15)%nat in
              foldl (fun st c => place data st (base + c)) st (seq 0 11)) st (seq 1 8) in
  fst st.

Definition interleave (grid : list Z) : list Z :=
  foldl (fun out a => <[((a * 181) mod 196)%nat := grid.[a]]> out) (zeros 196) (seq 0 196).

(** The block before interleaving. *)
Definition encode_grid (data : list Z) : list Z :=
  let grid := place_data data in
  let grid := foldl computeRowParity grid (seq 0 9) in
  foldl computeColParity grid (seq 0 15).

Definition Encode (data : list Z) : list Z := interleave (encode_grid data).

(** ** Syndromes and correction *)

Definition syndrome (s0 s1 s2 s3 : Z) : Z :=
  Z.lor (Z.lor (Z.lor s0 (Z.shiftl s1 1)) (Z.shiftl s2 2)) (Z.shiftl s3 3).

Definition rowSyndrome (b : list Z) : Z :=
  let s0 := Z.lxor (Z.lxor (Z.lxor (Z.lxor (Z.lxor (Z.lxor (Z.lxor (b.[0]) (b.[1])) (b.[2])) (b.[3])) (b.[5])) (b.[7])) (b.[8])) (b.[11]) in
  let s1 := Z.lxor (Z.lxor (Z.lxor (Z.lxor (Z.lxor (Z.lxor (Z.lxor (b.[1]) (b.[2])) (b.[3])) (b.[4])) (b.[6])) (b.[8])) (b.[9])) (b.[12]) in
  let s2 := Z.lxor (Z.lxor (Z.lxor (Z.lxor (Z.lxor (Z.lxor (Z.lxor (b.[2]) (b.[3])) (b.[4])) (b.[5])) (b.[7])) (b.[9])) (b.[10])) (b.[13]) in
  let s3 := Z.lxor (Z.lxor (Z.lxor (Z.lxor (Z.lxor (Z.lxor (Z.lxor (b.[0]) (b.[1])) (b.[2])) (b.[4])) (b.[6])) (b.[7])) (b.[10])) (b.[14]) in
  syndrome s0 s1 s2 s3.

Definition colSyndrome (b : list Z) : Z :=
  let s0 := Z.lxor (Z.lxor (Z.lxor (Z.lxor (Z.lxor (b.[0]) (b.[1])) (b.[3])) (b.[5])) (b.[6])) (b.[9]) in
  let s1 := Z.lxor (Z.lxor (Z.lxor (Z.lxor (Z.lxor (Z.lxor (b.[0]) (b.[1])) (b.[2])) (b.[4])) (b.[6])) (b.[7])) (b.[10]) in
  let s2 := Z.lxor (Z.lxor (Z.lxor (Z.lxor (Z.lxor (Z.lxor (Z.lxor (b.[0]) (b.[1])) (b.[2])) (b.[3])) (b.[5])) (b.[7])) (b.[8])) (b.[11]) in
  let s3 := Z.lxor (Z.lxor (Z.lxor (Z.lxor (Z.lxor (b.[0]) (b.[2])) (b.[4])) (b.[5])) (b.[8])) (b.[12]) in
  syndrome s0 s1 s2 s3.

Definition hamming15_11SyndromeTable : list Z :=
  [-1; 11; 12; 8; 13; 5; 9; 3; 14; 0; 6; 1; 10; 7; 4; 2].
Definition hamming13_9SyndromeTable : list Z :=
  [-1; 9; 10; 6; 11; 3; 7; 1; 12; -1; 4; -1; 8; 5; 2; 0].

(** [grid[i] ^= 1] *)
Definition flip (grid : list Z) (i : nat) : list Z := <[i := Z.lxor (grid.[i]) 1]> grid.

(** The state of the correction: the grid, [total] and [unc]. *)
Definition fec := (list Z * Z * bool)%type.

(** Both loops end an iteration the same way: look the syndrome up and flip
    the cell at [cell pos]. *)
Definition correct (table : list Z) (cell : nat -> nat) (s : Z) (st : fec) : fec :=
  let '(grid, total, unc) := st in
  if negb (s =? 0) then
    let pos := table.[Z.to_nat s] in
    if 0 <=? pos then (flip grid (cell (Z.to_nat pos)), total + 1, unc)
    else (grid, total, true)
  else st.

Definition row_step (st : fec) (r : nat) : fec :=
  let base := (1 + r * 15)%nat in
  let row := take 15 (drop base (fst (fst st))) in
  correct hamming15_11SyndromeTable (fun pos => (base + pos)%nat) (rowSyndrome row) st.

Definition col_step (st : fec) (c : nat) : fec :=
  let col := (fun r => (fst (fst st)).[1 + r * 15 + c]) <$> seq 0 13 in
  correct hamming13_9SyndromeTable (fun pos => (1 + pos * 15 + c)%nat) (colSyndrome col) st.

Definition hammingCorrect (grid : list Z) : fec :=
  let st := (grid, 0, false) in
  let st := foldl row_step st (seq 0 9) in
  foldl col_step st (seq 0 15).

(** ** Decode *)

Definition deinterleave (bits : list Z) : list Z :=
  foldl (fun grid a => <[a := bits.[(a * 181) mod 196]]> grid) (zeros 196) (seq 0 196).

(** [data[idx] = grid[pos]; idx++] *)
Definition collect (grid : list Z) (st : list Z * nat) (pos : nat) : list Z * nat :=
  let '(data, idx) := st in (<[idx := grid.[pos]]> data, S idx).

Definition collect_data (grid : list Z) : list Z :=
  let st := (zeros 96, 0%nat) in
  let st := foldl (fun st c => collect grid st (1 + c)) st (seq 3 8) in
  let st := foldl (fun st r =>
              let base := (1 + r * 15)%nat in
              foldl (fun st c => collect grid st (base + c)) st (seq 0 11)) st (seq 1 8) in
  fst st.

Definition Decode (bits : list Z) : fec :=
  let grid := deinterleave bits in
  let '(grid, corrected, uncorrectable) := hammingCorrect grid in
  (collect_data grid, corrected, uncorrectable).

(** ** Slot type *)

Definition golayEncode208 (input : Z) : list Z :=
  let bits := (fun i => Z.land (Z.shiftr input (Z.of_nat (7 - i))) 1) <$> seq 0 8 in
  let x ps := foldl Z.lxor 0 ((fun i => bits.[i]) <$> ps) in
  bits ++
  [ x [1; 4; 5; 6; 7]%nat; x [1; 2; 4]%nat; x [0; 2; 3; 5]%nat; x [0; 1; 3; 4; 6]%nat;
    x [0; 1; 2; 4; 5; 7]%nat; x [0; 2; 3; 4; 7]%nat; x [3; 6; 7]%nat; x [0; 1; 5; 6]%nat;
    x [0; 1; 2; 6; 7]%nat; x [2; 3; 4; 5; 6]%nat; x [0; 3; 4; 5; 6; 7]%nat;
    x [1; 2; 3; 5; 7]%nat ].

(** ** Bursts *)

Definition bsSourcedData : Z := 0xDFF57D75DF5D.

Definition info_bits (lcBytes : list Z) : list Z :=
  foldl (fun b i => foldl (fun b j =>
      <[(i * 8 + j)%nat := Z.land (Z.shiftr (lcBytes.[i]) (Z.of_nat (7 - j))) 1]> b)
    b (seq 0 8)) (zeros 96) (seq 0 12).

(** The 264 bits of the burst, one per element. *)
Definition burst_bits (lcBytes : list Z) (dataType colorCode : Z) : list Z :=
  let encoded := Encode (info_bits lcBytes) in
  let bits := zeros 264 in
  let bits := list_inserts 0 (take 98 encoded) bits in
  let bits := list_inserts 166 (take 98 (drop 98 encoded)) bits in
  let slotInput := Z.lor (u8 (Z.shiftl (Z.land colorCode 0xF) 4)) (Z.land dataType 0xF) in
  let slotBits := golayEncode208 slotInput in
  let bits := list_inserts 98 (take 10 slotBits) bits in
  let bits := list_inserts 156 (take 10 (drop 10 slotBits)) bits in
  foldl (fun b i =>
      <[(108 + i)%nat := u8 (Z.land (Z.shiftr bsSourcedData (Z.of_nat (47 - i))) 1)]> b)
    bits (seq 0 48).

Definition BuildLCDataBurst (lcBytes : list Z) (dataType colorCode : Z) : list Z :=
  let bits := burst_bits lcBytes dataType colorCode in
  or_bits (zeros 33) 0 264 (fun i => bits.[i] =? 1).

(** The 196 data bits of a burst. *)
Definition burst_data_bits (dmrData : list Z) : list Z :=
  let allBits := foldl (fun b i => <[i := bit_at dmrData i]> b) (zeros 264) (seq 0 264) in
  let dataBits := zeros 196 in
  let dataBits := list_inserts 0 (take 98 allBits) dataBits in
  list_inserts 98 (take 98 (drop 166 allBits)) dataBits.

(** [lcBytes[i/8] |= info[i] << (7 - i%8)] over the 96 bits. *)
Definition pack_info (info : list Z) : list Z :=
  foldl (fun lc i =>
      <[(i / 8)%nat := Z.lor (lc.[i / 8]) (u8 (Z.shiftl (info.[i]) (Z.of_nat (7 - i mod 8))))]> lc)
    (zeros 12) (seq 0 96).

Definition DecodeLCFromBurst (dmrData : list Z) : list Z * bool :=
  let '(info, _, uncorrectable) := Decode (burst_data_bits dmrData) in
  if uncorrectable then (zeros 12, false) else (pack_info info, true).

(** ** Parity equations *)

Definition xor_at (f : nat -> Z) (ps : list nat) : Z :=
  foldr (fun p acc => Z.lxor (f p) acc) 0 ps.

Definition row_masks : list (list nat) :=
  [[0; 1; 2; 3; 5; 7; 8; 11]; [1; 2; 3; 4; 6; 8; 9; 12];
   [2; 3; 4; 5; 7; 9; 10; 13]; [0; 1; 2; 4; 6; 7; 10; 14]]%nat.
Definition col_masks : list (list nat) :=
  [[0; 1; 3; 5; 6; 9]; [0; 1; 2; 4; 6; 7; 10];
   [0; 1; 2; 3; 5; 7; 8; 11]; [0; 2; 4; 5; 8; 12]]%nat.

Definition syndrome_of (s : list Z) : Z :=
  match s with
  | [s0; s1; s2; s3] => syndrome s0 s1 s2 s3
  | _ => 0
  end.

Lemma rowSyndrome_masks b : rowSyndrome b = syndrome_of (xor_at (byte_at b) <$> row_masks).
Proof. unfold rowSyndrome, xor_at. simpl. by rewrite !Z.lxor_assoc, !Z.lxor_0_r. Qed.
Lemma colSyndrome_masks b : colSyndrome b = syndrome_of (xor_at (byte_at b) <$> col_masks).
Proof. unfold colSyndrome, xor_at. simpl. by rewrite !Z.lxor_assoc, !Z.lxor_0_r. Qed.

Lemma xor_at_ext f g ps : (forall p, p ∈ ps -> f p = g p) -> xor_at f ps = xor_at g ps.
Proof.
  induction ps as [| p ps IH]; intros H; [done |]. simpl.
  rewrite H by (by left). rewrite IH; [done |]. intros q Hq. apply H. by right.
Qed.

(** Flipping one summand flips the sum. *)
Lemma xor_at_flip f i ps :
  NoDup ps ->
  xor_at (fun p => if decide (p = i) then Z.lxor (f p) 1 else f p) ps =
  Z.lxor (xor_at f ps) (if decide (i ∈ ps) then 1 else 0).
Proof.
  induction ps as [| p ps IH]; intros Hnd; [done |].
  apply NoDup_cons in Hnd as [Hp Hnd]. specialize (IH Hnd). simpl. rewrite IH.
  destruct (decide (p = i)) as [-> | Hne].
  - rewrite (decide_False (P := i ∈ ps)), (decide_True (P := i ∈ i :: ps)) by (done || by left).
    rewrite Z.lxor_0_r, !Z.lxor_assoc. f_equal. apply Z.lxor_comm.
  - rewrite Z.lxor_assoc. do 2 f_equal.
    destruct (decide (i ∈ ps)), (decide (i ∈ p :: ps)) as [Hin | Hin]; try done; exfalso;
      [apply Hin; by right | apply elem_of_cons in Hin as []; congruence].
Qed.

(** ** Cells *)

Definition cell (g : list Z) (r c : nat) : Z := g.[1 + r * 15 + c].

Definition row_ok (g : list Z) (r : nat) : Prop :=
  Forall (fun m => xor_at (cell g r) m = 0) row_masks.
Definition col_ok (g : list Z) (c : nat) : Prop :=
  Forall (fun m => xor_at (fun r => cell g r c) m = 0) col_masks.
Definition codeword (g : list Z) : Prop :=
  length g = 196%nat /\ (forall r, (r < 9)%nat -> row_ok g r) /\
  (forall c, (c < 15)%nat -> col_ok g c).

Lemma row_masks_lt : Forall (Forall (fun p => (p < 15)%nat)) row_masks.
Proof. by_eval. Qed.
Lemma col_masks_lt : Forall (Forall (fun p => (p < 13)%nat)) col_masks.
Proof. by_eval. Qed.

Lemma row_ok_ext g g' r :
  (forall c, (c < 15)%nat -> cell g' r c = cell g r c) -> row_ok g r -> row_ok g' r.
Proof.
  intros Heq Hok. unfold row_ok in *. rewrite Forall_forall in *. intros m Hm.
  rewrite <- (Hok m Hm). apply xor_at_ext. intros p Hp. apply Heq.
  pose proof row_masks_lt as H. rewrite Forall_forall in H. specialize (H m Hm).
  rewrite Forall_forall in H. auto.
Qed.
Lemma col_ok_ext g g' c :
  (forall r, (r < 13)%nat -> cell g' r c = cell g r c) -> col_ok g c -> col_ok g' c.
Proof.
  intros Heq Hok. unfold col_ok in *. rewrite Forall_forall in *. intros m Hm.
  rewrite <- (Hok m Hm). apply xor_at_ext. intros p Hp. apply Heq.
  pose proof col_masks_lt as H. rewrite Forall_forall in H. specialize (H m Hm).
  rewrite Forall_forall in H. auto.
Qed.

(** *** The parity steps establish their equations and touch nothing else *)

Lemma computeRowParity_length g r : length (computeRowParity g r) = length g.
Proof. unfold computeRowParity. by rewrite !length_insert. Qed.
Lemma computeColParity_length g c : length (computeColParity g c) = length g.
Proof. unfold computeColParity. by rewrite !length_insert. Qed.

Lemma computeRowParity_other g r i :
  (i < 1 + r * 15 + 11 \/ 1 + r * 15 + 14 < i)%nat -> (computeRowParity g r).[i] = g.[i].
Proof. intros Hi. unfold computeRowParity. by rewrite !byte_at_insert_ne by lia. Qed.

Lemma computeColParity_other g c i :
  (i < 136 \/ forall k, k < 4 -> i <> 136 + 15 * k + c)%nat -> (computeColParity g c).[i] = g.[i].
Proof.
  intros Hi. unfold computeColParity.
  assert (forall k, (k < 4)%nat -> (1 + (9 + k) * 15 + c)%nat <> i) as H
    by (intros k Hk; destruct Hi as [Hi | Hi]; [| specialize (Hi k Hk)]; lia).
  rewrite !byte_at_insert_ne; [done | exact (H 0%nat ltac:(lia)) | exact (H 1%nat ltac:(lia))
    | exact (H 2%nat ltac:(lia)) | exact (H 3%nat ltac:(lia))].
Qed.

Lemma xor_at_app f ps qs : xor_at f (ps ++ qs) = Z.lxor (xor_at f ps) (xor_at f qs).
Proof.
  induction ps as [| p ps IH]; simpl; [by rewrite Z.lxor_0_l |]. by rewrite IH, Z.lxor_assoc.
Qed.

(** A parity cell that holds the sum of the others closes its equation. *)
Lemma parity_closes f ps q : f q = xor_at f ps -> xor_at f (ps ++ [q]) = 0.
Proof.
  intros H. rewrite xor_at_app. unfold xor_at at 2. simpl.
  rewrite Z.lxor_0_r, H. apply Z.lxor_nilpotent.
Qed.

(** The four cells a row step writes. *)
Lemma computeRowParity_cells g r k ps :
  (1 + r * 15 + 14 < length g)%nat ->
  [[0; 1; 2; 3; 5; 7; 8]; [1; 2; 3; 4; 6; 8; 9];
   [2; 3; 4; 5; 7; 9; 10]; [0; 1; 2; 4; 6; 7; 10]]%nat !! k = Some ps ->
  cell (computeRowParity g r) r (11 + k) = xor_at (cell g r) ps.
Proof.
  intros Hl Hk. unfold cell, computeRowParity.
  do 4 (destruct k as [| k]; [injection Hk as <-;
    rewrite ?(byte_at_insert_ne _ (1 + r * 15 + 14)), ?(byte_at_insert_ne _ (1 + r * 15 + 13)),
      ?(byte_at_insert_ne _ (1 + r * 15 + 12)) by lia;
    rewrite byte_at_insert by (rewrite ?length_insert; lia);
    unfold xor_at; cbn [foldr]; rewrite !byte_at_take by lia;
    by rewrite !byte_at_drop, !Z.lxor_assoc, Z.lxor_0_r |]).
  done.
Qed.

Lemma computeRowParity_ok g r :
  (1 + r * 15 + 14 < length g)%nat -> row_ok (computeRowParity g r) r.
Proof.
  intros Hl.
  assert (Hrow : forall k ps, Forall (fun p => (p < 11)%nat) ps ->
    [[0; 1; 2; 3; 5; 7; 8]; [1; 2; 3; 4; 6; 8; 9];
     [2; 3; 4; 5; 7; 9; 10]; [0; 1; 2; 4; 6; 7; 10]]%nat !! k = Some ps ->
    xor_at (cell (computeRowParity g r) r) (ps ++ [(11 + k)%nat]) = 0).
  { intros k ps Hps Hk. apply parity_closes. rewrite (computeRowParity_cells g r k ps Hl Hk).
    apply xor_at_ext. intros p Hp. symmetry. apply computeRowParity_other.
    rewrite Forall_forall in Hps. specialize (Hps p Hp). lia. }
  unfold row_ok, row_masks. repeat apply Forall_cons_2; [.. | apply Forall_nil_2].
  - apply (Hrow 0%nat [0; 1; 2; 3; 5; 7; 8]%nat); [by_eval | done].
  - apply (Hrow 1%nat [1; 2; 3; 4; 6; 8; 9]%nat); [by_eval | done].
  - apply (Hrow 2%nat [2; 3; 4; 5; 7; 9; 10]%nat); [by_eval | done].
  - apply (Hrow 3%nat [0; 1; 2; 4; 6; 7; 10]%nat); [by_eval | done].
Qed.

(** The four cells a column step writes. *)
Lemma computeColParity_cells g c k ps :
  (c < 15)%nat -> length g = 196%nat ->
  [[0; 1; 3; 5; 6]; [0; 1; 2; 4; 6; 7]; [0; 1; 2; 3; 5; 7; 8]; [0; 2; 4; 5; 8]]%nat !! k
    = Some ps ->
  cell (computeColParity g c) (9 + k) c = xor_at (fun r => cell g r c) ps.
Proof.
  intros Hc Hl Hk. unfold cell, computeColParity.
  do 4 (destruct k as [| k]; [injection Hk as <-;
    rewrite ?(byte_at_insert_ne _ (1 + 12 * 15 + c)), ?(byte_at_insert_ne _ (1 + 11 * 15 + c)),
      ?(byte_at_insert_ne _ (1 + 10 * 15 + c)) by lia;
    rewrite byte_at_insert by (rewrite ?length_insert; lia);
    unfold xor_at; cbn [foldr]; rewrite !byte_at_map_seq by lia;
    by rewrite !Z.lxor_assoc, Z.lxor_0_r |]).
  done.
Qed.

Lemma computeColParity_ok g c :
  (c < 15)%nat -> length g = 196%nat -> col_ok (computeColParity g c) c.
Proof.
  intros Hc Hl.
  assert (Hcol : forall k ps, Forall (fun p => (p < 9)%nat) ps ->
    [[0; 1; 3; 5; 6]; [0; 1; 2; 4; 6; 7]; [0; 1; 2; 3; 5; 7; 8]; [0; 2; 4; 5; 8]]%nat !! k
      = Some ps ->
    xor_at (fun r => cell (computeColParity g c) r c) (ps ++ [(9 + k)%nat]) = 0).
  { intros k ps Hps Hk. apply parity_closes. rewrite (computeColParity_cells g c k ps Hc Hl Hk).
    apply xor_at_ext. intros p Hp. symmetry. apply computeColParity_other.
    rewrite Forall_forall in Hps. specialize (Hps p Hp). lia. }
  unfold col_ok, col_masks. repeat apply Forall_cons_2; [.. | apply Forall_nil_2].
  - apply (Hcol 0%nat [0; 1; 3; 5; 6]%nat); [by_eval | done].
  - apply (Hcol 1%nat [0; 1; 2; 4; 6; 7]%nat); [by_eval | done].
  - apply (Hcol 2%nat [0; 1; 2; 3; 5; 7; 8]%nat); [by_eval | done].
  - apply (Hcol 3%nat [0; 2; 4; 5; 8]%nat); [by_eval | done].
Qed.

(** *** The encoder's block is a codeword *)

Lemma row_parity_loop g n :
  length g = 196%nat -> (n <= 9)%nat ->
  let g' := foldl computeRowParity g (seq 0 n) in
  length g' = 196%nat /\ forall r, (r < n)%nat -> row_ok g' r.
Proof.
  intros Hl Hn. apply (foldl_seq_ind (fun k g' => length g' = 196%nat /\
    forall r, (r < k)%nat -> row_ok g' r) _ 0 n g).
  - split; [done | lia].
  - intros i x Hi [Hx IH]. split; [by rewrite computeRowParity_length |].
    intros r Hr. destruct (decide (r = i)) as [-> | Hne]; [apply computeRowParity_ok; lia |].
    apply (row_ok_ext x); [| apply IH; lia].
    intros c Hc. apply computeRowParity_other. lia.
Qed.

Lemma col_parity_loop g n :
  length g = 196%nat -> (n <= 15)%nat -> (forall r, (r < 9)%nat -> row_ok g r) ->
  let g' := foldl computeColParity g (seq 0 n) in
  length g' = 196%nat /\ (forall r, (r < 9)%nat -> row_ok g' r) /\
  forall c, (c < n)%nat -> col_ok g' c.
Proof.
  intros Hl Hn Hrow. apply (foldl_seq_ind (fun k g' => length g' = 196%nat /\
    (forall r, (r < 9)%nat -> row_ok g' r) /\ forall c, (c < k)%nat -> col_ok g' c) _ 0 n g).
  - split_ands; [done | done | lia].
  - intros i x Hi (Hx & Hr & IH). split_ands; [by rewrite computeColParity_length | |].
    + intros r Hlt. apply (row_ok_ext x); [| auto].
      intros c Hc. apply computeColParity_other. left. lia.
    + intros c Hc. destruct (decide (c = i)) as [-> | Hne]; [apply computeColParity_ok; lia |].
      apply (col_ok_ext x); [| apply IH; lia].
      intros r Hlt. apply computeColParity_other. right. lia.
Qed.

(** *** Placing and collecting the data bits *)

(** The 96 data positions in the order the loops visit them. *)
Definition data_cells : list nat :=
  ((fun c => 1 + c)%nat <$> seq 3 8) ++
  mjoin ((fun r => (fun c => 1 + r * 15 + c)%nat <$> seq 0 11) <$> seq 1 8).

Lemma place_data_flat data : place_data data = fst (foldl (place data) (zeros 196, 0%nat) data_cells).
Proof. reflexivity. Qed.
Lemma collect_data_flat grid :
  collect_data grid = fst (foldl (collect grid) (zeros 96, 0%nat) data_cells).
Proof. reflexivity. Qed.

Lemma data_cells_NoDup : NoDup data_cells.
Proof. by_eval. Qed.
Lemma data_cells_length : length data_cells = 96%nat.
Proof. reflexivity. Qed.

(** Data positions are rows 0-8, columns 0-10. *)
Definition data_position (i : nat) : bool :=
  existsb (fun r => (1 + r * 15 <=? i)%nat && (i <=? 1 + r * 15 + 10)%nat) (seq 0 9).
Lemma data_cells_position : Forall (fun i => data_position i = true) data_cells.
Proof. by_eval. Qed.

Lemma place_length data ps st : length (fst (foldl (place data) st ps)) = length (fst st).
Proof.
  apply (foldl_inv (fun st' => length (fst st') = length (fst st))); [done |].
  intros [g i] p _ H. simpl in *. by rewrite length_insert.
Qed.

Lemma place_other data ps g k i : i ∉ ps -> (fst (foldl (place data) (g, k) ps)).[i] = g.[i].
Proof.
  intros Hi. apply (foldl_inv (fun st' => (fst st').[i] = g.[i])); [done |].
  intros [g' j] p Hp H. simpl in *. rewrite byte_at_insert_ne; [done |]. by intros ->.
Qed.

Lemma place_spec data ps g k j p :
  NoDup ps -> ps !! j = Some p -> (p < length g)%nat ->
  (fst (foldl (place data) (g, k) ps)).[p] = data.[k + j].
Proof.
  revert g k j. induction ps as [| q ps IH]; intros g k j Hnd Hj Hp; [done |].
  apply NoDup_cons in Hnd as [Hq Hnd]. simpl. destruct j as [| j].
  - injection Hj as ->. rewrite place_other by done. rewrite byte_at_insert by done.
    by rewrite Nat.add_0_r.
  - rewrite (IH _ _ j) by (rewrite ?length_insert; done). f_equal. lia.
Qed.

Lemma collect_length grid ps st : length (fst (foldl (collect grid) st ps)) = length (fst st).
Proof.
  apply (foldl_inv (fun st' => length (fst st') = length (fst st))); [done |].
  intros [g i] p _ H. simpl in *. by rewrite length_insert.
Qed.

Lemma collect_before grid ps d k i :
  (i < k)%nat -> (fst (foldl (collect grid) (d, k) ps)).[i] = d.[i].
Proof.
  revert d k. induction ps as [| q ps IH]; intros d k Hi; [done |]. simpl.
  rewrite IH by lia. by rewrite byte_at_insert_ne by lia.
Qed.

Lemma collect_spec grid ps d k j p :
  ps !! j = Some p -> (k + length ps <= length d)%nat ->
  (fst (foldl (collect grid) (d, k) ps)).[k + j] = grid.[p].
Proof.
  revert d k j. induction ps as [| q ps IH]; intros d k j Hj Hd; [done |].
  simpl in *. destruct j as [| j].
  - injection Hj as ->. rewrite Nat.add_0_r, collect_before by lia.
    by rewrite byte_at_insert by lia.
  - replace (k + S j)%nat with (S k + j)%nat by lia.
    apply IH; rewrite ?length_insert; [done | lia].
Qed.

(** A grid that carries the data at the data positions yields the data. *)
Lemma collect_data_spec grid data :
  length data = 96%nat ->
  (forall j p, data_cells !! j = Some p -> grid.[p] = data.[j]) ->
  collect_data grid = data.
Proof.
  intros Hl Hg. rewrite collect_data_flat. apply byte_at_ext.
  - rewrite collect_length. done.
  - rewrite collect_length. intros i Hi. simpl in Hi.
    destruct (lookup_lt_is_Some_2 data_cells i) as [p Hp]; [done |].
    change i with (0 + i)%nat at 1. rewrite (collect_spec _ _ _ _ i p) by done. auto.
Qed.

Lemma data_position_spec i :
  data_position i = true -> exists r c, (r < 9)%nat /\ (c < 11)%nat /\ i = (1 + r * 15 + c)%nat.
Proof.
  unfold data_position. intros H. apply existsb_exists in H as (r & Hr & H).
  apply in_seq in Hr. apply andb_true_iff in H as [H1 H2].
  apply Nat.leb_le in H1, H2. exists r, (i - (1 + r * 15))%nat. lia.
Qed.

(** The parity steps keep the data positions. *)
Lemma parity_keeps_data g i :
  data_position i = true ->
  (foldl computeColParity (foldl computeRowParity g (seq 0 9)) (seq 0 15)).[i] = g.[i].
Proof.
  intros Hi. apply data_position_spec in Hi as (r & c & Hr & Hc & ->).
  trans ((foldl computeRowParity g (seq 0 9)).[1 + r * 15 + c]).
  - apply (foldl_inv (fun g' => g'.[1 + r * 15 + c] =
      (foldl computeRowParity g (seq 0 9)).[1 + r * 15 + c])); [done |].
    intros x b _ <-. apply computeColParity_other. lia.
  - apply (foldl_inv (fun g' => g'.[1 + r * 15 + c] = g.[1 + r * 15 + c])); [done |].
    intros x b _ <-. apply computeRowParity_other. lia.
Qed.

Lemma encode_grid_codeword data : codeword (encode_grid data).
Proof.
  unfold encode_grid.
  assert (H0 : length (place_data data) = 196%nat) by (rewrite place_data_flat; apply place_length).
  destruct (row_parity_loop _ 9 H0 ltac:(lia)) as [H1 H2].
  by apply (col_parity_loop _ 15 H1 ltac:(lia)).
Qed.

Lemma encode_grid_data data j p :
  data_cells !! j = Some p -> (encode_grid data).[p] = data.[j].
Proof.
  intros Hj. pose proof (proj1 (Forall_lookup _ _) data_cells_position j p Hj) as Hp.
  unfold encode_grid. rewrite parity_keeps_data by done. rewrite place_data_flat.
  rewrite (place_spec _ _ _ _ j p); [done | apply data_cells_NoDup | done |].
  apply data_position_spec in Hp as (r & c & Hr & Hc & ->). simpl. lia.
Qed.

(** *** Interleaving *)

Lemma interleave_inj a b :
  (a < 196)%nat -> (b < 196)%nat -> ((a * 181) mod 196 = (b * 181) mod 196)%nat -> a = b.
Proof.
  intros Ha Hb H. apply (f_equal (fun x => (x * 13) mod 196)%nat) in H.
  rewrite !Nat.Div0.mul_mod_idemp_l in H.
  replace (a * 181 * 13)%nat with (a + 12 * a * 196)%nat in H by lia.
  replace (b * 181 * 13)%nat with (b + 12 * b * 196)%nat in H by lia.
  rewrite !Nat.Div0.mod_add, !Nat.mod_small in H by done. done.
Qed.

Lemma interleave_scatter g :
  interleave g = scatter (fun a => (a * 181) mod 196)%nat (byte_at g) (seq 0 196) (zeros 196).
Proof. unfold interleave, scatter. reflexivity. Qed.

Lemma interleave_length g : length (interleave g) = 196%nat.
Proof. rewrite interleave_scatter, scatter_length. apply length_replicate. Qed.

Lemma interleave_at g a : (a < 196)%nat -> (interleave g).[(a * 181) mod 196] = g.[a].
Proof.
  intros Ha. rewrite interleave_scatter. apply (scatter_hit (fun a => (a * 181) mod 196)%nat).
  - intros b c Hb Hc Heq. apply elem_of_seq in Hb, Hc. apply interleave_inj; [lia | lia | done].
  - apply elem_of_seq. lia.
  - unfold zeros. rewrite length_replicate. apply Nat.mod_upper_bound. lia.
Qed.

Lemma deinterleave_map bits :
  deinterleave bits = (fun a => bits.[(a * 181) mod 196]) <$> seq 0 196.
Proof. unfold deinterleave. rewrite <- scatter_fill. unfold scatter. reflexivity. Qed.

Lemma deinterleave_interleave g : length g = 196%nat -> deinterleave (interleave g) = g.
Proof.
  intros Hl. rewrite deinterleave_map. apply byte_at_ext.
  - by rewrite length_fmap, length_seq.
  - rewrite length_fmap, length_seq. intros i Hi.
    by rewrite byte_at_map_seq, interleave_at.
Qed.

(** Every position of the interleaved block is the image of one cell. *)
Lemma interleave_surj i :
  (i < 196)%nat -> let a := ((i * 13) mod 196)%nat in (a < 196)%nat /\ ((a * 181) mod 196)%nat = i.
Proof.
  intros Hi a. split; [apply Nat.mod_upper_bound; lia |]. unfold a.
  rewrite Nat.Div0.mul_mod_idemp_l. replace (i * 13 * 181)%nat with (i + 12 * i * 196)%nat by lia.
  by rewrite Nat.Div0.mod_add, Nat.mod_small.
Qed.

Lemma deinterleave_flip bits i :
  length bits = 196%nat -> (i < 196)%nat ->
  deinterleave (flip bits i) = flip (deinterleave bits) ((i * 13) mod 196).
Proof.
  intros Hl Hi. destruct (interleave_surj i Hi) as [Ha Hai]. set (a := ((i * 13) mod 196)%nat) in *.
  rewrite !deinterleave_map. unfold flip. rewrite byte_at_map_seq by done. rewrite Hai.
  apply byte_at_ext; [by rewrite length_insert, !length_fmap |].
  rewrite length_fmap, length_seq. intros j Hj. rewrite byte_at_map_seq by done.
  destruct (decide (j = a)) as [-> | Hne].
  - rewrite Hai, !byte_at_insert; [done | by rewrite length_fmap, length_seq | lia].
  - rewrite !byte_at_insert_ne; [by rewrite byte_at_map_seq | done |].
    intros Heq. apply Hne. rewrite <- Hai in Heq. by apply interleave_inj.
Qed.

(** *** Correction *)

Definition row_syn (g : list Z) (r : nat) : Z :=
  syndrome_of ((fun m => xor_at (cell g r) m) <$> row_masks).
Definition col_syn (g : list Z) (c : nat) : Z :=
  syndrome_of ((fun m => xor_at (fun r => cell g r c) m) <$> col_masks).

Lemma xor_masks_ext (f g : nat -> Z) ms n :
  Forall (Forall (fun p => (p < n)%nat)) ms -> (forall p, (p < n)%nat -> f p = g p) ->
  xor_at f <$> ms = xor_at g <$> ms.
Proof.
  intros Hms Heq. apply list_fmap_ext. intros i m Hm. apply xor_at_ext. intros p Hp.
  apply Heq. rewrite Forall_lookup in Hms. specialize (Hms i m Hm).
  rewrite Forall_forall in Hms. auto.
Qed.

Lemma row_step_unfold g t u r :
  row_step (g, t, u) r =
  correct hamming15_11SyndromeTable (fun pos => (1 + r * 15 + pos)%nat) (row_syn g r) (g, t, u).
Proof.
  unfold row_step. f_equal. rewrite rowSyndrome_masks. unfold row_syn. f_equal.
  apply (xor_masks_ext _ _ _ 15); [apply row_masks_lt |]. intros p Hp. unfold cell. cbn [fst].
  by rewrite byte_at_take, byte_at_drop.
Qed.

Lemma col_step_unfold g t u c :
  col_step (g, t, u) c =
  correct hamming13_9SyndromeTable (fun pos => (1 + pos * 15 + c)%nat) (col_syn g c) (g, t, u).
Proof.
  unfold col_step. f_equal. rewrite colSyndrome_masks. reflexivity.
Qed.

(** A clean row or column is left alone. *)
Lemma syndrome_zero (F : list nat -> Z) ms :
  Forall (fun m => F m = 0) ms -> syndrome_of (F <$> ms) = 0.
Proof.
  intros H. assert (F <$> ms = (fun _ => 0) <$> ms) as ->.
  { apply list_fmap_ext. intros i m Hm. by apply (proj1 (Forall_lookup _ _) H i). }
  by destruct ms as [| ? [| ? [| ? [| ? []]]]].
Qed.

Lemma row_step_clean g t u r : row_ok g r -> row_step (g, t, u) r = (g, t, u).
Proof. intros H. rewrite row_step_unfold. unfold row_syn. by rewrite syndrome_zero. Qed.
Lemma col_step_clean g t u c : col_ok g c -> col_step (g, t, u) c = (g, t, u).
Proof. intros H. rewrite col_step_unfold. unfold col_syn. by rewrite syndrome_zero. Qed.

Lemma hammingCorrect_clean g : codeword g -> hammingCorrect g = (g, 0, false).
Proof.
  intros (_ & Hr & Hc). unfold hammingCorrect.
  rewrite (foldl_fixed row_step), (foldl_fixed col_step); [done | |];
    intros b Hb; apply elem_of_seq in Hb.
  - apply col_step_clean, Hc. lia.
  - apply row_step_clean, Hr. lia.
Qed.

(** The syndrome of a codeword with one cell flipped points at the cell. *)
Definition unit_syndromes (ms : list (list nat)) (p : nat) : list Z :=
  (fun m => if decide (p ∈ m) then 1 else 0) <$> ms.

Lemma row_table_points p :
  (p < 15)%nat ->
  let s := syndrome_of (unit_syndromes row_masks p) in
  (s =? 0) = false /\ hamming15_11SyndromeTable.[Z.to_nat s] = Z.of_nat p.
Proof. intros Hp. do 15 (destruct p as [| p]; [by vm_compute |]). lia. Qed.
Lemma col_table_points p :
  (p < 13)%nat ->
  let s := syndrome_of (unit_syndromes col_masks p) in
  (s =? 0) = false /\ hamming13_9SyndromeTable.[Z.to_nat s] = Z.of_nat p.
Proof. intros Hp. do 13 (destruct p as [| p]; [by vm_compute |]). lia. Qed.

Lemma flipped_sums f i ms :
  Forall NoDup ms -> Forall (fun m => xor_at f m = 0) ms ->
  xor_at (fun p => if decide (p = i) then Z.lxor (f p) 1 else f p) <$> ms = unit_syndromes ms i.
Proof.
  intros Hnd H0. apply list_fmap_ext. intros k m Hm.
  rewrite xor_at_flip by (by apply (proj1 (Forall_lookup _ _) Hnd k)).
  rewrite (proj1 (Forall_lookup _ _) H0 k m Hm). by rewrite Z.lxor_0_l.
Qed.

Lemma row_masks_NoDup : Forall NoDup row_masks.
Proof. by_eval. Qed.
Lemma col_masks_NoDup : Forall NoDup col_masks.
Proof. by_eval. Qed.

Lemma cell_flip g r c r' c' :
  length g = 196%nat -> (r < 13)%nat -> (c < 15)%nat -> (c' < 15)%nat ->
  cell (flip g (1 + r * 15 + c)) r' c' =
  if decide (r' = r /\ c' = c) then Z.lxor (cell g r c) 1 else cell g r' c'.
Proof.
  intros Hl Hr Hc Hc'. unfold cell, flip. case_decide as H.
  - destruct H as [-> ->]. by rewrite byte_at_insert by lia.
  - rewrite byte_at_insert_ne; [done |]. lia.
Qed.

Lemma flip_flip g i : (i < length g)%nat -> flip (flip g i) i = g.
Proof.
  intros Hi. unfold flip. rewrite byte_at_insert by done.
  rewrite Z.lxor_assoc, Z.lxor_nilpotent, Z.lxor_0_r, list_insert_insert_eq.
  apply list_insert_id, lookup_byte_at, Hi.
Qed.

(** A loop whose iteration [k] takes the state from [e] to [g] and whose other
    iterations see nothing to do. *)
Lemma loop_once {A} (step : A -> nat -> A) (e g : A) n k :
  (k < n)%nat ->
  (forall j, (j < n)%nat -> j <> k -> step e j = e) ->
  (forall j, (j < n)%nat -> step g j = g) ->
  step e k = g ->
  foldl step e (seq 0 n) = g.
Proof.
  intros Hk Hbefore Hafter Hhit.
  replace n with (k + (1 + (n - S k)))%nat by lia. rewrite !seq_app, !foldl_app.
  rewrite (foldl_fixed step e) by (intros j Hj; apply elem_of_seq in Hj; apply Hbefore; lia).
  cbn [seq foldl]. rewrite Nat.add_0_l, Hhit.
  apply foldl_fixed. intros j Hj. apply elem_of_seq in Hj. apply Hafter. lia.
Qed.

Section single_error.
Context (g : list Z) (r c : nat).
Context (Hcode : codeword g) (Hr : (r < 13)%nat) (Hc : (c < 15)%nat).

Let Hl : length g = 196%nat := proj1 Hcode.
Let e : list Z := flip g (1 + r * 15 + c).

Lemma flipped_other_row r' : r' <> r -> (r' < 9)%nat -> row_ok e r'.
Proof using Hcode Hr Hc.
  intros Hne Hr'. apply (row_ok_ext g); [| by apply Hcode].
  intros c' Hc'. unfold e. rewrite cell_flip by done. rewrite decide_False by tauto. done.
Qed.

Lemma flipped_other_col c' : c' <> c -> (c' < 15)%nat -> col_ok e c'.
Proof using Hcode Hr Hc.
  intros Hne Hc'. apply (col_ok_ext g); [| by apply Hcode].
  intros r' Hr'. unfold e. rewrite cell_flip by done. rewrite decide_False by tauto. done.
Qed.

Lemma row_corrects t u : (r < 9)%nat -> row_step (e, t, u) r = (g, t + 1, u).
Proof using Hcode Hr Hc.
  intros Hr9. rewrite row_step_unfold. unfold row_syn.
  rewrite (xor_masks_ext _ (fun p => if decide (p = c) then Z.lxor (cell g r p) 1 else cell g r p)
    _ 15 row_masks_lt).
  2:{ intros p Hp. unfold e. rewrite cell_flip by done.
      destruct (decide (p = c)) as [-> |]; [by rewrite decide_True | by rewrite decide_False by tauto]. }
  rewrite (flipped_sums _ _ _ row_masks_NoDup) by (by apply Hcode).
  destruct (row_table_points c Hc) as [Hs Hpos]. unfold correct.
  rewrite Hs, Hpos. cbn [negb]. rewrite (proj2 (Z.leb_le 0 (Z.of_nat c))), Nat2Z.id by lia.
  unfold e. rewrite flip_flip by lia. done.
Qed.

Lemma col_corrects t u : col_step (e, t, u) c = (g, t + 1, u).
Proof using Hcode Hr Hc.
  rewrite col_step_unfold. unfold col_syn.
  rewrite (xor_masks_ext _ (fun p => if decide (p = r) then Z.lxor (cell g p c) 1 else cell g p c)
    _ 13 col_masks_lt).
  2:{ intros p Hp. unfold e. rewrite cell_flip by done.
      destruct (decide (p = r)) as [-> |]; [by rewrite decide_True | by rewrite decide_False by tauto]. }
  rewrite (flipped_sums (fun p => cell g p c) _ _ col_masks_NoDup) by (by apply Hcode).
  destruct (col_table_points r Hr) as [Hs Hpos]. unfold correct.
  rewrite Hs, Hpos. cbn [negb]. rewrite (proj2 (Z.leb_le 0 (Z.of_nat r))), Nat2Z.id by lia.
  unfold e. rewrite flip_flip by lia. done.
Qed.

Lemma hammingCorrect_single : hammingCorrect e = (g, 1, false).
Proof using Hcode Hr Hc.
  unfold hammingCorrect. destruct (decide (r < 9)%nat) as [Hr9 | Hr9].
  - rewrite (loop_once row_step _ (g, 1, false) 9 r); [| done | | |].
    + apply foldl_fixed. intros j Hj. apply elem_of_seq in Hj. apply col_step_clean, Hcode. lia.
    + intros j Hj Hne. by apply row_step_clean, flipped_other_row.
    + intros j Hj. by apply row_step_clean, Hcode.
    + by apply row_corrects.
  - rewrite (foldl_fixed row_step)
      by (intros j Hj; apply elem_of_seq in Hj; apply row_step_clean, flipped_other_row; lia).
    apply (loop_once col_step _ _ 15 c); [done | | |].
    + intros j Hj Hne. by apply col_step_clean, flipped_other_col.
    + intros j Hj. by apply col_step_clean, Hcode.
    + by apply col_corrects.
Qed.
End single_error.

(** Flipping the reserved bit is not seen by any equation. *)
Lemma codeword_flip_reserved g : codeword g -> codeword (flip g 0).
Proof.
  intros (Hl & Hr & Hc). unfold codeword, flip. split_ands; [by rewrite length_insert | |].
  - intros r Hlt. apply (row_ok_ext g); [| auto]. intros c _. apply byte_at_insert_ne. lia.
  - intros c Hlt. apply (col_ok_ext g); [| auto]. intros r _. apply byte_at_insert_ne. lia.
Qed.

(** ** Decoding *)

Lemma encode_collect data : length data = 96%nat -> collect_data (encode_grid data) = data.
Proof. intros Hl. apply collect_data_spec; [done |]. apply encode_grid_data. Qed.

Lemma decode_clean data :
  length data = 96%nat -> Decode (Encode data) = (data, 0, false).
Proof.
  intros Hl. destruct (encode_grid_codeword data) as (Hg & _).
  unfold Decode, Encode. rewrite deinterleave_interleave by done.
  rewrite hammingCorrect_clean by apply encode_grid_codeword. by rewrite encode_collect.
Qed.

Lemma decode_one_error data i :
  length data = 96%nat -> (i < 196)%nat ->
  exists n, Decode (flip (Encode data) i) = (data, n, false) /\ 0 <= n <= 1.
Proof.
  intros Hl Hi. pose proof (encode_grid_codeword data) as Hcode.
  unfold Decode, Encode. rewrite deinterleave_flip by (rewrite ?interleave_length; done).
  rewrite deinterleave_interleave by apply Hcode.
  destruct (interleave_surj i Hi) as [Ha _]. revert Ha. generalize ((i * 13) mod 196)%nat.
  intros a Ha. destruct (decide (a = 0%nat)) as [-> | Hne].
  - exists 0. rewrite hammingCorrect_clean by (by apply codeword_flip_reserved).
    split; [| lia]. do 2 f_equal. apply collect_data_spec; [done |]. intros j p Hj.
    unfold flip. rewrite byte_at_insert_ne; [by apply encode_grid_data |].
    pose proof (proj1 (Forall_lookup _ _) data_cells_position j p Hj) as Hp.
    apply data_position_spec in Hp as (r & c & _ & _ & ->). lia.
  - exists 1. replace a with (1 + ((a - 1) / 15) * 15 + ((a - 1) mod 15))%nat.
    + rewrite hammingCorrect_single; [rewrite encode_collect by done; split; [done | lia] | done | |].
      * apply Nat.Div0.div_lt_upper_bound. lia.
      * apply Nat.mod_upper_bound. lia.
    + pose proof (Nat.div_mod_eq (a - 1) 15). lia.
Qed.

(** ** Bursts *)

(** *** The block holds bits *)

Ltac bits_at := repeat first [ apply bit_lxor | apply byte_at_Forall; [| by left] ].

Lemma computeRowParity_bits g r : Forall is_bit g -> Forall is_bit (computeRowParity g r).
Proof.
  intros Hg. unfold computeRowParity.
  pose proof (Forall_take is_bit 11 _ (Forall_drop is_bit (1 + r * 15) _ Hg)) as Hd.
  repeat (apply Forall_insert; [| bits_at; done]). done.
Qed.
Lemma computeColParity_bits g c : Forall is_bit g -> Forall is_bit (computeColParity g c).
Proof.
  intros Hg. unfold computeColParity.
  assert (Hd : Forall is_bit ((fun r => g.[1 + r * 15 + c]) <$> seq 0 9)).
  { apply Forall_fmap, Forall_true. intros r. simpl. bits_at. done. }
  repeat (apply Forall_insert; [| bits_at; done]). done.
Qed.

Lemma zeros_bits n : Forall is_bit (zeros n).
Proof. apply Forall_replicate. by left. Qed.

Lemma encode_grid_bits data : Forall is_bit data -> Forall is_bit (encode_grid data).
Proof.
  intros Hd. unfold encode_grid.
  apply (foldl_inv (Forall is_bit)); [| intros; by apply computeColParity_bits].
  apply (foldl_inv (Forall is_bit)); [| intros; by apply computeRowParity_bits].
  rewrite place_data_flat. apply (foldl_inv (fun st => Forall is_bit (fst st))); [apply zeros_bits |].
  intros [g k] p _ Hg. simpl in *. apply Forall_insert; [done |]. bits_at. done.
Qed.

Lemma encode_bits data : Forall is_bit data -> Forall is_bit (Encode data).
Proof.
  intros Hd. unfold Encode. rewrite interleave_scatter.
  apply (foldl_inv (Forall is_bit)); [apply zeros_bits |].
  intros x b _ Hx. apply Forall_insert; [done |]. apply byte_at_Forall; [| by left].
  by apply encode_grid_bits.
Qed.

Lemma encode_block_length data : length (Encode data) = 196%nat.
Proof. unfold Encode. by rewrite interleave_length. Qed.

Lemma info_bits_map lc : info_bits lc = (fun k => bit_at lc k) <$> seq 0 96.
Proof. reflexivity. Qed.

Lemma info_bits_bits lc : Forall is_bit (info_bits lc).
Proof. rewrite info_bits_map. apply Forall_fmap, Forall_true. intros k. apply bit_at_is_bit. Qed.
Lemma info_bits_length lc : length (info_bits lc) = 96%nat.
Proof. by rewrite info_bits_map, length_fmap, length_seq. Qed.

(** *** Reading the burst back *)

Definition burst_pos (k : nat) : nat := if (k <? 98)%nat then k else (k + 68)%nat.

Lemma golay_length input : length (golayEncode208 input) = 20%nat.
Proof. reflexivity. Qed.

Lemma burst_bits_length lc dt cc : length (burst_bits lc dt cc) = 264%nat.
Proof.
  unfold burst_bits.
  apply (foldl_inv (fun b => length b = 264%nat));
    [by rewrite !length_inserts | intros; by rewrite length_insert].
Qed.

Lemma sync_other b i :
  (i < 108 \/ 156 <= i)%nat ->
  (foldl (fun b i =>
      <[(108 + i)%nat := u8 (Z.land (Z.shiftr bsSourcedData (Z.of_nat (47 - i))) 1)]> b)
    b (seq 0 48)).[i] = b.[i].
Proof.
  intros Hi. apply (foldl_inv (fun d => d.[i] = b.[i])); [done |].
  intros d j Hj Hd. apply elem_of_seq in Hj. by rewrite byte_at_insert_ne by lia.
Qed.

Lemma burst_bits_data lc dt cc k :
  (k < 196)%nat -> (burst_bits lc dt cc).[burst_pos k] = (Encode (info_bits lc)).[k].
Proof.
  intros Hk. unfold burst_bits, burst_pos. pose proof (encode_block_length (info_bits lc)) as Hl.
  revert Hl. generalize (Encode (info_bits lc)). intros enc Hl.
  pose proof (length_replicate 264 0) as H0. fold (zeros 264) in H0. revert H0.
  generalize (zeros 264). intros blank H0.
  pose proof (golay_length (Z.lor (u8 (Z.shiftl (Z.land cc 0xF) 4)) (Z.land dt 0xF))) as Hs.
  revert Hs. generalize (golayEncode208 (Z.lor (u8 (Z.shiftl (Z.land cc 0xF) 4)) (Z.land dt 0xF))).
  intros slot Hs.
  destruct (Nat.ltb_spec k 98); rewrite sync_other by lia;
    rewrite !(byte_at_inserts_out 156), !(byte_at_inserts_out 98)
      by (rewrite length_take, ?length_drop; lia).
  - rewrite byte_at_inserts_out, byte_at_inserts_in
      by (rewrite ?length_take, ?length_drop, ?Hl; lia).
    by rewrite byte_at_take, Nat.sub_0_r by lia.
  - rewrite byte_at_inserts_in
      by (rewrite ?length_inserts, ?length_take, ?length_drop, ?Hl; lia).
    rewrite byte_at_take, byte_at_drop by lia. f_equal. lia.
Qed.

(** The slot type in two halves around the sync. *)
Lemma burst_bits_slot lc dt cc i :
  (i < 20)%nat ->
  (burst_bits lc dt cc).[(if (i <? 10)%nat then 98 + i else 146 + i)] =
  (golayEncode208 (Z.lor (u8 (Z.shiftl (Z.land cc 0xF) 4)) (Z.land dt 0xF))).[i].
Proof.
  intros Hi. unfold burst_bits.
  generalize (Encode (info_bits lc)). intros enc.
  pose proof (length_replicate 264 0) as H0. fold (zeros 264) in H0. revert H0.
  generalize (zeros 264). intros blank H0.
  pose proof (golay_length (Z.lor (u8 (Z.shiftl (Z.land cc 0xF) 4)) (Z.land dt 0xF))) as Hs.
  revert Hs. generalize (golayEncode208 (Z.lor (u8 (Z.shiftl (Z.land cc 0xF) 4)) (Z.land dt 0xF))).
  intros slot Hs. destruct (Nat.ltb_spec i 10); rewrite sync_other by lia.
  - rewrite byte_at_inserts_out by lia.
    rewrite byte_at_inserts_in by (rewrite ?length_inserts, length_take; lia).
    rewrite byte_at_take by lia. f_equal. lia.
  - rewrite byte_at_inserts_in by (rewrite ?length_inserts, length_take, length_drop; lia).
    rewrite byte_at_take, byte_at_drop by lia. f_equal. lia.
Qed.

Lemma sync_hit b i :
  length b = 264%nat -> (i < 48)%nat ->
  (foldl (fun b i =>
      <[(108 + i)%nat := u8 (Z.land (Z.shiftr bsSourcedData (Z.of_nat (47 - i))) 1)]> b)
    b (seq 0 48)).[108 + i] = u8 (Z.land (Z.shiftr bsSourcedData (Z.of_nat (47 - i))) 1).
Proof.
  intros Hl Hi.
  pose proof (scatter_hit (fun i => 108 + i)%nat
    (fun i => u8 (Z.land (Z.shiftr bsSourcedData (Z.of_nat (47 - i))) 1)) (seq 0 48) b i) as H.
  unfold scatter in H. apply H.
  - intros x y _ _ E. lia.
  - apply elem_of_seq. lia.
  - lia.
Qed.

Lemma burst_bits_sync lc dt cc i :
  (i < 48)%nat ->
  (burst_bits lc dt cc).[108 + i] = u8 (Z.land (Z.shiftr bsSourcedData (Z.of_nat (47 - i))) 1).
Proof.
  intros Hi. unfold burst_bits. rewrite sync_hit; [done | | done].
  rewrite !length_inserts. apply length_replicate.
Qed.

Lemma burst_data_bits_map d :
  burst_data_bits d = (fun k => bit_at d (burst_pos k)) <$> seq 0 196.
Proof.
  unfold burst_data_bits.
  assert (foldl (fun b i => <[i := bit_at d i]> b) (zeros 264) (seq 0 264)
          = bit_at d <$> seq 0 264) as -> by (rewrite <- scatter_fill; unfold scatter; reflexivity).
  pose proof (length_fmap (bit_at d) (seq 0 264)) as Hall. rewrite length_seq in Hall.
  assert (Hat : forall i, (i < 264)%nat -> (bit_at d <$> seq 0 264).[i] = bit_at d i)
    by (intros; by apply byte_at_map_seq).
  revert Hall Hat. generalize (bit_at d <$> seq 0 264). intros all Hall Hat.
  pose proof (length_replicate 196 0) as H0. fold (zeros 196) in H0. revert H0.
  generalize (zeros 196). intros blank H0.
  apply byte_at_ext; [by rewrite !length_inserts, length_fmap, length_seq |].
  rewrite !length_inserts, H0. intros k Hk.
  rewrite byte_at_map_seq by done. unfold burst_pos. destruct (Nat.ltb_spec k 98).
  - rewrite byte_at_inserts_out by lia.
    rewrite byte_at_inserts_in by (rewrite ?length_take; lia).
    rewrite byte_at_take, Hat by lia. f_equal. lia.
  - rewrite byte_at_inserts_in by (rewrite ?length_inserts, ?length_take, ?length_drop; lia).
    rewrite byte_at_take, byte_at_drop, Hat by lia. f_equal. lia.
Qed.

Lemma burst_length lc dt cc : length (BuildLCDataBurst lc dt cc) = 33%nat.
Proof. unfold BuildLCDataBurst. rewrite or_bits_length. apply length_replicate. Qed.

(** Every bit of the burst is the element of the bit array. *)
Lemma bit_at_burst lc dt cc i :
  (i < 264)%nat ->
  bit_at (BuildLCDataBurst lc dt cc) i = Z.b2z ((burst_bits lc dt cc).[i] =? 1).
Proof.
  intros Hi. unfold BuildLCDataBurst, zeros.
  rewrite bit_at_or_bits_zero by (rewrite ?bit_at_zeros, ?length_replicate; lia).
  by rewrite Nat.sub_0_r.
Qed.

Lemma burst_bit_on lc dt cc i :
  (i < 264)%nat ->
  (bit_at (BuildLCDataBurst lc dt cc) i =? 1) = ((burst_bits lc dt cc).[i] =? 1).
Proof. intros Hi. rewrite bit_at_burst by done. apply eqb_1_b2z. Qed.

Lemma burst_data_bits_build lc dt cc :
  burst_data_bits (BuildLCDataBurst lc dt cc) = Encode (info_bits lc).
Proof.
  rewrite burst_data_bits_map.
  apply byte_at_ext; rewrite length_fmap, length_seq; [by rewrite encode_block_length |].
  intros k Hk. rewrite byte_at_map_seq by done.
  rewrite bit_at_burst by (unfold burst_pos; destruct (Nat.ltb_spec k 98); lia).
  rewrite burst_bits_data by done. apply b2z_eqb_1.
  apply byte_at_Forall; [| by left]. apply encode_bits, info_bits_bits.
Qed.

(** *** Packing the information bits *)

Lemma pack_info_or_bits info :
  Forall is_bit info -> pack_info info = or_bits (zeros 12) 0 96 (fun i => info.[i] =? 1).
Proof.
  intros Hb. unfold pack_info, or_bits. apply (foldl_ext_inv (fun l => length l = 12%nat)); [done |].
  intros x i Hi Hx. apply elem_of_seq in Hi.
  assert (Hi8 : (i / 8 < length x)%nat) by (apply Nat.Div0.div_lt_upper_bound; lia).
  destruct (byte_at_Forall is_bit info i Hb ltac:(by left)) as [-> | ->]; cbn [Z.eqb Pos.eqb].
  - rewrite Z.shiftl_0_l. change (u8 0) with 0. rewrite Z.lor_0_r.
    by rewrite list_insert_id by (by apply lookup_byte_at).
  - rewrite set_bit_length. split; [| done]. unfold set_bit. rewrite Nat.add_0_l. do 2 f_equal.
    apply u8_id. rewrite Z.shiftl_1_l. split; [lia |].
    change 256 with (2 ^ 8). apply Z.pow_lt_mono_r; lia.
Qed.

Lemma pack_info_bits lc :
  length lc = 12%nat -> Forall is_byte lc -> pack_info (info_bits lc) = lc.
Proof.
  intros Hl Hb. rewrite pack_info_or_bits by apply info_bits_bits.
  apply (or_bits_rebuild lc 12); [done | done |].
  intros i Hi. by rewrite info_bits_map, byte_at_map_seq by lia.
Qed.

(** *** Bit errors on the air *)

Definition flip_air_bit (bs : list Z) (i : nat) : list Z :=
  <[(i / 8)%nat := Z.lxor (bs.[i / 8]) (Z.shiftl 1 (Z.of_nat (7 - i mod 8)))]> bs.

Lemma bit_at_flip_air bs i j :
  (i < 8 * length bs)%nat ->
  bit_at (flip_air_bit bs i) j = if decide (j = i) then Z.lxor (bit_at bs j) 1 else bit_at bs j.
Proof.
  intros Hi. rewrite !bit_at_testbit. unfold flip_air_bit.
  assert (Hi8 : (i / 8 < length bs)%nat) by (apply Nat.Div0.div_lt_upper_bound; lia).
  case_decide as Hj.
  - subst j. rewrite byte_at_insert by done.
    rewrite Z.lxor_spec, shift_one_testbit, Z.eqb_refl by lia. by destruct (Z.testbit _ _).
  - destruct (decide (i / 8 = j / 8)%nat) as [Hd | Hd]; [| by rewrite byte_at_insert_ne].
    rewrite <- Hd, byte_at_insert by done. rewrite Z.lxor_spec, shift_one_testbit by lia.
    pose proof (div_mod_ne_8 i j ltac:(done) Hd).
    pose proof (Nat.mod_upper_bound i 8). pose proof (Nat.mod_upper_bound j 8).
    destruct (Z.eqb_spec (Z.of_nat (7 - j mod 8)) (Z.of_nat (7 - i mod 8))); [lia |].
    by rewrite xorb_false_r.
Qed.

(** An air bit error is an error of the block, or hits slot type or sync. *)
Lemma burst_data_bits_flip d i :
  length d = 33%nat -> (i < 264)%nat ->
  burst_data_bits (flip_air_bit d i) = burst_data_bits d \/
  exists k, (k < 196)%nat /\ burst_data_bits (flip_air_bit d i) = flip (burst_data_bits d) k.
Proof.
  intros Hl Hi.
  assert (Hcell : forall k, (k < 196)%nat -> (burst_data_bits (flip_air_bit d i)).[k] =
    if decide (burst_pos k = i) then Z.lxor (bit_at d (burst_pos k)) 1 else bit_at d (burst_pos k)).
  { intros k Hk. rewrite burst_data_bits_map, byte_at_map_seq by done.
    by rewrite bit_at_flip_air by lia. }
  destruct (decide (98 <= i < 166)%nat) as [Hmid | Hmid].
  - left. apply byte_at_ext; rewrite !burst_data_bits_map, !length_fmap; [done |].
    rewrite length_seq, <- !burst_data_bits_map. intros k Hk.
    rewrite Hcell, decide_False, burst_data_bits_map, byte_at_map_seq; [done | done | | done].
    unfold burst_pos. destruct (Nat.ltb_spec k 98); lia.
  - right. exists (if (i <? 98)%nat then i else (i - 68)%nat).
    set (k0 := if (i <? 98)%nat then i else (i - 68)%nat).
    assert (Hk0 : (k0 < 196)%nat /\ burst_pos k0 = i).
    { unfold k0, burst_pos. destruct (Nat.ltb_spec i 98).
      - destruct (Nat.ltb_spec i 98); lia.
      - destruct (Nat.ltb_spec (i - 68) 98); lia. }
    split; [apply Hk0 |].
    apply byte_at_ext; unfold flip; rewrite ?length_insert, !burst_data_bits_map, !length_fmap; [done |].
    rewrite length_seq, <- !burst_data_bits_map. intros k Hk. rewrite Hcell by done.
    rewrite burst_data_bits_map. destruct (decide (k = k0)) as [-> | Hne].
    + rewrite decide_True by apply Hk0. rewrite byte_at_insert by (rewrite length_fmap, length_seq; done).
      by rewrite byte_at_map_seq.
    + rewrite byte_at_insert_ne, byte_at_map_seq by done. rewrite decide_False; [done |].
      intros Heq. apply Hne. unfold burst_pos in Heq. unfold k0.
      destruct (Nat.ltb_spec k 98), (Nat.ltb_spec i 98); lia.
Qed.

(** *** Golay(20,8) *)

Definition weight (l : list Z) : Z := foldr Z.add 0 l.

Definition hamming_distance (a b : list Z) : Z := weight (zip_with Z.lxor a b).

Definition golay_masks : list (list nat) :=
  ([[0]; [1]; [2]; [3]; [4]; [5]; [6]; [7];
   [1; 4; 5; 6; 7]; [1; 2; 4]; [0; 2; 3; 5]; [0; 1; 3; 4; 6]; [0; 1; 2; 4; 5; 7];
   [0; 2; 3; 4; 7]; [3; 6; 7]; [0; 1; 5; 6]; [0; 1; 2; 6; 7]; [2; 3; 4; 5; 6];
   [0; 3; 4; 5; 6; 7]; [1; 2; 3; 5; 7]])%nat.

Definition input_bit (input : Z) (i : nat) : Z :=
  Z.land (Z.shiftr input (Z.of_nat (7 - i))) 1.

Lemma golay_linear_form input : golayEncode208 input = xor_at (input_bit input) <$> golay_masks.
Proof.
  unfold golayEncode208, golay_masks, xor_at, input_bit.
  cbn [fmap list_fmap seq app foldl foldr byte_at lookup list_lookup default].
  rewrite ?Z.lxor_0_l, ?Z.lxor_0_r, ?Z.lxor_assoc. reflexivity.
Qed.

Lemma input_bit_lxor a b i : input_bit (Z.lxor a b) i = Z.lxor (input_bit a i) (input_bit b i).
Proof.
  unfold input_bit. apply Z.bits_inj'. intros n Hn.
  rewrite !Z.lxor_spec, !Z.land_spec, !Z.shiftr_spec, Z.lxor_spec by lia. btauto.
Qed.

Lemma xor_at_lxor f g ps :
  xor_at (fun p => Z.lxor (f p) (g p)) ps = Z.lxor (xor_at f ps) (xor_at g ps).
Proof.
  induction ps as [| p ps IH]; [done |]. simpl. rewrite IH.
  rewrite !Z.lxor_assoc. f_equal. rewrite <- !Z.lxor_assoc. f_equal. apply Z.lxor_comm.
Qed.

(** The code is linear, so distances are weights. *)
Lemma golay_linear a b :
  golayEncode208 (Z.lxor a b) = zip_with Z.lxor (golayEncode208 a) (golayEncode208 b).
Proof.
  rewrite !golay_linear_form. generalize golay_masks. intros ms.
  induction ms as [| m ms IH]; [done |]. cbn [fmap list_fmap zip_with]. f_equal; [| apply IH].
  rewrite <- xor_at_lxor. apply xor_at_ext. intros p _. apply input_bit_lxor.
Qed.

Lemma golay_weights :
  forallb (fun k => (k =? 0)%nat || (8 <=? weight (golayEncode208 (Z.of_nat k)))) (seq 0 256) = true.
Proof. vm_compute. reflexivity. Qed.

(** The correction never indexes outside the tables. *)
Lemma syndrome_range s0 s1 s2 s3 :
  is_bit s0 -> is_bit s1 -> is_bit s2 -> is_bit s3 -> 0 <= syndrome s0 s1 s2 s3 < 16.
Proof. intros [-> | ->] [-> | ->] [-> | ->] [-> | ->]; by vm_compute. Qed.

Lemma rowSyndrome_in_table b : Forall is_bit b -> 0 <= rowSyndrome b < 16.
Proof. intros Hb. apply syndrome_range; bits_at; done. Qed.
Lemma colSyndrome_in_table b : Forall is_bit b -> 0 <= colSyndrome b < 16.
Proof. intros Hb. apply syndrome_range; bits_at; done. Qed.

(** ** Properties *)

(** every block of 96 bits survives encoding and decoding: the decoder
    returns it, reports no correction and no uncorrectable error. *)
Theorem bptc_roundtrip data :
  length data = 96%nat -> Decode (Encode data) = (data, 0, false).
Proof. apply decode_clean. Qed.

(** a single wrong bit anywhere in the 196 transmitted bits is repaired:
    the decoder still returns the data, reports at most one correction and
    never an uncorrectable error. *)
Theorem bptc_corrects_single_error data i :
  length data = 96%nat -> (i < 196)%nat ->
  exists n, Decode (flip (Encode data) i) = (data, n, false) /\ 0 <= n <= 1.
Proof. apply decode_one_error. Qed.

(** C26: the Link Control carried by a data burst survives one wrong bit
    anywhere in the 264 bits on the air, whatever the data type and the color
    code: the 12 bytes put into the burst are the ones the decoder returns. *)
Theorem burst_lc_survives_bit_error lc dt cc i :
  length lc = 12%nat -> Forall is_byte lc -> (i < 264)%nat ->
  DecodeLCFromBurst (BuildLCDataBurst lc dt cc) = (lc, true) /\
  DecodeLCFromBurst (flip_air_bit (BuildLCDataBurst lc dt cc) i) = (lc, true).
Proof.
  intros Hl Hb Hi. unfold DecodeLCFromBurst.
  assert (Hclean : Decode (Encode (info_bits lc)) = (info_bits lc, 0, false))
    by apply decode_clean, info_bits_length.
  split; [by rewrite burst_data_bits_build, Hclean, pack_info_bits |].
  destruct (burst_data_bits_flip (BuildLCDataBurst lc dt cc) i) as [-> | (k & Hk & ->)];
    [apply burst_length | done | |]; rewrite burst_data_bits_build.
  - by rewrite Hclean, pack_info_bits.
  - destruct (decode_one_error (info_bits lc) k (info_bits_length lc) Hk) as (n & -> & _).
    by rewrite pack_info_bits.
Qed.

(** the slot type code has minimum distance 8: two different
    color code / data type bytes differ in at least 8 of the 20 bits, so up
    to 3 wrong slot type bits are correctable. *)
Theorem golay_min_distance a b :
  is_byte a -> is_byte b -> a <> b ->
  8 <= hamming_distance (golayEncode208 a) (golayEncode208 b).
Proof.
  intros Ha Hb Hne. unfold hamming_distance. rewrite <- golay_linear.
  pose proof (byte_lxor a b Ha Hb) as Hx. apply (small_cases 256) in Hx as (k & Hk & Hx).
  pose proof (forallb_seq _ _ k golay_weights Hk) as H. cbv beta in H. rewrite <- Hx in H.
  apply orb_true_iff in H as [H | H]; [| by apply Z.leb_le in H].
  apply Nat.eqb_eq in H. subst k. apply Z.lxor_eq in Hx. done.
Qed.

(** ** Witnesses *)

Definition sample_lc : list Z := [0; 0; 32; 0; 0; 9; 47; 155; 129; 1; 2; 3].

Lemma bptc_roundtrip_witness : Decode (Encode (info_bits sample_lc)) = (info_bits sample_lc, 0, false).
Proof. apply bptc_roundtrip. reflexivity. Defined.

Lemma bptc_corrects_single_error_witness :
  exists n, Decode (flip (Encode (info_bits sample_lc)) 17) = (info_bits sample_lc, n, false) /\
            0 <= n <= 1.
Proof. apply bptc_corrects_single_error; [reflexivity | lia]. Defined.

Lemma burst_lc_survives_bit_error_witness :
  DecodeLCFromBurst (BuildLCDataBurst sample_lc 1 3) = (sample_lc, true) /\
  DecodeLCFromBurst (flip_air_bit (BuildLCDataBurst sample_lc 1 3) 200) = (sample_lc, true).
Proof. apply burst_lc_survives_bit_error; [reflexivity | by_eval | lia]. Defined.

Lemma golay_min_distance_witness : 8 <= hamming_distance (golayEncode208 0x11) (golayEncode208 0x12).
Proof. apply golay_min_distance; [by_eval | by_eval | lia]. Defined.
