(* ===== verification/LinkControl.v ===== *)
(** * Link Control (internal/dmr/types.go, link_control.go, embedded_lc.go)

    The enumerations of the DMR layer, the full Link Control bytes with their
    Reed-Solomon(12,9) parity and the CRC5 of the embedded Link Control. *)

From S2P Require Import Prelude.

(** ** types.go *)

Definition DataTypePIHeader : Z := 0.
Definition DataTypeVoiceLCHeader : Z := 1.
Definition DataTypeTerminatorWithLC : Z := 2.
Definition DataTypeCSBK : Z := 3.
Definition DataTypeMBCHeader : Z := 4.
Definition DataTypeMBCContinuation : Z := 5.
Definition DataTypeDataHeader : Z := 6.
Definition DataTypeRate12 : Z := 7.
Definition DataTypeRate34 : Z := 8.
Definition DataTypeIdle : Z := 9.
Definition DataTypeRate1 : Z := 10.
Definition DataTypeUnifiedSingleBlock : Z := 11.
Definition DataTypeReserved : Z := 12.

Definition FLCOGroupVoiceChannelUser : Z := 0.
Definition FLCOUnitToUnitVoiceChannelUser : Z := 3.
Definition StandardizedFID : Z := 0.

Inductive LCSS :=
| SingleFragmentLCorCSBK
| FirstFragmentLC
| LastFragmentLCorCSBK
| ContinuationFragmentLCorCSBK.

Definition LCSS_to_Z (l : LCSS) : Z :=
  match l with
  | SingleFragmentLCorCSBK => 0
  | FirstFragmentLC => 1
  | LastFragmentLCorCSBK => 2
  | ContinuationFragmentLCorCSBK => 3
  end.

Definition LCSSFromInt (i : Z) : LCSS :=
  if i =? 0 then SingleFragmentLCorCSBK
  else if i =? 1 then FirstFragmentLC
  else if i =? 2 then LastFragmentLCorCSBK
  else if i =? 3 then ContinuationFragmentLCorCSBK
  else SingleFragmentLCorCSBK.

Inductive SyncPattern :=
| BsSourcedVoice | BsSourcedData | MsSourcedVoice | MsSourcedData | MsSourcedRcSync
| Tdma1Voice | Tdma1Data | Tdma2Voice | Tdma2Data | Reserved | EmbeddedSignallingPattern.

#[export] Instance SyncPattern_eq_dec : EqDecision SyncPattern.
Proof. solve_decision. Defined.

Definition SyncPattern_to_Z (s : SyncPattern) : Z :=
  match s with
  | BsSourcedVoice => 0x755FD7DF75F7
  | BsSourcedData => 0xDFF57D75DF5D
  | MsSourcedVoice => 0x7F7D5DD57DFD
  | MsSourcedData => 0xD5D7F77FD757
  | MsSourcedRcSync => 0x77D55F7DFD77
  | Tdma1Voice => 0x5D577F7757FF
  | Tdma1Data => 0xF7FDD5DDFD55
  | Tdma2Voice => 0x7DFFD5F55D5F
  | Tdma2Data => 0xD7557F5FF7F5
  | Reserved => 0xDD7FF5D757DD
  | EmbeddedSignallingPattern => -1
  end.

Definition SyncPatternFromBytes (b : list Z) : SyncPattern :=
  let v := foldl (fun v i => Z.lor v (Z.shiftl (b.[i]) (8 * (5 - Z.of_nat i)))) 0 (seq 0 6) in
  if v =? SyncPattern_to_Z BsSourcedVoice then BsSourcedVoice
  else if v =? SyncPattern_to_Z BsSourcedData then BsSourcedData
  else if v =? SyncPattern_to_Z MsSourcedVoice then MsSourcedVoice
  else if v =? SyncPattern_to_Z MsSourcedData then MsSourcedData
  else if v =? SyncPattern_to_Z MsSourcedRcSync then MsSourcedRcSync
  else if v =? SyncPattern_to_Z Tdma1Voice then Tdma1Voice
  else if v =? SyncPattern_to_Z Tdma1Data then Tdma1Data
  else if v =? SyncPattern_to_Z Tdma2Voice then Tdma2Voice
  else if v =? SyncPattern_to_Z Tdma2Data then Tdma2Data
  else if v =? SyncPattern_to_Z Reserved then Reserved
  else EmbeddedSignallingPattern.

(** ** link_control.go *)

Definition FullLCParityMaskVoiceHeader : Z := 0x96.
Definition FullLCParityMaskTerminator : Z := 0x99.

(** One iteration of the multiplication loop: the state is [p], [aa], [bb]. *)
Definition gf_step (st : Z * Z * Z) (_ : nat) : Z * Z * Z :=
  let '(p, aa, bb) := st in
  let p := if negb (Z.land bb 1 =? 0) then Z.lxor p aa else p in
  let hi := negb (Z.land aa 0x80 =? 0) in
  let aa := u8 (Z.shiftl aa 1) in
  let aa := if hi then Z.lxor aa 0x1D else aa in
  (p, aa, Z.shiftr bb 1).

Definition GF256Mul (a b : Z) : Z := fst (fst (foldl gf_step (0, a, b) (seq 0 8))).

(** One iteration of the parity register: [parity[0]], [parity[1]], [parity[2]]. *)
Definition rs_step (parity : Z * Z * Z) (d : Z) : Z * Z * Z :=
  let '(p0, p1, p2) := parity in
  let feedback := Z.lxor d p0 in
  (Z.lxor p1 (GF256Mul feedback 0x0E), Z.lxor p2 (GF256Mul feedback 0x38), GF256Mul feedback 0x40).

Definition ReedSolomon129Parity (data : list Z) : list Z :=
  if negb (length data =? 9)%nat then [0; 0; 0]
  else let '(p0, p1, p2) := foldl rs_step (0, 0, 0) data in [p0; p1; p2].

Definition FullLCParityMaskForDataType (dataType : Z) : Z :=
  if dataType =? DataTypeVoiceLCHeader then FullLCParityMaskVoiceHeader
  else if dataType =? DataTypeTerminatorWithLC then FullLCParityMaskTerminator
  else 0.

Definition BuildStandardLCBytesForDataType
    (src dst : Z) (groupCall : bool) (so dataType : Z) : list Z :=
  let flco := if groupCall then FLCOGroupVoiceChannelUser else FLCOUnitToUnitVoiceChannelUser in
  let lc := [Z.land flco 0x3F; StandardizedFID; so;
             u8 (Z.shiftr dst 16); u8 (Z.shiftr dst 8); u8 dst;
             u8 (Z.shiftr src 16); u8 (Z.shiftr src 8); u8 src] in
  let parity := ReedSolomon129Parity lc in
  let mask := FullLCParityMaskForDataType dataType in
  lc ++ [Z.lxor (parity.[0]) mask; Z.lxor (parity.[1]) mask; Z.lxor (parity.[2]) mask].

Definition BuildStandardLCBytesWithSO (src dst : Z) (groupCall : bool) (so : Z) : list Z :=
  BuildStandardLCBytesForDataType src dst groupCall so DataTypeVoiceLCHeader.

Definition BuildStandardLCBytes (src dst : Z) (groupCall : bool) : list Z :=
  BuildStandardLCBytesWithSO src dst groupCall 0x20.

(** ** embedded_lc.go *)

Definition crc5_step (crc bit : Z) : Z :=
  let feedback := Z.lxor (Z.land (Z.shiftr crc 4) 1) (Z.land bit 1) in
  let crc := Z.land (u8 (Z.shiftl crc 1)) 0x1F in
  if feedback =? 1 then Z.lxor crc 0x15 else crc.

Definition EmbeddedLCCRC5 (bits : list Z) : Z := Z.land (foldl crc5_step 0 bits) 0x1F.

Definition residual_step (reg bit : Z) : Z :=
  let msb := Z.land (Z.shiftr reg 4) 1 in
  let reg := Z.lor (Z.land (u8 (Z.shiftl reg 1)) 0x1F) (Z.land bit 1) in
  if msb =? 1 then Z.lxor reg 0x15 else reg.

Definition EmbeddedLCCRC5Residual (bits : list Z) : Z :=
  Z.lxor (Z.land (foldl residual_step 0 bits) 0x1F) 0x1F.

(** ** Multiplication in GF(256) *)

(** The doubling step of the loop. *)
Definition xtime (aa : Z) : Z :=
  let hi := negb (Z.land aa 0x80 =? 0) in
  let aa := u8 (Z.shiftl aa 1) in
  if hi then Z.lxor aa 0x1D else aa.

Lemma land_0x80 a : is_byte a -> negb (Z.land a 0x80 =? 0) = Z.testbit a 7.
Proof.
  intros Ha. apply (small_cases 256) in Ha as (k & Hk & ->).
  assert (H : forallb (fun k => eqb (negb (Z.land (Z.of_nat k) 0x80 =? 0)) (Z.testbit (Z.of_nat k) 7))
    (seq 0 256) = true) by (vm_compute; reflexivity).
  by apply eqb_prop, (forallb_seq _ _ k H).
Qed.

Lemma xtime_byte a : is_byte a -> is_byte (xtime a).
Proof.
  intros Ha. unfold xtime. assert (is_byte 0x1D) by done. destruct (negb _); auto with bytes.
Qed.

Lemma u8_shiftl_lxor a b :
  u8 (Z.shiftl (Z.lxor a b) 1) = Z.lxor (u8 (Z.shiftl a 1)) (u8 (Z.shiftl b 1)).
Proof.
  apply (Z_ext_below 8); [apply u8_range | apply byte_lxor; apply u8_range | lia |].
  intros i Hi. rewrite Z.lxor_spec, !u8_testbit, !Z.shiftl_spec, Z.lxor_spec by lia. done.
Qed.

Lemma xtime_lxor a b : is_byte a -> is_byte b -> xtime (Z.lxor a b) = Z.lxor (xtime a) (xtime b).
Proof.
  intros Ha Hb. unfold xtime. rewrite !land_0x80 by auto with bytes.
  rewrite Z.lxor_spec, u8_shiftl_lxor. destruct (Z.testbit a 7), (Z.testbit b 7); cbn [xorb].
  all: generalize (u8 (Z.shiftl a 1)), (u8 (Z.shiftl b 1)); intros x y.
  - rewrite <- (Z.lxor_0_r (Z.lxor x y)), <- (Z.lxor_nilpotent 0x1D).
    apply Z.bits_inj'. intros i Hi. rewrite !Z.lxor_spec. btauto.
  - apply Z.bits_inj'. intros i Hi. rewrite !Z.lxor_spec. btauto.
  - apply Z.bits_inj'. intros i Hi. rewrite !Z.lxor_spec. btauto.
  - done.
Qed.

(** The loop is additive in [a]. *)
Lemma gf_loop_lxor l p q a b c :
  is_byte a -> is_byte b ->
  fst (fst (foldl gf_step (Z.lxor p q, Z.lxor a b, c) l)) =
  Z.lxor (fst (fst (foldl gf_step (p, a, c) l))) (fst (fst (foldl gf_step (q, b, c) l))).
Proof.
  revert p q a b c. induction l as [| k l IH]; intros p q a b c Ha Hb; [done |].
  cbn [foldl gf_step]. fold (xtime a) (xtime b) (xtime (Z.lxor a b)).
  rewrite xtime_lxor by done.
  destruct (negb (Z.land c 1 =? 0)); rewrite <- IH by (by apply xtime_byte); [| done].
  do 5 f_equal. apply Z.bits_inj'. intros i Hi. rewrite !Z.lxor_spec. btauto.
Qed.

Lemma gf_mul_lxor a b c :
  is_byte a -> is_byte b -> GF256Mul (Z.lxor a b) c = Z.lxor (GF256Mul a c) (GF256Mul b c).
Proof. intros Ha Hb. unfold GF256Mul. rewrite <- gf_loop_lxor by done. done. Qed.

Lemma gf_mul_byte a c : is_byte a -> is_byte (GF256Mul a c).
Proof.
  intros Ha. unfold GF256Mul.
  apply (foldl_inv (fun st => is_byte (fst (fst st)) /\ is_byte (snd (fst st)))); [done |].
  intros [[p aa] bb] k _ [Hp Haa]. cbn [fst snd] in *. cbn [gf_step fst snd].
  split; [destruct (negb _); auto with bytes |]. by apply xtime_byte.
Qed.
#[export] Hint Resolve gf_mul_byte : bytes.

(** ** Reed-Solomon *)

(** The value of the word at [rho], most significant coefficient first. *)
Definition horner (rho : Z) (acc : Z) (w : list Z) : Z :=
  foldl (fun acc b => Z.lxor (GF256Mul acc rho) b) acc w.

Definition rs_roots : list Z := [2; 4; 8].

(** 2, 4 and 8 are roots of x^3 + 0x0E x^2 + 0x38 x + 0x40, in the form the
    register uses it. *)
Lemma generator_roots :
  forallb (fun rho => forallb (fun k =>
    let f := Z.of_nat k in let m x := GF256Mul x rho in
    m (m (m f)) =? Z.lxor (Z.lxor (m (m (GF256Mul f 0x0E))) (m (GF256Mul f 0x38))) (GF256Mul f 0x40))
  (seq 0 256)) rs_roots = true.
Proof. vm_compute. reflexivity. Qed.

Lemma generator_root rho f :
  rho ∈ rs_roots -> is_byte f ->
  let m x := GF256Mul x rho in
  m (m (m f)) = Z.lxor (Z.lxor (m (m (GF256Mul f 0x0E))) (m (GF256Mul f 0x38))) (GF256Mul f 0x40).
Proof.
  intros Hr Hf m. pose proof generator_roots as H. rewrite forallb_forall in H.
  apply list_elem_of_In in Hr. specialize (H rho Hr).
  apply (small_cases 256) in Hf as (k & Hk & ->). by apply Z.eqb_eq, (forallb_seq _ _ k H).
Qed.

Definition byte3 (s : Z * Z * Z) : Prop :=
  is_byte (fst (fst s)) /\ is_byte (snd (fst s)) /\ is_byte (snd s).

Lemma rs_step_bytes s d : byte3 s -> is_byte d -> byte3 (rs_step s d).
Proof.
  destruct s as [[p0 p1] p2]. intros (H0 & H1 & H2) Hd. cbn [fst snd] in *.
  unfold byte3, rs_step. cbn [fst snd]. split_ands; auto with bytes.
Qed.

(** The register holds the remainder: shifting the word read so far by three
    places gives the value of the register. *)
Definition register_value (rho : Z) (s : Z * Z * Z) : Z :=
  let '(p0, p1, p2) := s in
  Z.lxor (Z.lxor (GF256Mul (GF256Mul p0 rho) rho) (GF256Mul p1 rho)) p2.

Lemma rs_step_value rho s d :
  rho ∈ rs_roots -> byte3 s -> is_byte d ->
  register_value rho (rs_step s d) =
  Z.lxor (GF256Mul (register_value rho s) rho)
         (GF256Mul (GF256Mul (GF256Mul d rho) rho) rho).
Proof.
  intros Hr. destruct s as [[p0 p1] p2]. intros (H0 & H1 & H2) Hd. cbn [fst snd] in *.
  unfold register_value, rs_step. set (f := Z.lxor d p0).
  assert (Hf : is_byte f) by (unfold f; auto with bytes).
  assert (Hd' : d = Z.lxor f p0)
    by (unfold f; by rewrite Z.lxor_assoc, Z.lxor_nilpotent, Z.lxor_0_r).
  rewrite Hd' at 1. rewrite !gf_mul_lxor by auto with bytes.
  rewrite (generator_root rho f Hr Hf).
  apply Z.bits_inj'. intros i Hi. rewrite !Z.lxor_spec. btauto.
Qed.

Lemma rs_loop_value rho data s acc :
  rho ∈ rs_roots -> byte3 s -> is_byte acc -> Forall is_byte data ->
  register_value rho s = GF256Mul (GF256Mul (GF256Mul acc rho) rho) rho ->
  let s' := foldl rs_step s data in
  byte3 s' /\ register_value rho s' =
    GF256Mul (GF256Mul (GF256Mul (horner rho acc data) rho) rho) rho.
Proof.
  intros Hr. revert s acc. induction data as [| d data IH]; intros s acc Hs Hacc Hdata Hv; [done |].
  apply Forall_cons in Hdata as [Hd Hdata]. cbn [foldl horner].
  apply IH; [by apply rs_step_bytes | auto with bytes | done |].
  rewrite rs_step_value by done. rewrite Hv, !gf_mul_lxor by auto with bytes. done.
Qed.

Lemma horner_app rho acc u v : horner rho acc (u ++ v) = horner rho (horner rho acc u) v.
Proof. apply foldl_app. Qed.

Lemma horner_byte rho acc w : is_byte acc -> Forall is_byte w -> is_byte (horner rho acc w).
Proof.
  intros Ha Hw. rewrite Forall_forall in Hw. unfold horner.
  apply (foldl_inv is_byte); [done |]. auto with bytes.
Qed.

Lemma rs_codeword rho data :
  rho ∈ rs_roots -> length data = 9%nat -> Forall is_byte data ->
  horner rho 0 (data ++ ReedSolomon129Parity data) = 0.
Proof.
  intros Hr Hl Hd. unfold ReedSolomon129Parity. rewrite Hl. cbn [Nat.eqb negb].
  destruct (rs_loop_value rho data (0, 0, 0) 0 Hr) as [Hb Hv]; [done | done | done | |].
  { repeat (destruct Hr as [-> | Hr] || (apply elem_of_cons in Hr as [-> | Hr])); try done.
    by apply not_elem_of_nil in Hr. }
  destruct (foldl rs_step (0, 0, 0) data) as [[p0 p1] p2] eqn:E.
  destruct Hb as (B0 & B1 & B2). cbn [fst snd] in *.
  rewrite horner_app. unfold horner at 1. cbn [foldl].
  assert (Hh : is_byte (horner rho 0 data)) by (by apply horner_byte).
  rewrite !gf_mul_lxor by auto with bytes. rewrite <- Hv. unfold register_value.
  apply Z.bits_inj'. intros i Hi. rewrite !Z.lxor_spec, Z.testbit_0_l. btauto.
Qed.

Lemma rs_parity_length data : length (ReedSolomon129Parity data) = 3%nat.
Proof.
  unfold ReedSolomon129Parity. destruct (negb _); [done |].
  by destruct (foldl rs_step (0, 0, 0) data) as [[p0 p1] p2].
Qed.

Lemma unmask_parity mask l :
  length l = 3%nat ->
  Z.lxor mask <$> [Z.lxor (l.[0]) mask; Z.lxor (l.[1]) mask; Z.lxor (l.[2]) mask] = l.
Proof.
  intros Hl. destruct l as [| a [| b [| c []]]]; try done.
  assert (Hx : forall p, Z.lxor mask (Z.lxor p mask) = p).
  { intros p. rewrite (Z.lxor_comm p), <- Z.lxor_assoc, Z.lxor_nilpotent. apply Z.lxor_0_l. }
  exact (f_equal2 cons (Hx a) (f_equal2 cons (Hx b) (f_equal2 cons (Hx c) eq_refl))).
Qed.

(** ** CRC5 *)

(** Five zero bits shifted into the residual register. *)
Definition flush5 (reg : Z) : Z := foldl residual_step reg [0; 0; 0; 0; 0].

(** The bits of a CRC, most significant first. *)
Definition crc5_bits (crc : Z) : list Z :=
  (fun i => Z.land (Z.shiftr crc (Z.of_nat (4 - i))) 1) <$> seq 0 5.

Lemma crc5_registers_step :
  forallb (fun k => let r := Z.of_nat k in
    forallb (fun b => (crc5_step (flush5 r) b =? flush5 (residual_step r b))
      && bool_decide (0 <= residual_step r b < 32)) [0; 1]) (seq 0 32) = true.
Proof. vm_compute. reflexivity. Qed.

Lemma crc5_registers_end :
  forallb (fun k => let r := Z.of_nat k in
    (foldl residual_step r (crc5_bits (flush5 r)) =? 0) && (Z.land (flush5 r) 0x1F =? flush5 r))
  (seq 0 32) = true.
Proof. vm_compute. reflexivity. Qed.

(** The two registers read the same word: the CRC register is the residual
    register with five more zeros shifted in. *)
Lemma crc5_registers bits r :
  Forall is_bit bits -> 0 <= r < 32 ->
  foldl crc5_step (flush5 r) bits = flush5 (foldl residual_step r bits) /\
  0 <= foldl residual_step r bits < 32.
Proof.
  intros Hb. revert r. induction bits as [| b bits IH]; intros r Hr; [done |].
  apply Forall_cons in Hb as [Hbit Hb]. cbn [foldl].
  apply (small_cases 32) in Hr as (k & Hk & ->).
  pose proof (forallb_seq _ _ k crc5_registers_step Hk) as H. rewrite forallb_forall in H.
  specialize (H b). cbv zeta beta in H. destruct (andb_prop _ _ (H ltac:(destruct Hbit as [-> | ->]; cbn; tauto))) as [H1 H2].
  apply Z.eqb_eq in H1. apply bool_decide_eq_true in H2. rewrite H1. by apply IH.
Qed.

(** ** Properties *)

(** the full Link Control is a Reed-Solomon(12,9) codeword under its mask:
    for every source, destination, call type, service option and data type,
    the 12 bytes with the mask of the data type taken off the parity vanish
    at the three roots of the generator, and bytes 3-8 carry the destination
    and the source. *)
Theorem standard_lc_codeword src dst groupCall so dataType rho :
  is_u24 src -> is_u24 dst -> is_byte so -> rho ∈ rs_roots ->
  let lc := BuildStandardLCBytesForDataType src dst groupCall so dataType in
  let mask := FullLCParityMaskForDataType dataType in
  horner rho 0 (take 9 lc ++ (Z.lxor mask <$> drop 9 lc)) = 0 /\
  get_be24 (lc.[3]) (lc.[4]) (lc.[5]) = dst /\ get_be24 (lc.[6]) (lc.[7]) (lc.[8]) = src /\
  lc.[0] = (if groupCall then 0 else 3) /\ lc.[2] = so.
Proof.
  intros Hs Hd Hso Hr lc mask. subst lc mask.
  unfold BuildStandardLCBytesForDataType. generalize (FullLCParityMaskForDataType dataType).
  intros mask. set (body := [_; _; _; _; _; _; _; _; _]).
  assert (Hb : Forall is_byte body).
  { subst body. repeat apply Forall_cons_2; auto with bytes; by destruct groupCall. }
  pose proof (rs_codeword rho body Hr eq_refl Hb) as Hc. split; [| split_ands].
  - rewrite take_app_length', drop_app_length' by done. etrans; [| exact Hc]. do 2 f_equal.
    apply unmask_parity, rs_parity_length.
  - by apply get_put_be24.
  - by apply get_put_be24.
  - by destruct groupCall.
  - done.
Qed.

(** the CRC5 put behind the embedded Link Control bits is the one the
    residual check accepts: checking a bit string followed by its own CRC
    leaves the residual 0x1F, and no other CRC value does. *)
Theorem crc5_residual_accepts bits crc :
  Forall is_bit bits -> 0 <= crc < 32 ->
  EmbeddedLCCRC5Residual (bits ++ crc5_bits crc) = 0x1F <-> crc = EmbeddedLCCRC5 bits.
Proof.
  intros Hb Hcrc. unfold EmbeddedLCCRC5Residual, EmbeddedLCCRC5. rewrite foldl_app.
  destruct (crc5_registers bits 0 Hb ltac:(lia)) as [Hreg Hrange].
  change (flush5 0) with 0 in Hreg. rewrite Hreg. revert Hrange.
  generalize (foldl residual_step 0 bits). intros r Hr.
  apply (small_cases 32) in Hr as (k & Hk & ->). apply (small_cases 32) in Hcrc as (j & Hj & ->).
  assert (H : forallb (fun k => forallb (fun j =>
    eqb (Z.lxor (Z.land (foldl residual_step (Z.of_nat k) (crc5_bits (Z.of_nat j))) 31) 31 =? 31)
        (Z.of_nat j =? Z.land (flush5 (Z.of_nat k)) 31)) (seq 0 32)) (seq 0 32) = true)
    by (vm_compute; reflexivity).
  pose proof (forallb_seq _ _ j (forallb_seq _ _ k H Hk) Hj) as E. apply eqb_prop in E.
  rewrite <- !Z.eqb_eq, E. done.
Qed.

(** ** Witnesses *)

Lemma standard_lc_codeword_witness :
  horner 4 0 (take 9 (BuildStandardLCBytesForDataType 3120001 9 true 0x20 2) ++
    (Z.lxor 0x99 <$> drop 9 (BuildStandardLCBytesForDataType 3120001 9 true 0x20 2))) = 0.
Proof. apply (standard_lc_codeword 3120001 9 true 0x20 2 4); by_eval. Defined.

Lemma crc5_residual_accepts_witness :
  EmbeddedLCCRC5Residual ([1; 0; 1; 1] ++ crc5_bits (EmbeddedLCCRC5 [1; 0; 1; 1])) = 0x1F.
Proof. apply (crc5_residual_accepts [1; 0; 1; 1]); [by_eval | vm_compute; split; congruence | reflexivity]. Defined.
