(* ===== verification/VoiceBurst.v ===== *)
(** * Voice bursts (internal/dmr/voice_burst.go, burst_inspect.go, ambe.go)

    Assembling and taking apart 33-byte voice bursts, the embedded signalling
    field, the inspection of sync and color code, and the AMBE frame packing.

    The EMB and slot type decoders and the Golay and PRNG tables belong to the
    dmrgo library: they are parameters. *)

From S2P Require Import Prelude Bits LinkControl Bptc.

(** ** voice_burst.go *)

Definition dmrSyncAudioBS : list Z := [0x75; 0x5F; 0xD7; 0xDF; 0x75; 0xF7].

Definition qr1676Table : list Z := [
  0x0000; 0x0273; 0x04E5; 0x0696; 0x09C9; 0x0BBA; 0x0D2C; 0x0F5F; 0x11E2; 0x1391; 0x1507; 0x1774;
  0x182B; 0x1A58; 0x1CCE; 0x1EBD; 0x21B7; 0x23C4; 0x2552; 0x2721; 0x287E; 0x2A0D; 0x2C9B; 0x2EE8;
  0x3055; 0x3226; 0x34B0; 0x36C3; 0x399C; 0x3BEF; 0x3D79; 0x3F0A; 0x411E; 0x436D; 0x45FB; 0x4788;
  0x48D7; 0x4AA4; 0x4C32; 0x4E41; 0x50FC; 0x528F; 0x5419; 0x566A; 0x5935; 0x5B46; 0x5DD0; 0x5FA3;
  0x60A9; 0x62DA; 0x644C; 0x663F; 0x6960; 0x6B13; 0x6D85; 0x6FF6; 0x714B; 0x7338; 0x75AE; 0x77DD;
  0x7882; 0x7AF1; 0x7C67; 0x7E14; 0x804F; 0x823C; 0x84AA; 0x86D9; 0x8986; 0x8BF5; 0x8D63; 0x8F10;
  0x91AD; 0x93DE; 0x9548; 0x973B; 0x9864; 0x9A17; 0x9C81; 0x9EF2; 0xA1F8; 0xA38B; 0xA51D; 0xA76E;
  0xA831; 0xAA42; 0xACD4; 0xAEA7; 0xB01A; 0xB269; 0xB4FF; 0xB68C; 0xB9D3; 0xBBA0; 0xBD36; 0xBF45;
  0xC151; 0xC322; 0xC5B4; 0xC7C7; 0xC898; 0xCAEB; 0xCC7D; 0xCE0E; 0xD0B3; 0xD2C0; 0xD456; 0xD625;
  0xD97A; 0xDB09; 0xDD9F; 0xDFEC; 0xE0E6; 0xE295; 0xE403; 0xE670; 0xE92F; 0xEB5C; 0xEDCA; 0xEFB9;
  0xF104; 0xF377; 0xF5E1; 0xF792; 0xF8CD; 0xFABE; 0xFC28; 0xFE5B].

(** [bitWriter]: the buffer and the position of the next bit.  [writeBits]
    stops early at the end of [src]. *)
Record bitWriter := mkWriter { buf : list Z; bitPos : nat }.

Fixpoint writeBits (w : bitWriter) (src : list Z) (readPos count : nat) : bitWriter :=
  match count with
  | O => w
  | S count =>
      if (length src <=? readPos / 8)%nat then w
      else
        let buf' := if bit_at src readPos =? 1 then set_bit (buf w) (bitPos w) else buf w in
        writeBits (mkWriter buf' (S (bitPos w))) src (S readPos) count
  end.

(** The 77 information bits: 72 of the Link Control and the CRC5. *)
Definition embedded_bits (src dst : Z) : list Z :=
  let lc := [0; 0; 0; u8 (Z.shiftr dst 16); u8 (Z.shiftr dst 8); u8 dst;
             u8 (Z.shiftr src 16); u8 (Z.shiftr src 8); u8 src] in
  let bits := foldl (fun b i => foldl (fun b j =>
      <[(i * 8 + j)%nat := Z.land (Z.shiftr (lc.[i]) (Z.of_nat (7 - j))) 1]> b)
    b (seq 0 8)) (replicate 77 0) (seq 0 9) in
  let crc := EmbeddedLCCRC5 (take 72 bits) in
  foldl (fun b i => <[(72 + i)%nat := Z.land (Z.shiftr crc (Z.of_nat (4 - i))) 1]> b)
    bits (seq 0 5).

(** [matrix[r][c]] of the 8 by 16 array, flattened row by row. *)
Definition embedded_matrix (bits : list Z) : list Z :=
  let m := replicate 128 0 in
  let '(m, _) := foldl (fun st r => foldl (fun '(m, idx) c =>
      (<[(r * 16 + c)%nat := bits.[idx]]> m, S idx)) st (seq 0 11)) (m, 0%nat) (seq 0 7) in
  foldl (fun m c =>
      let parity := foldl (fun p r => Z.lxor p (m.[r * 16 + c])) 0 (seq 0 7) in
      <[(7 * 16 + c)%nat := parity]> m) m (seq 0 11).

(** The [frag]-th group of four columns, read column by column. *)
Definition embedded_fragment (matrix : list Z) (frag : nat) : list Z :=
  or_bits (replicate 4 0) 0 32 (fun i => matrix.[(i mod 8) * 16 + (frag * 4 + i / 8)] =? 1).

Definition EncodeEmbeddedLC (src dst : Z) : list (list Z) :=
  let matrix := embedded_matrix (embedded_bits src dst) in
  embedded_fragment matrix <$> seq 0 4.

(** The EMB word of a burst: color code, PI=0, LCSS, with its parity. *)
Definition emb_code (colorCode seq : Z) : Z :=
  let lcss := if (seq =? 1) || (seq =? 5) then 1 else if seq =? 4 then 3 else 2 in
  let emb0 := Z.lor (u8 (Z.shiftl colorCode 4)) (Z.land (Z.shiftl lcss 1) 0x06) in
  qr1676Table.[Z.to_nat (Z.land (Z.shiftr emb0 1) 0x7F)].

Definition ApplyEmbeddedControl (frame : list Z) (colorCode seq : Z) : list Z :=
  let code := emb_code colorCode seq in
  let e0 := u8 (Z.shiftr code 8) in
  let e1 := u8 code in
  let frame := <[13%nat := Z.lor (Z.land (frame.[13]) 0xF0) (Z.land (Z.shiftr e0 4) 0x0F)]> frame in
  let frame := <[14%nat := Z.lor (Z.land (frame.[14]) 0x0F) (Z.land (u8 (Z.shiftl e0 4)) 0xF0)]> frame in
  let frame := <[18%nat := Z.lor (Z.land (frame.[18]) 0xF0) (Z.land (Z.shiftr e1 4) 0x0F)]> frame in
  <[19%nat := Z.lor (Z.land (frame.[19]) 0x0F) (Z.land (u8 (Z.shiftl e1 4)) 0xF0)]> frame.

Definition AssembleVoiceBurst
    (frame1 frame2 frame3 : list Z) (seq srcID dstID colorCode : Z) : list Z :=
  let bw := mkWriter (replicate 33 0) 0 in
  let bw := writeBits bw frame1 0 72 in
  let bw := writeBits bw frame2 0 36 in
  let bw :=
    if seq =? 0 then writeBits bw dmrSyncAudioBS 0 48
    else
      let frags := EncodeEmbeddedLC srcID dstID in
      let frag := nth (Z.to_nat ((seq - 1) mod 4)) frags [] in
      let region := list_inserts 1 frag (replicate 6 0) in
      writeBits bw region 0 48 in
  let bw := writeBits bw frame2 36 36 in
  let bw := writeBits bw frame3 0 72 in
  let burst := buf bw in
  if (1 <=? seq) && (seq <=? 5) then ApplyEmbeddedControl burst colorCode seq else burst.

(** [CopyBits] indexes both slices unguarded. *)
Fixpoint CopyBits (dst : list Z) (dstPos : nat) (src : list Z) (srcPos count : nat)
    : outcome (list Z) :=
  match count with
  | O => Done dst
  | S count =>
      if (length src <=? srcPos / 8)%nat then Panic
      else if bit_at src srcPos =? 1 then
        if (length dst <=? dstPos / 8)%nat then Panic
        else CopyBits (set_bit dst dstPos) (S dstPos) src (S srcPos) count
      else CopyBits dst (S dstPos) src (S srcPos) count
  end.

Definition ExtractVoiceFramesFromBurst (burst : list Z) : outcome (list Z * list Z * list Z) :=
  let! frame1 := CopyBits (replicate 9 0) 0 burst 0 72 in
  let! frame2 := CopyBits (replicate 9 0) 0 burst 72 36 in
  let! frame2 := CopyBits frame2 36 burst 156 36 in
  let! frame3 := CopyBits (replicate 9 0) 0 burst 192 72 in
  Done (frame1, frame2, frame3).

Definition ExtractMiddle48 (burst : list Z) : outcome (list Z) :=
  CopyBits (replicate 6 0) 0 burst 108 48.

(** ** burst_inspect.go *)

Definition BurstBits (data : list Z) : list bool :=
  (fun i => negb (Z.land (data.[i / 8]) (Z.shiftl 1 (Z.of_nat (7 - i mod 8))) =? 0)) <$> seq 0 264.

Definition bit_on (bits : list bool) (i : nat) : bool := default false (bits !! i).

Definition BurstSyncPattern (data : list Z) : SyncPattern :=
  let bits := BurstBits data in
  let syncBytes := foldl (fun sb i => foldl (fun sb j =>
      if bit_on bits (108 + i * 8 + j)
      then <[i := Z.lor (sb.[i]) (Z.shiftl 1 (Z.of_nat (7 - j)))]> sb else sb)
    sb (seq 0 8)) (replicate 6 0) (seq 0 6) in
  SyncPatternFromBytes syncBytes.

Definition BurstHasDataSync (data : list Z) : bool :=
  match BurstSyncPattern data with
  | Tdma1Data | Tdma2Data | MsSourcedData | BsSourcedData => true
  | _ => false
  end.

Definition BurstHasEmbeddedSignalling (data : list Z) : bool :=
  match BurstSyncPattern data with
  | EmbeddedSignallingPattern => true
  | _ => false
  end.

(** The color codes dmrgo decodes from the 20 slot type bits and from the 16
    EMB bits. *)
Class Pdu := {
  NewSlotTypeFromBits_ColorCode : list Z -> Z;
  NewEmbeddedSignallingFromBits_ColorCode : list Z -> Z
}.

Definition flag (b : bool) : Z := if b then 1 else 0.

Definition BurstSlotTypeColorCode `{Pdu} (data : list Z) : Z * bool :=
  if negb (BurstHasDataSync data) then (0, false)
  else
    let bits := BurstBits data in
    let slotBits := ((fun i => flag (bit_on bits (98 + i))) <$> seq 0 10) ++
                    ((fun i => flag (bit_on bits (156 + i))) <$> seq 0 10) in
    (Z.land (u8 (NewSlotTypeFromBits_ColorCode slotBits)) 0x0F, true).

Definition BurstEmbeddedColorCode `{Pdu} (data : list Z) : Z * bool :=
  if negb (BurstHasEmbeddedSignalling data) then (0, false)
  else
    let bits := BurstBits data in
    let embeddedBits := ((fun i => flag (bit_on bits (108 + i))) <$> seq 0 8) ++
                        ((fun i => flag (bit_on bits (148 + i))) <$> seq 0 8) in
    (Z.land (u8 (NewEmbeddedSignallingFromBits_ColorCode embeddedBits)) 0x0F, true).

(** ** ambe.go *)

Definition ambeATable : list nat :=
  [0; 4; 8; 12; 16; 20; 24; 28; 32; 36; 40; 44; 48; 52; 56; 60; 64; 68; 1; 5; 9; 13; 17; 21]%nat.
Definition ambeBTable : list nat :=
  [25; 29; 33; 37; 41; 45; 49; 53; 57; 61; 65; 69; 2; 6; 10; 14; 18; 22; 26; 30; 34; 38; 42]%nat.
Definition ambeCTable : list nat :=
  [46; 50; 54; 58; 62; 66; 70; 3; 7; 11; 15; 19; 23; 27; 31; 35; 39; 43; 47; 51; 55; 59; 63;
   67; 71]%nat.

(** The Golay(24,12) and Golay(23,12) encoding tables and the PRNG table. *)
Class AmbeTables := {
  Golay_24_12_8_EncodingTable : Z -> Z;
  Golay_23_12_7_EncodingTable : Z -> Z;
  PRNG_TABLE : Z -> Z
}.

(** Collect [n] bits from [decodedBits[off]] on into a word, mask first. *)
Definition ambe_word (decodedBits : list Z) (off n : nat) (mask : Z) : Z :=
  fst (foldl (fun '(w, m) i =>
    (if decodedBits.[off + i] =? 1 then Z.lor w m else w, Z.shiftr m 1)) (0, mask) (seq 0 n)).

(** Spread the bits of [w], mask first, over the positions of [table]. *)
Definition ambe_spread (w mask : Z) (table : list nat) (ambe72 : list Z) : list Z :=
  fst (foldl (fun '(out, m) pos =>
    (if negb (Z.land w m =? 0) then <[pos := 1]> out else out, Z.shiftr m 1))
    (ambe72, mask) table).

Definition EncodeAMBEFrame `{AmbeTables} (decodedBits : list Z) : list Z :=
  let aOrig := ambe_word decodedBits 0 12 0x000800 in
  let bOrig := ambe_word decodedBits 12 12 0x000800 in
  let cOrig := ambe_word decodedBits 24 25 0x1000000 in
  let a := Golay_24_12_8_EncodingTable aOrig in
  let p := Z.shiftr (PRNG_TABLE aOrig) 1 in
  let b := Z.lxor (Z.shiftr (Golay_23_12_7_EncodingTable bOrig) 1) p in
  let ambe72 := replicate 72 0 in
  let ambe72 := ambe_spread a 0x800000 ambeATable ambe72 in
  let ambe72 := ambe_spread b 0x400000 ambeBTable ambe72 in
  ambe_spread cOrig 0x1000000 ambeCTable ambe72.

Definition PackAMBEVoiceFrames (frames : list (list Z)) : list Z :=
  let bits := foldl (fun b i =>
      let b := <[i := (nth 0 frames []).[i] =? 1]> b in
      let b := <[(50 + i)%nat := (nth 1 frames []).[i] =? 1]> b in
      <[(100 + i)%nat := (nth 2 frames []).[i] =? 1]> b) (replicate 152 false) (seq 0 49) in
  or_bits (replicate 19 0) 0 152 (bit_on bits).

Definition UnpackAMBEVoiceFrames (data : list Z) : list (list Z) :=
  let bits := (fun i => bit_at data i =? 1) <$> seq 0 152 in
  [ (fun i => flag (bit_on bits i)) <$> seq 0 49;
    (fun i => flag (bit_on bits (50 + i))) <$> seq 0 49;
    (fun i => flag (bit_on bits (100 + i))) <$> seq 0 49 ].

(** ** The bit loops *)

Lemma nth_map_seq {A} (F : nat -> A) n m d : (m < n)%nat -> nth m (F <$> seq 0 n) d = F m.
Proof. intros Hm. by rewrite nth_lookup, list_lookup_fmap, lookup_seq_lt. Qed.


Lemma div8_lt p n : (p < 8 * n)%nat -> (p / 8 < n)%nat.
Proof. intros H. apply Nat.Div0.div_lt_upper_bound. lia. Qed.

Lemma writeBits_spec b pos src start count :
  (start + count <= 8 * length src)%nat ->
  writeBits (mkWriter b pos) src start count =
  mkWriter (or_bits b pos count (fun i => bit_at src (start + i) =? 1)) (pos + count).
Proof.
  revert b pos start. induction count as [| count IH]; intros b pos start Hl.
  - cbn. by rewrite Nat.add_0_r.
  - cbn [writeBits]. pose proof (div8_lt start (length src) ltac:(lia)).
    destruct (Nat.leb_spec (length src) (start / 8)); [lia |]. cbn [buf bitPos].
    rewrite IH by lia. rewrite or_bits_S, Nat.add_0_r. f_equal; [| lia].
    apply or_bits_ext. intros i _. by rewrite Nat.add_succ_r.
Qed.

Lemma writeBits_all b pos src count :
  (count <= 8 * length src)%nat ->
  writeBits (mkWriter b pos) src 0 count =
  mkWriter (or_bits b pos count (fun i => bit_at src i =? 1)) (pos + count).
Proof. intros Hl. by rewrite writeBits_spec. Qed.

Lemma CopyBits_spec dst dpos src spos count :
  (spos + count <= 8 * length src)%nat -> (dpos + count <= 8 * length dst)%nat ->
  CopyBits dst dpos src spos count =
  Done (or_bits dst dpos count (fun i => bit_at src (spos + i) =? 1)).
Proof.
  revert dst dpos spos. induction count as [| count IH]; intros dst dpos spos Hs Hd; [done |].
  cbn [CopyBits]. pose proof (div8_lt spos (length src) ltac:(lia)).
  pose proof (div8_lt dpos (length dst) ltac:(lia)).
  destruct (Nat.leb_spec (length src) (spos / 8)); [lia |]. rewrite or_bits_S, Nat.add_0_r.
  assert (Hext : forall d, or_bits d (S dpos) count (fun i => bit_at src (S spos + i) =? 1) =
    or_bits d (S dpos) count (fun i => bit_at src (spos + S i) =? 1)).
  { intros d. apply or_bits_ext. intros i _. by rewrite Nat.add_succ_r. }
  destruct (bit_at src spos =? 1).
  - destruct (Nat.leb_spec (length dst) (dpos / 8)); [lia |].
    rewrite IH, Hext by (rewrite ?set_bit_length; lia). done.
  - rewrite IH, Hext by lia. done.
Qed.

(** [CopyBits] panics as soon as the source is too short. *)
Lemma CopyBits_short dst dpos src spos count :
  (8 * length src < spos + count)%nat -> (0 < count)%nat -> CopyBits dst dpos src spos count = Panic.
Proof.
  revert dst dpos spos. induction count as [| count IH]; intros dst dpos spos Hs Hc; [lia |].
  cbn [CopyBits]. destruct (Nat.leb_spec (length src) (spos / 8)); [done |].
  assert (spos < 8 * length src)%nat by (pose proof (Nat.div_mod_eq spos 8);
    pose proof (Nat.mod_upper_bound spos 8); lia).
  destruct (bit_at src spos =? 1); [destruct (Nat.leb_spec (length dst) (dpos / 8)); [done |] |];
    apply IH; lia.
Qed.

(** Reading 72 consecutive bits of a burst into a fresh frame. *)
Lemma frame_eq (f g : list Z) :
  length f = 9%nat -> length g = 9%nat -> Forall is_byte f -> Forall is_byte g ->
  (forall i, (i < 72)%nat -> bit_at f i = bit_at g i) -> f = g.
Proof. intros Hf Hg Bf Bg H. apply bytes_ext; [lia | done | done |]. rewrite Hf. exact H. Qed.

(** ** The assembled burst *)

(** The five fields of a burst before the EMB field is written. *)
Definition burst_layout (f1 f2 mid f3 : list Z) : list Z :=
  or_bits (or_bits (or_bits (or_bits (or_bits (replicate 33 0)
    0 72 (fun i => bit_at f1 i =? 1)) 72 36 (fun i => bit_at f2 i =? 1))
    108 48 (fun i => bit_at mid i =? 1)) 156 36 (fun i => bit_at f2 (36 + i) =? 1))
    192 72 (fun i => bit_at f3 i =? 1).

(** The 48 bits in the middle of the burst. *)
Definition middle (seq srcID dstID : Z) : list Z :=
  if seq =? 0 then dmrSyncAudioBS
  else list_inserts 1 (nth (Z.to_nat ((seq - 1) mod 4)) (EncodeEmbeddedLC srcID dstID) [])
         (replicate 6 0).

Lemma middle_length seq srcID dstID : length (middle seq srcID dstID) = 6%nat.
Proof. unfold middle. destruct (seq =? 0); [done |]. by rewrite length_inserts. Qed.

Lemma assemble_layout f1 f2 f3 seq srcID dstID cc :
  length f1 = 9%nat -> length f2 = 9%nat -> length f3 = 9%nat ->
  AssembleVoiceBurst f1 f2 f3 seq srcID dstID cc =
  let burst := burst_layout f1 f2 (middle seq srcID dstID) f3 in
  if (1 <=? seq) && (seq <=? 5) then ApplyEmbeddedControl burst cc seq else burst.
Proof.
  intros H1 H2 H3. unfold AssembleVoiceBurst, burst_layout.
  pose proof (middle_length seq srcID dstID) as Hm.
  rewrite (writeBits_all _ _ f1), (writeBits_all _ _ f2) by lia.
  set (bw := mkWriter _ (0 + 72 + 36)).
  assert (Hmid : (if seq =? 0 then writeBits bw dmrSyncAudioBS 0 48
    else writeBits bw (list_inserts 1 (nth (Z.to_nat ((seq - 1) mod 4))
      (EncodeEmbeddedLC srcID dstID) []) (replicate 6 0)) 0 48) =
    writeBits bw (middle seq srcID dstID) 0 48) by (unfold middle; by destruct (seq =? 0)).
  cbv zeta. rewrite Hmid. unfold bw.
  rewrite (writeBits_all _ _ (middle _ _ _)), writeBits_spec, writeBits_all by lia. done.
Qed.

Lemma burst_layout_length f1 f2 mid f3 : length (burst_layout f1 f2 mid f3) = 33%nat.
Proof. unfold burst_layout. by rewrite !or_bits_length. Qed.

Lemma burst_layout_bits f1 f2 mid f3 j :
  (j < 264)%nat ->
  bit_at (burst_layout f1 f2 mid f3) j =
  if (j <? 72)%nat then bit_at f1 j
  else if (j <? 108)%nat then bit_at f2 (j - 72)
  else if (j <? 156)%nat then bit_at mid (j - 108)
  else if (j <? 192)%nat then bit_at f2 (36 + (j - 156))
  else bit_at f3 (j - 192).
Proof.
  intros Hj. unfold burst_layout.
  assert (Hz : forall n, bit_at (replicate 33 0) n = 0) by (intros; apply bit_at_zeros).
  destruct (Nat.ltb_spec j 72); [| destruct (Nat.ltb_spec j 108); [| destruct (Nat.ltb_spec j 156);
    [| destruct (Nat.ltb_spec j 192)]]];
  repeat first
    [ rewrite bit_at_or_bits_out by (rewrite ?or_bits_length; cbn [length replicate]; lia)
    | rewrite bit_at_or_bits_zero; [| rewrite ?or_bits_length; cbn [length replicate]; lia | lia | ] ];
  rewrite ?Nat.sub_0_r, <- ?bit_at_eq_b2z; try done.
Qed.

Lemma burst_layout_bytes f1 f2 mid f3 : Forall is_byte (burst_layout f1 f2 mid f3).
Proof. unfold burst_layout. auto 10 with bytes. Qed.

(** ** The EMB field *)

Lemma ApplyEmbeddedControl_length f cc s : length (ApplyEmbeddedControl f cc s) = length f.
Proof. unfold ApplyEmbeddedControl. by rewrite !length_insert. Qed.

Lemma emb_bytes f cc s :
  (20 <= length f)%nat ->
  let code := emb_code cc s in
  let out := ApplyEmbeddedControl f cc s in
  out.[13] = Z.lor (Z.land (f.[13]) 0xF0) (Z.land (Z.shiftr (u8 (Z.shiftr code 8)) 4) 0x0F) /\
  out.[14] = Z.lor (Z.land (f.[14]) 0x0F) (Z.land (u8 (Z.shiftl (u8 (Z.shiftr code 8)) 4)) 0xF0) /\
  out.[18] = Z.lor (Z.land (f.[18]) 0xF0) (Z.land (Z.shiftr (u8 code) 4) 0x0F) /\
  out.[19] = Z.lor (Z.land (f.[19]) 0x0F) (Z.land (u8 (Z.shiftl (u8 code) 4)) 0xF0) /\
  forall i, i ∉ [13; 14; 18; 19]%nat -> out.[i] = f.[i].
Proof.
  intros Hl code out. unfold out, ApplyEmbeddedControl. fold code.
  split_ands; [.. | intros i Hi; rewrite !not_elem_of_cons in Hi; by rewrite !byte_at_insert_ne by lia];
  repeat first [ rewrite byte_at_insert by (rewrite ?length_insert; lia)
               | rewrite byte_at_insert_ne by lia ]; reflexivity.
Qed.

Lemma u8_shiftr_testbit v k n : 0 <= k -> 0 <= n < 8 -> Z.testbit (u8 (Z.shiftr v k)) n = Z.testbit v (n + k).
Proof. intros Hk Hn. rewrite u8_testbit, Z.shiftr_spec by lia. done. Qed.

(** Each bit of the result: the EMB word in bits 108-115 and 148-155, the
    burst everywhere else. *)
Lemma emb_bits f cc s j :
  (20 <= length f)%nat ->
  bit_at (ApplyEmbeddedControl f cc s) j =
  if ((108 <=? j) && (j <? 116))%nat then Z.b2z (Z.testbit (emb_code cc s) (Z.of_nat (123 - j)))
  else if ((148 <=? j) && (j <? 156))%nat then Z.b2z (Z.testbit (emb_code cc s) (Z.of_nat (155 - j)))
  else bit_at f j.
Proof.
  intros Hl. destruct (emb_bytes f cc s Hl) as (E13 & E14 & E18 & E19 & Eo).
  pose proof (Nat.div_mod_eq j 8) as Hj. pose proof (Nat.mod_upper_bound j 8 ltac:(lia)) as Hm.
  rewrite !bit_at_testbit.
  destruct (decide (j / 8 = 13)%nat) as [E | N13]; [| destruct (decide (j / 8 = 14)%nat) as [E | N14];
    [| destruct (decide (j / 8 = 18)%nat) as [E | N18]; [| destruct (decide (j / 8 = 19)%nat) as [E | N19]]]].
  1: rewrite E, E13, nibble_low by lia.
  2: rewrite E, E14, nibble_high by lia.
  3: rewrite E, E18, nibble_low by lia.
  4: rewrite E, E19, nibble_high by lia.
  5: { rewrite Eo by (rewrite !elem_of_cons, elem_of_nil; tauto).
       destruct (Nat.leb_spec 108 j), (Nat.ltb_spec j 116), (Nat.leb_spec 148 j), (Nat.ltb_spec j 156);
         cbn [andb]; try done; exfalso; lia. }
  all: destruct (Nat.leb_spec 108 j), (Nat.ltb_spec j 116), (Nat.leb_spec 148 j), (Nat.ltb_spec j 156);
    cbn [andb]; try (exfalso; lia);
    match goal with |- context [?k <? 4] => destruct (Z.ltb_spec k 4) end; try (exfalso; lia); try done;
    f_equal; rewrite ?Z.shiftr_spec, ?u8_testbit, ?Z.shiftl_spec, ?u8_testbit, ?Z.shiftr_spec by lia;
    f_equal; lia.
Qed.

(** ** Reading a burst *)

Lemma bit_on_map p n i : (i < n)%nat -> bit_on (p <$> seq 0 n) i = p i.
Proof. intros Hi. unfold bit_on. by rewrite list_lookup_fmap, lookup_seq_lt. Qed.

Lemma BurstBits_at data i : (i < 264)%nat -> bit_on (BurstBits data) i = (bit_at data i =? 1).
Proof.
  intros Hi. unfold BurstBits. rewrite bit_on_map by done.
  by rewrite land_bit_testbit, bit_at_eqb_1 by lia.
Qed.

Definition sync_field (data : list Z) : list Z :=
  or_bits (replicate 6 0) 0 48 (fun k => bit_at data (108 + k) =? 1).

Lemma BurstSyncPattern_field data : BurstSyncPattern data = SyncPatternFromBytes (sync_field data).
Proof.
  unfold BurstSyncPattern, sync_field, or_bits. f_equal.
  rewrite (foldl_seq_nested (fun d k => if bit_at data (108 + k) =? 1 then set_bit d (0 + k) else d)); [done |].
  intros s i j Hi Hj. rewrite BurstBits_at by lia.
  replace (108 + i * 8 + j)%nat with (108 + (i * 8 + j))%nat by lia.
  unfold set_bit. rewrite Nat.add_0_l, Nat.div_add_l, Nat.div_small, Nat.add_0_r by lia.
  by rewrite (Nat.add_comm (i * 8)), Nat.Div0.mod_add, (Nat.mod_small j) by lia.
Qed.

Lemma sync_field_bits data k : (k < 48)%nat -> bit_at (sync_field data) k = bit_at data (108 + k).
Proof.
  intros Hk. unfold sync_field.
  rewrite bit_at_or_bits_zero by (rewrite ?length_replicate, ?bit_at_zeros; lia).
  by rewrite Nat.sub_0_r, <- bit_at_eq_b2z.
Qed.

Lemma sync_field_bytes data : length (sync_field data) = 6%nat /\ Forall is_byte (sync_field data).
Proof. unfold sync_field. rewrite or_bits_length. split; [done | auto with bytes]. Qed.

(** The bytes of a sync pattern. *)
Definition sync_bytes (s : SyncPattern) : list Z :=
  (fun i => u8 (Z.shiftr (SyncPattern_to_Z s) (8 * (5 - Z.of_nat i)))) <$> seq 0 6.

Lemma sync_value b0 b1 b2 b3 b4 b5 :
  Forall is_byte [b0; b1; b2; b3; b4; b5] ->
  foldl (fun v i => Z.lor v (Z.shiftl ([b0; b1; b2; b3; b4; b5].[i]) (8 * (5 - Z.of_nat i)))) 0 (seq 0 6)
  = b0 * 2 ^ 40 + b1 * 2 ^ 32 + b2 * 2 ^ 24 + b3 * 2 ^ 16 + b4 * 2 ^ 8 + b5.
Proof.
  intros H. rewrite !Forall_cons in H. unfold is_byte in H. destruct H as (H0 & H1 & H2 & H3 & H4 & H5 & _).
  cbn [seq foldl]. change (8 * (5 - Z.of_nat 0)) with 40. change (8 * (5 - Z.of_nat 1)) with 32.
  change (8 * (5 - Z.of_nat 2)) with 24. change (8 * (5 - Z.of_nat 3)) with 16.
  change (8 * (5 - Z.of_nat 4)) with 8. change (8 * (5 - Z.of_nat 5)) with 0.
  unfold byte_at. cbn.
  rewrite Z.lor_0_l, <- !Z.lor_assoc, Z.shiftl_0_r.
  rewrite (lor_shift_add b4) by (cbn; lia). rewrite (lor_shift_add b3) by (cbn; lia).
  rewrite (lor_shift_add b2) by (cbn; lia). rewrite (lor_shift_add b1) by (cbn; lia).
  rewrite (lor_shift_add b0) by (cbn; lia). cbn. lia.
Qed.

(** Only its own six bytes are recognised as a sync pattern. *)
Lemma SyncPatternFromBytes_inv b :
  length b = 6%nat -> Forall is_byte b ->
  SyncPatternFromBytes b <> EmbeddedSignallingPattern -> b = sync_bytes (SyncPatternFromBytes b).
Proof.
  intros Hl Hb. destruct b as [| b0 [| b1 [| b2 [| b3 [| b4 [| b5 []]]]]]]; try done.
  pose proof (sync_value b0 b1 b2 b3 b4 b5 Hb) as Hv.
  unfold SyncPatternFromBytes. rewrite Hv. clear Hv.
  rewrite !Forall_cons in Hb. unfold is_byte in Hb. destruct Hb as (H0 & H1 & H2 & H3 & H4 & H5 & _).
  set (v := _ + b5).
  repeat match goal with
  | |- context [v =? ?c] => destruct (Z.eqb_spec v c) as [E | _]
  end; [.. | done];
  intros _; unfold v in E; cbn in E;
  match goal with |- _ = ?r => let r' := eval vm_compute in r in change r with r' end;
  repeat f_equal; lia.
Qed.

Lemma SyncPatternFromBytes_bytes s :
  s <> EmbeddedSignallingPattern -> SyncPatternFromBytes (sync_bytes s) = s.
Proof. by destruct s. Qed.

(** ** The embedded Link Control *)

Definition matrix_cells : list nat :=
  mjoin ((fun r => (fun c => r * 16 + c)%nat <$> seq 0 11) <$> seq 0 7).

Definition matrix_rows (bits : list Z) : list Z :=
  fst (foldl (place bits) (replicate 128 0, 0%nat) matrix_cells).

Definition column_parity_step (m : list Z) (c : nat) : list Z :=
  <[(7 * 16 + c)%nat := foldl (fun p r => Z.lxor p (m.[r * 16 + c])) 0 (seq 0 7)]> m.

Lemma embedded_matrix_steps bits :
  embedded_matrix bits = foldl column_parity_step (matrix_rows bits) (seq 0 11).
Proof.
  unfold embedded_matrix, matrix_rows.
  assert (foldl (fun st r => foldl (fun '(m, idx) c =>
      (<[(r * 16 + c)%nat := bits.[idx]]> m, S idx)) st (seq 0 11)) (replicate 128 0, 0%nat) (seq 0 7)
    = foldl (place bits) (replicate 128 0, 0%nat) matrix_cells) as -> by reflexivity.
  by destruct (foldl (place bits) (replicate 128 0, 0%nat) matrix_cells).
Qed.

(** The exclusive or of a column of the matrix. *)
Definition column_sum (m : list Z) (c : nat) : Z :=
  foldl (fun p r => Z.lxor p (m.[r * 16 + c])) 0 (seq 0 8).

Lemma matrix_cells_NoDup : NoDup matrix_cells.
Proof. by_eval. Qed.
Lemma matrix_cells_at r c :
  (r < 7)%nat -> (c < 11)%nat -> matrix_cells !! (r * 11 + c)%nat = Some (r * 16 + c)%nat.
Proof.
  intros Hr Hc.
  do 7 (destruct r as [| r]; [do 11 (destruct c as [| c]; [reflexivity |]); lia |]). lia.
Qed.
Lemma matrix_cells_inv i : i ∈ matrix_cells -> exists r c, (r < 7)%nat /\ (c < 11)%nat /\ i = (r * 16 + c)%nat.
Proof.
  intros Hi. unfold matrix_cells in Hi. apply list_elem_of_join in Hi as (l & Hi & Hl).
  apply list_elem_of_fmap in Hl as (r & -> & Hr). apply list_elem_of_fmap in Hi as (c & -> & Hc).
  apply elem_of_seq in Hr, Hc. exists r, c. lia.
Qed.

Lemma matrix_rows_at bits r c :
  (r < 7)%nat -> (c < 11)%nat -> (matrix_rows bits).[r * 16 + c] = bits.[r * 11 + c].
Proof.
  intros Hr Hc. unfold matrix_rows.
  apply (place_spec bits matrix_cells _ 0 (r * 11 + c) (r * 16 + c)).
  - apply matrix_cells_NoDup.
  - by apply matrix_cells_at.
  - rewrite length_replicate. lia.
Qed.

Lemma matrix_rows_zero bits r c :
  (7 <= r \/ 11 <= c)%nat -> (c < 16)%nat -> (matrix_rows bits).[r * 16 + c] = 0.
Proof.
  intros H Hc. unfold matrix_rows. rewrite place_other; [apply byte_at_replicate |].
  intros Hi. apply matrix_cells_inv in Hi as (r' & c' & Hr' & Hc' & E). lia.
Qed.

(** After [k] columns: rows 0-6 are untouched, the last row is zero outside
    the data columns, the columns done so far sum to zero. *)
Definition columns_done (bits : list Z) (k : nat) (m : list Z) : Prop :=
  length m = 128%nat /\
  (forall r c, (r < 7)%nat -> (c < 16)%nat -> m.[r * 16 + c] = (matrix_rows bits).[r * 16 + c]) /\
  (forall c, (11 <= c < 16)%nat -> m.[112 + c] = 0) /\
  forall c, (c < k)%nat -> column_sum m c = 0.

Lemma column_sum_step x i c :
  length x = 128%nat -> (i < 11)%nat -> (c < 11)%nat ->
  column_sum (column_parity_step x i) c = if decide (c = i) then 0 else column_sum x c.
Proof.
  intros Hl Hi Hc. unfold column_sum, column_parity_step.
  rewrite !(seq_S 7 0), !foldl_app. cbn [foldl]. change (0 + 7)%nat with 7%nat.
  rewrite (foldl_ext_in _ (fun p r => Z.lxor p (x.[r * 16 + c]))) at 1
    by (intros p r Hr; apply elem_of_seq in Hr; by rewrite byte_at_insert_ne by lia).
  case_decide as E; [subst c | by rewrite byte_at_insert_ne by lia].
  rewrite byte_at_insert by lia. apply Z.lxor_nilpotent.
Qed.

Lemma columns_loop bits : columns_done bits 11 (foldl column_parity_step (matrix_rows bits) (seq 0 11)).
Proof.
  apply (foldl_seq_ind (columns_done bits) _ 0 11 (matrix_rows bits)).
  - unfold columns_done.
    split_ands; [apply place_length | done | intros c Hc; by apply (matrix_rows_zero bits 7 c); lia | lia].
  - intros i x Hi (Hl & Hrow & Hz & Hsum). unfold columns_done.
    split_ands; [by unfold column_parity_step; rewrite length_insert | | |].
    + intros r c Hr Hc. unfold column_parity_step. rewrite byte_at_insert_ne by lia. auto.
    + intros c Hc. unfold column_parity_step. rewrite byte_at_insert_ne by lia. auto.
    + intros c Hc. rewrite column_sum_step by lia. case_decide; [done |]. apply Hsum. lia.
Qed.

(** What the matrix holds: the information bits in rows 0-6 of columns 0-10,
    zeros in columns 11-15, and columns that sum to zero. *)
Lemma embedded_matrix_spec bits :
  let m := embedded_matrix bits in
  (forall r c, (r < 7)%nat -> (c < 11)%nat -> m.[r * 16 + c] = bits.[r * 11 + c]) /\
  (forall r c, (r < 8)%nat -> (11 <= c < 16)%nat -> m.[r * 16 + c] = 0) /\
  (forall c, (c < 16)%nat -> column_sum m c = 0).
Proof.
  intros m. unfold m. rewrite embedded_matrix_steps.
  destruct (columns_loop bits) as (Hl & Hrow & Hz & Hsum). revert Hl Hrow Hz Hsum.
  generalize (foldl column_parity_step (matrix_rows bits) (seq 0 11)). intros x Hl Hrow Hz Hsum.
  assert (Hcol : forall r c, (r < 8)%nat -> (11 <= c < 16)%nat -> x.[r * 16 + c] = 0).
  { intros r c Hr Hc. destruct (decide (r < 7)%nat) as [Hlt | Hge].
    - rewrite Hrow by lia. apply matrix_rows_zero; lia.
    - replace (r * 16 + c)%nat with (112 + c)%nat by lia. auto. }
  split_ands; [| done |].
  - intros r c Hr Hc. rewrite Hrow by lia. by apply matrix_rows_at.
  - intros c Hc. destruct (decide (c < 11)%nat) as [Hlt | Hge]; [auto |].
    unfold column_sum. apply foldl_fixed. intros r Hr. apply elem_of_seq in Hr.
    rewrite Hcol by lia. done.
Qed.

Lemma embedded_matrix_bits bits : Forall is_bit bits -> Forall is_bit (embedded_matrix bits).
Proof.
  intros Hb. rewrite embedded_matrix_steps. apply (foldl_inv (Forall is_bit)).
  - apply (foldl_inv (fun st => Forall is_bit (fst st))); [apply (zeros_bits 128) |].
    intros [g k] p _ Hg. simpl in *. apply Forall_insert; [done |]. apply byte_at_Forall; [done | by left].
  - intros m c _ Hm. apply Forall_insert; [done |]. apply (foldl_inv is_bit); [by left |].
    intros p r _ Hp. apply bit_lxor; [done |]. apply byte_at_Forall; [done | by left].
Qed.

Lemma embedded_bits_bits src dst : Forall is_bit (embedded_bits src dst).
Proof.
  unfold embedded_bits. apply (foldl_inv (Forall is_bit)).
  - apply (foldl_inv (Forall is_bit)); [apply (zeros_bits 77) |]. intros b i _ Hb.
    apply (foldl_inv (Forall is_bit)); [done |]. intros b' j _ Hb'.
    apply Forall_insert; [done |]. apply is_bit_range, land_range; cbn; lia.
  - intros b i _ Hb. apply Forall_insert; [done |]. apply is_bit_range, land_range; cbn; lia.
Qed.

(** A fragment is four columns of the matrix, one per byte. *)
Lemma fragment_bits m frag q r :
  Forall is_bit m -> (q < 4)%nat -> (r < 8)%nat ->
  bit_at (embedded_fragment m frag) (q * 8 + r) = m.[r * 16 + (frag * 4 + q)].
Proof.
  intros Hm Hq Hr. unfold embedded_fragment.
  rewrite bit_at_or_bits_zero by (rewrite ?length_replicate, ?bit_at_zeros; lia).
  rewrite Nat.sub_0_r, Nat.div_add_l, Nat.div_small, Nat.add_0_r by lia.
  rewrite (Nat.add_comm (q * 8)), Nat.Div0.mod_add, (Nat.mod_small r) by lia.
  apply b2z_eqb_1, byte_at_Forall; [done | by left].
Qed.

Definition byte_parity (l : list Z) (q : nat) : Z :=
  foldl (fun p r => Z.lxor p (bit_at l (q * 8 + r))) 0 (seq 0 8).

Lemma fragment_parity bits frag q :
  Forall is_bit bits -> (frag < 4)%nat -> (q < 4)%nat ->
  byte_parity (embedded_fragment (embedded_matrix bits) frag) q = 0.
Proof.
  intros Hb Hf Hq. destruct (embedded_matrix_spec bits) as (_ & _ & Hsum).
  rewrite <- (Hsum (frag * 4 + q)%nat ltac:(lia)). apply foldl_ext_in.
  intros p r Hr. apply elem_of_seq in Hr. f_equal. apply fragment_bits; [| lia | lia].
  by apply embedded_matrix_bits.
Qed.

(** ** Frames out of a burst *)

Lemma extract_spec burst :
  (33 <= length burst)%nat ->
  ExtractVoiceFramesFromBurst burst =
  Done (or_bits (replicate 9 0) 0 72 (fun i => bit_at burst i =? 1),
        or_bits (or_bits (replicate 9 0) 0 36 (fun i => bit_at burst (72 + i) =? 1))
          36 36 (fun i => bit_at burst (156 + i) =? 1),
        or_bits (replicate 9 0) 0 72 (fun i => bit_at burst (192 + i) =? 1)).
Proof.
  intros Hl. unfold ExtractVoiceFramesFromBurst.
  rewrite !(CopyBits_spec (replicate 9 0)) by (rewrite ?length_replicate; lia). cbn [obind].
  rewrite CopyBits_spec by (rewrite ?or_bits_length, ?length_replicate; lia). done.
Qed.

Lemma extract_short burst :
  (length burst < 33)%nat -> ExtractVoiceFramesFromBurst burst = Panic.
Proof.
  intros Hl. unfold ExtractVoiceFramesFromBurst.
  assert (Hlast : CopyBits (replicate 9 0) 0 burst 192 72 = Panic) by (apply CopyBits_short; lia).
  rewrite Hlast.
  destruct (CopyBits (replicate 9 0) 0 burst 0 72) as [fr1 |]; cbn [obind]; [| exact eq_refl].
  destruct (CopyBits (replicate 9 0) 0 burst 72 36) as [fr2 |]; cbn [obind]; [| exact eq_refl].
  destruct (CopyBits fr2 36 burst 156 36) as [fr2' |]; exact eq_refl.
Qed.

(** Outside bits 108-155 the assembled burst carries the frames. *)
Lemma assemble_frame_bits f1 f2 f3 seq srcID dstID cc j :
  length f1 = 9%nat -> length f2 = 9%nat -> length f3 = 9%nat ->
  (j < 264)%nat -> (j < 108 \/ 156 <= j)%nat ->
  bit_at (AssembleVoiceBurst f1 f2 f3 seq srcID dstID cc) j =
  bit_at (burst_layout f1 f2 (middle seq srcID dstID) f3) j.
Proof.
  intros H1 H2 H3 Hj Hm. rewrite assemble_layout by done. cbv zeta.
  destruct (_ && _); [| done]. rewrite emb_bits by (rewrite burst_layout_length; lia).
  destruct (Nat.leb_spec 108 j), (Nat.ltb_spec j 116), (Nat.leb_spec 148 j), (Nat.ltb_spec j 156);
    cbn [andb]; done || (exfalso; lia).
Qed.

Lemma assemble_length f1 f2 f3 seq srcID dstID cc :
  length f1 = 9%nat -> length f2 = 9%nat -> length f3 = 9%nat ->
  length (AssembleVoiceBurst f1 f2 f3 seq srcID dstID cc) = 33%nat.
Proof.
  intros H1 H2 H3. rewrite assemble_layout by done. cbv zeta.
  destruct (_ && _); rewrite ?ApplyEmbeddedControl_length; apply burst_layout_length.
Qed.

(** Between the two halves of the EMB field it carries the middle region. *)
Lemma assemble_mid_bits f1 f2 f3 seq srcID dstID cc j :
  length f1 = 9%nat -> length f2 = 9%nat -> length f3 = 9%nat -> (116 <= j < 148)%nat ->
  bit_at (AssembleVoiceBurst f1 f2 f3 seq srcID dstID cc) j = bit_at (middle seq srcID dstID) (j - 108).
Proof.
  intros H1 H2 H3 Hj. rewrite assemble_layout by done. cbv zeta.
  assert (Hmid : bit_at (burst_layout f1 f2 (middle seq srcID dstID) f3) j =
    bit_at (middle seq srcID dstID) (j - 108)).
  { rewrite burst_layout_bits by lia.
    by destruct (Nat.ltb_spec j 72), (Nat.ltb_spec j 108), (Nat.ltb_spec j 156); try lia. }
  destruct (_ && _); [| done]. rewrite emb_bits by (rewrite burst_layout_length; lia).
  destruct (Nat.leb_spec 108 j), (Nat.ltb_spec j 116), (Nat.leb_spec 148 j); cbn [andb];
    done || (exfalso; lia).
Qed.

(** ** The middle of a burst *)

Lemma middle_parity seq srcID dstID q :
  0 < seq -> (1 <= q <= 4)%nat -> byte_parity (middle seq srcID dstID) q = 0.
Proof.
  intros Hs Hq. unfold middle. destruct (Z.eqb_spec seq 0); [lia |].
  assert (Hn : (Z.to_nat ((seq - 1) mod 4) < 4)%nat)
    by (pose proof (Z.mod_pos_bound (seq - 1) 4); lia).
  revert Hn. generalize (Z.to_nat ((seq - 1) mod 4)). intros m Hn.
  set (frag := embedded_fragment (embedded_matrix (embedded_bits srcID dstID)) m).
  assert (Hfrag : nth m (EncodeEmbeddedLC srcID dstID) [] = frag).
  { unfold EncodeEmbeddedLC, frag. cbv zeta. by rewrite nth_map_seq. }
  assert (Hl : length frag = 4%nat) by (unfold frag, embedded_fragment; by rewrite or_bits_length).
  rewrite Hfrag, <- (fragment_parity (embedded_bits srcID dstID) m (q - 1) (embedded_bits_bits _ _) Hn) by lia.
  apply foldl_ext_in. intros p r Hr. apply elem_of_seq in Hr. f_equal.
  rewrite !bit_at_testbit.
  rewrite !Nat.div_add_l, (Nat.div_small r), !Nat.add_0_r by lia.
  rewrite !(Nat.add_comm (_ * 8)), !Nat.Div0.mod_add, byte_at_inserts_in; [done | lia |].
  rewrite length_replicate, Hl. lia.
Qed.

(** No sync pattern has even parity in all four of its middle bytes. *)
Lemma sync_parity s :
  s <> EmbeddedSignallingPattern ->
  exists q, (1 <= q <= 4)%nat /\ byte_parity (sync_bytes s) q = 1.
Proof.
  intros Hs. destruct s; try done;
    first [ by exists 1%nat; split; [lia | vm_compute] | by exists 2%nat; split; [lia | vm_compute]
          | by exists 3%nat; split; [lia | vm_compute] | by exists 4%nat; split; [lia | vm_compute] ].
Qed.

Lemma embedded_recognised f1 f2 f3 seq srcID dstID cc :
  length f1 = 9%nat -> length f2 = 9%nat -> length f3 = 9%nat -> 1 <= seq ->
  BurstSyncPattern (AssembleVoiceBurst f1 f2 f3 seq srcID dstID cc) = EmbeddedSignallingPattern.
Proof.
  intros H1 H2 H3 Hs. rewrite BurstSyncPattern_field.
  set (b := AssembleVoiceBurst _ _ _ _ _ _ _). destruct (sync_field_bytes b) as [Hl Hb].
  destruct (decide (SyncPatternFromBytes (sync_field b) = EmbeddedSignallingPattern)) as [| Hne]; [done |].
  exfalso. pose proof (SyncPatternFromBytes_inv _ Hl Hb Hne) as Hinv.
  destruct (sync_parity _ Hne) as (q & Hq & Hp). rewrite <- Hinv in Hp.
  assert (Hz : byte_parity (sync_field b) q = 0); [| congruence].
  rewrite <- (middle_parity seq srcID dstID q) by lia. apply foldl_ext_in.
  intros p r Hr. apply elem_of_seq in Hr. f_equal. rewrite sync_field_bits by lia.
  unfold b. rewrite assemble_mid_bits by lia. f_equal. lia.
Qed.

Lemma voice_sync_field f1 f2 f3 srcID dstID cc :
  length f1 = 9%nat -> length f2 = 9%nat -> length f3 = 9%nat ->
  sync_field (AssembleVoiceBurst f1 f2 f3 0 srcID dstID cc) = dmrSyncAudioBS.
Proof.
  intros H1 H2 H3. destruct (sync_field_bytes (AssembleVoiceBurst f1 f2 f3 0 srcID dstID cc)) as [Hl Hb].
  apply bytes_ext; [done | done | by_eval |]. rewrite Hl. intros i Hi.
  rewrite sync_field_bits by done. rewrite assemble_layout by done. cbv zeta. cbn [andb Z.leb Z.compare].
  rewrite burst_layout_bits by lia.
  destruct (Nat.ltb_spec (108 + i) 72), (Nat.ltb_spec (108 + i) 108), (Nat.ltb_spec (108 + i) 156); try lia.
  unfold middle. cbn [Z.eqb]. f_equal. lia.
Qed.

(** The bits of a 16-bit word, most significant first. *)
Definition word_bits (w : Z) : list Z :=
  (fun i => Z.b2z (Z.testbit w (Z.of_nat (15 - i)))) <$> seq 0 16.

(** What the program relies on in dmrgo: decoding an undamaged slot type or
    EMB word returns the color code that was encoded. *)
Class PduLaws `{Pdu} : Prop := {
  slot_type_color b : is_byte b ->
    NewSlotTypeFromBits_ColorCode (golayEncode208 b) = Z.shiftr b 4;
  emb_color v : 0 <= v < 128 ->
    NewEmbeddedSignallingFromBits_ColorCode (word_bits (qr1676Table.[Z.to_nat v])) = Z.shiftr v 3
}.

(** The EMB word is the codeword of a 7-bit value whose top bits are the color
    code. *)
Lemma emb_code_value cc s :
  is_byte cc -> exists v, 0 <= v < 128 /\ emb_code cc s = qr1676Table.[Z.to_nat v] /\
    Z.shiftr v 3 = Z.land cc 0xF.
Proof.
  intros Hcc. unfold emb_code.
  set (lcss := if (s =? 1) || (s =? 5) then 1 else if s =? 4 then 3 else 2).
  assert (Hl : lcss = 1 \/ lcss = 2 \/ lcss = 3)
    by (unfold lcss; destruct (_ || _), (s =? 4); tauto).
  exists (Z.land (Z.shiftr (Z.lor (u8 (Z.shiftl cc 4)) (Z.land (Z.shiftl lcss 1) 0x06)) 1) 0x7F).
  split; [apply (land_range 7); cbn; lia |]. split; [done |].
  apply (small_cases 256) in Hcc as (k & Hk & ->).
  assert (H : forallb (fun k => forallb (fun l =>
    Z.shiftr (Z.land (Z.shiftr (Z.lor (u8 (Z.shiftl (Z.of_nat k) 4)) (Z.land (Z.shiftl l 1) 6)) 1) 127) 3
      =? Z.land (Z.of_nat k) 15) [1; 2; 3]) (seq 0 256) = true) by (vm_compute; reflexivity).
  pose proof (forallb_seq _ _ k H Hk) as H'. rewrite forallb_forall in H'.
  apply Z.eqb_eq, H'. cbn. destruct Hl as [-> | [-> | ->]]; tauto.
Qed.

Lemma flag_b2z b : flag b = Z.b2z b.
Proof. by destruct b. Qed.

Lemma map_seq_split {A} (F : nat -> A) n m :
  F <$> seq 0 (n + m) = (F <$> seq 0 n) ++ ((fun i => F (n + i)%nat) <$> seq 0 m).
Proof.
  rewrite seq_app, fmap_app. f_equal. rewrite Nat.add_0_l, <- (Nat.add_0_r n) at 1.
  rewrite <- fmap_add_seq, <- list_fmap_compose. done.
Qed.

Lemma map_seq_ext {A} (F G : nat -> A) n :
  (forall i, (i < n)%nat -> F i = G i) -> F <$> seq 0 n = G <$> seq 0 n.
Proof.
  intros H. apply list_fmap_ext. intros i x Hx. apply lookup_seq in Hx as [-> Hx]. apply H. lia.
Qed.

(** The sixteen EMB bits as the inspection code collects them. *)
Lemma emb_field_bits f cc s :
  length f = 33%nat ->
  ((fun i => flag (bit_on (BurstBits (ApplyEmbeddedControl f cc s)) (108 + i))) <$> seq 0 8) ++
  ((fun i => flag (bit_on (BurstBits (ApplyEmbeddedControl f cc s)) (148 + i))) <$> seq 0 8) =
  word_bits (emb_code cc s).
Proof.
  intros Hl. unfold word_bits. rewrite (map_seq_split _ 8 8).
  f_equal; apply map_seq_ext; intros i Hi; rewrite flag_b2z, BurstBits_at, <- bit_at_eq_b2z, emb_bits by lia.
  - destruct (Nat.leb_spec 108 (108 + i)), (Nat.ltb_spec (108 + i) 116); try lia. cbn [andb].
    repeat f_equal; lia.
  - destruct (Nat.leb_spec 108 (148 + i)), (Nat.ltb_spec (148 + i) 116),
      (Nat.leb_spec 148 (148 + i)), (Nat.ltb_spec (148 + i) 156); try lia. cbn [andb].
    repeat f_equal; lia.
Qed.

(** The twenty slot type bits of a data burst. *)
Lemma slot_field_bits lc dt cc :
  ((fun i => flag (bit_on (BurstBits (BuildLCDataBurst lc dt cc)) (98 + i))) <$> seq 0 10) ++
  ((fun i => flag (bit_on (BurstBits (BuildLCDataBurst lc dt cc)) (156 + i))) <$> seq 0 10) =
  golayEncode208 (Z.lor (u8 (Z.shiftl (Z.land cc 0xF) 4)) (Z.land dt 0xF)).
Proof.
  set (g := golayEncode208 _).
  assert (Hb : Forall is_bit g).
  { unfold g. rewrite golay_linear_form. apply Forall_fmap, Forall_true. intros m. cbn.
    induction m as [| x m IH]; [by left |]. cbn. apply bit_lxor; [| done].
    apply is_bit_range, land_range; cbn; lia. }
  assert (Hg : g = byte_at g <$> seq 0 (10 + 10)).
  { apply byte_at_ext; [by rewrite length_fmap |]. intros i Hi. rewrite byte_at_map_seq; [done |].
    by unfold g in Hi; rewrite golay_length in Hi. }
  pose proof (fun i => burst_bits_slot lc dt cc i) as Hslot. fold g in Hslot. clearbody g.
  assert (Hbit : forall i, (i < 264)%nat -> bit_on (BurstBits (BuildLCDataBurst lc dt cc)) i =
    ((burst_bits lc dt cc).[i] =? 1))
    by (intros i Hi; rewrite BurstBits_at by done; by apply burst_bit_on).
  revert Hbit Hslot. generalize (BurstBits (BuildLCDataBurst lc dt cc)), (burst_bits lc dt cc).
  intros bb bits Hbit Hslot. rewrite Hg, map_seq_split.
  f_equal; apply map_seq_ext; intros i Hi; rewrite flag_b2z, Hbit by lia.
  - pose proof (Hslot i ltac:(lia)) as E.
    destruct (Nat.ltb_spec i 10); [| lia]. rewrite E. apply b2z_eqb_1, byte_at_Forall; [done | by left].
  - pose proof (Hslot (10 + i)%nat ltac:(lia)) as E.
    destruct (Nat.ltb_spec (10 + i) 10); [lia |].
    replace (146 + (10 + i))%nat with (156 + i)%nat in E by lia.
    rewrite E. apply b2z_eqb_1, byte_at_Forall; [done | by left].
Qed.

Lemma data_burst_sync lc dt cc : BurstSyncPattern (BuildLCDataBurst lc dt cc) = BsSourcedData.
Proof.
  rewrite BurstSyncPattern_field. unfold sync_field.
  rewrite (or_bits_ext _ _ _ _ (fun k => Z.testbit bsSourcedData (Z.of_nat (47 - k)))).
  - vm_compute. reflexivity.
  - intros i Hi. rewrite burst_bit_on, burst_bits_sync by lia.
    change 1 with (Z.ones 1) at 1. rewrite Z.land_ones by lia. change (2 ^ 1) with 2.
    rewrite Z.shiftr_div_pow2, <- Z.testbit_spec' by lia. by destruct (Z.testbit _ _).
Qed.

(** ** AMBE frames *)

(** The bit array [PackAMBEVoiceFrames] fills. *)
Definition ambe_bits (frames : list (list Z)) : list bool :=
  foldl (fun b i =>
      let b := <[i := (nth 0 frames []).[i] =? 1]> b in
      let b := <[(50 + i)%nat := (nth 1 frames []).[i] =? 1]> b in
      <[(100 + i)%nat := (nth 2 frames []).[i] =? 1]> b) (replicate 152 false) (seq 0 49).

Definition ambe_bit (frames : list (list Z)) (n : nat) : bool :=
  if (n mod 50 <? 49)%nat && (n <? 150)%nat then (nth (n / 50) frames []).[n mod 50] =? 1 else false.

Lemma bit_on_insert b i x j :
  (i < length b)%nat -> bit_on (<[i := x]> b) j = if decide (j = i) then x else bit_on b j.
Proof.
  intros Hi. unfold bit_on. case_decide as E.
  - subst. by rewrite list_lookup_insert_eq.
  - by rewrite list_lookup_insert_ne.
Qed.

Lemma div_mod_50 k i : (i < 50)%nat -> ((50 * k + i) / 50 = k /\ (50 * k + i) mod 50 = i)%nat.
Proof.
  intros Hi. rewrite (Nat.mul_comm 50), Nat.div_add_l, Nat.div_small by lia.
  rewrite (Nat.add_comm (k * 50)), Nat.Div0.mod_add, Nat.mod_small by lia. lia.
Qed.

Lemma ambe_bits_at frames n : (n < 152)%nat -> bit_on (ambe_bits frames) n = ambe_bit frames n.
Proof.
  intros Hn. unfold ambe_bits.
  assert (H : length (ambe_bits frames) = 152%nat /\
    bit_on (ambe_bits frames) n = if (n mod 50 <? 49)%nat then ambe_bit frames n else false).
  { unfold ambe_bits. apply (foldl_seq_ind (fun k b => length b = 152%nat /\
      bit_on b n = if (n mod 50 <? k)%nat then ambe_bit frames n else false) _ 0 49).
    - split; [apply length_replicate |]. unfold bit_on.
      destruct (replicate 152 false !! n) eqn:E; [| done]. by apply lookup_replicate in E as [-> _].
    - intros i b Hi [Hl IH]. cbv zeta. split; [by rewrite !length_insert |].
      rewrite !bit_on_insert by (rewrite ?length_insert; lia). rewrite IH.
      destruct (div_mod_50 0 i ltac:(lia)) as [D0 M0]. destruct (div_mod_50 1 i ltac:(lia)) as [D1 M1].
      destruct (div_mod_50 2 i ltac:(lia)) as [D2 M2].
      assert (Hd : (n = 50 * (n / 50) + n mod 50)%nat) by apply Nat.div_mod_eq.
      pose proof (Nat.mod_upper_bound n 50 ltac:(lia)) as Hm.
      assert (Hq : (n / 50 < 4)%nat) by (apply Nat.Div0.div_lt_upper_bound; lia).
      destruct (Nat.ltb_spec (n mod 50) (S i)), (Nat.ltb_spec (n mod 50) i); try lia.
      + repeat (case_decide; [lia |]). done.
      + assert (Em : (n mod 50 = i)%nat) by lia. unfold ambe_bit. rewrite Em.
        destruct (Nat.ltb_spec i 49); [| lia].
        assert (Hq4 : (n / 50 = 0 \/ n / 50 = 1 \/ n / 50 = 2 \/ n / 50 = 3)%nat) by lia.
        rewrite Em in Hd.
        destruct Hq4 as [Q | [Q | [Q | Q]]]; rewrite Q in Hd |- *; clear Em Q D0 M0 D1 M1 D2 M2 IH;
          repeat (case_decide; try lia); destruct (Nat.ltb_spec n 150); cbn [andb]; done || lia.
      + repeat (case_decide; [lia |]). done. }
  fold (ambe_bits frames). destruct H as [_ ->].
  unfold ambe_bit. by destruct (Nat.ltb_spec (n mod 50) 49).
Qed.

(** Spreading a word over a table of distinct positions. *)
Lemma ambe_spread_length w mask table out : length (ambe_spread w mask table out) = length out.
Proof.
  unfold ambe_spread.
  apply (foldl_inv (fun st => length (fst st) = length out)); [done |].
  intros [o m] pos _ H. cbn in *. destruct (negb _); by rewrite ?length_insert.
Qed.

Lemma ambe_spread_other w mask table out p :
  p ∉ table -> (ambe_spread w mask table out).[p] = out.[p].
Proof.
  intros Hp. unfold ambe_spread. apply (foldl_inv (fun st => (fst st).[p] = out.[p])); [done |].
  intros [o m] pos Hpos H. cbn in *. destruct (negb _); [| done].
  rewrite byte_at_insert_ne; [done |]. by intros ->.
Qed.

Lemma pow2_shiftr_1 k : 0 < k -> Z.shiftr (2 ^ k) 1 = 2 ^ (k - 1).
Proof.
  intros Hk. rewrite Z.shiftr_div_pow2 by lia. change (2 ^ 1) with 2.
  replace k with (1 + (k - 1)) at 1 by lia. rewrite Z.pow_add_r by lia.
  rewrite Z.mul_comm. apply Z.div_mul. done.
Qed.

Lemma ambe_spread_at w k table out i p :
  NoDup table -> table !! i = Some p -> (p < length out)%nat -> out.[p] = 0 ->
  Z.of_nat (length table) <= k + 1 ->
  (ambe_spread w (2 ^ k) table out).[p] = Z.b2z (Z.testbit w (k - Z.of_nat i)).
Proof.
  unfold ambe_spread. revert k out i. induction table as [| q table IH]; intros k out i Hnd Hi Hp Hz Hk; [done |].
  apply NoDup_cons in Hnd as [Hq Hnd]. cbn [foldl length] in *.
  assert (Hland : negb (Z.land w (2 ^ k) =? 0) = Z.testbit w k)
    by (rewrite <- Z.shiftl_1_l; apply land_bit_testbit; lia).
  destruct i as [| i].
  - injection Hi as ->. fold (ambe_spread w (Z.shiftr (2 ^ k) 1) table
      (if negb (Z.land w (2 ^ k) =? 0) then <[p := 1]> out else out)).
    rewrite ambe_spread_other by done. rewrite Hland, Z.sub_0_r.
    destruct (Z.testbit w k); [by rewrite byte_at_insert | done].
  - cbn in Hi. assert (Hpq : p <> q) by (intros ->; apply Hq; by eapply list_elem_of_lookup_2).
    assert (0 < k) by (apply lookup_lt_Some in Hi; lia).
    rewrite pow2_shiftr_1 by done. rewrite (IH (k - 1) _ i); try done.
    + do 2 f_equal. lia.
    + destruct (negb _); by rewrite ?length_insert.
    + destruct (negb _); [by rewrite byte_at_insert_ne | done].
    + lia.
Qed.

(** Collecting bits into a word, the most significant first. *)
Lemma lor_pow2_testbit w k j : 0 <= k -> 0 <= j ->
  Z.testbit (Z.lor w (2 ^ k)) j = if decide (j = k) then true else Z.testbit w j.
Proof.
  intros Hk Hj. rewrite Z.lor_spec. case_decide as E.
  - subst. by rewrite Z.pow2_bits_true, orb_true_r.
  - by rewrite Z.pow2_bits_false, orb_false_r by lia.
Qed.

Lemma ambe_word_bit d off n i :
  (i < n)%nat ->
  Z.testbit (ambe_word d off n (2 ^ (Z.of_nat n - 1))) (Z.of_nat (n - 1 - i)) = (d.[off + i] =? 1).
Proof.
  intros Hi. unfold ambe_word.
  assert (H : forall l k w, (forall j, (k <= j)%nat -> (j < n)%nat -> Z.testbit w (Z.of_nat (n - 1 - j)) = false) ->
    (k + l = n)%nat ->
    forall j, (j < n)%nat -> Z.testbit (fst (foldl (fun '(w, m) i =>
      (if d.[off + i] =? 1 then Z.lor w m else w, Z.shiftr m 1))
      (w, 2 ^ (Z.of_nat n - 1 - Z.of_nat k)) (seq k l))) (Z.of_nat (n - 1 - j)) =
    if (j <? k)%nat then Z.testbit w (Z.of_nat (n - 1 - j)) else (d.[off + j] =? 1)).
  { induction l as [| l IH]; intros k w Hw Hk j Hj; cbn [seq foldl].
    - destruct (Nat.ltb_spec j k); [done | lia].
    - destruct (decide (l = 0)%nat) as [-> | Hl].
      + cbn [seq foldl fst]. destruct (Nat.ltb_spec j k).
        * destruct (d.[off + k] =? 1); [| done].
          rewrite lor_pow2_testbit by lia. by rewrite decide_False by lia.
        * assert (j = k) as -> by lia. destruct (d.[off + k] =? 1); [| apply Hw; lia].
          rewrite lor_pow2_testbit by lia. by rewrite decide_True by lia.
      + rewrite pow2_shiftr_1 by lia.
        replace (Z.of_nat n - 1 - Z.of_nat k - 1) with (Z.of_nat n - 1 - Z.of_nat (S k)) by lia.
        rewrite IH; [| | lia | done].
        * destruct (Nat.ltb_spec j k), (Nat.ltb_spec j (S k)); try lia; try done.
          -- destruct (d.[off + k] =? 1); [| done].
             rewrite lor_pow2_testbit by lia. by rewrite decide_False by lia.
          -- assert (j = k) as -> by lia. destruct (d.[off + k] =? 1); [| apply Hw; lia].
             rewrite lor_pow2_testbit by lia. by rewrite decide_True by lia.
        * intros j' H1 H2. destruct (d.[off + k] =? 1); [| apply Hw; lia].
          rewrite lor_pow2_testbit by lia. rewrite decide_False by lia. apply Hw; lia. }
  pose proof (H n 0%nat 0) as H0. rewrite Z.sub_0_r in H0. rewrite H0; [done | | lia | done].
  intros. apply Z.testbit_0_l.
Qed.

Lemma pack_bit_at frames n :
  (n < 152)%nat -> bit_at (PackAMBEVoiceFrames frames) n = Z.b2z (ambe_bit frames n).
Proof.
  intros Hn. unfold PackAMBEVoiceFrames. fold (ambe_bits frames).
  rewrite bit_at_or_bits_zero by (rewrite ?length_replicate, ?bit_at_zeros; lia).
  by rewrite Nat.sub_0_r, ambe_bits_at.
Qed.

Lemma unpack_ambe_bit data n :
  (n < 152)%nat ->
  ambe_bit (UnpackAMBEVoiceFrames data) n =
  if decide (n ∈ [49; 99; 149; 150; 151]%nat) then false else (bit_at data n =? 1).
Proof.
  intros Hn. unfold ambe_bit.
  assert (Hframe : forall k, (k < 3)%nat -> nth k (UnpackAMBEVoiceFrames data) [] =
    (fun i => flag (bit_on ((fun i => bit_at data i =? 1) <$> seq 0 152) (50 * k + i))) <$> seq 0 49).
  { intros k Hk. unfold UnpackAMBEVoiceFrames. cbv zeta.
    generalize ((fun i => bit_at data i =? 1) <$> seq 0 152). intros bits.
    do 3 (destruct k as [| k]; [reflexivity |]). lia. }
  assert (Hd : (n = 50 * (n / 50) + n mod 50)%nat) by apply Nat.div_mod_eq.
  pose proof (Nat.mod_upper_bound n 50 ltac:(lia)) as Hm.
  assert (Hq : (n / 50 < 4)%nat) by (apply Nat.Div0.div_lt_upper_bound; lia).
  destruct (Nat.ltb_spec (n mod 50) 49), (Nat.ltb_spec n 150); cbn [andb].
  - rewrite Hframe by lia. rewrite byte_at_map_seq, <- Hd by lia.
    rewrite bit_on_map, flag_b2z, eqb_1_b2z by lia.
    rewrite decide_False; [done |]. rewrite !elem_of_cons, elem_of_nil. lia.
  - rewrite decide_True; [done |]. rewrite !elem_of_cons, elem_of_nil. lia.
  - rewrite decide_True; [done |]. rewrite !elem_of_cons, elem_of_nil. lia.
  - lia.
Qed.

(** The three tables are disjoint and inside the frame. *)
Lemma ambe_table_A i p :
  ambeATable !! i = Some p -> (p ∉ ambeBTable) /\ (p ∉ ambeCTable) /\ (p < 72)%nat.
Proof.
  intros Hi. apply list_elem_of_lookup_2 in Hi. revert p Hi. rewrite <- Forall_forall. by_eval.
Qed.
Lemma ambe_table_B i p :
  ambeBTable !! i = Some p -> (p ∉ ambeATable) /\ (p ∉ ambeCTable) /\ (p < 72)%nat.
Proof.
  intros Hi. apply list_elem_of_lookup_2 in Hi. revert p Hi. rewrite <- Forall_forall. by_eval.
Qed.
Lemma ambe_table_C i p :
  ambeCTable !! i = Some p -> (p ∉ ambeATable) /\ (p ∉ ambeBTable) /\ (p < 72)%nat /\ (i < 25)%nat.
Proof.
  intros Hi. assert (i < 25)%nat by (apply lookup_lt_Some in Hi; done).
  enough ((p ∉ ambeATable) /\ (p ∉ ambeBTable) /\ (p < 72)%nat) by tauto.
  apply list_elem_of_lookup_2 in Hi. revert p Hi. rewrite <- Forall_forall. by_eval.
Qed.

(** ** Properties *)

(** the three 9-byte voice frames put into a burst are the ones taken out
    of it, for every position in the superframe, source, destination and
    color code: the sync and the embedded signalling never touch them. *)
Theorem voice_frames_roundtrip f1 f2 f3 seq srcID dstID cc :
  length f1 = 9%nat -> length f2 = 9%nat -> length f3 = 9%nat ->
  Forall is_byte f1 -> Forall is_byte f2 -> Forall is_byte f3 ->
  ExtractVoiceFramesFromBurst (AssembleVoiceBurst f1 f2 f3 seq srcID dstID cc) = Done (f1, f2, f3).
Proof.
  intros H1 H2 H3 B1 B2 B3. rewrite extract_spec by (rewrite assemble_length; lia).
  assert (Hbit : forall j, (j < 264)%nat -> (j < 108 \/ 156 <= j)%nat ->
    bit_at (AssembleVoiceBurst f1 f2 f3 seq srcID dstID cc) j =
    bit_at (burst_layout f1 f2 (middle seq srcID dstID) f3) j)
    by (intros; by apply assemble_frame_bits).
  revert Hbit. generalize (AssembleVoiceBurst f1 f2 f3 seq srcID dstID cc). intros burst Hbit.
  f_equal. f_equal; [f_equal |]; apply frame_eq; rewrite ?or_bits_length, ?length_replicate;
    auto with bytes; intros i Hi.
  - rewrite bit_at_or_bits_zero by (rewrite ?length_replicate, ?bit_at_zeros; lia).
    rewrite Nat.sub_0_r, <- bit_at_eq_b2z, Hbit, burst_layout_bits by lia.
    by destruct (Nat.ltb_spec i 72); [| lia].
  - destruct (decide (i < 36)%nat) as [Hlt | Hge].
    + rewrite bit_at_or_bits_out by (rewrite ?or_bits_length, ?length_replicate; lia).
      rewrite bit_at_or_bits_zero by (rewrite ?length_replicate, ?bit_at_zeros; lia).
      rewrite Nat.sub_0_r, <- bit_at_eq_b2z, Hbit, burst_layout_bits by lia.
      destruct (Nat.ltb_spec (72 + i) 72), (Nat.ltb_spec (72 + i) 108); try lia. f_equal. lia.
    + rewrite bit_at_or_bits_zero by (rewrite ?or_bits_length, ?length_replicate, ?bit_at_or_bits_out, ?bit_at_zeros by (rewrite ?length_replicate; lia); lia).
      rewrite <- bit_at_eq_b2z, Hbit, burst_layout_bits by lia.
      destruct (Nat.ltb_spec (156 + (i - 36)) 72), (Nat.ltb_spec (156 + (i - 36)) 108),
        (Nat.ltb_spec (156 + (i - 36)) 156), (Nat.ltb_spec (156 + (i - 36)) 192); try lia. f_equal. lia.
  - rewrite bit_at_or_bits_zero by (rewrite ?length_replicate, ?bit_at_zeros; lia).
    rewrite Nat.sub_0_r, <- bit_at_eq_b2z, Hbit, burst_layout_bits by lia.
    destruct (Nat.ltb_spec (192 + i) 72), (Nat.ltb_spec (192 + i) 108), (Nat.ltb_spec (192 + i) 156),
      (Nat.ltb_spec (192 + i) 192); try lia. f_equal. lia.
Qed.

(** the sync detector tells the bursts of a superframe apart: the first is
    recognised as BS voice sync, and no later one is ever mistaken for a sync,
    whatever the identifiers and the voice it carries. *)
Theorem superframe_sync f1 f2 f3 seq srcID dstID cc :
  length f1 = 9%nat -> length f2 = 9%nat -> length f3 = 9%nat -> 0 <= seq ->
  BurstSyncPattern (AssembleVoiceBurst f1 f2 f3 seq srcID dstID cc) =
  if seq =? 0 then BsSourcedVoice else EmbeddedSignallingPattern.
Proof.
  intros H1 H2 H3 Hs. destruct (Z.eqb_spec seq 0) as [-> | Hne].
  - rewrite BurstSyncPattern_field, voice_sync_field by done. done.
  - apply embedded_recognised; [done | done | done | lia].
Qed.

(** the color code survives: inspecting a voice burst of positions 1-5, or a
    Link Control data burst of any data type, returns the low four bits of the
    color code it was built with. *)
Theorem burst_color_code `{PduLaws} f1 f2 f3 seq srcID dstID cc lc dt :
  length f1 = 9%nat -> length f2 = 9%nat -> length f3 = 9%nat -> 1 <= seq <= 5 -> is_byte cc ->
  BurstEmbeddedColorCode (AssembleVoiceBurst f1 f2 f3 seq srcID dstID cc) = (Z.land cc 0xF, true) /\
  BurstSlotTypeColorCode (BuildLCDataBurst lc dt cc) = (Z.land cc 0xF, true).
Proof.
  intros H1 H2 H3 Hs Hcc.
  assert (Hcc4 : forall c, c = Z.land cc 0xF -> Z.land (u8 c) 0x0F = Z.land cc 0xF).
  { intros c ->. rewrite u8_id by (apply byte_land; done).
    by rewrite <- Z.land_assoc. }
  split.
  - unfold BurstEmbeddedColorCode, BurstHasEmbeddedSignalling.
    rewrite embedded_recognised by (done || lia). cbn [negb]. f_equal. apply Hcc4.
    rewrite assemble_layout by done. cbv zeta.
    rewrite (proj2 (Z.leb_le 1 seq)), (proj2 (Z.leb_le seq 5)) by lia. cbn [andb].
    rewrite emb_field_bits by apply burst_layout_length.
    destruct (emb_code_value cc seq Hcc) as (v & Hv & -> & <-). by apply emb_color.
  - unfold BurstSlotTypeColorCode, BurstHasDataSync. rewrite data_burst_sync. cbn [negb].
    f_equal. apply Hcc4. rewrite slot_field_bits.
    assert (Hb : is_byte (Z.lor (u8 (Z.shiftl (Z.land cc 0xF) 4)) (Z.land dt 0xF)))
      by (apply byte_lor; [apply u8_range | by apply byte_land]).
    rewrite slot_type_color by done. apply (Z_ext_below 4); [| by apply land_range | lia |].
    + rewrite Z.shiftr_div_pow2 by lia. unfold is_byte in Hb. change (2 ^ 4) with 16.
      split; [apply Z.div_pos | apply Z.div_lt_upper_bound]; lia.
    + intros i Hi. rewrite Z.shiftr_spec, Z.lor_spec, u8_testbit, Z.shiftl_spec by lia.
      replace (i + 4 - 4) with i by lia.
      rewrite (testbit_high (Z.land dt 0xF) 4 (i + 4)) by (try apply land_range; cbn; lia).
      apply orb_false_r.
Qed.

(** the embedded Link Control carries its 77 information bits and even
    column parity, and the five last columns of the 8 by 16 matrix, where the
    air interface has row parity, are left zero. *)
Theorem embedded_lc_columns src dst :
  let bits := embedded_bits src dst in
  let at_ r c := bit_at (nth (c / 4) (EncodeEmbeddedLC src dst) []) ((c mod 4) * 8 + r) in
  (forall r c, (r < 7)%nat -> (c < 11)%nat -> at_ r c = bits.[r * 11 + c]) /\
  (forall c, (c < 16)%nat -> foldl (fun p r => Z.lxor p (at_ r c)) 0 (seq 0 8) = 0) /\
  (forall r c, (r < 8)%nat -> (11 <= c < 16)%nat -> at_ r c = 0).
Proof.
  intros bits at_. destruct (embedded_matrix_spec bits) as (Hrow & Hcol & Hsum).
  assert (Hat : forall r c, (r < 8)%nat -> (c < 16)%nat -> at_ r c = (embedded_matrix bits).[r * 16 + c]).
  { intros r c Hr Hc. unfold at_, EncodeEmbeddedLC. cbv zeta.
    assert (c / 4 < 4)%nat by (apply Nat.Div0.div_lt_upper_bound; lia).
    pose proof (Nat.mod_upper_bound c 4 ltac:(lia)). rewrite nth_map_seq by done.
    rewrite fragment_bits by (done || apply embedded_matrix_bits, embedded_bits_bits).
    fold bits. f_equal. pose proof (Nat.div_mod_eq c 4). lia. }
  split_ands.
  - intros r c Hr Hc. rewrite Hat by lia. auto.
  - intros c Hc. etrans; [| exact (Hsum c Hc)]. apply foldl_ext_in. intros p r Hr.
    apply elem_of_seq in Hr. by rewrite Hat by lia.
  - intros r c Hr Hc. rewrite Hat by lia. auto.
Qed.

(** the EMB code is systematic with minimum distance 6: the top seven bits
    of a word are the value, and the words of two values differ in at least 6
    of the 16 bits. *)
Theorem emb_code_distance a b :
  0 <= a < 128 -> 0 <= b < 128 -> a <> b ->
  Z.shiftr (qr1676Table.[Z.to_nat a]) 9 = a /\
  6 <= weight (word_bits (Z.lxor (qr1676Table.[Z.to_nat a]) (qr1676Table.[Z.to_nat b]))).
Proof.
  intros Ha Hb Hne. apply (small_cases 128) in Ha as (i & Hi & ->).
  apply (small_cases 128) in Hb as (j & Hj & ->). rewrite !Nat2Z.id.
  assert (H1 : forallb (fun i => Z.shiftr (qr1676Table.[i]) 9 =? Z.of_nat i) (seq 0 128) = true)
    by (vm_compute; reflexivity).
  assert (H2 : forallb (fun i => forallb (fun j => Z.lxor (qr1676Table.[i]) (qr1676Table.[j]) =?
    qr1676Table.[Z.to_nat (Z.lxor (Z.of_nat i) (Z.of_nat j))]) (seq 0 128)) (seq 0 128) = true)
    by (vm_compute; reflexivity).
  assert (H3 : forallb (fun i => (i =? 0)%nat || (6 <=? weight (word_bits (qr1676Table.[i])))) (seq 0 128)
    = true) by (vm_compute; reflexivity).
  split; [by apply Z.eqb_eq, (forallb_seq _ _ i H1) |].
  pose proof (forallb_seq _ _ j (forallb_seq _ _ i H2 Hi) Hj) as E. apply Z.eqb_eq in E. rewrite E.
  pose proof (lxor_range 7 (Z.of_nat i) (Z.of_nat j) ltac:(lia) ltac:(cbn; lia) ltac:(cbn; lia)) as Hx.
  apply (small_cases 128) in Hx as (k & Hk & Hx).
  pose proof (forallb_seq _ _ k H3 Hk) as W. rewrite Hx, Nat2Z.id.
  apply orb_true_iff in W as [W | W]; [| by apply Z.leb_le in W].
  apply Nat.eqb_eq in W. subst k. apply Z.lxor_eq in Hx. destruct (Hne Hx).
Qed.

Lemma ambe_unpack_pack f0 f1 f2 :
  Forall (fun f => length f = 49%nat /\ Forall is_bit f) [f0; f1; f2] ->
  UnpackAMBEVoiceFrames (PackAMBEVoiceFrames [f0; f1; f2]) = [f0; f1; f2].
Proof.
  rewrite !Forall_cons. intros ([L0 B0] & [L1 B1] & [L2 B2] & _).
  assert (Hbit : forall j, (j < 152)%nat ->
    bit_on ((fun i => bit_at (PackAMBEVoiceFrames [f0; f1; f2]) i =? 1) <$> seq 0 152) j =
    ambe_bit [f0; f1; f2] j).
  { intros j Hj. rewrite bit_on_map, pack_bit_at by done. apply eqb_1_b2z. }
  unfold UnpackAMBEVoiceFrames. revert Hbit.
  generalize ((fun i => bit_at (PackAMBEVoiceFrames [f0; f1; f2]) i =? 1) <$> seq 0 152).
  intros bits Hbit.
  assert (Hframe : forall k f, (k < 3)%nat -> nth k [f0; f1; f2] [] = f -> length f = 49%nat ->
    Forall is_bit f -> (fun i => flag (bit_on bits (50 * k + i))) <$> seq 0 49 = f).
  { intros k f Hk Hf Hl Hb. apply byte_at_ext; rewrite length_fmap, length_seq; [done |].
    intros i Hi. rewrite byte_at_map_seq, Hbit, flag_b2z by lia. unfold ambe_bit.
    destruct (div_mod_50 k i ltac:(lia)) as [-> ->].
    destruct (Nat.ltb_spec i 49), (Nat.ltb_spec (50 * k + i) 150); try lia. cbn [andb].
    rewrite Hf. apply b2z_eqb_1, byte_at_Forall; [done | by left]. }
  exact (f_equal2 cons (Hframe 0%nat f0 ltac:(lia) eq_refl L0 B0)
    (f_equal2 cons (Hframe 1%nat f1 ltac:(lia) eq_refl L1 B1)
      (f_equal2 cons (Hframe 2%nat f2 ltac:(lia) eq_refl L2 B2) eq_refl))).
Qed.

(** packing three AMBE frames of 49 bits and unpacking them gives the
    frames back; unpacking 19 bytes and packing them again keeps every bit but
    the five the format does not use. *)
Theorem ambe_pack_roundtrip f0 f1 f2 data n :
  length f0 = 49%nat -> length f1 = 49%nat -> length f2 = 49%nat ->
  Forall is_bit f0 -> Forall is_bit f1 -> Forall is_bit f2 -> (n < 152)%nat ->
  UnpackAMBEVoiceFrames (PackAMBEVoiceFrames [f0; f1; f2]) = [f0; f1; f2] /\
  bit_at (PackAMBEVoiceFrames (UnpackAMBEVoiceFrames data)) n =
  (if decide (n ∈ [49; 99; 149; 150; 151]%nat) then 0 else bit_at data n).
Proof.
  intros L0 L1 L2 B0 B1 B2 Hn. split.
  - apply ambe_unpack_pack. by repeat apply Forall_cons_2.
  - rewrite pack_bit_at by done. rewrite unpack_ambe_bit by done.
    destruct (decide _); [done |]. by rewrite <- bit_at_eq_b2z.
Qed.

(** the channel bits of an AMBE frame: each of the 72 positions carries one
    bit of the Golay(24,12) word of the first 12 bits, of the scrambled
    Golay(23,12) word of the next 12, or of the 25 unprotected bits. *)
Theorem ambe_frame_positions `{AmbeTables} decodedBits i p :
  let aOrig := ambe_word decodedBits 0 12 0x000800 in
  let bOrig := ambe_word decodedBits 12 12 0x000800 in
  let b := Z.lxor (Z.shiftr (Golay_23_12_7_EncodingTable bOrig) 1) (Z.shiftr (PRNG_TABLE aOrig) 1) in
  let out := EncodeAMBEFrame decodedBits in
  (ambeATable !! i = Some p ->
     out.[p] = Z.b2z (Z.testbit (Golay_24_12_8_EncodingTable aOrig) (23 - Z.of_nat i))) /\
  (ambeBTable !! i = Some p -> out.[p] = Z.b2z (Z.testbit b (22 - Z.of_nat i))) /\
  (ambeCTable !! i = Some p -> out.[p] = Z.b2z (decodedBits.[24 + i] =? 1)) /\
  (forall q, (q < 72)%nat -> q ∈ ambeATable ++ ambeBTable ++ ambeCTable).
Proof.
  intros aOrig bOrig b out. unfold out, EncodeAMBEFrame. fold aOrig bOrig b.
  change 0x800000 with (2 ^ 23). change 0x400000 with (2 ^ 22). change 0x1000000 with (2 ^ 24).
  split_ands.
  - intros Hi. destruct (ambe_table_A i p Hi) as (HB & HC & Hp).
    rewrite !ambe_spread_other by done.
    apply ambe_spread_at; [by_eval | done | by rewrite length_replicate | apply byte_at_replicate | done].
  - intros Hi. destruct (ambe_table_B i p Hi) as (HA & HC & Hp).
    rewrite ambe_spread_other by done.
    apply ambe_spread_at; [by_eval | done | by rewrite ambe_spread_length, length_replicate | | done].
    rewrite ambe_spread_other by done. apply byte_at_replicate.
  - intros Hi. destruct (ambe_table_C i p Hi) as (HA & HB & Hp & Hi25).
    rewrite (ambe_spread_at _ 24 ambeCTable _ i p);
      [| by_eval | done | by rewrite !ambe_spread_length, length_replicate | | done].
    + f_equal. rewrite <- (ambe_word_bit decodedBits 24 25 i) by done.
      change (2 ^ (Z.of_nat 25 - 1)) with (2 ^ 24). f_equal. lia.
    + rewrite !ambe_spread_other by done. apply byte_at_replicate.
  - intros q Hq. assert (Hall : Forall (fun q => q ∈ ambeATable ++ ambeBTable ++ ambeCTable) (seq 0 72))
      by by_eval.
    rewrite Forall_forall in Hall. apply Hall, elem_of_seq. lia.
Qed.

(** ** Witnesses *)

(** A decoder that reads the color code off the systematic bits. *)
#[export] Instance systematic_pdu : Pdu := {
  NewSlotTypeFromBits_ColorCode l := 8 * l.[0] + 4 * l.[1] + 2 * l.[2] + l.[3];
  NewEmbeddedSignallingFromBits_ColorCode l := 8 * l.[0] + 4 * l.[1] + 2 * l.[2] + l.[3]
}.

#[export] Instance systematic_pdu_laws : PduLaws.
Proof.
  split.
  - intros b Hb. apply (small_cases 256) in Hb as (k & Hk & ->).
    assert (H : forallb (fun k => NewSlotTypeFromBits_ColorCode (golayEncode208 (Z.of_nat k)) =?
      Z.shiftr (Z.of_nat k) 4) (seq 0 256) = true) by (vm_compute; reflexivity).
    by apply Z.eqb_eq, (forallb_seq _ _ k H).
  - intros v Hv. apply (small_cases 128) in Hv as (k & Hk & ->). rewrite Nat2Z.id.
    assert (H : forallb (fun k => NewEmbeddedSignallingFromBits_ColorCode (word_bits (qr1676Table.[k])) =?
      Z.shiftr (Z.of_nat k) 3) (seq 0 128) = true) by (vm_compute; reflexivity).
    by apply Z.eqb_eq, (forallb_seq _ _ k H).
Qed.

Definition frame_a : list Z := Z.of_nat <$> seq 11 9.
Definition frame_b : list Z := Z.of_nat <$> seq 111 9.
Definition frame_c : list Z := Z.of_nat <$> seq 211 9.

Lemma voice_frames_roundtrip_witness :
  ExtractVoiceFramesFromBurst (AssembleVoiceBurst frame_a frame_b frame_c 3 3120001 91 7) =
  Done (frame_a, frame_b, frame_c).
Proof. apply voice_frames_roundtrip; by_eval. Defined.

Lemma superframe_sync_witness :
  BurstSyncPattern (AssembleVoiceBurst frame_a frame_b frame_c 2 3120001 91 7) =
  EmbeddedSignallingPattern.
Proof. apply (superframe_sync frame_a frame_b frame_c 2 3120001 91 7); by_eval. Defined.

Lemma burst_color_code_witness :
  BurstEmbeddedColorCode (AssembleVoiceBurst frame_a frame_b frame_c 4 3120001 91 7) = (7, true) /\
  BurstSlotTypeColorCode (BuildLCDataBurst sample_lc 1 7) = (7, true).
Proof. apply (burst_color_code frame_a frame_b frame_c 4 3120001 91 7 sample_lc 1); by_eval. Defined.

Lemma emb_code_distance_witness :
  Z.shiftr (qr1676Table.[Z.to_nat 5]) 9 = 5 /\
  6 <= weight (word_bits (Z.lxor (qr1676Table.[Z.to_nat 5]) (qr1676Table.[Z.to_nat 9]))).
Proof. apply (emb_code_distance 5 9); by_eval. Defined.

Definition ambe_a : list Z := (fun i => Z.of_nat (i mod 2)) <$> seq 0 49.

Lemma ambe_pack_roundtrip_witness :
  UnpackAMBEVoiceFrames (PackAMBEVoiceFrames [ambe_a; ambe_a; ambe_a]) = [ambe_a; ambe_a; ambe_a] /\
  bit_at (PackAMBEVoiceFrames (UnpackAMBEVoiceFrames (replicate 19 255))) 49 = 0.
Proof. apply (ambe_pack_roundtrip ambe_a ambe_a ambe_a (replicate 19 255) 49); by_eval. Defined.
