(* ===== verification/Rewrite.v ===== *)
(** * Rewrite rules (internal/mmdvm/rewrite/rewrite.go, and
    buildRewriteRules of internal/mmdvm/client.go)

    Go's [Rule] interface is the class [Rule]: a type of rules with its
    [Process].  A [[]Rule] holds interface values ([rule]).  [Process] updates
    the packet in place, so it returns the packet with its result.  The rule
    names are only used in logs and are not modelled. *)

From S2P Require Import Prelude Packet.

Inductive Result := Unmatched | Matched.

#[export] Instance Result_eq_dec : EqDecision Result.
Proof. solve_decision. Defined.

Class Rule (R : Type) := { Process : R -> Packet -> Packet * Result }.

(** An interface value: a rule of some type that implements [Rule]. *)
Record rule := mkRule { rule_type : Type; rule_impl :: Rule rule_type; rule_value : rule_type }.
Arguments mkRule {rule_type rule_impl} rule_value.

Definition process (r : rule) (pkt : Packet) : Packet * Result := Process (rule_value r) pkt.

Fixpoint Apply (rules : list rule) (pkt : Packet) : Packet * bool :=
  match rules with
  | [] => (pkt, false)
  | r :: rules =>
      let '(pkt, res) := process r pkt in
      match res with
      | Matched => (pkt, true)
      | Unmatched => Apply rules pkt
      end
  end.

(** ** Helpers *)

Definition pktSlot (pkt : Packet) : Z := if Slot pkt then 2 else 1.

Definition with_slot (pkt : Packet) (s : bool) : Packet :=
  mkPacket (Signature pkt) (Seq pkt) (Src pkt) (Dst pkt) (Repeater pkt) s (GroupCall pkt)
    (FrameType pkt) (DTypeOrVSeq pkt) (StreamID pkt) (DMRData pkt).
Definition with_dst (pkt : Packet) (d : Z) : Packet :=
  mkPacket (Signature pkt) (Seq pkt) (Src pkt) d (Repeater pkt) (Slot pkt) (GroupCall pkt)
    (FrameType pkt) (DTypeOrVSeq pkt) (StreamID pkt) (DMRData pkt).
Definition with_src (pkt : Packet) (s : Z) : Packet :=
  mkPacket (Signature pkt) (Seq pkt) s (Dst pkt) (Repeater pkt) (Slot pkt) (GroupCall pkt)
    (FrameType pkt) (DTypeOrVSeq pkt) (StreamID pkt) (DMRData pkt).
Definition with_group (pkt : Packet) (g : bool) : Packet :=
  mkPacket (Signature pkt) (Seq pkt) (Src pkt) (Dst pkt) (Repeater pkt) (Slot pkt) g
    (FrameType pkt) (DTypeOrVSeq pkt) (StreamID pkt) (DMRData pkt).

Definition setPktSlot (pkt : Packet) (slot : Z) : Packet := with_slot pkt (slot =? 2).

(** ** The rules *)

Record TGRewrite := mkTG {
  tg_FromSlot : Z; tg_FromTG : Z; tg_ToSlot : Z; tg_ToTG : Z; tg_Range : Z }.

Definition tg_fromTGEnd (r : TGRewrite) : Z := u64 (tg_FromTG r + tg_Range r - 1).

Definition TGRewrite_Process (r : TGRewrite) (pkt : Packet) : Packet * Result :=
  let slot := pktSlot pkt in
  if negb (GroupCall pkt) || negb (slot =? tg_FromSlot r) || (Dst pkt <? tg_FromTG r)
     || (tg_fromTGEnd r <? Dst pkt)
  then (pkt, Unmatched)
  else
    let pkt := if negb (tg_FromSlot r =? tg_ToSlot r) then setPktSlot pkt (tg_ToSlot r) else pkt in
    let pkt := if negb (tg_FromTG r =? tg_ToTG r)
               then with_dst pkt (u64 (Dst pkt + tg_ToTG r - tg_FromTG r)) else pkt in
    (pkt, Matched).

Record PCRewrite := mkPC {
  pc_FromSlot : Z; pc_FromID : Z; pc_ToSlot : Z; pc_ToID : Z; pc_Range : Z }.

Definition pc_fromIDEnd (r : PCRewrite) : Z := u64 (pc_FromID r + pc_Range r - 1).

Definition PCRewrite_Process (r : PCRewrite) (pkt : Packet) : Packet * Result :=
  let slot := pktSlot pkt in
  if GroupCall pkt || negb (slot =? pc_FromSlot r) || (Dst pkt <? pc_FromID r)
     || (pc_fromIDEnd r <? Dst pkt)
  then (pkt, Unmatched)
  else
    let pkt := if negb (pc_FromSlot r =? pc_ToSlot r) then setPktSlot pkt (pc_ToSlot r) else pkt in
    let pkt := if negb (pc_FromID r =? pc_ToID r)
               then with_dst pkt (u64 (Dst pkt + pc_ToID r - pc_FromID r)) else pkt in
    (pkt, Matched).

Record TypeRewrite := mkType {
  ty_FromSlot : Z; ty_FromTG : Z; ty_ToSlot : Z; ty_ToID : Z; ty_Range : Z }.

Definition ty_fromTGEnd (r : TypeRewrite) : Z := u64 (ty_FromTG r + ty_Range r - 1).

Definition TypeRewrite_Process (r : TypeRewrite) (pkt : Packet) : Packet * Result :=
  let slot := pktSlot pkt in
  if negb (GroupCall pkt) || negb (slot =? ty_FromSlot r) || (Dst pkt <? ty_FromTG r)
     || (ty_fromTGEnd r <? Dst pkt)
  then (pkt, Unmatched)
  else
    let pkt := if negb (ty_FromSlot r =? ty_ToSlot r) then setPktSlot pkt (ty_ToSlot r) else pkt in
    let pkt := if negb (ty_FromTG r =? ty_ToID r)
               then with_dst pkt (u64 (Dst pkt + ty_ToID r - ty_FromTG r)) else pkt in
    (with_group pkt false, Matched).

Record SrcRewrite := mkSrc {
  sr_FromSlot : Z; sr_FromID : Z; sr_ToSlot : Z; sr_ToID : Z; sr_Range : Z }.

Definition sr_fromIDEnd (r : SrcRewrite) : Z := u64 (sr_FromID r + sr_Range r - 1).

Definition SrcRewrite_Process (r : SrcRewrite) (pkt : Packet) : Packet * Result :=
  let slot := pktSlot pkt in
  if negb (slot =? sr_FromSlot r) || (Src pkt <? sr_FromID r) || (sr_fromIDEnd r <? Src pkt)
  then (pkt, Unmatched)
  else
    let pkt := if negb (sr_FromSlot r =? sr_ToSlot r) then setPktSlot pkt (sr_ToSlot r) else pkt in
    (with_src pkt (u64 (sr_ToID r + (Src pkt - sr_FromID r))), Matched).

Record PassAllTG := mkPassTG { ptg_Slot : Z }.
Definition PassAllTG_Process (r : PassAllTG) (pkt : Packet) : Packet * Result :=
  if GroupCall pkt && (pktSlot pkt =? ptg_Slot r) then (pkt, Matched) else (pkt, Unmatched).

Record PassAllPC := mkPassPC { ppc_Slot : Z }.
Definition PassAllPC_Process (r : PassAllPC) (pkt : Packet) : Packet * Result :=
  if negb (GroupCall pkt) && (pktSlot pkt =? ppc_Slot r) then (pkt, Matched) else (pkt, Unmatched).

#[export] Instance TGRewrite_Rule : Rule TGRewrite := {| Process := TGRewrite_Process |}.
#[export] Instance PCRewrite_Rule : Rule PCRewrite := {| Process := PCRewrite_Process |}.
#[export] Instance TypeRewrite_Rule : Rule TypeRewrite := {| Process := TypeRewrite_Process |}.
#[export] Instance SrcRewrite_Rule : Rule SrcRewrite := {| Process := SrcRewrite_Process |}.
#[export] Instance PassAllTG_Rule : Rule PassAllTG := {| Process := PassAllTG_Process |}.
#[export] Instance PassAllPC_Rule : Rule PassAllPC := {| Process := PassAllPC_Process |}.

(** ** The chains of a client *)

(** The rewrite part of config.MMDVM; the four rule configurations have the
    fields [FromSlot], start of the source range, [ToSlot], start of the
    destination range, [Range]. *)
Record RewriteConfig := mkRewriteConfig {
  rc_FromSlot : Z; rc_From : Z; rc_ToSlot : Z; rc_To : Z; rc_Range : Z }.

Record RuleConfigs := mkRuleConfigs {
  TGRewrites : list RewriteConfig;
  PCRewrites : list RewriteConfig;
  TypeRewrites : list RewriteConfig;
  SrcRewrites : list RewriteConfig;
  cfg_PassAllPC : list Z;
  cfg_PassAllTG : list Z
}.

(** The three chains of an MMDVM client. *)
Record Chains := mkChains {
  rfRewrites : list rule;
  netRewrites : list rule;
  passallRewrites : list rule
}.

Definition effective_range (cfg : RewriteConfig) : Z :=
  if rc_Range cfg =? 0 then 1 else rc_Range cfg.

Definition tg_rf (cfg : RewriteConfig) : TGRewrite :=
  mkTG (rc_FromSlot cfg) (rc_From cfg) (rc_ToSlot cfg) (rc_To cfg) (effective_range cfg).
Definition tg_net (cfg : RewriteConfig) : TGRewrite :=
  mkTG (rc_ToSlot cfg) (rc_To cfg) (rc_FromSlot cfg) (rc_From cfg) (effective_range cfg).

Definition add_tg (h : Chains) (cfg : RewriteConfig) : Chains :=
  mkChains (rfRewrites h ++ [mkRule (tg_rf cfg)]) (netRewrites h ++ [mkRule (tg_net cfg)])
    (passallRewrites h).
Definition add_pc (h : Chains) (cfg : RewriteConfig) : Chains :=
  mkChains (rfRewrites h ++ [mkRule (mkPC (rc_FromSlot cfg) (rc_From cfg) (rc_ToSlot cfg)
    (rc_To cfg) (effective_range cfg))]) (netRewrites h) (passallRewrites h).
Definition add_type (h : Chains) (cfg : RewriteConfig) : Chains :=
  mkChains (rfRewrites h ++ [mkRule (mkType (rc_FromSlot cfg) (rc_From cfg) (rc_ToSlot cfg)
    (rc_To cfg) (effective_range cfg))]) (netRewrites h) (passallRewrites h).
Definition add_src (h : Chains) (cfg : RewriteConfig) : Chains :=
  mkChains (rfRewrites h) (netRewrites h ++ [mkRule (mkSrc (rc_FromSlot cfg) (rc_From cfg)
    (rc_ToSlot cfg) (rc_To cfg) (effective_range cfg))]) (passallRewrites h).
Definition add_pass_tg (h : Chains) (slot : Z) : Chains :=
  if slot <? 0 then h
  else mkChains (rfRewrites h) (netRewrites h ++ [mkRule (mkPassTG slot)])
         (passallRewrites h ++ [mkRule (mkPassTG slot)]).
Definition add_pass_pc (h : Chains) (slot : Z) : Chains :=
  if slot <? 0 then h
  else mkChains (rfRewrites h) (netRewrites h ++ [mkRule (mkPassPC slot)])
         (passallRewrites h ++ [mkRule (mkPassPC slot)]).

Definition buildRewriteRules (cfg : RuleConfigs) : Chains :=
  let h := mkChains [] [] [] in
  let h := foldl add_tg h (TGRewrites cfg) in
  let h := foldl add_pc h (PCRewrites cfg) in
  let h := foldl add_type h (TypeRewrites cfg) in
  let h := foldl add_src h (SrcRewrites cfg) in
  let h := foldl add_pass_tg h (cfg_PassAllTG cfg) in
  foldl add_pass_pc h (cfg_PassAllPC cfg).

(** ** Laws of the interface

    What every implementation promises to [Apply]: a rule that does not match
    leaves the packet alone, and no rule touches anything but slot, call type,
    source and destination. *)

Definition keeps (p q : Packet) : Prop :=
  Signature q = Signature p /\ Seq q = Seq p /\ Repeater q = Repeater p /\
  FrameType q = FrameType p /\ DTypeOrVSeq q = DTypeOrVSeq p /\ StreamID q = StreamID p /\
  DMRData q = DMRData p.

Lemma keeps_refl p : keeps p p.
Proof. unfold keeps. tauto. Qed.
#[export] Hint Resolve keeps_refl : bytes.

Class RuleLaws (R : Type) `{Rule R} : Prop := {
  process_unmatched (r : R) p : snd (Process r p) = Unmatched -> fst (Process r p) = p;
  process_keeps (r : R) p : keeps p (fst (Process r p))
}.

Ltac solve_rule_laws P :=
  split; intros r p; change (Process r p) with (P r p); unfold P, setPktSlot;
  repeat match goal with
  | |- context [if ?c then _ else _] => destruct c
  end; cbn; first [ done | intros H; discriminate H | repeat split ].

#[export] Instance TGRewrite_Laws : RuleLaws TGRewrite.
Proof. solve_rule_laws TGRewrite_Process. Qed.
#[export] Instance PCRewrite_Laws : RuleLaws PCRewrite.
Proof. solve_rule_laws PCRewrite_Process. Qed.
#[export] Instance TypeRewrite_Laws : RuleLaws TypeRewrite.
Proof. solve_rule_laws TypeRewrite_Process. Qed.
#[export] Instance SrcRewrite_Laws : RuleLaws SrcRewrite.
Proof. solve_rule_laws SrcRewrite_Process. Qed.
#[export] Instance PassAllTG_Laws : RuleLaws PassAllTG.
Proof. solve_rule_laws PassAllTG_Process. Qed.
#[export] Instance PassAllPC_Laws : RuleLaws PassAllPC.
Proof. solve_rule_laws PassAllPC_Process. Qed.

(** The same for an interface value. *)
Definition lawful (r : rule) : Prop := @RuleLaws (rule_type r) (rule_impl r).

Lemma lawful_mkRule {R} `{RuleLaws R} (r : R) : lawful (mkRule r).
Proof. unfold lawful. cbn. apply _. Qed.

Definition chains_lawful (h : Chains) : Prop :=
  Forall lawful (rfRewrites h) /\ Forall lawful (netRewrites h) /\ Forall lawful (passallRewrites h).

Ltac solve_chains :=
  intros h x _ (H1 & H2 & H3); unfold chains_lawful; cbn;
  split_ands; rewrite ?Forall_app; try split; auto;
  (apply Forall_cons_2; [apply lawful_mkRule | apply Forall_nil_2]).

Lemma buildRewriteRules_lawful cfg : chains_lawful (buildRewriteRules cfg).
Proof.
  unfold buildRewriteRules.
  apply (foldl_inv chains_lawful);
    [| intros h x Hin HI; unfold add_pass_pc; destruct (x <? 0); [done | revert h x Hin HI; solve_chains]].
  apply (foldl_inv chains_lawful);
    [| intros h x Hin HI; unfold add_pass_tg; destruct (x <? 0); [done | revert h x Hin HI; solve_chains]].
  apply (foldl_inv chains_lawful); [| solve_chains].
  apply (foldl_inv chains_lawful); [| solve_chains].
  apply (foldl_inv chains_lawful); [| solve_chains].
  apply (foldl_inv chains_lawful); [| solve_chains].
  unfold chains_lawful. cbn. auto using Forall_nil_2.
Qed.

(** ** First match *)

Definition matches (p : Packet) (r : rule) : bool := bool_decide (snd (process r p) = Matched).

Lemma apply_spec rules p :
  Forall lawful rules ->
  Apply rules p =
  match List.find (matches p) rules with
  | Some r => (fst (process r p), true)
  | None => (p, false)
  end.
Proof.
  intros Hl. induction rules as [| r rules IH]; [done |].
  apply Forall_cons in Hl as [Hr Hl]. cbn [Apply List.find]. unfold matches at 1.
  destruct (process r p) as [q res] eqn:E. cbn [snd]. destruct res.
  - rewrite bool_decide_false by done. rewrite <- IH by done. f_equal.
    assert (fst (process r p) = p) as <-; [| by rewrite E].
    apply (process_unmatched (RuleLaws := Hr)). fold (process r p). by rewrite E.
  - rewrite bool_decide_true by done. by rewrite E.
Qed.

(** ** The TG rules of the two directions *)

(** The packets a TG rule accepts, without the wrap-around of [fromTGEnd]. *)
Definition in_range (slot start range : Z) (p : Packet) : Prop :=
  GroupCall p = true /\ pktSlot p = slot /\ start <= Dst p < start + range.

(** A configuration whose ranges do not overflow, for slots 1 and 2. *)
Record config_ok (cfg : RewriteConfig) : Prop := {
  ok_from_slot : rc_FromSlot cfg = 1 \/ rc_FromSlot cfg = 2;
  ok_to_slot : rc_ToSlot cfg = 1 \/ rc_ToSlot cfg = 2;
  ok_from : 0 <= rc_From cfg;
  ok_to : 0 <= rc_To cfg;
  ok_range : 0 <= rc_Range cfg;
  ok_from_end : rc_From cfg + effective_range cfg < 2 ^ 64;
  ok_to_end : rc_To cfg + effective_range cfg < 2 ^ 64
}.

Lemma effective_range_pos cfg : 0 <= rc_Range cfg -> 1 <= effective_range cfg.
Proof. unfold effective_range. destruct (Z.eqb_spec (rc_Range cfg) 0); lia. Qed.

Lemma tg_process_spec (r : TGRewrite) p :
  0 <= tg_FromTG r -> 1 <= tg_Range r -> tg_FromTG r + tg_Range r < 2 ^ 64 ->
  0 <= tg_ToTG r -> tg_ToTG r + tg_Range r < 2 ^ 64 ->
  tg_FromSlot r = 1 \/ tg_FromSlot r = 2 -> tg_ToSlot r = 1 \/ tg_ToSlot r = 2 ->
  TGRewrite_Process r p =
  if bool_decide (GroupCall p = true /\ pktSlot p = tg_FromSlot r /\
                  tg_FromTG r <= Dst p < tg_FromTG r + tg_Range r)
  then (with_dst (setPktSlot p (tg_ToSlot r)) (Dst p - tg_FromTG r + tg_ToTG r), Matched)
  else (p, Unmatched).
Proof.
  intros Hf Hr Hfe Ht Hte Hfs Hts. unfold TGRewrite_Process, tg_fromTGEnd.
  rewrite u64_id by (unfold is_u64; lia).
  destruct p as [sg sq sr ds rp sl gc ft dt st dd]. unfold pktSlot, setPktSlot, with_dst, with_slot.
  cbn [GroupCall Slot Dst Signature Seq Src Repeater FrameType DTypeOrVSeq StreamID DMRData].
  case_bool_decide as H.
  - destruct H as (-> & Hs & Hd). rewrite Hs, Z.eqb_refl.
    destruct (Z.ltb_spec ds (tg_FromTG r)); [lia |].
    destruct (Z.ltb_spec (tg_FromTG r + tg_Range r - 1) ds); [lia |]. cbn [negb orb].
    f_equal. destruct (Z.eqb_spec (tg_FromSlot r) (tg_ToSlot r)) as [Es | Es];
      destruct (Z.eqb_spec (tg_FromTG r) (tg_ToTG r)) as [Et | Et];
      cbn [negb GroupCall Slot Dst Signature Seq Src Repeater FrameType DTypeOrVSeq StreamID DMRData];
      rewrite ?u64_id by (unfold is_u64; lia); f_equal; try lia;
      rewrite <- Es, <- Hs; by destruct sl.
  - destruct gc; cbn [negb orb]; [| done].
    destruct (Z.eqb_spec (if sl then 2 else 1) (tg_FromSlot r)) as [Es | Es]; cbn [negb orb]; [| done].
    destruct (Z.ltb_spec ds (tg_FromTG r)); [done |].
    destruct (Z.ltb_spec (tg_FromTG r + tg_Range r - 1) ds); [done |].
    exfalso. apply H. split_ands; try done; lia.
Qed.

Lemma with_fields_id p s d :
  s = Slot p -> d = Dst p -> with_dst (with_slot p s) d = p.
Proof. intros -> ->. by destruct p. Qed.

Lemma slot_number s : (s = 1 \/ s = 2) -> (if (s =? 2) then 2 else 1) = s.
Proof. by intros [-> | ->]. Qed.

Lemma tg_inverse cfg p :
  config_ok cfg -> in_range (rc_FromSlot cfg) (rc_From cfg) (effective_range cfg) p ->
  let q := fst (TGRewrite_Process (tg_rf cfg) p) in
  in_range (rc_ToSlot cfg) (rc_To cfg) (effective_range cfg) q /\
  TGRewrite_Process (tg_net cfg) q = (p, Matched).
Proof.
  intros [Hfs Hts Hf Ht Hr Hfe Hte] (Hg & Hs & Hd). pose proof (effective_range_pos cfg Hr) as He.
  rewrite (tg_process_spec (tg_rf cfg)) by (cbn; done || lia).
  rewrite bool_decide_true by (cbn; done). cbn [fst tg_rf tg_ToSlot tg_FromTG tg_ToTG].
  set (q := with_dst _ _).
  assert (Hq : in_range (rc_ToSlot cfg) (rc_To cfg) (effective_range cfg) q).
  { unfold in_range, q, pktSlot, setPktSlot, with_slot, with_dst. cbn.
    split_ands; [done | by apply slot_number | lia | lia]. }
  split; [done |]. rewrite (tg_process_spec (tg_net cfg)) by (cbn; done || lia).
  rewrite bool_decide_true by (cbn; apply Hq). f_equal.
  cbn [tg_net tg_ToSlot tg_FromTG tg_ToTG]. unfold q, setPktSlot, with_dst, with_slot. cbn.
  destruct p as [sg sq sr ds rp sl gc ft dt st dd]. cbn in *. f_equal; [lia |].
  rewrite <- Hs. unfold pktSlot. cbn. by destruct sl.
Qed.

(** ** The chains, rule by rule *)

Definition pc_rule (cfg : RewriteConfig) : rule :=
  mkRule (mkPC (rc_FromSlot cfg) (rc_From cfg) (rc_ToSlot cfg) (rc_To cfg) (effective_range cfg)).
Definition type_rule (cfg : RewriteConfig) : rule :=
  mkRule (mkType (rc_FromSlot cfg) (rc_From cfg) (rc_ToSlot cfg) (rc_To cfg) (effective_range cfg)).
Definition src_rule (cfg : RewriteConfig) : rule :=
  mkRule (mkSrc (rc_FromSlot cfg) (rc_From cfg) (rc_ToSlot cfg) (rc_To cfg) (effective_range cfg)).
Definition slots_ok (l : list Z) : list Z := filter (fun s => 0 <= s) l.

(** A loop that appends to one chain per configuration entry. *)
Lemma chain_append {A} (f : Chains -> A -> Chains) (proj : Chains -> list rule) (g : A -> list rule) :
  (forall h a, proj (f h a) = proj h ++ g a) ->
  forall l h, proj (foldl f h l) = proj h ++ mjoin (g <$> l).
Proof.
  intros Hf l. induction l as [| a l IH]; intros h; cbn; [by rewrite app_nil_r |].
  rewrite IH, Hf, <- app_assoc. done.
Qed.

Lemma mjoin_singletons {A} (g : A -> rule) l : mjoin ((fun a => [g a]) <$> l) = g <$> l.
Proof. induction l as [| a l IH]; cbn; [done |]. f_equal. apply IH. Qed.

Lemma mjoin_nils {A} (l : list A) : mjoin ((fun _ => @nil rule) <$> l) = [].
Proof. induction l as [| a l IH]; cbn; [done | apply IH]. Qed.

Lemma mjoin_slots (g : Z -> rule) l :
  mjoin ((fun s => if s <? 0 then [] else [g s]) <$> l) = g <$> slots_ok l.
Proof.
  unfold slots_ok. induction l as [| s l IH]; [done |]. rewrite filter_cons, fmap_cons.
  change (mjoin (?x :: ?y)) with (x ++ mjoin y). rewrite IH.
  destruct (Z.ltb_spec s 0), (decide (0 <= s)); cbn; done || lia.
Qed.

Lemma build_rf cfg :
  rfRewrites (buildRewriteRules cfg) =
  ((fun c => mkRule (tg_rf c)) <$> TGRewrites cfg) ++ (pc_rule <$> PCRewrites cfg) ++
  (type_rule <$> TypeRewrites cfg).
Proof.
  unfold buildRewriteRules.
  rewrite (chain_append add_pass_pc rfRewrites (fun _ => []))
    by (intros h s; unfold add_pass_pc; destruct (s <? 0); cbn; by rewrite app_nil_r).
  rewrite (chain_append add_pass_tg rfRewrites (fun _ => []))
    by (intros h s; unfold add_pass_tg; destruct (s <? 0); cbn; by rewrite app_nil_r).
  rewrite (chain_append add_src rfRewrites (fun _ => [])) by (intros; cbn; by rewrite app_nil_r).
  rewrite (chain_append add_type rfRewrites (fun c => [type_rule c])) by done.
  rewrite (chain_append add_pc rfRewrites (fun c => [pc_rule c])) by done.
  rewrite (chain_append add_tg rfRewrites (fun c => [mkRule (tg_rf c)])) by done.
  rewrite !mjoin_nils, !mjoin_singletons. cbn. by rewrite !app_nil_r, <- app_assoc.
Qed.

Lemma build_net cfg :
  netRewrites (buildRewriteRules cfg) =
  ((fun c => mkRule (tg_net c)) <$> TGRewrites cfg) ++ (src_rule <$> SrcRewrites cfg) ++
  ((fun s => mkRule (mkPassTG s)) <$> slots_ok (cfg_PassAllTG cfg)) ++
  ((fun s => mkRule (mkPassPC s)) <$> slots_ok (cfg_PassAllPC cfg)).
Proof.
  unfold buildRewriteRules.
  rewrite (chain_append add_pass_pc netRewrites (fun s => if s <? 0 then [] else [mkRule (mkPassPC s)]))
    by (intros h s; unfold add_pass_pc; destruct (s <? 0); cbn; by rewrite ?app_nil_r).
  rewrite (chain_append add_pass_tg netRewrites (fun s => if s <? 0 then [] else [mkRule (mkPassTG s)]))
    by (intros h s; unfold add_pass_tg; destruct (s <? 0); cbn; by rewrite ?app_nil_r).
  rewrite (chain_append add_src netRewrites (fun c => [src_rule c])) by done.
  rewrite (chain_append add_type netRewrites (fun _ => [])) by (intros; cbn; by rewrite app_nil_r).
  rewrite (chain_append add_pc netRewrites (fun _ => [])) by (intros; cbn; by rewrite app_nil_r).
  rewrite (chain_append add_tg netRewrites (fun c => [mkRule (tg_net c)])) by done.
  rewrite !mjoin_nils, !mjoin_singletons, !mjoin_slots. cbn. by rewrite !app_nil_r, <- !app_assoc.
Qed.

(** ** Going out and coming back *)

Lemma matches_tg_rf p c :
  config_ok c ->
  matches p (mkRule (tg_rf c)) = true <-> in_range (rc_FromSlot c) (rc_From c) (effective_range c) p.
Proof.
  intros [Hfs Hts Hf Ht Hr Hfe Hte]. pose proof (effective_range_pos c Hr) as He.
  unfold matches. rewrite bool_decide_eq_true. unfold process. cbn [rule_value].
  change (Process (tg_rf c) p) with (TGRewrite_Process (tg_rf c) p).
  rewrite tg_process_spec by (cbn; done || lia). unfold in_range.
  case_bool_decide as H; cbn in *; [tauto |]. split; [done | tauto].
Qed.

Lemma matches_tg_net p c :
  config_ok c ->
  matches p (mkRule (tg_net c)) = true <-> in_range (rc_ToSlot c) (rc_To c) (effective_range c) p.
Proof.
  intros [Hfs Hts Hf Ht Hr Hfe Hte]. pose proof (effective_range_pos c Hr) as He.
  unfold matches. rewrite bool_decide_eq_true. unfold process. cbn [rule_value].
  change (Process (tg_net c) p) with (TGRewrite_Process (tg_net c) p).
  rewrite tg_process_spec by (cbn; done || lia). unfold in_range.
  case_bool_decide as H; cbn in *; [tauto |]. split; [done | tauto].
Qed.

Lemma find_fmap_app {A} (f : A -> rule) (P : rule -> bool) l rest :
  match List.find P ((f <$> l) ++ rest) with
  | Some r => (exists a, a ∈ l /\ r = f a /\ P (f a) = true) \/
              (r ∈ rest /\ P r = true /\ forall a, a ∈ l -> P (f a) = false)
  | None => forall a, a ∈ l -> P (f a) = false
  end.
Proof.
  induction l as [| a l IH]; cbn.
  - destruct (List.find P rest) as [r |] eqn:E; [| set_solver].
    right. apply List.find_some in E as [Hin HP]. split; [by apply list_elem_of_In | set_solver].
  - destruct (P (f a)) eqn:Ea.
    + left. exists a. split; [by left | done].
    + change (List.find P ?x) with (List.find P ((f <$> l) ++ rest)).
      destruct (List.find P ((f <$> l) ++ rest)) as [r |].
      * destruct IH as [(b & Hb & -> & HP) | (Hin & HP & Hno)].
        -- left. exists b. split; [by right | done].
        -- right. split_ands; [done | done |]. intros b Hb. apply elem_of_cons in Hb as [-> | Hb]; auto.
      * intros b Hb. apply elem_of_cons in Hb as [-> | Hb]; auto.
Qed.

(** No two TG entries share a network talkgroup. *)
Definition net_ranges_disjoint (l : list RewriteConfig) : Prop :=
  forall c d q, c ∈ l -> d ∈ l ->
    in_range (rc_ToSlot c) (rc_To c) (effective_range c) q ->
    in_range (rc_ToSlot d) (rc_To d) (effective_range d) q -> c = d.

Lemma pc_never_group p (l : list RewriteConfig) r :
  GroupCall p = true -> r ∈ pc_rule <$> l -> matches p r = false.
Proof.
  intros Hg Hr. apply list_elem_of_fmap in Hr as (c & -> & _). unfold matches.
  apply bool_decide_eq_false. unfold process, pc_rule. cbn [rule_value].
  change (Process ?x p) with (PCRewrite_Process x p). unfold PCRewrite_Process. by rewrite Hg.
Qed.

(** ** Properties *)

(** on the chains a client builds, [Apply] is decided by the first rule that
    matches: the packet becomes that rule's rewrite, later rules are not
    consulted, and with no match the packet is unchanged; in every case the
    payload, the stream and all fields but slot, call type, source and
    destination stay as they were. *)
Theorem apply_first_match cfg rules p :
  rules = rfRewrites (buildRewriteRules cfg) \/ rules = netRewrites (buildRewriteRules cfg) \/
  rules = passallRewrites (buildRewriteRules cfg) ->
  Apply rules p =
  match List.find (matches p) rules with
  | Some r => (fst (process r p), true)
  | None => (p, false)
  end /\ keeps p (fst (Apply rules p)).
Proof.
  intros Hin. assert (Hl : Forall lawful rules)
    by (destruct (buildRewriteRules_lawful cfg) as (H1 & H2 & H3); destruct Hin as [-> | [-> | ->]]; done).
  rewrite apply_spec by done. split; [done |].
  destruct (List.find (matches p) rules) as [r |] eqn:E; cbn [fst]; [| auto with bytes].
  apply List.find_some in E as [Hr _]. rewrite Forall_forall in Hl.
  apply (process_keeps (RuleLaws := Hl r (proj2 (list_elem_of_In _ _) Hr))).
Qed.

(** talkgroup mapping is reversible: when no two TG entries of a network
    share a network-side talkgroup and no type rewrite takes group calls, a
    group call rewritten on its way out is rewritten by the inbound chain back
    to exactly the packet it was. *)
Theorem tg_rewrite_roundtrip cfg p q :
  Forall config_ok (TGRewrites cfg) -> TypeRewrites cfg = [] ->
  net_ranges_disjoint (TGRewrites cfg) -> GroupCall p = true ->
  Apply (rfRewrites (buildRewriteRules cfg)) p = (q, true) ->
  Apply (netRewrites (buildRewriteRules cfg)) q = (p, true).
Proof.
  intros Hok Hty Hdis Hg Hrf. rewrite Forall_forall in Hok.
  destruct (buildRewriteRules_lawful cfg) as (Hl1 & Hl2 & _).
  rewrite apply_spec in Hrf by done. rewrite apply_spec by done. clear Hl1 Hl2.
  rewrite build_rf, Hty in Hrf. rewrite build_net. cbn [fmap list_fmap] in Hrf. rewrite app_nil_r in Hrf.
  pose proof (find_fmap_app (fun c => mkRule (tg_rf c)) (matches p) (TGRewrites cfg)
    (pc_rule <$> PCRewrites cfg)) as Hfind.
  destruct (List.find _ _) as [r |]; [| done]. injection Hrf as Hq.
  destruct Hfind as [(c & Hc & -> & Hm) | (Hr & Hm & _)];
    [| by rewrite (pc_never_group p _ r Hg Hr) in Hm].
  apply matches_tg_rf in Hm; [| auto].
  destruct (tg_inverse c p (Hok c Hc) Hm) as [Hin Hback].
  change (fst (TGRewrite_Process (tg_rf c) p) = q) in Hq. rewrite Hq in Hin, Hback.
  match goal with |- context [(_ <$> TGRewrites cfg) ++ ?rest] =>
    pose proof (find_fmap_app (fun c => mkRule (tg_net c)) (matches q) (TGRewrites cfg) rest) as Hfind end.
  destruct (List.find _ _) as [r |].
  - destruct Hfind as [(d & Hd & -> & Hm') | (_ & _ & Hno)].
    + apply matches_tg_net in Hm'; [| auto]. assert (c = d) as <- by (by apply (Hdis c d q)).
      unfold process. cbn [rule_value].
      change (Process (tg_net c) q) with (TGRewrite_Process (tg_net c) q). by rewrite Hback.
    + specialize (Hno c Hc). by rewrite (proj2 (matches_tg_net q c (Hok c Hc)) Hin) in Hno.
  - specialize (Hfind c Hc). by rewrite (proj2 (matches_tg_net q c (Hok c Hc)) Hin) in Hfind.
Qed.

(** ** Witnesses *)

Definition sample_rules : RuleConfigs :=
  mkRuleConfigs [mkRewriteConfig 1 9 2 4009 0; mkRewriteConfig 2 9 2 9 10] [mkRewriteConfig 1 4000 1 4000 1001]
    [] [mkRewriteConfig 2 1 2 1000001 99] [1] [2].

Lemma apply_first_match_witness :
  keeps sample (fst (Apply (netRewrites (buildRewriteRules sample_rules)) sample)).
Proof. apply (apply_first_match sample_rules). tauto. Defined.

Lemma tg_rewrite_roundtrip_witness :
  Apply (netRewrites (buildRewriteRules sample_rules)) (with_dst sample 9) = (with_dst sample 9, true).
Proof.
  apply (tg_rewrite_roundtrip sample_rules (with_dst sample 9) (with_dst sample 9)).
  - repeat apply Forall_cons_2; [| | apply Forall_nil_2]; split; cbn; lia.
  - reflexivity.
  - intros c d q Hc Hd (_ & S1 & D1) (_ & S2 & D2). unfold sample_rules in *. cbn in Hc, Hd.
    rewrite !elem_of_cons, elem_of_nil in Hc, Hd.
    destruct Hc as [-> | [-> | []]], Hd as [-> | [-> | []]]; cbn in *; done || lia.
  - reflexivity.
  - vm_compute. reflexivity.
Defined.
