(* ===== verification/Timeslot.v ===== *)
(** * Timeslot arbitration (internal/timeslot/manager.go)

    A [Manager] owns two timeslots; the first stream to claim a slot is
    delivered at once, later ones are buffered and delivered in order when the
    slot is released.  Packets are opaque to the manager ([any]), so they are a
    parameter.  The clock is an argument; metrics and logs are left out. *)

From S2P Require Import Prelude.

Definition DefaultTimeout : Z := 3 * second.

Section timeslot.
Context {P : Type}.

Record activeCall := mkActive {
  ac_streamID : Z;
  ac_network : string;
  ac_lastSeen : time
}.

Record pendingStream := mkPending {
  ps_streamID : Z;
  ps_network : string;
  ps_packets : list P
}.

Record slotState := mkSlot {
  active : option activeCall;
  pending : list pendingStream
}.

Definition empty_slot : slotState := mkSlot None [].

(** [slots[i]] is nil until the slot is first used. *)
Record Manager := mkManager {
  slots : list (option slotState);
  timeout : Z
}.

Definition NewManager : Manager := mkManager [None; None] DefaultTimeout.

Definition SetTimeout (m : Manager) (t : Z) : Manager :=
  if t <=? 0 then m else mkManager (slots m) t.

Definition slotIndex (slot : bool) : nat := if slot then 1%nat else 0%nat.

Definition getOrCreateSlot (m : Manager) (idx : nat) : slotState :=
  match slots m !! idx with
  | Some (Some ss) => ss
  | _ => empty_slot
  end.

Definition put_slot (m : Manager) (idx : nat) (ss : slotState) : Manager :=
  mkManager (<[idx := Some ss]> (slots m)) (timeout m).

Definition findPending (ss : slotState) (streamID : Z) : option pendingStream :=
  List.find (fun p => ps_streamID p =? streamID) (pending ss).

(** [ps.packets = append(ps.packets, packet)] through the pointer that
    [findPending] returned: the first entry with the stream. *)
Fixpoint append_pending (l : list pendingStream) (streamID : Z) (packet : P) : list pendingStream :=
  match l with
  | [] => []
  | p :: l =>
      if ps_streamID p =? streamID
      then mkPending (ps_streamID p) (ps_network p) (ps_packets p ++ [packet]) :: l
      else p :: append_pending l streamID packet
  end.

(** The part of [Submit] that works on the slot. *)
Definition submit_slot (timeout : Z) (ss : slotState) (streamID : Z) (network : string) (packet : P)
    (now : time) : slotState * bool :=
  match active ss with
  | None => (mkSlot (Some (mkActive streamID network now)) (pending ss), true)
  | Some ac =>
      if ac_streamID ac =? streamID then
        (mkSlot (Some (mkActive (ac_streamID ac) (ac_network ac) now)) (pending ss), true)
      else if timeout <? time_sub now (ac_lastSeen ac) then
        (mkSlot (Some (mkActive streamID network now)) [], true)
      else
        let pend := match findPending ss streamID with
                    | Some _ => pending ss
                    | None => pending ss ++ [mkPending streamID network []]
                    end in
        (mkSlot (active ss) (append_pending pend streamID packet), false)
  end.

Definition Submit (m : Manager) (slot : bool) (streamID : Z) (network : string) (packet : P)
    (now : time) : Manager * bool :=
  let idx := slotIndex slot in
  let ss := getOrCreateSlot m idx in
  let '(ss, ok) := submit_slot (timeout m) ss streamID network packet now in
  (put_slot m idx ss, ok).

(** The part of [Release] that works on the slot: the new state, the stream
    that became active and its buffered packets. *)
Definition release_slot (ss : slotState) (streamID : Z) (now : time) : slotState * option (Z * list P) :=
  match active ss with
  | None => (ss, None)
  | Some ac =>
      if negb (ac_streamID ac =? streamID) then (ss, None)
      else
        match pending ss with
        | [] => (mkSlot None [], None)
        | next :: rest =>
            (mkSlot (Some (mkActive (ps_streamID next) (ps_network next) now)) rest,
             Some (ps_streamID next, ps_packets next))
        end
  end.

(** [Release] returns nil or the packets to deliver. *)
Definition Release (m : Manager) (slot : bool) (streamID : Z) (now : time) : Manager * list P :=
  let idx := slotIndex slot in
  match slots m !! idx with
  | Some (Some ss) =>
      let '(ss, out) := release_slot ss streamID now in
      (put_slot m idx ss, match out with Some (_, ps) => ps | None => [] end)
  | _ => (m, [])
  end.

(** ** The slot invariant *)

Definition pending_ids (ss : slotState) : list Z := ps_streamID <$> pending ss.

Record slot_inv (ss : slotState) : Prop := {
  inv_nodup : NoDup (pending_ids ss);
  inv_free : active ss = None -> pending ss = [];
  inv_active ac : active ss = Some ac -> ac_streamID ac ∉ pending_ids ss
}.

Definition manager_inv (m : Manager) : Prop :=
  length (slots m) = 2%nat /\ forall idx ss, slots m !! idx = Some (Some ss) -> slot_inv ss.

Lemma findPending_None ss sid : findPending ss sid = None <-> sid ∉ pending_ids ss.
Proof.
  unfold findPending, pending_ids. induction (pending ss) as [| p l IH]; cbn.
  - split; [intros _; apply not_elem_of_nil | done].
  - rewrite not_elem_of_cons. destruct (Z.eqb_spec (ps_streamID p) sid).
    + split; [done | intros [H _]; congruence].
    + rewrite IH. split; [intros H; split; [congruence | done] | tauto].
Qed.

Lemma append_pending_ids l sid pk : ps_streamID <$> append_pending l sid pk = ps_streamID <$> l.
Proof.
  induction l as [| p l IH]; [done |]. cbn. destruct (ps_streamID p =? sid); cbn; [done |].
  f_equal. apply IH.
Qed.

Lemma empty_slot_inv : slot_inv empty_slot.
Proof. split; cbn; [apply NoDup_nil_2 | done | done]. Qed.

(** The pending list after making sure the stream has an entry. *)
Definition with_entry (ss : slotState) (sid : Z) (net : string) : list pendingStream :=
  match findPending ss sid with
  | Some _ => pending ss
  | None => pending ss ++ [mkPending sid net []]
  end.

Lemma with_entry_ids ss sid net :
  ps_streamID <$> with_entry ss sid net =
  if decide (sid ∈ pending_ids ss) then pending_ids ss else pending_ids ss ++ [sid].
Proof.
  unfold with_entry. destruct (findPending ss sid) as [p |] eqn:E.
  - rewrite decide_True; [done |]. destruct (decide (sid ∈ pending_ids ss)) as [| H]; [done |].
    apply (proj2 (findPending_None _ _)) in H. rewrite E in H. done.
  - apply (proj1 (findPending_None _ _)) in E. rewrite decide_False by done. by rewrite fmap_app.
Qed.

Lemma submit_inv t ss sid net pk now :
  slot_inv ss -> slot_inv (fst (submit_slot t ss sid net pk now)).
Proof.
  intros [Hnd Hfree Hact]. unfold submit_slot. destruct (active ss) as [ac |] eqn:Ea.
  - destruct (Z.eqb_spec (ac_streamID ac) sid) as [E | E].
    { split; cbn; [done | done |]. intros ac' [= <-]. exact (Hact ac eq_refl). }
    destruct (t <? time_sub now (ac_lastSeen ac)).
    { split; cbn; [apply NoDup_nil_2 | done |]. intros ac' _. apply not_elem_of_nil. }
    fold (with_entry ss sid net).
    split; unfold pending_ids; cbn [fst pending active].
    + rewrite append_pending_ids, with_entry_ids. case_decide; [done |].
      apply NoDup_app. split; [done |]. split; [| apply NoDup_singleton].
      intros x Hx Hin. apply list_elem_of_singleton in Hin as ->. done.
    + done.
    + intros ac' [= <-]. rewrite append_pending_ids, with_entry_ids. specialize (Hact ac eq_refl).
      case_decide; [done |]. rewrite not_elem_of_app, list_elem_of_singleton. tauto.
  - specialize (Hfree eq_refl). split; cbn; unfold pending_ids; cbn; rewrite Hfree;
      [apply NoDup_nil_2 | done |]. intros ac' _. apply not_elem_of_nil.
Qed.

Lemma release_inv ss sid now : slot_inv ss -> slot_inv (fst (release_slot ss sid now)).
Proof.
  intros Hinv. destruct Hinv as [Hnd Hfree Hact] eqn:Hi. clear Hi. unfold release_slot.
  destruct (active ss) as [ac |] eqn:Ea; [| done].
  destruct (negb _); [done |]. unfold pending_ids in *. destruct (pending ss) as [| p l] eqn:Ep.
  - apply empty_slot_inv.
  - cbn in Hnd. apply NoDup_cons in Hnd as [Hp Hnd]. split; cbn; [done | done |].
    by intros ac' [= <-].
Qed.

(** ** Traces on one slot *)

(** What can happen to a slot: a packet arrives, or a terminator releases it. *)
Inductive event :=
| EvSubmit (streamID : Z) (network : string) (packet : P) (now : time)
| EvRelease (streamID : Z) (now : time).

(** One event: the new state and the packets handed to the caller, each with
    the stream it belongs to. *)
Definition step (t : Z) (ss : slotState) (e : event) : slotState * list (Z * P) :=
  match e with
  | EvSubmit sid net pk now =>
      let '(ss, ok) := submit_slot t ss sid net pk now in
      (ss, if ok then [(sid, pk)] else [])
  | EvRelease sid now =>
      let '(ss, out) := release_slot ss sid now in
      (ss, match out with Some (next, ps) => pair next <$> ps | None => [] end)
  end.

Fixpoint run (t : Z) (ss : slotState) (es : list event) : slotState * list (Z * P) :=
  match es with
  | [] => (ss, [])
  | e :: es =>
      let '(ss, out) := step t ss e in
      let '(ss, outs) := run t ss es in
      (ss, out ++ outs)
  end.

(** The packets of one stream in a delivery log, in a trace and in the buffer. *)
Definition delivered (sid : Z) (log : list (Z * P)) : list P :=
  snd <$> filter (fun x => fst x = sid) log.

Definition submitted (sid : Z) (es : list event) : list P :=
  mjoin ((fun e => match e with
    | EvSubmit s _ pk _ => if decide (s = sid) then [pk] else []
    | EvRelease _ _ => []
    end) <$> es).

Definition buffered (sid : Z) (ss : slotState) : list P :=
  mjoin ((fun p => if decide (ps_streamID p = sid) then ps_packets p else []) <$> pending ss).

(** No submission of the trace finds a call that timed out. *)
Fixpoint no_timeout (t : Z) (ss : slotState) (es : list event) : Prop :=
  match es with
  | [] => True
  | e :: es =>
      match e with
      | EvSubmit sid _ _ now =>
          forall ac, active ss = Some ac -> ac_streamID ac <> sid ->
            time_sub now (ac_lastSeen ac) <= t
      | EvRelease _ _ => True
      end /\ no_timeout t (fst (step t ss e)) es
  end.

(** ** Buffered packets *)

Definition entry_packets (sid : Z) (l : list pendingStream) : list P :=
  mjoin ((fun p => if decide (ps_streamID p = sid) then ps_packets p else []) <$> l).

Lemma entry_packets_cons sid p l :
  entry_packets sid (p :: l) =
  (if decide (ps_streamID p = sid) then ps_packets p else []) ++ entry_packets sid l.
Proof. done. Qed.

Lemma entry_packets_notin sid l : sid ∉ ps_streamID <$> l -> entry_packets sid l = [].
Proof.
  induction l as [| p l IH]; [done |]. rewrite fmap_cons, not_elem_of_cons. intros [H1 H2].
  rewrite entry_packets_cons, decide_False by congruence. apply IH, H2.
Qed.

Lemma entry_packets_app sid l1 l2 :
  entry_packets sid (l1 ++ l2) = entry_packets sid l1 ++ entry_packets sid l2.
Proof. unfold entry_packets. by rewrite fmap_app, join_app. Qed.

Lemma append_pending_other l sid pk sid' :
  sid' <> sid -> entry_packets sid' (append_pending l sid pk) = entry_packets sid' l.
Proof.
  intros Hne. induction l as [| p l IH]; [done |]. cbn [append_pending].
  destruct (Z.eqb_spec (ps_streamID p) sid); rewrite !entry_packets_cons.
  - cbn. rewrite !decide_False by congruence. done.
  - f_equal. apply IH.
Qed.

Lemma append_pending_same l sid pk :
  NoDup (ps_streamID <$> l) -> sid ∈ ps_streamID <$> l ->
  entry_packets sid (append_pending l sid pk) = entry_packets sid l ++ [pk].
Proof.
  induction l as [| p l IH]; [intros _ Hin; by apply not_elem_of_nil in Hin |].
  rewrite fmap_cons. intros Hnd Hin. apply NoDup_cons in Hnd as [Hp Hnd]. cbn [append_pending].
  destruct (Z.eqb_spec (ps_streamID p) sid) as [E | E]; rewrite !entry_packets_cons.
  - rewrite !decide_True by done. cbn [ps_packets].
    rewrite entry_packets_notin by (by rewrite <- E). by rewrite !app_nil_r.
  - rewrite !decide_False by done. apply elem_of_cons in Hin as [Hin | Hin]; [congruence |].
    apply IH; done.
Qed.

Lemma delivered_app sid l1 l2 : delivered sid (l1 ++ l2) = delivered sid l1 ++ delivered sid l2.
Proof. unfold delivered. by rewrite filter_app, fmap_app. Qed.

Lemma delivered_pairs sid next ps :
  delivered sid (pair next <$> ps) = if decide (next = sid) then ps else [].
Proof.
  unfold delivered. induction ps as [| x ps IH]; [by destruct (decide _) |].
  rewrite fmap_cons, filter_cons. cbn [fst]. destruct (decide (next = sid)) as [E | E].
  - rewrite fmap_cons. cbn [snd]. f_equal. exact IH.
  - exact IH.
Qed.

Lemma delivered_single sid s pk :
  delivered sid [(s, pk)] = if decide (s = sid) then [pk] else [].
Proof. unfold delivered. rewrite filter_cons. cbn [fst]. by destruct (decide (s = sid)). Qed.

Lemma submitted_single sid s net pk now :
  submitted sid [EvSubmit s net pk now] = if decide (s = sid) then [pk] else [].
Proof. cbn. by rewrite app_nil_r. Qed.

(** A packet that is delivered at once belongs to a stream with no backlog. *)
Lemma deliver_now sid s pk ss ss' :
  pending ss' = pending ss -> (s ∉ pending_ids ss) ->
  delivered sid [(s, pk)] ++ buffered sid ss' =
  buffered sid ss ++ (if decide (s = sid) then [pk] else []).
Proof.
  intros Hp Hs. rewrite delivered_single. unfold buffered. rewrite Hp.
  destruct (decide (s = sid)) as [-> | Hne]; [| by rewrite app_nil_r].
  fold (entry_packets sid (pending ss)). by rewrite entry_packets_notin.
Qed.

Lemma with_entry_packets sid ss s net :
  entry_packets sid (with_entry ss s net) = entry_packets sid (pending ss).
Proof.
  unfold with_entry. destruct (findPending ss s); [done |].
  rewrite entry_packets_app, entry_packets_cons. cbn [ps_packets].
  destruct (decide _); by rewrite !app_nil_r.
Qed.

Lemma with_entry_ok ss s net :
  slot_inv ss -> NoDup (ps_streamID <$> with_entry ss s net) /\ s ∈ ps_streamID <$> with_entry ss s net.
Proof.
  intros Hinv. rewrite with_entry_ids. case_decide as Hin; [split; [apply Hinv | done] |].
  split; [| apply elem_of_app; right; by apply list_elem_of_singleton].
  apply NoDup_app. split; [apply Hinv |]. split; [| apply NoDup_singleton].
  intros x Hx Hx'. apply list_elem_of_singleton in Hx' as ->. done.
Qed.

(** A packet that has to wait goes to the end of its stream's backlog. *)
Lemma buffer_packet sid s net pk ss :
  slot_inv ss ->
  entry_packets sid (append_pending (with_entry ss s net) s pk) =
  entry_packets sid (pending ss) ++ (if decide (s = sid) then [pk] else []).
Proof.
  intros Hinv. destruct (with_entry_ok ss s net Hinv) as [Hnd Hin].
  destruct (decide (s = sid)) as [-> | Hne].
  - by rewrite append_pending_same, with_entry_packets.
  - rewrite append_pending_other by congruence. by rewrite with_entry_packets, app_nil_r.
Qed.

(** One event moves packets between the log and the buffer without loss. *)
Lemma step_conserves t ss e sid :
  slot_inv ss -> no_timeout t ss [e] ->
  delivered sid (snd (step t ss e)) ++ buffered sid (fst (step t ss e)) =
  buffered sid ss ++ submitted sid [e].
Proof.
  intros Hinv Hnt. destruct e as [s net pk now | s now]; cbn [step].
  - destruct Hnt as [Hnt _]. rewrite submitted_single. unfold submit_slot.
    destruct (active ss) as [ac |] eqn:Ea.
    + destruct (Z.eqb_spec (ac_streamID ac) s) as [E | E].
      { apply deliver_now; [done |]. rewrite <- E. by apply (inv_active _ Hinv). }
      specialize (Hnt ac eq_refl E). destruct (Z.ltb_spec t (time_sub now (ac_lastSeen ac))); [lia |].
      by apply buffer_packet.
    + apply deliver_now; [done |]. unfold pending_ids. rewrite (inv_free _ Hinv Ea).
      apply not_elem_of_nil.
  - cbn. rewrite !app_nil_r. unfold release_slot.
    destruct (active ss) as [ac |] eqn:Ea; [| done].
    destruct (negb _); [done |]. unfold buffered. destruct (pending ss) as [| p l] eqn:Ep; [done |].
    cbn [fst snd pending fmap list_fmap]. rewrite delivered_pairs. done.
Qed.

Lemma step_inv t ss e : slot_inv ss -> slot_inv (fst (step t ss e)).
Proof.
  intros Hinv. destruct e as [s net pk now | s now]; cbn [step].
  - pose proof (submit_inv t ss s net pk now Hinv). by destruct (submit_slot t ss s net pk now).
  - pose proof (release_inv ss s now Hinv). by destruct (release_slot ss s now).
Qed.

Lemma submitted_cons sid e es : submitted sid (e :: es) = submitted sid [e] ++ submitted sid es.
Proof. cbn. by rewrite app_nil_r. Qed.

Lemma run_cons t ss e es :
  run t ss (e :: es) =
  (fst (run t (fst (step t ss e)) es), snd (step t ss e) ++ snd (run t (fst (step t ss e)) es)).
Proof.
  cbn [run]. destruct (step t ss e) as [ss1 out]. cbn [fst snd].
  by destruct (run t ss1 es).
Qed.

Lemma run_conserves t ss es sid :
  slot_inv ss -> no_timeout t ss es ->
  delivered sid (snd (run t ss es)) ++ buffered sid (fst (run t ss es)) =
  buffered sid ss ++ submitted sid es.
Proof.
  revert ss. induction es as [| e es IH]; intros ss Hinv Hnt; [cbn; by rewrite app_nil_r |].
  cbn [no_timeout] in Hnt. destruct Hnt as [He Hnt].
  rewrite run_cons, submitted_cons. cbn [fst snd]. rewrite delivered_app, <- app_assoc.
  rewrite IH by (done || by apply step_inv). rewrite !app_assoc. f_equal.
  apply step_conserves; [done |]. cbn. destruct e; done.
Qed.

(** ** The arbiter specification

    Without clock and labels the slot is a queue of calls: the first one owns
    the slot and has nothing waiting, every other one has the packets that
    arrived for it. *)

Definition queue := list (Z * list P).

(** Put a packet behind the call's packets, the call at the end if new. *)
Fixpoint enqueue (q : queue) (sid : Z) (pk : P) : queue :=
  match q with
  | [] => [(sid, [pk])]
  | (s, ps) :: q => if s =? sid then (s, ps ++ [pk]) :: q else (s, ps) :: enqueue q sid pk
  end.

(** A packet of [sid]; [expired] says that the owner of the slot is gone. *)
Definition offer (q : queue) (sid : Z) (pk : P) (expired : bool) : queue * list (Z * P) :=
  match q with
  | [] => ([(sid, [])], [(sid, pk)])
  | (owner, _) :: rest =>
      if owner =? sid then (q, [(sid, pk)])
      else if expired then ([(sid, [])], [(sid, pk)])
      else (hd (owner, []) q :: enqueue rest sid pk, [])
  end.

(** The owner ends its call: the next one gets the slot and its backlog. *)
Definition finish (q : queue) (sid : Z) : queue * list (Z * P) :=
  match q with
  | [] => ([], [])
  | (owner, _) :: rest =>
      if owner =? sid then
        match rest with
        | [] => ([], [])
        | (next, ps) :: rest => ((next, []) :: rest, pair next <$> ps)
        end
      else (q, [])
  end.

(** The queue a slot implements. *)
Definition abs (ss : slotState) : queue :=
  match active ss with
  | None => []
  | Some ac => (ac_streamID ac, []) :: ((fun p => (ps_streamID p, ps_packets p)) <$> pending ss)
  end.

Definition owner_expired (t : Z) (ss : slotState) (now : time) : bool :=
  match active ss with
  | None => false
  | Some ac => t <? time_sub now (ac_lastSeen ac)
  end.

Definition spec_step (t : Z) (ss : slotState) (e : event) : queue * list (Z * P) :=
  match e with
  | EvSubmit sid _ pk now => offer (abs ss) sid pk (owner_expired t ss now)
  | EvRelease sid _ => finish (abs ss) sid
  end.

Lemma enqueue_pending l sid net pk :
  let view := fmap (M := list) (fun p => (ps_streamID p, ps_packets p)) in
  view (append_pending (with_entry (mkSlot None l) sid net) sid pk) = enqueue (view l) sid pk.
Proof.
  intros view. subst view. cbn beta. unfold with_entry, findPending. cbn [pending].
  induction l as [| p l IH].
  - cbn. by rewrite Z.eqb_refl.
  - cbn [List.find]. rewrite fmap_cons. cbn [enqueue].
    destruct (Z.eqb_spec (ps_streamID p) sid) as [E | E].
    + cbn [append_pending]. rewrite (proj2 (Z.eqb_eq _ _) E), fmap_cons. done.
    + destruct (List.find _ l) as [q |]; cbn [append_pending app];
        rewrite (proj2 (Z.eqb_neq _ _) E), fmap_cons; f_equal; apply IH.
Qed.

Lemma slot_refines t ss e :
  slot_inv ss -> (abs (fst (step t ss e)), snd (step t ss e)) = spec_step t ss e.
Proof.
  intros Hinv. destruct e as [s net pk now | s now]; cbn [step spec_step].
  - unfold submit_slot, offer, owner_expired, abs. destruct (active ss) as [ac |] eqn:Ea.
    + destruct (Z.eqb_spec (ac_streamID ac) s) as [E | E]; [reflexivity |].
      destruct (t <? time_sub now (ac_lastSeen ac)); [reflexivity |].
      cbn [fst snd active pending hd]. do 2 f_equal.
      apply (enqueue_pending (pending ss) s net pk).
    + cbn [fst snd active pending]. by rewrite (inv_free _ Hinv Ea).
  - unfold release_slot, finish, abs. destruct (active ss) as [ac |] eqn:Ea; [| by cbn; rewrite Ea].
    destruct (Z.eqb_spec (ac_streamID ac) s) as [E | E]; cbn [negb]; [| cbn; by rewrite Ea].
    by destruct (pending ss) as [| p l] eqn:Ep.
Qed.

(** Every owner in turn ends its call. *)
Fixpoint release_all (fuel : nat) (ss : slotState) (now : time) : slotState * list (Z * P) :=
  match fuel with
  | O => (ss, [])
  | S fuel =>
      match active ss with
      | None => (ss, [])
      | Some ac =>
          let '(ss, out) := step 0 ss (EvRelease (ac_streamID ac) now) in
          let '(ss, outs) := release_all fuel ss now in
          (ss, out ++ outs)
      end
  end.

Definition backlog (ss : slotState) : list (Z * P) :=
  mjoin ((fun p => pair (ps_streamID p) <$> ps_packets p) <$> pending ss).

Lemma release_all_spec l ac now :
  release_all (S (length l)) (mkSlot (Some ac) l) now =
  (mkSlot None [], mjoin ((fun p => pair (ps_streamID p) <$> ps_packets p) <$> l)).
Proof.
  revert ac. induction l as [| p l IH]; intros ac.
  - cbn. by rewrite Z.eqb_refl.
  - change (length (p :: l)) with (S (length l)).
    remember (S (length l)) as n eqn:En. cbn [release_all active step release_slot pending].
    rewrite Z.eqb_refl. cbn [negb]. subst n. rewrite IH. done.
Qed.

Lemma run_inv t es ss : slot_inv ss -> slot_inv (fst (run t ss es)).
Proof.
  revert ss. induction es as [| e es IH]; intros ss Hinv; [done |].
  rewrite run_cons. cbn [fst]. by apply IH, step_inv.
Qed.

Lemma lookup_other_slot (m : Manager) slot (ss : slotState) :
  slots (put_slot m (slotIndex slot) ss) !! slotIndex (negb slot) = slots m !! slotIndex (negb slot).
Proof. cbn. apply list_lookup_insert_ne. by destruct slot. Qed.

Lemma put_slot_inv (m : Manager) slot ss :
  manager_inv m -> slot_inv ss -> manager_inv (put_slot m (slotIndex slot) ss).
Proof.
  intros [Hl Hm] Hss. split; [cbn; by rewrite length_insert |]. intros idx ss' H. cbn in H.
  destruct (decide (idx = slotIndex slot)) as [-> | Hne].
  - rewrite list_lookup_insert_eq in H by (rewrite Hl; destruct slot; cbn; lia).
    by injection H as <-.
  - rewrite list_lookup_insert_ne in H by done. by apply (Hm idx).
Qed.

Lemma get_put_slot (m : Manager) slot ss :
  length (slots m) = 2%nat -> getOrCreateSlot (put_slot m (slotIndex slot) ss) (slotIndex slot) = ss.
Proof.
  intros Hl. unfold getOrCreateSlot. cbn.
  rewrite list_lookup_insert_eq; [done |]. rewrite Hl. destruct slot; cbn; lia.
Qed.

Lemma get_slot_inv (m : Manager) idx : manager_inv m -> slot_inv (getOrCreateSlot m idx).
Proof.
  intros [Hl Hm]. unfold getOrCreateSlot.
  destruct (slots m !! idx) as [[ss |] |] eqn:E; [by apply (Hm idx) | apply empty_slot_inv ..].
Qed.

(** ** Properties *)

(** C2: no packet is lost, duplicated or reordered: as long as no call times
    out, what has been delivered for a stream followed by what is still
    buffered for it is exactly the sequence of packets submitted for it,
    whatever the interleaving of streams and releases. *)
Theorem slot_no_loss t (es : list event) sid :
  no_timeout t empty_slot es ->
  delivered sid (snd (run t empty_slot es)) ++ buffered sid (fst (run t empty_slot es)) =
  submitted sid es.
Proof. intros Hnt. rewrite run_conserves; [done | apply empty_slot_inv | done]. Qed.

(** A submission that finds the active call timed out discards all calls that
    wait, and its stream owns the slot. *)
Theorem timeout_discards t (ss : slotState) ac sid net pk now :
  active ss = Some ac -> ac_streamID ac <> sid -> t < time_sub now (ac_lastSeen ac) ->
  submit_slot t ss sid net pk now = (mkSlot (Some (mkActive sid net now)) [], true).
Proof.
  intros Ha Hne Ht. unfold submit_slot. rewrite Ha, (proj2 (Z.eqb_neq _ _) Hne). by rewrite (proj2 (Z.ltb_lt _ _) Ht).
Qed.

(** C36: the slot implements the arbiter: from every reachable state each event,
    timeouts included, moves the abstract queue of calls exactly as the
    specification says and hands the same packets to the caller.  The
    specification follows the comment on [Submit]: when the active call has timed
    out, the calls that wait are discarded and the new stream owns the slot.  (The
    comment of the package has them delivered at a time-out; see
    [timeout_discards].) *)
Theorem slot_refines_arbiter t (es : list event) e :
  let ss := fst (run t empty_slot es) in
  slot_inv ss /\ (abs (fst (step t ss e)), snd (step t ss e)) = spec_step t ss e.
Proof.
  intros ss. assert (Hinv : slot_inv ss) by apply run_inv, empty_slot_inv.
  split; [done | by apply slot_refines].
Qed.

(** every waiting call is served: from any reachable state, when each owner
    in turn ends its call, as many releases as there are calls free the slot
    and deliver the whole backlog, stream after stream in the order of
    arrival. *)
Theorem backlog_drains t (es : list event) now :
  let ss := fst (run t empty_slot es) in
  release_all (S (length (pending ss))) ss now = (empty_slot, backlog ss).
Proof.
  intros ss. assert (Hinv : slot_inv ss) by apply run_inv, empty_slot_inv. clearbody ss.
  unfold backlog. destruct ss as [[ac |] l]; [apply release_all_spec |].
  pose proof (inv_free _ Hinv eq_refl) as Hl. cbn in Hl. by subst l.
Qed.

(** the two timeslots are independent, and both operations keep the
    manager well formed: what happens on one slot is the slot's own step, and
    the other slot is left as it was. *)
Theorem slots_independent (m : Manager) slot sid net pk now :
  manager_inv m ->
  let '(m1, ok) := Submit m slot sid net pk now in
  let '(m2, out) := Release m slot sid now in
  manager_inv m1 /\ manager_inv m2 /\
  slots m1 !! slotIndex (negb slot) = slots m !! slotIndex (negb slot) /\
  slots m2 !! slotIndex (negb slot) = slots m !! slotIndex (negb slot) /\
  (getOrCreateSlot m1 (slotIndex slot), ok) =
    submit_slot (timeout m) (getOrCreateSlot m (slotIndex slot)) sid net pk now /\
  getOrCreateSlot m2 (slotIndex slot) =
    fst (release_slot (getOrCreateSlot m (slotIndex slot)) sid now).
Proof.
  intros Hm. pose proof (get_slot_inv m (slotIndex slot) Hm) as Hss. unfold Submit, Release.
  pose proof (submit_inv (timeout m) _ sid net pk now Hss) as Hsub.
  pose proof (release_inv _ sid now Hss) as Hrel.
  destruct (submit_slot _ _ _ _ _ _) as [ss1 ok]. cbn [fst] in Hsub.
  unfold getOrCreateSlot in Hrel |- * at 3. destruct (slots m !! slotIndex slot) as [[ss |] |] eqn:E.
  - destruct (release_slot ss sid now) as [ss2 out]. cbn [fst] in *.
    split_ands; try (by apply put_slot_inv); try apply lookup_other_slot.
    + by rewrite get_put_slot by apply Hm.
    + by rewrite get_put_slot by apply Hm.
  - split_ands; try (by apply put_slot_inv); try apply lookup_other_slot; try done.
    + by rewrite get_put_slot by apply Hm.
    + unfold getOrCreateSlot. by rewrite E.
  - split_ands; try (by apply put_slot_inv); try apply lookup_other_slot; try done.
    + by rewrite get_put_slot by apply Hm.
    + unfold getOrCreateSlot. by rewrite E.
Qed.
End timeslot.

(** ** Witnesses *)

(** Two streams on one slot: 7 owns it, 8 waits, 7 ends. *)
Definition two_streams : list (event (P := Z)) :=
  [EvSubmit 7 "a" 70 1; EvSubmit 8 "b" 80 2; EvSubmit 7 "a" 71 3; EvSubmit 8 "b" 81 4; EvRelease 7 5].

Lemma slot_no_loss_witness :
  delivered 8 (snd (run DefaultTimeout empty_slot two_streams)) ++
  buffered 8 (fst (run DefaultTimeout empty_slot two_streams)) = [80; 81].
Proof.
  apply (slot_no_loss DefaultTimeout two_streams 8). cbn.
  repeat split; try done; intros ac [= <-] Hne; vm_compute; congruence.
Defined.

Lemma slots_independent_witness :
  let m := NewManager (P := Z) in
  let '(m1, ok) := Submit m true 7 "a" 70 1 in
  let '(m2, out) := Release m true 7 1 in
  manager_inv m1 /\ manager_inv m2 /\
  slots m1 !! slotIndex (negb true) = slots m !! slotIndex (negb true) /\
  slots m2 !! slotIndex (negb true) = slots m !! slotIndex (negb true) /\
  (getOrCreateSlot m1 (slotIndex true), ok) =
    submit_slot (timeout m) (getOrCreateSlot m (slotIndex true)) 7 "a" 70 1 /\
  getOrCreateSlot m2 (slotIndex true) =
    fst (release_slot (getOrCreateSlot m (slotIndex true)) 7 1).
Proof.
  apply (slots_independent NewManager true 7 "a" 70 1). split; [done |].
  intros idx ss H. by destruct idx as [| [| idx]].
Defined.
