(* ===== verification/Strings.v ===== *)
(** * Formatted strings

    The parts of [fmt] and [encoding/hex] the program builds keys with ("%d",
    "%t", hexadecimal bytes), and the lemmas that make colon-separated keys
    injective. *)

From Stdlib Require Import Ascii.
From S2P Require Import Prelude.

Definition chars (s : string) : list Ascii.ascii := String.list_ascii_of_string s.

Definition colon : Ascii.ascii := ":"%char.

(** A string without a colon. *)
Definition plain (s : string) : Prop := colon ∉ chars s.

Lemma chars_app s1 s2 : chars (s1 +:+ s2) = chars s1 ++ chars s2.
Proof.
  induction s1 as [| c s1 IH]; [done |].
  change (chars (String c s1 +:+ s2)) with (c :: chars (s1 +:+ s2)). by rewrite IH.
Qed.

Lemma chars_inj s1 s2 : chars s1 = chars s2 -> s1 = s2.
Proof.
  intros H. apply (f_equal String.string_of_list_ascii) in H. unfold chars in H.
  by rewrite !String.string_of_list_ascii_of_string in H.
Qed.

Lemma plain_app s1 s2 : plain s1 -> plain s2 -> plain (s1 +:+ s2).
Proof. unfold plain. rewrite chars_app, not_elem_of_app. done. Qed.

(** ** Splitting at the last colon *)

Lemma last_sep {A} (c : A) l1 l2 a b :
  (c ∉ a) -> (c ∉ b) -> l1 ++ c :: a = l2 ++ c :: b -> l1 = l2 /\ a = b.
Proof.
  intros Ha Hb E.
  destruct (app_eq_inv _ _ _ _ E) as [(k & -> & E') | (k & -> & E')].
  - destruct k as [| x k]; [by injection E' as <-; rewrite app_nil_r |].
    injection E' as -> ->. exfalso. apply Hb. apply elem_of_app. right. by left.
  - destruct k as [| x k]; [by injection E' as <-; rewrite app_nil_r |].
    injection E' as -> ->. exfalso. apply Ha. apply elem_of_app. right. by left.
Qed.

Lemma key_split s1 s2 a b :
  plain a -> plain b -> s1 +:+ ":" +:+ a = s2 +:+ ":" +:+ b -> s1 = s2 /\ a = b.
Proof.
  intros Ha Hb E. apply (f_equal chars) in E. rewrite !chars_app in E.
  change (chars ":" ++ ?x) with (colon :: x) in E.
  apply last_sep in E as [E1 E2]; [| done | done]. split; by apply chars_inj.
Qed.

(** Colon-separated fields. *)
Fixpoint join_fields (s : string) (fields : list string) : string :=
  match fields with
  | [] => s
  | f :: fields => join_fields (s +:+ ":" +:+ f) fields
  end.

Lemma join_fields_app s l1 l2 : join_fields s (l1 ++ l2) = join_fields (join_fields s l1) l2.
Proof. revert s. induction l1 as [| f l1 IH]; intros s; cbn; [done | apply IH]. Qed.

Lemma join_fields_inj s1 s2 l1 l2 :
  length l1 = length l2 -> Forall plain l1 -> Forall plain l2 ->
  join_fields s1 l1 = join_fields s2 l2 -> s1 = s2 /\ l1 = l2.
Proof.
  revert l2. induction l1 as [| f l1 IH] using rev_ind; intros l2 Hlen H1 H2 E.
  - destruct l2; [done | cbn in Hlen; lia].
  - destruct l2 as [| g l2 _] using rev_ind; [rewrite length_app in Hlen; cbn in Hlen; lia |].
    rewrite !length_app in Hlen. cbn in Hlen.
    apply Forall_app in H1 as [H1 Hf]. apply Forall_app in H2 as [H2 Hg].
    rewrite Forall_singleton in Hf, Hg. rewrite !join_fields_app in E. cbn [join_fields] in E.
    apply key_split in E as [E ->]; [| done | done].
    apply IH in E as [-> ->]; [done | lia | done | done].
Qed.

(** ** "%d" *)

Lemma digit_not_colon x : pretty_N_char x <> colon.
Proof. unfold pretty_N_char. by repeat case_match. Qed.

Lemma pretty_N_go_plain x s : plain s -> plain (pretty_N_go x s).
Proof.
  revert s. induction (N.lt_wf_0 x) as [x _ IH]; intros s Hs.
  destruct (decide (0 < x)%N) as [Hx | Hx].
  - rewrite pretty_N_go_step by done. apply IH; [by apply N.div_lt |].
    unfold plain in *. cbn. apply not_elem_of_cons. split; [| done].
    intros E. by apply (digit_not_colon (x mod 10)).
  - assert (x = 0%N) as -> by lia. by rewrite pretty_N_go_0.
Qed.

Lemma pretty_N_plain (x : N) : plain (pretty x).
Proof.
  unfold pretty, pretty_N. case_decide.
  - unfold plain. cbn. rewrite elem_of_cons, elem_of_nil. by intros [|].
  - apply pretty_N_go_plain. unfold plain. cbn. apply not_elem_of_nil.
Qed.

Lemma pretty_Z_plain (x : Z) : plain (pretty x).
Proof.
  destruct x as [| p | p].
  - unfold plain. cbn. rewrite elem_of_cons, elem_of_nil. by intros [|].
  - apply (pretty_N_plain (N.pos p)).
  - apply (plain_app "-"); [| apply (pretty_N_plain (N.pos p))].
    unfold plain. cbn. rewrite elem_of_cons, elem_of_nil. by intros [|].
Qed.

Lemma pretty_Z_eq (x y : Z) : pretty x = pretty y -> x = y.
Proof. apply (inj pretty). Qed.

(** ** "%t" *)

Definition pretty_bool (b : bool) : string := if b then "true" else "false".

Lemma pretty_bool_plain b : plain (pretty_bool b).
Proof.
  unfold plain. destruct b; cbn; rewrite ?not_elem_of_cons; repeat split; try done; apply not_elem_of_nil.
Qed.

(** ** hex.EncodeToString *)

Definition hex_digit (d : Z) : Ascii.ascii :=
  nth (Z.to_nat d) ["0"; "1"; "2"; "3"; "4"; "5"; "6"; "7"; "8"; "9"; "a"; "b"; "c"; "d"; "e"; "f"]%char "0"%char.

Fixpoint hex_string (bs : list Z) : string :=
  match bs with
  | [] => EmptyString
  | b :: bs => String (hex_digit (Z.shiftr b 4)) (String (hex_digit (Z.land b 0xF)) (hex_string bs))
  end.

Lemma hex_digit_not_colon d : hex_digit d <> colon.
Proof.
  unfold hex_digit. destruct (Z.to_nat d) as [| n]; [done |].
  do 16 (destruct n as [| n]; [done |]). destruct n; done.
Qed.

Lemma hex_string_plain bs : plain (hex_string bs).
Proof.
  unfold plain. induction bs as [| b bs IH]; cbn; [apply not_elem_of_nil |].
  rewrite !not_elem_of_cons. split_ands; [| | done]; intros E; exact (hex_digit_not_colon _ (eq_sym E)).
Qed.

Lemma hex_byte_inj :
  forallb (fun i => forallb (fun j =>
    negb (bool_decide (hex_digit (Z.of_nat i) = hex_digit (Z.of_nat j))) || (i =? j)%nat)
    (seq 0 16)) (seq 0 16) = true.
Proof. vm_compute. reflexivity. Qed.

Lemma hex_digit_inj a b : 0 <= a < 16 -> 0 <= b < 16 -> hex_digit a = hex_digit b -> a = b.
Proof.
  intros Ha Hb E. apply (small_cases 16) in Ha as (i & Hi & ->).
  apply (small_cases 16) in Hb as (j & Hj & ->).
  pose proof (forallb_seq _ _ j (forallb_seq _ _ i hex_byte_inj Hi) Hj) as H. cbv beta in H.
  rewrite bool_decide_true in H by done. cbn in H. apply Nat.eqb_eq in H. by subst.
Qed.

Lemma hex_string_inj l1 l2 :
  Forall is_byte l1 -> Forall is_byte l2 -> hex_string l1 = hex_string l2 -> l1 = l2.
Proof.
  intros H1. revert l2. induction H1 as [| a l1 Ha H1 IH]; intros l2 H2 E.
  - by destruct l2.
  - destruct H2 as [| b l2 Hb H2]; [done |]. cbn in E. injection E as E1 E2 E3.
    f_equal; [| by apply IH]. unfold is_byte in Ha, Hb.
    assert (Hr : forall x, 0 <= x < 256 -> 0 <= Z.shiftr x 4 < 16 /\ 0 <= Z.land x 0xF < 16 /\
      x = Z.shiftr x 4 * 16 + Z.land x 0xF).
    { intros x Hx. rewrite Z.shiftr_div_pow2 by lia. change 0xF with (Z.ones 4).
      rewrite Z.land_ones by lia. change (2 ^ 4) with 16. Z.to_euclidean_division_equations. lia. }
    destruct (Hr a Ha) as (A1 & A2 & ->). destruct (Hr b Hb) as (B1 & B2 & ->).
    apply hex_digit_inj in E1, E2; [| done ..]. by rewrite E1, E2.
Qed.
