(* ===== verification/Net.v ===== *)
(** * Network addresses

    A [net.UDPAddr], in the two forms the program uses it: with the text of its
    IP address as a key, and with the bytes of the address. *)

From S2P Require Import Prelude Strings.

(** The IP address in the form [IP.String] gives it. *)
Record UDPAddr := mkAddr { addr_IP : string; addr_Port : Z; addr_Zone : string }.

#[export] Instance UDPAddr_eq_dec : EqDecision UDPAddr.
Proof. solve_decision. Defined.

(** [UDPAddr.String] *)
Definition addr_string (a : UDPAddr) : string :=
  let host := if decide (addr_Zone a = "") then addr_IP a else addr_IP a +:+ "%" +:+ addr_Zone a in
  if decide (colon ∈ chars host) then "[" +:+ host +:+ "]:" +:+ pretty (addr_Port a)
  else host +:+ ":" +:+ pretty (addr_Port a).

Lemma addr_string_nonempty addr : addr_string addr <> "".
Proof.
  unfold addr_string. case_decide; [done |]. intros E. apply (f_equal chars) in E. rewrite chars_app in E.
  apply app_eq_nil in E as [_ E]. done.
Qed.

(** The bytes of the IP address, [None] for nil. *)
Record NetAddr := mkNetAddr { na_IP : option (list Z); na_Port : Z; na_Zone : string }.

#[export] Instance NetAddr_eq_dec : EqDecision NetAddr.
Proof. solve_decision. Defined.

(** [IP.To4] *)
Definition To4 (ip : list Z) : list Z :=
  if (length ip =? 4)%nat then ip
  else if (length ip =? 16)%nat && bool_decide (take 12 ip = replicate 10 0 ++ [0xFF; 0xFF]) then drop 12 ip
  else [].
