(* ===== verification/Guard.v ===== *)
(** * The repeater guard (internal/repeater/guard.go)

    Deduplication, echo suppression and call ownership per timeslot and per
    talkgroup.  Every operation reads the clock once; the reading is its last
    argument. *)

From S2P Require Import Prelude Strings Packet.

Definition defaultCallTimeout : Z := 1200 * millisecond.
Definition defaultDedupTTL : Z := 400 * millisecond.
Definition defaultEchoTTL : Z := 250 * millisecond.
Definition defaultGroupTTL : Z := 6 * second.

(** [slotOwner] and [groupOwner] have the same fields. *)
Record callOwner := mkOwner {
  co_source : string;
  co_streamID : Z;
  co_lastSeen : time
}.

Record Guard := mkGuard {
  callTimeout : Z;
  dedupTTL : Z;
  echoTTL : Z;
  groupTTL : Z;
  owners : list (option callOwner);
  groupOwners : gmap Z callOwner;
  recentIngress : gmap string time;
  recentEgress : gmap string time
}.

Definition NewGuard : Guard :=
  mkGuard defaultCallTimeout defaultDedupTTL defaultEchoTTL defaultGroupTTL [None; None] ∅ ∅ ∅.

Definition with_owners (g : Guard) (o : list (option callOwner)) : Guard :=
  mkGuard (callTimeout g) (dedupTTL g) (echoTTL g) (groupTTL g) o (groupOwners g)
    (recentIngress g) (recentEgress g).
Definition with_groups (g : Guard) (m : gmap Z callOwner) : Guard :=
  mkGuard (callTimeout g) (dedupTTL g) (echoTTL g) (groupTTL g) (owners g) m
    (recentIngress g) (recentEgress g).
Definition with_ingress (g : Guard) (m : gmap string time) : Guard :=
  mkGuard (callTimeout g) (dedupTTL g) (echoTTL g) (groupTTL g) (owners g) (groupOwners g)
    m (recentEgress g).
Definition with_egress (g : Guard) (m : gmap string time) : Guard :=
  mkGuard (callTimeout g) (dedupTTL g) (echoTTL g) (groupTTL g) (owners g) (groupOwners g)
    (recentIngress g) m.

Definition isTerminator (pkt : Packet) : bool := (FrameType pkt =? 2) && (DTypeOrVSeq pkt =? 2).

Definition fingerprint_fields (pkt : Packet) : list string :=
  [pretty_bool (Slot pkt); pretty (Src pkt); pretty (Dst pkt); pretty (StreamID pkt);
   pretty (FrameType pkt); pretty (DTypeOrVSeq pkt); hex_string (DMRData pkt)].

(** "%d:%t:%d:%d:%d:%d:%d:%s" *)
Definition fingerprint (pkt : Packet) : string :=
  join_fields (pretty (Seq pkt)) (fingerprint_fields pkt).

Definition stale (now ttl : Z) (o : callOwner) : bool := ttl <? time_sub now (co_lastSeen o).

Definition evictExpired (g : Guard) (now : time) : Guard :=
  mkGuard (callTimeout g) (dedupTTL g) (echoTTL g) (groupTTL g)
    ((fun o => match o with
       | Some ow => if stale now (callTimeout g) ow then None else Some ow
       | None => None
       end) <$> owners g)
    (filter (fun x => stale now (groupTTL g) (snd x) = false) (groupOwners g))
    (filter (fun x => (dedupTTL g <? time_sub now (snd x)) = false) (recentIngress g))
    (filter (fun x => (echoTTL g <? time_sub now (snd x)) = false) (recentEgress g)).

Definition allowGroupLocked (g : Guard) (source : string) (pkt : Packet) (now : time) : Guard * bool :=
  let isTerm := isTerminator pkt in
  let fresh :=
    if isTerm then (with_groups g (delete (Dst pkt) (groupOwners g)), true)
    else (with_groups g (<[Dst pkt := mkOwner source (StreamID pkt) now]> (groupOwners g)), true) in
  match groupOwners g !! Dst pkt with
  | None => fresh
  | Some owner =>
      if stale now (groupTTL g) owner then fresh
      else if negb (bool_decide (co_source owner = source)) then (g, false)
      else
        let g := with_groups g (<[Dst pkt := mkOwner (co_source owner) (StreamID pkt) now]> (groupOwners g)) in
        (if isTerm then with_groups g (delete (Dst pkt) (groupOwners g)) else g, true)
  end.

(** The part of [AllowIngress] behind the key and talkgroup checks. *)
Definition allowSlot (g : Guard) (source ingressKey : string) (pkt : Packet) (now : time) : Guard * bool :=
  let idx := if Slot pkt then 1%nat else 0%nat in
  let isTerm := isTerminator pkt in
  let mark g := with_ingress g (<[ingressKey := now]> (recentIngress g)) in
  let claim g :=
    if isTerm then g
    else with_owners g (<[idx := Some (mkOwner source (StreamID pkt) now)]> (owners g)) in
  match owners g !! idx with
  | Some (Some owner) =>
      if callTimeout g <? time_sub now (co_lastSeen owner) then
        let g := with_owners g (<[idx := None]> (owners g)) in
        (mark (claim g), true)
      else if negb (bool_decide (co_source owner = source)) then (g, false)
      else
        let g := with_owners g (<[idx := Some (mkOwner (co_source owner) (StreamID pkt) now)]> (owners g)) in
        let g := if isTerm then with_owners g (<[idx := None]> (owners g)) else g in
        (mark g, true)
  | _ => (mark (claim g), true)
  end.

Definition echo_key (source : string) (pkt : Packet) : string :=
  "echo:" +:+ source +:+ ":" +:+ fingerprint pkt.
Definition ingress_key (source : string) (pkt : Packet) : string :=
  "in:" +:+ source +:+ ":" +:+ fingerprint pkt.

Definition recent (m : gmap string time) (key : string) (now ttl : Z) : bool :=
  match m !! key with
  | Some ts => time_sub now ts <=? ttl
  | None => false
  end.

Definition AllowIngress (g : Guard) (source : string) (pkt : Packet) (now : time) : Guard * bool :=
  let g := evictExpired g now in
  if recent (recentEgress g) (echo_key source pkt) now (echoTTL g) then (g, false)
  else if recent (recentIngress g) (ingress_key source pkt) now (dedupTTL g) then (g, false)
  else if GroupCall pkt && negb (Dst pkt =? 0) then
    let '(g, ok) := allowGroupLocked g source pkt now in
    if negb ok then (g, false) else allowSlot g source (ingress_key source pkt) pkt now
  else allowSlot g source (ingress_key source pkt) pkt now.

Definition MarkForwarded (g : Guard) (targetFrontend : string) (pkt : Packet) (now : time) : Guard :=
  let g := evictExpired g now in
  with_egress g (<[echo_key targetFrontend pkt := now]> (recentEgress g)).

(** ** Fingerprints *)

Lemma fingerprint_plain pkt : Forall plain (fingerprint_fields pkt).
Proof.
  unfold fingerprint_fields.
  repeat apply Forall_cons_2; try apply pretty_Z_plain;
    [apply pretty_bool_plain | apply hex_string_plain | apply Forall_nil_2].
Qed.

(** What the guard sees of a packet. *)
Definition same_frame (p q : Packet) : Prop :=
  Seq p = Seq q /\ Slot p = Slot q /\ Src p = Src q /\ Dst p = Dst q /\ StreamID p = StreamID q /\
  FrameType p = FrameType q /\ DTypeOrVSeq p = DTypeOrVSeq q /\ DMRData p = DMRData q.

Lemma fingerprint_fields_inj p q :
  Forall is_byte (DMRData p) -> Forall is_byte (DMRData q) ->
  pretty (Seq p) = pretty (Seq q) -> fingerprint_fields p = fingerprint_fields q -> same_frame p q.
Proof.
  intros Hp Hq E0 E. unfold fingerprint_fields in E.
  injection E as E1 E2 E3 E4 E5 E6 E7. unfold same_frame.
  split_ands; try (by apply pretty_Z_eq); [| by apply hex_string_inj].
  by destruct (Slot p), (Slot q).
Qed.

Lemma join_fields_prefix s t l : join_fields (s +:+ t) l = s +:+ join_fields t l.
Proof.
  revert t. induction l as [| f l IH]; intros t; cbn [join_fields]; [done |].
  rewrite <- IH. apply (f_equal (fun x => join_fields x l)). apply chars_inj.
  rewrite !chars_app. by rewrite <- !app_assoc.
Qed.

Lemma key_split_source prefix s1 s2 p q :
  prefix +:+ s1 +:+ ":" +:+ fingerprint p = prefix +:+ s2 +:+ ":" +:+ fingerprint q ->
  s1 = s2 /\ pretty (Seq p) :: fingerprint_fields p = pretty (Seq q) :: fingerprint_fields q.
Proof.
  intros E.
  assert (Hkey : forall s r, prefix +:+ s +:+ ":" +:+ fingerprint r =
    join_fields (prefix +:+ s) (pretty (Seq r) :: fingerprint_fields r)).
  { intros s r. cbn [join_fields]. unfold fingerprint.
    rewrite (join_fields_prefix (prefix +:+ s)). rewrite (join_fields_prefix ":").
    apply chars_inj. rewrite !chars_app. by rewrite <- !app_assoc. }
  rewrite !Hkey in E. apply join_fields_inj in E as [E1 E2]; [| done | |];
    try (apply Forall_cons_2; [apply pretty_Z_plain | apply fingerprint_plain]).
  split; [by apply (inj (String.app prefix)) | done].
Qed.

Lemma echo_key_source s1 s2 p q : echo_key s1 p = echo_key s2 q -> s1 = s2.
Proof. intros E. exact (proj1 (key_split_source "echo:" s1 s2 p q E)). Qed.

Lemma key_inj prefix s1 s2 p q :
  Forall is_byte (DMRData p) -> Forall is_byte (DMRData q) ->
  prefix +:+ s1 +:+ ":" +:+ fingerprint p = prefix +:+ s2 +:+ ":" +:+ fingerprint q ->
  s1 = s2 /\ same_frame p q.
Proof.
  intros Hp Hq E. apply key_split_source in E as [-> E2]. split; [done |].
  apply fingerprint_fields_inj; [done | done | |].
  - exact (f_equal (hd ""%string) E2).
  - exact (f_equal (@tl string) E2).
Qed.

(** ** Traces *)

Inductive event :=
| EvIngress (source : string) (pkt : Packet) (now : time)
| EvForward (target : string) (pkt : Packet) (now : time).

Definition event_time (e : event) : time :=
  match e with EvIngress _ _ now | EvForward _ _ now => now end.

(** An accepted packet: who sent it, the packet and when. *)
Record accepted := mkAccepted { acc_source : string; acc_pkt : Packet; acc_time : time }.

(** The guard with the packets it accepted, newest first. *)
Definition gstep (st : Guard * list accepted) (e : event) : Guard * list accepted :=
  let '(g, hist) := st in
  match e with
  | EvIngress source pkt now =>
      let '(g, ok) := AllowIngress g source pkt now in
      (g, if ok then mkAccepted source pkt now :: hist else hist)
  | EvForward target pkt now => (MarkForwarded g target pkt now, hist)
  end.

Definition grun (es : list event) : Guard * list accepted := foldl gstep (NewGuard, []) es.

(** The clock does not run backwards. *)
Fixpoint ordered (tl : time) (es : list event) : Prop :=
  match es with
  | [] => True
  | e :: es => tl <= event_time e /\ ordered (event_time e) es
  end.

Definition last_on (slot : bool) (hist : list accepted) : option accepted :=
  List.find (fun a => eqb (Slot (acc_pkt a)) slot) hist.

Definition slot_idx (slot : bool) : nat := if slot then 1%nat else 0%nat.

(** The owner recorded for a slot agrees with the packet accepted last on it. *)
Definition owner_ok (o : option callOwner) (last : option accepted) (tl : time) : Prop :=
  match last with
  | None => o = None
  | Some a =>
      if isTerminator (acc_pkt a) then o = None
      else o = Some (mkOwner (acc_source a) (StreamID (acc_pkt a)) (acc_time a)) \/
           (o = None /\ tl - acc_time a > defaultCallTimeout)
  end.

Record guard_inv (g : Guard) (hist : list accepted) (tl : time) : Prop := {
  gi_call : callTimeout g = defaultCallTimeout;
  gi_dedup : dedupTTL g = defaultDedupTTL;
  gi_echo : echoTTL g = defaultEchoTTL;
  gi_len : length (owners g) = 2%nat;
  gi_owner slot : exists o, owners g !! slot_idx slot = Some o /\ owner_ok o (last_on slot hist) tl;
  gi_times a : a ∈ hist -> acc_time a <= tl;
  gi_seen a : a ∈ hist ->
    (exists ts, recentIngress g !! ingress_key (acc_source a) (acc_pkt a) = Some ts /\ acc_time a <= ts) \/
    tl - acc_time a > defaultDedupTTL
}.

Lemma sub_gt a b d : 0 <= d <= defaultGroupTTL -> (d <? time_sub a b) = true <-> a - b > d.
Proof.
  intros Hd. rewrite Z.ltb_lt. pose proof (time_sub_gt a b d) as H.
  unfold max_duration in H. unfold defaultGroupTTL, second, millisecond in Hd. cbn in Hd, H. lia.
Qed.

Lemma owner_ok_later o last tl tl' : tl <= tl' -> owner_ok o last tl -> owner_ok o last tl'.
Proof.
  intros Hle. unfold owner_ok. destruct last as [a |]; [| done].
  destruct (isTerminator _); [done |]. intros [H | [H1 H2]]; [by left | right; split; [done | lia]].
Qed.

Lemma evict_inv g hist tl now :
  tl <= now -> guard_inv g hist tl -> guard_inv (evictExpired g now) hist now.
Proof.
  intros Hle [Hc Hd He Hl Ho Ht Hs]. split; cbn; try done.
  - by rewrite length_fmap.
  - intros slot. destruct (Ho slot) as (o & Hlk & Hok).
    rewrite list_lookup_fmap, Hlk. cbn. eexists. split; [done |].
    apply (owner_ok_later _ _ _ now Hle) in Hok. destruct o as [ow |]; [| done].
    destruct (stale now (callTimeout g) ow) eqn:Hst; [| done].
    unfold stale in Hst. rewrite Hc, sub_gt in Hst by (unfold defaultCallTimeout, defaultGroupTTL, second, millisecond; lia).
    unfold owner_ok in *. destruct (last_on slot hist) as [a |]; [| done].
    destruct (isTerminator (acc_pkt a)); [done |]. destruct Hok as [[= ->] | [? _]]; [| done].
    right. split; [done |]. cbn in Hst. lia.
  - intros a Ha. specialize (Ht a Ha). lia.
  - intros a Ha. destruct (Hs a Ha) as [(ts & Hlk & Hts) | H]; [| right; lia].
    destruct (dedupTTL g <? time_sub now ts) eqn:E.
    + right. rewrite Hd, sub_gt in E by (unfold defaultDedupTTL, defaultGroupTTL, second, millisecond; lia). lia.
    + left. exists ts. split; [| done]. by apply map_lookup_filter_Some_2.
Qed.

(** After the eviction the remaining entries are fresh. *)
Lemma evict_fresh_owner g now idx o :
  owners (evictExpired g now) !! idx = Some (Some o) ->
  (callTimeout g <? time_sub now (co_lastSeen o)) = false.
Proof.
  cbn. rewrite list_lookup_fmap. destruct (owners g !! idx) as [[ow |] |]; cbn; [| done | done].
  destruct (stale now (callTimeout g) ow) eqn:E; [done |]. by intros [= <-].
Qed.

Lemma evict_fresh_key g now key :
  recent (recentIngress (evictExpired g now)) key now (dedupTTL g) = false ->
  recentIngress (evictExpired g now) !! key = None.
Proof.
  unfold recent. destruct (recentIngress (evictExpired g now) !! key) as [ts |] eqn:E; [| done].
  intros H. exfalso. cbn in E. apply map_lookup_filter_Some in E as [_ E]. cbn in E.
  apply Z.ltb_ge in E. apply Z.leb_gt in H. lia.
Qed.

(** The talkgroup check touches only the talkgroup owners. *)
Lemma allowGroup_frame g source pkt now :
  let g' := fst (allowGroupLocked g source pkt now) in
  callTimeout g' = callTimeout g /\ dedupTTL g' = dedupTTL g /\ echoTTL g' = echoTTL g /\
  owners g' = owners g /\ recentIngress g' = recentIngress g /\ recentEgress g' = recentEgress g.
Proof.
  unfold allowGroupLocked. destruct (groupOwners g !! Dst pkt) as [o |].
  - destruct (stale _ _ _); [by destruct (isTerminator pkt) |].
    destruct (negb _); [done |]. by destruct (isTerminator pkt).
  - by destruct (isTerminator pkt).
Qed.

Lemma guard_inv_frame g g' hist tl :
  callTimeout g' = callTimeout g -> dedupTTL g' = dedupTTL g -> echoTTL g' = echoTTL g ->
  owners g' = owners g -> recentIngress g' = recentIngress g ->
  guard_inv g hist tl -> guard_inv g' hist tl.
Proof.
  intros E1 E2 E3 E4 E5 [Hc Hd He Hl Ho Ht Hs]. split; rewrite ?E1, ?E2, ?E3, ?E4, ?E5; done.
Qed.

Lemma last_on_cons slot a hist :
  last_on slot (a :: hist) = if eqb (Slot (acc_pkt a)) slot then Some a else last_on slot hist.
Proof. done. Qed.

(** Accepting a packet: the slot's owner is the sender, or nobody after a
    terminator, and its key is remembered. *)
Lemma accept_inv g hist now source pkt o :
  guard_inv g hist now ->
  o = (if isTerminator pkt then None else Some (mkOwner source (StreamID pkt) now)) ->
  guard_inv (with_ingress (with_owners g (<[slot_idx (Slot pkt) := o]> (owners g)))
    (<[ingress_key source pkt := now]> (recentIngress g)))
    (mkAccepted source pkt now :: hist) now.
Proof.
  intros [Hc Hd He Hl Ho Ht Hs] Eo.
  split; cbn [with_ingress with_owners owners recentIngress callTimeout dedupTTL echoTTL]; try done.
  - by rewrite length_insert.
  - intros slot. rewrite last_on_cons. cbn.
    destruct (eqb_spec (Slot pkt) slot) as [<- | Hne].
    + exists o. split; [apply list_lookup_insert_eq; rewrite Hl; destruct (Slot pkt); cbn; lia |].
      unfold owner_ok. cbn. subst o. destruct (isTerminator pkt); [done | by left].
    + destruct (Ho slot) as (o' & Hlk & Hok). exists o'. split; [| done].
      rewrite list_lookup_insert_ne; [done |]. by destruct (Slot pkt), slot.
  - intros a Ha. apply elem_of_cons in Ha as [-> | Ha]; [cbn; lia | auto].
  - intros a Ha. destruct (decide (ingress_key (acc_source a) (acc_pkt a) = ingress_key source pkt)) as [E | E].
    + left. exists now. rewrite E, lookup_insert_eq. split; [done |].
      apply elem_of_cons in Ha as [-> | Ha]; [cbn; lia | auto].
    + apply elem_of_cons in Ha as [-> | Ha]; [by destruct E |].
      destruct (Hs a Ha) as [(ts & Hlk & Hts) | H]; [| by right].
      left. exists ts. by rewrite lookup_insert_ne.
Qed.

Lemma with_owners_same g idx :
  (idx < length (owners g))%nat -> owners g !! idx = Some None ->
  with_owners g (<[idx := None]> (owners g)) = g.
Proof. intros Hl E. rewrite list_insert_id by done. by destruct g. Qed.

Lemma allowSlot_inv g hist now source pkt :
  (forall idx o, owners g !! idx = Some (Some o) ->
     (callTimeout g <? time_sub now (co_lastSeen o)) = false) ->
  guard_inv g hist now ->
  let '(g', ok) := allowSlot g source (ingress_key source pkt) pkt now in
  guard_inv g' (if ok then mkAccepted source pkt now :: hist else hist) now.
Proof.
  intros Hfresh Hinv. unfold allowSlot. fold (slot_idx (Slot pkt)).
  destruct (gi_owner _ _ _ Hinv (Slot pkt)) as (o & Hlk & _). rewrite Hlk.
  pose proof (gi_len _ _ _ Hinv) as Hlen.
  destruct o as [o |].
  - rewrite (Hfresh _ _ Hlk). destruct (bool_decide_reflect (co_source o = source)) as [Es | Es]; cbn [negb]; [| done].
    pose proof (accept_inv g hist now source pkt _ Hinv eq_refl) as H. rewrite Es.
    destruct (isTerminator pkt); [| exact H]. cbn. rewrite list_insert_insert_eq. exact H.
  - pose proof (accept_inv g hist now source pkt _ Hinv eq_refl) as H.
    destruct (isTerminator pkt); [| exact H].
    rewrite with_owners_same in H; [exact H | rewrite Hlen; destruct (Slot pkt); cbn; lia | done].
Qed.

Lemma AllowIngress_inv g hist tl source pkt now :
  tl <= now -> guard_inv g hist tl ->
  let '(g', ok) := AllowIngress g source pkt now in
  guard_inv g' (if ok then mkAccepted source pkt now :: hist else hist) now.
Proof.
  intros Hle Hinv0. unfold AllowIngress.
  pose proof (evict_inv g hist tl now Hle Hinv0) as Hinv.
  pose proof (evict_fresh_owner g now) as Hfresh.
  set (g1 := evictExpired g now) in *. change (callTimeout g) with (callTimeout g1) in Hfresh.
  destruct (recent (recentEgress g1) _ _ _); [done |].
  destruct (recent (recentIngress g1) _ _ _); [done |].
  destruct (GroupCall pkt && negb (Dst pkt =? 0)); [| by apply allowSlot_inv].
  destruct (allowGroup_frame g1 source pkt now) as (E1 & E2 & E3 & E4 & E5 & _).
  destruct (allowGroupLocked g1 source pkt now) as [g2 ok]. cbn [fst] in *.
  assert (Hinv2 : guard_inv g2 hist now) by (by apply (guard_inv_frame g1)).
  destruct ok; cbn [negb]; [| done]. apply allowSlot_inv; [| done].
  rewrite E1, E4. exact Hfresh.
Qed.

Lemma gstep_inv g hist tl e :
  tl <= event_time e -> guard_inv g hist tl ->
  guard_inv (fst (gstep (g, hist) e)) (snd (gstep (g, hist) e)) (event_time e).
Proof.
  intros Hle Hinv. destruct e as [source pkt now | target pkt now]; cbn in *.
  - pose proof (AllowIngress_inv g hist tl source pkt now Hle Hinv) as H.
    by destruct (AllowIngress g source pkt now) as [g' ok].
  - pose proof (evict_inv g hist tl now Hle Hinv) as H.
    by apply (guard_inv_frame (evictExpired g now)).
Qed.

Lemma NewGuard_inv tl : guard_inv NewGuard [] tl.
Proof.
  split; try done.
  - intros slot. exists None. by destruct slot.
  - intros a Ha. by apply not_elem_of_nil in Ha.
  - intros a Ha. by apply not_elem_of_nil in Ha.
Qed.

Lemma foldl_gstep_inv es g hist tl :
  ordered tl es -> guard_inv g hist tl ->
  guard_inv (fst (foldl gstep (g, hist) es)) (snd (foldl gstep (g, hist) es))
    (foldl (fun _ e => event_time e) tl es).
Proof.
  revert g hist tl. induction es as [| e es IH]; intros g hist tl Hord Hinv; [done |].
  destruct Hord as [Hle Hord]. cbn [foldl].
  pose proof (gstep_inv g hist tl e Hle Hinv) as H.
  destruct (gstep (g, hist) e) as [g' hist']. by apply IH.
Qed.

(** ** What an acceptance means *)

Lemma accepted_checks g source pkt now :
  snd (AllowIngress g source pkt now) = true ->
  recentIngress (evictExpired g now) !! ingress_key source pkt = None /\
  forall o, owners (evictExpired g now) !! slot_idx (Slot pkt) = Some (Some o) -> co_source o = source.
Proof.
  unfold AllowIngress. set (g1 := evictExpired g now).
  destruct (recent (recentEgress g1) _ _ _); [done |].
  destruct (recent (recentIngress g1) (ingress_key source pkt) now (dedupTTL g1)) eqn:Er; [done |].
  intros Hacc. split; [by apply (evict_fresh_key g now) |]. intros o Ho.
  assert (Hslot : forall g2, owners g2 = owners g1 -> callTimeout g2 = callTimeout g1 ->
    snd (allowSlot g2 source (ingress_key source pkt) pkt now) = true -> co_source o = source).
  { intros g2 E1 E2. unfold allowSlot. fold (slot_idx (Slot pkt)). rewrite E1, E2, Ho.
    rewrite (evict_fresh_owner g now _ _ Ho : (callTimeout g1 <? _) = false).
    by destruct (bool_decide_reflect (co_source o = source)). }
  destruct (GroupCall pkt && negb (Dst pkt =? 0)); [| by apply (Hslot g1)].
  destruct (allowGroup_frame g1 source pkt now) as (E1 & _ & _ & E4 & _).
  destruct (allowGroupLocked g1 source pkt now) as [g2 ok]. destruct ok; [| done].
  by apply (Hslot g2).
Qed.

Lemma same_frame_key source p q : same_frame p q -> ingress_key source p = ingress_key source q.
Proof.
  intros (E1 & E2 & E3 & E4 & E5 & E6 & E7 & E8). unfold ingress_key, fingerprint, fingerprint_fields.
  by rewrite E1, E2, E3, E4, E5, E6, E7, E8.
Qed.

(** ** Echo entries *)

Definition egress_after (key : string) (t0 : time) (g : Guard) : Prop :=
  echoTTL g = defaultEchoTTL /\ exists ts, recentEgress g !! key = Some ts /\ t0 <= ts.

Lemma evict_egress key t0 g now :
  now - t0 <= defaultEchoTTL -> egress_after key t0 g -> egress_after key t0 (evictExpired g now).
Proof.
  intros Hnow [He (ts & Hlk & Hts)]. split; [done |]. exists ts. split; [| done]. cbn.
  apply map_lookup_filter_Some_2; [done |]. cbn. rewrite He.
  destruct (defaultEchoTTL <? time_sub now ts) eqn:E; [| done].
  rewrite sub_gt in E by (unfold defaultEchoTTL, defaultGroupTTL, second, millisecond; lia). lia.
Qed.

Lemma AllowIngress_egress g source pkt now :
  recentEgress (fst (AllowIngress g source pkt now)) = recentEgress (evictExpired g now) /\
  echoTTL (fst (AllowIngress g source pkt now)) = echoTTL g.
Proof.
  unfold AllowIngress. set (g1 := evictExpired g now).
  assert (Hslot : forall g2, recentEgress g2 = recentEgress g1 -> echoTTL g2 = echoTTL g ->
    recentEgress (fst (allowSlot g2 source (ingress_key source pkt) pkt now)) = recentEgress g1 /\
    echoTTL (fst (allowSlot g2 source (ingress_key source pkt) pkt now)) = echoTTL g).
  { intros g2 E1 E2. unfold allowSlot. destruct (owners g2 !! _) as [[o |] |].
    - destruct (_ <? _); [destruct (isTerminator pkt); done |]. destruct (negb _); [done |].
      by destruct (isTerminator pkt).
    - by destruct (isTerminator pkt).
    - by destruct (isTerminator pkt). }
  destruct (recent (recentEgress g1) _ _ _); [done |].
  destruct (recent (recentIngress g1) _ _ _); [done |].
  destruct (GroupCall pkt && negb (Dst pkt =? 0)); [| by apply Hslot].
  destruct (allowGroup_frame g1 source pkt now) as (_ & _ & E3 & _ & _ & E6).
  destruct (allowGroupLocked g1 source pkt now) as [g2 ok]. cbn [fst] in *.
  destruct ok; [by apply Hslot | done].
Qed.

Lemma gstep_egress key t0 g hist e :
  t0 <= event_time e -> event_time e - t0 <= defaultEchoTTL ->
  egress_after key t0 g -> egress_after key t0 (fst (gstep (g, hist) e)).
Proof.
  intros Hge Hle H. pose proof (evict_egress key t0 g (event_time e) Hle H) as Hev.
  destruct e as [source pkt now | target pkt now]; cbn in *.
  - destruct (AllowIngress_egress g source pkt now) as [E1 E2].
    destruct (AllowIngress g source pkt now) as [g' ok]. cbn in *.
    unfold egress_after. rewrite E1, E2. exact Hev.
  - destruct Hev as [He (ts & Hlk & Hts)]. split; [done |]. unfold MarkForwarded. cbn.
    destruct (decide (echo_key target pkt = key)) as [<- | Hne].
    + exists now. by rewrite lookup_insert_eq.
    + exists ts. by rewrite lookup_insert_ne.
Qed.

Lemma trace_egress key t0 es tl g hist :
  ordered tl es -> t0 <= tl -> (foldl (fun _ e => event_time e) tl es) - t0 <= defaultEchoTTL ->
  egress_after key t0 g -> egress_after key t0 (fst (foldl gstep (g, hist) es)).
Proof.
  revert tl g hist. induction es as [| e es IH]; intros tl g hist Hord Ht0 Hend Hg; [done |].
  destruct Hord as [Hle Hord]. cbn [foldl] in *.
  assert (Hlast : forall es t, ordered t es -> t <= foldl (fun _ e => event_time e) t es).
  { clear. induction es as [| e es IH]; intros t H; cbn; [lia |]. destruct H as [H1 H2].
    specialize (IH _ H2). lia. }
  pose proof (Hlast es _ Hord) as He.
  assert (Hg' : egress_after key t0 (fst (gstep (g, hist) e))) by (apply gstep_egress; [lia | lia | done]).
  destruct (gstep (g, hist) e) as [g' hist']. by apply (IH (event_time e)); [| lia | |].
Qed.

Lemma trace_now es tl source pkt now :
  ordered tl (es ++ [EvIngress source pkt now]) ->
  foldl (fun _ e => event_time e) tl es <= now /\
  guard_inv (fst (grun es)) (snd (grun es)) (foldl (fun _ e => event_time e) tl es).
Proof.
  intros Hord.
  assert (H : forall l t, ordered t (l ++ [EvIngress source pkt now]) ->
    ordered t l /\ foldl (fun _ e => event_time e) t l <= now).
  { clear. induction l as [| e l IH]; intros t H; cbn in *; [tauto |].
    destruct H as [H1 H2]. destruct (IH _ H2). tauto. }
  destruct (H es tl Hord) as [Ho Hle]. split; [done |].
  by apply foldl_gstep_inv; [| apply NewGuard_inv].
Qed.

(** ** Properties *)

(** C5: a timeslot belongs to one source at a time: in any sequence of calls, a
    packet is accepted while another source's call is open on its slot (its
    last accepted packet is not a terminator) only when that call has been
    silent for longer than the call timeout. *)
Theorem slot_exclusive es tl source pkt now a :
  ordered tl (es ++ [EvIngress source pkt now]) ->
  last_on (Slot pkt) (snd (grun es)) = Some a ->
  isTerminator (acc_pkt a) = false -> acc_source a <> source ->
  snd (AllowIngress (fst (grun es)) source pkt now) = true ->
  now - acc_time a > defaultCallTimeout.
Proof.
  intros Hord Hlast Hterm Hne Hacc.
  destruct (trace_now es tl source pkt now Hord) as [Hle Hinv].
  destruct (accepted_checks _ _ _ _ Hacc) as [_ Hown].
  destruct (gi_owner _ _ _ (evict_inv _ _ _ now Hle Hinv) (Slot pkt)) as (o & Hlk & Hok).
  rewrite Hlast in Hok. unfold owner_ok in Hok. rewrite Hterm in Hok.
  destruct Hok as [-> | [_ H]]; [| done]. specialize (Hown _ Hlk). by destruct Hne.
Qed.

(** no duplicate gets through: a packet that repeats an accepted packet of
    the same source (same sequence number, slot, identifiers, stream, frame
    type and payload) is accepted only after the deduplication window. *)
Theorem ingress_dedup es tl source pkt now a :
  ordered tl (es ++ [EvIngress source pkt now]) ->
  a ∈ snd (grun es) -> acc_source a = source -> same_frame (acc_pkt a) pkt ->
  snd (AllowIngress (fst (grun es)) source pkt now) = true ->
  now - acc_time a > defaultDedupTTL.
Proof.
  intros Hord Ha Hs Hsame Hacc.
  destruct (trace_now es tl source pkt now Hord) as [Hle Hinv].
  destruct (accepted_checks _ _ _ _ Hacc) as [Hkey _].
  destruct (gi_seen _ _ _ (evict_inv _ _ _ now Hle Hinv) a Ha) as [(ts & Hlk & _) | H]; [| done].
  subst source. rewrite (same_frame_key _ _ _ Hsame) in Hlk.
  by pose proof (eq_trans (eq_sym Hkey) Hlk).
Qed.

(** a packet forwarded to a frontend and coming back under the same name
    within the echo window is rejected, whatever happened in between. *)
Theorem echo_suppressed g hist name p q es t0 tl now :
  echoTTL g = defaultEchoTTL -> same_frame p q -> t0 <= tl -> ordered tl es ->
  foldl (fun _ e => event_time e) tl es <= now -> now - t0 <= defaultEchoTTL ->
  let g' := fst (foldl gstep (MarkForwarded g name p t0, hist) es) in
  snd (AllowIngress g' name q now) = false.
Proof.
  intros He Hsame Ht0 Hord Hend Hnow g'.
  assert (Hkey : echo_key name p = echo_key name q).
  { destruct Hsame as (E1 & E2 & E3 & E4 & E5 & E6 & E7 & E8).
    unfold echo_key, fingerprint, fingerprint_fields. by rewrite E1, E2, E3, E4, E5, E6, E7, E8. }
  assert (H0 : egress_after (echo_key name q) t0 (MarkForwarded g name p t0)).
  { split; [done |]. exists t0. split; [| lia]. unfold MarkForwarded. cbn. rewrite Hkey.
    by rewrite lookup_insert_eq. }
  pose proof (trace_egress _ t0 es tl _ hist Hord Ht0 ltac:(lia) H0) as H. fold g' in H.
  apply (evict_egress _ _ _ now Hnow) in H as [Httl (ts & Hlk & Hts)].
  assert (Hrec : recent (recentEgress (evictExpired g' now)) (echo_key name q) now
    (echoTTL (evictExpired g' now)) = true); [| unfold AllowIngress; by rewrite Hrec].
  rewrite Httl. unfold recent.
  replace (recentEgress (evictExpired g' now) !! echo_key name q) with (Some ts) by (symmetry; exact Hlk).
  destruct (Z.leb_spec (time_sub now ts) defaultEchoTTL) as [| Hgt]; [done |].
  exfalso. apply Z.ltb_lt in Hgt.
  rewrite sub_gt in Hgt by (unfold defaultEchoTTL, defaultGroupTTL, second, millisecond; lia). lia.
Qed.

(** the keys of the guard identify source and frame exactly: two keys are
    equal precisely when the sources are equal and the packets agree in every
    field the fingerprint shows, so a name is never confused with a part of
    another key. *)
Theorem ingress_key_injective s1 s2 p q :
  Forall is_byte (DMRData p) -> Forall is_byte (DMRData q) ->
  (ingress_key s1 p = ingress_key s2 q <-> s1 = s2 /\ same_frame p q) /\
  (echo_key s1 p = echo_key s2 q <-> s1 = s2 /\ same_frame p q).
Proof.
  intros Hp Hq. split; split.
  - by apply key_inj.
  - intros [-> H]. by apply same_frame_key.
  - by apply key_inj.
  - intros [-> (E1 & E2 & E3 & E4 & E5 & E6 & E7 & E8)].
    unfold echo_key, fingerprint, fingerprint_fields. by rewrite E1, E2, E3, E4, E5, E6, E7, E8.
Qed.

(** ** Witnesses *)

Definition voice (slot : bool) (src dst : Z) : Packet :=
  mkPacket [68; 77; 82; 68] 1 src dst 1 slot true 1 0 77 (replicate 33 0).

Lemma slot_exclusive_witness : 1300000000 - 1 > defaultCallTimeout.
Proof.
  apply (slot_exclusive [EvIngress "a" (voice false 1 9) 1] 0 "b" (voice false 2 10) 1300000000
    (mkAccepted "a" (voice false 1 9) 1)); try (vm_compute; reflexivity).
  - cbn. lia.
  - discriminate.
Defined.

Lemma ingress_dedup_witness : 500000000 - 1 > defaultDedupTTL.
Proof.
  apply (ingress_dedup [EvIngress "a" (voice false 1 9) 1] 0 "a" (voice false 1 9) 500000000
    (mkAccepted "a" (voice false 1 9) 1)).
  - cbn. lia.
  - vm_compute. left.
  - reflexivity.
  - repeat split.
  - vm_compute. reflexivity.
Defined.

Lemma echo_suppressed_witness :
  snd (AllowIngress (MarkForwarded NewGuard "hytera" (voice false 1 9) 1) "hytera" (voice false 1 9) 5)
  = false.
Proof.
  apply (echo_suppressed NewGuard [] "hytera" (voice false 1 9) (voice false 1 9) [] 1 1 5);
    done || lia.
Defined.

Lemma ingress_key_injective_witness :
  ingress_key "a" (voice false 1 9) = ingress_key "a" (voice false 1 9) <->
  "a"%string = "a"%string /\ same_frame (voice false 1 9) (voice false 1 9).
Proof. apply (ingress_key_injective "a" "a" (voice false 1 9) (voice false 1 9)); by_eval. Defined.

(** A packet the slot check rejects has already claimed its talkgroup: after
    source "b" is turned away from slot 1, source "c" cannot use talkgroup 10
    on the free slot 2, where it could have without the rejected packet. *)
Theorem rejected_packet_claims_group :
  let g0 := fst (AllowIngress NewGuard "a" (voice false 1 9) 1) in
  let g1 := fst (AllowIngress g0 "b" (voice false 2 10) 2) in
  snd (AllowIngress g0 "b" (voice false 2 10) 2) = false /\
  co_source <$> groupOwners g1 !! 10 = Some "b"%string /\
  snd (AllowIngress g1 "c" (voice true 3 10) 3) = false /\
  snd (AllowIngress g0 "c" (voice true 3 10) 3) = true.
Proof. vm_compute. repeat split. Qed.
