(* ===== verification/Routing.v ===== *)
(** * Talkgroup subscriptions (internal/routing/subscriptions.go)

    Each device subscribes to talkgroups per slot, statically or for a limited
    time.  The manager keeps the subscriptions per device and two indexes per
    (slot, talkgroup); routes are resolved from the indexes.

    Go maps are [gmap]; a Go map is iterated in an order the program does not
    depend on, here the order of the map's elements.  An operation that is
    called with the zero time reads the clock: the reading is [clock]. *)

From S2P Require Import Prelude.

Definition Slot1 : Z := 1.
Definition Slot2 : Z := 2.

Inductive SubscriptionKind := SubscriptionDynamic | SubscriptionStatic.

#[export] Instance SubscriptionKind_eq_dec : EqDecision SubscriptionKind.
Proof. solve_decision. Defined.

Record GroupSubscription := mkSub {
  GroupID : Z;
  Kind : SubscriptionKind;
  ExpiresAt : time
}.

Record TargetRoute := mkRoute { DeviceKey : string; RSlot : Z }.

#[export] Instance TargetRoute_eq_dec : EqDecision TargetRoute.
Proof. solve_decision. Defined.
#[export] Instance TargetRoute_countable : Countable TargetRoute.
Proof.
  refine (inj_countable' (fun r => (DeviceKey r, RSlot r)) (fun p => mkRoute (fst p) (snd p)) _).
  by intros [].
Defined.

Record deviceState := mkDevice {
  static : gmap Z (gset Z);
  dynamic : gmap Z (gmap Z time)
}.

(** The key of an index. *)
Record routeKey := mkKey { rk_slot : Z; rk_group : Z }.

#[export] Instance routeKey_eq_dec : EqDecision routeKey.
Proof. solve_decision. Defined.
#[export] Instance routeKey_countable : Countable routeKey.
Proof.
  refine (inj_countable' (fun k => (rk_slot k, rk_group k)) (fun p => mkKey (fst p) (snd p)) _).
  by intros [].
Defined.

Record SubscriptionManager := mkSubs {
  dynamicTTL : Z;
  devices : gmap string deviceState;
  staticIndex : gmap routeKey (gset string);
  dynamicIndex : gmap routeKey (gmap string time)
}.

Definition NewSubscriptionManager (ttl : Z) : SubscriptionManager :=
  mkSubs (if ttl <=? 0 then 5 * minute else ttl) ∅ ∅ ∅.

Definition with_devices (m : SubscriptionManager) d := mkSubs (dynamicTTL m) d (staticIndex m) (dynamicIndex m).
Definition with_static (m : SubscriptionManager) i := mkSubs (dynamicTTL m) (devices m) i (dynamicIndex m).
Definition with_dynamic (m : SubscriptionManager) i := mkSubs (dynamicTTL m) (devices m) (staticIndex m) i.

Definition validSlot (slot : Z) : bool := (slot =? Slot1) || (slot =? Slot2).

(** [now], or the clock when the caller passed the zero time. *)
Definition now_or (now clock : time) : time := if time_is_zero now then clock else now.

Definition uniqueGroups (groups : list Z) : list Z :=
  merge_sort Z.le (elements (list_to_set (C := gset Z) (filter (fun g => g <> 0) groups))).

Definition new_device : deviceState :=
  mkDevice {[Slot1 := ∅; Slot2 := ∅]} {[Slot1 := ∅; Slot2 := ∅]}.

Definition getOrCreateLocked (m : SubscriptionManager) (deviceKey : string)
    : SubscriptionManager * deviceState :=
  match devices m !! deviceKey with
  | Some st => (m, st)
  | None => (with_devices m (<[deviceKey := new_device]> (devices m)), new_device)
  end.

Definition addStaticIndexLocked (deviceKey : string) (slot : Z) (m : SubscriptionManager) (groupID : Z)
    : SubscriptionManager :=
  let key := mkKey slot groupID in
  let devs := default ∅ (staticIndex m !! key) in
  with_static m (<[key := {[deviceKey]} ∪ devs]> (staticIndex m)).

Definition removeStaticIndexLocked (deviceKey : string) (slot : Z) (m : SubscriptionManager) (groupID : Z)
    : SubscriptionManager :=
  let key := mkKey slot groupID in
  match staticIndex m !! key with
  | None => m
  | Some devs =>
      let devs := devs ∖ {[deviceKey]} in
      if decide (devs = ∅) then with_static m (delete key (staticIndex m))
      else with_static m (<[key := devs]> (staticIndex m))
  end.

(** [delete(st.dynamic[slot], groupID)] *)
Definition drop_subscription (m : SubscriptionManager) (deviceKey : string) (slot groupID : Z)
    : SubscriptionManager :=
  match devices m !! deviceKey with
  | Some st =>
      match dynamic st !! slot with
      | Some groups =>
          with_devices m (<[deviceKey :=
            mkDevice (static st) (<[slot := delete groupID groups]> (dynamic st))]> (devices m))
      | None => m
      end
  | None => m
  end.

Definition removeDynamicLocked (m : SubscriptionManager) (deviceKey : string) (slot groupID : Z)
    : SubscriptionManager :=
  let m := drop_subscription m deviceKey slot groupID in
  let key := mkKey slot groupID in
  match dynamicIndex m !! key with
  | None => m
  | Some devs =>
      let devs := delete deviceKey devs in
      if decide (devs = ∅) then with_dynamic m (delete key (dynamicIndex m))
      else with_dynamic m (<[key := devs]> (dynamicIndex m))
  end.

Definition ReplaceStatic (m : SubscriptionManager) (deviceKey : string) (slot : Z) (groups : list Z)
    : SubscriptionManager :=
  if bool_decide (deviceKey = ""%string) || negb (validSlot slot) then m
  else
    let unique := uniqueGroups groups in
    let '(m, st) := getOrCreateLocked m deviceKey in
    let old := default ∅ (static st !! slot) in
    let m := foldl (removeStaticIndexLocked deviceKey slot) m (elements old) in
    let m := foldl (addStaticIndexLocked deviceKey slot) m unique in
    let next := list_to_set unique in
    with_devices m (<[deviceKey := mkDevice (<[slot := next]> (static st)) (dynamic st)]> (devices m)).

Definition ActivateDynamic (m : SubscriptionManager) (deviceKey : string) (slot groupID : Z)
    (now clock : time) : SubscriptionManager * time :=
  if bool_decide (deviceKey = ""%string) || negb (validSlot slot) || (groupID =? 0) then (m, 0)
  else
    let now := now_or now clock in
    let expiresAt := now + dynamicTTL m in
    let '(m, st) := getOrCreateLocked m deviceKey in
    if decide (groupID ∈ default ∅ (static st !! slot)) then
      (removeDynamicLocked m deviceKey slot groupID, 0)
    else
      let groups := default ∅ (dynamic st !! slot) in
      let m := with_devices m (<[deviceKey :=
        mkDevice (static st) (<[slot := <[groupID := expiresAt]> groups]> (dynamic st))]> (devices m)) in
      let key := mkKey slot groupID in
      let devs := default ∅ (dynamicIndex m !! key) in
      (with_dynamic m (<[key := <[deviceKey := expiresAt]> devs]> (dynamicIndex m)), expiresAt).

Definition RemoveDynamic (m : SubscriptionManager) (deviceKey : string) (slot groupID : Z)
    : SubscriptionManager :=
  if bool_decide (deviceKey = ""%string) || negb (validSlot slot) || (groupID =? 0) then m
  else removeDynamicLocked m deviceKey slot groupID.

Definition RemoveDevice (m : SubscriptionManager) (deviceKey : string) : SubscriptionManager :=
  if bool_decide (deviceKey = ""%string) then m
  else
    match devices m !! deviceKey with
    | None => m
    | Some st =>
        let m := foldl (fun m '(slot, groups) =>
          foldl (removeStaticIndexLocked deviceKey slot) m (elements groups)) m (map_to_list (static st)) in
        let m := foldl (fun m '(slot, groups) =>
          foldl (fun m '(groupID, _) => removeDynamicLocked m deviceKey slot groupID) m (map_to_list groups))
          m (map_to_list (dynamic st)) in
        with_devices m (delete deviceKey (devices m))
    end.

(** A dynamic subscription that is over. *)
Definition over (expiresAt now : time) : bool := time_is_zero expiresAt || negb (now <? expiresAt).

(** One slot of [ResolveRoutes]: expired entries are removed on the way. *)
Definition resolve_slot (sourceDevice : string) (groupID : Z) (now : time)
    (acc : SubscriptionManager * gset TargetRoute) (slot : Z) : SubscriptionManager * gset TargetRoute :=
  let '(m, targets) := acc in
  let key := mkKey slot groupID in
  let targets := foldl (fun targets deviceKey =>
      if bool_decide (deviceKey = sourceDevice) then targets
      else {[mkRoute deviceKey slot]} ∪ targets)
    targets (elements (default ∅ (staticIndex m !! key))) in
  foldl (fun '(m, targets) '(deviceKey, expiresAt) =>
      if over expiresAt now then (removeDynamicLocked m deviceKey slot groupID, targets)
      else if bool_decide (deviceKey = sourceDevice) then (m, targets)
      else (m, {[mkRoute deviceKey slot]} ∪ targets))
    (m, targets) (map_to_list (default ∅ (dynamicIndex m !! key))).

(** The order of [sort.Slice]: device key, then slot. *)
Definition route_le (a b : TargetRoute) : Prop :=
  (DeviceKey a = DeviceKey b /\ RSlot a <= RSlot b) \/
  (DeviceKey a <> DeviceKey b /\ String.le (DeviceKey a) (DeviceKey b)).

#[export] Instance route_le_dec : RelDecision route_le.
Proof. unfold route_le. intros a b. apply _. Defined.

Definition ResolveRoutes (m : SubscriptionManager) (sourceDevice : string) (groupID : Z)
    (now clock : time) : SubscriptionManager * list TargetRoute :=
  if groupID =? 0 then (m, [])
  else
    let now := now_or now clock in
    let '(m, targets) := foldl (resolve_slot sourceDevice groupID now) (m, ∅) [Slot1; Slot2] in
    (m, merge_sort route_le (elements targets)).

Definition Expire (m : SubscriptionManager) (now clock : time) : SubscriptionManager :=
  let now := now_or now clock in
  foldl (fun m '(deviceKey, st) =>
    foldl (fun m '(slot, groups) =>
      foldl (fun m '(groupID, expiresAt) =>
        if time_is_zero expiresAt || (now <? expiresAt) then m
        else removeDynamicLocked m deviceKey slot groupID) m (map_to_list groups))
      m (map_to_list (dynamic st)))
    m (map_to_list (devices m)).

(** The order of a snapshot: talkgroup, then kind ("dynamic" < "static"). *)
Definition kind_rank (k : SubscriptionKind) : Z :=
  match k with SubscriptionDynamic => 0 | SubscriptionStatic => 1 end.
Definition sub_le (a b : GroupSubscription) : Prop :=
  GroupID a < GroupID b \/ (GroupID a = GroupID b /\ kind_rank (Kind a) <= kind_rank (Kind b)).
#[export] Instance sub_le_dec : RelDecision sub_le.
Proof. unfold sub_le. intros a b. apply _. Defined.

Definition snapshot_slot (deviceKey : string) (now : time)
    (m : SubscriptionManager) (st : deviceState) (slot : Z) : SubscriptionManager * list GroupSubscription :=
  let out := (fun g => mkSub g SubscriptionStatic 0) <$> elements (default ∅ (static st !! slot)) in
  let '(m, out) := foldl (fun '(m, out) '(groupID, expiresAt) =>
      if over expiresAt now then (removeDynamicLocked m deviceKey slot groupID, out)
      else (m, out ++ [mkSub groupID SubscriptionDynamic expiresAt]))
    (m, out) (map_to_list (default ∅ (dynamic st !! slot))) in
  (m, merge_sort sub_le out).

(** The snapshot of a device: its subscriptions on slot 1 and on slot 2. *)
Definition snapshotDeviceLocked (m : SubscriptionManager) (deviceKey : string) (now : time)
    : SubscriptionManager * (list GroupSubscription * list GroupSubscription) :=
  match devices m !! deviceKey with
  | None => (m, ([], []))
  | Some st =>
      let '(m, s1) := snapshot_slot deviceKey now m st Slot1 in
      let st := default new_device (devices m !! deviceKey) in
      let '(m, s2) := snapshot_slot deviceKey now m st Slot2 in
      (m, (s1, s2))
  end.

Definition SnapshotDevice (m : SubscriptionManager) (deviceKey : string) (now clock : time) :=
  snapshotDeviceLocked m deviceKey (now_or now clock).

Definition SnapshotAll (m : SubscriptionManager) (now clock : time)
    : SubscriptionManager * gmap string (list GroupSubscription * list GroupSubscription) :=
  let now := now_or now clock in
  foldl (fun '(m, out) deviceKey =>
    let '(m, snap) := snapshotDeviceLocked m deviceKey now in (m, <[deviceKey := snap]> out))
    (m, ∅) (fst <$> map_to_list (devices m)).

(** ** Views *)

(** The subscriptions of a device and the entries of the indexes, where an
    absent map is an empty one. *)
Definition static_of (m : SubscriptionManager) (d : string) (s : Z) : gset Z :=
  default ∅ (devices m !! d ≫= fun st => static st !! s).
Definition dynamic_of (m : SubscriptionManager) (d : string) (s : Z) : gmap Z time :=
  default ∅ (devices m !! d ≫= fun st => dynamic st !! s).
Definition sindex (m : SubscriptionManager) (k : routeKey) : gset string := default ∅ (staticIndex m !! k).
Definition dindex (m : SubscriptionManager) (k : routeKey) : gmap string time :=
  default ∅ (dynamicIndex m !! k).

(** The indexes are exactly the inverse of the per-device subscriptions, and
    hold no empty sets. *)
Record subs_inv (m : SubscriptionManager) : Prop := {
  inv_static d s g : g ∈ static_of m d s <-> d ∈ sindex m (mkKey s g);
  inv_dynamic d s g : dynamic_of m d s !! g = dindex m (mkKey s g) !! d;
  inv_sindex k : staticIndex m !! k <> Some ∅;
  inv_dindex k : dynamicIndex m !! k <> Some ∅
}.

(** The half of the invariant about dynamic subscriptions. *)
Definition dyn_inv (m : SubscriptionManager) : Prop :=
  (forall d s g, dynamic_of m d s !! g = dindex m (mkKey s g) !! d) /\
  (forall k, dynamicIndex m !! k <> Some ∅).

(** ** The index operations *)

Lemma addStatic_view d s m g :
  let m' := addStaticIndexLocked d s m g in
  devices m' = devices m /\ dynamicIndex m' = dynamicIndex m /\
  (forall k, sindex m' k = if decide (k = (mkKey s g)) then {[d]} ∪ sindex m k else sindex m k) /\
  ((forall k, staticIndex m !! k <> Some ∅) -> forall k, staticIndex m' !! k <> Some ∅).
Proof.
  cbn zeta. unfold addStaticIndexLocked, sindex, with_static. cbn. split_ands; [done | done | |].
  - intros k. destruct (decide (k = (mkKey s g))) as [-> | Hne];
      [by rewrite lookup_insert_eq | by rewrite lookup_insert_ne].
  - intros H k. destruct (decide (k = (mkKey s g))) as [-> | Hne];
      [rewrite lookup_insert_eq; intros [= E]; set_solver | by rewrite lookup_insert_ne].
Qed.

Lemma removeStatic_view d s m g :
  let m' := removeStaticIndexLocked d s m g in
  devices m' = devices m /\ dynamicIndex m' = dynamicIndex m /\
  (forall k, sindex m' k = if decide (k = (mkKey s g)) then sindex m k ∖ {[d]} else sindex m k) /\
  ((forall k, staticIndex m !! k <> Some ∅) -> forall k, staticIndex m' !! k <> Some ∅).
Proof.
  cbn zeta. unfold removeStaticIndexLocked, sindex.
  destruct (staticIndex m !! (mkKey s g)) as [devs |] eqn:E.
  - destruct (decide (devs ∖ {[d]} = ∅)) as [Hemp | Hemp]; cbn; (split_ands; [done | done | |]).
    + intros k. destruct (decide (k = (mkKey s g))) as [-> | Hne];
        [rewrite lookup_delete_eq, E; cbn; set_solver | by rewrite lookup_delete_ne].
    + intros H k. destruct (decide (k = (mkKey s g))) as [-> | Hne];
        [by rewrite lookup_delete_eq | by rewrite lookup_delete_ne].
    + intros k. destruct (decide (k = (mkKey s g))) as [-> | Hne];
        [by rewrite lookup_insert_eq, E | by rewrite lookup_insert_ne].
    + intros H k. destruct (decide (k = (mkKey s g))) as [-> | Hne];
        [rewrite lookup_insert_eq; intros [= E0]; by apply Hemp | by rewrite lookup_insert_ne].
  - split_ands; [done | done | | done]. intros k. case_decide as Hk; [| done].
    subst k. rewrite E. cbn. by rewrite empty_difference_L.
Qed.

Lemma drop_subscription_view m d s g :
  let m' := drop_subscription m d s g in
  staticIndex m' = staticIndex m /\ dynamicIndex m' = dynamicIndex m /\
  (forall d' s', static_of m' d' s' = static_of m d' s') /\
  (forall d' s', dynamic_of m' d' s' =
     if decide (d' = d /\ s' = s) then delete g (dynamic_of m d' s') else dynamic_of m d' s').
Proof.
  cbn zeta. unfold drop_subscription.
  destruct (devices m !! d) as [st |] eqn:Ed; [destruct (dynamic st !! s) as [gr |] eqn:Es |];
    (split_ands; [done | done | |]); intros d' s'; unfold static_of, dynamic_of; cbn.
  - destruct (decide (d' = d)) as [-> | Hd]; [by rewrite lookup_insert_eq, Ed | by rewrite lookup_insert_ne].
  - destruct (decide (d' = d)) as [-> | Hd].
    + rewrite lookup_insert_eq, Ed. cbn. destruct (decide (s' = s)) as [-> | Hs].
      * rewrite decide_True by done. by rewrite lookup_insert_eq, Es.
      * rewrite decide_False by tauto. by rewrite lookup_insert_ne.
    + rewrite lookup_insert_ne by done. rewrite decide_False by tauto. done.
  - done.
  - case_decide as H; [| done]. destruct H as [-> ->]. rewrite Ed. cbn. rewrite Es. cbn.
    by rewrite delete_empty.
  - done.
  - case_decide as H; [| done]. destruct H as [-> ->]. rewrite Ed. cbn. by rewrite delete_empty.
Qed.

Lemma removeDynamic_devices m d s g :
  devices (removeDynamicLocked m d s g) = devices (drop_subscription m d s g) /\
  staticIndex (removeDynamicLocked m d s g) = staticIndex m.
Proof.
  destruct (drop_subscription_view m d s g) as (E1 & _). unfold removeDynamicLocked.
  destruct (dynamicIndex _ !! _) as [devs |]; [by destruct (decide _) | done].
Qed.

Lemma removeDynamic_index m d s g :
  let m' := removeDynamicLocked m d s g in
  (forall k, dindex m' k = if decide (k = mkKey s g) then delete d (dindex m k) else dindex m k) /\
  ((forall k, dynamicIndex m !! k <> Some ∅) -> forall k, dynamicIndex m' !! k <> Some ∅).
Proof.
  cbn zeta. unfold removeDynamicLocked.
  destruct (drop_subscription_view m d s g) as (_ & E & _ & _). unfold dindex. cbv zeta. rewrite E.
  destruct (dynamicIndex m !! mkKey s g) as [devs |] eqn:Ek.
  - destruct (decide (delete d devs = ∅)) as [Hemp | Hemp]; cbn; rewrite ?E; split.
    + intros k. destruct (decide (k = mkKey s g)) as [-> | Hne];
        [by rewrite lookup_delete_eq, Ek | by rewrite lookup_delete_ne].
    + intros H k. destruct (decide (k = mkKey s g)) as [-> | Hne];
        [by rewrite lookup_delete_eq | by rewrite lookup_delete_ne].
    + intros k. destruct (decide (k = mkKey s g)) as [-> | Hne];
        [by rewrite lookup_insert_eq, Ek | by rewrite lookup_insert_ne].
    + intros H k. destruct (decide (k = mkKey s g)) as [-> | Hne];
        [rewrite lookup_insert_eq; intros [= E0]; by apply Hemp | by rewrite lookup_insert_ne].
  - rewrite E. split; [| done]. intros k. case_decide as Hk; [| done].
    subst k. rewrite Ek. cbn. by rewrite delete_empty.
Qed.

Lemma removeDynamic_view m d s g :
  let m' := removeDynamicLocked m d s g in
  (forall d' s', static_of m' d' s' = static_of m d' s') /\
  (forall d' s', dynamic_of m' d' s' =
     if decide (d' = d /\ s' = s) then delete g (dynamic_of m d' s') else dynamic_of m d' s') /\
  (forall k, sindex m' k = sindex m k).
Proof.
  cbn zeta. destruct (removeDynamic_devices m d s g) as [Ed Es].
  destruct (drop_subscription_view m d s g) as (_ & _ & H1 & H2). split_ands.
  - intros d' s'. rewrite <- H1. unfold static_of. by rewrite Ed.
  - intros d' s'. rewrite <- H2. unfold dynamic_of. by rewrite Ed.
  - intros k. unfold sindex. by rewrite Es.
Qed.

Lemma removeDynamic_dyn_inv m d s g : dyn_inv m -> dyn_inv (removeDynamicLocked m d s g).
Proof.
  intros [H2 H4]. destruct (removeDynamic_view m d s g) as (_ & V2 & _).
  destruct (removeDynamic_index m d s g) as (V4 & V5). split; [| auto].
  intros d' s' g'. rewrite V2, V4.
  destruct (decide (mkKey s' g' = mkKey s g)) as [[= -> ->] | Hne].
  - destruct (decide (d' = d)) as [-> | Hd].
    + rewrite decide_True by done. by rewrite !lookup_delete_eq.
    + rewrite decide_False by tauto. by rewrite lookup_delete_ne.
  - case_decide as Hds; [| done]. destruct Hds as [-> ->].
    rewrite lookup_delete_ne by congruence. done.
Qed.

(** ** Devices *)

Lemma getOrCreate_view m d :
  let '(m', st) := getOrCreateLocked m d in
  devices m' !! d = Some st /\ staticIndex m' = staticIndex m /\ dynamicIndex m' = dynamicIndex m /\
  dynamicTTL m' = dynamicTTL m /\
  (forall d' s', static_of m' d' s' = static_of m d' s') /\
  (forall d' s', dynamic_of m' d' s' = dynamic_of m d' s').
Proof.
  unfold getOrCreateLocked. destruct (devices m !! d) as [st |] eqn:E; [by rewrite E |].
  cbn. rewrite lookup_insert_eq. split_ands; try done; intros d' s'; unfold static_of, dynamic_of; cbn;
    (destruct (decide (d' = d)) as [-> | Hne]; [rewrite lookup_insert_eq, E; cbn | by rewrite lookup_insert_ne]);
    unfold new_device; cbn;
    (destruct (decide (s' = Slot1)) as [-> | H1]; [done |]);
    (destruct (decide (s' = Slot2)) as [-> | H2]; [done |]);
    rewrite !lookup_insert_ne by done; by rewrite lookup_empty.
Qed.

Lemma getOrCreate_inv m d : subs_inv m -> subs_inv (fst (getOrCreateLocked m d)).
Proof.
  intros [H1 H2 H3 H4]. pose proof (getOrCreate_view m d) as V.
  destruct (getOrCreateLocked m d) as [m' st]. destruct V as (_ & E1 & E2 & _ & V1 & V2). cbn [fst].
  split.
  - intros d' s g. rewrite V1. unfold sindex. rewrite E1. apply H1.
  - intros d' s g. rewrite V2. unfold dindex. rewrite E2. apply H2.
  - by rewrite E1.
  - by rewrite E2.
Qed.

(** Loops over the static index. *)
Lemma removeStatic_loop d s gs m :
  let m' := foldl (removeStaticIndexLocked d s) m gs in
  devices m' = devices m /\ dynamicIndex m' = dynamicIndex m /\
  (forall k, sindex m' k = if decide (rk_slot k = s /\ rk_group k ∈ gs) then sindex m k ∖ {[d]} else sindex m k) /\
  ((forall k, staticIndex m !! k <> Some ∅) -> forall k, staticIndex m' !! k <> Some ∅).
Proof.
  revert m. induction gs as [| g gs IH]; intros m; cbn [foldl].
  - split_ands; try done. intros k. rewrite decide_False; [done |]. intros [_ H]. by apply not_elem_of_nil in H.
  - destruct (IH (removeStaticIndexLocked d s m g)) as (A1 & A2 & A3 & A4).
    destruct (removeStatic_view d s m g) as (B1 & B2 & B3 & B4).
    split_ands; [by rewrite A1 | by rewrite A2 | | auto].
    intros [ks kg]. rewrite A3, B3. cbn [rk_slot rk_group].
    destruct (decide (ks = s)) as [-> | Hs].
    + destruct (decide (kg = g)) as [-> | Hg].
      * rewrite (decide_True (P := mkKey s g = mkKey s g)) by done.
        rewrite (decide_True (P := s = s /\ g ∈ g :: gs)) by (split; [done | by left]).
        case_decide; [set_solver | done].
      * rewrite (decide_False (P := mkKey s kg = mkKey s g)) by congruence.
        destruct (decide (s = s /\ kg ∈ gs)) as [H | H].
        -- rewrite decide_True; [done |]. split; [done |]. right. apply H.
        -- rewrite decide_False; [done |]. rewrite elem_of_cons. tauto.
    + rewrite !decide_False; [done | tauto | congruence | tauto].
Qed.

Lemma addStatic_loop d s gs m :
  let m' := foldl (addStaticIndexLocked d s) m gs in
  devices m' = devices m /\ dynamicIndex m' = dynamicIndex m /\
  (forall k, sindex m' k = if decide (rk_slot k = s /\ rk_group k ∈ gs) then {[d]} ∪ sindex m k else sindex m k) /\
  ((forall k, staticIndex m !! k <> Some ∅) -> forall k, staticIndex m' !! k <> Some ∅).
Proof.
  revert m. induction gs as [| g gs IH]; intros m; cbn [foldl].
  - split_ands; try done. intros k. rewrite decide_False; [done |]. intros [_ H]. by apply not_elem_of_nil in H.
  - destruct (IH (addStaticIndexLocked d s m g)) as (A1 & A2 & A3 & A4).
    destruct (addStatic_view d s m g) as (B1 & B2 & B3 & B4).
    split_ands; [by rewrite A1 | by rewrite A2 | | auto].
    intros [ks kg]. rewrite A3, B3. cbn [rk_slot rk_group].
    destruct (decide (ks = s)) as [-> | Hs].
    + destruct (decide (kg = g)) as [-> | Hg].
      * rewrite (decide_True (P := mkKey s g = mkKey s g)) by done.
        rewrite (decide_True (P := s = s /\ g ∈ g :: gs)) by (split; [done | by left]).
        case_decide; [set_solver | done].
      * rewrite (decide_False (P := mkKey s kg = mkKey s g)) by congruence.
        destruct (decide (s = s /\ kg ∈ gs)) as [H | H].
        -- rewrite decide_True; [done |]. split; [done |]. right. apply H.
        -- rewrite decide_False; [done |]. rewrite elem_of_cons. tauto.
    + rewrite !decide_False; [done | tauto | congruence | tauto].
Qed.

(** ** Removing dynamic subscriptions in bulk *)

(** [m'] is [m] without the dynamic subscriptions [R]. *)
Record removed (R : string -> Z -> Z -> Prop) (m m' : SubscriptionManager) : Prop := {
  rm_static d s : static_of m' d s = static_of m d s;
  rm_sindex k : sindex m' k = sindex m k;
  rm_gone d s g : R d s g -> dynamic_of m' d s !! g = None;
  rm_kept d s g : ~ R d s g -> dynamic_of m' d s !! g = dynamic_of m d s !! g;
  rm_either d s g : dynamic_of m' d s !! g = None \/ dynamic_of m' d s !! g = dynamic_of m d s !! g;
  rm_index : staticIndex m' = staticIndex m;
  rm_inv : dyn_inv m -> dyn_inv m'
}.

Lemma removed_refl (R : string -> Z -> Z -> Prop) m : (forall d s g, ~ R d s g) -> removed R m m.
Proof. intros H. split; try done; [intros d s g HR; by apply H in HR | by right]. Qed.

Lemma removed_trans R1 R2 (R : string -> Z -> Z -> Prop) m1 m2 m3 :
  (forall d s g, R d s g <-> R1 d s g \/ R2 d s g) ->
  removed R1 m1 m2 -> removed R2 m2 m3 -> removed R m1 m3.
Proof.
  intros HR [A1 A2 A3 A4 A5 A0 A6] [B1 B2 B3 B4 B5 B0 B6]. split.
  - intros d s. by rewrite B1, A1.
  - intros k. by rewrite B2, A2.
  - intros d s g H. apply HR in H as [H | H]; [| auto].
    destruct (B5 d s g) as [E | E]; [done |]. rewrite E. auto.
  - intros d s g H. rewrite B4, A4; [done | |]; intros H'; apply H, HR; tauto.
  - intros d s g. destruct (B5 d s g) as [E | E]; [by left |]. rewrite E. auto.
  - by rewrite B0.
  - auto.
Qed.

Lemma removed_ext (R R' : string -> Z -> Z -> Prop) m m' :
  (forall d s g, R d s g <-> R' d s g) -> removed R m m' -> removed R' m m'.
Proof.
  intros HR [A1 A2 A3 A4 A5 A0 A6]. split; try done.
  - intros d s g H. by apply A3, HR.
  - intros d s g H. apply A4. by rewrite HR.
Qed.

#[export] Instance removed_proper :
  Proper (pointwise_relation string (pointwise_relation Z (pointwise_relation Z iff)) ==> eq ==> eq ==> iff)
    removed.
Proof.
  intros R R' HR m _ <- m' _ <-. split; apply removed_ext; intros d s g; [| symmetry]; apply HR.
Qed.

Lemma removeDynamic_removed m d s g :
  removed (fun d' s' g' => d' = d /\ s' = s /\ g' = g) m (removeDynamicLocked m d s g).
Proof.
  destruct (removeDynamic_view m d s g) as (V1 & V2 & V3). split; [done | done | | | | |].
  - intros d' s' g' (-> & -> & ->). rewrite V2, decide_True by done. apply lookup_delete_eq.
  - intros d' s' g' H. rewrite V2. case_decide as E; [| done]. destruct E as [-> ->].
    apply lookup_delete_ne. by intros ->; apply H.
  - intros d' s' g'. rewrite V2. case_decide; [| by right].
    destruct (decide (g' = g)) as [-> | Hg]; [left; apply lookup_delete_eq | right; by apply lookup_delete_ne].
  - apply removeDynamic_devices.
  - apply removeDynamic_dyn_inv.
Qed.

Lemma removed_subs_inv R m m' : removed R m m' -> subs_inv m -> subs_inv m'.
Proof.
  intros [A1 A2 A3 A4 A5 A0 A6] [H1 H2 H3 H4]. destruct (A6 (conj H2 H4)) as [D1 D2]. split; try done.
  - intros d s g. by rewrite A1, A2.
  - by rewrite A0.
Qed.

Lemma removed_foldl {A} (f : SubscriptionManager -> A -> SubscriptionManager)
    (R : A -> string -> Z -> Z -> Prop) l m :
  (forall m x, x ∈ l -> removed (R x) m (f m x)) ->
  removed (fun d s g => exists x, x ∈ l /\ R x d s g) m (foldl f m l).
Proof.
  revert m. induction l as [| x l IH]; intros m H; cbn [foldl].
  - apply removed_refl. intros d s g (x & Hx & _). by apply not_elem_of_nil in Hx.
  - eapply removed_trans; [| apply H; by left | apply IH; intros m' y Hy; apply H; by right].
    intros d s g. cbn. split.
    + intros (y & Hy & HR). apply elem_of_cons in Hy as [-> | Hy]; [by left | right; eauto].
    + intros [HR | (y & Hy & HR)]; [exists x; split; [by left | done] | exists y; split; [by right | done]].
Qed.

Lemma dynamic_of_lookup m d s g e :
  dynamic_of m d s !! g = Some e <->
  exists st groups, devices m !! d = Some st /\ dynamic st !! s = Some groups /\ groups !! g = Some e.
Proof.
  unfold dynamic_of. destruct (devices m !! d) as [st |]; cbn; [| split; [done | by intros (? & ? & ? & _)]].
  destruct (dynamic st !! s) as [groups |] eqn:E; cbn.
  - split; [intros H; eauto |]. intros (st' & gr & [= <-] & E' & H). congruence.
  - split; [done |]. intros (st' & gr & [= <-] & E' & H). congruence.
Qed.

(** ** Each operation keeps the indexes consistent *)

Lemma ReplaceStatic_view m d s groups :
  d <> ""%string -> validSlot s = true -> subs_inv m ->
  let m' := ReplaceStatic m d s groups in
  subs_inv m' /\
  (forall d' s', static_of m' d' s' =
     if decide (d' = d /\ s' = s) then list_to_set (uniqueGroups groups) else static_of m d' s') /\
  (forall d' s', dynamic_of m' d' s' = dynamic_of m d' s').
Proof.
  intros Hd Hs Hinv. unfold ReplaceStatic. rewrite bool_decide_false, Hs by done. cbn [negb orb].
  pose proof (getOrCreate_inv m d Hinv) as Hinv1. pose proof (getOrCreate_view m d) as V.
  destruct (getOrCreateLocked m d) as [m1 st]. destruct V as (Hst & _ & _ & _ & V1 & V2). cbn [fst] in Hinv1.
  set (old := default ∅ (static st !! s)). set (unique := uniqueGroups groups).
  destruct (removeStatic_loop d s (elements old) m1) as (A1 & A2 & A3 & A4).
  set (m2 := foldl (removeStaticIndexLocked d s) m1 (elements old)) in *.
  destruct (addStatic_loop d s unique m2) as (B1 & B2 & B3 & B4).
  set (m3 := foldl (addStaticIndexLocked d s) m2 unique) in *. cbn zeta.
  set (st' := mkDevice (<[s := list_to_set unique]> (static st)) (dynamic st)).
  set (m4 := with_devices m3 (<[d := st']> (devices m3))).
  assert (Hstatic : forall d' s', static_of m4 d' s' =
    if decide (d' = d /\ s' = s) then list_to_set unique else static_of m d' s').
  { intros d' s'. rewrite <- V1. unfold static_of, m4. cbn. rewrite B1, A1.
    destruct (decide (d' = d)) as [-> | Hne].
    - rewrite lookup_insert_eq, Hst. cbn. destruct (decide (s' = s)) as [-> | Hs'].
      + rewrite decide_True by done. by rewrite lookup_insert_eq.
      + rewrite decide_False by tauto. by rewrite lookup_insert_ne.
    - rewrite lookup_insert_ne by done. by rewrite decide_False by tauto. }
  assert (Hdyn : forall d' s', dynamic_of m4 d' s' = dynamic_of m1 d' s').
  { intros d' s'. unfold dynamic_of, m4. cbn. rewrite B1, A1.
    destruct (decide (d' = d)) as [-> | Hne]; [by rewrite lookup_insert_eq, Hst | by rewrite lookup_insert_ne]. }
  split; [| split; [done | intros; by rewrite Hdyn, V2]].
  assert (Hold : old = static_of m1 d s) by (unfold static_of; by rewrite Hst).
  split.
  - intros d' s' g. rewrite Hstatic. change (sindex m4) with (sindex m3). rewrite B3, A3. cbn [rk_slot rk_group].
    pose proof (inv_static _ Hinv1 d' s' g) as Hi. rewrite V1 in Hi.
    destruct (decide (s' = s)) as [-> | Hne].
    + pose proof (inv_static _ Hinv1 d s g) as Hi0. rewrite <- Hold in Hi0.
      destruct (decide (d' = d)) as [-> | Hd'].
      * rewrite (decide_True (P := d = d /\ s = s)) by done. rewrite elem_of_list_to_set.
        destruct (decide (s = s /\ g ∈ unique)) as [H | H]; [set_solver |].
        destruct (decide (s = s /\ g ∈ elements old)) as [H' | H']; [set_solver |].
        rewrite elem_of_elements in H'. rewrite <- Hi0. tauto.
      * rewrite (decide_False (P := d' = d /\ s = s)) by tauto. rewrite Hi.
        case_decide; case_decide; set_solver.
    + rewrite (decide_False (P := d' = d /\ s' = s)) by tauto.
      rewrite !decide_False by tauto. done.
  - intros d' s' g. rewrite Hdyn. unfold dindex, m4. cbn. rewrite B2, A2. apply Hinv1.
  - apply B4, A4, Hinv1.
  - intros k. unfold m4. cbn. rewrite B2, A2. apply Hinv1.
Qed.

Lemma ActivateDynamic_view m d s g now clock :
  subs_inv m ->
  let '(m', e) := ActivateDynamic m d s g now clock in
  subs_inv m' /\ (forall d' s', static_of m' d' s' = static_of m d' s') /\
  (d <> ""%string -> validSlot s = true -> g <> 0 ->
   dynamic_of m' d s !! g = (if decide (g ∈ static_of m d s) then None else Some (now_or now clock + dynamicTTL m)) /\
   forall d' s' g', (d', s', g') <> (d, s, g) -> dynamic_of m' d' s' !! g' = dynamic_of m d' s' !! g').
Proof.
  intros Hinv. unfold ActivateDynamic. destruct (bool_decide (d = ""%string)) eqn:Ed; cbn [orb].
  { split_ands; try done. by apply bool_decide_eq_true in Ed. }
  destruct (validSlot s) eqn:Es; cbn [negb orb]; [| split_ands; done].
  destruct (Z.eqb_spec g 0) as [-> | Hg]; [split_ands; done |].
  pose proof (getOrCreate_inv m d Hinv) as Hinv1. pose proof (getOrCreate_view m d) as V.
  destruct (getOrCreateLocked m d) as [m1 st]. destruct V as (Hst & _ & _ & Et & V1 & V2). cbn [fst] in Hinv1.
  assert (Hstat : default ∅ (static st !! s) = static_of m d s) by (rewrite <- V1; unfold static_of; by rewrite Hst).
  rewrite Hstat. destruct (decide (g ∈ static_of m d s)) as [Hin | Hin].
  - pose proof (removeDynamic_removed m1 d s g) as HR. pose proof HR as [R1 R2 R3 R4 R5 _ _].
    split_ands; [by apply (removed_subs_inv _ _ _ HR) | | ].
    + intros d' s'. by rewrite R1, V1.
    + intros _ _ _. split; [by apply R3 |]. intros d' s' g' Hne. rewrite R4, V2; [done |].
      intros (-> & -> & ->). done.
  - set (e := now_or now clock + dynamicTTL m).
    set (st' := mkDevice (static st) (<[s := <[g := e]> (default ∅ (dynamic st !! s))]> (dynamic st))).
    set (m2 := with_devices m1 (<[d := st']> (devices m1))).
    set (m3 := with_dynamic m2 _).
    assert (Hs3 : forall d' s', static_of m3 d' s' = static_of m1 d' s').
    { intros d' s'. unfold static_of, m3, m2. cbn.
      destruct (decide (d' = d)) as [-> | Hne]; [by rewrite lookup_insert_eq, Hst | by rewrite lookup_insert_ne]. }
    assert (Hd3 : forall d' s' g', dynamic_of m3 d' s' !! g' =
      if decide ((d', s', g') = (d, s, g)) then Some e else dynamic_of m1 d' s' !! g').
    { intros d' s' g'. unfold dynamic_of, m3, m2. cbn.
      destruct (decide (d' = d)) as [-> | Hne].
      - rewrite lookup_insert_eq, Hst. cbn. destruct (decide (s' = s)) as [-> | Hs'].
        + rewrite lookup_insert_eq. cbn. destruct (decide (g' = g)) as [-> | Hg'].
          * rewrite decide_True by done. by rewrite lookup_insert_eq.
          * rewrite decide_False by congruence. by rewrite lookup_insert_ne.
        + rewrite lookup_insert_ne by done. by rewrite decide_False by congruence.
      - rewrite lookup_insert_ne by done. by rewrite decide_False by congruence. }
    split_ands.
    + split.
      * intros d' s' g'. rewrite Hs3. apply Hinv1.
      * intros d' s' g'. rewrite Hd3. pose proof (inv_dynamic _ Hinv1 d' s' g') as Hi.
        unfold dindex, m3, m2 in *. cbn.
        destruct (decide (mkKey s' g' = mkKey s g)) as [[= -> ->] | Hk].
        -- rewrite lookup_insert_eq. cbn. destruct (decide (d' = d)) as [-> | Hd'].
           ++ rewrite decide_True by done. by rewrite lookup_insert_eq.
           ++ rewrite decide_False by congruence. by rewrite lookup_insert_ne.
        -- rewrite lookup_insert_ne by done. rewrite decide_False by congruence. done.
      * apply Hinv1.
      * intros k. unfold m3. cbn. destruct (decide (k = mkKey s g)) as [-> | Hk].
        -- rewrite lookup_insert_eq. intros [= E]. by apply insert_non_empty in E.
        -- rewrite lookup_insert_ne by done. apply Hinv1.
    + intros d' s'. by rewrite Hs3, V1.
    + intros _ _ _. split; [by rewrite Hd3, decide_True |].
      intros d' s' g' Hne. by rewrite Hd3, decide_False, V2.
Qed.

Lemma RemoveDynamic_inv m d s g : subs_inv m -> subs_inv (RemoveDynamic m d s g).
Proof.
  unfold RemoveDynamic. destruct (_ || _); [done |].
  eapply removed_subs_inv, removeDynamic_removed.
Qed.

(** Removing the static entries of a device, slot by slot. *)
Lemma removeStatic_slots d l m :
  let m' := foldl (fun m '(slot, groups) =>
    foldl (removeStaticIndexLocked d slot) m (elements (groups : gset Z))) m l in
  devices m' = devices m /\ dynamicIndex m' = dynamicIndex m /\
  (forall k d', d' ∈ sindex m' k <-> d' ∈ sindex m k /\
     ~ (d' = d /\ exists groups, (rk_slot k, groups) ∈ l /\ rk_group k ∈ groups)) /\
  ((forall k, staticIndex m !! k <> Some ∅) -> forall k, staticIndex m' !! k <> Some ∅).
Proof.
  revert m. induction l as [| [s groups] l IH]; intros m; cbn [foldl].
  - split_ands; try done. intros k d'. split; [| tauto]. intros H. split; [done |].
    intros (_ & gr & Hin & _). by apply not_elem_of_nil in Hin.
  - destruct (removeStatic_loop d s (elements groups) m) as (A1 & A2 & A3 & A4).
    destruct (IH (foldl (removeStaticIndexLocked d s) m (elements groups))) as (B1 & B2 & B3 & B4).
    split_ands; [by rewrite B1 | by rewrite B2 | | auto].
    intros k d'. rewrite B3, A3. setoid_rewrite elem_of_cons.
    destruct (decide (rk_slot k = s /\ rk_group k ∈ elements groups)) as [[H1 H2] | H].
    + rewrite elem_of_elements in H2. rewrite elem_of_difference, elem_of_singleton. split.
      * intros [[H3 H4] H5]. split; [done |]. intros [-> _]. done.
      * intros [H3 H4]. split; [split; [done |] |].
        -- intros ->. apply H4. split; [done |]. exists groups. split; [left; congruence | done].
        -- intros [-> (gr & Hin & Hg)]. apply H4. split; [done |]. exists gr. tauto.
    + rewrite elem_of_elements in H. split.
      * intros [H3 H4]. split; [done |]. intros [-> (gr & [E | Hin] & Hg)].
        -- injection E as E1 E2. subst. tauto.
        -- apply H4. split; [done |]. exists gr. tauto.
      * intros [H3 H4]. split; [done |]. intros [-> (gr & Hin & Hg)]. apply H4.
        split; [done |]. exists gr. tauto.
Qed.

Definition remove_all_dynamic (d : string) (st : deviceState) (m : SubscriptionManager) : SubscriptionManager :=
  foldl (fun m '(slot, groups) =>
    foldl (fun m '(groupID, _) => removeDynamicLocked m d slot groupID) m (map_to_list groups))
    m (map_to_list (dynamic st)).

Lemma remove_all_dynamic_removed d st m :
  removed (fun d' s g => d' = d /\ exists groups, dynamic st !! s = Some groups /\ is_Some (groups !! g))
    m (remove_all_dynamic d st m).
Proof.
  unfold remove_all_dynamic. eapply removed_ext; [| apply (removed_foldl _ (fun x d' s g =>
    d' = d /\ s = fst x /\ is_Some (snd x !! g)))].
  - intros d' s g. split.
    + intros ([s' groups] & Hin & -> & E & Hg). cbn in E. subst s'. apply elem_of_map_to_list in Hin.
      split; [done |]. exists groups. done.
    + intros [-> (groups & E & Hg)]. exists (s, groups). by rewrite elem_of_map_to_list.
  - intros m' [s groups] _. cbn. eapply removed_ext; [| apply (removed_foldl _ (fun x d' s' g =>
      d' = d /\ s' = s /\ g = fst x))].
    + intros d' s' g. split.
      * intros ([g' e] & Hin & -> & -> & E). cbn in E. subst g'. apply elem_of_map_to_list in Hin.
        split_ands; [done | done |]. by exists e.
      * intros (-> & -> & [e He]). exists (g, e). by rewrite elem_of_map_to_list.
    + intros m'' [g e] _. apply removeDynamic_removed.
Qed.

Lemma static_of_lookup m d s g :
  g ∈ static_of m d s <->
  exists st groups, devices m !! d = Some st /\ static st !! s = Some groups /\ g ∈ groups.
Proof.
  unfold static_of. destruct (devices m !! d) as [st |]; cbn; [| set_solver].
  destruct (static st !! s) as [groups |] eqn:E; cbn.
  - split; [intros H; eauto |]. intros (st' & gr & [= <-] & E' & H). congruence.
  - split; [set_solver |]. intros (st' & gr & [= <-] & E' & H). congruence.
Qed.

Lemma RemoveDevice_spec m d :
  d <> ""%string -> subs_inv m ->
  let m' := RemoveDevice m d in
  subs_inv m' /\
  (forall s, static_of m' d s = ∅ /\ dynamic_of m' d s = ∅) /\
  (forall d' s, d' <> d -> static_of m' d' s = static_of m d' s /\ dynamic_of m' d' s = dynamic_of m d' s).
Proof.
  intros Hd Hinv. unfold RemoveDevice. rewrite bool_decide_false by done.
  destruct (devices m !! d) as [st |] eqn:Est.
  2:{ split; [done |]. split; [| done]. intros s. unfold static_of, dynamic_of. by rewrite Est. }
  destruct (removeStatic_slots d (map_to_list (static st)) m) as (A1 & A2 & A3 & A4).
  set (m1 := foldl _ m (map_to_list (static st))) in *.
  pose proof (remove_all_dynamic_removed d st m1) as [R1 R2 R3 R4 R5 R0 R6].
  change (foldl _ m1 (map_to_list (dynamic st))) with (remove_all_dynamic d st m1). cbn zeta.
  set (m2 := remove_all_dynamic d st m1) in *. set (m3 := with_devices m2 (delete d (devices m2))).
  assert (Hdyn1 : dyn_inv m1).
  { unfold dyn_inv, dynamic_of, dindex. rewrite A1, A2. split; apply Hinv. }
  destruct (R6 Hdyn1) as [D1 D2].
  assert (V1 : forall d' s, static_of m3 d' s = if decide (d' = d) then ∅ else static_of m d' s).
  { intros d' s. unfold static_of at 1, m3. cbn. case_decide as E.
    - subst d'. by rewrite lookup_delete_eq.
    - rewrite lookup_delete_ne by done. fold (static_of m2 d' s). rewrite R1.
      unfold static_of. by rewrite A1. }
  assert (V2 : forall d' s, dynamic_of m3 d' s = if decide (d' = d) then ∅ else dynamic_of m d' s).
  { intros d' s. unfold dynamic_of at 1, m3. cbn. case_decide as E.
    - subst d'. by rewrite lookup_delete_eq.
    - rewrite lookup_delete_ne by done. fold (dynamic_of m2 d' s). apply map_eq. intros g.
      rewrite R4 by tauto. unfold dynamic_of. by rewrite A1. }
  split; [| split].
  - split.
    + intros d' s g. rewrite V1. change (sindex m3) with (sindex m2). rewrite R2, A3. cbn [rk_slot rk_group].
      pose proof (inv_static _ Hinv d' s g) as Hi. case_decide as E.
      * subst d'. split; [set_solver |]. intros [H1 H2]. exfalso. apply H2. split; [done |].
        apply Hi, static_of_lookup in H1 as (st' & gr & E1 & E2 & H). exists gr.
        rewrite Est in E1. injection E1 as <-. by rewrite elem_of_map_to_list.
      * rewrite Hi. tauto.
    + intros d' s g. rewrite V2. change (dindex m3) with (dindex m2). rewrite <- D1.
      case_decide as E; [| rewrite R4 by tauto; unfold dynamic_of; by rewrite A1].
      subst d'. rewrite lookup_empty. symmetry.
      destruct (R5 d s g) as [-> | E']; [done |]. rewrite E'.
      destruct (dynamic_of m1 d s !! g) as [e |] eqn:Ee; [| done].
      exfalso. rewrite R3 in E'; [done |]. split; [done |].
      apply dynamic_of_lookup in Ee as (st' & gr & E1 & E2 & E3). rewrite A1, Est in E1.
      injection E1 as <-. exists gr. split; [done | by exists e].
    + intros k. change (staticIndex m3) with (staticIndex m2). rewrite R0. apply A4, Hinv.
    + exact D2.
  - intros s. by rewrite V1, V2, !decide_True.
  - intros d' s Hne. by rewrite V1, V2, !decide_False.
Qed.

(** ** Resolving *)

Definition live (m : SubscriptionManager) (now : time) (d : string) (s g : Z) : Prop :=
  exists e, dynamic_of m d s !! g = Some e /\ over e now = false.

Definition subscribed (m : SubscriptionManager) (now : time) (d : string) (s g : Z) : Prop :=
  g ∈ static_of m d s \/ live m now d s g.

Lemma static_targets src s l targets (r : TargetRoute) :
  r ∈ foldl (fun targets deviceKey =>
      if bool_decide (deviceKey = src) then targets else {[mkRoute deviceKey s]} ∪ targets) targets l <->
  r ∈ (targets : gset TargetRoute) \/ (DeviceKey r ∈ l /\ RSlot r = s /\ DeviceKey r <> src).
Proof.
  revert targets. induction l as [| d l IH]; intros targets; cbn [foldl].
  - rewrite elem_of_nil. tauto.
  - rewrite IH, elem_of_cons. destruct (bool_decide_reflect (d = src)) as [E | E].
    + split; [tauto |]. intros [H | ([H1 | H1] & H2 & H3)]; [tauto | congruence | tauto].
    + rewrite elem_of_union, elem_of_singleton. destruct r as [rd rs]. cbn. split.
      * intros [[[= -> ->] | H] | H]; [right; tauto | tauto | tauto].
      * intros [H | ([-> | H1] & -> & H3)]; tauto.
Qed.

Definition dynamic_pass (src : string) (g : Z) (now : time) (s : Z) :=
  (fun '(m, targets) '(deviceKey, expiresAt) =>
      if over expiresAt now then (removeDynamicLocked m deviceKey s g, targets)
      else if bool_decide (deviceKey = src) then (m, targets)
      else (m, {[mkRoute deviceKey s]} ∪ targets)) : SubscriptionManager * gset TargetRoute ->
  string * time -> SubscriptionManager * gset TargetRoute.

Lemma dynamic_pass_spec src g now s l m targets :
  let acc := foldl (dynamic_pass src g now s) (m, targets) l in
  removed (fun d s' g' => s' = s /\ g' = g /\ exists e, (d, e) ∈ l /\ over e now = true) m (fst acc) /\
  forall r, r ∈ snd acc <-> r ∈ targets \/
    (exists e, (DeviceKey r, e) ∈ l /\ over e now = false) /\ RSlot r = s /\ DeviceKey r <> src.
Proof.
  revert m targets. induction l as [| [d e] l IH]; intros m targets; cbn [foldl].
  - split; [apply removed_refl; intros d' s' g' (_ & _ & e & H & _); by apply not_elem_of_nil in H |].
    intros r. cbn. split; [tauto |]. intros [H | [(e & H & _) _]]; [done | by apply not_elem_of_nil in H].
  - cbn [dynamic_pass]. setoid_rewrite elem_of_cons. destruct (over e now) eqn:Eo.
    + destruct (IH (removeDynamicLocked m d s g) targets) as [H1 H2]. split.
      * eapply removed_trans; [| apply removeDynamic_removed | exact H1]. intros d' s' g'. cbn. split.
        -- intros (-> & -> & e' & [[= -> ->] | H] & Ho); [by left | right]. split_ands; try done. by exists e'.
        -- intros [(-> & -> & ->) | (-> & -> & e' & H & Ho)]; split_ands; try done; [exists e | exists e']; tauto.
      * intros r. rewrite H2. split; [intros [H | [(e' & H & Ho) HR]]; [tauto | right; split; [exists e'; tauto | done]] |].
        intros [H | [(e' & [[= <- <-] | H] & Ho) HR]]; [tauto | congruence | right; split; [by exists e' | done]].
    + assert (Hrm : forall t, removed (fun d' s' g' => s' = s /\ g' = g /\
        exists e', ((d', e') = (d, e) \/ (d', e') ∈ l) /\ over e' now = true) m
        (fst (foldl (dynamic_pass src g now s) (m, t) l))).
      { intros t. eapply removed_ext; [| apply (IH m t)]. intros d' s' g'. cbn. split.
        - intros (-> & -> & e' & H & Ho). split_ands; try done. exists e'. tauto.
        - intros (-> & -> & e' & [[= -> ->] | H] & Ho); [congruence |]. split_ands; try done. by exists e'. }
      destruct (bool_decide_reflect (d = src)) as [E | E]; (split; [apply Hrm |]); intros r;
        rewrite (proj2 (IH _ _)).
      * split; [intros [H | [(e' & H & Ho) HR]]; [tauto | right; split; [exists e'; tauto | done]] |].
        intros [H | [(e' & [[= <- <-] | H] & Ho) [Hs Hn]]]; [tauto | done | right; split; [by exists e' | done]].
      * rewrite elem_of_union, elem_of_singleton. destruct r as [rd rs]. cbn. split.
        -- intros [[[= -> ->] | H] | [(e' & H & Ho) HR]]; [right; split; [exists e; tauto | done] | tauto |
             right; split; [exists e'; tauto | done]].
        -- intros [H | [(e' & [[= -> ->] | H] & Ho) [-> Hn]]]; [tauto | tauto | right; split; [by exists e' | done]].
Qed.

Lemma resolve_slot_spec src g now s m targets :
  subs_inv m ->
  let acc := resolve_slot src g now (m, targets) s in
  removed (fun d s' g' => s' = s /\ g' = g /\ exists e, dynamic_of m d s !! g = Some e /\ over e now = true)
    m (fst acc) /\
  forall r, r ∈ snd acc <-> r ∈ targets \/
    (subscribed m now (DeviceKey r) s g /\ RSlot r = s /\ DeviceKey r <> src).
Proof.
  intros Hinv. unfold resolve_slot. cbn zeta.
  set (t1 := foldl _ targets _).
  destruct (dynamic_pass_spec src g now s (map_to_list (default ∅ (dynamicIndex m !! mkKey s g))) m t1) as [H1 H2].
  change (foldl _ (m, t1) _) with (foldl (dynamic_pass src g now s) (m, t1)
    (map_to_list (default ∅ (dynamicIndex m !! mkKey s g)))).
  fold (dindex m (mkKey s g)) in *. split.
  - eapply removed_ext; [| exact H1]. intros d s' g'. cbn. setoid_rewrite elem_of_map_to_list.
    setoid_rewrite <- (inv_dynamic _ Hinv d s g). done.
  - intros r. rewrite H2. unfold t1. rewrite static_targets, elem_of_elements.
    change (default ∅ (staticIndex m !! mkKey s g)) with (sindex m (mkKey s g)).
    rewrite <- (inv_static _ Hinv). setoid_rewrite elem_of_map_to_list.
    setoid_rewrite <- (inv_dynamic _ Hinv (DeviceKey r) s g). unfold subscribed, live. tauto.
Qed.

Lemma live_removed R m m' now d s g :
  removed R m m' -> (forall e, R d s g -> dynamic_of m d s !! g = Some e -> over e now = true) ->
  live m' now d s g <-> live m now d s g.
Proof.
  intros [_ _ H3 H4 H5 _ _] HR. unfold live. destruct (H5 d s g) as [E | E]; [| by rewrite E].
  rewrite E. split; [by intros (e & ? & _) |]. intros (e & He & Ho). exfalso.
  assert (HnR : ~ R d s g) by (intros H; specialize (HR e H He); congruence).
  rewrite (H4 d s g HnR), He in E. done.
Qed.

#[export] Instance route_le_total : Total route_le.
Proof.
  intros [d1 s1] [d2 s2]. unfold route_le. cbn.
  destruct (decide (d1 = d2)) as [-> | Hne].
  - destruct (Z.le_ge_cases s1 s2); [left | right]; left; split; done || lia.
  - destruct (total String.le d1 d2); [left | right]; right; split; congruence || done.
Qed.
#[export] Instance route_le_trans : Transitive route_le.
Proof.
  intros [d1 s1] [d2 s2] [d3 s3]. unfold route_le. cbn.
  intros [[-> H1] | [H1 L1]] [[-> H2] | [H2 L2]].
  - left. split; [done | lia].
  - by right.
  - by right.
  - right. split; [| by trans d2]. intros ->. apply H1. by apply (anti_symm String.le).
Qed.

(** ** Expiry *)

Lemma Expire_removed m now clock :
  removed (fun d s g => exists e, dynamic_of m d s !! g = Some e /\ e <> 0 /\ e <= now_or now clock)
    m (Expire m now clock).
Proof.
  unfold Expire. set (t := now_or now clock).
  eapply removed_ext; [| apply (removed_foldl _ (fun x d s g =>
    d = fst x /\ exists groups e, dynamic (snd x) !! s = Some groups /\ groups !! g = Some e /\ e <> 0 /\ e <= t))].
  - intros d s g. split.
    + intros ([d' st] & Hin & E & groups & e & Hs & Hg & He). cbn in E, Hs. subst d'.
      apply elem_of_map_to_list in Hin. exists e. split; [| done]. apply dynamic_of_lookup. eauto.
    + intros (e & He & Hn). apply dynamic_of_lookup in He as (st & groups & H1 & H2 & H3).
      exists (d, st). rewrite elem_of_map_to_list. split; [done |]. split; [done |]. cbn. by exists groups, e.
  - intros m' [d st] _. cbn. eapply removed_ext; [| apply (removed_foldl _ (fun x d' s g =>
      d' = d /\ s = fst x /\ exists e, snd x !! g = Some e /\ e <> 0 /\ e <= t))].
    + intros d' s g. split.
      * intros ([s' groups] & Hin & -> & E & e & Hg & He). cbn in E, Hg. subst s'.
        apply elem_of_map_to_list in Hin. split; [done |]. by exists groups, e.
      * intros (-> & groups & e & Hs & Hg & He). exists (s, groups). rewrite elem_of_map_to_list. cbn.
        split_ands; [done | done | done |]. by exists e.
    + intros m'' [s groups] _. cbn. eapply removed_ext; [| apply (removed_foldl _ (fun x d' s' g =>
        d' = d /\ s' = s /\ g = fst x /\ snd x <> 0 /\ snd x <= t))].
      * intros d' s' g. split.
        -- intros ([g' e] & Hin & -> & -> & E & He). cbn in E, He. subst g'.
           apply elem_of_map_to_list in Hin. split_ands; [done | done |]. by exists e.
        -- intros (-> & -> & e & Hg & He). exists (g, e). by rewrite elem_of_map_to_list.
      * intros m3 [g e] _. unfold time_is_zero. cbn.
        destruct (Z.eqb_spec e 0), (Z.ltb_spec t e); cbn;
          [apply removed_refl; intros d' s' g'; lia .. |].
        eapply removed_ext; [| apply removeDynamic_removed]. intros d' s' g'. cbn. split; [tauto |].
        intros (-> & -> & -> & _). done.
Qed.

(** ** Snapshots *)

Lemma snapshot_pass_removed d now s l m out :
  removed (fun d' s' g => d' = d /\ s' = s /\ exists e, (g, e) ∈ l /\ over e now = true) m
    (fst (foldl (fun '(m, out) '(groupID, expiresAt) =>
      if over expiresAt now then (removeDynamicLocked m d s groupID, out)
      else (m, out ++ [mkSub groupID SubscriptionDynamic expiresAt])) (m, out) l)).
Proof.
  revert m out. induction l as [| [g e] l IH]; intros m out; cbn [foldl].
  - apply removed_refl. intros d' s' g (_ & _ & e & H & _). by apply not_elem_of_nil in H.
  - setoid_rewrite elem_of_cons. destruct (over e now) eqn:Eo.
    + eapply removed_trans; [| apply removeDynamic_removed | apply IH]. intros d' s' g'. cbn. split.
      * intros (-> & -> & e' & [[= -> ->] | H] & Ho); [by left | right]. split_ands; try done. by exists e'.
      * intros [(-> & -> & ->) | (-> & -> & e' & H & Ho)]; split_ands; try done; [exists e | exists e']; tauto.
    + eapply removed_ext; [| apply IH]. intros d' s' g'. cbn. split.
      * intros (-> & -> & e' & H & Ho). split_ands; try done. exists e'. tauto.
      * intros (-> & -> & e' & [[= -> ->] | H] & Ho); [congruence |]. split_ands; try done. by exists e'.
Qed.

Lemma snapshotDevice_inv m d now : subs_inv m -> subs_inv (fst (snapshotDeviceLocked m d now)).
Proof.
  intros Hinv. unfold snapshotDeviceLocked. destruct (devices m !! d) as [st |]; [| done].
  unfold snapshot_slot. cbn zeta.
  set (out1 := fmap _ (elements (default ∅ (static st !! Slot1)))).
  pose proof (snapshot_pass_removed d now Slot1 (map_to_list (default ∅ (dynamic st !! Slot1))) m out1) as H1.
  destruct (foldl _ (m, out1) _) as [m1 o1]. cbn [fst] in H1.
  set (st1 := default new_device (devices m1 !! d)).
  set (out2 := fmap _ (elements (default ∅ (static st1 !! Slot2)))).
  pose proof (snapshot_pass_removed d now Slot2 (map_to_list (default ∅ (dynamic st1 !! Slot2))) m1 out2) as H2.
  destruct (foldl _ (m1, out2) _) as [m2 o2]. cbn [fst] in *.
  by eapply removed_subs_inv, removed_subs_inv.
Qed.

Lemma snapshotAll_inv m now clock : subs_inv m -> subs_inv (fst (SnapshotAll m now clock)).
Proof.
  intros Hinv. unfold SnapshotAll. apply (foldl_inv (fun st => subs_inv (fst st))); [done |].
  intros [m' out] d _ H. pose proof (snapshotDevice_inv m' d (now_or now clock) H) as H'.
  by destruct (snapshotDeviceLocked m' d (now_or now clock)).
Qed.

(** ** Any sequence of operations *)

Inductive op :=
  | OpReplaceStatic (deviceKey : string) (slot : Z) (groups : list Z)
  | OpActivateDynamic (deviceKey : string) (slot groupID : Z) (now clock : time)
  | OpRemoveDynamic (deviceKey : string) (slot groupID : Z)
  | OpRemoveDevice (deviceKey : string)
  | OpResolveRoutes (sourceDevice : string) (groupID : Z) (now clock : time)
  | OpExpire (now clock : time)
  | OpSnapshotDevice (deviceKey : string) (now clock : time)
  | OpSnapshotAll (now clock : time).

Definition step (m : SubscriptionManager) (o : op) : SubscriptionManager :=
  match o with
  | OpReplaceStatic d s gs => ReplaceStatic m d s gs
  | OpActivateDynamic d s g now clock => fst (ActivateDynamic m d s g now clock)
  | OpRemoveDynamic d s g => RemoveDynamic m d s g
  | OpRemoveDevice d => RemoveDevice m d
  | OpResolveRoutes src g now clock => fst (ResolveRoutes m src g now clock)
  | OpExpire now clock => Expire m now clock
  | OpSnapshotDevice d now clock => fst (SnapshotDevice m d now clock)
  | OpSnapshotAll now clock => fst (SnapshotAll m now clock)
  end.

Definition run (m : SubscriptionManager) (ops : list op) : SubscriptionManager := foldl step m ops.

Lemma new_inv ttl : subs_inv (NewSubscriptionManager ttl).
Proof. split; intros; done. Qed.

(** [ResolveRoutes] by its effect on the state and by its targets. *)
Lemma resolve_both src g now m :
  subs_inv m ->
  let acc := foldl (resolve_slot src g now) (m, ∅) [Slot1; Slot2] in
  removed (fun d s' g' => validSlot s' = true /\ g' = g /\
    exists e, dynamic_of m d s' !! g = Some e /\ over e now = true) m (fst acc) /\
  forall r, r ∈ snd acc <->
    subscribed m now (DeviceKey r) (RSlot r) g /\ validSlot (RSlot r) = true /\ DeviceKey r <> src.
Proof.
  intros Hinv. cbn [foldl]. cbn zeta.
  destruct (resolve_slot_spec src g now Slot1 m ∅ Hinv) as [R1 T1].
  destruct (resolve_slot src g now (m, ∅) Slot1) as [m1 t1]. cbn [fst snd] in *.
  assert (Hinv1 : subs_inv m1) by by eapply removed_subs_inv.
  destruct (resolve_slot_spec src g now Slot2 m1 t1 Hinv1) as [R2 T2].
  destruct (resolve_slot src g now (m1, t1) Slot2) as [m2 t2]. cbn [fst snd] in *.
  assert (H2 : forall d, dynamic_of m1 d Slot2 !! g = dynamic_of m d Slot2 !! g).
  { intros d. apply R1. intros (E & _). done. }
  split.
  - eapply removed_trans; [| exact R1 | exact R2]. intros d s' g'. unfold validSlot.
    rewrite orb_true_iff, !Z.eqb_eq. rewrite H2. split.
    + intros ([-> | ->] & -> & e & He & Ho); [left | right]; split_ands; try done; by exists e.
    + intros [(-> & -> & e & He & Ho) | (-> & -> & e & He & Ho)]; split_ands; try tauto; by exists e.
  - intros r. rewrite T2, T1, elem_of_empty. unfold validSlot. rewrite orb_true_iff, !Z.eqb_eq.
    assert (Hs2 : subscribed m1 now (DeviceKey r) Slot2 g <-> subscribed m now (DeviceKey r) Slot2 g).
    { unfold subscribed, live. rewrite H2. by rewrite (rm_static _ _ _ R1). }
    rewrite Hs2. split.
    + intros [[[] | (H & E & N)] | (H & E & N)]; rewrite E; tauto.
    + intros (H & [E | E] & N); rewrite E in H; tauto.
Qed.

Lemma subs_step_inv m o : subs_inv m -> subs_inv (step m o).
Proof.
  intros Hinv. destruct o; cbn [step].
  - destruct (decide (deviceKey = ""%string /\ True \/ validSlot slot = false)) as [H | H].
    + unfold ReplaceStatic. destruct H as [[-> _] | ->]; [done |]. by rewrite orb_true_r.
    + apply ReplaceStatic_view; [tauto | | done]. destruct (validSlot slot); tauto.
  - pose proof (ActivateDynamic_view m deviceKey slot groupID now clock Hinv) as H.
    destruct (ActivateDynamic m deviceKey slot groupID now clock). by apply H.
  - by apply RemoveDynamic_inv.
  - destruct (decide (deviceKey = ""%string)) as [-> | H]; [done |]. by apply RemoveDevice_spec.
  - unfold ResolveRoutes. destruct (groupID =? 0); [done |]. cbn zeta.
    destruct (resolve_both sourceDevice groupID (now_or now clock) m Hinv) as [R _].
    destruct (foldl _ (m, ∅) [Slot1; Slot2]) as [m' t]. by eapply removed_subs_inv.
  - eapply removed_subs_inv; [apply Expire_removed | done].
  - by apply snapshotDevice_inv.
  - by apply snapshotAll_inv.
Qed.

Lemma subs_run_inv ttl ops : subs_inv (run (NewSubscriptionManager ttl) ops).
Proof. unfold run. apply (foldl_inv subs_inv); [apply new_inv |]. intros m o _. apply subs_step_inv. Qed.

(** C9: After any sequence of operations, with whatever arguments and clock
    readings, the per-device subscriptions and the two indexes describe the same
    subscriptions: a device is in the static index of a talkgroup exactly when it
    has the static subscription, the dynamic index holds the same expiry as the
    device's own table, and no index keeps an empty entry. *)
Theorem indexes_consistent ttl ops :
  let m := run (NewSubscriptionManager ttl) ops in
  (forall d s g, g ∈ static_of m d s <-> d ∈ sindex m (mkKey s g)) /\
  (forall d s g, dynamic_of m d s !! g = dindex m (mkKey s g) !! d) /\
  (forall k, staticIndex m !! k <> Some ∅ /\ dynamicIndex m !! k <> Some ∅).
Proof. destruct (subs_run_inv ttl ops) as [H1 H2 H3 H4]. by split_ands. Qed.

Lemma now_or_pos now clock : now <> 0 -> now_or now clock = now.
Proof. intros H. unfold now_or, time_is_zero. by destruct (Z.eqb_spec now 0). Qed.

(** [ResolveRoutes] on consistent subscriptions. *)
Lemma resolve_routes_spec m src g now clock :
  subs_inv m -> g <> 0 ->
  let routes := snd (ResolveRoutes m src g now clock) in
  (forall d s, mkRoute d s ∈ routes <->
     subscribed m (now_or now clock) d s g /\ (s = Slot1 \/ s = Slot2) /\ d <> src) /\
  NoDup routes /\ Sorted route_le routes.
Proof.
  intros Hinv Hg. unfold ResolveRoutes. apply Z.eqb_neq in Hg. rewrite Hg. cbn zeta.
  destruct (resolve_both src g (now_or now clock) m Hinv) as [_ T].
  destruct (foldl _ (m, ∅) [Slot1; Slot2]) as [m' t]. cbn [fst snd] in *. split_ands.
  - intros d s. rewrite (merge_sort_Permutation route_le (elements t)), elem_of_elements, T. cbn.
    unfold validSlot. by rewrite orb_true_iff, !Z.eqb_eq.
  - rewrite (merge_sort_Permutation route_le (elements t)). apply NoDup_elements.
  - apply (Sorted_merge_sort route_le).
Qed.

(** C3: After any history, [ResolveRoutes] for a talkgroup returns exactly the
    device and slot pairs that are subscribed to it at [now] on slot 1 or 2 (a
    static subscription, or a dynamic one that is not over), the source device
    excepted; each once, and in the order of device key and slot. *)
Theorem resolve_exact ttl ops src g now clock :
  g <> 0 ->
  let m := run (NewSubscriptionManager ttl) ops in
  let routes := snd (ResolveRoutes m src g now clock) in
  (forall d s, mkRoute d s ∈ routes <->
     subscribed m (now_or now clock) d s g /\ (s = Slot1 \/ s = Slot2) /\ d <> src) /\
  NoDup routes /\ Sorted route_le routes.
Proof. intros Hg. by apply resolve_routes_spec; [apply subs_run_inv |]. Qed.

(** Two devices subscribe to talkgroup 91, one of them for five minutes. *)
Definition sample_ops : list op :=
  [OpReplaceStatic "a" Slot1 [91; 91; 0; 7]; OpActivateDynamic "b" Slot2 91 1000 0;
   OpActivateDynamic "c" Slot1 91 2000 0].

Lemma resolve_exact_witness :
  snd (ResolveRoutes (run (NewSubscriptionManager 0) sample_ops) "c" 91 3000 0)
    = [mkRoute "a" 1; mkRoute "b" 2] /\
  Sorted route_le (snd (ResolveRoutes (run (NewSubscriptionManager 0) sample_ops) "c" 91 3000 0)).
Proof. split; [by vm_compute | apply (resolve_exact 0 sample_ops "c" 91 3000 0); lia]. Defined.

(** [Expire] removes exactly the dynamic subscriptions whose expiry has
    come: at [now] the others are as they were, static ones included, and the
    routes of every talkgroup at that time are unchanged. *)
Theorem expire_exact ttl ops now clock :
  now <> 0 ->
  let m := run (NewSubscriptionManager ttl) ops in
  let m' := Expire m now clock in
  (forall d s, static_of m' d s = static_of m d s) /\
  (forall d s g e, dynamic_of m d s !! g = Some e ->
     dynamic_of m' d s !! g = if bool_decide (e <> 0 /\ e <= now) then None else Some e) /\
  (forall d s g, subscribed m' now d s g <-> subscribed m now d s g).
Proof.
  intros Hnow. cbn zeta. set (m := run _ ops).
  pose proof (Expire_removed m now clock) as R. rewrite (now_or_pos now clock Hnow) in R.
  split_ands.
  - apply R.
  - intros d s g e He. case_bool_decide as Hc.
    + apply R. by exists e.
    + rewrite <- He. apply R. intros (e' & He' & Ho). pose proof (eq_trans (eq_sym He) He') as [= <-]. done.
  - intros d s g. unfold subscribed. rewrite (rm_static _ _ _ R), (live_removed _ _ _ now d s g R); [done |].
    intros e (e' & He' & H1 & H2) He. pose proof (eq_trans (eq_sym He) He') as [= <-]. unfold over, time_is_zero.
    destruct (Z.eqb_spec e 0), (Z.ltb_spec now e); cbn; done || lia.
Qed.

Lemma expire_exact_witness :
  let m := run (NewSubscriptionManager 0) sample_ops in
  dynamic_of m "b" Slot2 !! 91 = Some (1000 + 5 * minute) /\
  dynamic_of (Expire m (1000 + 5 * minute) 0) "b" Slot2 !! 91 = None.
Proof.
  cbn zeta. assert (H : dynamic_of (run (NewSubscriptionManager 0) sample_ops) "b" Slot2 !! 91
    = Some (1000 + 5 * minute)) by by vm_compute.
  split; [exact H |].
  refine (eq_trans (proj1 (proj2 (expire_exact 0 sample_ops (1000 + 5 * minute) 0 _)) _ _ _ _ H) _); [| by vm_compute].
  unfold minute, second, millisecond. lia.
Defined.
