(* ===== verification/PrivateRoute.v ===== *)
(** * Private-call routing (cmd/private_routing.go)

    The last device each subscriber was heard on is kept for a while, and a
    private call goes to the device of its destination. *)

From S2P Require Import Prelude Packet.

Definition recentPrivateRouteTTL : Z := 15 * minute.

Record recentPrivateRoute := mkRecent { sourceKey : string; lastSeen : time }.

Record recentPrivateRouteCache := mkCache {
  ttl : Z;
  routes : gmap Z recentPrivateRoute
}.

Definition newRecentPrivateRouteCache (t : Z) : recentPrivateRouteCache :=
  mkCache (if t <=? 0 then recentPrivateRouteTTL else t) ∅.

Definition now_utc (now clock : time) : time := if time_is_zero now then clock else now.

Definition pruneLocked (c : recentPrivateRouteCache) (now : time) : recentPrivateRouteCache :=
  if ttl c <=? 0 then c
  else
    let cutoff := now - ttl c in
    mkCache (ttl c) (filter (fun kv => ~ lastSeen (snd kv) < cutoff) (routes c)).

(** A nil cache is [None]. *)
Definition Remember (c : option recentPrivateRouteCache) (dmrid : Z) (key : string) (now clock : time)
    : option recentPrivateRouteCache :=
  match c with
  | None => None
  | Some c =>
      if (dmrid =? 0) || bool_decide (key = ""%string) then Some c
      else
        let now := now_utc now clock in
        let c := pruneLocked c now in
        Some (mkCache (ttl c) (<[dmrid := mkRecent key now]> (routes c)))
  end.

Definition Lookup (c : option recentPrivateRouteCache) (dmrid : Z) (now clock : time)
    : option recentPrivateRouteCache * (string * bool) :=
  match c with
  | None => (None, (""%string, false))
  | Some c =>
      if dmrid =? 0 then (Some c, (""%string, false))
      else
        let c := pruneLocked c (now_utc now clock) in
        match routes c !! dmrid with
        | None => (Some c, (""%string, false))
        | Some route => (Some c, (sourceKey route, true))
        end
  end.

(** [send targetKey sourceFrontend sourceDeviceKey pkt]; [None] is a nil
    function.  It works on a state [S] of its own. *)
Definition routePrivateCall {S} (c : option recentPrivateRouteCache) (s : S) (sourceFrontend sourceDeviceKey : string)
    (pkt : Packet) (now clock : time) (send : option (S -> string -> string -> string -> Packet -> S * bool))
    : option recentPrivateRouteCache * S * (string * bool) :=
  match c, send with
  | None, _ | _, None => (c, s, (""%string, false))
  | _, Some send =>
      if GroupCall pkt || (Dst pkt =? 0) then (c, s, (""%string, false))
      else
        let '(c, (targetKey, ok)) := Lookup c (u32 (Dst pkt)) now clock in
        if negb ok || bool_decide (targetKey = ""%string) || bool_decide (targetKey = sourceDeviceKey)
        then (c, s, (""%string, false))
        else
          let '(s, sent) := send s targetKey sourceFrontend sourceDeviceKey pkt in
          if negb sent then (c, s, (""%string, false)) else (c, s, (targetKey, true))
  end.

(** ** The history of a cache *)

Inductive event :=
  | Heard (dmrid : Z) (key : string) (now : time)
  | Asked (dmrid : Z) (now : time).

Definition event_time (e : event) : time := match e with Heard _ _ t | Asked _ t => t end.

Definition apply_event (c : option recentPrivateRouteCache) (e : event) : option recentPrivateRouteCache :=
  match e with
  | Heard d k t => Remember c d k t 0
  | Asked d t => fst (Lookup c d t 0)
  end.

Definition history (t : Z) (es : list event) : option recentPrivateRouteCache :=
  foldl apply_event (Some (newRecentPrivateRouteCache t)) es.

(** The last time [d] was heard in a history, newest event first. *)
Fixpoint last_heard (d : Z) (rev_es : list event) : option recentPrivateRoute :=
  match rev_es with
  | [] => None
  | Heard d' k t :: es =>
      if (d' =? d) && negb (d' =? 0) && negb (bool_decide (k = ""%string)) then Some (mkRecent k t)
      else last_heard d es
  | Asked _ _ :: es => last_heard d es
  end.

(** The clock does not go back, and is never the zero time. *)
Fixpoint monotone (rev_es : list event) (now : time) : Prop :=
  match rev_es with
  | [] => 0 < now
  | e :: es => event_time e <= now /\ monotone es (event_time e)
  end.

Definition effective_ttl (t : Z) : Z := if t <=? 0 then recentPrivateRouteTTL else t.

Lemma effective_ttl_pos t : 0 < effective_ttl t.
Proof. unfold effective_ttl. destruct (Z.leb_spec t 0); [by vm_compute | lia]. Qed.

Lemma monotone_pos es now : monotone es now -> 0 < now.
Proof. revert now. induction es as [| e es IH]; intros now; cbn; [done |]. intros [H1 H2%IH]. lia. Qed.

Lemma now_utc_pos now clock : 0 < now -> now_utc now clock = now.
Proof. intros H. unfold now_utc, time_is_zero. destruct (Z.eqb_spec now 0); lia. Qed.

(** The routes of the cache at [now] that are not too old. *)
Definition fresh_at (t now : Z) (r : option recentPrivateRoute) : option recentPrivateRoute :=
  match r with
  | Some r => if now - effective_ttl t <=? lastSeen r then Some r else None
  | None => None
  end.

Lemma fresh_at_le t now now' r : now <= now' -> fresh_at t now' (fresh_at t now r) = fresh_at t now' r.
Proof.
  intros H. destruct r as [r |]; cbn; [| done]. destruct (Z.leb_spec (now - effective_ttl t) (lastSeen r)); [done |].
  cbn. destruct (Z.leb_spec (now' - effective_ttl t) (lastSeen r)); [lia | done].
Qed.

Lemma prune_lookup t c now d :
  ttl c = effective_ttl t -> routes (pruneLocked c now) !! d = fresh_at t now (routes c !! d).
Proof.
  intros E. unfold pruneLocked. rewrite E. pose proof (effective_ttl_pos t).
  destruct (Z.leb_spec (effective_ttl t) 0); [lia |]. cbn.
  destruct (routes c !! d) as [r |] eqn:Er; cbn.
  - destruct (Z.leb_spec (now - effective_ttl t) (lastSeen r)).
    + apply map_lookup_filter_Some. split; [done | cbn; lia].
    + apply map_lookup_filter_None. right. intros x [= <-]%(eq_trans (eq_sym Er)). cbn. lia.
  - apply map_lookup_filter_None. by left.
Qed.

Lemma prune_ttl c now : ttl (pruneLocked c now) = ttl c.
Proof. unfold pruneLocked. by destruct (ttl c <=? 0). Qed.

(** The cache after a history, seen at a time not before its last event. *)
Lemma history_lookup t es now :
  monotone (rev es) now ->
  exists c, history t es = Some c /\ ttl c = effective_ttl t /\
    forall d, fresh_at t now (routes c !! d) = fresh_at t now (last_heard d (rev es)).
Proof.
  revert now. induction es as [| e es IH] using rev_ind; intros now Hm.
  { exists (newRecentPrivateRouteCache t). split_ands; done. }
  rewrite rev_app_distr in *. cbn [rev app monotone] in *. destruct Hm as [Hle Hm].
  destruct (IH _ Hm) as (c & Hc & Ht & Hl). pose proof (monotone_pos _ _ Hm) as Hpos.
  unfold history in *. rewrite foldl_snoc, Hc.
  assert (Hkeep : forall d, fresh_at t now (routes (pruneLocked c (event_time e)) !! d)
    = fresh_at t now (last_heard d (rev es))).
  { intros d. rewrite (prune_lookup t) by done. rewrite Hl. by apply fresh_at_le. }
  assert (Hsame : forall d, fresh_at t now (routes c !! d) = fresh_at t now (last_heard d (rev es))).
  { intros d. rewrite <- (fresh_at_le t (event_time e)), Hl by done. by apply fresh_at_le. }
  destruct e as [d k tm | d tm]; cbn [event_time apply_event Remember Lookup last_heard] in *.
  - destruct (d =? 0) eqn:Ed; cbn [orb andb].
    { exists c. split_ands; [done | done |]. intros d'. rewrite Hsame. by rewrite andb_false_r. }
    destruct (bool_decide (k = ""%string)) eqn:Ek; cbn [orb andb negb].
    { exists c. split_ands; [done | done |]. intros d'. rewrite Hsame. by rewrite !andb_false_r. }
    rewrite now_utc_pos by done. eexists. split; [done |]. cbn. rewrite prune_ttl. split; [done |].
    intros d'. destruct (Z.eqb_spec d d') as [<- | Hne]; cbn;
      [by rewrite lookup_insert_eq | by rewrite lookup_insert_ne].
  - destruct (d =? 0) eqn:Ed; [by exists c |]. rewrite now_utc_pos by done.
    exists (pruneLocked c tm). rewrite prune_ttl. split_ands; [by destruct (routes (pruneLocked c tm) !! d) | done | done].
Qed.

(** After any history of the cache with a clock that does not go back,
    [Lookup] finds for a subscriber exactly the device it was last heard on, as
    long as that was no longer ago than the cache's lifetime (15 minutes where
    none is given); an older or an unknown subscriber is not found. *)
Theorem lookup_last_heard t es d now clock :
  monotone (rev es) now -> d <> 0 ->
  snd (Lookup (history t es) d now clock) =
    match fresh_at t now (last_heard d (rev es)) with
    | Some r => (sourceKey r, true)
    | None => (""%string, false)
    end.
Proof.
  intros Hm Hd. destruct (history_lookup t es now Hm) as (c & -> & Ht & Hl).
  cbn [Lookup]. apply Z.eqb_neq in Hd. rewrite Hd, now_utc_pos by by eapply monotone_pos.
  rewrite <- Hl, (prune_lookup t) by done. by destruct (fresh_at t now (routes c !! d)).
Qed.

Definition sample_history : list event :=
  [Heard 4600 "hytera:1" 1000; Asked 7 1500; Heard 4600 "moto:2" 2000; Heard 9 "" 2500].

Lemma lookup_last_heard_witness :
  snd (Lookup (history 0 sample_history) 4600 3000 0) = ("moto:2"%string, true) /\
  snd (Lookup (history 0 sample_history) 4600 (2001 + recentPrivateRouteTTL) 0) = (""%string, false).
Proof.
  split.
  - refine (eq_trans (lookup_last_heard 0 sample_history 4600 3000 0 _ _) _); [cbn; lia | lia | done].
  - refine (eq_trans (lookup_last_heard 0 sample_history 4600 (2001 + recentPrivateRouteTTL) 0 _ _) _);
      [cbn; unfold recentPrivateRouteTTL, minute, second, millisecond; lia | lia | by vm_compute].
Defined.

(** C40: After any history of the cache with a clock that does not go back, a private
    call is delivered exactly when its destination was heard within the lifetime of
    the cache, the device it was last heard on is not the device the call came from,
    and that device accepts the packet; the call is then offered to that device once
    and to no other, and a group call or a call to destination zero is never routed
    this way. *)
Theorem private_call_delivery {S} t es (s : S) fe src pkt now clock send :
  monotone (rev es) now -> 0 <= Dst pkt < 2 ^ 32 ->
  let '(_, s', r') := routePrivateCall (history t es) s fe src pkt now clock (Some send) in
  (s', r') =
    match fresh_at t now (last_heard (Dst pkt) (rev es)) with
    | Some r =>
        if negb (GroupCall pkt) && negb (Dst pkt =? 0) && negb (bool_decide (sourceKey r = src)) then
          let '(s1, sent) := send s (sourceKey r) fe src pkt in
          (s1, if sent : bool then (sourceKey r, true) else (""%string, false))
        else (s, (""%string, false))
    | None => (s, (""%string, false))
    end.
Proof.
  intros Hm Hdst. destruct (history_lookup t es now Hm) as (c & Hc & Ht & Hl).
  assert (Hne : forall d r, last_heard d (rev es) = Some r -> sourceKey r <> ""%string).
  { intros d r. generalize (rev es). intros l. induction l as [| [d' k tm | d' tm] l IH]; cbn; [done | | done].
    destruct (bool_decide_reflect (k = ""%string)); [by rewrite andb_false_r |].
    destruct ((d' =? d) && negb (d' =? 0)); cbn; [by intros [= <-] | done]. }
  rewrite Hc. cbn [routePrivateCall].
  destruct (GroupCall pkt); cbn [orb negb andb]; [by destruct (fresh_at _ _ _) |].
  destruct (Dst pkt =? 0) eqn:Ed; cbn [orb negb andb]; [by destruct (fresh_at _ _ _) |].
  assert (Hu : u32 (Dst pkt) = Dst pkt) by (unfold u32; by apply Z.mod_small).
  rewrite Hu. cbn [Lookup]. rewrite Ed, now_utc_pos by by eapply monotone_pos.
  rewrite (prune_lookup t), Hl by done. specialize (Hne (Dst pkt)).
  destruct (last_heard (Dst pkt) (rev es)) as [r |]; cbn [fresh_at]; [| done].
  specialize (Hne r eq_refl). destruct (now - effective_ttl t <=? lastSeen r); [| done]. cbn [negb orb].
  rewrite (bool_decide_false (sourceKey r = ""%string)) by done. cbn [orb].
  destruct (bool_decide (sourceKey r = src)); [done |]. cbn [negb andb].
  by destruct (send s (sourceKey r) fe src pkt) as [s1 [|]].
Qed.

(** A private call to 4600. *)
Definition private_sample : Packet :=
  mkPacket [68; 77; 82; 68] 7 3120001 4600 312000 true false 1 3 305419896 (repeat 0 33).

Lemma private_call_delivery_witness :
  snd (routePrivateCall (history 0 sample_history) tt "hytera" "hytera:1" private_sample 3000 0
    (Some (fun s _ _ _ _ => (s, true)))) = ("moto:2"%string, true).
Proof.
  pose proof (private_call_delivery 0 sample_history tt "hytera" "hytera:1" private_sample 3000 0
    (fun s _ _ _ _ => (s, true)) ltac:(cbn; lia) ltac:(cbn; lia)) as D.
  destruct (routePrivateCall _ tt _ _ _ _ _ _) as [[c s'] r']. apply (f_equal snd) in D. cbn [snd] in D |- *.
  rewrite D. vm_compute. reflexivity.
Defined.
