(* ===== verification/IpscFrame.v ===== *)
(** * IPSC packets (internal/ipsc/translator.go, the packet builders)

    The packets the translator sends to IPSC peers, the Full LC of a call, and
    the embedded LC fragments it computes for the DMR bursts of the other
    direction.  The dmrgo library is a parameter ([Dmrgo]). *)

From S2P Require Import Prelude Bits Packet LinkControl VoiceBurst.

(** ** dmrgo *)

(** [pdu.FullLinkControl], the fields the code sets or reads. *)
Record FullLinkControl := mkFLC {
  FLCO : Z;
  FeatureSetID : Z;
  ServiceOptions_Reserved : list Z;
  GroupAddress : Z;
  TargetAddress : Z;
  SourceAddress : Z
}.

(** [pdu.EmbeddedSignalling] *)
Record EmbeddedSignalling := mkEmb {
  emb_ColorCode : Z;
  emb_PPI : bool;
  emb_LCSS : LCSS;
  emb_ParityOK : bool
}.

(** A [layer2.Burst] that is being filled for encoding: [ob_embedded] is what
    [UnpackEmbeddedSignallingData] was called with, empty when it was not. *)
Record OutBurst := mkOut {
  ob_frames : list (list Z);
  ob_SyncPattern : SyncPattern;
  ob_VoiceBurst : Z;
  ob_HasEmbeddedSignalling : bool;
  ob_EmbeddedSignalling : option EmbeddedSignalling;
  ob_embedded : list Z
}.

Class Dmrgo := {
  (** [flc.Encode()]; [None] is an error *)
  FullLinkControl_Encode : FullLinkControl -> option (list Z);
  (** [flc.DecodeFromBits(bits, dataType)]; [None] is false *)
  FullLinkControl_DecodeFromBits : list Z -> Z -> option FullLinkControl;
  (** a decoded [layer2.Burst]; [DecodeFromBytes] overwrites the receiver *)
  Burst : Type;
  Burst_zero : Burst;
  Burst_DecodeFromBytes : Burst -> list Z -> Burst;
  IsData : Burst -> bool;
  VoiceFrames : Burst -> list (list Z);
  HasEmbeddedSignalling : Burst -> bool;
  PackEmbeddedSignallingData : Burst -> list Z;
  (** [burst.Encode()] *)
  Burst_Encode : OutBurst -> list Z
}.

(** ** Constants *)

Definition ipscBurstVoiceHead : Z := 0x01.
Definition ipscBurstVoiceTerm : Z := 0x02.
Definition ipscBurstCSBK : Z := 0x03.
Definition ipscBurstSlot1 : Z := 0x0A.
Definition ipscBurstSlot2 : Z := 0x8A.

Definition mmdvmFrameTypeVoice : Z := 0.
Definition mmdvmFrameTypeVoiceSync : Z := 1.
Definition mmdvmFrameTypeDataSync : Z := 2.

Definition rtpTimestampIncrement : Z := 480.
Definition ipscVoiceHeaderRepeats : nat := 2.
Definition MaxInt : Z := 2 ^ 63 - 1.

(** ** The state of a stream towards IPSC *)

Record streamState := mkStream {
  callControl : Z;
  rtpSeq : Z;
  rtpTimestamp : Z;
  ipscSeq : Z;
  headersSent : Z;
  burstIndex : Z;
  firstPacket : bool;
  ss_src : Z;
  ss_dst : Z;
  ss_slot : bool;
  ss_groupCall : bool;
  ss_lastSeen : time
}.

(** [ss.rtpSeq++; ss.rtpTimestamp += rtpTimestampIncrement] *)
Definition rtp_next (ss : streamState) : streamState :=
  mkStream (callControl ss) (u16 (rtpSeq ss + 1)) (u32 (rtpTimestamp ss + rtpTimestampIncrement)) (ipscSeq ss)
    (headersSent ss) (burstIndex ss) (firstPacket ss) (ss_src ss) (ss_dst ss) (ss_slot ss) (ss_groupCall ss)
    (ss_lastSeen ss).
(** [ss.ipscSeq++] *)
Definition ipsc_next (ss : streamState) : streamState :=
  mkStream (callControl ss) (rtpSeq ss) (rtpTimestamp ss) (u8 (ipscSeq ss + 1))
    (headersSent ss) (burstIndex ss) (firstPacket ss) (ss_src ss) (ss_dst ss) (ss_slot ss) (ss_groupCall ss)
    (ss_lastSeen ss).

(** ** Link control *)

Definition buildStandardLCBytes `{Dmrgo} (src dst : Z) (groupCall : bool) : list Z :=
  if (MaxInt <? dst) || (MaxInt <? src) then replicate 12 0
  else
    let flco := if groupCall then FLCOGroupVoiceChannelUser else FLCOUnitToUnitVoiceChannelUser in
    let flc := mkFLC flco StandardizedFID [1; 0] dst dst src in
    match FullLinkControl_Encode flc with
    | None => replicate 12 0
    | Some encoded => list_inserts 0 (take 12 encoded) (replicate 12 0)
    end.

Definition extractFullLCBytes `{Dmrgo} (pkt : Packet) : list Z :=
  buildStandardLCBytes (Src pkt) (Dst pkt) (GroupCall pkt).

(** The 96 bits of the LC of an IPSC packet. *)
Definition lc_info_bits (ipscData : list Z) : list Z :=
  (fun i => bit_at (take 12 (drop 38 ipscData)) i) <$> seq 0 96.

Definition recoverAddressesFromFullLC `{Dmrgo} (ipscData : list Z) (burstType : Z) : option (Z * Z) :=
  if (length ipscData <? 50)%nat then None
  else
    match
      (if burstType =? ipscBurstVoiceHead then Some DataTypeVoiceLCHeader
       else if burstType =? ipscBurstVoiceTerm then Some DataTypeTerminatorWithLC else None)
    with
    | None => None
    | Some dataType =>
        match FullLinkControl_DecodeFromBits (lc_info_bits ipscData) dataType with
        | None => None
        | Some flc =>
            if SourceAddress flc <=? 0 then None
            else
              let src := SourceAddress flc in
              if FLCO flc =? FLCOGroupVoiceChannelUser then
                if GroupAddress flc <=? 0 then None else Some (src, GroupAddress flc)
              else if FLCO flc =? FLCOUnitToUnitVoiceChannelUser then
                if TargetAddress flc <=? 0 then None else Some (src, TargetAddress flc)
              else None
        end
    end.

(** ** Builders *)

Definition buildIPSCHeader (peerID : Z) (buf : list Z) (pkt : Packet) (ss : streamState) (isEnd isData : bool)
    : list Z :=
  let buf := <[0%nat := if isData then (if GroupCall pkt then 0x83 else 0x84)
                        else (if GroupCall pkt then 0x80 else 0x81)]> buf in
  let buf := list_inserts 1 (put_be32 peerID) buf in
  let buf := <[5%nat := ipscSeq ss]> buf in
  let buf := list_inserts 6 (put_be24 (Src pkt)) buf in
  let buf := list_inserts 9 (put_be24 (Dst pkt)) buf in
  let buf := <[12%nat := if GroupCall pkt then 0x02 else 0x01]> buf in
  let buf := list_inserts 13 (put_be32 (callControl ss)) buf in
  let callInfo := 0x00 in
  let callInfo := if Slot pkt then Z.lor callInfo 0x20 else callInfo in
  let callInfo := if isEnd then Z.lor callInfo 0x40 else callInfo in
  <[17%nat := callInfo]> buf.

Definition buildRTPHeader (buf : list Z) (ss : streamState) (marker : bool) (payloadType : Z)
    : list Z * streamState :=
  let buf := <[18%nat := 0x80]> buf in
  let pt := if marker then Z.lor payloadType 0x80 else payloadType in
  let buf := <[19%nat := pt]> buf in
  let buf := list_inserts 20 (put_be16 (rtpSeq ss)) buf in
  let buf := list_inserts 22 (put_be32 (rtpTimestamp ss)) buf in
  let buf := list_inserts 26 (put_be32 0) buf in
  (buf, rtp_next ss).

Definition slot_byte (pkt : Packet) : Z := if Slot pkt then ipscBurstSlot2 else ipscBurstSlot1.

(** The payload voice headers, terminators and data packets share. *)
Definition lc_payload `{Dmrgo} (burstType rssi : Z) (pkt : Packet) (buf : list Z) : list Z :=
  let buf := <[30%nat := burstType]> buf in
  let buf := <[31%nat := rssi]> buf in
  let buf := list_inserts 32 (put_be16 0x000A) buf in
  let buf := <[34%nat := 0x80]> buf in
  let buf := <[35%nat := slot_byte pkt]> buf in
  let buf := list_inserts 36 (put_be16 0x0060) buf in
  list_inserts 38 (take 12 (extractFullLCBytes pkt)) buf.

Definition buildVoiceHeader `{Dmrgo} (peerID : Z) (pkt : Packet) (ss : streamState) (isFirst : bool)
    : list Z * streamState :=
  let buf := replicate 54 0 in
  let buf := buildIPSCHeader peerID buf pkt ss false false in
  let '(buf, ss) := buildRTPHeader buf ss isFirst 0x5D in
  (lc_payload ipscBurstVoiceHead 0x80 pkt buf, ss).

Definition buildVoiceTerminator `{Dmrgo} (peerID : Z) (pkt : Packet) (ss : streamState)
    : list Z * streamState :=
  let buf := replicate 54 0 in
  let buf := buildIPSCHeader peerID buf pkt ss true false in
  let '(buf, ss) := buildRTPHeader buf ss false 0x5E in
  (lc_payload ipscBurstVoiceTerm 0x80 pkt buf, ipsc_next ss).

Definition buildIPSCDataPacket `{Dmrgo} (peerID : Z) (pkt : Packet) (ss : streamState) (dataType : Z)
    : list Z * streamState :=
  let buf := replicate 54 0 in
  let buf := buildIPSCHeader peerID buf pkt ss false true in
  let '(buf, ss) := buildRTPHeader buf ss (firstPacket ss) 0x5D in
  (lc_payload (u8 dataType) 0xC0 pkt buf, ipsc_next ss).

(** The headers of a voice burst of [size] bytes. *)
Definition voice_start (peerID : Z) (pkt : Packet) (ss : streamState) (size : nat) : list Z * streamState :=
  let buf := buildIPSCHeader peerID (replicate size 0) pkt ss false false in
  buildRTPHeader buf ss false 0x5D.

(** The start of its payload: the slot, two length and format bytes and the
    AMBE data. *)
Definition voice_frame (slot l unknown : Z) (ambe buf : list Z) : list Z :=
  let buf := <[30%nat := slot]> buf in
  let buf := <[31%nat := l]> buf in
  let buf := <[32%nat := unknown]> buf in
  list_inserts 33 ambe buf.

(** [None] is a nil packet; the receiver's burst buffer is returned too. *)
Definition buildVoiceBurst `{Dmrgo} (peerID : Z) (burst : Burst) (pkt : Packet) (ss : streamState)
    : option (list Z) * Burst * streamState :=
  let burst := Burst_DecodeFromBytes burst (DMRData pkt) in
  if IsData burst then (None, burst, ss)
  else
    let ambeData := PackAMBEVoiceFrames (VoiceFrames burst) in
    let slotBurst := slot_byte pkt in
    let burstIdx := burstIndex ss mod 6 in
    let start := voice_start peerID pkt ss in
    let voice l unknown buf := voice_frame slotBurst l unknown ambeData buf in
    let embedded (buf : list Z) :=
      if HasEmbeddedSignalling burst
      then list_inserts 52 (take 4 (PackEmbeddedSignallingData burst)) buf else buf in
    if burstIdx =? 0 then
      let '(buf, ss) := start 52%nat in (Some (voice 0x14 0x40 buf), burst, ss)
    else if burstIdx =? 4 then
      let '(buf, ss) := start 66%nat in
      let buf := embedded (voice 0x22 0x16 buf) in
      let buf := list_inserts 59 (put_be24 (Dst pkt)) buf in
      let buf := list_inserts 62 (put_be24 (Src pkt)) buf in
      (Some (<[65%nat := 0x14]> buf), burst, ss)
    else
      let '(buf, ss) := start 57%nat in (Some (embedded (voice 0x19 0x06 buf)), burst, ss).

(** ** Embedded LC *)

Definition embeddedLCCRC5_step (reg bit : Z) : Z :=
  let msb := Z.land (Z.shiftr reg 4) 1 in
  let reg := Z.lor (Z.land (u8 (Z.shiftl reg 1)) 0x1F) (Z.land bit 1) in
  if msb =? 1 then Z.lxor reg 0x15 else reg.

Definition embeddedLCCRC5 (bits : list Z) : Z :=
  let reg := foldl embeddedLCCRC5_step 0 bits in
  Z.lxor (Z.land reg 0x1F) 0x1F.

Definition embedded_lc (src dst : Z) (groupCall : bool) : list Z :=
  [if groupCall then 0x00 else 0x03; 0x00; 0x20] ++ put_be24 dst ++ put_be24 src.

(** Steps 1 and 2: the 72 bits of the LC and the 5 bits of its CRC. *)
Definition embedded_info (src dst : Z) (groupCall : bool) : list Z :=
  let lc := embedded_lc src dst groupCall in
  let bits72 := (fun i => bit_at lc i) <$> seq 0 72 in
  let crc := embeddedLCCRC5 bits72 in
  bits72 ++ ((fun i => Z.land (Z.shiftr crc (Z.of_nat (4 - i))) 1) <$> seq 0 5).

(** The exclusive or of some cells of a row or column. *)
Definition xor_cells (cell : nat -> Z) (ps : list nat) : Z := foldl (fun p j => Z.lxor p (cell j)) 0 ps.

(** One row of the matrix with its Hamming(16,11,4) parity. *)
Definition hamming_row (d : list Z) : list Z :=
  let p11 := xor_cells (byte_at d) [0; 1; 2; 3; 5; 7; 8]%nat in
  let p12 := xor_cells (byte_at d) [1; 2; 3; 4; 6; 8; 9]%nat in
  let p13 := xor_cells (byte_at d) [2; 3; 4; 5; 7; 9; 10]%nat in
  let p14 := xor_cells (byte_at d) [0; 1; 2; 4; 6; 7; 10]%nat in
  let row := d ++ [p11; p12; p13; p14] in
  row ++ [xor_cells (byte_at row) (seq 0 15)].

(** Step 3: seven rows of data bits and a row of column parities. *)
Definition lc_matrix (bits : list Z) : list (list Z) :=
  let data := (fun r => (fun c => bits.[11 * r + c]) <$> seq 0 11) <$> seq 0 7 in
  let parity := (fun c => xor_cells (fun r => (nth r data []).[c]) (seq 0 7)) <$> seq 0 11 in
  hamming_row <$> (data ++ [parity]).

(** Step 4: fragment [f] holds columns [4f] to [4f + 3], eight rows each. *)
Definition lc_fragment (matrix : list (list Z)) (f : nat) : list Z :=
  or_bits (replicate 4 0) 0 32 (fun b => (nth (b mod 8) matrix []).[f * 4 + b / 8] =? 1).

Definition encodeEmbeddedLC (src dst : Z) (groupCall : bool) : list (list Z) :=
  let matrix := lc_matrix (embedded_info src dst groupCall) in
  lc_fragment matrix <$> seq 0 4.

(** ** The layout of the packets *)

(** The first 30 bytes: the IPSC header and the RTP header. *)
Definition ipsc_header (peerID : Z) (pkt : Packet) (ss : streamState) (isEnd isData marker : bool) (pt : Z)
    : list Z :=
  [if isData then (if GroupCall pkt then 0x83 else 0x84) else (if GroupCall pkt then 0x80 else 0x81)] ++
  put_be32 peerID ++ [ipscSeq ss] ++ put_be24 (Src pkt) ++ put_be24 (Dst pkt) ++
  [if GroupCall pkt then 0x02 else 0x01] ++ put_be32 (callControl ss) ++
  [Z.lor (if Slot pkt then 0x20 else 0) (if isEnd then 0x40 else 0)] ++
  [0x80; if marker then Z.lor pt 0x80 else pt] ++ put_be16 (rtpSeq ss) ++ put_be32 (rtpTimestamp ss) ++ put_be32 0.

Lemma header_layout peer buf pkt ss e d m pt :
  (30 <= length buf)%nat ->
  fst (buildRTPHeader (buildIPSCHeader peer buf pkt ss e d) ss m pt) =
  ipsc_header peer pkt ss e d m pt ++ drop 30 buf.
Proof.
  intros Hl. do 30 (destruct buf as [| ? buf]; [cbn in Hl; lia |]).
  unfold ipsc_header, buildIPSCHeader. destruct (Slot pkt), e; reflexivity.
Qed.

Lemma rtp_state buf ss m pt : snd (buildRTPHeader buf ss m pt) = rtp_next ss.
Proof. done. Qed.

Lemma take_inserts_ge {A} (l k : list A) n i : (n <= i)%nat -> take n (list_inserts i k l) = take n l.
Proof.
  revert i. induction k as [| x k IH]; intros i Hi; cbn [list_inserts]; [done |].
  rewrite take_insert_ge by done. apply IH. lia.
Qed.
Lemma length_header peer pkt ss e d m pt : length (ipsc_header peer pkt ss e d m pt) = 30%nat.
Proof. done. Qed.

(** A packet that starts with the header of [pkt]. *)
Definition framed (data : list Z) (peer : Z) (pkt : Packet) (ss : streamState) (e d m : bool) (pt : Z) : Prop :=
  take 30 data = ipsc_header peer pkt ss e d m pt.

Lemma framed_byte data peer pkt ss e d m pt i :
  framed data peer pkt ss e d m pt -> (i < 30)%nat -> data.[i] = (ipsc_header peer pkt ss e d m pt).[i].
Proof. intros <- Hi. by rewrite byte_at_take. Qed.

Lemma lc_payload_take `{Dmrgo} bt rssi pkt buf : take 30 (lc_payload bt rssi pkt buf) = take 30 buf.
Proof. unfold lc_payload. rewrite !take_inserts_ge, !take_insert_ge, !take_inserts_ge, !take_insert_ge by lia. done. Qed.

Lemma lc_payload_length `{Dmrgo} bt rssi pkt buf : length (lc_payload bt rssi pkt buf) = length buf.
Proof.
  unfold lc_payload. by rewrite length_inserts, length_inserts, length_insert, length_insert, length_inserts,
    length_insert, length_insert.
Qed.

Lemma standard_lc_length `{Dmrgo} src dst g : length (buildStandardLCBytes src dst g) = 12%nat.
Proof.
  unfold buildStandardLCBytes. destruct (_ || _); [done |]. cbn zeta.
  destruct (FullLinkControl_Encode _); [| done]. by rewrite length_inserts.
Qed.

Lemma lc_payload_type `{Dmrgo} bt rssi pkt buf :
  length buf = 54%nat -> (lc_payload bt rssi pkt buf).[30] = bt /\
  take 12 (drop 38 (lc_payload bt rssi pkt buf)) = extractFullLCBytes pkt.
Proof.
  intros Hl. unfold lc_payload. set (lc := extractFullLCBytes pkt).
  assert (Hlc : length lc = 12%nat) by apply standard_lc_length.
  do 54 (destruct buf as [| ? buf]; [done |]). destruct buf; [| done].
  do 12 (destruct lc as [| ? lc]; [done |]). destruct lc; [| done]. split; reflexivity.
Qed.

(** The packets that carry a Full LC. *)
Lemma lc_packet_spec `{Dmrgo} peer pkt ss e d m pt bt rssi :
  let '(buf, ss') := buildRTPHeader (buildIPSCHeader peer (replicate 54 0) pkt ss e d) ss m pt in
  let data := lc_payload bt rssi pkt buf in
  framed data peer pkt ss e d m pt /\ length data = 54%nat /\ ss' = rtp_next ss /\
  data.[30] = bt /\ take 12 (drop 38 data) = extractFullLCBytes pkt.
Proof.
  unfold framed. pose proof (header_layout peer (replicate 54 0) pkt ss e d m pt) as L.
  destruct (buildRTPHeader _ _ m pt) as [buf ss'] eqn:E. cbn [fst] in L. specialize (L ltac:(cbn; lia)).
  assert (Hl : length buf = 54%nat) by by rewrite L.
  cbn zeta. rewrite lc_payload_take, lc_payload_length. destruct (lc_payload_type bt rssi pkt buf Hl) as [-> ->].
  pose proof (rtp_state (buildIPSCHeader peer (replicate 54 0) pkt ss e d) ss m pt) as Hss.
  rewrite E in Hss. cbn [snd] in Hss. split_ands; try done. by rewrite L.
Qed.

Lemma voice_header_spec `{Dmrgo} peer pkt ss f :
  let '(data, ss') := buildVoiceHeader peer pkt ss f in
  framed data peer pkt ss false false f 0x5D /\ length data = 54%nat /\ ss' = rtp_next ss /\
  data.[30] = ipscBurstVoiceHead /\ take 12 (drop 38 data) = extractFullLCBytes pkt.
Proof.
  unfold buildVoiceHeader.
  pose proof (lc_packet_spec peer pkt ss false false f 0x5D ipscBurstVoiceHead 0x80) as S.
  by destruct (buildRTPHeader _ _ f 0x5D).
Qed.

Lemma voice_terminator_spec `{Dmrgo} peer pkt ss :
  let '(data, ss') := buildVoiceTerminator peer pkt ss in
  framed data peer pkt ss true false false 0x5E /\ length data = 54%nat /\ ss' = ipsc_next (rtp_next ss) /\
  data.[30] = ipscBurstVoiceTerm /\ take 12 (drop 38 data) = extractFullLCBytes pkt.
Proof.
  unfold buildVoiceTerminator.
  pose proof (lc_packet_spec peer pkt ss true false false 0x5E ipscBurstVoiceTerm 0x80) as S.
  destruct (buildRTPHeader _ _ false 0x5E). destruct S as (S1 & S2 & -> & S3). by split_ands.
Qed.

Lemma data_packet_spec `{Dmrgo} peer pkt ss dt :
  let '(data, ss') := buildIPSCDataPacket peer pkt ss dt in
  framed data peer pkt ss false true (firstPacket ss) 0x5D /\ length data = 54%nat /\
  ss' = ipsc_next (rtp_next ss) /\
  data.[30] = u8 dt /\ take 12 (drop 38 data) = extractFullLCBytes pkt.
Proof.
  unfold buildIPSCDataPacket.
  pose proof (lc_packet_spec peer pkt ss false true (firstPacket ss) 0x5D (u8 dt) 0xC0) as S.
  destruct (buildRTPHeader _ _ (firstPacket ss) 0x5D). destruct S as (S1 & S2 & -> & S3). by split_ands.
Qed.

(** The length of the burst at each position of a superframe. *)
Definition voice_len (idx : Z) : nat := if idx =? 0 then 52%nat else if idx =? 4 then 66%nat else 57%nat.

Lemma pack_length frames : length (PackAMBEVoiceFrames frames) = 19%nat.
Proof. unfold PackAMBEVoiceFrames. by rewrite or_bits_length. Qed.

(** Bytes before an insertion survive it, in slices. *)
Lemma slice_inserts_ge {A} (l k : list A) n m i :
  (n + m <= i)%nat -> take m (drop n (list_inserts i k l)) = take m (drop n l).
Proof. intros Hi. rewrite !take_drop_commute. by rewrite take_inserts_ge by lia. Qed.
Lemma slice_insert_ge {A} (l : list A) x n m i :
  (n + m <= i)%nat -> take m (drop n (<[i := x]> l)) = take m (drop n l).
Proof. intros Hi. rewrite !take_drop_commute. by rewrite take_insert_ge by lia. Qed.

Lemma voice_frame_spec slot l unknown ambe buf :
  (52 <= length buf)%nat -> length ambe = 19%nat ->
  let data := voice_frame slot l unknown ambe buf in
  take 30 data = take 30 buf /\ length data = length buf /\ data.[30] = slot /\ take 19 (drop 33 data) = ambe.
Proof.
  intros Hl Ha. unfold voice_frame. cbn zeta. split_ands.
  - rewrite take_inserts_ge, !take_insert_ge by lia. done.
  - by rewrite length_inserts, !length_insert.
  - rewrite byte_at_inserts_out, !byte_at_insert_ne by lia. apply byte_at_insert. lia.
  - apply byte_at_ext; [rewrite length_take, length_drop, length_inserts, !length_insert; lia |].
    intros i Hi. rewrite length_take, length_drop, length_inserts, !length_insert in Hi.
    rewrite byte_at_take, byte_at_drop by lia. rewrite byte_at_inserts_in; [f_equal; lia | lia |].
    rewrite !length_insert. lia.
Qed.

Lemma voice_start_spec peer pkt ss size slot l unknown ambe :
  (52 <= size)%nat -> length ambe = 19%nat ->
  let '(buf, ss') := voice_start peer pkt ss size in
  let data := voice_frame slot l unknown ambe buf in
  ss' = rtp_next ss /\ framed data peer pkt ss false false false 0x5D /\ length data = size /\
  data.[30] = slot /\ take 19 (drop 33 data) = ambe.
Proof.
  intros Hs Ha. unfold voice_start. pose proof (header_layout peer (replicate size 0) pkt ss false false false 0x5D) as L.
  rewrite length_replicate in L. specialize (L ltac:(lia)).
  destruct (buildRTPHeader _ _ false 0x5D) as [buf ss'] eqn:E. cbn [fst] in L.
  pose proof (rtp_state (buildIPSCHeader peer (replicate size 0) pkt ss false false) ss false 0x5D) as Hss.
  rewrite E in Hss. cbn [snd] in Hss.
  assert (Hl : length buf = size) by (rewrite L, length_app, length_drop, length_replicate, length_header; lia).
  destruct (voice_frame_spec slot l unknown ambe buf ltac:(lia) Ha) as (V1 & V2 & V3 & V4).
  cbn zeta. unfold framed. rewrite V1, V2, V3, V4. split_ands; try done. rewrite L.
  by apply take_app_length'.
Qed.

(** Writing behind the AMBE data keeps what the reader looks at. *)
Definition kept (data data' : list Z) : Prop :=
  take 30 data' = take 30 data /\ length data' = length data /\ data'.[30] = data.[30] /\
  take 19 (drop 33 data') = take 19 (drop 33 data).
Lemma kept_refl data : kept data data.
Proof. done. Qed.
Lemma kept_inserts data data' i k : (52 <= i)%nat -> kept data data' -> kept data (list_inserts i k data').
Proof.
  intros Hi (H1 & H2 & H3 & H4). unfold kept.
  by rewrite take_inserts_ge, length_inserts, byte_at_inserts_out, slice_inserts_ge by lia.
Qed.
Lemma kept_insert data data' i x : (52 <= i)%nat -> kept data data' -> kept data (<[i := x]> data').
Proof. intros Hi H. by apply (kept_inserts data data' i [x]). Qed.

#[local] Opaque voice_start voice_frame.

Lemma voice_burst_spec `{Dmrgo} peer b pkt ss :
  let b' := Burst_DecodeFromBytes b (DMRData pkt) in
  IsData b' = false ->
  exists data, buildVoiceBurst peer b pkt ss = (Some data, b', rtp_next ss) /\
    framed data peer pkt ss false false false 0x5D /\ length data = voice_len (burstIndex ss mod 6) /\
    data.[30] = slot_byte pkt /\ take 19 (drop 33 data) = PackAMBEVoiceFrames (VoiceFrames b').
Proof.
  intros b' Hd. unfold buildVoiceBurst. fold b'. rewrite Hd. cbn zeta.
  set (ambe := PackAMBEVoiceFrames (VoiceFrames b')). assert (Ha : length ambe = 19%nat) by apply pack_length.
  assert (Hfin : forall size l u, (52 <= size)%nat ->
    let '(buf, ss') := voice_start peer pkt ss size in
    forall data, kept (voice_frame (slot_byte pkt) l u ambe buf) data ->
    ss' = rtp_next ss /\ framed data peer pkt ss false false false 0x5D /\ length data = size /\
    data.[30] = slot_byte pkt /\ take 19 (drop 33 data) = ambe).
  { intros size l u Hs. pose proof (voice_start_spec peer pkt ss size (slot_byte pkt) l u ambe Hs Ha) as V.
    destruct (voice_start peer pkt ss size) as [buf ss']. destruct V as (V0 & V1 & V2 & V3 & V4).
    intros data (K1 & K2 & K3 & K4). unfold framed in *. rewrite K1, K2, K3, K4. exact (conj V0 (conj V1 (conj V2 (conj V3 V4)))). }
  clearbody ambe. clear Ha. unfold voice_len.
  destruct (burstIndex ss mod 6 =? 0); [| destruct (burstIndex ss mod 6 =? 4)].
  - specialize (Hfin 52%nat 0x14 0x40 ltac:(lia)). destruct (voice_start peer pkt ss 52) as [buf ss'].
    eexists. match goal with |- (Some ?d, _, _) = _ /\ _ => destruct (Hfin d) as (-> & H') end.
    { apply kept_refl. }
    split; [reflexivity | exact H'].
  - specialize (Hfin 66%nat 0x22 0x16 ltac:(lia)). destruct (voice_start peer pkt ss 66) as [buf ss'].
    eexists. match goal with |- (Some ?d, _, _) = _ /\ _ => destruct (Hfin d) as (-> & H') end.
    { apply kept_insert, kept_inserts, kept_inserts; [lia .. |].
      destruct (HasEmbeddedSignalling b'); [apply kept_inserts; [lia |] |]; apply kept_refl. }
    split; [reflexivity | exact H'].
  - specialize (Hfin 57%nat 0x19 0x06 ltac:(lia)). destruct (voice_start peer pkt ss 57) as [buf ss'].
    eexists. match goal with |- (Some ?d, _, _) = _ /\ _ => destruct (Hfin d) as (-> & H') end.
    { destruct (HasEmbeddedSignalling b'); [apply kept_inserts; [lia |] |]; apply kept_refl. }
    split; [reflexivity | exact H'].
Qed.

(** ** The embedded LC *)

(** Cell (r, c) of the matrix as a receiver reassembles it from the fragments. *)
Definition received_cell (fragments : list (list Z)) (r c : nat) : Z :=
  bit_at (nth (c / 4) fragments []) (8 * (c mod 4) + r).

(** The parity equations of Hamming(16,11,4) on a row. *)
Definition row_checks : list (list nat) :=
  [[0; 1; 2; 3; 5; 7; 8; 11]; [1; 2; 3; 4; 6; 8; 9; 12]; [2; 3; 4; 5; 7; 9; 10; 13];
     [0; 1; 2; 4; 6; 7; 10; 14]; seq 0 16]%nat.

Lemma xor_cells_bit cell ps : (forall j, is_bit (cell j)) -> is_bit (xor_cells cell ps).
Proof. intros Hc. apply (foldl_inv is_bit); [by left |]. intros p j _ Hp. by apply bit_lxor. Qed.

Lemma xor_cells_ext f g ps : (forall j, j ∈ ps -> f j = g j) -> xor_cells f ps = xor_cells g ps.
Proof. intros He. apply foldl_ext_in. intros p j Hj. by rewrite He. Qed.

Lemma xor_cells_snoc cell ps j : cell j = xor_cells cell ps -> xor_cells cell (ps ++ [j]) = 0.
Proof. intros E. unfold xor_cells in *. rewrite foldl_snoc, E. apply Z.lxor_nilpotent. Qed.

Lemma bits_Forall f n : (forall i, is_bit (f i)) -> Forall is_bit (f <$> seq 0 n).
Proof. intros Hf. apply Forall_fmap, Forall_true. exact Hf. Qed.

Lemma embedded_info_bits src dst g : Forall is_bit (embedded_info src dst g).
Proof.
  unfold embedded_info. apply Forall_app. split; apply bits_Forall; intros i; [auto with bytes |].
  apply is_bit_range, land_range; lia.
Qed.

Lemma hamming_row_spec d :
  length d = 11%nat -> Forall is_bit d ->
  let row := hamming_row d in
  length row = 16%nat /\ Forall is_bit row /\ take 11 row = d /\
  Forall (fun ps => xor_cells (byte_at row) ps = 0)
    row_checks.
Proof.
  intros Hl Hb. unfold hamming_row. cbn zeta.
  set (p11 := xor_cells _ [0; 1; 2; 3; 5; 7; 8]%nat). set (p12 := xor_cells _ [1; 2; 3; 4; 6; 8; 9]%nat).
  set (p13 := xor_cells _ [2; 3; 4; 5; 7; 9; 10]%nat). set (p14 := xor_cells _ [0; 1; 2; 4; 6; 7; 10]%nat).
  assert (Hd : forall j, is_bit (d.[j])) by (intros j; apply byte_at_Forall; [done | by left]).
  assert (Hps : is_bit p11 /\ is_bit p12 /\ is_bit p13 /\ is_bit p14)
    by (split_ands; by apply xor_cells_bit).
  set (row := d ++ _). assert (Hrow : Forall is_bit row).
  { apply Forall_app. split; [done |]. destruct Hps as (? & ? & ? & ?). by repeat apply Forall_cons_2. }
  set (p15 := xor_cells _ (seq 0 15)).
  assert (H15 : is_bit p15) by (apply xor_cells_bit; intros j; apply byte_at_Forall; [done | by left]).
  assert (Hcell : forall j, (j < 11)%nat -> (row ++ [p15]).[j] = d.[j]).
  { intros j Hj. unfold row. rewrite byte_at_app_l by (rewrite length_app; cbn; lia). by apply byte_at_app_l; lia. }
  split; [unfold row; by rewrite !length_app, Hl |]. split; [apply Forall_app; split; [done | by apply Forall_cons_2] |].
  split; [unfold row; rewrite <- app_assoc; by apply take_app_length' |].
  assert (Hpar : forall ps k p, (11 <= k < 15)%nat -> row.[k] = p -> (forall j, j ∈ ps -> (j < 11)%nat) ->
    p = xor_cells (byte_at d) ps -> xor_cells (byte_at (row ++ [p15])) (ps ++ [k]) = 0).
  { intros ps k p Hk Hr Hps' Hp. apply xor_cells_snoc.
    rewrite byte_at_app_l by (unfold row; rewrite length_app, Hl; cbn; lia). rewrite Hr, Hp.
    apply xor_cells_ext. intros j Hj. symmetry. by apply Hcell, Hps'. }
  assert (Hr : forall k, (11 <= k < 15)%nat -> row.[k] = [p11; p12; p13; p14].[k - 11]).
  { intros k Hk. unfold row. rewrite byte_at_app_r, Hl by lia. done. }
  repeat apply Forall_cons_2; [.. | done].
  - apply (Hpar [0; 1; 2; 3; 5; 7; 8]%nat 11%nat p11); [lia | by rewrite Hr by lia | set_solver by lia | done].
  - apply (Hpar [1; 2; 3; 4; 6; 8; 9]%nat 12%nat p12); [lia | by rewrite Hr by lia | set_solver by lia | done].
  - apply (Hpar [2; 3; 4; 5; 7; 9; 10]%nat 13%nat p13); [lia | by rewrite Hr by lia | set_solver by lia | done].
  - apply (Hpar [0; 1; 2; 4; 6; 7; 10]%nat 14%nat p14); [lia | by rewrite Hr by lia | set_solver by lia | done].
  - change (seq 0 16) with (seq 0 15 ++ [15%nat]). apply xor_cells_snoc.
    rewrite byte_at_app_r by (unfold row; rewrite length_app, Hl; cbn; lia).
    assert (length row = 15%nat) as -> by (unfold row; by rewrite length_app, Hl). cbn [Nat.sub].
    apply xor_cells_ext. intros j Hj%elem_of_seq. symmetry. apply byte_at_app_l. unfold row. rewrite length_app, Hl. cbn. lia.
Qed.

(** The rows of the matrix before the Hamming parity. *)
Definition matrix_data (bits : list Z) (r : nat) : list Z :=
  if (r <? 7)%nat then (fun c => bits.[11 * r + c]) <$> seq 0 11
  else (fun c => xor_cells (fun r => bits.[11 * r + c]) (seq 0 7)) <$> seq 0 11.

Lemma lc_matrix_row bits r : (r < 8)%nat -> nth r (lc_matrix bits) [] = hamming_row (matrix_data bits r).
Proof.
  intros Hr. unfold lc_matrix. set (data := _ <$> seq 0 7).
  assert (E : (fun c => xor_cells (fun r => (nth r data []).[c]) (seq 0 7)) <$> seq 0 11
    = matrix_data bits 7).
  { unfold matrix_data. cbn [Nat.ltb Nat.leb]. apply list_fmap_ext. intros i c Hc.
    apply lookup_seq in Hc as [-> Hc]. apply foldl_ext_in. intros p r' Hr'. apply elem_of_seq in Hr'.
    unfold data. rewrite nth_map_seq by lia. by rewrite byte_at_map_seq by lia. }
  rewrite E, fmap_app. cbn [fmap list_fmap]. rewrite nth_lookup.
  destruct (decide (r < 7)%nat) as [H7 | H7].
  - rewrite lookup_app_l by (rewrite length_fmap; unfold data; by rewrite length_fmap, length_seq).
    assert (Hd : data !! r = Some (matrix_data bits r)).
    { unfold data, matrix_data. rewrite list_lookup_fmap, lookup_seq_lt by done.
      destruct (Nat.ltb_spec r 7); [exact eq_refl | lia]. }
    rewrite list_lookup_fmap, Hd. exact eq_refl.
  - assert (r = 7)%nat as -> by lia.
    rewrite lookup_app_r by (rewrite length_fmap; unfold data; by rewrite length_fmap, length_seq).
    rewrite length_fmap. unfold data. by rewrite length_fmap, length_seq.
Qed.

Lemma matrix_data_bits bits r :
  Forall is_bit bits -> length (matrix_data bits r) = 11%nat /\ Forall is_bit (matrix_data bits r).
Proof.
  intros Hb. assert (Hc : forall j, is_bit (bits.[j])) by (intros j; apply byte_at_Forall; [done | by left]).
  unfold matrix_data. destruct (_ <? _)%nat; (split; [by rewrite length_fmap, length_seq |]);
    apply bits_Forall; intros c; [apply Hc |]. by apply xor_cells_bit.
Qed.

Lemma received_matrix src dst g r c :
  (r < 8)%nat -> (c < 16)%nat ->
  received_cell (encodeEmbeddedLC src dst g) r c = (hamming_row (matrix_data (embedded_info src dst g) r)).[c].
Proof.
  intros Hr Hc. unfold received_cell, encodeEmbeddedLC. cbn zeta.
  pose proof (Nat.div_mod_eq c 4). pose proof (Nat.mod_upper_bound c 4 ltac:(lia)).
  rewrite nth_map_seq by (apply Nat.Div0.div_lt_upper_bound; lia).
  unfold lc_fragment. rewrite bit_at_or_bits_zero; [| cbn; lia | lia | apply bit_at_zeros].
  rewrite Nat.sub_0_r. assert (((8 * (c mod 4) + r) mod 8)%nat = r) as ->.
  { rewrite Nat.add_comm, Nat.mul_comm, Nat.Div0.mod_add. apply Nat.mod_small. lia. }
  assert (((8 * (c mod 4) + r) / 8)%nat = c mod 4)%nat as ->.
  { rewrite Nat.add_comm, Nat.mul_comm, Nat.div_add by lia. rewrite Nat.div_small by lia. lia. }
  replace (c / 4 * 4 + c mod 4)%nat with c by lia. rewrite lc_matrix_row by done.
  destruct (matrix_data_bits (embedded_info src dst g) r (embedded_info_bits src dst g)) as [Hl Hb].
  destruct (hamming_row_spec _ Hl Hb) as (_ & HB & _). apply b2z_eqb_1, byte_at_Forall; [done | by left].
Qed.

Lemma hamming_row_data bits r c :
  Forall is_bit bits -> (c < 11)%nat -> (hamming_row (matrix_data bits r)).[c] = (matrix_data bits r).[c].
Proof.
  intros Hb Hc. destruct (matrix_data_bits bits r Hb) as [Hl Hm].
  destruct (hamming_row_spec _ Hl Hm) as (_ & _ & Ht & _). by rewrite <- (byte_at_take _ 11 c), Ht.
Qed.

Lemma info_length src dst g : length (embedded_info src dst g) = 77%nat.
Proof. unfold embedded_info. by rewrite length_app, !length_fmap, !length_seq. Qed.

(** The embedded LC the translator computes for a call is a codeword of the
    variable-length BPTC: reassembling the four fragments column by column gives
    a matrix whose eight rows are Hamming(16,11,4) codewords with even overall
    parity and whose eleven data columns have even parity, and the data cells
    read row by row are the 72 bits of the call's link control (call type,
    destination and source) followed by their CRC. *)
Theorem ipsc_embedded_lc src dst g :
  let M := received_cell (encodeEmbeddedLC src dst g) in
  (forall r, (r < 8)%nat -> Forall (fun ps => xor_cells (M r) ps = 0)
    row_checks) /\
  (forall c, (c < 11)%nat -> xor_cells (fun r => M r c) (seq 0 8) = 0) /\
  (forall i, (i < 72)%nat -> M (i / 11)%nat (i mod 11)%nat = bit_at (embedded_lc src dst g) i) /\
  (forall k, (k < 5)%nat -> M 6%nat (6 + k)%nat =
     Z.b2z (Z.testbit (embeddedLCCRC5 (bit_at (embedded_lc src dst g) <$> seq 0 72)) (Z.of_nat (4 - k)))).
Proof.
  cbn zeta. pose proof (embedded_info_bits src dst g) as Hb. pose proof (info_length src dst g) as Hlen.
  set (info := embedded_info src dst g) in *.
  assert (Hcell : forall i, (i < 77)%nat -> received_cell (encodeEmbeddedLC src dst g) (i / 11) (i mod 11) = info.[i]).
  { intros i Hi. pose proof (Nat.mod_upper_bound i 11 ltac:(lia)). pose proof (Nat.div_mod_eq i 11).
    rewrite received_matrix by lia. fold info. rewrite hamming_row_data by done.
    unfold matrix_data. destruct (Nat.ltb_spec (i / 11) 7); [| lia]. rewrite byte_at_map_seq by done. f_equal. lia. }
  split_ands.
  - intros r Hr. destruct (matrix_data_bits info r Hb) as [Hl Hm].
    destruct (hamming_row_spec _ Hl Hm) as (_ & _ & _ & Hps).
    rewrite Forall_forall in *. intros ps Hin. etrans; [| apply (Hps ps Hin)].
    apply xor_cells_ext. intros j Hj. apply received_matrix; [done |].
    assert (Hall : Forall (Forall (fun j => (j < 16)%nat)) row_checks) by by_eval.
    rewrite Forall_forall in Hall. specialize (Hall ps Hin). by rewrite Forall_forall in Hall; apply Hall.
  - intros c Hc. change (seq 0 8) with (seq 0 7 ++ [7%nat]). apply xor_cells_snoc.
    rewrite received_matrix by lia. fold info. rewrite hamming_row_data by done. unfold matrix_data at 1.
    change (7 <? 7)%nat with false. cbv iota. rewrite byte_at_map_seq by done. apply xor_cells_ext.
    intros r Hr%elem_of_seq. rewrite received_matrix by lia. fold info. rewrite hamming_row_data by done.
    unfold matrix_data. destruct (Nat.ltb_spec r 7); [| lia]. by rewrite byte_at_map_seq by done.
  - intros i Hi. rewrite Hcell by lia. unfold info, embedded_info. rewrite byte_at_app_l by (by rewrite length_fmap, length_seq).
    by apply (byte_at_map_seq (fun i => bit_at (embedded_lc src dst g) i)).
  - intros k Hk. pose proof (Hcell (72 + k)%nat ltac:(lia)) as E.
    assert (((72 + k) / 11)%nat = 6%nat /\ ((72 + k) mod 11)%nat = (6 + k)%nat) as [E1 E2].
    { do 5 (destruct k as [| k]; [done |]). lia. }
    rewrite E1, E2 in E. rewrite E. unfold info, embedded_info. cbn zeta.
    rewrite byte_at_app_r by (rewrite length_fmap, length_seq; lia). rewrite length_fmap, length_seq.
    replace (72 + k - 72)%nat with k by lia. rewrite byte_at_map_seq by done.
    set (crc := embeddedLCCRC5 _). clearbody crc. rewrite (Z.land_ones _ 1) by lia. change (2 ^ 1) with 2.
    by rewrite <- Z.bit0_mod, Z.shiftr_spec, Z.add_0_l by lia.
Qed.
