(* ===== verification/Translator.v ===== *)
(** * The IPSC translator (internal/ipsc/translator.go, the two directions)

    [TranslateToIPSC] turns a DMRD packet into IPSC packets and
    [TranslateToMMDVM] an IPSC packet into DMRD packets; both keep the state of
    the streams in maps from the stream's identifier to a pointer.  Several
    identifiers may point to the same state, so the states live in a store and
    the maps hold locations.

    A Go map is iterated in an unspecified order, and the first recent stream
    found is reused: the order is a parameter ([MapOrder]).  An operation reads
    the clock once ([now]). *)

From S2P Require Import Prelude Bits Packet LinkControl VoiceBurst IpscFrame.
From S2P Require Bptc.

Notation loc := nat (only parsing).

(** The order in which a map is iterated. *)
Class MapOrder := { iter : gmap Z loc -> list (Z * loc) }.
Class MapOrderLaws `{MapOrder} : Prop := { iter_elements m : iter m ≡ₚ map_to_list m }.

Record reverseStreamState := mkReverse {
  rs_streamID : Z;
  rs_seq : Z;
  rs_burstIndex : Z;
  rs_started : bool;
  rs_peerID : Z;
  rs_src : Z;
  rs_dst : Z;
  rs_slot : bool;
  rs_groupCall : bool;
  rs_lastSeen : time;
  rs_embeddedFragments : list (list Z);
  rs_hasEmbeddedLC : bool
}.

Definition forwardStreamReuseWindow : Z := 8 * second.
Definition reverseStreamReuseWindow : Z := 1500 * millisecond.

Section translator.
Context `{Dmrgo} `{MapOrder}.

Record IPSCTranslator := mkTranslator {
  peerID : Z;
  repeaterID : Z;
  colorCode : Z;
  streams : gmap Z loc;
  forward_store : gmap loc streamState;
  reverseStreams : gmap Z loc;
  reverse_store : gmap loc reverseStreamState;
  burst : Burst;
  nextCallControl : Z;
  nextStreamID : Z
}.

Definition NewIPSCTranslator : IPSCTranslator := mkTranslator 0 0 0 ∅ ∅ ∅ ∅ Burst_zero 0 0.

Definition SetPeerID (t : IPSCTranslator) (id : Z) : IPSCTranslator :=
  mkTranslator id id (colorCode t) (streams t) (forward_store t) (reverseStreams t) (reverse_store t)
    (burst t) (nextCallControl t) (nextStreamID t).

Definition SetColorCode (t : IPSCTranslator) (cc : Z) : IPSCTranslator :=
  mkTranslator (peerID t) (repeaterID t) (Z.land cc 0x0F) (streams t) (forward_store t) (reverseStreams t)
    (reverse_store t) (burst t) (nextCallControl t) (nextStreamID t).

Definition with_streams (t : IPSCTranslator) m :=
  mkTranslator (peerID t) (repeaterID t) (colorCode t) m (forward_store t) (reverseStreams t) (reverse_store t)
    (burst t) (nextCallControl t) (nextStreamID t).
Definition with_forward (t : IPSCTranslator) (l : loc) (ss : streamState) :=
  mkTranslator (peerID t) (repeaterID t) (colorCode t) (streams t) (<[l := ss]> (forward_store t))
    (reverseStreams t) (reverse_store t) (burst t) (nextCallControl t) (nextStreamID t).
Definition with_burst (t : IPSCTranslator) b :=
  mkTranslator (peerID t) (repeaterID t) (colorCode t) (streams t) (forward_store t) (reverseStreams t)
    (reverse_store t) b (nextCallControl t) (nextStreamID t).
Definition with_callControl (t : IPSCTranslator) n :=
  mkTranslator (peerID t) (repeaterID t) (colorCode t) (streams t) (forward_store t) (reverseStreams t)
    (reverse_store t) (burst t) n (nextStreamID t).
Definition with_reverseStreams (t : IPSCTranslator) m :=
  mkTranslator (peerID t) (repeaterID t) (colorCode t) (streams t) (forward_store t) m (reverse_store t)
    (burst t) (nextCallControl t) (nextStreamID t).
Definition with_reverse (t : IPSCTranslator) (l : loc) (rss : reverseStreamState) :=
  mkTranslator (peerID t) (repeaterID t) (colorCode t) (streams t) (forward_store t) (reverseStreams t)
    (<[l := rss]> (reverse_store t)) (burst t) (nextCallControl t) (nextStreamID t).
Definition with_streamID (t : IPSCTranslator) n :=
  mkTranslator (peerID t) (repeaterID t) (colorCode t) (streams t) (forward_store t) (reverseStreams t)
    (reverse_store t) (burst t) (nextCallControl t) n.

Definition CleanupStream (t : IPSCTranslator) (streamID : Z) : IPSCTranslator :=
  with_streams t (delete streamID (streams t)).

(** A counter that skips zero. *)
Definition next_id (n : Z) : Z := let n := u32 (n + 1) in if n =? 0 then 1 else n.

(** A location no stream uses. *)
Definition fresh_loc {A} (store : gmap loc A) : loc := fresh (dom store : gset loc).

(** ** MMDVM to IPSC *)

Definition recent_forward (t : IPSCTranslator) (pkt : Packet) (now : time) (kv : Z * loc) : bool :=
  match forward_store t !! snd kv with
  | None => false
  | Some ss =>
      (ss_src ss =? Src pkt) && (ss_dst ss =? Dst pkt) && eqb (ss_groupCall ss) (GroupCall pkt)
      && eqb (ss_slot ss) (Slot pkt)
      && negb (time_is_zero (ss_lastSeen ss))
      && (time_sub now (ss_lastSeen ss) <=? forwardStreamReuseWindow)
  end.

Definition findRecentForwardStream (t : IPSCTranslator) (pkt : Packet) (now : time) : option loc :=
  snd <$> List.find (recent_forward t pkt now) (iter (streams t)).

Definition removeForwardStreamAliases (t : IPSCTranslator) (target : loc) : IPSCTranslator :=
  with_streams t (filter (fun kv => snd kv <> target) (streams t)).

(** Get or create the state of the packet's stream. *)
Definition forward_stream (t : IPSCTranslator) (pkt : Packet) (now : time) : IPSCTranslator * loc :=
  let id := u32 (StreamID pkt) in
  match streams t !! id with
  | Some l => (t, l)
  | None =>
      let recent :=
        if (FrameType pkt =? mmdvmFrameTypeVoice) || (FrameType pkt =? mmdvmFrameTypeVoiceSync)
        then findRecentForwardStream t pkt now else None in
      match recent with
      | Some l => (with_streams t (<[id := l]> (streams t)), l)
      | None =>
          let t := with_callControl t (next_id (nextCallControl t)) in
          let ss := mkStream (nextCallControl t) 0 0 0 0 0 true (Src pkt) (Dst pkt) (Slot pkt) (GroupCall pkt) now in
          let l := fresh_loc (forward_store t) in
          (with_forward (with_streams t (<[id := l]> (streams t))) l ss, l)
      end
  end.

Definition refresh (ss : streamState) (pkt : Packet) (now : time) : streamState :=
  mkStream (callControl ss) (rtpSeq ss) (rtpTimestamp ss) (ipscSeq ss) (headersSent ss) (burstIndex ss)
    (firstPacket ss) (Src pkt) (Dst pkt) (Slot pkt) (GroupCall pkt) now.

Definition with_firstPacket (ss : streamState) (b : bool) : streamState :=
  mkStream (callControl ss) (rtpSeq ss) (rtpTimestamp ss) (ipscSeq ss) (headersSent ss) (burstIndex ss)
    b (ss_src ss) (ss_dst ss) (ss_slot ss) (ss_groupCall ss) (ss_lastSeen ss).
Definition with_burstIndex (ss : streamState) (i : Z) : streamState :=
  mkStream (callControl ss) (rtpSeq ss) (rtpTimestamp ss) (ipscSeq ss) (headersSent ss) i
    (firstPacket ss) (ss_src ss) (ss_dst ss) (ss_slot ss) (ss_groupCall ss) (ss_lastSeen ss).
Definition with_headersSent (ss : streamState) (n : Z) : streamState :=
  mkStream (callControl ss) (rtpSeq ss) (rtpTimestamp ss) (ipscSeq ss) n (burstIndex ss)
    (firstPacket ss) (ss_src ss) (ss_dst ss) (ss_slot ss) (ss_groupCall ss) (ss_lastSeen ss).

(** The loop that sends the startup headers. *)
Definition voice_headers (peer : Z) (pkt : Packet) (ss : streamState) : list (list Z) * streamState :=
  foldl (fun '(results, ss) i =>
    let '(data, ss) := buildVoiceHeader peer pkt ss ((i =? 0)%nat && firstPacket ss) in
    (results ++ [data], ss)) ([], ss) (seq 0 ipscVoiceHeaderRepeats).

Definition is_data_type (dt : Z) : bool :=
  existsb (Z.eqb dt) [DataTypeCSBK; DataTypePIHeader; DataTypeDataHeader; DataTypeRate12; DataTypeRate34;
    DataTypeRate1; DataTypeMBCHeader; DataTypeMBCContinuation].

(** The switch of [TranslateToIPSC] over the frame type and the data type. *)
Definition translate_frame (t : IPSCTranslator) (l : loc) (ss : streamState) (pkt : Packet)
    : IPSCTranslator * list (list Z) :=
  let frameType := FrameType pkt in
  let dtype := DTypeOrVSeq pkt in
  if frameType =? mmdvmFrameTypeDataSync then
    if 255 <? dtype then (t, [])
    else if dtype =? DataTypeVoiceLCHeader then
      let '(results, ss) := voice_headers (peerID t) pkt ss in
      let ss := with_headersSent ss (Z.of_nat ipscVoiceHeaderRepeats) in
      let ss := with_firstPacket ss false in
      (with_forward t l (with_burstIndex ss 0), results)
    else if dtype =? DataTypeTerminatorWithLC then
      let '(data, ss) := buildVoiceTerminator (peerID t) pkt ss in
      (removeForwardStreamAliases (with_forward t l ss) l, [data])
    else if is_data_type dtype then
      let '(data, ss) := buildIPSCDataPacket (peerID t) pkt ss dtype in
      (with_forward t l (with_firstPacket ss false), [data])
    else (t, [])
  else if (frameType =? mmdvmFrameTypeVoice) || (frameType =? mmdvmFrameTypeVoiceSync) then
    let '(data, b, ss) := buildVoiceBurst (peerID t) (burst t) pkt ss in
    let t := with_burst t b in
    let ss := with_burstIndex ss ((burstIndex ss + 1) mod 6) in
    (with_forward t l ss, match data with Some d => [d] | None => [] end)
  else (t, []).

Definition TranslateToIPSC (t : IPSCTranslator) (pkt : Packet) (now : time) : IPSCTranslator * list (list Z) :=
  if 2 ^ 32 - 1 <? StreamID pkt then (t, [])
  else
    let '(t, l) := forward_stream t pkt now in
    match forward_store t !! l with
    | None => (t, [])
    | Some ss =>
        let ss := refresh ss pkt now in
        translate_frame (with_forward t l ss) l ss pkt
    end.

(** ** IPSC to MMDVM *)

Definition recent_reverse (t : IPSCTranslator) (now : time) (same : reverseStreamState -> bool) (kv : Z * loc)
    : bool :=
  match reverse_store t !! snd kv with
  | None => false
  | Some rss =>
      same rss && negb (time_is_zero (rs_lastSeen rss))
      && (time_sub now (rs_lastSeen rss) <=? reverseStreamReuseWindow)
  end.

Definition findRecentReverseStream (t : IPSCTranslator) (src dst : Z) (groupCall slot : bool) (now : time)
    : option loc :=
  snd <$> List.find (recent_reverse t now (fun rss =>
    (rs_src rss =? src) && (rs_dst rss =? dst) && eqb (rs_groupCall rss) groupCall && eqb (rs_slot rss) slot))
    (iter (reverseStreams t)).

Definition findRecentReverseStreamByPeer (t : IPSCTranslator) (peer : Z) (groupCall slot : bool) (now : time)
    : option loc :=
  snd <$> List.find (recent_reverse t now (fun rss =>
    (rs_peerID rss =? peer) && eqb (rs_groupCall rss) groupCall && eqb (rs_slot rss) slot))
    (iter (reverseStreams t)).

Definition removeReverseStreamAliases (t : IPSCTranslator) (target : loc) : IPSCTranslator :=
  with_reverseStreams t (filter (fun kv => snd kv <> target) (reverseStreams t)).

Definition with_seq (rss : reverseStreamState) (n : Z) : reverseStreamState :=
  mkReverse (rs_streamID rss) n (rs_burstIndex rss) (rs_started rss) (rs_peerID rss) (rs_src rss) (rs_dst rss)
    (rs_slot rss) (rs_groupCall rss) (rs_lastSeen rss) (rs_embeddedFragments rss) (rs_hasEmbeddedLC rss).
Definition with_index (rss : reverseStreamState) (i : Z) : reverseStreamState :=
  mkReverse (rs_streamID rss) (rs_seq rss) i (rs_started rss) (rs_peerID rss) (rs_src rss) (rs_dst rss)
    (rs_slot rss) (rs_groupCall rss) (rs_lastSeen rss) (rs_embeddedFragments rss) (rs_hasEmbeddedLC rss).
Definition with_lastSeen (rss : reverseStreamState) (now : time) : reverseStreamState :=
  mkReverse (rs_streamID rss) (rs_seq rss) (rs_burstIndex rss) (rs_started rss) (rs_peerID rss) (rs_src rss)
    (rs_dst rss) (rs_slot rss) (rs_groupCall rss) now (rs_embeddedFragments rss) (rs_hasEmbeddedLC rss).
(** [started = true; burstIndex = 0] and the embedded LC of the call. *)
Definition with_start (rss : reverseStreamState) (fragments : list (list Z)) : reverseStreamState :=
  mkReverse (rs_streamID rss) (rs_seq rss) 0 true (rs_peerID rss) (rs_src rss) (rs_dst rss) (rs_slot rss)
    (rs_groupCall rss) (rs_lastSeen rss) fragments true.

Definition DMRD : list Z := [68; 77; 82; 68].

Definition buildMMDVMDataPacket (t : IPSCTranslator) (src dst : Z) (groupCall slot : bool)
    (rss : reverseStreamState) (dataType : Z) (ipscData : list Z) : Packet * reverseStreamState :=
  let lcBytes :=
    if (50 <=? length ipscData)%nat then take 12 (drop 38 ipscData)
    else buildStandardLCBytes src dst groupCall in
  let lcBytes :=
    if (length ipscData <? 50)%nat
       && ((dataType =? DataTypeVoiceLCHeader) || (dataType =? DataTypeTerminatorWithLC))
    then <[0%nat := if groupCall then FLCOGroupVoiceChannelUser else FLCOUnitToUnitVoiceChannelUser]> lcBytes
    else lcBytes in
  (mkPacket DMRD (rs_seq rss) src dst (repeaterID t) slot groupCall mmdvmFrameTypeDataSync dataType
     (rs_streamID rss) (Bptc.BuildLCDataBurst lcBytes (u8 dataType) (colorCode t)),
   with_seq rss (u8 (rs_seq rss + 1))).

Definition populateEmbeddedSignalling (t : IPSCTranslator) (b : OutBurst) (burstIdx : Z) (ipscData : list Z)
    (rss : reverseStreamState) : OutBurst :=
  let lcss := if burstIdx =? 1 then FirstFragmentLC
              else if burstIdx =? 4 then LastFragmentLCorCSBK else ContinuationFragmentLCorCSBK in
  let emb := mkEmb (colorCode t) false lcss true in
  let unpack data := mkOut (ob_frames b) (ob_SyncPattern b) (ob_VoiceBurst b) (ob_HasEmbeddedSignalling b)
    (Some emb) data in
  let embBytes := if (length ipscData =? 57)%nat then drop 52 ipscData
                  else if (length ipscData =? 66)%nat then take 7 (drop 52 ipscData) else [] in
  let candidate := take 4 embBytes in
  if (4 <=? length embBytes)%nat && existsb (fun x => negb (x =? 0)) candidate then unpack candidate
  else if rs_hasEmbeddedLC rss then
    let fragIdx := burstIdx - 1 in
    let fragIdx := if (fragIdx <? 0) || (3 <? fragIdx) then 0 else fragIdx in
    unpack (nth (Z.to_nat fragIdx) (rs_embeddedFragments rss) [])
  else unpack (ob_embedded b).

Definition buildMMDVMVoiceBurst (t : IPSCTranslator) (src dst : Z) (groupCall slot : bool)
    (rss : reverseStreamState) (ipscData : list Z) : list Packet * reverseStreamState :=
  let ambeBytes := take 19 (drop 33 ipscData) in
  let frames := UnpackAMBEVoiceFrames ambeBytes in
  let burstIdx := rs_burstIndex rss mod 6 in
  let b :=
    if burstIdx =? 0 then mkOut frames MsSourcedVoice 0 false None []
    else populateEmbeddedSignalling t (mkOut frames EmbeddedSignallingPattern burstIdx true None [])
           burstIdx ipscData rss in
  let dmrData := Burst_Encode b in
  let frameType := if burstIdx =? 0 then mmdvmFrameTypeVoiceSync else mmdvmFrameTypeVoice in
  ([mkPacket DMRD (rs_seq rss) src dst (repeaterID t) slot groupCall frameType burstIdx
      (rs_streamID rss) dmrData],
   with_index (with_seq rss (u8 (rs_seq rss + 1))) ((rs_burstIndex rss + 1) mod 6)).

(** Get or create the state of the packet's stream. *)
Definition reverse_stream (t : IPSCTranslator) (control peer src dst : Z) (groupCall slot trusted : bool)
    (burstType : Z) (now : time) : IPSCTranslator * loc :=
  match reverseStreams t !! control with
  | Some l => (t, l)
  | None =>
      let recent :=
        match findRecentReverseStream t src dst groupCall slot now with
        | Some l => Some l
        | None =>
            if negb trusted && negb (burstType =? ipscBurstVoiceHead)
            then findRecentReverseStreamByPeer t peer groupCall slot now else None
        end in
      match recent with
      | Some l => (with_reverseStreams t (<[control := l]> (reverseStreams t)), l)
      | None =>
          let t := with_streamID t (next_id (nextStreamID t)) in
          let rss := mkReverse (nextStreamID t) 0 0 false peer src dst slot groupCall now
            (replicate 4 (replicate 4 0)) false in
          let l := fresh_loc (reverse_store t) in
          (with_reverse (with_reverseStreams t (<[control := l]> (reverseStreams t))) l rss, l)
      end
  end.

(** The switch of [TranslateToMMDVM] over the burst type. *)
Definition translate_burst (t : IPSCTranslator) (l : loc) (rss : reverseStreamState) (src dst : Z)
    (groupCall slot isEnd : bool) (burstType : Z) (data : list Z) : IPSCTranslator * list Packet :=
  if burstType =? ipscBurstVoiceHead then
    if negb (rs_started rss) then
      let '(pkt, rss) := buildMMDVMDataPacket t src dst groupCall slot rss DataTypeVoiceLCHeader data in
      (with_reverse t l (with_start rss (encodeEmbeddedLC src dst groupCall)), [pkt])
    else (t, [])
  else if burstType =? ipscBurstVoiceTerm then
    if negb isEnd then (t, [])
    else
      let '(pkt, rss) := buildMMDVMDataPacket t src dst groupCall slot rss DataTypeTerminatorWithLC data in
      (removeReverseStreamAliases (with_reverse t l rss) l, [pkt])
  else if (burstType =? ipscBurstSlot1) || (burstType =? ipscBurstSlot2) then
    if (length data <? 52)%nat then (t, [])
    else
      let '(pkts, rss) := buildMMDVMVoiceBurst t src dst groupCall slot rss data in
      (with_reverse t l rss, pkts)
  else if burstType =? ipscBurstCSBK then
    let '(pkt, rss) := buildMMDVMDataPacket t src dst groupCall slot rss DataTypeCSBK data in
    (with_reverse t l rss, [pkt])
  else if (50 <=? length data)%nat && (burstType <=? 10) then
    let '(pkt, rss) := buildMMDVMDataPacket t src dst groupCall slot rss burstType data in
    (with_reverse t l rss, [pkt])
  else (t, []).

Definition TranslateToMMDVM (t : IPSCTranslator) (packetType : Z) (data : list Z) (now : time)
    : outcome (IPSCTranslator * list Packet) :=
  if (length data <? 30)%nat then Done (t, [])
  else if negb (existsb (Z.eqb packetType) [0x80; 0x81; 0x83; 0x84]) then Done (t, [])
  else
    let peer := get_be32 (data.[1]) (data.[2]) (data.[3]) (data.[4]) in
    let src := get_be24 (data.[6]) (data.[7]) (data.[8]) in
    let dst := get_be24 (data.[9]) (data.[10]) (data.[11]) in
    let groupCall := (packetType =? 0x80) || (packetType =? 0x83) in
    let callInfo := data.[17] in
    let slot := negb (Z.land callInfo 0x20 =? 0) in
    let isEnd := negb (Z.land callInfo 0x40 =? 0) in
    let! burstType := index data 30 in
    let '(src, dst, trusted) :=
      match recoverAddressesFromFullLC data burstType with
      | Some (s, d) => (s, d, true)
      | None => (src, dst, false)
      end in
    let control := get_be32 (data.[13]) (data.[14]) (data.[15]) (data.[16]) in
    let '(t, l) := reverse_stream t control peer src dst groupCall slot trusted burstType now in
    match reverse_store t !! l with
    | None => Done (t, [])
    | Some rss =>
        let src := if negb (rs_src rss =? 0) then rs_src rss else src in
        let dst := if negb (rs_dst rss =? 0) then rs_dst rss else dst in
        let rss := with_lastSeen rss now in
        Done (translate_burst (with_reverse t l rss) l rss src dst groupCall slot isEnd burstType data)
    end.

(** ** Histories of the forward direction *)

(** The location a packet's stream resolves to. *)
Definition target (t : IPSCTranslator) (pkt : Packet) (now : time) : loc := snd (forward_stream t pkt now).

(** Translate the packets of a history; each packet sent is recorded with the
    stream it belongs to. *)
Fixpoint run_forward (t : IPSCTranslator) (hist : list (Packet * time)) : IPSCTranslator * list (loc * list Z) :=
  match hist with
  | [] => (t, [])
  | (pkt, now) :: hist =>
      let '(t', outs) := TranslateToIPSC t pkt now in
      let '(t'', rest) := run_forward t' hist in
      (t'', (pair (target t pkt now) <$> outs) ++ rest)
  end.

End translator.

(** ** Fields of an IPSC packet *)

Definition rtp_seq_of (data : list Z) : Z := get_be16 (data.[20]) (data.[21]).
Definition rtp_timestamp_of (data : list Z) : Z := get_be32 (data.[22]) (data.[23]) (data.[24]) (data.[25]).
Definition call_control_of (data : list Z) : Z := get_be32 (data.[13]) (data.[14]) (data.[15]) (data.[16]).
Definition source_of (data : list Z) : Z := get_be24 (data.[6]) (data.[7]) (data.[8]).
Definition destination_of (data : list Z) : Z := get_be24 (data.[9]) (data.[10]) (data.[11]).

Record ss_wf (ss : streamState) : Prop := {
  wf_control : is_u32 (callControl ss);
  wf_seq : 0 <= rtpSeq ss < 65536;
  wf_timestamp : is_u32 (rtpTimestamp ss)
}.

Lemma framed_fields data peer pkt ss e d m pt :
  framed data peer pkt ss e d m pt -> ss_wf ss ->
  rtp_seq_of data = rtpSeq ss /\ rtp_timestamp_of data = rtpTimestamp ss /\ call_control_of data = callControl ss /\
  data.[0] = (if d then (if GroupCall pkt then 0x83 else 0x84) else (if GroupCall pkt then 0x80 else 0x81)) /\
  data.[17] = Z.lor (if Slot pkt then 0x20 else 0) (if e then 0x40 else 0) /\
  (is_u24 (Src pkt) -> source_of data = Src pkt) /\ (is_u24 (Dst pkt) -> destination_of data = Dst pkt).
Proof.
  intros F [H1 H2 H3]. unfold rtp_seq_of, rtp_timestamp_of, call_control_of, source_of, destination_of.
  rewrite !(framed_byte _ _ _ _ _ _ _ _ _ F) by lia. unfold ipsc_header, put_be16, put_be24, put_be32.
  cbn [app byte_at lookup list_lookup default from_option id]. unfold byte_at. cbn [lookup list_lookup default from_option id].
  rewrite get_put_be16, !get_put_be32 by done. split_ands; try done; apply get_put_be24.
Qed.

(** ** The forward direction keeps the RTP sequence *)

(** A step from [ss] to [ss'] that sends [outs]: the packets are numbered from
    where [ss] stands, and [ss'] stands behind them. *)
Record numbered (ss ss' : streamState) (outs : list (list Z)) : Prop := {
  num_out i data : outs !! i = Some data ->
    rtp_seq_of data = u16 (rtpSeq ss + Z.of_nat i) /\
    rtp_timestamp_of data = u32 (rtpTimestamp ss + rtpTimestampIncrement * Z.of_nat i) /\
    call_control_of data = callControl ss;
  num_seq : rtpSeq ss' = u16 (rtpSeq ss + Z.of_nat (length outs));
  num_timestamp : rtpTimestamp ss' = u32 (rtpTimestamp ss + rtpTimestampIncrement * Z.of_nat (length outs));
  num_control : callControl ss' = callControl ss
}.

Lemma u16_id z : 0 <= z < 65536 -> u16 z = z.
Proof. apply Z.mod_small. Qed.
Lemma u16_add a b : u16 (u16 a + b) = u16 (a + b).
Proof. unfold u16. apply Zplus_mod_idemp_l. Qed.
Lemma u32_add a b : u32 (u32 a + b) = u32 (a + b).
Proof. unfold u32. apply Zplus_mod_idemp_l. Qed.

Lemma numbered_nil ss ss' :
  ss_wf ss -> callControl ss' = callControl ss -> rtpSeq ss' = rtpSeq ss -> rtpTimestamp ss' = rtpTimestamp ss ->
  numbered ss ss' [].
Proof.
  intros [H1 H2 H3] E1 E2 E3. split; [done | | | done]; cbn [length Z.of_nat].
  - by rewrite Z.add_0_r, u16_id.
  - by rewrite Z.mul_0_r, Z.add_0_r, u32_id.
Qed.

Lemma numbered_app ss1 ss2 ss3 outs1 outs2 :
  numbered ss1 ss2 outs1 -> numbered ss2 ss3 outs2 -> numbered ss1 ss3 (outs1 ++ outs2).
Proof.
  intros [A1 A2 A3 A4] [B1 B2 B3 B4]. rewrite A2, A3, A4 in *. split.
  - intros i data Hi. apply lookup_app_Some in Hi as [Hi | [Hle Hi]]; [by apply A1 |].
    apply B1 in Hi as (-> & -> & ->). rewrite u16_add, u32_add. unfold rtpTimestampIncrement.
    split_ands; [| | done]; f_equal; lia.
  - rewrite B2, u16_add, length_app. f_equal. lia.
  - rewrite B3, u32_add, length_app. unfold rtpTimestampIncrement. f_equal. lia.
  - done.
Qed.

Lemma numbered_one ss ss' data peer pkt e d m pt :
  ss_wf ss -> framed data peer pkt ss e d m pt ->
  callControl ss' = callControl ss -> rtpSeq ss' = u16 (rtpSeq ss + 1) ->
  rtpTimestamp ss' = u32 (rtpTimestamp ss + rtpTimestampIncrement) ->
  numbered ss ss' [data].
Proof.
  intros Hwf F E1 E2 E3. pose proof (framed_fields _ _ _ _ _ _ _ _ F Hwf) as (G1 & G2 & G3 & _).
  destruct Hwf as [H1 H2 H3]. split; [| by rewrite E2 | by rewrite E3 | done].
  intros [| i] data' [= <-]. rewrite G1, G2, G3, Z.mul_0_r, !Z.add_0_r. by rewrite u16_id, u32_id.
Qed.

Lemma numbered_wf ss ss' outs : ss_wf ss -> numbered ss ss' outs -> ss_wf ss'.
Proof.
  intros [H1 _ _] [_ E1 E2 E3]. split; [by rewrite E3 | rewrite E1; by apply Z.mod_pos_bound |].
  rewrite E2. apply u32_range.
Qed.

Section forward.
Context `{Dmrgo} `{MapOrder} `{!MapOrderLaws}.

Lemma voice_headers_spec peer pkt ss :
  ss_wf ss ->
  exists d1 d2, voice_headers peer pkt ss = ([d1; d2], rtp_next (rtp_next ss)) /\
    numbered ss (rtp_next (rtp_next ss)) [d1; d2] /\
    framed d1 peer pkt ss false false (firstPacket ss) 0x5D /\
    framed d2 peer pkt (rtp_next ss) false false false 0x5D /\
    Forall (fun d => length d = 54%nat /\ d.[30] = ipscBurstVoiceHead /\
      take 12 (drop 38 d) = extractFullLCBytes pkt) [d1; d2].
Proof.
  intros Hwf. unfold voice_headers. cbn [seq ipscVoiceHeaderRepeats foldl]. cbn [Nat.eqb andb].
  pose proof (voice_header_spec peer pkt ss (firstPacket ss)) as A.
  destruct (buildVoiceHeader peer pkt ss (firstPacket ss)) as [d1 ss1]. destruct A as (A1 & A2 & -> & A3 & A4).
  cbn beta iota zeta. change ((1 =? 0)%nat && _) with false.
  pose proof (voice_header_spec peer pkt (rtp_next ss) false) as B.
  destruct (buildVoiceHeader peer pkt (rtp_next ss) false) as [d2 ss2]. destruct B as (B1 & B2 & -> & B3 & B4).
  assert (N1 : numbered ss (rtp_next ss) [d1]) by (by eapply numbered_one).
  assert (N2 : numbered (rtp_next ss) (rtp_next (rtp_next ss)) [d2])
    by (eapply numbered_one; [by eapply numbered_wf | exact B1 | done ..]).
  exists d1, d2. split_ands; [done | by apply (numbered_app _ _ _ _ _ N1 N2) | done | done |].
  repeat apply Forall_cons_2; by try apply Forall_nil.
Qed.

(** The state the packet's stream had; a new stream starts from zero. *)
Definition start_state (t : IPSCTranslator) (l : loc) (control : Z) : streamState :=
  default (mkStream control 0 0 0 0 0 true 0 0 false false 0) (forward_store t !! l).

Record forward_wf (t : IPSCTranslator) : Prop := {
  fwf_streams id l : streams t !! id = Some l -> is_Some (forward_store t !! l);
  fwf_states l ss : forward_store t !! l = Some ss -> ss_wf ss
}.

Lemma fresh_loc_fresh {A} (store : gmap loc A) : store !! fresh_loc store = None.
Proof. apply not_elem_of_dom. apply is_fresh. Qed.

Lemma next_id_range n : is_u32 (next_id n) /\ next_id n <> 0.
Proof.
  unfold next_id. pose proof (u32_range (n + 1)). destruct (Z.eqb_spec (u32 (n + 1)) 0); [| done]. by vm_compute.
Qed.

Lemma find_recent_spec t pkt now l :
  findRecentForwardStream t pkt now = Some l ->
  exists id ss, streams t !! id = Some l /\ forward_store t !! l = Some ss /\
    ss_src ss = Src pkt /\ ss_dst ss = Dst pkt /\ ss_groupCall ss = GroupCall pkt /\ ss_slot ss = Slot pkt /\
    ss_lastSeen ss <> 0 /\ now - ss_lastSeen ss <= forwardStreamReuseWindow.
Proof.
  unfold findRecentForwardStream. destruct (List.find _ _) as [[id l'] |] eqn:E; [| done]. intros [= <-].
  apply List.find_some in E as [Hin Hr]. exists id. unfold recent_forward in Hr. cbn [snd] in *.
  destruct (forward_store t !! l') as [ss |]; [| done]. exists ss.
  apply list_elem_of_In in Hin. rewrite iter_elements in Hin. apply elem_of_map_to_list in Hin.
  rewrite !andb_true_iff, !Z.eqb_eq, !eqb_true_iff, Z.leb_le, negb_true_iff in Hr.
  destruct Hr as (((((E1 & E2) & E3) & E4) & E5) & E6). unfold time_is_zero in E5. apply Z.eqb_neq in E5.
  split_ands; try done. unfold time_sub, forwardStreamReuseWindow, second, millisecond, max_duration in *. lia.
Qed.

Lemma forward_stream_spec t pkt now :
  forward_wf t ->
  let '(t', l) := forward_stream t pkt now in
  forward_wf t' /\ peerID t' = peerID t /\ streams t' !! u32 (StreamID pkt) = Some l /\
  (forall l', l' <> l -> forward_store t' !! l' = forward_store t !! l') /\
  (forall l', is_Some (forward_store t !! l') -> forward_store t' !! l' = forward_store t !! l') /\
  exists ss, forward_store t' !! l = Some ss /\ ss_wf ss /\
    (forward_store t !! l = None -> rtpSeq ss = 0 /\ rtpTimestamp ss = 0 /\ burstIndex ss = 0).
Proof.
  intros [W1 W2]. unfold forward_stream. destruct (streams t !! u32 (StreamID pkt)) as [l |] eqn:E.
  { destruct (W1 _ _ E) as [ss Hss]. split_ands; try done. exists ss. split_ands; [done | by eapply W2 | congruence]. }
  destruct (if _ || _ then _ else None) as [l |] eqn:Er.
  - assert (Hr : findRecentForwardStream t pkt now = Some l) by (destruct (_ || _); done).
    apply find_recent_spec in Hr as (id & ss & Hid & Hss & _).
    split; [split; cbn; [| done] |]; [| split_ands; try done; [cbn; by rewrite lookup_insert_eq |]].
    + intros id' l'. rewrite lookup_insert_Some. intros [[<- <-] | [_ Hl]]; [by exists ss | by eapply W1].
    + exists ss. split_ands; [done | by eapply W2 | congruence].
  - clear Er. cbn zeta. set (control := next_id (nextCallControl t)).
    set (l := fresh_loc (forward_store (with_callControl t control))).
    assert (Hl : forward_store t !! l = None) by apply fresh_loc_fresh.
    set (ss := mkStream _ 0 0 0 0 0 true _ _ _ _ _).
    assert (Hss : ss_wf ss) by (split; cbn; [apply next_id_range | lia | unfold is_u32; lia]).
    split; [split; cbn | split_ands; try done; cbn].
    + intros id' l'. rewrite lookup_insert_Some. intros [[<- <-] | [_ Hl']]; [by rewrite lookup_insert_eq |].
      apply W1 in Hl'. destruct (decide (l' = l)) as [-> | Hne]; [by rewrite lookup_insert_eq |].
      by rewrite lookup_insert_ne.
    + intros l' ss'. rewrite lookup_insert_Some. intros [[_ <-] | [_ Hl']]; [done | by eapply W2].
    + by rewrite lookup_insert_eq.
    + intros l' Hne. by rewrite lookup_insert_ne.
    + intros l' [ss' Hs]. rewrite lookup_insert_ne; [done |]. intros <-. congruence.
    + exists ss. rewrite lookup_insert_eq. by split_ands.
Qed.

(** A step of stream [l] from state [ss] that sends [outs]. *)
Record stream_step (t t' : IPSCTranslator) (l : loc) (ss : streamState) (outs : list (list Z)) : Prop := {
  st_other l' : l' <> l -> forward_store t' !! l' = forward_store t !! l';
  st_state : exists ss', forward_store t' !! l = Some ss' /\ numbered ss ss' outs;
  st_streams id l' : streams t' !! id = Some l' -> streams t !! id = Some l'
}.

Lemma stream_step_put t t' l ss ss' outs :
  forward_store t' = <[l := ss']> (forward_store t) -> streams t' = streams t -> numbered ss ss' outs ->
  stream_step t t' l ss outs.
Proof.
  intros E1 E2 N. split; rewrite ?E1, ?E2; [| | done].
  - intros l' Hne. by rewrite lookup_insert_ne.
  - exists ss'. by rewrite lookup_insert_eq.
Qed.

Lemma translate_frame_spec t l ss pkt :
  forward_store t !! l = Some ss -> ss_wf ss ->
  let '(t', outs) := translate_frame t l ss pkt in stream_step t t' l ss outs.
Proof.
  intros Hss Hwf.
  assert (Hidle : stream_step t t l ss []) by (split; try done; exists ss; split; [done | by apply numbered_nil]).
  unfold translate_frame. cbn zeta. destruct (FrameType pkt =? mmdvmFrameTypeDataSync); [| destruct (_ || _)].
  - destruct (255 <? DTypeOrVSeq pkt); [done |]. destruct (DTypeOrVSeq pkt =? DataTypeVoiceLCHeader).
    { destruct (voice_headers_spec (peerID t) pkt ss Hwf) as (d1 & d2 & -> & N & _).
      eapply stream_step_put; [done | done |]. destruct N as [N1 N2 N3 N4]. by split. }
    destruct (DTypeOrVSeq pkt =? DataTypeTerminatorWithLC).
    { pose proof (voice_terminator_spec (peerID t) pkt ss) as V. destruct (buildVoiceTerminator _ pkt ss) as [d ss'].
      destruct V as (F & _ & -> & _). set (ss' := ipsc_next (rtp_next ss)).
      assert (N : numbered ss ss' [d]) by by eapply numbered_one.
      destruct (stream_step_put t (with_forward t l ss') l ss ss' [d] eq_refl eq_refl N) as [S1 S2 S3].
      split; [done | done |]. intros id l'. cbn. rewrite map_lookup_filter_Some. by intros [? _]. }
    destruct (is_data_type (DTypeOrVSeq pkt)); [| done].
    pose proof (data_packet_spec (peerID t) pkt ss (DTypeOrVSeq pkt)) as V.
    destruct (buildIPSCDataPacket _ pkt ss _) as [d ss']. destruct V as (F & _ & -> & _).
    eapply stream_step_put; [done | done |]. by eapply numbered_one.
  - destruct (IsData (Burst_DecodeFromBytes (burst t) (DMRData pkt))) eqn:Ed.
    { unfold buildVoiceBurst. rewrite Ed. eapply stream_step_put; [done | done |]. by apply numbered_nil. }
    destruct (voice_burst_spec (peerID t) (burst t) pkt ss Ed) as (d & -> & F & _).
    eapply stream_step_put; [done | done |]. by eapply numbered_one.
  - done.
Qed.

Lemma translate_spec t pkt now :
  forward_wf t ->
  let '(t', outs) := TranslateToIPSC t pkt now in
  let l := target t pkt now in
  forward_wf t' /\
  (forall l', l' <> l -> forward_store t' !! l' = forward_store t !! l') /\
  (outs = [] /\ t' = t \/
   exists ss ss', forward_store t' !! l = Some ss' /\ numbered ss ss' outs /\ ss_wf ss /\
    match forward_store t !! l with
    | Some ss0 => rtpSeq ss = rtpSeq ss0 /\ rtpTimestamp ss = rtpTimestamp ss0 /\ callControl ss = callControl ss0
    | None => rtpSeq ss = 0 /\ rtpTimestamp ss = 0
    end).
Proof.
  intros W. unfold TranslateToIPSC, target. destruct (2 ^ 32 - 1 <? StreamID pkt); [split_ands; [done | done | by left] |].
  pose proof (forward_stream_spec t pkt now W) as S. destruct (forward_stream t pkt now) as [t1 l].
  destruct S as (W1 & _ & _ & Ho & Hk & ss & Hss & Hwf & Hnew). rewrite Hss.
  set (ss1 := refresh ss pkt now). assert (Hwf1 : ss_wf ss1) by (destruct Hwf; by split).
  pose proof (translate_frame_spec (with_forward t1 l ss1) l ss1 pkt) as F.
  destruct (translate_frame (with_forward t1 l ss1) l ss1 pkt) as [t' outs].
  destruct (F ltac:(cbn; by rewrite lookup_insert_eq) Hwf1) as [F1 (ss' & Hs' & N) F3]. clear F.
  assert (Hother : forall l', l' <> l -> forward_store t' !! l' = forward_store t1 !! l').
  { intros l' Hne. rewrite F1 by done. cbn. by rewrite lookup_insert_ne. }
  cbn [snd]. split; [split |].
  - intros id l' Hid. apply F3 in Hid. destruct (decide (l' = l)) as [-> | Hne]; [by exists ss' |].
    rewrite Hother by done. by eapply W1.
  - intros l' s Hs. destruct (decide (l' = l)) as [-> | Hne].
    + rewrite Hs' in Hs. injection Hs as <-. by eapply numbered_wf.
    + rewrite Hother in Hs by done. by eapply W1.
  - split; [intros l' Hne; by rewrite Hother, Ho by done |]. right. exists ss1, ss'. split_ands; try done.
    destruct (forward_store t !! l) as [ss0 |] eqn:E0; [| by destruct Hnew as (? & ? & ?)].
    rewrite (Hk l (mk_is_Some _ _ E0)) in Hss. by rewrite E0 in Hss; injection Hss as ->.
Qed.

Lemma new_wf : forward_wf NewIPSCTranslator.
Proof. by split. Qed.

(** The packets sent for stream [l] in a log. *)
Definition packets_of (l : loc) (log : list (loc * list Z)) : list (list Z) :=
  snd <$> filter (fun x => fst x = l) log.

Lemma packets_of_app l log1 log2 : packets_of l (log1 ++ log2) = packets_of l log1 ++ packets_of l log2.
Proof. unfold packets_of. by rewrite filter_app, fmap_app. Qed.
Lemma packets_of_same l (outs : list (list Z)) : packets_of l (pair l <$> outs) = outs.
Proof.
  unfold packets_of. induction outs as [| d outs IH]; [done |].
  rewrite fmap_cons, filter_cons_True by done. cbn. by f_equal.
Qed.
Lemma packets_of_other l l' (outs : list (list Z)) : l' <> l -> packets_of l (pair l' <$> outs) = [].
Proof.
  intros Hne. unfold packets_of. induction outs as [| d outs IH]; [done |].
  by rewrite fmap_cons, filter_cons_False.
Qed.

(** The numbers the packets of [l] carry from a state on. *)
Lemma run_forward_numbered t hist l :
  forward_wf t ->
  exists ss ss', numbered ss ss' (packets_of l (snd (run_forward t hist))) /\
    match forward_store t !! l with
    | Some ss0 => rtpSeq ss = rtpSeq ss0 /\ rtpTimestamp ss = rtpTimestamp ss0 /\ callControl ss = callControl ss0
    | None => rtpSeq ss = 0 /\ rtpTimestamp ss = 0
    end.
Proof.
  revert t. induction hist as [| [pkt now] hist IH]; intros t W; cbn [run_forward].
  { destruct (forward_store t !! l) as [ss0 |] eqn:E.
    - exists ss0, ss0. split; [| done]. apply numbered_nil; [by eapply W | done ..].
    - exists (start_state t l 0), (start_state t l 0). unfold start_state. rewrite E. split; [| done].
      apply numbered_nil; [| done ..]. split; cbn; unfold is_u32; lia. }
  pose proof (translate_spec t pkt now W) as S. destruct (TranslateToIPSC t pkt now) as [t' outs].
  destruct S as (W' & Ho & S). destruct (IH t' W') as (ss1 & ss2 & N & M). clear IH.
  destruct (run_forward t' hist) as [t'' rest]. cbn [snd] in *. rewrite packets_of_app.
  destruct (decide (target t pkt now = l)) as [<- | Hne].
  - rewrite packets_of_same. destruct S as [[-> ->] | (ss & ss' & Hs' & Nn & Hwf & M')]; [by exists ss1, ss2 |].
    rewrite Hs' in M. destruct M as (M1 & M2 & M3). exists ss, ss2. split; [| done].
    eapply numbered_app; [exact Nn |]. destruct N as [N1 N2 N3 N4]. rewrite M1, M2, M3 in *. by split.
  - rewrite packets_of_other by done. cbn [app]. exists ss1, ss2. split; [done |].
    rewrite <- (Ho l) by done. done.
Qed.

(** C10: Whatever packets of whatever streams are translated, in any order and
    also when several stream identifiers share a state, the packets sent for one
    stream form one RTP flow: they are numbered 0, 1, 2, ... modulo 2^16, their
    timestamps advance by 480 modulo 2^32, and they all carry the same call
    control. *)
Theorem forward_rtp_flow hist l :
  exists control, forall i data,
  packets_of l (snd (run_forward NewIPSCTranslator hist)) !! i = Some data ->
  rtp_seq_of data = u16 (Z.of_nat i) /\ rtp_timestamp_of data = u32 (480 * Z.of_nat i) /\
  call_control_of data = control.
Proof.
  destruct (run_forward_numbered NewIPSCTranslator hist l new_wf) as (ss & ss' & [N _ _ _] & M).
  cbn in M. destruct M as [M1 M2]. exists (callControl ss). intros i data Hi.
  specialize (N i data Hi). by rewrite M1, M2 in N.
Qed.

End forward.

(** ** A call through both directions *)

(** What the code relies on of dmrgo: a Full LC with 24-bit addresses can be
    encoded, a decoder that accepts it returns the addresses it was made from,
    decoding a burst overwrites the receiver, and a decoded voice burst has three
    frames of 49 bits. *)
Class DmrgoLaws `{Dmrgo} : Prop := {
  flc_encode_ok flc :
    is_u24 (GroupAddress flc) -> is_u24 (TargetAddress flc) -> is_u24 (SourceAddress flc) ->
    is_Some (FullLinkControl_Encode flc);
  flc_decode_encode flc bytes dt flc' :
    is_u24 (TargetAddress flc) -> is_u24 (SourceAddress flc) -> GroupAddress flc = TargetAddress flc ->
    FullLinkControl_Encode flc = Some bytes ->
    FullLinkControl_DecodeFromBits (bit_at (list_inserts 0 (take 12 bytes) (replicate 12 0)) <$> seq 0 96) dt = Some flc' ->
    SourceAddress flc' = SourceAddress flc /\
    (FLCO flc' = FLCOGroupVoiceChannelUser -> GroupAddress flc' = GroupAddress flc) /\
    (FLCO flc' = FLCOUnitToUnitVoiceChannelUser -> TargetAddress flc' = TargetAddress flc);
  decode_overwrites b b' data : IsData (Burst_DecodeFromBytes b data) = IsData (Burst_DecodeFromBytes b' data) /\
    VoiceFrames (Burst_DecodeFromBytes b data) = VoiceFrames (Burst_DecodeFromBytes b' data);
  voice_frames_bits b : IsData b = false ->
    exists f0 f1 f2, VoiceFrames b = [f0; f1; f2] /\
      Forall (fun f => length f = 49%nat /\ Forall is_bit f) [f0; f1; f2]
}.

(** Hand the packets of [datas] to [TranslateToMMDVM] in turn. *)
Fixpoint receive_all `{Dmrgo} `{MapOrder} (B : IPSCTranslator) (datas : list (list Z)) (now : time)
    : outcome (IPSCTranslator * list Packet) :=
  match datas with
  | [] => Done (B, [])
  | data :: datas =>
      let! (B, out) := TranslateToMMDVM B (data.[0]) data now in
      let! (B, rest) := receive_all B datas now in
      Done (B, out ++ rest)
  end.

(** Translate packets to IPSC with one translator and back with another. *)
Fixpoint relay `{Dmrgo} `{MapOrder} (A B : IPSCTranslator) (pkts : list (Packet * time))
    : outcome (IPSCTranslator * IPSCTranslator * list Packet) :=
  match pkts with
  | [] => Done (A, B, [])
  | (pkt, now) :: pkts =>
      let '(A, datas) := TranslateToIPSC A pkt now in
      let! (B, out) := receive_all B datas now in
      let! (A, B, rest) := relay A B pkts in
      Done (A, B, out ++ rest)
  end.

Section call.
Context `{Dmrgo} `{!DmrgoLaws} `{MapOrder} `{!MapOrderLaws}.

(** The address check of a packet that carries its own LC. *)
Lemma recover_same data bt src dst g :
  is_u24 src -> is_u24 dst -> take 12 (drop 38 data) = buildStandardLCBytes src dst g ->
  recoverAddressesFromFullLC data bt = None \/ recoverAddressesFromFullLC data bt = Some (src, dst).
Proof.
  intros Hs Hd Hlc. unfold recoverAddressesFromFullLC. destruct (length data <? 50)%nat; [by left |].
  destruct (if bt =? _ then _ else _) as [dt |]; [| by left].
  unfold lc_info_bits. rewrite Hlc. unfold buildStandardLCBytes.
  assert (E : (MaxInt <? dst) || (MaxInt <? src) = false).
  { unfold is_u24, MaxInt in *. change (2 ^ 63) with 9223372036854775808. change (2 ^ 24) with 16777216 in *.
    destruct (Z.ltb_spec (9223372036854775808 - 1) dst), (Z.ltb_spec (9223372036854775808 - 1) src); try done; lia. }
  rewrite E. cbn zeta. set (flc := mkFLC _ StandardizedFID [1; 0] dst dst src).
  destruct (flc_encode_ok flc Hd Hd Hs) as [bytes Hb]. rewrite Hb.
  destruct (FullLinkControl_DecodeFromBits _ dt) as [flc' |] eqn:E'; [| by left].
  destruct (flc_decode_encode flc bytes dt flc' Hd Hs eq_refl Hb E') as (-> & Eg & Et). cbn.
  destruct (src <=? 0); [by left |].
  destruct (Z.eqb_spec (FLCO flc') FLCOGroupVoiceChannelUser) as [G | _];
    [rewrite (Eg G); cbn; destruct (dst <=? 0); tauto |].
  destruct (Z.eqb_spec (FLCO flc') FLCOUnitToUnitVoiceChannelUser) as [U | _];
    [rewrite (Et U); cbn; destruct (dst <=? 0); tauto | by left].
Qed.

Lemma recover_voice data bt : bt <> ipscBurstVoiceHead -> bt <> ipscBurstVoiceTerm ->
  recoverAddressesFromFullLC data bt = None.
Proof.
  intros N1 N2. unfold recoverAddressesFromFullLC. apply Z.eqb_neq in N1, N2. rewrite N1, N2.
  by destruct (_ <? _)%nat.
Qed.

Definition slot_flag (slot e : bool) : Z := Z.lor (if slot then 0x20 else 0) (if e then 0x40 else 0).

(** A voice packet of the other translator is parsed into the fields of the
    packet it was made from. *)
Lemma receive_framed B data peer pkt ss e m pt now B1 l rss :
  framed data peer pkt ss e false m pt -> ss_wf ss -> is_u24 (Src pkt) -> is_u24 (Dst pkt) ->
  (31 <= length data)%nat ->
  recoverAddressesFromFullLC data (data.[30]) = None \/
    recoverAddressesFromFullLC data (data.[30]) = Some (Src pkt, Dst pkt) ->
  (forall trusted peer', reverse_stream B (callControl ss) peer' (Src pkt) (Dst pkt) (GroupCall pkt) (Slot pkt)
    trusted (data.[30]) now = (B1 peer', l)) ->
  (forall peer', reverse_store (B1 peer') !! l = Some (rss peer')) ->
  (forall peer', (rs_src (rss peer') = 0 \/ rs_src (rss peer') = Src pkt) /\
    (rs_dst (rss peer') = 0 \/ rs_dst (rss peer') = Dst pkt)) ->
  exists peer', TranslateToMMDVM B (data.[0]) data now =
    Done (translate_burst (with_reverse (B1 peer') l (with_lastSeen (rss peer') now)) l
      (with_lastSeen (rss peer') now) (Src pkt) (Dst pkt) (GroupCall pkt) (Slot pkt) e (data.[30]) data).
Proof.
  intros F Hwf Hs Hd Hlen Hrec Hrev Hst Haddr.
  destruct (framed_fields _ _ _ _ _ _ _ _ F Hwf) as (_ & _ & Fc & F0 & F17 & Fs & Fd).
  specialize (Fs Hs). specialize (Fd Hd). unfold source_of, destination_of, call_control_of in *.
  exists (get_be32 (data.[1]) (data.[2]) (data.[3]) (data.[4])). unfold TranslateToMMDVM.
  destruct (Nat.ltb_spec (length data) 30); [lia |].
  assert (Hi : index data 30 = Done (data.[30])) by (unfold index; by rewrite lookup_byte_at by lia).
  rewrite Hi, F0, F17, Fs, Fd, Fc. cbn [obind].
  assert (negb (existsb (Z.eqb (if GroupCall pkt then 128 else 129)) [128; 129; 131; 132]) = false) as ->
    by by destruct (GroupCall pkt).
  assert ((((if GroupCall pkt then 128 else 129) =? 128) || ((if GroupCall pkt then 128 else 129) =? 131)) = GroupCall pkt)
    as -> by by destruct (GroupCall pkt).
  assert (negb (Z.land (Z.lor (if Slot pkt then 32 else 0) (if e then 64 else 0)) 32 =? 0) = Slot pkt) as ->
    by by destruct (Slot pkt), e.
  assert (negb (Z.land (Z.lor (if Slot pkt then 32 else 0) (if e then 64 else 0)) 64 =? 0) = e) as ->
    by by destruct (Slot pkt), e.
  set (peer' := get_be32 _ _ _ _). specialize (Hst peer'). destruct (Haddr peer') as [As Ad].
  assert (E : forall a b, (a = 0 \/ a = b) -> (if negb (a =? 0) then a else b) = b).
  { intros a b [-> | ->]; [done |]. by destruct (b =? 0). }
  destruct Hrec as [-> | ->]; rewrite Hrev, Hst, !E by done; reflexivity.
Qed.

(** A packet of the call [c]. *)
Definition same_call (c pkt : Packet) : Prop :=
  StreamID pkt = StreamID c /\ Src pkt = Src c /\ Dst pkt = Dst c /\ Slot pkt = Slot c /\ GroupCall pkt = GroupCall c.

Definition decoded (pkt : Packet) : Burst := Burst_DecodeFromBytes Burst_zero (DMRData pkt).

(** [p] is packet number [n] of stream [sid] of the same call. *)
Definition same_address (c p : Packet) (sid n : Z) : Prop :=
  Src p = Src c /\ Dst p = Dst c /\ Slot p = Slot c /\ GroupCall p = GroupCall c /\ StreamID p = sid /\ Seq p = u8 n.

(** [p] carries the voice of [pkt] as burst [k] of a superframe. *)
Definition same_voice (pkt p : Packet) (k : Z) : Prop :=
  FrameType p = (if k =? 0 then mmdvmFrameTypeVoiceSync else mmdvmFrameTypeVoice) /\ DTypeOrVSeq p = k /\
  exists b, DMRData p = Burst_Encode b /\ ob_frames b = VoiceFrames (decoded pkt) /\
    ob_SyncPattern b = (if k =? 0 then MsSourcedVoice else EmbeddedSignallingPattern) /\
    ob_VoiceBurst b = k.

(** The two translators in the middle of call [c]: both stand at burst [k] of
    the superframe, and [n] packets were sent. *)
Record in_call (A B : IPSCTranslator) (c : Packet) (color sid k n : Z) (l m : loc) (ss : streamState)
    (rss : reverseStreamState) : Prop := {
  ic_stream : streams A !! StreamID c = Some l;
  ic_state : forward_store A !! l = Some ss;
  ic_wf : ss_wf ss;
  ic_index : burstIndex ss = k;
  ic_reverse : reverseStreams B = {[callControl ss := m]};
  ic_rstate : reverse_store B !! m = Some rss;
  ic_src : rs_src rss = Src c;
  ic_dst : rs_dst rss = Dst c;
  ic_rindex : rs_burstIndex rss = k;
  ic_started : rs_started rss = true;
  ic_seq : rs_seq rss = u8 n;
  ic_sid : rs_streamID rss = sid;
  ic_color : colorCode B = color
}.

Lemma receive_in_call A B c color sid k n l m ss rss pkt ss' data peer e mk pt now :
  in_call A B c color sid k n l m ss rss -> same_call c pkt -> callControl ss' = callControl ss ->
  framed data peer pkt ss' e false mk pt -> ss_wf ss' -> is_u24 (Src c) -> is_u24 (Dst c) -> (31 <= length data)%nat ->
  recoverAddressesFromFullLC data (data.[30]) = None \/
    recoverAddressesFromFullLC data (data.[30]) = Some (Src pkt, Dst pkt) ->
  TranslateToMMDVM B (data.[0]) data now =
    Done (translate_burst (with_reverse B m (with_lastSeen rss now)) m (with_lastSeen rss now)
      (Src c) (Dst c) (GroupCall c) (Slot c) e (data.[30]) data).
Proof.
  intros I (_ & Es & Ed & El & Eg) Ec F Hwf Hs Hd Hlen Hrec.
  assert (Hrev : forall trusted (peer' : Z), reverse_stream B (callControl ss') peer' (Src pkt) (Dst pkt)
    (GroupCall pkt) (Slot pkt) trusted (data.[30]) now = (B, m)).
  { intros trusted peer'. unfold reverse_stream. rewrite Ec, (ic_reverse _ _ _ _ _ _ _ _ _ _ _ I).
    by rewrite lookup_singleton_eq. }
  rewrite <- Es in Hs. rewrite <- Ed in Hd.
  destruct (receive_framed B data peer pkt ss' e mk pt now (fun _ => B) m (fun _ => rss) F Hwf Hs Hd Hlen Hrec Hrev)
    as [peer' E].
  - intros _. apply I.
  - intros _. rewrite Es, Ed. split; right; apply I.
  - rewrite E, Es, Ed, El, Eg. reflexivity.
Qed.

Lemma known_stream A B c color sid k n l m ss rss pkt now :
  in_call A B c color sid k n l m ss rss -> same_call c pkt -> is_u32 (StreamID c) ->
  TranslateToIPSC A pkt now =
    translate_frame (with_forward A l (refresh ss pkt now)) l (refresh ss pkt now) pkt.
Proof.
  intros I (Ei & _) Hid. unfold TranslateToIPSC, forward_stream. rewrite Ei, u32_id by done.
  destruct (Z.ltb_spec (2 ^ 32 - 1) (StreamID c)); [unfold is_u32 in Hid; lia |].
  by rewrite (ic_stream _ _ _ _ _ _ _ _ _ _ _ I), (ic_state _ _ _ _ _ _ _ _ _ _ _ I).
Qed.

(** One voice packet through both translators. *)
Lemma relay_voice A B c color sid k n l m ss rss pkt now :
  in_call A B c color sid k n l m ss rss -> same_call c pkt -> is_u32 (StreamID c) -> is_u24 (Src c) -> is_u24 (Dst c) ->
  0 <= k < 6 -> FrameType pkt = mmdvmFrameTypeVoice \/ FrameType pkt = mmdvmFrameTypeVoiceSync ->
  IsData (decoded pkt) = false ->
  exists A' B' p d ss' rss', TranslateToIPSC A pkt now = (A', [d]) /\ receive_all B [d] now = Done (B', [p]) /\
    in_call A' B' c color sid ((k + 1) mod 6) (n + 1) l m ss' rss' /\ same_address c p sid n /\ same_voice pkt p k.
Proof.
  intros I Hc Hid Hs Hd Hk Hft Hdata. rewrite (known_stream _ _ _ _ _ _ _ _ _ _ _ pkt now I Hc Hid).
  set (ss0 := refresh ss pkt now). set (A0 := with_forward A l ss0).
  assert (Hwf0 : ss_wf ss0) by (destruct (ic_wf _ _ _ _ _ _ _ _ _ _ _ I); by split).
  destruct (decode_overwrites (burst A0) Burst_zero (DMRData pkt)) as [Di Df]. fold (decoded pkt) in Di, Df.
  rewrite Hdata in Di. destruct (voice_burst_spec (peerID A0) (burst A0) pkt ss0 Di) as (d & Eb & F & Hlen & H30 & Ha).
  unfold translate_frame. assert (FrameType pkt =? mmdvmFrameTypeDataSync = false) as ->
    by (destruct Hft as [-> | ->]; done).
  assert (((FrameType pkt =? mmdvmFrameTypeVoice) || (FrameType pkt =? mmdvmFrameTypeVoiceSync)) = true) as ->
    by (destruct Hft as [-> | ->]; done). rewrite Eb.
  assert (Hslot : d.[30] = ipscBurstSlot1 \/ d.[30] = ipscBurstSlot2)
    by (rewrite H30; unfold slot_byte; destruct (Slot pkt); tauto).
  assert (Hl52 : (52 <= length d)%nat) by (rewrite Hlen; unfold voice_len; repeat case_match; lia).
  assert (Hl31 : (31 <= length d)%nat) by lia.
  assert (Hr : recoverAddressesFromFullLC d (d.[30]) = None)
    by (apply recover_voice; destruct Hslot as [-> | ->]; done).
  pose proof (receive_in_call A B c color sid k n l m ss rss pkt ss0 d (peerID A0) false false 0x5D now I Hc
    eq_refl F Hwf0 Hs Hd Hl31 (or_introl Hr)) as R. set (rss0 := with_lastSeen rss now) in *.
  unfold translate_burst in R. assert (d.[30] =? ipscBurstVoiceHead = false) as E1
    by (destruct Hslot as [-> | ->]; done).
  assert (d.[30] =? ipscBurstVoiceTerm = false) as E2 by (destruct Hslot as [-> | ->]; done).
  assert (((d.[30] =? ipscBurstSlot1) || (d.[30] =? ipscBurstSlot2)) = true) as E3
    by (destruct Hslot as [-> | ->]; done).
  assert (E4 : (length d <? 52)%nat = false) by (apply Nat.ltb_ge; lia).
  rewrite E1, E2, E3, E4 in R. unfold buildMMDVMVoiceBurst in R. rewrite Ha, Df in R. cbn [rs_burstIndex with_lastSeen rss0] in R.
  destruct (voice_frames_bits _ Hdata) as (f0 & f1 & f2 & Ef & Hf). rewrite Ef in R.
  rewrite (ambe_unpack_pack f0 f1 f2) in R by done. rewrite <- Ef in R.
  rewrite (ic_rindex _ _ _ _ _ _ _ _ _ _ _ I), (Z.mod_small k 6) in R by done.
  set (ss' := with_burstIndex (rtp_next ss0) ((burstIndex (rtp_next ss0) + 1) mod 6)).
  set (rss' := with_index (with_seq rss0 (u8 (rs_seq rss0 + 1))) ((k + 1) mod 6)) in R.
  eexists _, _, _, d, ss', rss'. split; [exact eq_refl |].
  split; [cbn [receive_all obind]; rewrite R; exact eq_refl |]. split; [| split].
  - split.
    + apply I.
    + apply lookup_insert_eq.
    + eapply (numbered_wf ss0 ss' [d]); [done |]. by eapply numbered_one.
    + unfold ss'. cbn. by rewrite (ic_index _ _ _ _ _ _ _ _ _ _ _ I).
    + apply I.
    + apply lookup_insert_eq.
    + apply I.
    + apply I.
    + exact eq_refl.
    + apply I.
    + unfold rss', rss0. cbn. rewrite (ic_seq _ _ _ _ _ _ _ _ _ _ _ I). unfold u8. apply Zplus_mod_idemp_l.
    + apply I.
    + apply I.
  - unfold same_address. cbn. split_ands; try done; apply I.
  - unfold same_voice. cbn. split_ands; try done. eexists. split; [done |].
    destruct (k =? 0) eqn:Ek; [by apply Z.eqb_eq in Ek as -> |].
    unfold populateEmbeddedSignalling. cbn. destruct (_ && _); [done |]. by destruct (rs_hasEmbeddedLC _).
Qed.

(** [p] carries the Full LC of the call as data type [dt]. *)
Definition same_lc (c p : Packet) (dt color : Z) : Prop :=
  FrameType p = mmdvmFrameTypeDataSync /\ DTypeOrVSeq p = dt /\
  DMRData p = Bptc.BuildLCDataBurst (extractFullLCBytes c) dt color.

Lemma iter_empty : iter ∅ = [].
Proof. apply Permutation_nil_r. rewrite iter_elements. by rewrite map_to_list_empty. Qed.

(** The header packet starts the call on both sides: two headers are sent, and
    the second one is skipped. *)
Lemma relay_header A B c now :
  forward_wf A -> streams A !! StreamID c = None -> reverseStreams B = ∅ ->
  is_u32 (StreamID c) -> is_u24 (Src c) -> is_u24 (Dst c) ->
  FrameType c = mmdvmFrameTypeDataSync -> DTypeOrVSeq c = DataTypeVoiceLCHeader ->
  let sid := next_id (nextStreamID B) in
  exists A' B' p datas l m ss rss, TranslateToIPSC A c now = (A', datas) /\ receive_all B datas now = Done (B', [p]) /\
    in_call A' B' c (colorCode B) sid 0 1 l m ss rss /\ same_address c p sid 0 /\
    same_lc c p DataTypeVoiceLCHeader (colorCode B).
Proof.
  intros W Hnew HB Hid Hs Hd Hft Hdt sid.
  pose proof (forward_stream_spec A c now W) as S. unfold TranslateToIPSC.
  destruct (Z.ltb_spec (2 ^ 32 - 1) (StreamID c)); [unfold is_u32 in Hid; lia |].
  destruct (forward_stream A c now) as [A1 l] eqn:EA.
  destruct S as (_ & _ & Hl & _ & _ & ss & Hss & Hwf & _). rewrite u32_id in Hl by done. rewrite Hss.
  set (ss0 := refresh ss c now). assert (Hwf0 : ss_wf ss0) by (destruct Hwf; by split).
  set (A0 := with_forward A1 l ss0). unfold translate_frame. rewrite Hft, Hdt. cbn [Z.eqb Pos.eqb].
  change (mmdvmFrameTypeDataSync =? mmdvmFrameTypeDataSync) with true.
  change (DataTypeVoiceLCHeader =? DataTypeVoiceLCHeader) with true. change (255 <? DataTypeVoiceLCHeader) with false.
  cbv iota. destruct (voice_headers_spec (peerID A0) c ss0 Hwf0) as (d1 & d2 & -> & N & F1 & F2 & Hds).
  rewrite !Forall_cons in Hds. destruct Hds as ((L1 & T1 & C1) & (L2 & T2 & C2) & _).
  assert (Hr1 : forall d, take 12 (drop 38 d) = extractFullLCBytes c ->
    recoverAddressesFromFullLC d (d.[30]) = None \/ recoverAddressesFromFullLC d (d.[30]) = Some (Src c, Dst c)).
  { intros d Hd'. by apply (recover_same d (d.[30]) (Src c) (Dst c) (GroupCall c)). }
  set (m := fresh_loc (reverse_store B)).
  set (rss1 peer' := mkReverse sid 0 0 false peer' (Src c) (Dst c) (Slot c) (GroupCall c) now
    (replicate 4 (replicate 4 0)) false).
  set (B1 peer' := with_reverse (with_reverseStreams (with_streamID B sid) {[callControl ss0 := m]}) m (rss1 peer')).
  destruct (receive_framed B d1 (peerID A0) c ss0 false (firstPacket ss0) 0x5D now B1 m rss1 F1 Hwf0 Hs Hd)
    as [peer' R1]; [rewrite L1; lia | by apply Hr1 | | intros ?; apply lookup_insert_eq | intros ?; split; by right |].
  { intros trusted peer'. unfold reverse_stream. rewrite HB, lookup_empty.
    unfold findRecentReverseStream, findRecentReverseStreamByPeer. rewrite HB, iter_empty. cbn [List.find fmap option_fmap option_map].
    change (reverseStreams (with_streamID B _)) with (reverseStreams B). rewrite HB.
    destruct (_ && _); reflexivity. }
  rewrite T1 in R1. unfold translate_burst in R1. change (ipscBurstVoiceHead =? ipscBurstVoiceHead) with true in R1.
  cbn [rs_started with_lastSeen rss1 negb] in R1. unfold buildMMDVMDataPacket in R1. rewrite L1, C1 in R1.
  change (50 <=? 54)%nat with true in R1. change ((54 <? 50)%nat) with false in R1. cbn [andb] in R1.
  set (rss2 := with_start _ _) in R1. set (B2 := with_reverse _ m rss2) in R1.
  set (ss' := with_burstIndex (with_firstPacket (with_headersSent (rtp_next (rtp_next ss0))
    (Z.of_nat ipscVoiceHeaderRepeats)) false) 0). set (A' := with_forward A0 l ss').
  assert (I : in_call A' B2 c (colorCode B) sid 0 1 l m ss' rss2).
  { split; try exact eq_refl; [exact Hl | apply lookup_insert_eq | | apply lookup_insert_eq].
    destruct (numbered_wf _ _ _ Hwf0 N). by split. }
  assert (Hwf1 : ss_wf (rtp_next ss0)).
  { split; cbn; [apply Hwf0 | by apply Z.mod_pos_bound | apply u32_range]. }
  assert (Hl2 : (31 <= length d2)%nat) by (rewrite L2; lia).
  pose proof (receive_in_call A' B2 c (colorCode B) sid 0 1 l m ss' rss2 c (rtp_next ss0) d2 (peerID A0) false false 0x5D
    now I ltac:(done) eq_refl F2 Hwf1 Hs Hd Hl2 (Hr1 d2 C2)) as R2.
  rewrite T2 in R2. unfold translate_burst in R2. change (ipscBurstVoiceHead =? ipscBurstVoiceHead) with true in R2.
  cbn [rs_started with_lastSeen rss2 with_start negb] in R2.
  eexists A', _, _, [d1; d2], l, m, ss', (with_lastSeen rss2 now). split; [exact eq_refl |].
  split; [cbn [receive_all obind]; rewrite R1; cbn [obind]; rewrite R2; exact eq_refl |].
  split; [| split].
  - destruct I as [I1 I2 I3 I4 I5 I6 I7 I8 I9 I10 I11 I12 I13]. split; try done. apply lookup_insert_eq.
  - unfold same_address. split_ands; exact eq_refl.
  - split; [exact eq_refl |]. split; [exact eq_refl |]. cbn [DMRData].
    change (u8 DataTypeVoiceLCHeader) with DataTypeVoiceLCHeader. exact eq_refl.
Qed.

(** The terminator ends the call on both sides. *)
Lemma relay_terminator A B c color sid k n l m ss rss pkt now :
  in_call A B c color sid k n l m ss rss -> same_call c pkt ->
  is_u32 (StreamID c) -> is_u24 (Src c) -> is_u24 (Dst c) ->
  FrameType pkt = mmdvmFrameTypeDataSync -> DTypeOrVSeq pkt = DataTypeTerminatorWithLC ->
  exists A' B' p d, TranslateToIPSC A pkt now = (A', [d]) /\ receive_all B [d] now = Done (B', [p]) /\
    same_address c p sid n /\ same_lc c p DataTypeTerminatorWithLC color /\
    streams A' !! StreamID c = None /\ reverseStreams B' = ∅.
Proof.
  intros I Hc Hid Hs Hd Hft Hdt. rewrite (known_stream _ _ _ _ _ _ _ _ _ _ _ pkt now I Hc Hid).
  set (ss0 := refresh ss pkt now). set (A0 := with_forward A l ss0).
  assert (Hwf0 : ss_wf ss0) by (destruct (ic_wf _ _ _ _ _ _ _ _ _ _ _ I); by split).
  pose proof (voice_terminator_spec (peerID A0) pkt ss0) as V. unfold translate_frame. rewrite Hft, Hdt.
  change (mmdvmFrameTypeDataSync =? mmdvmFrameTypeDataSync) with true. change (255 <? DataTypeTerminatorWithLC) with false.
  change (DataTypeTerminatorWithLC =? DataTypeVoiceLCHeader) with false.
  change (DataTypeTerminatorWithLC =? DataTypeTerminatorWithLC) with true. cbv iota.
  destruct (buildVoiceTerminator (peerID A0) pkt ss0) as [d ss']. destruct V as (F & L & _ & T & C).
  assert (Elc : extractFullLCBytes pkt = extractFullLCBytes c).
  { destruct Hc as (_ & Es & Ed & _ & Eg). unfold extractFullLCBytes. by rewrite Es, Ed, Eg. }
  assert (Hr : recoverAddressesFromFullLC d (d.[30]) = None \/ recoverAddressesFromFullLC d (d.[30]) = Some (Src pkt, Dst pkt)).
  { destruct Hc as (_ & Es & Ed & _ & Eg).
    apply (recover_same d (d.[30]) (Src pkt) (Dst pkt) (GroupCall pkt)); [by rewrite Es | by rewrite Ed | exact C]. }
  assert (Hl : (31 <= length d)%nat) by (rewrite L; lia).
  pose proof (receive_in_call A B c color sid k n l m ss rss pkt ss0 d (peerID A0) true false 0x5E now I Hc
    eq_refl F Hwf0 Hs Hd Hl Hr) as R.
  rewrite T in R. unfold translate_burst in R. change (ipscBurstVoiceTerm =? ipscBurstVoiceHead) with false in R.
  change (ipscBurstVoiceTerm =? ipscBurstVoiceTerm) with true in R. cbn [negb] in R.
  unfold buildMMDVMDataPacket in R. rewrite L, C, Elc in R.
  change (50 <=? 54)%nat with true in R. change ((54 <? 50)%nat) with false in R. cbn [andb] in R.
  eexists _, _, _, d. split; [exact eq_refl |]. split; [cbn [receive_all obind]; rewrite R; exact eq_refl |].
  split_ands.
  - unfold same_address. cbn. split_ands; try exact eq_refl; apply I.
  - split; [exact eq_refl |]. split; [exact eq_refl |]. cbn [DMRData].
    change (u8 DataTypeTerminatorWithLC) with DataTypeTerminatorWithLC. cbn [colorCode with_reverse].
    rewrite (ic_color _ _ _ _ _ _ _ _ _ _ _ I). exact eq_refl.
  - cbn. apply map_lookup_filter_None. right. intros l' Hl'. cbn.
    rewrite (ic_stream _ _ _ _ _ _ _ _ _ _ _ I) in Hl'. injection Hl' as ->. tauto.
  - cbn. rewrite (ic_reverse _ _ _ _ _ _ _ _ _ _ _ I). apply map_empty_filter_2.
    apply map_Forall_singleton. cbn. tauto.
Qed.

(** The voice packets of a call: each is carried over in order, as the next
    burst of the superframe. *)
Lemma relay_voices A B c color sid k n l m ss rss (vs : list (Packet * time)) :
  in_call A B c color sid k n l m ss rss -> 0 <= k < 6 ->
  is_u32 (StreamID c) -> is_u24 (Src c) -> is_u24 (Dst c) ->
  Forall (fun v => same_call c (fst v) /\ IsData (decoded (fst v)) = false /\
    (FrameType (fst v) = mmdvmFrameTypeVoice \/ FrameType (fst v) = mmdvmFrameTypeVoiceSync)) vs ->
  forall rest, exists A' B' ps l' m' ss' rss',
    relay A B (vs ++ rest) =
      (let! (A'', B'', out) := relay A' B' rest in Done (A'', B'', ps ++ out)) /\
    in_call A' B' c color sid ((k + Z.of_nat (length vs)) mod 6) (n + Z.of_nat (length vs)) l' m' ss' rss' /\
    length ps = length vs /\
    forall i v p, vs !! i = Some v -> ps !! i = Some p ->
      same_address c p sid (n + Z.of_nat i) /\ same_voice (fst v) p ((k + Z.of_nat i) mod 6).
Proof.
  intros I Hk Hid Hs Hd Hvs rest. revert A B k n l m ss rss I Hk. induction vs as [| [v now] vs IH]; intros.
  { exists A, B, [], l, m, ss, rss. cbn [length Z.of_nat app]. rewrite !Z.add_0_r, Z.mod_small by done.
    split_ands; [| done | done | done]. by destruct (relay A B rest) as [[[? ?] ?] |]. }
  apply Forall_cons in Hvs as [(Hc & Hdat & Hft) Hvs]. cbn [fst] in *.
  destruct (relay_voice A B c color sid k n l m ss rss v now I Hc Hid Hs Hd Hk Hft Hdat)
    as (A1 & B1 & p & d & ss1 & rss1 & E1 & E2 & I1 & Ha & Hv).
  destruct (IH Hvs A1 B1 ((k + 1) mod 6) (n + 1) l m ss1 rss1 I1 (Z.mod_pos_bound _ 6 ltac:(lia)))
    as (A' & B' & ps & l' & m' & ss' & rss' & E & I' & Hlen & Hps).
  exists A', B', (p :: ps), l', m', ss', rss'. split; [| split; [| split]].
  - cbn [app relay]. rewrite E1, E2. cbn [obind]. rewrite E. by destruct (relay A' B' rest) as [[[? ?] ?] |].
  - cbn [length]. rewrite Zplus_mod_idemp_l in I'.
    replace (k + Z.of_nat (S (length vs))) with (k + 1 + Z.of_nat (length vs)) by lia.
    by replace (n + Z.of_nat (S (length vs))) with (n + 1 + Z.of_nat (length vs)) by lia.
  - cbn. by rewrite Hlen.
  - intros [| i] v' p'; cbn [lookup list_lookup].
    + intros [= <-] [= <-]. cbn [Z.of_nat fst]. by rewrite !Z.add_0_r, Z.mod_small.
    + intros H3 H4. destruct (Hps i v' p' H3 H4) as [P1 P2]. rewrite Zplus_mod_idemp_l in P2.
      replace (k + Z.of_nat (S i)) with (k + 1 + Z.of_nat i) by lia.
      by replace (n + Z.of_nat (S i)) with (n + 1 + Z.of_nat i) by lia.
Qed.

(** C1: A voice call translated to IPSC by one translator and back by another
    arrives as the same call: one header, one burst per voice packet and one
    terminator, with the same source, destination, slot and call type, numbered
    in order within one stream.  The header and the terminator carry the Full LC
    of the call, and burst i carries the voice frames of packet i at position
    i mod 6 of the superframe, the first of six with the voice sync.  When the call
    is over neither translator keeps a stream for it. *)
Theorem voice_call_roundtrip A B c now vs tm tnow :
  forward_wf A -> streams A !! StreamID c = None -> reverseStreams B = ∅ ->
  is_u32 (StreamID c) -> is_u24 (Src c) -> is_u24 (Dst c) ->
  FrameType c = mmdvmFrameTypeDataSync -> DTypeOrVSeq c = DataTypeVoiceLCHeader ->
  Forall (fun v => same_call c (fst v) /\ IsData (decoded (fst v)) = false /\
    (FrameType (fst v) = mmdvmFrameTypeVoice \/ FrameType (fst v) = mmdvmFrameTypeVoiceSync)) vs ->
  same_call c tm -> FrameType tm = mmdvmFrameTypeDataSync -> DTypeOrVSeq tm = DataTypeTerminatorWithLC ->
  let sid := next_id (nextStreamID B) in
  exists A' B' h ps e,
    relay A B ((c, now) :: vs ++ [(tm, tnow)]) = Done (A', B', h :: ps ++ [e]) /\
    same_address c h sid 0 /\ same_lc c h DataTypeVoiceLCHeader (colorCode B) /\
    length ps = length vs /\
    (forall i v p, vs !! i = Some v -> ps !! i = Some p ->
      same_address c p sid (1 + Z.of_nat i) /\ same_voice (fst v) p (Z.of_nat i mod 6)) /\
    same_address c e sid (1 + Z.of_nat (length vs)) /\ same_lc c e DataTypeTerminatorWithLC (colorCode B) /\
    streams A' !! StreamID c = None /\ reverseStreams B' = ∅.
Proof.
  intros W HA HB Hid Hs Hd Hft Hdt Hvs Htm Htf Htd sid.
  destruct (relay_header A B c now W HA HB Hid Hs Hd Hft Hdt)
    as (A1 & B1 & h & datas & l & m & ss & rss & E1 & E2 & I1 & Ha & Hl).
  destruct (relay_voices A1 B1 c _ _ 0 1 l m ss rss vs I1 ltac:(lia) Hid Hs Hd Hvs [(tm, tnow)])
    as (A2 & B2 & ps & l2 & m2 & ss2 & rss2 & E3 & I2 & Hlen & Hps).
  destruct (relay_terminator A2 B2 c _ _ _ _ l2 m2 ss2 rss2 tm tnow I2 Htm Hid Hs Hd Htf Htd)
    as (A3 & B3 & e & d & E4 & E5 & He & Hle & HA3 & HB3).
  exists A3, B3, h, ps, e.
  split; [| exact (conj Ha (conj Hl (conj Hlen (conj Hps (conj He (conj Hle (conj HA3 HB3)))))))].
  cbn [relay]. rewrite E1, E2. cbn [obind]. rewrite E3. cbn [relay]. rewrite E4. cbn [obind] in *. rewrite E5.
  cbn [obind]. rewrite app_nil_r. exact eq_refl.
Qed.

End call.

(** ** Panics *)

Definition supported_type (packetType : Z) : bool := existsb (Z.eqb packetType) [0x80; 0x81; 0x83; 0x84].

(** Translating an IPSC packet fails in one case only: a packet of a
    supported type that is exactly 30 bytes long passes the length check and is
    then read at byte 30.  For any other input the function returns. *)
Theorem translate_panics_iff `{Dmrgo} `{MapOrder} t packetType data now :
  TranslateToMMDVM t packetType data now = Panic <-> length data = 30%nat /\ supported_type packetType = true.
Proof.
  unfold TranslateToMMDVM, supported_type. destruct (Nat.ltb_spec (length data) 30) as [Hl | Hl]; [split; [done | lia] |].
  destruct (existsb _ _); cbn [negb]; [| split; [done | by intros [_ ?]]].
  unfold index. destruct (data !! 30%nat) as [bt |] eqn:E; cbn [obind].
  - apply lookup_lt_Some in E. split; [| lia]. destruct (recoverAddressesFromFullLC data bt) as [[s d] |];
      destruct (reverse_stream _ _ _ _ _ _ _ _ _ _) as [t1 l]; by destruct (reverse_store t1 !! l).
  - apply lookup_ge_None in E. split; [lia | done].
Qed.

(** ** The stream tables *)

Record rss_wf (rss : reverseStreamState) : Prop := {
  rwf_index : 0 <= rs_burstIndex rss < 6;
  rwf_seq : is_byte (rs_seq rss);
  rwf_fragments : length (rs_embeddedFragments rss) = 4%nat
}.

Section tables.
Context `{Dmrgo} `{MapOrder} `{!MapOrderLaws}.

Record reverse_wf (t : IPSCTranslator) : Prop := {
  vwf_streams id l : reverseStreams t !! id = Some l -> is_Some (reverse_store t !! l);
  vwf_states l rss : reverse_store t !! l = Some rss -> rss_wf rss
}.

Lemma reverse_wf_put t l rss : reverse_wf t -> rss_wf rss -> reverse_wf (with_reverse t l rss).
Proof.
  intros [W1 W2] Hr. split; cbn.
  - intros id l' Hid. destruct (decide (l' = l)) as [-> | Hne]; [by rewrite lookup_insert_eq |].
    rewrite lookup_insert_ne by done. by eapply W1.
  - intros l' rss'. rewrite lookup_insert_Some. intros [[_ <-] | [_ Hl]]; [done | by eapply W2].
Qed.

Lemma find_reverse_known t now same l :
  reverse_wf t -> snd <$> List.find (recent_reverse t now same) (iter (reverseStreams t)) = Some l ->
  is_Some (reverse_store t !! l).
Proof.
  intros W. destruct (List.find _ _) as [[id l'] |] eqn:E; [| done]. intros [= <-].
  apply List.find_some in E as [_ Hr]. unfold recent_reverse in Hr. cbn [snd] in *.
  by destruct (reverse_store t !! l').
Qed.

Lemma reverse_stream_wf t control peer src dst g slot trusted bt now :
  reverse_wf t ->
  let '(t', l) := reverse_stream t control peer src dst g slot trusted bt now in
  reverse_wf t' /\ is_Some (reverse_store t' !! l).
Proof.
  intros W. unfold reverse_stream. destruct (reverseStreams t !! control) as [l |] eqn:E.
  { split; [done | by eapply W]. }
  destruct (match findRecentReverseStream _ _ _ _ _ _ with Some l => Some l | None => _ end) as [l |] eqn:Er.
  - assert (Hl : is_Some (reverse_store t !! l)).
    { destruct (findRecentReverseStream t src dst g slot now) as [l' |] eqn:E1.
      - injection Er as <-. by eapply find_reverse_known.
      - destruct (_ && _); [| done]. by eapply find_reverse_known. }
    split; [| done]. destruct W as [W1 W2]. split; cbn; [| done].
    intros id l'. rewrite lookup_insert_Some. intros [[_ <-] | [_ Hid]]; [done | by eapply W1].
  - clear Er. cbn zeta. set (t1 := with_streamID t _). set (l := fresh_loc _). cbn.
    split; [| by rewrite lookup_insert_eq]. destruct W as [W1 W2]. split; cbn.
    + intros id l'. rewrite lookup_insert_Some. intros [[_ <-] | [_ Hid]]; [by rewrite lookup_insert_eq |].
      destruct (decide (l' = l)) as [-> | Hne]; [by rewrite lookup_insert_eq |].
      rewrite lookup_insert_ne by done. by eapply W1.
    + intros l' rss. rewrite lookup_insert_Some. intros [[_ <-] | [_ Hl]]; [| by eapply W2]. split; cbn; unfold is_byte; lia.
Qed.

Lemma translate_burst_wf t l rss src dst g slot e bt data :
  reverse_wf t -> rss_wf rss -> reverse_wf (fst (translate_burst t l rss src dst g slot e bt data)).
Proof.
  intros W R. assert (R' : rss_wf (with_seq rss (u8 (rs_seq rss + 1)))) by (destruct R; split; [done | apply u8_range | done]).
  assert (R1 : forall g', rss_wf (with_start (with_seq rss (u8 (rs_seq rss + 1))) (encodeEmbeddedLC src dst g')))
    by (split; cbn; [lia | apply u8_range | done]).
  assert (R2 : reverse_wf (removeReverseStreamAliases (with_reverse t l (with_seq rss (u8 (rs_seq rss + 1)))) l)).
  { destruct (reverse_wf_put t l _ W R') as [W1 W2]. split; cbn; [| done].
    intros id l'. rewrite map_lookup_filter_Some. intros [Hid _]. by eapply W1. }
  assert (R3 : rss_wf (with_index (with_seq rss (u8 (rs_seq rss + 1))) ((rs_burstIndex rss + 1) mod 6)))
    by (destruct R'; split; cbn; [by apply Z.mod_pos_bound | done | done]).
  unfold translate_burst, buildMMDVMDataPacket, buildMMDVMVoiceBurst. cbn zeta.
  repeat match goal with |- context [if ?b then _ else _] => destruct b end; cbn [fst]; auto using reverse_wf_put.
Qed.

Inductive translator_op :=
  | ToIPSC (pkt : Packet) (now : time)
  | ToMMDVM (packetType : Z) (data : list Z) (now : time)
  | Cleanup (streamID : Z)
  | PeerID (id : Z)
  | ColorCode (cc : Z).

(** One operation; a panic ends the program. *)
Definition apply_op (t : outcome IPSCTranslator) (o : translator_op) : outcome IPSCTranslator :=
  let! t := t in
  match o with
  | ToIPSC pkt now => Done (fst (TranslateToIPSC t pkt now))
  | ToMMDVM packetType data now =>
      let! (t, _) := TranslateToMMDVM t packetType data now in Done t
  | Cleanup id => Done (CleanupStream t id)
  | PeerID id => Done (SetPeerID t id)
  | ColorCode cc => Done (SetColorCode t cc)
  end.

Lemma to_ipsc_reverse t pkt now :
  reverseStreams (fst (TranslateToIPSC t pkt now)) = reverseStreams t /\
  reverse_store (fst (TranslateToIPSC t pkt now)) = reverse_store t.
Proof.
  unfold TranslateToIPSC, forward_stream, translate_frame. destruct (_ <? _); [done |].
  destruct (streams t !! _); [| destruct (if _ || _ then _ else None)]; destruct (forward_store _ !! _) as [ss |]; try done;
    cbn zeta; repeat (case_match; try done).
Qed.

Lemma to_mmdvm_forward t pt data now t' out :
  TranslateToMMDVM t pt data now = Done (t', out) ->
  streams t' = streams t /\ forward_store t' = forward_store t.
Proof.
  unfold TranslateToMMDVM. destruct (_ <? _)%nat; [by intros [= <- _] |]. destruct (negb _); [by intros [= <- _] |].
  destruct (index data 30) as [bt |]; [| done]. cbn [obind].
  assert (Hrs : forall control peer src dst g slot trusted,
    let t1 := fst (reverse_stream t control peer src dst g slot trusted bt now) in
    streams t1 = streams t /\ forward_store t1 = forward_store t).
  { intros control peer src dst g slot trusted. cbn zeta. unfold reverse_stream.
    destruct (reverseStreams t !! control); [done |].
    by destruct (match findRecentReverseStream _ _ _ _ _ _ with Some l => Some l | None => _ end). }
  destruct (match recoverAddressesFromFullLC data bt with Some _ => _ | None => _ end) as [[src dst] trusted].
  match goal with |- context [reverse_stream t ?a ?b ?c ?d ?e ?f ?g bt now] => specialize (Hrs a b c d e f g) end.
  destruct (reverse_stream _ _ _ _ _ _ _ _ _ _) as [t1 l]. cbn in Hrs.
  destruct (reverse_store t1 !! l) as [rss |]; [| intros [= <- _]; exact Hrs].
  intros [= E]. unfold translate_burst, buildMMDVMDataPacket, buildMMDVMVoiceBurst in E. cbn zeta in E.
  repeat (case_match; try (injection E as <- _; exact Hrs)).
Qed.

Lemma apply_op_wf t o t' :
  forward_wf t -> reverse_wf t -> apply_op (Done t) o = Done t' -> forward_wf t' /\ reverse_wf t'.
Proof.
  intros F R. destruct o as [pkt now | pt data now | id | id | cc]; cbn [apply_op obind].
  - intros [= <-]. pose proof (translate_spec t pkt now F) as S. pose proof (to_ipsc_reverse t pkt now) as [E1 E2].
    destruct (TranslateToIPSC t pkt now) as [t' outs]. cbn [fst] in *. destruct S as [F' _].
    split; [done |]. destruct R as [R1 R2]. split; rewrite ?E1, ?E2; done.
  - destruct (TranslateToMMDVM t pt data now) as [[t1 out] |] eqn:E; [| done]. cbn. intros [= <-].
    destruct (to_mmdvm_forward _ _ _ _ _ _ E) as [E1 E2]. split; [destruct F as [F1 F2]; split; by rewrite ?E1, ?E2 |].
    revert E. unfold TranslateToMMDVM. destruct (_ <? _)%nat; [by intros [= <- _] |].
    destruct (negb _); [by intros [= <- _] |]. destruct (index data 30) as [bt |]; [| done]. cbn [obind].
    destruct (match recoverAddressesFromFullLC data bt with Some _ => _ | None => _ end) as [[src dst] trusted].
    match goal with |- context [reverse_stream t ?a ?b ?c ?d ?e ?f ?g bt now] =>
      pose proof (reverse_stream_wf t a b c d e f g bt now R) as S end.
    destruct (reverse_stream _ _ _ _ _ _ _ _ _ _) as [t2 l]. destruct S as [S1 [rss Hrss]]. rewrite Hrss.
    intros [= E]. assert (R' : rss_wf (with_lastSeen rss now)) by (destruct (vwf_states _ S1 _ _ Hrss); by split).
    match type of E with translate_burst ?a ?b ?c ?d ?e ?f ?g ?h ?i ?j = _ =>
      pose proof (translate_burst_wf a b c d e f g h i j (reverse_wf_put _ _ _ S1 R') R') as W end.
    by rewrite E in W.
  - intros [= <-]. split; [| by destruct R]. destruct F as [F1 F2]. split; cbn; [| done].
    intros id' l. rewrite lookup_delete_Some. intros [_ Hid]. by eapply F1.
  - intros [= <-]. destruct F, R. by split.
  - intros [= <-]. destruct F, R. by split.
Qed.

(** After any sequence of translations in both directions and of settings,
    the stream tables are sound: every stream identifier leads to a stream state
    (no nil state is ever found), RTP numbers and call controls stay within
    their widths, the position in the superframe is one of six, and the embedded
    LC of a stream has its four fragments. *)
Theorem stream_tables_sound ops t :
  foldl apply_op (Done NewIPSCTranslator) ops = Done t ->
  (forall id l, streams t !! id = Some l -> exists ss, forward_store t !! l = Some ss /\ ss_wf ss) /\
  (forall id l, reverseStreams t !! id = Some l -> exists rss, reverse_store t !! l = Some rss /\ rss_wf rss).
Proof.
  intros E. assert (H3 : forward_wf t /\ reverse_wf t).
  { revert E. apply (foldl_inv (fun r => forall t, r = Done t -> forward_wf t /\ reverse_wf t)).
    - intros t' [= <-]. split; [apply new_wf | by split].
    - intros [t0 |] o _ IH t' E; [| done]. destruct (IH t0 eq_refl). by eapply apply_op_wf. }
  destruct H3 as [[F1 F2] [R1 R2]]. split; intros id l Hid.
  - destruct (F1 _ _ Hid) as [ss Hss]. exists ss. split; [done | by eapply F2].
  - destruct (R1 _ _ Hid) as [rss Hr]. exists rss. split; [done | by eapply R2].
Qed.

End tables.

(** ** A concrete instance *)

(** A dmrgo that keeps the fields of a Full LC at their ETSI positions, and a
    burst that holds the packed frames. *)
Definition print_lc (flc : FullLinkControl) : list Z :=
  [u8 (FLCO flc); 0; 0x20] ++ put_be24 (TargetAddress flc) ++ put_be24 (SourceAddress flc) ++ [0; 0; 0].
Definition parse_lc (bytes : list Z) : FullLinkControl :=
  let dst := get_be24 (bytes.[3]) (bytes.[4]) (bytes.[5]) in
  mkFLC (bytes.[0]) 0 [1; 0] dst dst (get_be24 (bytes.[6]) (bytes.[7]) (bytes.[8])).

#[local] Instance sample_dmrgo : Dmrgo := {|
  FullLinkControl_Encode flc := Some (print_lc flc);
  FullLinkControl_DecodeFromBits bits dt :=
    Some (parse_lc (or_bits (replicate 12 0) 0 96 (fun i => bits.[i] =? 1)));
  Burst := list Z;
  Burst_zero := [];
  Burst_DecodeFromBytes _ data := data;
  IsData b := false;
  VoiceFrames b := UnpackAMBEVoiceFrames (take 19 b);
  HasEmbeddedSignalling _ := false;
  PackEmbeddedSignallingData _ := replicate 4 0;
  Burst_Encode b := PackAMBEVoiceFrames (ob_frames b) ++ replicate 14 0
|}.

#[local] Instance sample_order : MapOrder := {| iter m := map_to_list m |}.
#[local] Instance sample_order_laws : MapOrderLaws.
Proof. split. done. Qed.

(** A voice call: a header, seven voice packets and a terminator. *)
Definition call_header : Packet :=
  mkPacket DMRD 0 3120001 9 312000 true true 2 1 77 (repeat 0 33).
Definition call_voice (i : nat) : Packet * time :=
  (mkPacket DMRD 0 3120001 9 312000 true true 0 0 77 (repeat (Z.of_nat i) 33), 1000 + Z.of_nat i).
Definition call_terminator : Packet :=
  mkPacket DMRD 0 3120001 9 312000 true true 2 2 77 (repeat 0 33).
Definition call_history : list (Packet * time) :=
  (call_header, 1000) :: (call_voice <$> seq 0 7) ++ [(call_terminator, 2000)].

Lemma forward_rtp_flow_witness :
  (length (packets_of 0 (snd (run_forward NewIPSCTranslator call_history))) = 10%nat) /\
  exists control, forall i data,
  packets_of 0 (snd (run_forward NewIPSCTranslator call_history)) !! i = Some data ->
  rtp_seq_of data = u16 (Z.of_nat i) /\ rtp_timestamp_of data = u32 (480 * Z.of_nat i) /\
  call_control_of data = control.
Proof. split; [by vm_compute | exact (forward_rtp_flow call_history 0)]. Defined.

Lemma stream_tables_sound_witness :
  exists t, foldl apply_op (Done NewIPSCTranslator) [PeerID 312000; ToIPSC call_header 1000] = Done t /\
  exists ss, forward_store t !! 0%nat = Some ss /\ ss_wf ss.
Proof.
  eexists. split; [cbn; reflexivity |].
  refine (proj1 (stream_tables_sound [PeerID 312000; ToIPSC call_header 1000] _ eq_refl) 77 0%nat _). by vm_compute.
Defined.

Lemma unpack_bits data : exists f0 f1 f2, UnpackAMBEVoiceFrames data = [f0; f1; f2] /\
  Forall (fun f => length f = 49%nat /\ Forall is_bit f) [f0; f1; f2].
Proof.
  eexists _, _, _. split; [reflexivity |].
  assert (Hf : forall (g : nat -> bool), Forall is_bit ((fun i => flag (g i)) <$> seq 0 49)).
  { intros g. apply bits_Forall. intros i. destruct (g i); [by right | by left]. }
  repeat apply Forall_cons_2; try apply Forall_nil; try done;
    (split; [by rewrite length_fmap, length_seq | apply Hf]).
Qed.

#[local] Instance sample_dmrgo_laws : DmrgoLaws.
Proof.
  split; [by eexists | | done | intros b _; apply unpack_bits].
  intros flc bytes dt flc' Ht Hs Hg E1 E2. apply (inj Some) in E1, E2. subst bytes flc'.
  change (list_inserts 0 (take 12 (print_lc flc)) (replicate 12 0)) with (print_lc flc).
  rewrite (or_bits_rebuild (print_lc flc) 12); [| done | |].
  - rewrite Hg. unfold print_lc, parse_lc, put_be24. cbn [app SourceAddress GroupAddress TargetAddress].
    unfold byte_at. cbn [lookup list_lookup default from_option id]. by rewrite !get_put_be24.
  - unfold print_lc, put_be24. cbn [app].
    repeat apply Forall_cons_2; try apply u8_range; try apply Forall_nil; done.
  - intros i Hi. by rewrite byte_at_map_seq.
Qed.

Lemma voice_call_roundtrip_witness :
  exists A' B' h ps e,
    relay NewIPSCTranslator NewIPSCTranslator call_history = Done (A', B', h :: ps ++ [e]) /\
    same_address call_header h 1 0 /\ same_lc call_header h DataTypeVoiceLCHeader 0 /\ length ps = 7%nat.
Proof.
  assert (Hid : is_u32 77) by by_eval. assert (Hs : is_u24 3120001) by by_eval. assert (Hd : is_u24 9) by by_eval.
  assert (Hvs : Forall (fun v => same_call call_header (fst v) /\ IsData (decoded (fst v)) = false /\
    (FrameType (fst v) = mmdvmFrameTypeVoice \/ FrameType (fst v) = mmdvmFrameTypeVoiceSync)) (call_voice <$> seq 0 7)).
  { apply Forall_fmap, Forall_true. intros i. split; [by split_ands |]. split; [reflexivity | by left]. }
  assert (Htm : same_call call_header call_terminator) by by split_ands.
  destruct (voice_call_roundtrip NewIPSCTranslator NewIPSCTranslator call_header 1000 (call_voice <$> seq 0 7)
    call_terminator 2000 new_wf eq_refl eq_refl Hid Hs Hd eq_refl eq_refl Hvs Htm eq_refl eq_refl)
    as (A' & B' & h & ps & e & E & H1 & H2 & H3 & _).
  exists A', B', h, ps, e. split; [exact E |]. split; [exact H1 |]. split; [exact H2 | exact H3].
Defined.
