(* ===== verification/MmdvmTraffic.v ===== *)
(** * The traffic of an MMDVM network (internal/mmdvm/client.go)

    Packets from the repeaters are rewritten by the network's rules, pass the
    timeslot arbiter and are queued for the master ([handleInboundPackets]);
    packets from the master are rewritten the other way, pass the arbiter all
    networks share and go to the repeaters ([handleOutboundPacket]).  At the end
    of a call the packets that waited for the slot are delivered
    ([drainPendingInbound], [drainPendingOutbound]).

    The channel to the master is a queue.  [tx_room] says how many more sends
    are taken before the closed [done] channel is chosen instead; it is [None]
    as long as the client is not being stopped. *)

From S2P Require Import Prelude Packet Rewrite Timeslot IpscFrame Translator.

Definition frameTypeDataSync : Z := 2.
Definition dtypeTerminatorWithLC : Z := 2.

Definition is_terminator (pkt : Packet) : bool :=
  (FrameType pkt =? frameTypeDataSync) && (DTypeOrVSeq pkt =? dtypeTerminatorWithLC).

Abbreviation PManager := (Manager (P := Packet)).

(** ** Draining a slot

    The loop the two drains share: [deliver] hands one packet over, and is
    [None] when the client is being stopped. *)
Section drain.
Context {S : Type} (deliver : S -> Packet -> option S).

(** The inner loop; [term] is the stream of the last terminator seen. *)
Fixpoint deliver_all (s : S) (pkts : list Packet) (term : option Z) : S * option (option Z) :=
  match pkts with
  | [] => (s, Some term)
  | pkt :: pkts =>
      match deliver s pkt with
      | None => (s, None)
      | Some s => deliver_all s pkts (if is_terminator pkt then Some (StreamID pkt) else term)
      end
  end.

Fixpoint drain (fuel : nat) (m : PManager) (s : S) (slot : bool) (streamID : Z) (now : time)
    : PManager * S * bool :=
  match fuel with
  | O => (m, s, true)
  | Datatypes.S fuel =>
      let '(m, buffered) := Release m slot streamID now in
      match buffered with
      | [] => (m, s, true)
      | _ =>
          match deliver_all s buffered None with
          | (s, None) => (m, s, false)
          | (s, Some None) => (m, s, true)
          | (s, Some (Some next)) => drain fuel m s slot next now
          end
      end
  end.

(** Each release takes one stream off the queue of the slot. *)
Definition drain_fuel (m : PManager) (slot : bool) : nat :=
  Datatypes.S (length (pending (getOrCreateSlot m (slotIndex slot)))).

End drain.

Section traffic.
Context `{Dmrgo} `{MapOrder}.

Record Traffic := mkTraffic {
  net_Name : string;
  chains : Chains;
  inboundTSMgr : PManager;
  outboundTSMgr : option PManager;
  translator : IPSCTranslator;
  tx_chan : list Packet;
  tx_room : option nat;
  packetHandler : bool;
  ipscHandler : bool;
  to_packetHandler : list Packet;
  to_ipscHandler : list (list Z)
}.

Definition with_inbound (t : Traffic) m := mkTraffic (net_Name t) (chains t) m (outboundTSMgr t) (translator t)
  (tx_chan t) (tx_room t) (packetHandler t) (ipscHandler t) (to_packetHandler t) (to_ipscHandler t).
Definition with_outbound (t : Traffic) m := mkTraffic (net_Name t) (chains t) (inboundTSMgr t) m (translator t)
  (tx_chan t) (tx_room t) (packetHandler t) (ipscHandler t) (to_packetHandler t) (to_ipscHandler t).
Definition with_tx (t : Traffic) q room := mkTraffic (net_Name t) (chains t) (inboundTSMgr t) (outboundTSMgr t)
  (translator t) q room (packetHandler t) (ipscHandler t) (to_packetHandler t) (to_ipscHandler t).
Definition with_translator (t : Traffic) tr ipsc := mkTraffic (net_Name t) (chains t) (inboundTSMgr t) (outboundTSMgr t)
  tr (tx_chan t) (tx_room t) (packetHandler t) (ipscHandler t) (to_packetHandler t) ipsc.
Definition with_handled (t : Traffic) l := mkTraffic (net_Name t) (chains t) (inboundTSMgr t) (outboundTSMgr t)
  (translator t) (tx_chan t) (tx_room t) (packetHandler t) (ipscHandler t) l (to_ipscHandler t).

(** [NewMMDVMClient]: the arbiter of the inbound direction gives a slot up after
    600 ms; the handlers and the shared arbiter are set later. *)
Definition NewTraffic (name : string) (cfg : RuleConfigs) : Traffic :=
  mkTraffic name (buildRewriteRules cfg) (SetTimeout NewManager (600 * millisecond)) None NewIPSCTranslator
    [] None false false [] [].

Definition SetOutboundTSManager (t : Traffic) (m : PManager) : Traffic := with_outbound t (Some m).
Definition SetIPSCHandler (t : Traffic) : Traffic :=
  mkTraffic (net_Name t) (chains t) (inboundTSMgr t) (outboundTSMgr t) (translator t) (tx_chan t) (tx_room t)
    (packetHandler t) true (to_packetHandler t) (to_ipscHandler t).
Definition SetPacketHandler (t : Traffic) : Traffic :=
  mkTraffic (net_Name t) (chains t) (inboundTSMgr t) (outboundTSMgr t) (translator t) (tx_chan t) (tx_room t)
    true (ipscHandler t) (to_packetHandler t) (to_ipscHandler t).

(** ** Matching *)

Definition MatchesPacket (t : Traffic) (pkt : Packet) (passallOnly : bool) : bool :=
  if passallOnly then snd (Apply (passallRewrites (chains t)) pkt)
  else snd (Apply (rfRewrites (chains t)) pkt).

Definition MatchesRules (t : Traffic) (packetType : Z) (data : list Z) (passallOnly : bool) : bool :=
  if (length data <? 18)%nat then false
  else
    let probe := mkPacket [] 0 (get_be24 (data.[6]) (data.[7]) (data.[8])) (get_be24 (data.[9]) (data.[10]) (data.[11]))
      0 (negb (Z.land (data.[17]) 0x20 =? 0)) ((packetType =? 0x80) || (packetType =? 0x83)) 0 0 0 (replicate 33 0) in
    MatchesPacket t probe passallOnly.

(** ** Towards the master *)

(** [select { case h.tx_chan <- pkt: case <-h.done: }] *)
Definition send_tx (t : Traffic) (pkt : Packet) : option Traffic :=
  match tx_room t with
  | Some O => None
  | Some (Datatypes.S n) => Some (with_tx t (tx_chan t ++ [pkt]) (Some n))
  | None => Some (with_tx t (tx_chan t ++ [pkt]) None)
  end.

Definition drainPendingInbound (t : Traffic) (slot : bool) (streamID : Z) (now : time) : Traffic * bool :=
  let m := inboundTSMgr t in
  let '(m, t, ok) := drain send_tx (drain_fuel m slot) m t slot streamID now in
  (with_inbound t m, ok).

(** The rewrite of a packet on its way to the master, if any rule takes it. *)
Definition rewrite_rf (h : Chains) (pkt : Packet) : option Packet :=
  match Apply (rfRewrites h) pkt with
  | (pkt, true) => Some pkt
  | (pkt, false) =>
      match Apply (passallRewrites h) pkt with
      | (pkt, true) => Some pkt
      | (_, false) => None
      end
  end.

(** [handleInboundPackets]; the result says whether a packet was taken. *)
Fixpoint inbound_loop (t : Traffic) (packets : list Packet) (now : time) (matched : bool) : Traffic * bool :=
  match packets with
  | [] => (t, matched)
  | pkt :: packets =>
      match rewrite_rf (chains t) pkt with
      | None => inbound_loop t packets now matched
      | Some pkt =>
          let '(m, ok) := Submit (inboundTSMgr t) (Slot pkt) (StreamID pkt) "ipsc" pkt now in
          let t := with_inbound t m in
          if negb ok then inbound_loop t packets now matched
          else
            match send_tx t pkt with
            | None => (t, true)
            | Some t =>
                if is_terminator pkt then
                  let '(t, ok) := drainPendingInbound t (Slot pkt) (StreamID pkt) now in
                  if ok then inbound_loop t packets now true else (t, true)
                else inbound_loop t packets now true
            end
      end
  end.

Definition handleInboundPackets (t : Traffic) (packets : list Packet) (now : time) : Traffic * bool :=
  inbound_loop t packets now false.

Definition HandleTranslatedPacket (started : bool) (t : Traffic) (pkt : Packet) (now : time) : Traffic * bool :=
  if negb started then (t, false) else handleInboundPackets t [pkt] now.

Definition HandleIPSCBurst (started : bool) (t : Traffic) (packetType : Z) (data : list Z) (now : time)
    : outcome (Traffic * bool) :=
  if negb started then Done (t, false)
  else
    let! (tr, packets) := TranslateToMMDVM (translator t) packetType data now in
    Done (handleInboundPackets (with_translator t tr (to_ipscHandler t)) packets now).

(** ** Towards the repeaters *)

Definition translateAndForwardToIPSC (now : time) (t : Traffic) (pkt : Packet) : Traffic :=
  if packetHandler t then with_handled t (to_packetHandler t ++ [pkt])
  else if ipscHandler t then
    let '(tr, datas) := TranslateToIPSC (translator t) pkt now in
    with_translator t tr (to_ipscHandler t ++ datas)
  else t.

Definition drainPendingOutbound (t : Traffic) (m : PManager) (slot : bool) (streamID : Z) (now : time) : Traffic :=
  let '(m, t, _) := drain (fun t pkt => Some (translateAndForwardToIPSC now t pkt)) (drain_fuel m slot) m t slot streamID now in
  with_outbound t (Some m).

Definition handleOutboundPacket (t : Traffic) (pkt : Packet) (now : time) : Traffic :=
  match Apply (netRewrites (chains t)) pkt with
  | (_, false) => t
  | (pkt, true) =>
      match outboundTSMgr t with
      | None => translateAndForwardToIPSC now t pkt
      | Some m =>
          let '(m, ok) := Submit m (Slot pkt) (StreamID pkt) (net_Name t) pkt now in
          let t := with_outbound t (Some m) in
          if negb ok then t
          else
            let t := translateAndForwardToIPSC now t pkt in
            if is_terminator pkt then drainPendingOutbound t m (Slot pkt) (StreamID pkt) now else t
      end
  end.

End traffic.

(** ** Termination of the drains *)


Lemma release_lookup (m : PManager) slot sid now ss :
  slots m !! slotIndex slot = Some (Some ss) ->
  getOrCreateSlot (fst (Release m slot sid now)) (slotIndex slot) = fst (release_slot ss sid now).
Proof.
  intros E. unfold Release. rewrite E. destruct (release_slot ss sid now) as [ss' out]. cbn [fst].
  unfold getOrCreateSlot. cbn. rewrite list_lookup_insert_eq; [done |]. by eapply lookup_lt_Some.
Qed.

Lemma release_fewer (m : PManager) slot sid now m' b :
  Release m slot sid now = (m', b) -> b <> [] -> drain_fuel m slot = S (drain_fuel m' slot).
Proof.
  intros E Hb. pose proof (release_lookup m slot sid now) as L. rewrite E in L. cbn [fst] in L.
  revert E. unfold Release. destruct (slots m !! slotIndex slot) as [[ss |] |] eqn:Es; [| by intros [= <- <-] ..].
  specialize (L ss eq_refl). unfold drain_fuel. rewrite L. unfold getOrCreateSlot. rewrite Es.
  unfold release_slot. destruct (active ss); [| by intros [= _ <-]]. destruct (negb _); [by intros [= _ <-] |].
  destruct (pending ss) as [| p l]; [by intros [= _ <-] | done].
Qed.

(** C37: The loops that deliver the waiting calls of a slot end: every round
    takes one waiting call, so as many rounds as there are waiting calls and one
    more are enough, and allowing more changes nothing. *)
Theorem drain_terminates {S} (deliver : S -> Packet -> option S) k m s slot sid now :
  drain deliver (drain_fuel m slot + k) m s slot sid now = drain deliver (drain_fuel m slot) m s slot sid now.
Proof.
  remember (drain_fuel m slot) as f eqn:Ef. revert m s sid Ef. induction f as [| f IH]; intros m s sid Ef; [done |].
  cbn [drain Nat.add]. destruct (Release m slot sid now) as [m' b] eqn:Er. destruct b as [| pk b]; [done |].
  assert (Hf : f = drain_fuel m' slot) by (pose proof (release_fewer _ _ _ _ _ _ Er ltac:(done)); lia).
  destruct (deliver_all deliver s (pk :: b) None) as [s' [[next |] |]]; [by apply IH | done | done].
Qed.

(** ** Conservation *)

Definition of_stream (slot : bool) (sid : Z) (l : list Packet) : list Packet :=
  filter (fun p => Slot p = slot /\ StreamID p = sid) l.

Definition waiting (m : PManager) (slot : bool) (sid : Z) : list Packet :=
  buffered sid (getOrCreateSlot m (slotIndex slot)).

(** The arbiter is well formed, and what waits on a slot for a stream are
    packets of that slot and stream. *)
Definition slot_tagged (slot : bool) (ss : slotState (P := Packet)) : Prop :=
  Forall (fun ps => Forall (fun pk => Slot pk = slot /\ StreamID pk = ps_streamID ps) (ps_packets ps)) (pending ss).
Record mgr_ok (m : PManager) : Prop := {
  ok_inv : manager_inv m;
  ok_tagged slot : slot_tagged slot (getOrCreateSlot m (slotIndex slot))
}.

Lemma of_stream_app slot sid l1 l2 : of_stream slot sid (l1 ++ l2) = of_stream slot sid l1 ++ of_stream slot sid l2.
Proof. apply filter_app. Qed.

Lemma of_stream_all slot sid slot' sid' l :
  Forall (fun pk => Slot pk = slot' /\ StreamID pk = sid') l ->
  of_stream slot sid l = if decide (slot' = slot /\ sid' = sid) then l else [].
Proof.
  unfold of_stream. induction 1 as [| pk l [E1 E2] Hl IH]; [by destruct (decide _) |].
  rewrite filter_cons, IH, E1, E2. by destruct (decide _).
Qed.

Lemma put_slot_ok (m : PManager) slot ss :
  mgr_ok m -> slot_inv ss -> slot_tagged slot ss ->
  mgr_ok (put_slot m (slotIndex slot) ss) /\
  forall slot' sid, waiting (put_slot m (slotIndex slot) ss) slot' sid =
    if decide (slot' = slot) then buffered sid ss else waiting m slot' sid.
Proof.
  intros [Hinv Htag] Hss Ht.
  assert (Hget : forall slot', getOrCreateSlot (put_slot m (slotIndex slot) ss) (slotIndex slot') =
    if decide (slot' = slot) then ss else getOrCreateSlot m (slotIndex slot')).
  { intros slot'. case_decide as E; [subst; by rewrite get_put_slot by apply Hinv |].
    unfold getOrCreateSlot. assert (slot' = negb slot) as -> by (by destruct slot, slot'). by rewrite lookup_other_slot. }
  split; [split; [by apply put_slot_inv |] |].
  - intros slot'. rewrite Hget. by case_decide; subst.
  - intros slot' sid. unfold waiting. rewrite Hget. by case_decide.
Qed.

Lemma release_ok (m : PManager) slot sid now m' b :
  mgr_ok m -> Release m slot sid now = (m', b) ->
  mgr_ok m' /\ timeout m' = timeout m /\
  forall slot' sid', of_stream slot' sid' b ++ waiting m' slot' sid' = waiting m slot' sid'.
Proof.
  intros Hm. unfold Release. pose proof (ok_tagged _ Hm slot) as Ht. pose proof (get_slot_inv m (slotIndex slot) (ok_inv _ Hm)) as Hi.
  assert (Hw : forall sid', waiting m slot sid' = buffered sid' (getOrCreateSlot m (slotIndex slot))) by done.
  unfold getOrCreateSlot in Ht, Hi, Hw. destruct (slots m !! slotIndex slot) as [[ss |] |] eqn:Es; [| by intros [= <- <-] ..].
  pose proof (release_inv ss sid now Hi) as Hi'. unfold release_slot in *.
  destruct (active ss) as [ac |]; [destruct (negb _); [| destruct (pending ss) as [| p l] eqn:Ep] |];
    cbn [fst] in Hi'; intros [= <- <-].
  - destruct (put_slot_ok m slot ss Hm Hi Ht) as [H1 H2]. split_ands; [done | done |]. intros slot' sid'. rewrite H2.
    case_decide; subst; [by rewrite Hw | done].
  - destruct (put_slot_ok m slot _ Hm Hi' (Forall_nil_2 _)) as [H1 H2]. split_ands; [done | done |].
    intros slot' sid'. rewrite H2. case_decide; subst; [rewrite Hw; unfold buffered; by rewrite Ep | done].
  - unfold slot_tagged in Ht. rewrite Ep in Ht. apply Forall_cons in Ht as [Hp Hl].
    destruct (put_slot_ok m slot _ Hm Hi' Hl) as [H1 H2]. split_ands; [done | done |].
    intros slot' sid'. rewrite H2, (of_stream_all slot' sid' slot (ps_streamID p)) by done.
    destruct (decide (slot' = slot)) as [-> | Hne]; [| by rewrite decide_False by (intros [? _]; congruence)].
    rewrite Hw. unfold buffered. rewrite Ep. cbn [pending fmap list_fmap mjoin list_join].
    destruct (decide (ps_streamID p = sid')); [by rewrite decide_True | by rewrite decide_False by tauto].
  - destruct (put_slot_ok m slot ss Hm Hi Ht) as [H1 H2]. split_ands; [done | done |]. intros slot' sid'. rewrite H2.
    case_decide; subst; [by rewrite Hw | done].
Qed.

(** No other call has timed out on the packet's slot. *)
Definition calm (m : PManager) (pkt : Packet) (now : time) : Prop :=
  forall ac, active (getOrCreateSlot m (slotIndex (Slot pkt))) = Some ac -> ac_streamID ac <> StreamID pkt ->
    time_sub now (ac_lastSeen ac) <= timeout m.

Lemma append_tagged slot sid pkt l :
  Slot pkt = slot -> StreamID pkt = sid ->
  Forall (fun ps => Forall (fun pk => Slot pk = slot /\ StreamID pk = ps_streamID ps) (ps_packets ps)) l ->
  Forall (fun ps => Forall (fun pk => Slot pk = slot /\ StreamID pk = ps_streamID ps) (ps_packets ps))
    (append_pending l sid pkt).
Proof.
  intros E1 E2 Hl. induction Hl as [| ps l Hps Hl IH]; [apply Forall_nil_2 |]. cbn [append_pending].
  destruct (Z.eqb_spec (ps_streamID ps) sid); apply Forall_cons; split; try done. cbn.
  apply Forall_app. split; [done |]. apply Forall_singleton. split; congruence.
Qed.

Lemma submit_tagged t (ss : slotState) pkt net now :
  slot_tagged (Slot pkt) ss -> slot_tagged (Slot pkt) (fst (submit_slot t ss (StreamID pkt) net pkt now)).
Proof.
  intros Ht. unfold submit_slot. destruct (active ss); [| done]. destruct (_ =? _); [done |].
  destruct (_ <? _); [apply Forall_nil_2 |].
  apply append_tagged; [done | done |]. destruct (findPending ss _); [done |]. apply Forall_app. split; [done |].
  apply Forall_singleton. apply Forall_nil_2.
Qed.

(** A packet that may pass leaves the waiting packets as they are, or discards
    all that wait for its slot. *)
Lemma submit_accepted (m : PManager) pkt net now m' :
  mgr_ok m -> Submit m (Slot pkt) (StreamID pkt) net pkt now = (m', true) ->
  mgr_ok m' /\ forall slot sid, waiting m' slot sid `prefix_of` waiting m slot sid.
Proof.
  intros Hm. unfold Submit. pose proof (get_slot_inv m (slotIndex (Slot pkt)) (ok_inv _ Hm)) as Hi.
  pose proof (ok_tagged _ Hm (Slot pkt)) as Ht.
  assert (Hw : forall sid, waiting m (Slot pkt) sid = buffered sid (getOrCreateSlot m (slotIndex (Slot pkt)))) by done.
  set (ss := getOrCreateSlot m (slotIndex (Slot pkt))) in *.
  pose proof (submit_inv (timeout m) ss (StreamID pkt) net pkt now Hi) as Hi'.
  pose proof (submit_tagged (timeout m) ss pkt net now Ht) as Ht'.
  assert (Hp : snd (submit_slot (timeout m) ss (StreamID pkt) net pkt now) = true ->
    forall sid, buffered sid (fst (submit_slot (timeout m) ss (StreamID pkt) net pkt now)) `prefix_of` buffered sid ss).
  { unfold submit_slot. destruct (active ss); [| done]. destruct (_ =? _); [done |]. destruct (_ <? _); [| done].
    intros _ sid. apply prefix_nil. }
  destruct (submit_slot (timeout m) ss (StreamID pkt) net pkt now) as [ss' ok]. cbn [fst snd] in *. intros [= <- ->].
  destruct (put_slot_ok m (Slot pkt) ss' Hm Hi' Ht') as [H1 H2]. split; [done |]. intros slot sid. rewrite H2.
  case_decide; subst; [rewrite Hw; by apply Hp | done].
Qed.

Lemma submit_ok (m : PManager) pkt net now m' ok :
  mgr_ok m -> calm m pkt now -> Submit m (Slot pkt) (StreamID pkt) net pkt now = (m', ok) ->
  mgr_ok m' /\ timeout m' = timeout m /\
  forall slot' sid', of_stream slot' sid' (if ok then [pkt] else []) ++ waiting m' slot' sid' =
    waiting m slot' sid' ++ of_stream slot' sid' [pkt].
Proof.
  intros Hm Hc. unfold Submit. pose proof (get_slot_inv m (slotIndex (Slot pkt)) (ok_inv _ Hm)) as Hi.
  pose proof (ok_tagged _ Hm (Slot pkt)) as Ht. unfold calm in Hc.
  assert (Hw : forall sid', waiting m (Slot pkt) sid' = buffered sid' (getOrCreateSlot m (slotIndex (Slot pkt)))) by done.
  set (ss := getOrCreateSlot m (slotIndex (Slot pkt))) in *.
  pose proof (step_conserves (timeout m) ss (EvSubmit (StreamID pkt) net pkt now)) as C. cbn [step] in C.
  pose proof (submit_inv (timeout m) ss (StreamID pkt) net pkt now Hi) as Hi'.
  pose proof (submit_tagged (timeout m) ss pkt net now Ht) as Ht'.
  destruct (submit_slot (timeout m) ss (StreamID pkt) net pkt now) as [ss' ok']. cbn [fst snd] in *. intros [= <- <-].
  destruct (put_slot_ok m (Slot pkt) ss' Hm Hi' Ht') as [H1 H2]. split_ands; [done | done |].
  intros slot' sid'. rewrite H2. specialize (C sid' Hi (conj Hc I)). rewrite submitted_single in C.
  rewrite (of_stream_all slot' sid' (Slot pkt) (StreamID pkt) [pkt]) by (by apply Forall_singleton).
  rewrite (of_stream_all slot' sid' (Slot pkt) (StreamID pkt) (if ok' then [pkt] else []))
    by (destruct ok'; [by apply Forall_singleton | apply Forall_nil_2]).
  destruct (decide (slot' = Slot pkt)) as [-> | Hne].
  - rewrite Hw. destruct ok'; rewrite ?delivered_single in C; destruct (decide (StreamID pkt = sid')) as [E | E];
      [rewrite !decide_True by done | rewrite !decide_False by tauto |
       rewrite !decide_True by done | rewrite !decide_False by tauto]; exact C.
  - rewrite !decide_False by (intros [? _]; congruence). by rewrite app_nil_r.
Qed.

(** A drain whose deliveries all succeed and go to the end of a log. *)
Section drain_spec.
Context {S : Type} (deliver : S -> Packet -> option S) (log : S -> list Packet) (good : S -> Prop).
Hypothesis deliver_good : forall s pkt, good s -> exists s', deliver s pkt = Some s' /\ good s' /\ log s' = log s ++ [pkt].

Lemma deliver_all_good s pkts term :
  good s -> exists s' t, deliver_all deliver s pkts term = (s', Some t) /\ good s' /\ log s' = log s ++ pkts.
Proof.
  revert s term. induction pkts as [| pkt pkts IH]; intros s term Hs; cbn [deliver_all].
  - exists s, term. by rewrite app_nil_r.
  - destruct (deliver_good s pkt Hs) as (s1 & -> & Hs1 & E1).
    destruct (IH s1 (if is_terminator pkt then Some (StreamID pkt) else term) Hs1) as (s2 & t & -> & Hs2 & E2).
    exists s2, t. split_ands; [done | done |]. by rewrite E2, E1, <- app_assoc.
Qed.

Lemma drain_ok fuel m s slot sid now :
  mgr_ok m -> good s ->
  let '(m', s', ok) := drain deliver fuel m s slot sid now in
  ok = true /\ mgr_ok m' /\ timeout m' = timeout m /\ good s' /\
  exists out, log s' = log s ++ out /\
  forall slot' sid', of_stream slot' sid' out ++ waiting m' slot' sid' = waiting m slot' sid'.
Proof.
  revert m s sid. induction fuel as [| fuel IH]; intros m s sid Hm Hs; cbn [drain].
  { split_ands; try done. exists []. by rewrite app_nil_r. }
  destruct (Release m slot sid now) as [m1 b] eqn:Er. destruct (release_ok _ _ _ _ _ _ Hm Er) as (Hm1 & Et & Hr).
  destruct b as [| pk b]; [split_ands; try done; exists []; by rewrite app_nil_r |].
  destruct (deliver_all_good s (pk :: b) None Hs) as (s1 & t & -> & Hs1 & E1).
  destruct t as [next |]; [| split_ands; try done; by exists (pk :: b)].
  specialize (IH m1 s1 next Hm1 Hs1). destruct (drain deliver fuel m1 s1 slot next now) as [[m2 s2] ok].
  destruct IH as (-> & Hm2 & Et2 & Hs2 & out & E2 & H2). split_ands; try done; [congruence |].
  exists ((pk :: b) ++ out). rewrite E2, E1, <- app_assoc. split; [done |].
  intros slot' sid'. by rewrite of_stream_app, <- app_assoc, H2, Hr.
Qed.

End drain_spec.

Section conserved.
Context `{Dmrgo} `{MapOrder}.

(** The client is running and its arbiter is well formed. *)
Record inbound_ok (t : Traffic) : Prop := {
  in_mgr : mgr_ok (inboundTSMgr t);
  in_room : tx_room t = None
}.

(** What the master gets of a stream: what is queued for it, and what waits. *)
Definition towards_master (t : Traffic) (slot : bool) (sid : Z) : list Packet :=
  of_stream slot sid (tx_chan t) ++ waiting (inboundTSMgr t) slot sid.

Lemma send_tx_good (h : Chains) (m : PManager) t pkt :
  tx_room t = None /\ chains t = h /\ inboundTSMgr t = m ->
  exists t', send_tx t pkt = Some t' /\ (tx_room t' = None /\ chains t' = h /\ inboundTSMgr t' = m) /\
    tx_chan t' = tx_chan t ++ [pkt].
Proof. intros (E1 & E2 & E3). unfold send_tx. rewrite E1. eexists. split; [done |]. by cbn. Qed.

Lemma drain_inbound_ok t slot sid now :
  inbound_ok t ->
  let '(t', ok) := drainPendingInbound t slot sid now in
  ok = true /\ inbound_ok t' /\ chains t' = chains t /\ timeout (inboundTSMgr t') = timeout (inboundTSMgr t) /\
  forall slot' sid', towards_master t' slot' sid' = towards_master t slot' sid'.
Proof.
  intros [Hm Hr]. unfold drainPendingInbound.
  pose proof (drain_ok send_tx tx_chan (fun t' => tx_room t' = None /\ chains t' = chains t /\ inboundTSMgr t' = inboundTSMgr t)
    (fun s pkt => send_tx_good (chains t) (inboundTSMgr t) s pkt)
    (drain_fuel (inboundTSMgr t) slot) (inboundTSMgr t) t slot sid now Hm ltac:(done)) as D.
  destruct (drain send_tx _ _ t slot sid now) as [[m' t'] ok]. destruct D as (-> & Hm' & Et & (D1 & D2 & D3) & out & E & D).
  split_ands; try done. intros slot' sid'. unfold towards_master. cbn [inboundTSMgr with_inbound].
  change (tx_chan (with_inbound t' m')) with (tx_chan t'). by rewrite E, of_stream_app, <- app_assoc, D.
Qed.

(** One packet from the repeaters that finds no timed-out call. *)
Lemma inbound_one t pkt now :
  inbound_ok t -> (forall q, rewrite_rf (chains t) pkt = Some q -> calm (inboundTSMgr t) q now) ->
  let '(t', _) := handleInboundPackets t [pkt] now in
  inbound_ok t' /\ chains t' = chains t /\ timeout (inboundTSMgr t') = timeout (inboundTSMgr t) /\
  forall slot sid, towards_master t' slot sid =
    towards_master t slot sid ++ of_stream slot sid (option_list (rewrite_rf (chains t) pkt)).
Proof.
  intros Hok Hcalm. destruct Hok as [Hm Hr] eqn:Hok'. clear Hok'. unfold handleInboundPackets. cbn [inbound_loop].
  destruct (rewrite_rf (chains t) pkt) as [q |]; [| split_ands; try done; intros; by rewrite app_nil_r].
  specialize (Hcalm q eq_refl). destruct (Submit (inboundTSMgr t) (Slot q) (StreamID q) "ipsc" q now) as [m ok] eqn:Es.
  destruct (submit_ok _ _ _ _ _ _ Hm Hcalm Es) as (Hm1 & Et & C). cbn [option_list].
  destruct ok; cbn [negb]; [| split_ands; try done; intros slot sid; unfold towards_master; cbn;
    rewrite <- app_assoc, <- C; done].
  set (t1 := with_inbound t m).
  destruct (send_tx_good (chains t) m t1 q ltac:(done)) as (t2 & -> & (E1 & E2 & E3) & E4).
  assert (Hok2 : inbound_ok t2) by (split; [by rewrite E3 | done]).
  assert (C2 : forall slot sid, towards_master t2 slot sid = towards_master t slot sid ++ of_stream slot sid [q]).
  { intros slot sid. unfold towards_master. rewrite E4, E3, of_stream_app, <- !app_assoc, C. done. }
  destruct (is_terminator q); [| split_ands; try done; [by rewrite E3]].
  pose proof (drain_inbound_ok t2 (Slot q) (StreamID q) now Hok2) as D.
  destruct (drainPendingInbound t2 (Slot q) (StreamID q) now) as [t3 ok3]. destruct D as (-> & Hok3 & D1 & D2 & D3).
  split_ands; [done | congruence | rewrite D2, E3; done |]. intros slot sid. by rewrite D3.
Qed.

(** A history of packets from the repeaters, each with the time it comes in. *)
Definition inbound_run (t : Traffic) (hist : list (Packet * time)) : Traffic :=
  foldl (fun t '(pkt, now) => fst (handleInboundPackets t [pkt] now)) t hist.

(** No packet of the history finds a call that has timed out. *)
Fixpoint all_calm (t : Traffic) (hist : list (Packet * time)) : Prop :=
  match hist with
  | [] => True
  | (pkt, now) :: hist =>
      (forall q, rewrite_rf (chains t) pkt = Some q -> calm (inboundTSMgr t) q now) /\
      all_calm (fst (handleInboundPackets t [pkt] now)) hist
  end.

Lemma inbound_run_ok t hist :
  inbound_ok t -> all_calm t hist ->
  forall slot sid, towards_master (inbound_run t hist) slot sid =
    towards_master t slot sid ++ of_stream slot sid (omap (rewrite_rf (chains t)) hist.*1).
Proof.
  revert t. induction hist as [| [pkt now] hist IH]; intros t Hok Hcalm slot sid; [by rewrite app_nil_r |].
  destruct Hcalm as [Hc Hcalm]. pose proof (inbound_one t pkt now Hok Hc) as S. unfold inbound_run in *. cbn [foldl].
  destruct (handleInboundPackets t [pkt] now) as [t' b]. cbn [fst] in *. destruct S as (Hok' & E1 & E2 & S).
  rewrite IH, S, E1 by done. rewrite <- app_assoc, <- of_stream_app. do 2 f_equal.
  cbn. by destruct (rewrite_rf (chains t) pkt).
Qed.

Lemma new_mgr_ok (m : PManager) : slots m = [None; None] -> mgr_ok m.
Proof.
  intros E. split; [split; [by rewrite E |] |].
  - intros idx ss Ei. rewrite E in Ei. by destruct idx as [| [| idx]]; cbn in Ei.
  - intros slot. unfold slot_tagged, getOrCreateSlot. rewrite E. destruct slot; apply Forall_nil_2.
Qed.

Lemma new_traffic_ok name cfg : inbound_ok (NewTraffic name cfg).
Proof. split; [by apply new_mgr_ok | done]. Qed.

(** Nothing is lost on the way to the master.  As long as no call times
    out, the packets of a stream queued for the master, followed by those still
    waiting for the timeslot, are exactly the packets of the stream that the
    network's rules accepted, as rewritten and in order, whatever else was
    handled in between. *)
Theorem inbound_no_loss name cfg hist slot sid :
  all_calm (NewTraffic name cfg) hist ->
  let t := inbound_run (NewTraffic name cfg) hist in
  of_stream slot sid (tx_chan t) ++ waiting (inboundTSMgr t) slot sid =
  of_stream slot sid (omap (rewrite_rf (buildRewriteRules cfg)) hist.*1).
Proof.
  intros Hc. cbn zeta. rewrite <- (app_nil_l (of_stream _ _ (omap _ _))).
  etrans; [exact (inbound_run_ok _ _ (new_traffic_ok name cfg) Hc slot sid) |]. by destruct slot.
Qed.

(** ** The arbiter the networks share *)

(** The packets a step handed to the packet handler. *)
Definition handed (t t' : Traffic) : list Packet := drop (length (to_packetHandler t)) (to_packetHandler t').

(** The networks that share the outbound arbiter, the arbiter, and everything
    handed to the repeaters so far. *)
Record World := mkWorld {
  w_nets : list Traffic;
  w_mgr : PManager;
  w_out : list Packet
}.

(** Network [i] receives a packet from its master. *)
Definition world_step (w : World) (i : nat) (pkt : Packet) (now : time) : World :=
  match w_nets w !! i with
  | None => w
  | Some t =>
      let t := with_outbound t (Some (w_mgr w)) in
      let t' := handleOutboundPacket t pkt now in
      mkWorld (<[i := t']> (w_nets w)) (default (w_mgr w) (outboundTSMgr t')) (w_out w ++ handed t t')
  end.

(** The rewrite of a packet on its way to the repeaters. *)
Definition rewrite_net (h : Chains) (pkt : Packet) : option Packet :=
  match Apply (netRewrites h) pkt with (q, true) => Some q | (_, false) => None end.

Definition w_accepted (w : World) (i : nat) (pkt : Packet) : option Packet :=
  w_nets w !! i ≫= fun t => rewrite_net (chains t) pkt.

Record world_ok (w : World) : Prop := {
  wo_mgr : mgr_ok (w_mgr w);
  wo_nets : Forall (fun t => packetHandler t = true) (w_nets w)
}.

Lemma forward_good (h : Chains) (m : option PManager) now t pkt :
  packetHandler t = true /\ chains t = h /\ outboundTSMgr t = m ->
  exists t', Some (translateAndForwardToIPSC now t pkt) = Some t' /\
    (packetHandler t' = true /\ chains t' = h /\ outboundTSMgr t' = m) /\
    to_packetHandler t' = to_packetHandler t ++ [pkt].
Proof. intros (E1 & E2 & E3). unfold translateAndForwardToIPSC. rewrite E1. eexists. split; [done |]. by cbn. Qed.

Lemma outbound_one t m pkt now :
  packetHandler t = true -> mgr_ok m -> outboundTSMgr t = Some m ->
  (forall q, rewrite_net (chains t) pkt = Some q -> calm m q now) ->
  let t' := handleOutboundPacket t pkt now in
  packetHandler t' = true /\ chains t' = chains t /\
  exists m' out, outboundTSMgr t' = Some m' /\ mgr_ok m' /\ to_packetHandler t' = to_packetHandler t ++ out /\
  forall slot sid, of_stream slot sid out ++ waiting m' slot sid =
    waiting m slot sid ++ of_stream slot sid (option_list (rewrite_net (chains t) pkt)).
Proof.
  intros Hp Hm Ho Hcalm. cbn zeta. unfold handleOutboundPacket, rewrite_net in *.
  destruct (Apply (netRewrites (chains t)) pkt) as [q [|]].
  2:{ split_ands; [done | done |]. exists m, []. rewrite app_nil_r. split_ands; try done. intros; by rewrite app_nil_r. }
  rewrite Ho. specialize (Hcalm q eq_refl). cbn [option_list].
  destruct (Submit m (Slot q) (StreamID q) (net_Name t) q now) as [m1 ok] eqn:Es.
  destruct (submit_ok _ _ _ _ _ _ Hm Hcalm Es) as (Hm1 & Et & C). destruct ok; cbn [negb].
  2:{ split_ands; [done | done |]. exists m1, []. rewrite app_nil_r. by split_ands. }
  set (t1 := with_outbound t (Some m1)).
  destruct (forward_good (chains t) (Some m1) now t1 q ltac:(done)) as (t2 & [= <-] & (E1 & E2 & E3) & E4).
  set (t2 := translateAndForwardToIPSC now t1 q) in *. destruct (is_terminator q).
  - unfold drainPendingOutbound.
    pose proof (drain_ok _ to_packetHandler (fun t' => packetHandler t' = true /\ chains t' = chains t /\ outboundTSMgr t' = Some m1)
      (fun s p => forward_good (chains t) (Some m1) now s p) (drain_fuel m1 (Slot q)) m1 t2 (Slot q) (StreamID q) now Hm1
      (conj E1 (conj E2 E3))) as D.
    destruct (drain _ _ m1 t2 _ _ now) as [[m3 t3] ok]. destruct D as (_ & Hm3 & _ & (D1 & D2 & D3) & out & E & D).
    split_ands; [done | done |]. exists m3, ([q] ++ out). split_ands; [done | done | |].
    + change (to_packetHandler t3 = to_packetHandler t ++ [q] ++ out). by rewrite E, E4, <- app_assoc.
    + intros slot sid. by rewrite of_stream_app, <- app_assoc, D, C.
  - split_ands; [done | done |]. exists m1, [q]. by split_ands.
Qed.

Lemma world_step_ok w i pkt now :
  world_ok w -> (forall q, w_accepted w i pkt = Some q -> calm (w_mgr w) q now) ->
  let w' := world_step w i pkt now in
  world_ok w' /\ (chains <$> w_nets w') = (chains <$> w_nets w) /\
  forall slot sid, of_stream slot sid (w_out w') ++ waiting (w_mgr w') slot sid =
    of_stream slot sid (w_out w) ++ waiting (w_mgr w) slot sid ++
    of_stream slot sid (option_list (w_accepted w i pkt)).
Proof.
  intros [Hm Hn] Hc. cbn zeta. unfold world_step, w_accepted in *.
  destruct (w_nets w !! i) as [t |] eqn:Ei; cbn [mbind option_bind] in *;
    [| split_ands; [done | done |]; intros; cbn; by rewrite app_nil_r].
  set (t1 := with_outbound t (Some (w_mgr w))).
  assert (Hp : packetHandler t1 = true) by (eapply (Forall_lookup_1 _ _ _ _ Hn Ei)).
  destruct (outbound_one t1 (w_mgr w) pkt now Hp Hm eq_refl Hc) as (P1 & P2 & m' & out & P3 & P4 & P5 & P6).
  set (t' := handleOutboundPacket t1 pkt now) in *. cbn [w_nets w_mgr w_out].
  assert (Eh : handed t1 t' = out) by (unfold handed; rewrite P5; by rewrite drop_app_length).
  rewrite P3, Eh. cbn [default]. split; [split; [done | by apply Forall_insert] |]. split.
  - rewrite list_fmap_insert, P2. cbn. apply list_insert_id. by rewrite list_lookup_fmap, Ei.
  - intros slot sid. by rewrite of_stream_app, <- app_assoc, P6.
Qed.

(** Any sequence of the networks' packets. *)
Definition world_run (w : World) (hist : list (nat * Packet * time)) : World :=
  foldl (fun w '(i, pkt, now) => world_step w i pkt now) w hist.

Fixpoint world_calm (w : World) (hist : list (nat * Packet * time)) : Prop :=
  match hist with
  | [] => True
  | (i, pkt, now) :: hist =>
      (forall q, w_accepted w i pkt = Some q -> calm (w_mgr w) q now) /\
      world_calm (world_step w i pkt now) hist
  end.

(** The networks at the start: each with its rules and a packet handler. *)
Definition new_world (nets : list (string * RuleConfigs)) : World :=
  mkWorld ((fun '(name, cfg) => SetPacketHandler (NewTraffic name cfg)) <$> nets) NewManager [].

Lemma w_accepted_chains w i pkt :
  w_accepted w i pkt = (chains <$> w_nets w) !! i ≫= fun h => rewrite_net h pkt.
Proof. unfold w_accepted. rewrite list_lookup_fmap. by destruct (w_nets w !! i). Qed.

Lemma omap_accepted_ext w w' (hist : list (nat * Packet * time)) :
  (chains <$> w_nets w) = (chains <$> w_nets w') ->
  omap (fun '(i, pkt, _) => w_accepted w i pkt) hist = omap (fun '(i, pkt, _) => w_accepted w' i pkt) hist.
Proof.
  intros E. induction hist as [| [[i pkt] now] hist IH]; [done |]. cbn. by rewrite IH, !w_accepted_chains, E.
Qed.

Lemma world_run_ok w hist slot sid :
  world_ok w -> world_calm w hist ->
  let w' := world_run w hist in
  of_stream slot sid (w_out w') ++ waiting (w_mgr w') slot sid =
  of_stream slot sid (w_out w) ++ waiting (w_mgr w) slot sid ++
  of_stream slot sid (omap (fun '(i, pkt, _) => w_accepted w i pkt) hist).
Proof.
  revert w. induction hist as [| [[i pkt] now] hist IH]; intros w Hw Hc; cbn zeta; [by rewrite app_nil_r |].
  destruct Hc as [Hc1 Hc]. destruct (world_step_ok w i pkt now Hw Hc1) as (Hw' & Ech & S).
  unfold world_run in *. cbn [foldl]. rewrite IH by done. rewrite app_assoc, S, <- !app_assoc, <- of_stream_app.
  do 3 f_equal. cbn [omap list_omap]. rewrite (omap_accepted_ext _ w _ Ech). by destruct (w_accepted w i pkt).
Qed.

Lemma new_world_ok nets : world_ok (new_world nets).
Proof.
  split; [by apply new_mgr_ok |].
  cbn. apply Forall_fmap, Forall_true. by intros [name cfg].
Qed.

(** The networks share the arbiter of the repeater side without losing packets.
    For any networks and any sequence of the packets of their masters, each
    handled to its end before the next is taken up and none finding a timed-out
    call, the packets of a stream handed to the repeaters, followed by those
    still waiting for the timeslot, are exactly the packets of the stream the
    rules of the receiving network accepted, as rewritten and in order.  The
    overlapping steps of several networks are the subject of [SharedArbiter]. *)
Theorem shared_arbiter_no_loss nets hist slot sid :
  world_calm (new_world nets) hist ->
  let w := world_run (new_world nets) hist in
  of_stream slot sid (w_out w) ++ waiting (w_mgr w) slot sid =
  of_stream slot sid (omap (fun '(i, pkt, _) => nets !! i ≫= fun n => rewrite_net (buildRewriteRules n.2) pkt) hist).
Proof.
  intros Hc. cbn zeta. rewrite (world_run_ok _ _ slot sid (new_world_ok nets) Hc).
  replace (of_stream slot sid (w_out (new_world nets)) ++ waiting (w_mgr (new_world nets)) slot sid ++ _)
    with (of_stream slot sid (omap (fun '(i, pkt, _) => w_accepted (new_world nets) i pkt) hist)) by (by destruct slot).
  f_equal. clear Hc. induction hist as [| [[i pkt] now] hist IH]; [done |]. cbn. rewrite IH.
  unfold w_accepted. cbn. rewrite list_lookup_fmap. by destruct (nets !! i) as [[name cfg] |].
Qed.

(** A network takes a packet of the repeaters exactly when [MatchesPacket]
    says so, first for its rewrite rules and then for its pass-all rules: the
    failed attempt of the first leaves the packet as it was for the second. *)
Theorem matches_packet_exact name cfg pkt :
  let t := NewTraffic name cfg in
  is_Some (rewrite_rf (chains t) pkt) <-> MatchesPacket t pkt false = true \/ MatchesPacket t pkt true = true.
Proof.
  cbn zeta. destruct (buildRewriteRules_lawful cfg) as (Hrf & _ & Hpa).
  change (chains (NewTraffic name cfg)) with (buildRewriteRules cfg).
  unfold rewrite_rf, MatchesPacket. change (chains (NewTraffic name cfg)) with (buildRewriteRules cfg).
  pose proof (apply_spec (rfRewrites (buildRewriteRules cfg)) pkt Hrf) as E.
  destruct (Apply (rfRewrites (buildRewriteRules cfg)) pkt) as [q [|]]; cbn [snd].
  - split; [by left | by eexists].
  - destruct (List.find _ _) in E; [done |]. injection E as ->.
    destruct (Apply (passallRewrites (buildRewriteRules cfg)) pkt) as [r [|]]; cbn [snd].
    + split; [by right | by eexists].
    + split; [by intros [? ?] | by intros [|]].
Qed.

End conserved.

(** ** Witnesses *)

#[local] Existing Instances sample_dmrgo sample_order.

(** Decide on a concrete history that no call times out. *)
Ltac calm_tac :=
  repeat split; try exact I;
  intros q E; vm_compute in E; first [discriminate | injection E as <-];
  intros ac Ha; vm_compute in Ha; first [discriminate | injection Ha as <-]; cbn; intros; vm_compute; discriminate.

(** Two calls on one slot: the second begins before the first has ended. *)
Definition frame (sid ft dt : Z) : Packet := mkPacket DMRD 0 3120001 9 312000 false true ft dt sid (repeat 0 33).
Definition two_calls : list (Packet * time) :=
  [(frame 7 2 1, 1000); (frame 8 2 1, 1001); (frame 7 2 2, 1002); (frame 8 2 2, 1003)].
Definition group_rules : RuleConfigs := mkRuleConfigs [mkRewriteConfig 1 9 2 4009 0] [] [] [] [1] [1].

Lemma inbound_no_loss_witness :
  let t := inbound_run (NewTraffic "net" group_rules) two_calls in
  of_stream true 8 (tx_chan t) ++ waiting (inboundTSMgr t) true 8 =
  of_stream true 8 (omap (rewrite_rf (buildRewriteRules group_rules)) two_calls.*1) /\ length (tx_chan t) = 4%nat.
Proof.
  cbv zeta. split; [| by vm_compute].
  apply (inbound_no_loss "net" group_rules two_calls true 8). cbn [all_calm two_calls]. calm_tac.
Defined.

(** The same two calls from two masters, both rewritten back to talkgroup 9. *)
Definition two_masters : list (nat * Packet * time) :=
  [(0%nat, with_slot (with_dst (frame 7 2 1) 4009) true, 1000); (1%nat, with_slot (with_dst (frame 8 2 1) 4009) true, 1001);
   (0%nat, with_slot (with_dst (frame 7 2 2) 4009) true, 1002); (1%nat, with_slot (with_dst (frame 8 2 2) 4009) true, 1003)].

Lemma shared_arbiter_no_loss_witness :
  let nets := [("a", group_rules); ("b", group_rules)] in
  let w := world_run (new_world nets) two_masters in
  of_stream false 8 (w_out w) ++ waiting (w_mgr w) false 8 =
  of_stream false 8 (omap (fun '(i, pkt, _) => nets !! i ≫= fun n => rewrite_net (buildRewriteRules n.2) pkt) two_masters) /\
  length (w_out w) = 4%nat.
Proof.
  cbv zeta. split; [| by vm_compute].
  apply (shared_arbiter_no_loss [("a", group_rules); ("b", group_rules)] two_masters false 8).
  cbn [world_calm two_masters]. calm_tac.
Defined.
