(* ===== verification/SharedArbiter.v ===== *)
(** The arbiter of the repeater side with the networks' goroutines running at
    the same time (internal/mmdvm/client.go and server.go, set up by
    cmd/root.go:199 and 258).

    [MmdvmTraffic.handleOutboundPacket] is a whole call.  In the program every
    network has one goroutine that handles its packets one after the other
    ([MMDVMClient.handler], [MMDVMServer.rxLoop]), and only [Submit] and
    [Release] hold the lock of the arbiter that all networks share: between
    them, and between the deliveries, the goroutines of the other networks run.
    Here a call is cut at exactly these points.  A network's goroutine is idle,
    about to hand on the packet it submitted, about to call [Release], or
    handing on the packets a [Release] gave it; one [Run] of a network is one of
    these steps, and any sequence of [Arrive] and [Run] is a schedule.

    The theorem shows that under any schedule without a timed-out call no packet
    is lost and none is handed on twice.  It says nothing of the order, because
    the order is not kept: [drained_overtaken] is a schedule under which a
    packet that waited is handed on after a later packet of its own stream.
    [alone] shows that a network that is not interrupted does what
    [handleOutboundPacket] says, for which [shared_arbiter_no_loss] has the
    order too. *)

From S2P Require Import Prelude Packet Rewrite Timeslot IpscFrame Translator MmdvmTraffic.

(** Where the goroutine of a network is in [handleOutboundPacket] and
    [drainPendingOutbound]. *)
Inductive Handler :=
| Idle
| Forwarding (pkt : Packet)
| Releasing (slot : bool) (currentStreamID : Z)
| Delivering (slot : bool) (buffered : list Packet) (nextStreamID : option Z).

(** A network: its name, its rules, the packets that came from its peer and its
    goroutine has not taken up, and the goroutine. *)
Record Network := mkNetwork {
  nt_name : string;
  nt_chains : Chains;
  nt_queue : list Packet;
  nt_handler : Handler
}.

Definition with_queue (n : Network) q := mkNetwork (nt_name n) (nt_chains n) q (nt_handler n).
Definition with_handler (n : Network) a := mkNetwork (nt_name n) (nt_chains n) (nt_queue n) a.

(** All networks, the arbiter they share and what was handed on so far. *)
Record Shared := mkShared {
  sh_nets : list Network;
  sh_mgr : PManager;
  sh_out : list Packet
}.

Definition new_network (n : string * RuleConfigs) : Network := mkNetwork n.1 (buildRewriteRules n.2) [] Idle.
Definition new_shared (nets : list (string * RuleConfigs)) : Shared := mkShared (new_network <$> nets) NewManager [].

(** One step of a goroutine: what becomes of it, of the arbiter, and what it
    hands on. *)
Definition handler_step (m : PManager) (n : Network) (now : time) : PManager * Network * list Packet :=
  match nt_handler n with
  | Idle =>
      match nt_queue n with
      | [] => (m, n, [])
      | pkt :: rest =>
          let n := with_queue n rest in
          match Apply (netRewrites (nt_chains n)) pkt with
          | (_, false) => (m, n, [])
          | (pkt, true) =>
              let '(m, ok) := Submit m (Slot pkt) (StreamID pkt) (nt_name n) pkt now in
              (m, with_handler n (if ok then Forwarding pkt else Idle), [])
          end
      end
  | Forwarding pkt =>
      (m, with_handler n (if is_terminator pkt then Releasing (Slot pkt) (StreamID pkt) else Idle), [pkt])
  | Releasing slot sid =>
      let '(m, buffered) := Release m slot sid now in
      (m, with_handler n (if decide (buffered = []) then Idle else Delivering slot buffered None), [])
  | Delivering slot (pkt :: rest) next =>
      (m, with_handler n (Delivering slot rest (if is_terminator pkt then Some (StreamID pkt) else next)), [pkt])
  | Delivering slot [] next =>
      (m, with_handler n (match next with Some sid => Releasing slot sid | None => Idle end), [])
  end.

Inductive shared_event :=
| Arrive (i : nat) (pkt : Packet)
| Run (i : nat) (now : time).

Definition shared_step (w : Shared) (e : shared_event) : Shared :=
  match e with
  | Arrive i pkt =>
      match sh_nets w !! i with
      | None => w
      | Some n => mkShared (<[i := with_queue n (nt_queue n ++ [pkt])]> (sh_nets w)) (sh_mgr w) (sh_out w)
      end
  | Run i now =>
      match sh_nets w !! i with
      | None => w
      | Some n =>
          let '(m, n, out) := handler_step (sh_mgr w) n now in
          mkShared (<[i := n]> (sh_nets w)) m (sh_out w ++ out)
      end
  end.

Definition shared_run (w : Shared) (evs : list shared_event) : Shared := foldl shared_step w evs.

(** ** What is where *)

(** The packet a step of the network submits, if it submits one. *)
Definition submits (n : Network) : option Packet :=
  match nt_handler n, nt_queue n with
  | Idle, pkt :: _ => rewrite_net (nt_chains n) pkt
  | _, _ => None
  end.

(** What a network's goroutine has in its hands. *)
Definition in_hands (n : Network) : list Packet :=
  match nt_handler n with
  | Forwarding pkt => [pkt]
  | Delivering _ buffered _ => buffered
  | Idle | Releasing _ _ => []
  end.

(** What the network's rules will accept of the packets not taken up yet. *)
Definition queued (n : Network) : list Packet := omap (rewrite_net (nt_chains n)) (nt_queue n).

(** No submitted packet finds a call on its slot that has timed out. *)
Fixpoint shared_calm (w : Shared) (evs : list shared_event) : Prop :=
  match evs with
  | [] => True
  | e :: evs =>
      match e with
      | Run i now => forall n q, sh_nets w !! i = Some n -> submits n = Some q -> calm (sh_mgr w) q now
      | Arrive _ _ => True
      end /\ shared_calm (shared_step w e) evs
  end.

(** The same as a test. *)
Definition calmb (m : PManager) (pkt : Packet) (now : time) : bool :=
  match active (getOrCreateSlot m (slotIndex (Slot pkt))) with
  | None => true
  | Some ac => (ac_streamID ac =? StreamID pkt) || (time_sub now (ac_lastSeen ac) <=? timeout m)
  end.

Fixpoint shared_calmb (w : Shared) (evs : list shared_event) : bool :=
  match evs with
  | [] => true
  | e :: evs =>
      match e with
      | Run i now => from_option (fun q => calmb (sh_mgr w) q now) true (sh_nets w !! i ≫= submits)
      | Arrive _ _ => true
      end && shared_calmb (shared_step w e) evs
  end.

Lemma shared_calmb_sound w evs : shared_calmb w evs = true -> shared_calm w evs.
Proof.
  revert w. induction evs as [| e evs IH]; intros w; [done |]. cbn [shared_calmb shared_calm].
  rewrite andb_true_iff. intros [E Hr]. split; [| by apply IH]. destruct e as [i pkt | i now]; [done |].
  intros n q En Eq ac Ha Hne. rewrite En in E. cbn in E. rewrite Eq in E. cbn in E. unfold calmb in E. rewrite Ha in E.
  apply orb_true_iff in E as [E | E]; [apply Z.eqb_eq in E; congruence | by apply Z.leb_le].
Qed.

(** What arrived and the rules of the receiving network accept. *)
Definition arrived (nets : list (string * RuleConfigs)) (e : shared_event) : option Packet :=
  match e with
  | Arrive i pkt => nets !! i ≫= fun n => rewrite_net (buildRewriteRules n.2) pkt
  | Run _ _ => None
  end.

(** ** No loss, no duplicate *)

Definition undone (n : Network) : list Packet := in_hands n ++ queued n.

#[export] Instance of_stream_proper slot sid : Proper ((≡ₚ) ==> (≡ₚ)) (of_stream slot sid).
Proof. intros l l' E. unfold of_stream. by rewrite E. Qed.

Lemma of_stream_cons slot sid q l : of_stream slot sid (q :: l) = of_stream slot sid [q] ++ of_stream slot sid l.
Proof. apply (of_stream_app slot sid [q] l). Qed.

(** The packets of all networks, seen from one of them. *)
Lemma concat_insert {A B} (f : A -> list B) (l : list A) i a :
  l !! i = Some a ->
  exists rest, mjoin (f <$> l) ≡ₚ f a ++ rest /\ forall a', mjoin (f <$> <[i := a']> l) ≡ₚ f a' ++ rest.
Proof.
  revert i. induction l as [| b l IH]; intros [| i]; cbn; try done.
  - intros [= <-]. exists (mjoin (f <$> l)). split; [done |]. by intros a'.
  - intros E. destruct (IH i E) as (rest & E1 & E2). exists (f b ++ rest). split.
    + rewrite E1. apply Permutation_app_swap_app.
    + intros a'. rewrite E2. apply Permutation_app_swap_app.
Qed.

(** The three ways a step of a goroutine moves packets. *)
Lemma take_up_ok m n now :
  nt_handler n = Idle -> mgr_ok m -> (forall q, submits n = Some q -> calm m q now) ->
  let '(m', n', out) := handler_step m n now in
  mgr_ok m' /\ nt_chains n' = nt_chains n /\
  forall slot sid, of_stream slot sid out ++ waiting m' slot sid ++ of_stream slot sid (undone n') ≡ₚ
    waiting m slot sid ++ of_stream slot sid (undone n).
Proof.
  intros Eh Hm Hc. unfold handler_step, submits, undone, in_hands, queued in *. rewrite Eh in *.
  destruct (nt_queue n) as [| pkt rest] eqn:Eq; [by rewrite Eh, Eq |]. cbn [nt_chains with_queue omap list_omap].
  unfold rewrite_net in Hc. unfold rewrite_net at 2.
  destruct (Apply (netRewrites (nt_chains n)) pkt) as [q [|]]; [| split_ands; try done; cbn; by rewrite Eh].
  cbn [nt_name with_queue]. destruct (Submit m (Slot q) (StreamID q) (nt_name n) q now) as [m' ok] eqn:Es.
  destruct (submit_ok _ _ _ _ _ _ Hm (Hc q eq_refl) Es) as (Hm' & _ & C). split_ands; [done | done |].
  intros slot sid. cbn [nt_handler with_handler nt_queue with_queue nt_chains app].
  change (of_stream slot sid []) with (@nil Packet). cbn [app].
  set (qs := omap _ _). rewrite (of_stream_cons slot sid q qs), (app_assoc (waiting m slot sid)), <- C.
  destruct ok; [| done]. rewrite <- app_assoc. cbn [app]. rewrite (of_stream_cons slot sid q qs).
  apply Permutation_app_swap_app.
Qed.

Lemma release_step_ok m n now slot0 sid0 :
  nt_handler n = Releasing slot0 sid0 -> mgr_ok m ->
  let '(m', n', out) := handler_step m n now in
  mgr_ok m' /\ nt_chains n' = nt_chains n /\
  forall slot sid, of_stream slot sid out ++ waiting m' slot sid ++ of_stream slot sid (undone n') ≡ₚ
    waiting m slot sid ++ of_stream slot sid (undone n).
Proof.
  intros Eh Hm. unfold handler_step, undone, in_hands, queued. rewrite Eh.
  destruct (Release m slot0 sid0 now) as [m' b] eqn:Er. destruct (release_ok _ _ _ _ _ _ Hm Er) as (Hm' & _ & C).
  split_ands; [done | done |]. intros slot sid. rewrite <- C. cbn [nt_handler with_handler nt_queue nt_chains app].
  change (of_stream slot sid []) with (@nil Packet). cbn [app].
  case_decide as Eb; [by rewrite Eb |]. rewrite of_stream_app, <- app_assoc. apply Permutation_app_swap_app.
Qed.

(** A step of a goroutine moves packets, it neither drops nor copies one. *)
Lemma handler_step_ok m n now :
  mgr_ok m -> (forall q, submits n = Some q -> calm m q now) ->
  let '(m', n', out) := handler_step m n now in
  mgr_ok m' /\ nt_chains n' = nt_chains n /\
  forall slot sid, of_stream slot sid out ++ waiting m' slot sid ++ of_stream slot sid (undone n') ≡ₚ
    waiting m slot sid ++ of_stream slot sid (undone n).
Proof.
  intros Hm Hc. destruct (nt_handler n) as [| pkt | slot0 sid0 | slot0 buf next] eqn:Eh.
  - by apply take_up_ok.
  - unfold handler_step, undone, in_hands, queued. rewrite Eh. split_ands; [done | done |]. intros slot sid.
    cbn [nt_handler with_handler nt_queue nt_chains app].
    rewrite (of_stream_cons _ _ pkt (omap _ _)). destruct (is_terminator pkt); apply Permutation_app_swap_app.
  - by eapply release_step_ok.
  - unfold handler_step, undone, in_hands, queued. rewrite Eh.
    destruct buf as [| pkt rest]; (split_ands; [done | done |]); intros slot sid;
      cbn [nt_handler with_handler nt_queue nt_chains app].
    + by destruct next.
    + rewrite (of_stream_cons _ _ pkt (rest ++ _)). apply Permutation_app_swap_app.
Qed.

(** The state of a run: what was handed on, what waits and what the networks
    have is what arrived. *)
Record accounted (nets : list (string * RuleConfigs)) (w : Shared) (acc : list Packet) : Prop := {
  ac_mgr : mgr_ok (sh_mgr w);
  ac_chains : nt_chains <$> sh_nets w = (fun n => buildRewriteRules n.2) <$> nets;
  ac_all slot sid : of_stream slot sid (sh_out w) ++ waiting (sh_mgr w) slot sid ++
    of_stream slot sid (mjoin (undone <$> sh_nets w)) ≡ₚ of_stream slot sid acc
}.

Lemma nets_chains nets w acc i :
  accounted nets w acc -> nt_chains <$> sh_nets w !! i = (fun n => buildRewriteRules n.2) <$> nets !! i.
Proof. intros [_ Ec _]. by rewrite <- !list_lookup_fmap, Ec. Qed.

Lemma chains_insert (l : list Network) i n n' :
  l !! i = Some n -> nt_chains n' = nt_chains n -> nt_chains <$> <[i := n']> l = nt_chains <$> l.
Proof. intros E Ec. rewrite list_fmap_insert, Ec. apply list_insert_id. by rewrite list_lookup_fmap, E. Qed.

Lemma arrive_accounted nets w acc i pkt :
  accounted nets w acc ->
  accounted nets (shared_step w (Arrive i pkt)) (acc ++ option_list (arrived nets (Arrive i pkt))).
Proof.
  intros Ha. pose proof (nets_chains _ _ _ i Ha) as En. destruct Ha as [Hm Ec Hall]. cbn [shared_step arrived].
  destruct (sh_nets w !! i) as [n |] eqn:Ei; destruct (nets !! i) as [c |]; try discriminate En;
    cbn [mbind option_bind]; [| by rewrite app_nil_r].
  injection En as En. split; cbn [sh_mgr sh_nets sh_out]; [done | by rewrite (chains_insert _ _ n) |].
  intros slot sid. destruct (concat_insert undone (sh_nets w) i n Ei) as (rest & E1 & E2).
  rewrite (of_stream_app slot sid acc), <- Hall, E2, E1. unfold undone, in_hands, queued.
  cbn [nt_handler with_queue nt_queue nt_chains]. rewrite omap_app, En. cbn [omap list_omap].
  assert (Eo : (match rewrite_net (buildRewriteRules c.2) pkt with Some y => [y] | None => [] end) =
    option_list (rewrite_net (buildRewriteRules c.2) pkt)) by (by destruct (rewrite_net _ _)).
  rewrite Eo, !of_stream_app, <- !app_assoc. do 4 f_equiv. apply Permutation_app_comm.
Qed.

Lemma run_accounted nets w acc i now :
  accounted nets w acc -> (forall n q, sh_nets w !! i = Some n -> submits n = Some q -> calm (sh_mgr w) q now) ->
  accounted nets (shared_step w (Run i now)) acc.
Proof.
  intros [Hm Ec Hall] Hc. cbn [shared_step]. destruct (sh_nets w !! i) as [n |] eqn:Ei; [| done].
  pose proof (handler_step_ok (sh_mgr w) n now Hm (fun q => Hc n q eq_refl)) as S.
  destruct (handler_step (sh_mgr w) n now) as [[m' n'] out]. destruct S as (Hm' & En & S).
  split; cbn [sh_mgr sh_nets sh_out]; [done | by rewrite (chains_insert _ _ n) |]. intros slot sid.
  destruct (concat_insert undone (sh_nets w) i n Ei) as (rest & E1 & E2).
  rewrite E2, <- Hall, E1, !of_stream_app, <- !app_assoc. f_equiv.
  rewrite !(app_assoc _ _ (of_stream slot sid rest)). rewrite app_assoc, <- (app_assoc _ _ (of_stream slot sid (undone n'))).
  by rewrite S.
Qed.

Lemma run_all_accounted nets w acc evs :
  accounted nets w acc -> shared_calm w evs -> accounted nets (shared_run w evs) (acc ++ omap (arrived nets) evs).
Proof.
  revert w acc. induction evs as [| e evs IH]; intros w acc Ha Hc; [by rewrite app_nil_r |].
  destruct Hc as [He Hc]. unfold shared_run in *. cbn [foldl omap list_omap]. destruct e as [i pkt | i now].
  - specialize (IH _ _ (arrive_accounted nets w acc i pkt Ha) Hc). rewrite <- app_assoc in IH.
    by destruct (arrived nets (Arrive i pkt)).
  - by apply IH; [apply run_accounted |].
Qed.

Lemma new_accounted nets : accounted nets (new_shared nets) [].
Proof.
  split; [by apply new_mgr_ok | |].
  - cbn. rewrite <- list_fmap_compose. done.
  - intros slot sid. cbn. replace (mjoin (undone <$> (new_network <$> nets))) with (@nil Packet); [by destruct slot |].
    induction nets as [| c nets IH]; [done |]. exact IH.
Qed.

(** C11: The networks share the arbiter of the repeater side without losing or
    doubling packets, with their goroutines running at the same time.  For any
    networks, any packets and any schedule of the goroutines' steps in which no
    submitted packet finds a timed-out call on its slot, the packets of a stream
    handed on, those waiting in the arbiter, those in the hands of a goroutine
    and those a network has not taken up yet are together, each once, exactly
    the packets of the stream that arrived and that the rules of the receiving
    network accept, as rewritten. *)
Theorem concurrent_no_loss nets evs slot sid :
  shared_calm (new_shared nets) evs ->
  let w := shared_run (new_shared nets) evs in
  of_stream slot sid (sh_out w) ++ waiting (sh_mgr w) slot sid ++
    of_stream slot sid (mjoin (in_hands <$> sh_nets w)) ++ of_stream slot sid (mjoin (queued <$> sh_nets w)) ≡ₚ
  of_stream slot sid (omap (arrived nets) evs).
Proof.
  intros Hc. cbn zeta. rewrite <- (ac_all _ _ _ (run_all_accounted nets _ _ evs (new_accounted nets) Hc)).
  do 2 f_equiv. rewrite <- of_stream_app. f_equiv. induction (sh_nets _) as [| n l IH]; [done |]. cbn.
  unfold undone at 1. rewrite <- !app_assoc, <- IH. f_equiv. apply Permutation_app_swap_app.
Qed.

(** ** A network on its own *)

(** Steps of one goroutine with nothing in between. *)
Inductive uninterrupted (now : time) : PManager -> Network -> PManager -> Network -> list Packet -> Prop :=
| un_refl m n : uninterrupted now m n m n []
| un_step m n m1 n1 out1 m2 n2 out2 :
    handler_step m n now = (m1, n1, out1) -> uninterrupted now m1 n1 m2 n2 out2 ->
    uninterrupted now m n m2 n2 (out1 ++ out2).

Lemma un_trans now m n m1 n1 m2 n2 out1 out2 :
  uninterrupted now m n m1 n1 out1 -> uninterrupted now m1 n1 m2 n2 out2 -> uninterrupted now m n m2 n2 (out1 ++ out2).
Proof.
  induction 1 as [| m n m0 n0 o0 m1 n1 o1 Es Hu IH]; [done |]. intros H2'. rewrite <- app_assoc.
  eapply un_step; [exact Es | by apply IH].
Qed.

Section alone.
Context `{Dmrgo} `{MapOrder}.

Abbreviation forward now := (fun t pkt => Some (translateAndForwardToIPSC now t pkt)).

(** The inner loop of the drain. *)
Lemma deliver_alone now m n slot l next t :
  packetHandler t = true -> nt_handler n = Delivering slot l next ->
  exists t' next', deliver_all (forward now) t l next = (t', Some next') /\
    packetHandler t' = true /\ to_packetHandler t' = to_packetHandler t ++ l /\
    uninterrupted now m n m (with_handler n (Delivering slot [] next')) l.
Proof.
  revert n next t. induction l as [| pkt l IH]; intros n next t Hp Hn; cbn [deliver_all].
  - exists t, next. rewrite app_nil_r. split_ands; try done. rewrite <- Hn.
    replace (with_handler n (nt_handler n)) with n by (by destruct n). constructor.
  - set (t1 := translateAndForwardToIPSC now t pkt).
    assert (H1 : packetHandler t1 = true /\ to_packetHandler t1 = to_packetHandler t ++ [pkt])
      by (unfold t1, translateAndForwardToIPSC; by rewrite Hp).
    destruct H1 as [Hp1 E1]. set (next1 := if is_terminator pkt then Some (StreamID pkt) else next).
    destruct (IH (with_handler n (Delivering slot l next1)) next1 t1 Hp1 eq_refl) as (t' & next' & E2 & Hp2 & E3 & U).
    exists t', next'. split_ands; [done | done | by rewrite E3, E1, <- app_assoc |].
    apply (un_step now m n m (with_handler n (Delivering slot l next1)) [pkt]); [| exact U].
    unfold handler_step. by rewrite Hn.
Qed.

Lemma drain_alone now f m n slot sid t :
  packetHandler t = true -> nt_handler n = Releasing slot sid -> drain_fuel m slot = f ->
  let '(m', t', _) := drain (forward now) f m t slot sid now in
  exists out, to_packetHandler t' = to_packetHandler t ++ out /\ uninterrupted now m n m' (with_handler n Idle) out.
Proof.
  revert m n sid t. induction f as [| f IH]; intros m n sid t Hp Hn Hf; [done |]. cbn [drain].
  destruct (Release m slot sid now) as [m1 b] eqn:Er.
  assert (S1 : handler_step m n now = (m1, with_handler n (if decide (b = []) then Idle else Delivering slot b None), []))
    by (unfold handler_step; by rewrite Hn, Er).
  destruct b as [| pk b].
  { exists []. rewrite app_nil_r. split; [done |]. by eapply (un_step now _ _ _ _ []); [exact S1 | constructor]. }
  set (n1 := with_handler n (Delivering slot (pk :: b) None)) in S1.
  destruct (deliver_alone now m1 n1 slot (pk :: b) None t Hp eq_refl) as (t1 & next & -> & Hp1 & E1 & U1).
  set (n2 := with_handler n1 (Delivering slot [] next)) in U1.
  assert (S2 : handler_step m1 n2 now = (m1, with_handler n (match next with Some sid => Releasing slot sid | None => Idle end), [])) by done.
  pose proof (un_step now _ _ _ _ [] _ _ _ S1 U1) as U2. cbn [app] in U2. destruct next as [next |].
  - specialize (IH m1 (with_handler n (Releasing slot next)) next t1 Hp1 eq_refl).
    destruct (drain (forward now) f m1 t1 slot next now) as [[m2 t2] ok].
    destruct IH as (out & E2 & U3).
    { pose proof (release_fewer _ _ _ _ _ _ Er ltac:(done)) as F. rewrite Hf in F. by injection F. }
    exists ((pk :: b) ++ out). split; [by rewrite E2, E1, <- app_assoc |].
    eapply un_trans; [exact U2 |]. eapply (un_step now _ _ _ _ []); [exact S2 | exact U3].
  - exists (pk :: b). split; [done |]. rewrite <- (app_nil_r (pk :: b)).
    eapply un_trans; [exact U2 |]. eapply (un_step now _ _ _ _ []); [exact S2 | constructor].
Qed.

(** A network whose goroutine is not interrupted while it handles a packet does
    exactly what [handleOutboundPacket] says: the same arbiter afterwards, the
    same packets handed on in the same order, and the goroutine is idle again. *)
Theorem alone now m n pkt rest t :
  nt_handler n = Idle -> nt_queue n = pkt :: rest ->
  net_Name t = nt_name n -> chains t = nt_chains n -> outboundTSMgr t = Some m -> packetHandler t = true ->
  let t' := handleOutboundPacket t pkt now in
  exists m' out, outboundTSMgr t' = Some m' /\ to_packetHandler t' = to_packetHandler t ++ out /\
    uninterrupted now m n m' (with_queue n rest) out.
Proof.
  intros Hn Hq En Ec Eo Hp. cbn zeta. unfold handleOutboundPacket. rewrite Ec, Eo, En.
  assert (Hid : with_handler (with_queue n rest) Idle = with_queue n rest) by (destruct n; cbn in *; by subst).
  assert (S0 : handler_step m n now = match Apply (netRewrites (nt_chains n)) pkt with
    | (_, false) => (m, with_queue n rest, [])
    | (q, true) => let '(m, ok) := Submit m (Slot q) (StreamID q) (nt_name n) q now in
        (m, with_handler (with_queue n rest) (if ok then Forwarding q else Idle), []) end)
    by (unfold handler_step; by rewrite Hn, Hq).
  destruct (Apply (netRewrites (nt_chains n)) pkt) as [q [|]].
  2:{ exists m, []. rewrite app_nil_r. split_ands; try done. by eapply (un_step now _ _ _ _ []); [exact S0 | constructor]. }
  destruct (Submit m (Slot q) (StreamID q) (nt_name n) q now) as [m1 ok]. destruct ok; cbn [negb].
  2:{ exists m1, []. rewrite app_nil_r. split_ands; try done. rewrite Hid in S0.
      by eapply (un_step now _ _ _ _ []); [exact S0 | constructor]. }
  set (n1 := with_handler (with_queue n rest) (Forwarding q)) in S0.
  set (t1 := translateAndForwardToIPSC now (with_outbound t (Some m1)) q).
  assert (H1 : packetHandler t1 = true /\ to_packetHandler t1 = to_packetHandler t ++ [q] /\ outboundTSMgr t1 = Some m1).
  { unfold t1, translateAndForwardToIPSC. cbn [packetHandler with_outbound]. by rewrite Hp. }
  destruct H1 as (Hp1 & E1 & Eo1).
  assert (S1 : handler_step m1 n1 now = (m1, with_handler (with_queue n rest)
    (if is_terminator q then Releasing (Slot q) (StreamID q) else Idle), [q])) by done.
  destruct (is_terminator q); [| exists m1, [q]; split_ands; try done; rewrite Hid in S1;
    eapply (un_step now _ _ _ _ []); [exact S0 | by eapply (un_step now _ _ _ _ [q]); [exact S1 | constructor]]].
  unfold drainPendingOutbound. set (n2 := with_handler (with_queue n rest) (Releasing (Slot q) (StreamID q))) in S1.
  pose proof (drain_alone now _ m1 n2 (Slot q) (StreamID q) t1 Hp1 eq_refl eq_refl) as D.
  destruct (drain _ _ m1 t1 _ _ now) as [[m2 t2] ok]. destruct D as (out & E2 & U).
  exists m2, ([q] ++ out). split_ands; [done | |].
  - change (to_packetHandler (with_outbound t2 (Some m2))) with (to_packetHandler t2). by rewrite E2, E1, <- app_assoc.
  - change (with_handler n2 Idle) with (with_handler (with_queue n rest) Idle) in U. rewrite Hid in U.
    eapply (un_step now _ _ _ _ []); [exact S0 |]. by eapply (un_step now _ _ _ _ [q]); [exact S1 |].
Qed.

End alone.

(** ** Witnesses *)

Definition two_nets : list (string * RuleConfigs) := [("a", group_rules); ("b", group_rules)].
Definition net_frame (sid ft dt : Z) : Packet := with_slot (with_dst (frame sid ft dt) 4009) true.

(** Two calls from two masters.  The second waits; when the first ends, its
    network takes the waiting packet out of the arbiter ([Release]), but the
    other network runs before it is handed on. *)
Definition overlap : list shared_event :=
  [Arrive 0 (net_frame 7 2 1); Run 0 1000; Run 0 1000;
   Arrive 1 (net_frame 8 2 1); Run 1 1001;
   Arrive 0 (net_frame 7 2 2); Run 0 1002; Run 0 1002; Run 0 1002;
   Arrive 1 (net_frame 8 0 0); Run 1 1003; Run 1 1003;
   Run 0 1004].

Lemma concurrent_no_loss_witness :
  let w := shared_run (new_shared two_nets) (take 12 overlap) in
  of_stream false 8 (sh_out w) ++ waiting (sh_mgr w) false 8 ++
    of_stream false 8 (mjoin (in_hands <$> sh_nets w)) ++ of_stream false 8 (mjoin (queued <$> sh_nets w)) ≡ₚ
  of_stream false 8 (omap (arrived two_nets) (take 12 overlap)) /\
  length (of_stream false 8 (mjoin (in_hands <$> sh_nets w))) = 1%nat.
Proof.
  cbv zeta. split; [| by vm_compute]. apply (concurrent_no_loss two_nets (take 12 overlap) false 8).
  apply shared_calmb_sound. vm_compute. reflexivity.
Defined.

(** The order is not kept.  The first packet of the second call waited in the
    arbiter and is handed on by the first network's goroutine after the second
    packet of the same call. *)
Theorem drained_overtaken :
  let w := shared_run (new_shared two_nets) overlap in
  (fun p => (FrameType p, DTypeOrVSeq p)) <$> of_stream false 8 (sh_out w) = [(0, 0); (2, 1)] /\
  (fun p => (FrameType p, DTypeOrVSeq p)) <$> of_stream false 8 (omap (arrived two_nets) overlap) = [(2, 1); (0, 0)].
Proof. vm_compute. done. Qed.
