(* ===== verification/Text.v ===== *)
(** * Text fields

    The parts of Go's strings, utf8 and fmt packages that the MMDVM
    configuration messages are built and read with: white space trimming,
    padded strings ("%-8s"), zero-padded integers ("%09d") and fixed-point
    numbers ("%+08.4f").  A Go string is its bytes. *)

From Stdlib Require Import Ascii QArith Qround Qabs.
From S2P Require Import Prelude Strings.
#[local] Open Scope Z_scope.

(** ** Strings and bytes *)

Definition str_bytes (s : string) : list Z := (fun c => Z.of_N (N_of_ascii c)) <$> chars s.
Definition bytes_str (l : list Z) : string :=
  String.string_of_list_ascii ((fun z => ascii_of_N (Z.to_N z)) <$> l).

Definition has_prefix (p s : string) : bool := String.prefix p s.

(** [strings.TrimPrefix] *)
Definition trim_prefix (p s : string) : string :=
  if has_prefix p s then bytes_str (drop (String.length p) (str_bytes s)) else s.

(** [strconv.ParseUint(s, 10, 32)] *)
Definition ParseUint32 (s : string) : option Z :=
  let l := str_bytes s in
  if bool_decide (l = []) || negb (forallb (fun c => (48 <=? c) && (c <=? 57)) l) then None
  else
    let v := foldl (fun acc c => acc * 10 + (c - 48)) 0 l in
    if v <? 2 ^ 32 then Some v else None.

(** ** Runes *)

Definition in_range (lo hi : Z) (l : list Z) (i : nat) : bool :=
  match l !! i with Some c => (lo <=? c) && (c <=? hi) | None => false end.

(** The bytes the first rune of a non-empty string takes; an invalid byte is a
    rune of its own. *)
Definition rune_width (l : list Z) : nat :=
  let c := l.[0] in
  let cont := in_range 0x80 0xBF l in
  if (0xC2 <=? c) && (c <=? 0xDF) then (if cont 1%nat then 2 else 1)%nat
  else if (0xE0 <=? c) && (c <=? 0xEF) then
    let lo := if c =? 0xE0 then 0xA0 else 0x80 in
    let hi := if c =? 0xED then 0x9F else 0xBF in
    (if in_range lo hi l 1 && cont 2%nat then 3 else 1)%nat
  else if (0xF0 <=? c) && (c <=? 0xF4) then
    let lo := if c =? 0xF0 then 0x90 else 0x80 in
    let hi := if c =? 0xF4 then 0x8F else 0xBF in
    (if in_range lo hi l 1 && cont 2%nat && cont 3%nat then 4 else 1)%nat
  else 1%nat.

(** utf8.RuneCount; [skip] bytes belong to a rune already counted. *)
Fixpoint rune_count_from (skip : nat) (l : list Z) : nat :=
  match l, skip with
  | [], _ => O
  | _ :: l, S skip => rune_count_from skip l
  | c :: l, O => S (rune_count_from (rune_width (c :: l) - 1) l)
  end.
Definition rune_count (l : list Z) : nat := rune_count_from 0 l.

(** ** Trimming *)

Definition is_prefix (p l : list Z) : bool := bool_decide (take (length p) l = p).

(** Take words of [ws] off the front as long as there are any. *)
Fixpoint strip_fuel (ws : list (list Z)) (fuel : nat) (l : list Z) : list Z :=
  match fuel with
  | O => l
  | S fuel =>
      match List.find (fun w => is_prefix w l) ws with
      | Some w => strip_fuel ws fuel (drop (length w) l)
      | None => l
      end
  end.
Definition strip (ws : list (list Z)) (l : list Z) : list Z := strip_fuel ws (length l) l.
Definition strip_both (ws : list (list Z)) (l : list Z) : list Z :=
  reverse (strip (reverse <$> ws) (reverse (strip ws l))).

(** The white space of unicode.IsSpace, in UTF-8. *)
Definition spaces : list (list Z) :=
  [[9]; [10]; [11]; [12]; [13]; [32]; [0xC2; 0x85]; [0xC2; 0xA0]; [0xE1; 0x9A; 0x80];
   [0xE2; 0x80; 0x80]; [0xE2; 0x80; 0x81]; [0xE2; 0x80; 0x82]; [0xE2; 0x80; 0x83]; [0xE2; 0x80; 0x84];
   [0xE2; 0x80; 0x85]; [0xE2; 0x80; 0x86]; [0xE2; 0x80; 0x87]; [0xE2; 0x80; 0x88]; [0xE2; 0x80; 0x89];
   [0xE2; 0x80; 0x8A]; [0xE2; 0x80; 0xA8]; [0xE2; 0x80; 0xA9]; [0xE2; 0x80; 0xAF]; [0xE2; 0x81; 0x9F];
   [0xE3; 0x80; 0x80]].

Definition TrimSpace (l : list Z) : list Z := strip_both spaces l.
Definition Trim0 (l : list Z) : list Z := strip_both [[0]] l.

(** ** Formatting *)

(** "%-<w>s" *)
Definition pad_right (w : nat) (l : list Z) : list Z := l ++ replicate (w - rune_count l) 32.

Definition pad_zero (w : nat) (l : list Z) : list Z := replicate (w - length l) 48 ++ l.

(** "%d" and "%0<w>d" of an unsigned integer *)
Definition dec (n : Z) : list Z := str_bytes (pretty n).
Definition dec_pad (w : nat) (n : Z) : list Z := pad_zero w (dec n).

(** The nearest integer, halves to even. *)
Definition round_half_even (q : Q) : Z :=
  let f := Qfloor q in
  match Qcompare (q - inject_Z f) (1 # 2) with
  | Lt => f
  | Gt => f + 1
  | Eq => if Z.even f then f else f + 1
  end.

(** The absolute value in units of 1/10000, as printed by "%.4f". *)
Definition round4 (q : Q) : Z := round_half_even (Qabs q * inject_Z 10000).

(** "%+0<w>.4f" of a number, given as the rational it stands for *)
Definition fixed4 (w : nat) (q : Q) : list Z :=
  let n := round4 q in
  (if Qle_bool 0 q then 43 else 45) ::
  pad_zero (w - 1) (dec (n / 10000) ++ [46] ++ dec_pad 4 (n mod 10000)).

(** ** Lemmas *)

Lemma ascii_byte c : is_byte (Z.of_N (N_of_ascii c)).
Proof. unfold is_byte. pose proof (N_ascii_bounded c). lia. Qed.

Lemma str_bytes_byte s : Forall is_byte (str_bytes s).
Proof. apply Forall_fmap, Forall_true. intros c. apply ascii_byte. Qed.

Lemma bytes_str_bytes s : bytes_str (str_bytes s) = s.
Proof.
  unfold bytes_str, str_bytes. rewrite <- list_fmap_compose.
  etrans; [| apply String.string_of_list_ascii_of_string]. f_equal.
  etrans; [| apply list_fmap_id]. apply list_fmap_ext. intros i c _. cbn. by rewrite N2Z.id, ascii_N_embedding.
Qed.

Lemma str_bytes_app s1 s2 : str_bytes (s1 +:+ s2) = str_bytes s1 ++ str_bytes s2.
Proof. unfold str_bytes. by rewrite chars_app, fmap_app. Qed.

(** *** ASCII text *)

Definition is_ascii (c : Z) : Prop := 0 <= c < 128.

Lemma rune_width_ascii c l : is_ascii c -> rune_width (c :: l) = 1%nat.
Proof.
  unfold is_ascii. intros Hc. unfold rune_width. change ((c :: l).[0]) with c.
  by rewrite !(proj2 (Z.leb_gt _ c)) by lia.
Qed.

Lemma rune_count_ascii l : Forall is_ascii l -> rune_count l = length l.
Proof.
  unfold rune_count. induction 1 as [| c l Hc Hl IH]; [done |].
  cbn [rune_count_from]. rewrite rune_width_ascii by done. cbn. by rewrite IH.
Qed.

Lemma pad_right_length w l : Forall is_ascii l -> (length l <= w)%nat -> length (pad_right w l) = w.
Proof. intros Ha Hl. unfold pad_right. rewrite length_app, length_replicate, rune_count_ascii by done. lia. Qed.

(** *** Stripping *)

(** No word of [ws] begins with [c]. *)
Definition no_start (ws : list (list Z)) (c : Z) : Prop := Forall (fun w => exists b w', w = b :: w' /\ b <> c) ws.

Lemma no_start_find ws c l : no_start ws c -> List.find (fun w => is_prefix w (c :: l)) ws = None.
Proof.
  induction 1 as [| w ws (b & w' & -> & Hb) Hws IH]; [done |]. cbn [List.find].
  unfold is_prefix at 1. rewrite bool_decide_false; [done |]. cbn. congruence.
Qed.

Lemma strip_stop ws l : (forall c, head l = Some c -> no_start ws c) -> strip ws l = l.
Proof.
  destruct l as [| c l]; intros Hl; [done |]. unfold strip. cbn [length strip_fuel].
  by rewrite no_start_find by (by apply Hl).
Qed.

(** A run of single-byte words is stripped. *)
Lemma strip_run ws c n l :
  (forall l, List.find (fun w => is_prefix w (c :: l)) ws = Some [c]) ->
  strip ws (replicate n c ++ l) = strip ws l.
Proof.
  intros Hc. induction n as [| n IH]; [done |]. rewrite <- IH. unfold strip. cbn [replicate app length strip_fuel].
  by rewrite Hc.
Qed.

Lemma find_space l : List.find (fun w => is_prefix w (32 :: l)) spaces = Some [32].
Proof. unfold is_prefix. cbn. by rewrite take_0. Qed.

(** *** Text in fields *)

(** Printable ASCII text that neither begins nor ends with a blank. *)
Record text_ok (l : list Z) : Prop := {
  text_print : Forall (fun c => 32 <= c <= 126) l;
  text_head : head l <> Some 32;
  text_last : last l <> Some 32
}.

#[export] Instance text_ok_dec l : Decision (text_ok l).
Proof.
  destruct (decide (Forall (fun c => 32 <= c <= 126) l /\ head l <> Some 32 /\ last l <> Some 32)) as [H | H];
    [left; split; tauto | right; intros [? ? ?]; tauto].
Defined.

Lemma text_ascii l : text_ok l -> Forall is_ascii l.
Proof. intros [H _ _]. eapply Forall_impl; [exact H |]. unfold is_ascii. lia. Qed.

Lemma print_no_start c : 33 <= c <= 126 -> no_start spaces c /\ no_start (reverse <$> spaces) c /\ no_start [[0]] c.
Proof.
  intros Hc. unfold no_start, spaces. split_ands; cbn;
    repeat (apply Forall_cons_2; [eexists _, _; split; [reflexivity | lia] |]); apply Forall_nil_2.
Qed.

Lemma blank_no_start : no_start [[0]] 32.
Proof. apply Forall_singleton. by eexists _, _. Qed.

Lemma text_head_print l c : text_ok l -> head l = Some c -> 33 <= c <= 126.
Proof.
  intros [H1 H2 _] E. destruct l as [| d l]; [done |]. injection E as ->. apply Forall_cons in H1 as [H1 _].
  assert (c <> 32) by (intros ->; by apply H2). lia.
Qed.

Lemma text_reverse l : text_ok l -> text_ok (reverse l).
Proof.
  intros [H1 H2 H3]. split; [by apply Forall_reverse | by rewrite head_reverse | by rewrite last_reverse].
Qed.

Lemma trim_padded l n : text_ok l -> TrimSpace (Trim0 (l ++ replicate n 32)) = l.
Proof.
  intros Hl. assert (Hp := text_reverse _ Hl).
  assert (E0 : Trim0 (l ++ replicate n 32) = l ++ replicate n 32).
  { unfold Trim0, strip_both. change (reverse <$> [[0]]) with [[0]].
    rewrite (strip_stop [[0]] (l ++ _)), strip_stop.
    - apply reverse_involutive.
    - intros c Hc. rewrite reverse_app in Hc. destruct (reverse (replicate n 32)) as [| d m] eqn:En.
      + apply (print_no_start c), (text_head_print _ _ Hp). exact Hc.
      + injection Hc as ->. apply (f_equal reverse) in En. rewrite reverse_involutive in En.
        assert (c ∈ replicate n 32) as Hin by (rewrite En, elem_of_reverse; left).
        apply elem_of_replicate in Hin as [-> _]. apply blank_no_start.
    - intros c Hc. destruct l as [| d l]; [destruct n; [done | injection Hc as <-; apply blank_no_start] |].
      apply (print_no_start c), (text_head_print _ _ Hl). exact Hc. }
  rewrite E0. unfold TrimSpace, strip_both.
  destruct (decide (l = [])) as [-> | Hne].
  { cbn [app]. rewrite <- (app_nil_r (replicate n 32)), strip_run by apply find_space. done. }
  rewrite (strip_stop spaces).
  - rewrite reverse_app, reverse_replicate.
    rewrite strip_run by (intros; unfold is_prefix; cbn; by rewrite take_0).
    rewrite strip_stop; [apply reverse_involutive |].
    intros c Hc. apply (print_no_start c), (text_head_print _ _ Hp Hc).
  - intros c Hc. destruct l as [| d l]; [done |]. apply (print_no_start c), (text_head_print _ _ Hl). exact Hc.
Qed.

Lemma trim_text l : text_ok l -> TrimSpace l = l.
Proof.
  intros Hl. assert (Hp := text_reverse _ Hl). unfold TrimSpace, strip_both.
  rewrite (strip_stop spaces), strip_stop; [apply reverse_involutive | |].
  - intros c Hc. apply (print_no_start c), (text_head_print _ _ Hp Hc).
  - intros c Hc. apply (print_no_start c), (text_head_print _ _ Hl Hc).
Qed.
