(* ===== verification/Rptc.v ===== *)
(** * The configuration message of MMDVM clients
      (internal/mmdvm/packets.go sendRPTC, internal/mmdvm/server.go parseRPTCConfig)

    A client describes itself in a message of 302 bytes with fields at fixed
    positions; the server reads it back.  Latitude and longitude are [float64]
    in the source; here they are the rational numbers these stand for, and the
    rounding of the last division in [parseFloatField] is left out. *)

From Stdlib Require Import QArith Qabs.
From S2P Require Import Prelude Strings Rewrite Text.
#[local] Open Scope Z_scope.

(** The configuration of an MMDVM network (config.MMDVM). *)
Record MMDVM := mkMMDVM {
  SourceKey : string;
  Name : string;
  Callsign : string;
  ID : Z;
  RXFreq : Z;
  TXFreq : Z;
  TXPower : Z;
  cfg_ColorCode : Z;
  Latitude : Q;
  Longitude : Q;
  Height : Z;
  Location : string;
  Description : string;
  URL : string;
  Slots : Z;
  MasterServer : string;
  Listen : string;
  Password : string;
  cfg_rules : RuleConfigs
}.

Definition rptc_fields (cfg : MMDVM) : list (list Z) :=
  let slots := if Slots cfg =? 0 then 3 else Slots cfg in
  [str_bytes "RPTC"; put_be32 (ID cfg);
   pad_right 8 (str_bytes (Callsign cfg));
   dec_pad 9 (RXFreq cfg); dec_pad 9 (TXFreq cfg); dec_pad 2 (TXPower cfg); dec_pad 2 (cfg_ColorCode cfg);
   fixed4 8 (Latitude cfg); fixed4 9 (Longitude cfg); dec_pad 3 (Height cfg);
   pad_right 20 (str_bytes (Location cfg)); pad_right 19 (str_bytes (Description cfg));
   dec slots; pad_right 124 (str_bytes (URL cfg));
   pad_right 40 (str_bytes "20210921"); pad_right 40 (str_bytes "MMDVM_MMDVM_HS_Dual_Hat")].

(** What [sendRPTC] puts on the wire. *)
Definition rptc_message (cfg : MMDVM) : list Z := mjoin (rptc_fields cfg).

(** ** Reading *)

Record PeerInfo := mkPeerInfo {
  pi_Listener : string;
  pi_SourceKey : string;
  pi_DMRID : Z;
  pi_Callsign : string;
  pi_Model : string;
  pi_Description : string;
  pi_Location : string;
  pi_URL : string;
  pi_IP : string;
  pi_Port : Z;
  pi_Online : bool;
  pi_LastSeenAt : time;
  pi_RXFreq : Z;
  pi_TXFreq : Z;
  pi_TXPower : Z;
  pi_ColorCode : Z;
  pi_Latitude : Q;
  pi_Longitude : Q;
  pi_Height : Z;
  pi_Slots : Z
}.

Definition empty_info : PeerInfo :=
  mkPeerInfo "" "" 0 "" "" "" "" "" "" 0 false 0 0 0 0 0 0 0 0 0.

(** [data[a:b]] of a slice long enough. *)
Definition slice (a b : nat) (data : list Z) : list Z := take (b - a) (drop a data).

Definition trimASCII (data : list Z) : string := bytes_str (TrimSpace (Trim0 data)).

Definition parseUintField (data : list Z) : Z :=
  foldl (fun out b => if (b <? 48) || (57 <? b) then out else u64 (out * 10 + (b - 48))) 0 data.

(** [strings.SplitN(raw, ".", 2)] *)
Fixpoint split_dot (raw : list Z) : list Z * option (list Z) :=
  match raw with
  | [] => ([], None)
  | c :: raw =>
      if c =? 46 then ([], Some raw)
      else let '(a, b) := split_dot raw in (c :: a, b)
  end.

Definition parseFloatField (data : list Z) : Q :=
  let raw := TrimSpace data in
  match raw with
  | [] => 0
  | c :: rest =>
      let '(sign, raw) := if c =? 45 then ((-1)%Z, rest) else if c =? 43 then (1%Z, rest) else (1%Z, raw) in
      let '(a, b) := split_dot raw in
      let whole := parseUintField a in
      match b with
      | None => inject_Z (sign * whole)
      | Some fractionRaw =>
          (inject_Z sign * (inject_Z whole +
            inject_Z (parseUintField fractionRaw) / inject_Z (10 ^ Z.of_nat (rune_count fractionRaw))))%Q
      end
  end.

Definition parseRPTCConfig (data : list Z) : PeerInfo :=
  let dmrid := if (8 <=? length data)%nat then get_be32 (data.[4]) (data.[5]) (data.[6]) (data.[7]) else 0 in
  if (length data <? 98)%nat then
    mkPeerInfo "" "" dmrid "" "" "" "" "" "" 0 false 0 0 0 0 0 0 0 0 0
  else
    let model := if (302 <=? length data)%nat then trimASCII (slice 262 302 data) else "" in
    mkPeerInfo "" "" dmrid (trimASCII (slice 8 16 data))
      (if decide (model = "") then "MMDVM Client" else model)
      (trimASCII (slice 78 97 data)) (trimASCII (slice 58 78 data))
      (if (222 <=? length data)%nat then trimASCII (slice 98 222 data) else "")
      "" 0 false 0
      (parseUintField (slice 16 25 data)) (parseUintField (slice 25 34 data))
      (u8 (parseUintField (slice 34 36 data))) (u8 (parseUintField (slice 36 38 data)))
      (parseFloatField (slice 38 46 data)) (parseFloatField (slice 46 55 data))
      (u16 (parseUintField (slice 55 58 data))) (u8 (parseUintField (slice 97 98 data))).

(** ** Decimal digits *)

Definition digit_step (out b : Z) : Z := if (b <? 48) || (57 <? b) then out else u64 (out * 10 + (b - 48)).

Lemma digit_chars :
  forallb (fun i => Z.of_N (Ascii.N_of_ascii (pretty_N_char (N.of_nat i))) =? 48 + Z.of_nat i) (seq 0 10) = true.
Proof. vm_compute. reflexivity. Qed.

Lemma digit_char x : (x < 10)%N -> Z.of_N (Ascii.N_of_ascii (pretty_N_char x)) = 48 + Z.of_N x.
Proof.
  intros Hx. pose proof (forallb_seq _ _ (N.to_nat x) digit_chars ltac:(lia)) as E. cbv beta in E.
  apply Z.eqb_eq in E. rewrite N2Nat.id in E. by rewrite E, N_nat_Z.
Qed.

Lemma pretty_go_spec x s :
  (Z.of_N x < 2 ^ 64) ->
  foldl digit_step 0 (str_bytes (pretty_N_go x s)) = foldl digit_step (Z.of_N x) (str_bytes s).
Proof.
  revert s. induction (N.lt_wf_0 x) as [x _ IH]; intros s Hs.
  destruct (decide (0 < x)%N) as [Hx | Hx]; [| by assert (x = 0%N) as -> by lia; rewrite pretty_N_go_0].
  rewrite pretty_N_go_step by done. rewrite IH; [| by apply N.div_lt | rewrite N2Z.inj_div; Z.to_euclidean_division_equations; lia].
  unfold str_bytes. cbn [chars String.list_ascii_of_string fmap list_fmap foldl]. f_equal.
  rewrite digit_char by (by apply N.mod_lt). unfold digit_step.
  rewrite N2Z.inj_div, N2Z.inj_mod. change (Z.of_N 10) with 10.
  destruct (Z.ltb_spec (48 + Z.of_N x mod 10) 48); [Z.to_euclidean_division_equations; lia |].
  destruct (Z.ltb_spec 57 (48 + Z.of_N x mod 10)); [Z.to_euclidean_division_equations; lia |]. cbn [orb].
  unfold u64. rewrite Z.mod_small; Z.to_euclidean_division_equations; lia.
Qed.

Lemma parse_digits_app a b : parseUintField (a ++ b) = foldl digit_step (parseUintField a) b.
Proof. unfold parseUintField. by rewrite foldl_app. Qed.

Lemma parse_dec n : 0 <= n < 2 ^ 64 -> parseUintField (dec n) = n.
Proof.
  intros Hn. unfold dec, parseUintField. change (foldl _ 0 ?l) with (foldl digit_step 0 l).
  destruct n as [| p | p]; [reflexivity | | lia].
  change (pretty (Z.pos p)) with (pretty_N_go (N.pos p) ""). rewrite pretty_go_spec by (cbn; lia). reflexivity.
Qed.

Lemma parse_zeros k l : parseUintField (replicate k 48 ++ l) = parseUintField l.
Proof.
  rewrite parse_digits_app. unfold parseUintField. f_equal.
  induction k as [| k IH]; [done | cbn [replicate foldl]]. exact IH.
Qed.

Lemma parse_dec_pad w n : 0 <= n < 2 ^ 64 -> parseUintField (dec_pad w n) = n.
Proof. intros Hn. unfold dec_pad, pad_zero. by rewrite parse_zeros, parse_dec. Qed.

Definition is_digit (c : Z) : Prop := 48 <= c <= 57.

Lemma pretty_go_digits x s : Forall is_digit (str_bytes s) -> Forall is_digit (str_bytes (pretty_N_go x s)).
Proof.
  revert s. induction (N.lt_wf_0 x) as [x _ IH]; intros s Hs.
  destruct (decide (0 < x)%N) as [Hx | Hx]; [| by assert (x = 0%N) as -> by lia; rewrite pretty_N_go_0].
  rewrite pretty_N_go_step by done. apply IH; [by apply N.div_lt |].
  unfold str_bytes. cbn [chars String.list_ascii_of_string fmap list_fmap]. apply Forall_cons_2; [| done].
  pose proof (N.mod_lt x 10 ltac:(done)) as Hm. rewrite digit_char by done. unfold is_digit.
  revert Hm. generalize (x mod 10)%N. lia.
Qed.

Lemma dec_digits n : 0 <= n -> Forall is_digit (dec n).
Proof.
  intros Hn. unfold dec. destruct n as [| p | p]; [| apply (pretty_go_digits (N.pos p) ""), Forall_nil_2 | lia].
  apply Forall_singleton. unfold is_digit. cbn. lia.
Qed.

Lemma pretty_go_length k x s :
  Z.of_N x < 10 ^ Z.of_nat k -> (length (str_bytes (pretty_N_go x s)) <= k + length (str_bytes s))%nat.
Proof.
  revert x s. induction k as [| k IH]; intros x s Hx.
  - assert (x = 0%N) as -> by (cbn in Hx; lia). by rewrite pretty_N_go_0.
  - destruct (decide (0 < x)%N) as [Hp | Hp]; [| assert (x = 0%N) as -> by lia; rewrite pretty_N_go_0; lia].
    rewrite pretty_N_go_step by done. etrans; [apply IH |].
    + rewrite Nat2Z.inj_succ, Z.pow_succ_r in Hx by lia. rewrite N2Z.inj_div.
      apply Z.div_lt_upper_bound; lia.
    + change (length (str_bytes (String ?c s))) with (S (length (str_bytes s))). lia.
Qed.

Lemma dec_length k n : (0 < k)%nat -> 0 <= n < 10 ^ Z.of_nat k -> (length (dec n) <= k)%nat.
Proof.
  intros Hk Hn. unfold dec. destruct n as [| p | p]; [cbn; lia | | lia].
  change (pretty (Z.pos p)) with (pretty_N_go (N.pos p) "").
  pose proof (pretty_go_length k (N.pos p) "" ltac:(cbn; lia)) as L. change (length (str_bytes "")) with O in L. lia.
Qed.

Lemma pad_zero_length w l : (length l <= w)%nat -> length (pad_zero w l) = w.
Proof. intros Hl. unfold pad_zero. rewrite length_app, length_replicate. lia. Qed.

Lemma dec_pad_length w n : (0 < w)%nat -> 0 <= n < 10 ^ Z.of_nat w -> length (dec_pad w n) = w.
Proof. intros Hw Hn. apply pad_zero_length. by apply dec_length. Qed.

Lemma dec_pad_digits w n : 0 <= n -> Forall is_digit (dec_pad w n).
Proof.
  intros Hn. apply Forall_app. split; [| by apply dec_digits]. apply Forall_replicate. unfold is_digit. lia.
Qed.

(** ** Fixed-point numbers *)

Lemma round_half_even_nonneg q : (0 <= q)%Q -> 0 <= round_half_even q.
Proof.
  intros Hq. assert (Hf : 0 <= Qround.Qfloor q) by (apply (Qround.Qfloor_resp_le 0 q Hq)).
  unfold round_half_even. destruct (Qcompare _ _); [destruct (Z.even _) | |]; lia.
Qed.

Lemma round4_nonneg q : 0 <= round4 q.
Proof. apply round_half_even_nonneg. apply Qmult_le_0_compat; [apply Qabs_nonneg | done]. Qed.

Lemma split_dot_app a b : Forall is_digit a -> split_dot (a ++ 46 :: b) = (a, Some b).
Proof.
  induction 1 as [| c a Hc Ha IH]; [done |]. cbn [app split_dot]. rewrite IH.
  destruct (Z.eqb_spec c 46); [unfold is_digit in Hc; lia | done].
Qed.

(** A number written by "%+0<w>.4f" reads as itself, rounded to four places. *)
Definition rounded (q : Q) : Q := inject_Z ((if Qle_bool 0 q then 1 else -1) * round4 q) / inject_Z 10000.

Lemma fixed4_length w q :
  (6 < w)%nat -> round4 q < 10 ^ (Z.of_nat w - 2) -> length (fixed4 w q) = w.
Proof.
  intros Hw Hq. unfold fixed4. cbn [length]. rewrite pad_zero_length; [lia |].
  pose proof (round4_nonneg q). assert (Hm : 0 <= round4 q mod 10000 < 10000) by (apply Z.mod_pos_bound; lia).
  assert (Hd : 0 <= round4 q / 10000 < 10 ^ Z.of_nat (w - 6)).
  { split; [apply Z.div_pos; lia |]. apply Z.div_lt_upper_bound; [lia |].
    change 10000 with (10 ^ 4). rewrite <- Z.pow_add_r by lia. replace (4 + Z.of_nat (w - 6)) with (Z.of_nat w - 2) by lia. done. }
  rewrite !length_app, (dec_pad_length 4) by (cbn; lia). cbn [length].
  pose proof (dec_length (w - 6) _ ltac:(lia) Hd). lia.
Qed.

Lemma fixed4_text w q : Forall (fun c => 33 <= c <= 126) (fixed4 w q).
Proof.
  pose proof (round4_nonneg q). assert (0 <= round4 q / 10000) by (apply Z.div_pos; lia).
  assert (0 <= round4 q mod 10000) by (apply Z.mod_pos_bound; lia).
  unfold fixed4. apply Forall_cons_2; [destruct (Qle_bool 0 q); lia |].
  apply Forall_app. split; [apply Forall_replicate; lia |]. apply Forall_app. split.
  - eapply Forall_impl; [by apply dec_digits |]. unfold is_digit. lia.
  - apply Forall_cons_2; [lia |]. eapply Forall_impl; [by apply dec_pad_digits |]. unfold is_digit. lia.
Qed.

Lemma print_text l : Forall (fun c => 33 <= c <= 126) l -> text_ok l.
Proof.
  intros Hl. split.
  - eapply Forall_impl; [exact Hl |]. cbn. lia.
  - destruct Hl as [| c l Hc Hl]; [done |]. cbn. intros [= E]. lia.
  - intros E. apply last_Some_elem_of in E. rewrite Forall_forall in Hl. specialize (Hl _ E). lia.
Qed.

Lemma digits_ascii l : Forall is_digit l -> Forall is_ascii l.
Proof. intros H. eapply Forall_impl; [exact H |]. unfold is_digit, is_ascii. lia. Qed.

Lemma parse_fixed4 w q : round4 q < 2 ^ 64 -> (parseFloatField (fixed4 w q) == rounded q)%Q.
Proof.
  intros Hq. pose proof (round4_nonneg q) as Hn. unfold parseFloatField.
  rewrite (trim_text _ (print_text _ (fixed4_text w q))). unfold fixed4, rounded.
  set (n := round4 q) in *. set (neg := Qle_bool 0 q).
  assert (Hd : 0 <= n / 10000 < 2 ^ 64) by (Z.to_euclidean_division_equations; lia).
  assert (Hm : 0 <= n mod 10000 < 10000) by (apply Z.mod_pos_bound; lia).
  set (body := pad_zero (w - 1) _).
  set (k := (w - 1 - length (dec (n / 10000)%Z ++ [46%Z] ++ dec_pad 4 (n mod 10000)%Z))%nat).
  assert (Eb : split_dot body = (replicate k 48 ++ dec (n / 10000), Some (dec_pad 4 (n mod 10000)))).
  { unfold body, pad_zero. fold k. rewrite app_assoc. apply split_dot_app. apply Forall_app.
    split; [apply Forall_replicate; unfold is_digit; lia | apply dec_digits; exact (proj1 Hd)]. }
  assert (Er : rune_count (dec_pad 4 (n mod 10000)) = 4%nat).
  { rewrite rune_count_ascii by (apply digits_ascii, dec_pad_digits, Hm). apply dec_pad_length; [lia | done]. }
  set (a := replicate k 48 ++ dec (n / 10000)) in *. set (f := dec_pad 4 (n mod 10000)) in *.
  assert (Ea : parseUintField a = n / 10000) by (unfold a; by rewrite parse_zeros, parse_dec).
  assert (Ff : parseUintField f = n mod 10000) by (apply parse_dec_pad; lia).
  assert (En : (inject_Z (n / 10000) + inject_Z (n mod 10000) / inject_Z 10000 == inject_Z n / inject_Z 10000)%Q).
  { rewrite (Z.div_mod n 10000) at 3 by lia. rewrite inject_Z_plus, inject_Z_mult. field. }
  destruct neg; cbn [Z.eqb Pos.eqb]; rewrite Eb, Er, Ea, Ff; change (10 ^ Z.of_nat 4) with 10000;
    rewrite En, inject_Z_mult; field.
Qed.

(** ** Fields at fixed positions *)

Lemma take_drop_mjoin {A} (cs : list (list A)) i c :
  cs !! i = Some c -> take (length c) (drop (sum_list (take i (length <$> cs))) (mjoin cs)) = c.
Proof.
  revert i. induction cs as [| d cs IH]; intros i Hi; [done |]. destruct i as [| i].
  - injection Hi as ->. change (take (length c) (c ++ mjoin cs) = c). by rewrite take_app_length.
  - change (take (length c) (drop (length d + sum_list (take i (length <$> cs))) (d ++ mjoin cs)) = c).
    rewrite <- drop_drop, drop_app_length. by apply IH.
Qed.

Lemma slice_field cs lens i c a b :
  length <$> cs = lens -> cs !! i = Some c ->
  sum_list (take i lens) = a -> (b = a + default 0%nat (lens !! i))%nat -> slice a b (mjoin cs) = c.
Proof.
  intros El Ei Ea ->. unfold slice. rewrite <- El, list_lookup_fmap, Ei. cbn [fmap option_fmap option_map default from_option id].
  replace (a + length c - a)%nat with (length c) by lia. rewrite <- Ea, <- El. by apply take_drop_mjoin.
Qed.

(** A configuration whose values fit the fields of the message. *)
Record rptc_fits (cfg : MMDVM) : Prop := {
  fit_ID : is_u32 (ID cfg);
  fit_Callsign : text_ok (str_bytes (Callsign cfg)) /\ (length (str_bytes (Callsign cfg)) <= 8)%nat;
  fit_RXFreq : 0 <= RXFreq cfg < 10 ^ 9;
  fit_TXFreq : 0 <= TXFreq cfg < 10 ^ 9;
  fit_TXPower : 0 <= TXPower cfg < 10 ^ 2;
  fit_ColorCode : 0 <= cfg_ColorCode cfg < 10 ^ 2;
  fit_Latitude : round4 (Latitude cfg) < 10 ^ 6;
  fit_Longitude : round4 (Longitude cfg) < 10 ^ 7;
  fit_Height : 0 <= Height cfg < 10 ^ 3;
  fit_Location : text_ok (str_bytes (Location cfg)) /\ (length (str_bytes (Location cfg)) <= 20)%nat;
  fit_Description : text_ok (str_bytes (Description cfg)) /\ (length (str_bytes (Description cfg)) <= 19)%nat;
  fit_Slots : 0 <= Slots cfg < 10;
  fit_URL : text_ok (str_bytes (URL cfg)) /\ (length (str_bytes (URL cfg)) <= 124)%nat
}.

Definition rptc_lengths : list nat := [4; 4; 8; 9; 9; 2; 2; 8; 9; 3; 20; 19; 1; 124; 40; 40]%nat.

Lemma text_field_length w s :
  text_ok (str_bytes s) /\ (length (str_bytes s) <= w)%nat -> length (pad_right w (str_bytes s)) = w.
Proof. intros [H Hl]. apply pad_right_length; [by apply text_ascii | done]. Qed.

Lemma digit_length n : 0 <= n < 10 -> length (dec n) = 1%nat.
Proof.
  intros Hn. apply (small_cases 10) in Hn as (i & Hi & ->).
  assert (D : forallb (fun i => length (dec (Z.of_nat i)) =? 1)%nat (seq 0 10) = true) by (vm_compute; reflexivity).
  apply Nat.eqb_eq. exact (forallb_seq _ _ i D Hi).
Qed.

Lemma rptc_fields_lengths cfg : rptc_fits cfg -> length <$> rptc_fields cfg = rptc_lengths.
Proof.
  intros [HID Hcs Hrx Htx Hpw Hcc Hla Hlo Hh Hloc Hd Hs Hu]. unfold rptc_fields, rptc_lengths. cbn [fmap list_fmap].
  rewrite !text_field_length by done. rewrite !dec_pad_length by (cbn; lia). rewrite !fixed4_length by (cbn; lia).
  rewrite digit_length by (destruct (Slots cfg =? 0); lia). reflexivity.
Qed.

Lemma rptc_length cfg : rptc_fits cfg -> length (rptc_message cfg) = 302%nat.
Proof. intros Hf. unfold rptc_message. by rewrite length_join, rptc_fields_lengths. Qed.

(** What the server should learn from a configuration. *)
Definition same_config (cfg : MMDVM) (pi : PeerInfo) : Prop :=
  pi_DMRID pi = ID cfg /\ pi_Callsign pi = Callsign cfg /\ pi_RXFreq pi = RXFreq cfg /\ pi_TXFreq pi = TXFreq cfg /\
  pi_TXPower pi = TXPower cfg /\ pi_ColorCode pi = cfg_ColorCode cfg /\ pi_Height pi = Height cfg /\
  (pi_Latitude pi == rounded (Latitude cfg))%Q /\ (pi_Longitude pi == rounded (Longitude cfg))%Q /\
  pi_Location pi = Location cfg /\ pi_Description pi = Description cfg /\ pi_URL pi = URL cfg /\
  pi_Slots pi = (if Slots cfg =? 0 then 3 else Slots cfg) /\ pi_Model pi = "MMDVM_MMDVM_HS_Dual_Hat".

Lemma trim_field w s : text_ok (str_bytes s) -> trimASCII (pad_right w (str_bytes s)) = s.
Proof. intros H. unfold trimASCII, pad_right. by rewrite trim_padded, bytes_str_bytes. Qed.

Lemma rptc_same_config cfg : rptc_fits cfg -> same_config cfg (parseRPTCConfig (rptc_message cfg)).
Proof.
  intros Hf. pose proof (rptc_fields_lengths cfg Hf) as El.
  assert (S : forall i c a b, rptc_fields cfg !! i = Some c -> sum_list (take i rptc_lengths) = a ->
    (b = a + default 0%nat (rptc_lengths !! i))%nat -> slice a b (rptc_message cfg) = c)
    by (intros; by eapply slice_field).
  pose proof (rptc_length cfg Hf) as Hlen.
  assert (EID : put_be32 (ID cfg) = slice 4 8 (rptc_message cfg)) by (symmetry; by apply (S 1%nat)).
  destruct Hf as [HID [Hcs _] Hrx Htx Hpw Hcc Hla Hlo Hh [Hloc _] [Hd _] Hs [Hu _]].
  unfold parseRPTCConfig. rewrite Hlen. cbn [Nat.leb Nat.ltb].
  rewrite (S 2%nat _ 8%nat 16%nat eq_refl), (S 3%nat _ 16%nat 25%nat eq_refl), (S 4%nat _ 25%nat 34%nat eq_refl),
    (S 5%nat _ 34%nat 36%nat eq_refl), (S 6%nat _ 36%nat 38%nat eq_refl), (S 7%nat _ 38%nat 46%nat eq_refl),
    (S 8%nat _ 46%nat 55%nat eq_refl), (S 9%nat _ 55%nat 58%nat eq_refl), (S 10%nat _ 58%nat 78%nat eq_refl),
    (S 11%nat _ 78%nat 97%nat eq_refl), (S 12%nat _ 97%nat 98%nat eq_refl), (S 13%nat _ 98%nat 222%nat eq_refl),
    (S 15%nat _ 262%nat 302%nat eq_refl) by reflexivity. clear S.
  assert (Eid : get_be32 ((rptc_message cfg).[4]) ((rptc_message cfg).[5]) ((rptc_message cfg).[6]) ((rptc_message cfg).[7]) = ID cfg).
  { rewrite <- (get_put_be32 (ID cfg)) by done. unfold put_be32 in EID.
    assert (B : forall j i, (i < 4)%nat -> j = (4 + i)%nat -> (rptc_message cfg).[j] = (slice 4 8 (rptc_message cfg)).[i]).
    { intros j i Hi ->. unfold slice, byte_at. by rewrite lookup_take_lt, lookup_drop by lia. }
    rewrite (B 4%nat 0%nat), (B 5%nat 1%nat), (B 6%nat 2%nat), (B 7%nat 3%nat), <- EID by lia. reflexivity. }
  rewrite Eid. clear EID Eid. unfold same_config. cbn [pi_DMRID pi_Callsign pi_RXFreq pi_TXFreq pi_TXPower
    pi_ColorCode pi_Height pi_Latitude pi_Longitude pi_Location pi_Description pi_URL pi_Slots pi_Model].
  rewrite !trim_field, !parse_dec_pad, !parse_dec by (done || (destruct (Slots cfg =? 0); lia) || lia).
  rewrite !u8_id by (unfold is_byte; destruct (Slots cfg =? 0); lia).
  unfold u16. rewrite (Z.mod_small (Height cfg)) by lia.
  split_ands; try reflexivity; apply parse_fixed4; lia.
Qed.

(** C38: The configuration message is read back as it was written.  When the
    values fit their fields the message has 302 bytes and the server reads the
    identifier, the texts and the numbers of the client's configuration, the
    position rounded to four places, and both slots where none was given. *)
Theorem rptc_roundtrip cfg :
  rptc_fits cfg ->
  length (rptc_message cfg) = 302%nat /\ same_config cfg (parseRPTCConfig (rptc_message cfg)).
Proof. intros Hf. split; [by apply rptc_length | by apply rptc_same_config]. Qed.

(** A value too wide for its field moves all that follow: a description of 20
    bytes takes the place of the slots. *)
Definition long_description : MMDVM :=
  mkMMDVM "" "net" "N0CALL" 312000 438800000 431200000 1 1 (401234567 # 10000000) (-1161234567 # 10000000) 75
    "Somewhere" "a twenty byte text.." "" 3 "" "" "secret" (mkRuleConfigs [] [] [] [] [] []).
Example wide_field_shifts : pi_Slots (parseRPTCConfig (rptc_message long_description)) = 0.
Proof. vm_compute. reflexivity. Qed.

Definition sample_config : MMDVM :=
  mkMMDVM "" "net" "N0CALL" 312000 438800000 431200000 1 1 (401234567 # 10000000) (-1161234567 # 10000000) 75
    "Somewhere" "Bridge" "https://example.org" 0 "" "" "secret" (mkRuleConfigs [] [] [] [] [] []).

Lemma sample_config_fits : rptc_fits sample_config.
Proof. split; first [by_eval | vm_compute; intuition congruence | split; [by_eval | vm_compute; lia]]. Qed.

Lemma rptc_roundtrip_witness :
  length (rptc_message sample_config) = 302%nat /\ same_config sample_config (parseRPTCConfig (rptc_message sample_config)).
Proof. exact (rptc_roundtrip sample_config sample_config_fits). Defined.
