(* ===== verification/Sha256.v ===== *)
(** * SHA-256

    The hash function of Go's crypto/sha256, with which the MMDVM login proves
    the knowledge of the password.  Words are integers of 32 bits. *)

From S2P Require Import Prelude.

Definition rotr (n x : Z) : Z := Z.lor (Z.shiftr x n) (u32 (Z.shiftl x (32 - n))).

(** The constants are the first 32 bits of the fractional parts of the square
    and cube roots of the first primes. *)
Definition is_prime (n : Z) : bool :=
  forallb (fun d => negb (n mod Z.of_nat d =? 0)) (seq 2 (Z.to_nat n - 2)).
Definition primes : list Z := Eval vm_compute in List.filter is_prime (Z.of_nat <$> seq 2 310).

(** The cube root, rounded down, bit by bit from bit [n - 1]. *)
Fixpoint cube_root (n : nat) (acc z : Z) : Z :=
  match n with
  | O => acc
  | S n =>
      let next := acc + Z.shiftl 1 (Z.of_nat n) in
      cube_root n (if next * next * next <=? z then next else acc) z
  end.

Definition round_constants : list Z := Eval vm_compute in
  (fun p => u32 (cube_root 36 0 (Z.shiftl p 96))) <$> primes.
Definition initial_hash : list Z := Eval vm_compute in
  (fun p => u32 (Z.sqrt (Z.shiftl p 64))) <$> take 8 primes.

(** The message, a one bit, zeros, and the length in bits. *)
Definition padded (msg : list Z) : list Z :=
  let n := length msg in
  msg ++ [0x80] ++ replicate ((119 - n mod 64) mod 64) 0 ++ put_be32 (Z.shiftr (8 * Z.of_nat n) 32) ++ put_be32 (8 * Z.of_nat n).

(** The words of a block. *)
Definition block_words (b : list Z) : list Z :=
  (fun i => get_be32 (b.[4 * i]) (b.[4 * i + 1]) (b.[4 * i + 2]) (b.[4 * i + 3])) <$> seq 0 16.

Definition extend (w : list Z) (t : nat) : list Z :=
  let w15 := w.[t - 15] in
  let w2 := w.[t - 2] in
  let s0 := Z.lxor (Z.lxor (rotr 7 w15) (rotr 18 w15)) (Z.shiftr w15 3) in
  let s1 := Z.lxor (Z.lxor (rotr 17 w2) (rotr 19 w2)) (Z.shiftr w2 10) in
  w ++ [u32 (w.[t - 16] + s0 + w.[t - 7] + s1)].

Definition schedule (b : list Z) : list Z := foldl extend (block_words b) (seq 16 48).

Definition round (h : list Z) (kw : Z * Z) : list Z :=
  let a := h.[0] in let b := h.[1] in let c := h.[2] in let d := h.[3] in
  let e := h.[4] in let f := h.[5] in let g := h.[6] in let h := h.[7] in
  let s1 := Z.lxor (Z.lxor (rotr 6 e) (rotr 11 e)) (rotr 25 e) in
  let ch := Z.lxor (Z.land e f) (Z.land (Z.lxor e (2 ^ 32 - 1)) g) in
  let t1 := h + s1 + ch + fst kw + snd kw in
  let s0 := Z.lxor (Z.lxor (rotr 2 a) (rotr 13 a)) (rotr 22 a) in
  let maj := Z.lxor (Z.lxor (Z.land a b) (Z.land a c)) (Z.land b c) in
  [u32 (t1 + s0 + maj); a; b; c; u32 (d + t1); e; f; g].

Definition compress (h b : list Z) : list Z :=
  zip_with (fun x y => u32 (x + y)) h (foldl round h (zip round_constants (schedule b))).

(** [f] over the first [n] blocks of the data. *)
Fixpoint hash_blocks (f : list Z -> list Z -> list Z) (n : nat) (h data : list Z) : list Z :=
  match n with
  | O => h
  | S n => hash_blocks f n (f h (take 64 data)) (drop 64 data)
  end.

Definition sha256 (msg : list Z) : list Z :=
  let data := padded msg in
  mjoin (put_be32 <$> hash_blocks compress (length data / 64) initial_hash data).

(** The test vector of the standard for "abc". *)
Example sha256_abc : sha256 [97; 98; 99] =
  [0xba; 0x78; 0x16; 0xbf; 0x8f; 0x01; 0xcf; 0xea; 0x41; 0x41; 0x40; 0xde; 0x5d; 0xae; 0x22; 0x23;
   0xb0; 0x03; 0x61; 0xa3; 0x96; 0x17; 0x7a; 0x9c; 0xb4; 0x10; 0xff; 0x61; 0xf2; 0x00; 0x15; 0xad].
Proof. vm_compute. reflexivity. Qed.

(** A message of more than one block. *)
Example sha256_two_blocks : take 8 (sha256 (replicate 64 97)) = [0xff; 0xe0; 0x54; 0xfe; 0x7a; 0xe0; 0xcb; 0x6d].
Proof. vm_compute. reflexivity. Qed.

(** ** The hash has 32 bytes *)

Lemma foldl_round_length h l : length h = 8%nat -> length (foldl round h l) = 8%nat.
Proof. revert h. induction l as [| kw l IH]; intros h Hh; [done | by apply IH]. Qed.

Lemma hash_blocks_length f k n h data :
  (forall h b, length h = k -> length (f h b) = k) -> length h = k -> length (hash_blocks f n h data) = k.
Proof. intros Hf. revert h data. induction n as [| n IH]; intros h data Hh; [done |]. by apply IH, Hf. Qed.

Lemma compress_length h b : length h = 8%nat -> length (compress h b) = 8%nat.
Proof. intros Hh. unfold compress. rewrite length_zip_with, foldl_round_length by done. lia. Qed.

(** The bytes of the words of a hash. *)
Lemma words_length k ws : length ws = k -> length (mjoin (put_be32 <$> ws)) = (4 * k)%nat.
Proof. revert k. induction ws as [| w ws IH]; intros [| k] Hk; try done. injection Hk as Hk.
  change (length (put_be32 w ++ mjoin (put_be32 <$> ws)) = (4 * S k)%nat). rewrite length_app, (IH k Hk). cbn [length put_be32]. lia. Qed.

Lemma words_bytes ws : Forall is_byte (mjoin (put_be32 <$> ws)).
Proof.
  apply Forall_join, Forall_fmap, Forall_true. intros w. unfold put_be32.
  repeat apply Forall_cons_2; try apply u8_range. apply Forall_nil_2.
Qed.

Lemma sha256_length msg : length (sha256 msg) = 32%nat.
Proof. apply (words_length 8). apply hash_blocks_length; [apply compress_length | done]. Qed.

Lemma sha256_bytes msg : Forall is_byte (sha256 msg).
Proof. apply words_bytes. Qed.
