(* ===== verification/Sha1.v ===== *)
(** * SHA-1 and HMAC

    The keyed hash of Go's crypto/sha1 and crypto/hmac, with which IPSC packets
    are authenticated, and the decoder of encoding/hex that reads its key. *)

From S2P Require Import Prelude Sha256.

Definition rotl (n x : Z) : Z := rotr (32 - n) x.

(** The first words of a block, extended to eighty. *)
Definition extend1 (w : list Z) (t : nat) : list Z :=
  w ++ [rotl 1 (Z.lxor (Z.lxor (w.[t - 3]) (w.[t - 8])) (Z.lxor (w.[t - 14]) (w.[t - 16])))].

Definition schedule1 (b : list Z) : list Z := foldl extend1 (block_words b) (seq 16 64).

(** The function and the constant of round [t]. *)
Definition mix (t : nat) (b c d : Z) : Z :=
  if (t <? 20)%nat then Z.lor (Z.land b c) (Z.land (Z.lxor b (2 ^ 32 - 1)) d)
  else if (t <? 40)%nat then Z.lxor (Z.lxor b c) d
  else if (t <? 60)%nat then Z.lor (Z.lor (Z.land b c) (Z.land b d)) (Z.land c d)
  else Z.lxor (Z.lxor b c) d.

(** The constants are square roots, scaled to 32 bits. *)
Definition constant1 (t : nat) : Z :=
  Z.sqrt (Z.shiftl (nth (t / 20) [2; 3; 5; 10] 0) 60).

Definition round1 (w h : list Z) (t : nat) : list Z :=
  let a := h.[0] in let b := h.[1] in let c := h.[2] in let d := h.[3] in let e := h.[4] in
  [u32 (rotl 5 a + mix t b c d + e + constant1 t + w.[t]); a; rotl 30 b; c; d].

Definition compress1 (h b : list Z) : list Z :=
  zip_with (fun x y => u32 (x + y)) h (foldl (round1 (schedule1 b)) h (seq 0 80)).

Definition initial_hash1 : list Z := [0x67452301; 0xEFCDAB89; 0x98BADCFE; 0x10325476; 0xC3D2E1F0].

Definition sha1 (msg : list Z) : list Z :=
  let data := padded msg in
  mjoin (put_be32 <$> hash_blocks compress1 (length data / 64) initial_hash1 data).

Definition hmac_sha1 (key msg : list Z) : list Z :=
  let key := if (64 <? length key)%nat then sha1 key else key in
  let block := key ++ replicate (64 - length key) 0 in
  sha1 ((Z.lxor 0x5C <$> block) ++ sha1 ((Z.lxor 0x36 <$> block) ++ msg)).

Lemma compress1_length h b : length h = 5%nat -> length (compress1 h b) = 5%nat.
Proof.
  intros Hh. unfold compress1. rewrite length_zip_with.
  assert (length (foldl (round1 (schedule1 b)) h (seq 0 80)) = 5%nat) as ->; [| lia].
  by apply (foldl_inv (fun h => length h = 5%nat)).
Qed.

Lemma hmac_length key msg : length (hmac_sha1 key msg) = 20%nat.
Proof. apply (words_length 5). apply hash_blocks_length; [apply compress1_length | done]. Qed.

(** ** Reading hexadecimal digits *)

Definition hex_value (c : Z) : option Z :=
  if (48 <=? c) && (c <=? 57) then Some (c - 48)
  else if (97 <=? c) && (c <=? 102) then Some (c - 87)
  else if (65 <=? c) && (c <=? 70) then Some (c - 55)
  else None.

(** [hex.DecodeString] *)
Fixpoint hex_decode (l : list Z) : option (list Z) :=
  match l with
  | [] => Some []
  | [_] => None
  | a :: b :: l => x ← hex_value a; y ← hex_value b; rest ← hex_decode l; Some (Z.lor (Z.shiftl x 4) y :: rest)
  end.

(** The test vectors of the standards. *)
Example sha1_abc : sha1 [97; 98; 99] =
  [0xA9; 0x99; 0x3E; 0x36; 0x47; 0x06; 0x81; 0x6A; 0xBA; 0x3E; 0x25; 0x71; 0x78; 0x50; 0xC2; 0x6C; 0x9C; 0xD0; 0xD8; 0x9D].
Proof. vm_compute. reflexivity. Qed.

Example hmac_vector : hmac_sha1 (replicate 20 0x0B) [0x48; 0x69; 0x20; 0x54; 0x68; 0x65; 0x72; 0x65] =
  [0xB6; 0x17; 0x31; 0x86; 0x55; 0x05; 0x72; 0x64; 0xE2; 0x8B; 0xC0; 0xB6; 0xFB; 0x37; 0x8C; 0x8E; 0xF1; 0x46; 0xBE; 0x00].
Proof. vm_compute. reflexivity. Qed.
