(* ===== verification/MmdvmServer.v ===== *)
(** * The MMDVM server (internal/mmdvm/server.go)

    Hotspots log in with a challenge and the password, send their
    configuration, keep their session alive with pings and exchange voice
    frames.  A session is found by the address its packets come from; after a
    change of address by the DMR identifier.  Every handler is one step: the
    source runs them on the receiving goroutine and guards the sessions by a
    mutex.  Iteration over the session map has no fixed order, so the functions
    take it as the parameter [sess_iter]. *)

From Stdlib Require Import QArith.
From S2P Require Import Prelude Packet Strings Net Rewrite Timeslot IpscFrame Translator MmdvmTraffic Text Rptc Sha256.
#[local] Open Scope Z_scope.

Inductive serverState := serverStateIdle | serverStateSentChallenge | serverStateAwaitConfig | serverStateReady.

#[export] Instance serverState_eq_dec : EqDecision serverState.
Proof. solve_decision. Defined.

Record session := mkSession {
  s_addr : UDPAddr;
  s_state : serverState;
  s_challenge : list Z;
  s_info : PeerInfo;
  s_lastPing : time
}.

Definition is_ready (s : session) : bool := bool_decide (s_state s = serverStateReady).

Class SessionOrder := { sess_iter : gmap string session -> list (string * session) }.
Class SessionOrderLaws `{SessionOrder} : Prop := { sess_iter_elements m : sess_iter m ≡ₚ map_to_list m }.

Section server.
Context `{Dmrgo} `{MapOrder} `{SessionOrder}.

Record Server := mkServer {
  sv_cfg : MMDVM;
  sv_traffic : Traffic;
  sv_keepAlive : Z;
  sv_timeout : Z;
  sv_started : bool;
  sv_sessions : gmap string session;
  sv_peerHandler : bool;
  sv_sourceHandler : bool;
  sv_sendFilter : option (string -> bool);
  sv_wire : list (UDPAddr * list Z);
  sv_peers : list PeerInfo;
  sv_sourced : list (string * Packet)
}.

Definition with_sessions (h : Server) m := mkServer (sv_cfg h) (sv_traffic h) (sv_keepAlive h) (sv_timeout h)
  (sv_started h) m (sv_peerHandler h) (sv_sourceHandler h) (sv_sendFilter h) (sv_wire h) (sv_peers h) (sv_sourced h).
Definition with_traffic (h : Server) t := mkServer (sv_cfg h) t (sv_keepAlive h) (sv_timeout h) (sv_started h)
  (sv_sessions h) (sv_peerHandler h) (sv_sourceHandler h) (sv_sendFilter h) (sv_wire h) (sv_peers h) (sv_sourced h).
Definition with_wire (h : Server) w := mkServer (sv_cfg h) (sv_traffic h) (sv_keepAlive h) (sv_timeout h) (sv_started h)
  (sv_sessions h) (sv_peerHandler h) (sv_sourceHandler h) (sv_sendFilter h) w (sv_peers h) (sv_sourced h).
Definition with_peers (h : Server) l := mkServer (sv_cfg h) (sv_traffic h) (sv_keepAlive h) (sv_timeout h) (sv_started h)
  (sv_sessions h) (sv_peerHandler h) (sv_sourceHandler h) (sv_sendFilter h) (sv_wire h) l (sv_sourced h).
Definition with_sourced (h : Server) l := mkServer (sv_cfg h) (sv_traffic h) (sv_keepAlive h) (sv_timeout h) (sv_started h)
  (sv_sessions h) (sv_peerHandler h) (sv_sourceHandler h) (sv_sendFilter h) (sv_wire h) (sv_peers h) l.

Definition NewMMDVMServer (cfg : MMDVM) : Server :=
  mkServer cfg (NewTraffic (Name cfg) (cfg_rules cfg)) (15 * second) (180 * second) false ∅ false false None [] [] [].

Definition SetPeerUpdateHandler (h : Server) : Server :=
  mkServer (sv_cfg h) (sv_traffic h) (sv_keepAlive h) (sv_timeout h) (sv_started h) (sv_sessions h)
    true (sv_sourceHandler h) (sv_sendFilter h) (sv_wire h) (sv_peers h) (sv_sourced h).
Definition SetPacketSourceHandler (h : Server) : Server :=
  mkServer (sv_cfg h) (sv_traffic h) (sv_keepAlive h) (sv_timeout h) (sv_started h) (sv_sessions h)
    (sv_peerHandler h) true (sv_sendFilter h) (sv_wire h) (sv_peers h) (sv_sourced h).
Definition SetSendFilter (h : Server) (filter : string -> bool) : Server :=
  mkServer (sv_cfg h) (sv_traffic h) (sv_keepAlive h) (sv_timeout h) (sv_started h) (sv_sessions h)
    (sv_peerHandler h) (sv_sourceHandler h) (Some filter) (sv_wire h) (sv_peers h) (sv_sourced h).
(** [Start] and [Stop], as far as the handlers can tell. *)
Definition set_started (h : Server) (b : bool) : Server :=
  mkServer (sv_cfg h) (sv_traffic h) (sv_keepAlive h) (sv_timeout h) b (sv_sessions h)
    (sv_peerHandler h) (sv_sourceHandler h) (sv_sendFilter h) (sv_wire h) (sv_peers h) (sv_sourced h).

(** ** Helpers *)

Definition with_addr (s : session) a := mkSession a (s_state s) (s_challenge s) (s_info s) (s_lastPing s).
Definition with_state (s : session) st := mkSession (s_addr s) st (s_challenge s) (s_info s) (s_lastPing s).

Definition info_at (i : PeerInfo) (ip : string) (port : Z) (online : bool) (seen : time) : PeerInfo :=
  mkPeerInfo (pi_Listener i) (pi_SourceKey i) (pi_DMRID i) (pi_Callsign i) (pi_Model i) (pi_Description i)
    (pi_Location i) (pi_URL i) ip port online seen (pi_RXFreq i) (pi_TXFreq i) (pi_TXPower i) (pi_ColorCode i)
    (pi_Latitude i) (pi_Longitude i) (pi_Height i) (pi_Slots i).

Definition info_named (i : PeerInfo) (listener key : string) : PeerInfo :=
  mkPeerInfo listener key (pi_DMRID i) (pi_Callsign i) (pi_Model i) (pi_Description i)
    (pi_Location i) (pi_URL i) (pi_IP i) (pi_Port i) (pi_Online i) (pi_LastSeenAt i) (pi_RXFreq i) (pi_TXFreq i)
    (pi_TXPower i) (pi_ColorCode i) (pi_Latitude i) (pi_Longitude i) (pi_Height i) (pi_Slots i).

(** [PeerInfo.StatusString] *)
Definition StatusString (i : PeerInfo) : PeerInfo :=
  mkPeerInfo (pi_Listener i) (pi_SourceKey i) (pi_DMRID i) (pi_Callsign i)
    (if decide (pi_Model i = "") then "MMDVM Client" else pi_Model i) (pi_Description i)
    (pi_Location i) (pi_URL i) (pi_IP i) (pi_Port i) false (pi_LastSeenAt i) (pi_RXFreq i) (pi_TXFreq i)
    (pi_TXPower i) (pi_ColorCode i) (pi_Latitude i) (pi_Longitude i) (pi_Height i) (pi_Slots i).

Definition id_at (data : list Z) (offset : nat) : Z :=
  get_be32 (data.[offset]) (data.[offset + 1]) (data.[offset + 2]) (data.[offset + 3]).

Definition validID (data : list Z) (offset : nat) : bool :=
  if (length data <? offset + 4)%nat then false else negb (id_at data offset =? 0).

Definition sendRaw (h : Server) (addr : UDPAddr) (data : list Z) : Server := with_wire h (sv_wire h ++ [(addr, data)]).
Definition rptAck : list Z := str_bytes "RPTACK".
Definition rptNak : list Z := str_bytes "RPTNAK".
Definition sendACK (h : Server) (addr : UDPAddr) : Server := sendRaw h addr rptAck.
Definition sendNAK (h : Server) (addr : UDPAddr) : Server := sendRaw h addr rptNak.

Definition emitPeer (h : Server) (info : PeerInfo) : Server :=
  if sv_peerHandler h then with_peers h (sv_peers h ++ [info]) else h.

(** The session of an address, its address updated, or a new one. *)
Definition getOrCreateSession (m : gmap string session) (addr : UDPAddr) : session :=
  match m !! addr_string addr with
  | Some sess => with_addr sess addr
  | None => mkSession addr serverStateIdle [] empty_info 0
  end.

Definition findReadySessionByDMRID (m : gmap string session) (dmrid : Z) : option (session * string) :=
  (fun '(key, sess) => (sess, key)) <$>
    List.find (fun '(_, sess) => is_ready sess && (pi_DMRID (s_info sess) =? dmrid)) (sess_iter m).

Definition rebindSession (m : gmap string session) (oldKey : string) (addr : UDPAddr) (sess : session) : gmap string session :=
  let newKey := addr_string addr in
  if decide (newKey = "") then m
  else
    let m := if decide (oldKey <> "" /\ oldKey <> newKey) then delete oldKey m else m in
    <[newKey := with_addr sess addr]> m.

(** The step [handlePing] and [handleDMRD] share: the session of the address,
    or the one with the identifier, moved to the address. *)
Definition locate_session (m : gmap string session) (addr : UDPAddr) (dmrid : Z) : gmap string session :=
  let sess := m !! addr_string addr in
  if negb (from_option is_ready false sess) && negb (dmrid =? 0) then
    match findReadySessionByDMRID m dmrid with
    | Some (rebound, oldKey) => rebindSession m oldKey addr rebound
    | None => m
    end
  else m.

Definition readySessionCount (m : gmap string session) : nat := length (filter (fun '(_, sess) => is_ready sess) (sess_iter m)).
Definition readySessions (m : gmap string session) : list session :=
  (fun '(_, sess) => sess) <$> filter (fun '(_, sess) => is_ready sess) (sess_iter m).

(** ** Handlers *)

(** [rnd] is what the random generator gives, [None] when it fails. *)
Definition beginHandshake (h : Server) (addr : UDPAddr) (rnd : option Z) : Server :=
  match rnd with
  | None => sendNAK h addr
  | Some r =>
      let challenge := put_be32 r in
      let sess := getOrCreateSession (sv_sessions h) addr in
      let sess := mkSession (s_addr sess) serverStateSentChallenge challenge (s_info sess) (s_lastPing sess) in
      let h := with_sessions h (<[addr_string addr := sess]> (sv_sessions h)) in
      sendRaw h addr (list_inserts 6 challenge (rptAck ++ replicate 4 0))
  end.

Definition handleLogin (h : Server) (data : list Z) (addr : UDPAddr) (rnd : option Z) : Server :=
  if negb (validID data 4) then sendNAK h addr else beginHandshake h addr rnd.

Definition auth_token (challenge : list Z) (password : string) : list Z := sha256 (challenge ++ str_bytes password).

Definition handleAuth (h : Server) (data : list Z) (addr : UDPAddr) : Server :=
  if (length data <? 40)%nat || negb (validID data 4) then sendNAK h addr
  else
    match sv_sessions h !! addr_string addr with
    | None => sendNAK h addr
    | Some sess =>
        if negb (bool_decide (s_state sess = serverStateSentChallenge)) then sendNAK h addr
        else if negb (bool_decide (slice 8 40 data = auth_token (s_challenge sess) (Password (sv_cfg h)))) then sendNAK h addr
        else
          let sess := with_state (getOrCreateSession (sv_sessions h) addr) serverStateAwaitConfig in
          sendACK (with_sessions h (<[addr_string addr := sess]> (sv_sessions h))) addr
    end.

Definition source_key (name : string) (dmrid : Z) (addr : UDPAddr) : string :=
  if dmrid =? 0 then "mmdvm:" +:+ name +:+ ":" +:+ addr_string addr
  else "mmdvm:" +:+ name +:+ ":" +:+ pretty dmrid.

(** The information of a session whose configuration arrives. *)
Definition config_info (h : Server) (data : list Z) (addr : UDPAddr) (now : time) : PeerInfo :=
  let info := parseRPTCConfig data in
  info_at (info_named info (Name (sv_cfg h)) (source_key (Name (sv_cfg h)) (pi_DMRID info) addr))
    (addr_IP addr) (addr_Port addr) true now.

Definition handleConfig (h : Server) (data : list Z) (addr : UDPAddr) (now : time) : Server :=
  if (length data <? 8)%nat || negb (validID data 4) then sendNAK h addr
  else
    let info := config_info h data addr now in
    let sess := getOrCreateSession (sv_sessions h) addr in
    let sess := mkSession (s_addr sess) serverStateReady (s_challenge sess) info now in
    let h := with_sessions h (<[addr_string addr := sess]> (sv_sessions h)) in
    sendACK (emitPeer h info) addr.

(** A sign of life of a session. *)
Definition touch_session (sess : session) (addr : UDPAddr) (online : bool) (now : time) : session :=
  mkSession addr (s_state sess) (s_challenge sess) (info_at (s_info sess) (addr_IP addr) (addr_Port addr) online now) now.

Definition handlePing (h : Server) (data : list Z) (addr : UDPAddr) (now : time) (rnd : option Z) : Server :=
  if (length data <? 11)%nat || negb (validID data 7) then h
  else
    let dmrid := id_at data 7 in
    let m := locate_session (sv_sessions h) addr dmrid in
    match m !! addr_string addr with
    | Some sess =>
        if is_ready sess then
          let sess := touch_session sess addr true now in
          let h := with_sessions h (<[addr_string addr := sess]> m) in
          let h := emitPeer h (s_info sess) in
          sendRaw h addr (str_bytes "MSTPONG" ++ put_be32 (ID (sv_cfg h)))
        else beginHandshake (with_sessions h m) addr rnd
    | None => beginHandshake (with_sessions h m) addr rnd
    end.

Definition drain_outbound (t : Traffic) (pkt : Packet) (now : time) : Traffic :=
  match outboundTSMgr t with
  | Some m => if is_terminator pkt then drainPendingOutbound t m (Slot pkt) (StreamID pkt) now else t
  | None => t
  end.

Definition handleOutboundPacketFrom (h : Server) (sourceKey : string) (pkt : Packet) (now : time) : Server :=
  let t := sv_traffic h in
  match Apply (netRewrites (chains t)) pkt with
  | (_, false) => h
  | (pkt, true) =>
      let '(t, ok) :=
        match outboundTSMgr t with
        | Some m =>
            let '(m, ok) := Submit m (Slot pkt) (StreamID pkt) (net_Name t) pkt now in
            (with_outbound t (Some m), ok)
        | None => (t, true)
        end in
      if negb ok then with_traffic h t
      else if sv_sourceHandler h then
        with_traffic (with_sourced h (sv_sourced h ++ [(sourceKey, pkt)])) (drain_outbound t pkt now)
      else with_traffic h (drain_outbound (translateAndForwardToIPSC now t pkt) pkt now)
  end.

Definition handleDMRD (h : Server) (data : list Z) (addr : UDPAddr) (now : time) : Server :=
  match Packet.Decode data with
  | (_, false) => h
  | (packet, true) =>
      let m := locate_session (sv_sessions h) addr (u32 (Repeater packet)) in
      match m !! addr_string addr with
      | Some sess =>
          if is_ready sess then
            let sess := touch_session sess addr (pi_Online (s_info sess)) now in
            let h := with_sessions h (<[addr_string addr := sess]> m) in
            handleOutboundPacketFrom (emitPeer h (s_info sess)) (pi_SourceKey (s_info sess)) packet now
          else with_sessions h m
      | None => with_sessions h m
      end
  end.

Definition setOffline (h : Server) (key : string) : Server :=
  match sv_sessions h !! key with
  | None => h
  | Some sess => emitPeer (with_sessions h (delete key (sv_sessions h))) (StatusString (s_info sess))
  end.

Definition handleDisconnect (h : Server) (data : list Z) (addr : UDPAddr) : Server :=
  if (length data <? 9)%nat || negb (validID data 5) then h else setOffline h (addr_string addr).

(** [string(data[:n]) == s] behind a length check *)
Definition starts_with (s : string) (data : list Z) : bool := bool_decide (take (String.length s) data = str_bytes s).

Definition handlePacket (h : Server) (data : list Z) (addr : UDPAddr) (now : time) (rnd : option Z) : Server :=
  if (length data <? 4)%nat then h
  else if starts_with "RPTCL" data then handleDisconnect h data addr
  else if starts_with "RPTL" data then handleLogin h data addr rnd
  else if starts_with "RPTK" data then handleAuth h data addr
  else if starts_with "RPTC" data then handleConfig h data addr now
  else if starts_with "RPTP" data then
    if starts_with "RPTPING" data then handlePing h data addr now rnd else h
  else if starts_with "DMRD" data then handleDMRD h data addr now
  else h.

(** [rxLoop] reads at most 1024 bytes of a datagram. *)
Definition receive (h : Server) (datagram : list Z) (addr : UDPAddr) (now : time) (rnd : option Z) : Server :=
  handlePacket h (take 1024 datagram) addr now rnd.

(** One tick of [sessionWatchdog]. *)
Definition stale_session (timeout : Z) (now : time) (sess : session) : bool :=
  is_ready sess && negb (time_is_zero (s_lastPing sess)) && (timeout <? time_sub now (s_lastPing sess)).

Definition sessionWatchdog (h : Server) (now : time) : Server :=
  let stale := (filter (fun '(_, sess) => stale_session (sv_timeout h) now sess) (sess_iter (sv_sessions h))).*1 in
  foldl setOffline h stale.

(** One packet of [txLoop]. *)
Definition tx_one (h : Server) : Server :=
  match tx_chan (sv_traffic h) with
  | [] => h
  | pkt :: rest =>
      let data := Packet.Encode pkt in
      let targets := filter (fun sess => from_option (fun f => f (pi_SourceKey (s_info sess))) true (sv_sendFilter h))
        (readySessions (sv_sessions h)) in
      with_wire (with_traffic h (with_tx (sv_traffic h) rest (tx_room (sv_traffic h))))
        (sv_wire h ++ ((fun sess => (s_addr sess, data)) <$> targets))
  end.

Definition ServerHandleTranslatedPacket (h : Server) (pkt : Packet) (now : time) : Server * bool :=
  if negb (sv_started h) || (readySessionCount (sv_sessions h) =? 0)%nat then (h, false)
  else let '(t, ok) := handleInboundPackets (sv_traffic h) [pkt] now in (with_traffic h t, ok).

Definition SendPacketToPeer (h : Server) (pkt : Packet) (sourceKey : string) : Server * bool :=
  if negb (sv_started h) || bool_decide (sourceKey = "") then (h, false)
  else
    match List.find (fun '(_, sess) => is_ready sess && bool_decide (pi_SourceKey (s_info sess) = sourceKey)) (sess_iter (sv_sessions h)) with
    | None => (h, false)
    | Some (_, sess) => (sendRaw h (s_addr sess) (Packet.Encode pkt), true)
    end.

(** Different tags of four bytes exclude each other, and a longer tag one that
    differs from its beginning. *)
Lemma starts_with_excl s c data :
  starts_with s data = true -> take (String.length s) (str_bytes c) <> str_bytes s -> (String.length s <= String.length c)%nat ->
  starts_with c data = false.
Proof.
  unfold starts_with. rewrite bool_decide_eq_true, bool_decide_eq_false. intros E Hne Hl Ec. apply Hne.
  rewrite <- Ec, take_take, Nat.min_l by done. exact E.
Qed.

Lemma starts_with_length s data : starts_with s data = true -> (length (str_bytes s) <= length data)%nat.
Proof. unfold starts_with. rewrite bool_decide_eq_true. intros <-. rewrite length_take. lia. Qed.

(** ** Histories *)

Inductive server_event :=
| Recv (datagram : list Z) (addr : UDPAddr) (now : time) (rnd : option Z)
| WatchdogTick (now : time)
| TxOne
| Translated (pkt : Packet) (now : time)
| ToPeer (pkt : Packet) (sourceKey : string).

(** A server with its handlers and the shared arbiter, started, as the program
    sets it up. *)
Definition serving (cfg : MMDVM) (filter : string -> bool) (m : PManager) : Server :=
  let h := SetPeerUpdateHandler (SetPacketSourceHandler (SetSendFilter (NewMMDVMServer cfg) filter)) in
  set_started (with_traffic h (SetPacketHandler (SetOutboundTSManager (sv_traffic h) m))) true.

Definition server_step (h : Server) (e : server_event) : Server :=
  match e with
  | Recv datagram addr now rnd => receive h datagram addr now rnd
  | WatchdogTick now => sessionWatchdog h now
  | TxOne => tx_one h
  | Translated pkt now => fst (ServerHandleTranslatedPacket h pkt now)
  | ToPeer pkt key => fst (SendPacketToPeer h pkt key)
  end.

(** ** The sessions *)

(** What holds of a session wherever it is stored, and of one stored under [key]. *)
Record sess_core (name : string) (s : session) : Prop := {
  sc_challenge : s_state s = serverStateSentChallenge -> length (s_challenge s) = 4%nat;
  sc_id : s_state s = serverStateReady -> pi_DMRID (s_info s) <> 0;
  sc_key : s_state s = serverStateReady ->
    pi_SourceKey (s_info s) = "mmdvm:" +:+ name +:+ ":" +:+ pretty (pi_DMRID (s_info s));
  sc_listener : s_state s = serverStateReady -> pi_Listener (s_info s) = name;
  sc_online : s_state s = serverStateReady -> pi_Online (s_info s) = true
}.

Record sess_ok (name key : string) (s : session) : Prop := {
  so_core : sess_core name s;
  so_addr : key = addr_string (s_addr s);
  so_peer : s_state s = serverStateReady -> pi_IP (s_info s) = addr_IP (s_addr s) /\ pi_Port (s_info s) = addr_Port (s_addr s)
}.

Definition sessions_ok (h : Server) : Prop := map_Forall (sess_ok (Name (sv_cfg h))) (sv_sessions h).

Lemma emitPeer_fields h info :
  sv_sessions (emitPeer h info) = sv_sessions h /\ sv_cfg (emitPeer h info) = sv_cfg h /\
  sv_traffic (emitPeer h info) = sv_traffic h /\ sv_wire (emitPeer h info) = sv_wire h /\
  sv_timeout (emitPeer h info) = sv_timeout h.
Proof. unfold emitPeer. by destruct (sv_peerHandler h). Qed.

Lemma emitPeer_sessions h info : sv_sessions (emitPeer h info) = sv_sessions h.
Proof. apply emitPeer_fields. Qed.
Lemma emitPeer_cfg h info : sv_cfg (emitPeer h info) = sv_cfg h.
Proof. apply emitPeer_fields. Qed.

Lemma outbound_from_fields h key pkt now :
  sv_sessions (handleOutboundPacketFrom h key pkt now) = sv_sessions h /\
  sv_cfg (handleOutboundPacketFrom h key pkt now) = sv_cfg h.
Proof.
  unfold handleOutboundPacketFrom. destruct (Apply _ pkt) as [q [|]]; [| done].
  destruct (match outboundTSMgr (sv_traffic h) with Some _ => _ | None => _ end) as [t ok].
  destruct (negb ok); [done |]. by destruct (sv_sourceHandler h).
Qed.

Lemma core_with_addr name s addr : sess_core name s -> sess_core name (with_addr s addr).
Proof. by intros [? ? ? ? ?]. Qed.

Lemma get_or_create_core h addr : sessions_ok h -> sess_core (Name (sv_cfg h)) (getOrCreateSession (sv_sessions h) addr).
Proof.
  intros Hm. unfold getOrCreateSession. destruct (sv_sessions h !! addr_string addr) as [s |] eqn:E.
  - apply core_with_addr, (so_core _ _ _ (Hm _ _ E)).
  - split; done.
Qed.

Lemma get_or_create_addr m addr : s_addr (getOrCreateSession m addr) = addr.
Proof. unfold getOrCreateSession. by destruct (m !! addr_string addr). Qed.

Section laws.
Context `{!SessionOrderLaws}.

Lemma find_ready_lookup m dmrid sess key :
  findReadySessionByDMRID m dmrid = Some (sess, key) ->
  m !! key = Some sess /\ is_ready sess = true /\ pi_DMRID (s_info sess) = dmrid.
Proof.
  unfold findReadySessionByDMRID. destruct (List.find _ _) as [[k s] |] eqn:E; [| done]. intros [= <- <-].
  apply List.find_some in E as [Hin Hb]. apply andb_true_iff in Hb as [Hr Hd]. apply Z.eqb_eq in Hd.
  apply list_elem_of_In in Hin. rewrite sess_iter_elements in Hin. by apply elem_of_map_to_list in Hin.
Qed.

Lemma find_ready_None m dmrid :
  findReadySessionByDMRID m dmrid = None -> forall key s, m !! key = Some s -> is_ready s = true -> pi_DMRID (s_info s) <> dmrid.
Proof.
  unfold findReadySessionByDMRID. destruct (List.find _ _) as [[k s] |] eqn:E; [done |]. intros _ key s Hs Hr Hd.
  assert (Hin : (key, s) ∈ sess_iter m) by (rewrite sess_iter_elements; by apply elem_of_map_to_list).
  apply list_elem_of_In in Hin. pose proof (List.find_none _ _ E _ Hin) as Hf. cbn in Hf.
  rewrite Hr in Hf. cbn in Hf. by apply Z.eqb_neq in Hf.
Qed.

(** Where the handlers look for the session of a packet. *)
Inductive located (m : gmap string session) (addr : UDPAddr) (dmrid : Z) : gmap string session -> option session -> Prop :=
| located_here s : m !! addr_string addr = Some s -> is_ready s = true -> located m addr dmrid m (Some s)
| located_moved s old : from_option is_ready false (m !! addr_string addr) = false -> dmrid <> 0 ->
    m !! old = Some s -> is_ready s = true -> pi_DMRID (s_info s) = dmrid ->
    located m addr dmrid (<[addr_string addr := with_addr s addr]> (delete old m)) (Some s)
| located_none : from_option is_ready false (m !! addr_string addr) = false ->
    (dmrid <> 0 -> forall key s, m !! key = Some s -> is_ready s = true -> pi_DMRID (s_info s) <> dmrid) ->
    located m addr dmrid m None.

Lemma locate_session_spec m addr dmrid :
  (forall key s, m !! key = Some s -> key <> "") ->
  exists s, located m addr dmrid (locate_session m addr dmrid) s.
Proof.
  intros Hkeys. unfold locate_session.
  destruct (from_option is_ready false (m !! addr_string addr)) eqn:Er; cbn [negb andb].
  { destruct (m !! addr_string addr) as [s |] eqn:E; [| done]. exists (Some s). by apply located_here. }
  destruct (Z.eqb_spec dmrid 0) as [Hd | Hd]; cbn [negb]; [by exists None; apply located_none |].
  destruct (findReadySessionByDMRID m dmrid) as [[s old] |] eqn:Ef.
  - destruct (find_ready_lookup _ _ _ _ Ef) as (Eo & Hr & Ed). exists (Some s).
    assert (old <> addr_string addr) by (intros ->; rewrite Eo in Er; cbn in Er; congruence).
    unfold rebindSession. rewrite decide_False by apply addr_string_nonempty.
    rewrite decide_True by (split; [by eapply Hkeys | done]). by eapply located_moved.
  - exists None. apply located_none; [done |]. intros _. by apply find_ready_None.
Qed.

Lemma sessions_ok_keys h : sessions_ok h -> forall key s, sv_sessions h !! key = Some s -> key <> "".
Proof. intros Hm key s Hs ->. destruct (Hm _ _ Hs) as [_ Ha _]. by apply (addr_string_nonempty (s_addr s)). Qed.

(** The session found keeps its state and information, the others are as before. *)
Lemma located_lookup m addr dmrid m' s :
  located m addr dmrid m' (Some s) ->
  (exists old, m !! old = Some s) /\ is_ready s = true /\
  (exists s', m' !! addr_string addr = Some s' /\ is_ready s' = true /\ s_challenge s' = s_challenge s /\
    s_info s' = s_info s /\ s_state s' = s_state s) /\
  forall key x, key <> addr_string addr -> m' !! key = Some x -> m !! key = Some x.
Proof.
  inversion 1; subst.
  - split_ands; [by eexists | done | by exists s | done].
  - split_ands; [by eexists | done | |].
    + exists (with_addr s addr). rewrite lookup_insert_eq. by split_ands.
    + intros key x Hne. rewrite lookup_insert_ne by done. intros Hx. by apply lookup_delete_Some in Hx as [_ ?].
Qed.

Lemma located_absent m addr dmrid m' :
  located m addr dmrid m' None -> m' = m /\ from_option is_ready false (m !! addr_string addr) = false.
Proof. by inversion 1. Qed.

(** [handlePing] and [handleDMRD], by the session they find. *)
Definition ping_reply (h : Server) (addr : UDPAddr) : Server :=
  sendRaw h addr (str_bytes "MSTPONG" ++ put_be32 (ID (sv_cfg h))).

Lemma handlePing_cases h data addr now rnd :
  sessions_ok h -> (11 <= length data)%nat -> validID data 7 = true ->
  exists m' s, located (sv_sessions h) addr (id_at data 7) m' s /\
  handlePing h data addr now rnd =
    match s with
    | Some s => let s := touch_session s addr true now in
        ping_reply (emitPeer (with_sessions h (<[addr_string addr := s]> m')) (s_info s)) addr
    | None => beginHandshake h addr rnd
    end.
Proof.
  intros Hm Hl Hv. unfold handlePing. rewrite (proj2 (Nat.ltb_ge _ _) Hl), Hv. cbn [orb negb].
  destruct (locate_session_spec (sv_sessions h) addr (id_at data 7) (sessions_ok_keys h Hm)) as [s L].
  exists (locate_session (sv_sessions h) addr (id_at data 7)), s. split; [exact L |]. destruct s as [s |].
  - destruct (located_lookup _ _ _ _ _ L) as (_ & _ & (s' & -> & Hr & E1 & E2 & E3) & _). rewrite Hr.
    unfold touch_session, ping_reply. by rewrite E1, E2, E3.
  - apply located_absent in L as [-> Hn].
    replace (with_sessions h (sv_sessions h)) with h by by destruct h.
    destruct (sv_sessions h !! addr_string addr); [cbn in Hn; by rewrite Hn | done].
Qed.

Lemma handleDMRD_cases h data addr now packet :
  sessions_ok h -> Packet.Decode data = (packet, true) ->
  exists m' s, located (sv_sessions h) addr (u32 (Repeater packet)) m' s /\
  handleDMRD h data addr now =
    match s with
    | Some s => let s := touch_session s addr (pi_Online (s_info s)) now in
        handleOutboundPacketFrom (emitPeer (with_sessions h (<[addr_string addr := s]> m')) (s_info s))
          (pi_SourceKey (s_info s)) packet now
    | None => h
    end.
Proof.
  intros Hm Hd. unfold handleDMRD. rewrite Hd.
  destruct (locate_session_spec (sv_sessions h) addr (u32 (Repeater packet)) (sessions_ok_keys h Hm)) as [s L].
  exists (locate_session (sv_sessions h) addr (u32 (Repeater packet))), s. split; [exact L |]. destruct s as [s |].
  - destruct (located_lookup _ _ _ _ _ L) as (_ & _ & (s' & -> & Hr & E1 & E2 & E3) & _). rewrite Hr.
    unfold touch_session. by rewrite E1, E2, E3.
  - apply located_absent in L as [-> Hn].
    replace (with_sessions h (sv_sessions h)) with h by by destruct h.
    destruct (sv_sessions h !! addr_string addr); [cbn in Hn; by rewrite Hn | done].
Qed.

Lemma watchdog_fields h l :
  sv_cfg (foldl setOffline h l) = sv_cfg h /\
  sv_sessions (foldl setOffline h l) = foldr delete (sv_sessions h) (reverse l).
Proof.
  revert h. induction l as [| k l IH]; intros h; [done |]. cbn [foldl]. destruct (IH (setOffline h k)) as [-> ->].
  rewrite reverse_cons, foldr_app. cbn [foldr]. unfold setOffline.
  destruct (sv_sessions h !! k) as [s |] eqn:E; [by rewrite emitPeer_sessions, emitPeer_cfg |].
  split; [done |]. by rewrite delete_id.
Qed.

(** What a step can do to the sessions. *)
Inductive session_change (h : Server) : server_event -> gmap string session -> Prop :=
| change_none e : session_change h e (sv_sessions h)
| change_challenge e addr r :
    let sess := getOrCreateSession (sv_sessions h) addr in
    session_change h e (<[addr_string addr :=
      mkSession (s_addr sess) serverStateSentChallenge (put_be32 r) (s_info sess) (s_lastPing sess)]> (sv_sessions h))
| change_auth data addr now rnd sess : sv_sessions h !! addr_string addr = Some sess ->
    s_state sess = serverStateSentChallenge ->
    slice 8 40 (take 1024 data) = auth_token (s_challenge sess) (Password (sv_cfg h)) ->
    session_change h (Recv data addr now rnd)
      (<[addr_string addr := with_state (with_addr sess addr) serverStateAwaitConfig]> (sv_sessions h))
| change_config data addr now rnd challenge :
    (8 <= length (take 1024 data))%nat -> validID (take 1024 data) 4 = true ->
    session_change h (Recv data addr now rnd) (<[addr_string addr :=
      mkSession addr serverStateReady challenge (config_info h (take 1024 data) addr now) now]> (sv_sessions h))
| change_touch data addr now rnd dmrid m s online : located (sv_sessions h) addr dmrid m (Some s) ->
    online = true \/ online = pi_Online (s_info s) ->
    session_change h (Recv data addr now rnd) (<[addr_string addr := touch_session s addr online now]> m)
| change_delete e l : session_change h e (foldr delete (sv_sessions h) l).

(** The step left the sessions alone. *)
Ltac unchanged := match goal with |- session_change ?h ?e _ => exact (change_none h e) end.

Lemma handshake_change h e addr rnd : session_change h e (sv_sessions (beginHandshake h addr rnd)).
Proof. unfold beginHandshake. destruct rnd as [r |]; [apply change_challenge | unchanged]. Qed.

Lemma offline_change h e key : session_change h e (sv_sessions (setOffline h key)).
Proof.
  unfold setOffline. destruct (sv_sessions h !! key); [| unchanged].
  rewrite emitPeer_sessions. apply (change_delete h e [key]).
Qed.

Lemma auth_change h data addr now rnd :
  session_change h (Recv data addr now rnd) (sv_sessions (handleAuth h (take 1024 data) addr)).
Proof.
  unfold handleAuth. destruct (_ || _); [unchanged |].
  destruct (sv_sessions h !! addr_string addr) as [s |] eqn:E; [| unchanged].
  destruct (bool_decide (s_state s = _)) eqn:B1; [| unchanged].
  destruct (bool_decide (slice _ _ _ = _)) eqn:B2; [| unchanged].
  apply bool_decide_eq_true in B1, B2. cbn. unfold getOrCreateSession. rewrite E. by apply change_auth.
Qed.

Lemma config_change h data addr now rnd :
  session_change h (Recv data addr now rnd) (sv_sessions (handleConfig h (take 1024 data) addr now)).
Proof.
  unfold handleConfig. destruct (Nat.ltb_spec (length (take 1024 data)) 8); [unchanged |].
  destruct (validID (take 1024 data) 4) eqn:Hv; [| unchanged]. cbn [orb negb sendACK sendRaw with_wire sv_sessions].
  rewrite emitPeer_sessions. cbn. rewrite get_or_create_addr. by apply change_config.
Qed.

Lemma ping_change h data addr now rnd :
  sessions_ok h ->
  session_change h (Recv data addr now rnd) (sv_sessions (handlePing h (take 1024 data) addr now rnd)).
Proof.
  intros Hm. set (d := take 1024 data).
  destruct (Nat.le_gt_cases 11 (length d)) as [Hl | Hl];
    [| unfold handlePing; rewrite (proj2 (Nat.ltb_lt _ _) Hl); unchanged].
  destruct (validID d 7) eqn:Hv; [| unfold handlePing; rewrite Hv, orb_true_r; unchanged].
  destruct (handlePing_cases h d addr now rnd Hm Hl Hv) as (m' & [s |] & L & ->); [| apply handshake_change].
  unfold ping_reply. cbn. rewrite emitPeer_sessions. eapply change_touch; eauto.
Qed.

Lemma dmrd_change h data addr now rnd :
  sessions_ok h -> session_change h (Recv data addr now rnd) (sv_sessions (handleDMRD h (take 1024 data) addr now)).
Proof.
  intros Hm. destruct (Packet.Decode (take 1024 data)) as [packet [|]] eqn:Hd;
    [| unfold handleDMRD; rewrite Hd; unchanged].
  destruct (handleDMRD_cases h _ addr now packet Hm Hd) as (m' & [s |] & L & ->); [| unchanged].
  rewrite (proj1 (outbound_from_fields _ _ _ _)), emitPeer_sessions. eapply change_touch; eauto.
Qed.

Lemma server_step_change h e : sessions_ok h -> session_change h e (sv_sessions (server_step h e)).
Proof.
  intros Hm. destruct e as [data addr now rnd | now | | pkt now | pkt key]; cbn [server_step].
  - unfold receive, handlePacket. destruct (length _ <? 4)%nat; [unchanged |].
    destruct (starts_with "RPTCL" _).
    { unfold handleDisconnect. destruct (_ || _); [unchanged | apply offline_change]. }
    destruct (starts_with "RPTL" _); [unfold handleLogin; destruct (negb _); [unchanged | apply handshake_change] |].
    destruct (starts_with "RPTK" _); [apply auth_change |].
    destruct (starts_with "RPTC" _); [apply config_change |].
    destruct (starts_with "RPTP" _); [destruct (starts_with "RPTPING" _); [by apply ping_change | unchanged] |].
    destruct (starts_with "DMRD" _); [by apply dmrd_change | unchanged].
  - unfold sessionWatchdog. rewrite (proj2 (watchdog_fields _ _)). apply change_delete.
  - unfold tx_one. destruct (tx_chan (sv_traffic h)); unchanged.
  - unfold ServerHandleTranslatedPacket. destruct (_ || _); [unchanged |].
    destruct (handleInboundPackets (sv_traffic h) [pkt] now). unchanged.
  - unfold SendPacketToPeer. destruct (_ || _); [unchanged |]. destruct (List.find _ _) as [[? ?] |]; unchanged.
Qed.

(** No handler changes the configuration. *)
Lemma handshake_cfg h addr rnd : sv_cfg (beginHandshake h addr rnd) = sv_cfg h.
Proof. by destruct rnd. Qed.

Lemma server_step_cfg h e : sv_cfg (server_step h e) = sv_cfg h.
Proof.
  destruct e as [data addr now rnd | now | | pkt now | pkt key]; cbn [server_step].
  - unfold receive, handlePacket, handleDisconnect, setOffline, handleLogin, handleAuth, handleConfig,
      handlePing, handleDMRD. set (d := take 1024 data). clearbody d.
    repeat (case_match; try done); cbn; rewrite ?emitPeer_cfg, ?handshake_cfg; try done.
    etrans; [apply outbound_from_fields |]. by rewrite emitPeer_cfg.
  - apply watchdog_fields.
  - unfold tx_one. by destruct (tx_chan (sv_traffic h)).
  - unfold ServerHandleTranslatedPacket. destruct (_ || _); [done |].
    by destruct (handleInboundPackets (sv_traffic h) [pkt] now).
  - unfold SendPacketToPeer. destruct (_ || _); [done |]. by destruct (List.find _ _) as [[? ?] |].
Qed.

Lemma touched_ok h addr dmrid m' s online now :
  sessions_ok h -> located (sv_sessions h) addr dmrid m' (Some s) ->
  (online = true \/ online = pi_Online (s_info s)) ->
  map_Forall (sess_ok (Name (sv_cfg h))) (<[addr_string addr := touch_session s addr online now]> m').
Proof.
  intros Hm L Ho. destruct (located_lookup _ _ _ _ _ L) as ((old & Eo) & Hr & _ & Hrest).
  destruct (so_core _ _ _ (Hm _ _ Eo)) as [C1 C2 C3 C4 C5]. unfold is_ready in Hr. apply bool_decide_eq_true in Hr.
  intros key x Hx. apply lookup_insert_Some in Hx as [[<- <-] | [Hne Hx]]; [| apply Hm, Hrest; congruence].
  split; [| done | done]. split; cbn; [by rewrite Hr | auto | auto | auto |].
  destruct Ho as [-> | ->]; auto.
Qed.

Lemma config_dmrid data : (8 <= length data)%nat -> pi_DMRID (parseRPTCConfig data) = id_at data 4.
Proof.
  intros Hl. unfold parseRPTCConfig. rewrite (proj2 (Nat.leb_le _ _) Hl). by destruct (length data <? 98)%nat.
Qed.

Lemma config_session_ok h data addr now challenge :
  (8 <= length data)%nat -> validID data 4 = true ->
  sess_ok (Name (sv_cfg h)) (addr_string addr) (mkSession addr serverStateReady challenge (config_info h data addr now) now).
Proof.
  intros Hl Hv. assert (Hid : pi_DMRID (parseRPTCConfig data) <> 0).
  { rewrite config_dmrid by done. unfold validID in Hv. destruct (length data <? 4 + 4)%nat; [done |].
    apply negb_true_iff, Z.eqb_neq in Hv. done. }
  split; [| done | done]. split; cbn; try done. intros _. unfold source_key. by rewrite (proj2 (Z.eqb_neq _ _) Hid).
Qed.

Lemma server_step_ok h e : sessions_ok h -> sessions_ok (server_step h e).
Proof.
  intros Hm. unfold sessions_ok. rewrite server_step_cfg.
  destruct (server_step_change h e Hm) as [e | e addr r sess | | | | e l].
  - exact Hm.
  - apply map_Forall_insert_2; [| exact Hm]. split; [by split | f_equal; symmetry; apply get_or_create_addr | done].
  - apply map_Forall_insert_2; [| exact Hm]. split; [by split | done | done].
  - apply map_Forall_insert_2; [| exact Hm]. by apply config_session_ok.
  - by eapply touched_ok.
  - induction l as [| k l IH]; [exact Hm | by apply map_Forall_delete].
Qed.

Lemma server_run_ok h evs :
  sessions_ok h -> sessions_ok (foldl server_step h evs) /\ sv_cfg (foldl server_step h evs) = sv_cfg h.
Proof.
  revert h. induction evs as [| e evs IH]; intros h Hm; [done |]. cbn [foldl].
  destruct (IH (server_step h e) (server_step_ok h e Hm)) as [H1' H2']. split; [done |]. by rewrite H2', server_step_cfg.
Qed.

Lemma serving_ok cfg flt mgr : sessions_ok (serving cfg flt mgr).
Proof. apply map_Forall_empty. Qed.

(** The sessions stay consistent.  After any history every session is
    stored under the address it sends to; one whose challenge is open has a
    challenge of four bytes; a ready one is online at its address, belongs to
    this listener and has the source key of its non-zero identifier. *)
Theorem sessions_sound cfg flt mgr evs key s :
  let h := foldl server_step (serving cfg flt mgr) evs in
  sv_sessions h !! key = Some s ->
  key = addr_string (s_addr s) /\
  (s_state s = serverStateSentChallenge -> length (s_challenge s) = 4%nat) /\
  (s_state s = serverStateReady ->
     pi_DMRID (s_info s) <> 0 /\ pi_Listener (s_info s) = Name cfg /\
     pi_SourceKey (s_info s) = "mmdvm:" +:+ Name cfg +:+ ":" +:+ pretty (pi_DMRID (s_info s)) /\
     pi_Online (s_info s) = true /\ pi_IP (s_info s) = addr_IP (s_addr s) /\ pi_Port (s_info s) = addr_Port (s_addr s)).
Proof.
  cbn zeta. destruct (server_run_ok _ evs (serving_ok cfg flt mgr)) as [Hm Hc]. intros Hs.
  specialize (Hm key s Hs). rewrite Hc in Hm. cbn in Hm. destruct Hm as [[C1 C2 C3 C4 C5] Ha Hp].
  split_ands; [done | done |]. intros Hr. destruct (Hp Hr). by split_ands; auto.
Qed.

(** C7: A client is authenticated only by the password.  If a step puts the
    session of an address into the state that awaits the configuration, the step
    received from this address the hash of the session's challenge followed by
    the password. *)
Theorem auth_sound cfg flt mgr evs e key s :
  let h := foldl server_step (serving cfg flt mgr) evs in
  sv_sessions (server_step h e) !! key = Some s -> s_state s = serverStateAwaitConfig ->
  (exists s0, sv_sessions h !! key = Some s0 /\ s_state s0 = serverStateAwaitConfig) \/
  (exists data addr now rnd s0, e = Recv data addr now rnd /\ key = addr_string addr /\
     sv_sessions h !! key = Some s0 /\ s_state s0 = serverStateSentChallenge /\
     slice 8 40 (take 1024 data) = sha256 (s_challenge s0 ++ str_bytes (Password cfg))).
Proof.
  cbn zeta. destruct (server_run_ok _ evs (serving_ok cfg flt mgr)) as [Hm Hc].
  set (h := foldl server_step (serving cfg flt mgr) evs) in *. clearbody h. intros Hs Ha.
  destruct (server_step_change h e Hm) as [e | e addr r sess | data addr now rnd s0 E0 B1 B2 | | data addr now rnd dmrid m s0 online L Ho | e l].
  - left. by exists s.
  - left. apply lookup_insert_Some in Hs as [[<- <-] | [_ Hs]]; [done | by exists s].
  - apply lookup_insert_Some in Hs as [[<- <-] | [_ Hs]]; [right | left; by exists s].
    exists data, addr, now, rnd, s0. split_ands; try done. by rewrite B2, Hc.
  - left. apply lookup_insert_Some in Hs as [[<- <-] | [_ Hs]]; [done | by exists s].
  - left. destruct (located_lookup _ _ _ _ _ L) as (_ & Hr & _ & Hrest). unfold is_ready in Hr. apply bool_decide_eq_true in Hr.
    apply lookup_insert_Some in Hs as [[<- <-] | [Hne Hs]]; [cbn in Ha; congruence |].
    exists s. split; [by apply Hrest | done].
  - left. exists s. split; [| done]. induction l as [| k l IH]; [done |].
    cbn [foldr] in Hs. apply lookup_delete_Some in Hs as [_ Hs]. by apply IH.
Qed.

(** The server takes a configuration from an address that never logged in:
    the session is ready at once, without a challenge or the password. *)
Theorem config_without_login cfg flt mgr data addr now :
  (4 <= length (take 1024 data))%nat -> starts_with "RPTC" (take 1024 data) = true ->
  starts_with "RPTCL" (take 1024 data) = false -> validID (take 1024 data) 4 = true ->
  exists s, sv_sessions (receive (serving cfg flt mgr) data addr now None) !! addr_string addr = Some s /\
  s_state s = serverStateReady /\ s_challenge s = [].
Proof.
  intros Hl Hc Hd Hv. unfold receive, handlePacket. set (d := take 1024 data) in *.
  rewrite (proj2 (Nat.ltb_ge _ _) Hl), Hd, Hc.
  rewrite (starts_with_excl "RPTC" "RPTL"), (starts_with_excl "RPTC" "RPTK") by done.
  assert (Hl8 : (8 <= length d)%nat) by (unfold validID in Hv; destruct (Nat.ltb_spec (length d) (4 + 4)); [done | lia]).
  unfold handleConfig. rewrite (proj2 (Nat.ltb_ge _ _) Hl8), Hv. cbn.
  eexists. rewrite lookup_insert_eq. by split_ands.
Qed.

(** ** Time-outs *)

Lemma foldr_delete_lookup (m : gmap string session) l key :
  foldr delete m l !! key = if decide (key ∈ l) then None else m !! key.
Proof.
  induction l as [| k l IH]; [by rewrite decide_False by apply not_elem_of_nil |]. cbn [foldr].
  destruct (decide (key = k)) as [-> | Hne].
  - rewrite lookup_delete_eq. by rewrite decide_True by left.
  - rewrite lookup_delete_ne, IH by done.
    destruct (decide (key ∈ l)); [by rewrite decide_True by (by right) |].
    rewrite decide_False; [done |]. by intros [? | ?]%elem_of_cons.
Qed.

Lemma offline_peers (h : Server) (l : list (string * session)) :
  NoDup l.*1 -> Forall (fun '(k, s) => sv_sessions h !! k = Some s) l -> sv_peerHandler h = true ->
  sv_peers (foldl setOffline h l.*1) = sv_peers h ++ ((fun '(_, s) => StatusString (s_info s)) <$> l).
Proof.
  revert h. induction l as [| [k s] l IH]; intros h Hn Hl Hp; [by rewrite app_nil_r |].
  cbn [fmap list_fmap fst foldl]. apply Forall_cons in Hl as [Hk Hl]. apply NoDup_cons in Hn as [Hk' Hn].
  rewrite IH; clear IH; unfold setOffline; rewrite ?Hk; unfold emitPeer; cbn [sv_peerHandler with_sessions]; rewrite ?Hp;
    cbn [sv_sessions with_peers sv_peers sv_peerHandler with_sessions]; try done.
  - by rewrite <- app_assoc.
  - rewrite Forall_forall in Hl |- *. intros [k' s'] Hin. specialize (Hl _ Hin). cbn in Hl |- *.
    rewrite lookup_delete_ne; [done |]. intros ->. apply Hk'. apply list_elem_of_fmap. by exists (k', s').
Qed.

(** The watchdog takes exactly the ready sessions off that were heard of
    longer ago than the timeout, leaves all others as they were and reports each
    of these once as offline. *)
Theorem watchdog_exact h now :
  let h' := sessionWatchdog h now in
  (forall key, sv_sessions h' !! key =
     s ← sv_sessions h !! key; if stale_session (sv_timeout h) now s then None else Some s) /\
  (sv_peerHandler h = true ->
     exists gone, (forall key s, (key, s) ∈ gone <-> sv_sessions h !! key = Some s /\ stale_session (sv_timeout h) now s = true) /\
     NoDup gone.*1 /\ sv_peers h' = sv_peers h ++ ((fun '(_, s) => StatusString (s_info s)) <$> gone)).
Proof.
  cbn zeta. unfold sessionWatchdog. set (gone := filter _ (sess_iter (sv_sessions h))).
  assert (Hgone : forall key s, (key, s) ∈ gone <-> sv_sessions h !! key = Some s /\ stale_session (sv_timeout h) now s = true).
  { intros key s. unfold gone. rewrite list_elem_of_filter, sess_iter_elements, elem_of_map_to_list.
    destruct (stale_session (sv_timeout h) now s); cbn; intuition congruence. }
  assert (Hnd : NoDup gone.*1).
  { assert (Hall : NoDup (sess_iter (sv_sessions h)).*1) by (rewrite sess_iter_elements; apply NoDup_fst_map_to_list).
    eapply sublist_NoDup; [exact Hall |]. apply fmap_sublist, sublist_filter. }
  split.
  - intros key. rewrite (proj2 (watchdog_fields _ _)), foldr_delete_lookup.
    case_decide as E.
    + apply elem_of_reverse, list_elem_of_fmap in E as ([k s] & -> & E). apply Hgone in E as [E1 E2].
      cbn [fst]. rewrite E1. cbn. by rewrite E2.
    + destruct (sv_sessions h !! key) as [s |] eqn:Es; [| done]. cbn.
      destruct (stale_session (sv_timeout h) now s) eqn:Est; [| done]. exfalso. apply E, elem_of_reverse, list_elem_of_fmap.
      exists (key, s). split; [done | by apply Hgone].
  - intros Hp. exists gone. split; [exact Hgone |]. split; [exact Hnd |]. apply offline_peers; [done | | done].
    apply Forall_forall. intros [k s] Hin. by apply Hgone in Hin as [? _].
Qed.

(** ** Voice *)

(** What [handleOutboundPacketFrom] hands on: with the key, at most the
    rewritten packet itself; through the packet handler, only packets that
    waited, in the order they waited, and only after a terminator. *)
Lemma drain_outbound_hands t arb pkt now :
  packetHandler t = true -> outboundTSMgr t = Some arb -> mgr_ok arb ->
  exists drained, to_packetHandler (drain_outbound t pkt now) = to_packetHandler t ++ drained /\
    (drained <> [] -> is_terminator pkt = true) /\
    forall slot sid, of_stream slot sid drained `prefix_of` waiting arb slot sid.
Proof.
  intros Hp Ho Hm. unfold drain_outbound. rewrite Ho. destruct (is_terminator pkt).
  2:{ exists []. rewrite app_nil_r. split_ands; [done | done |]. intros slot sid. apply prefix_nil. }
  unfold drainPendingOutbound.
  pose proof (drain_ok _ to_packetHandler (fun t' => packetHandler t' = true /\ chains t' = chains t /\ outboundTSMgr t' = Some arb)
    (fun s p => forward_good (chains t) (Some arb) now s p) (drain_fuel arb (Slot pkt)) arb t (Slot pkt) (StreamID pkt) now Hm
    (conj Hp (conj eq_refl Ho))) as D.
  destruct (drain _ _ arb t _ _ now) as [[m' t'] ok]. destruct D as (_ & _ & _ & _ & out & E & D).
  exists out. split_ands; [done | done |]. intros slot sid. rewrite <- D. apply prefix_app_r. done.
Qed.

Lemma outbound_from_hands h arb key pkt now :
  sv_sourceHandler h = true -> packetHandler (sv_traffic h) = true -> outboundTSMgr (sv_traffic h) = Some arb -> mgr_ok arb ->
  let h' := handleOutboundPacketFrom h key pkt now in
  (sv_sourced h' = sv_sourced h /\ to_packetHandler (sv_traffic h') = to_packetHandler (sv_traffic h)) \/
  exists q drained, rewrite_net (chains (sv_traffic h)) pkt = Some q /\
    sv_sourced h' = sv_sourced h ++ [(key, q)] /\
    to_packetHandler (sv_traffic h') = to_packetHandler (sv_traffic h) ++ drained /\
    (drained <> [] -> is_terminator q = true) /\
    forall slot sid, of_stream slot sid drained `prefix_of` waiting arb slot sid.
Proof.
  intros Hs Hp Ho Hm. cbn zeta. unfold handleOutboundPacketFrom, rewrite_net. destruct (Apply _ pkt) as [q [|]]; [| by left].
  rewrite Ho. destruct (Submit arb (Slot q) (StreamID q) (net_Name (sv_traffic h)) q now) as [m ok] eqn:Es.
  destruct ok; cbn [negb]; [| by left]. rewrite Hs. right.
  destruct (submit_accepted _ _ _ _ _ Hm Es) as [Hm' Hw].
  destruct (drain_outbound_hands (with_outbound (sv_traffic h) (Some m)) m q now Hp eq_refl Hm') as (drained & E & Ht & Hd).
  exists q, drained. split_ands; [done | done | exact E | done |]. intros slot sid. etrans; [apply Hd | apply Hw].
Qed.

Lemma handshake_source h addr rnd : sv_sourceHandler (beginHandshake h addr rnd) = sv_sourceHandler h.
Proof. by destruct rnd. Qed.

Lemma emitPeer_source h info : sv_sourceHandler (emitPeer h info) = sv_sourceHandler h.
Proof. unfold emitPeer. by destruct (sv_peerHandler h). Qed.

Lemma outbound_from_source h key pkt now : sv_sourceHandler (handleOutboundPacketFrom h key pkt now) = sv_sourceHandler h.
Proof.
  unfold handleOutboundPacketFrom. destruct (Apply _ pkt) as [q [|]]; [| done].
  destruct (match outboundTSMgr (sv_traffic h) with Some _ => _ | None => _ end) as [t ok].
  destruct (negb ok); [done |]. by destruct (sv_sourceHandler h) eqn:E.
Qed.

Lemma server_step_source h e : sv_sourceHandler (server_step h e) = sv_sourceHandler h.
Proof.
  destruct e as [data addr now rnd | now | | pkt now | pkt key]; cbn [server_step].
  - unfold receive, handlePacket, handleDisconnect, setOffline, handleLogin, handleAuth, handleConfig,
      handlePing, handleDMRD. set (d := take 1024 data). clearbody d.
    repeat (case_match; try done); cbn; rewrite ?emitPeer_source, ?handshake_source; try done.
    by rewrite outbound_from_source, emitPeer_source.
  - unfold sessionWatchdog. generalize (filter (fun '(_, sess) => stale_session (sv_timeout h) now sess) (sess_iter (sv_sessions h))).*1.
    intros l. revert h. induction l as [| k l IH]; intros h; [done |]. cbn [foldl]. rewrite IH. unfold setOffline.
    destruct (sv_sessions h !! k); [by rewrite emitPeer_source | done].
  - unfold tx_one. by destruct (tx_chan (sv_traffic h)).
  - unfold ServerHandleTranslatedPacket. destruct (_ || _); [done |].
    by destruct (handleInboundPackets (sv_traffic h) [pkt] now).
  - unfold SendPacketToPeer. destruct (_ || _); [done |]. by destruct (List.find _ _) as [[? ?] |].
Qed.

Lemma server_run_source cfg flt mgr evs : sv_sourceHandler (foldl server_step (serving cfg flt mgr) evs) = true.
Proof.
  assert (Hsv : sv_sourceHandler (serving cfg flt mgr) = true) by done. revert Hsv. generalize (serving cfg flt mgr).
  induction evs as [| e evs IH]; intros h Hh; [done |]. cbn [foldl]. apply IH. by rewrite server_step_source.
Qed.

(** Only voice frames are handed on. *)
Lemma dmrd_or_silent h d addr now rnd :
  (starts_with "DMRD" d = true /\ handlePacket h d addr now rnd = handleDMRD h d addr now) \/
  (sv_sourced (handlePacket h d addr now rnd) = sv_sourced h /\ sv_traffic (handlePacket h d addr now rnd) = sv_traffic h).
Proof.
  assert (Hemit : forall h' i, sv_sourced (emitPeer h' i) = sv_sourced h' /\ sv_traffic (emitPeer h' i) = sv_traffic h').
  { intros h' i. unfold emitPeer. by destruct (sv_peerHandler h'). }
  assert (Hhand : forall h', sv_sourced (beginHandshake h' addr rnd) = sv_sourced h' /\
    sv_traffic (beginHandshake h' addr rnd) = sv_traffic h') by (intros; by destruct rnd).
  destruct (starts_with "DMRD" d) eqn:Ed; [left | right].
  - split; [done |]. unfold handlePacket.
    assert (Hl : (4 <= length d)%nat) by exact (starts_with_length _ _ Ed). rewrite (proj2 (Nat.ltb_ge _ _) Hl), Ed.
    by rewrite (starts_with_excl "DMRD" "RPTCL"), (starts_with_excl "DMRD" "RPTL"), (starts_with_excl "DMRD" "RPTK"),
      (starts_with_excl "DMRD" "RPTC"), (starts_with_excl "DMRD" "RPTP") by first [done | cbn; lia].
  - unfold handlePacket, handleDisconnect, setOffline, handleLogin, handleAuth, handleConfig, handlePing. rewrite Ed.
    repeat (case_match; try done); cbn; rewrite ?(proj1 (Hemit _ _)), ?(proj2 (Hemit _ _)), ?(proj1 (Hhand _)), ?(proj2 (Hhand _)); done.
Qed.

(** C8: Voice comes in only through a ready session.  After any history, and
    with the traffic side of the server (its shared arbiter included) in
    whatever state the other networks left it, a datagram makes the server hand
    on either nothing, or the rewritten packet of the datagram under the source
    key of a ready session that has the sender's address or the identifier in
    the packet.  Together with it the packet handler, which knows no source key,
    gets nothing but packets that waited in the arbiter, of every stream the
    first ones and in order, and only after a terminator.  (The step is not
    interrupted by another network here; for that see [SharedArbiter].) *)
Theorem traffic_attributed cfg flt mgr evs t arb data addr now rnd :
  packetHandler t = true -> outboundTSMgr t = Some arb -> mgr_ok arb ->
  let h := with_traffic (foldl server_step (serving cfg flt mgr) evs) t in
  let h' := receive h data addr now rnd in
  (sv_sourced h' = sv_sourced h /\ to_packetHandler (sv_traffic h') = to_packetHandler (sv_traffic h)) \/
  exists packet q s k0 drained, Packet.Decode (take 1024 data) = (packet, true) /\
    rewrite_net (chains t) packet = Some q /\
    sv_sessions h !! k0 = Some s /\ is_ready s = true /\
    (k0 = addr_string addr \/ pi_DMRID (s_info s) = u32 (Repeater packet)) /\
    sv_sourced h' = sv_sourced h ++ [(pi_SourceKey (s_info s), q)] /\
    to_packetHandler (sv_traffic h') = to_packetHandler (sv_traffic h) ++ drained /\
    (drained <> [] -> is_terminator q = true) /\
    forall slot sid, of_stream slot sid drained `prefix_of` waiting arb slot sid.
Proof.
  intros Hp Ho Ha. cbn zeta. destruct (server_run_ok _ evs (serving_ok cfg flt mgr)) as [Hm _].
  pose proof (server_run_source cfg flt mgr evs) as Hs.
  set (h0 := foldl server_step (serving cfg flt mgr) evs) in *. clearbody h0.
  set (h := with_traffic h0 t). assert (Hm1 : sessions_ok h) by exact Hm. unfold receive. set (d := take 1024 data).
  destruct (dmrd_or_silent h d addr now rnd) as [[Ed ->] | [-> ->]]; [| by left].
  destruct (Packet.Decode d) as [packet [|]] eqn:Edec; [| left; unfold handleDMRD; by rewrite Edec].
  destruct (handleDMRD_cases h d addr now packet Hm1 Edec) as (m' & [s |] & L & ->); cbv zeta; [| by left].
  assert (Hk : exists k0, sv_sessions h !! k0 = Some s /\ is_ready s = true /\
    (k0 = addr_string addr \/ pi_DMRID (s_info s) = u32 (Repeater packet))).
  { inversion L as [x Es Hr | x old _ _ Eo Hr Ei |]; [exists (addr_string addr) | exists old]; subst; auto. }
  clear L. destruct Hk as (k0 & Hk1 & Hk2 & Hk3). set (s' := touch_session s addr (pi_Online (s_info s)) now).
  set (h1 := emitPeer (with_sessions h (<[addr_string addr := s']> m')) (s_info s')).
  assert (Es1 : sv_sourced h1 = sv_sourced h) by (unfold h1, emitPeer; by destruct (sv_peerHandler _)).
  assert (Et1 : sv_traffic h1 = t) by (unfold h1; by rewrite (proj1 (proj2 (proj2 (emitPeer_fields _ _))))).
  assert (Eh1 : sv_sourceHandler h1 = true) by (unfold h1; by rewrite emitPeer_source).
  pose proof (outbound_from_hands h1 arb (pi_SourceKey (s_info s')) packet now) as O. cbv zeta in O. rewrite Et1, Es1 in O.
  destruct (O Eh1 Hp Ho Ha) as [O' | (q & drained & Eq & O1 & O2 & O3 & O4)]; [left; exact O' | right].
  by exists packet, q, s, k0, drained.
Qed.

End laws.
End server.

(** ** Witnesses *)

#[local] Existing Instances sample_dmrgo sample_order.
#[local] Instance sample_sessions : SessionOrder := {| sess_iter m := map_to_list m |}.
#[local] Instance sample_sessions_laws : SessionOrderLaws.
Proof. split. done. Qed.

Definition sample_server : MMDVM :=
  mkMMDVM "" "net" "" 1 0 0 0 0 0 0 0 "" "" "" 0 "" ":62031" "secret"
    (mkRuleConfigs [mkRewriteConfig 1 9 2 9 0] [] [] [] [1] [1]).
Definition hotspot : UDPAddr := mkAddr "192.0.2.7" 40000 "".
Definition hotspot_moved : UDPAddr := mkAddr "192.0.2.7" 40001 "".
Definition all_sources (_ : string) : bool := true.

(** A hotspot logs in with the challenge 1, sends its configuration and a frame. *)
Definition login_events : list server_event :=
  [Recv (str_bytes "RPTL" ++ put_be32 312000) hotspot 1000 (Some 1);
   Recv (str_bytes "RPTK" ++ put_be32 312000 ++ sha256 (put_be32 1 ++ str_bytes "secret")) hotspot 2000 None].
Definition config_event : server_event := Recv (rptc_message sample_config) hotspot 3000 None.
Definition sample_frame : list Z :=
  Packet.Encode (mkPacket DMRD 0 3120001 9 312000 true true 2 1 7 (replicate 33 0)).

Lemma sessions_sound_witness :
  exists s, sv_sessions (foldl server_step (serving sample_server all_sources NewManager) (login_events ++ [config_event]))
    !! addr_string hotspot = Some s /\
  s_state s = serverStateReady /\ pi_SourceKey (s_info s) = "mmdvm:net:312000".
Proof.
  assert (Ei : (fun s => (s_state s, pi_DMRID (s_info s))) <$> sv_sessions (foldl server_step (serving sample_server all_sources NewManager)
    (login_events ++ [config_event])) !! addr_string hotspot = Some (serverStateReady, 312000)) by (vm_compute; reflexivity).
  destruct (sv_sessions _ !! addr_string hotspot) as [s |] eqn:E; [| discriminate Ei].
  apply (inj Some) in Ei. assert (Es : s_state s = serverStateReady) by exact (f_equal fst Ei).
  assert (Ed : pi_DMRID (s_info s) = 312000) by exact (f_equal snd Ei).
  exists s. split; [reflexivity |]. split; [exact Es |].
  destruct (sessions_sound sample_server all_sources NewManager (login_events ++ [config_event]) (addr_string hotspot) s E)
    as (_ & _ & Hr). destruct (Hr Es) as (_ & _ & Hk & _). rewrite Ed in Hk. exact Hk.
Defined.

Lemma auth_sound_witness :
  exists data addr now rnd s0, List.nth 1 login_events TxOne = Recv data addr now rnd /\
  addr_string hotspot = addr_string addr /\
  sv_sessions (foldl server_step (serving sample_server all_sources NewManager) (take 1 login_events)) !! addr_string hotspot = Some s0 /\
  slice 8 40 (take 1024 data) = sha256 (s_challenge s0 ++ str_bytes "secret").
Proof.
  destruct (auth_sound sample_server all_sources NewManager (take 1 login_events) (List.nth 1 login_events TxOne)
    (addr_string hotspot) (mkSession hotspot serverStateAwaitConfig (put_be32 1) empty_info 0)) as [(s0 & E & Ea) | (data & addr & now & rnd & s0 & A & B & C & _ & D)].
  - vm_compute. reflexivity.
  - reflexivity.
  - exfalso. assert (E' : sv_sessions (foldl server_step (serving sample_server all_sources NewManager) (take 1 login_events)) !! addr_string hotspot =
      Some (mkSession hotspot serverStateSentChallenge (put_be32 1) empty_info 0)) by (vm_compute; reflexivity).
    rewrite E' in E. apply (inj Some) in E. subst s0. discriminate Ea.
  - exists data, addr, now, rnd, s0. exact (conj A (conj B (conj C D))).
Defined.

Lemma config_without_login_witness :
  exists s, sv_sessions (receive (serving sample_server all_sources NewManager) (rptc_message sample_config) hotspot 1000 None)
    !! addr_string hotspot = Some s /\ s_state s = serverStateReady /\ s_challenge s = [].
Proof. apply config_without_login; vm_compute; first [reflexivity | lia]. Defined.

Lemma watchdog_exact_witness :
  let h := foldl server_step (serving sample_server all_sources NewManager) (login_events ++ [config_event]) in
  sv_sessions (sessionWatchdog h (3000 + 181 * second)) !! addr_string hotspot = None.
Proof.
  cbv zeta. rewrite (proj1 (watchdog_exact (foldl server_step (serving sample_server all_sources NewManager) (login_events ++ [config_event])) _)).
  vm_compute. reflexivity.
Defined.

(** A call of another network waits on the slot of the hotspot's call; the
    terminator of the hotspot's call hands both on. *)
Definition sample_last : Packet := mkPacket DMRD 0 3120001 9 312000 true true 2 2 7 (replicate 33 0).
Definition sample_waiting : Packet := mkPacket DMRD 0 3120002 9 312001 false true 2 1 8 (replicate 33 0).
Definition busy_arbiter : PManager :=
  fst (Submit (fst (Submit NewManager false 7 "net" sample_last 3500)) false 8 "other" sample_waiting 3600).
Definition busy_traffic : Traffic := SetPacketHandler (SetOutboundTSManager (NewTraffic "net" (cfg_rules sample_server)) busy_arbiter).

Lemma busy_arbiter_ok : mgr_ok busy_arbiter.
Proof.
  assert (H1 : mgr_ok (fst (Submit NewManager false 7 "net" sample_last 3500))).
  { eapply (submit_ok NewManager (with_slot sample_last false) "net" 3500); [by apply new_mgr_ok | | reflexivity].
    intros ac Ha. discriminate Ha. }
  eapply (submit_ok _ sample_waiting "other" 3600); [exact H1 | | reflexivity].
  intros ac Ha _. injection Ha as <-. vm_compute. discriminate.
Qed.

Lemma traffic_attributed_witness :
  let h := with_traffic (foldl server_step (serving sample_server all_sources NewManager) (login_events ++ [config_event])) busy_traffic in
  let h' := receive h (Packet.Encode sample_last) hotspot_moved 4000 None in
  to_packetHandler (sv_traffic h') = [sample_waiting] /\
  exists s k0, sv_sessions h !! k0 = Some s /\ is_ready s = true /\
    sv_sourced h' = sv_sourced h ++ [(pi_SourceKey (s_info s), with_slot sample_last false)].
Proof.
  cbv zeta. split; [vm_compute; reflexivity |].
  destruct (traffic_attributed sample_server all_sources NewManager (login_events ++ [config_event]) busy_traffic busy_arbiter
    (Packet.Encode sample_last) hotspot_moved 4000 None eq_refl eq_refl busy_arbiter_ok)
    as [[_ E] | (packet & q & s & k0 & drained & E1 & E2 & E3 & E4 & _ & E5 & _)].
  - exfalso. apply (f_equal length) in E. vm_compute in E. discriminate E.
  - exists s, k0. split; [exact E3 |]. split; [exact E4 |]. rewrite E5.
    assert (Eq : q = with_slot sample_last false).
    { assert (Ep : packet = fst (Packet.Decode (take 1024 (Packet.Encode sample_last)))) by (by rewrite E1).
      rewrite Ep in E2. vm_compute in E2. injection E2 as <-. vm_compute. reflexivity. }
    rewrite Eq. reflexivity.
Defined.
