(* ===== verification/MmdvmLogin.v ===== *)
(** * The login of an MMDVM network
      (internal/mmdvm/client.go, internal/mmdvm/packets.go)

    The client sends its identifier, proves the password, sends its
    configuration and then keeps the connection alive with pings.  Its
    goroutines are the events of a step function: the handler of datagrams, the
    timers of the ping loop and of the handshake watchdog, the writer and the
    forwarder of voice.  [connTX] is an unbounded queue here; the source's
    channel blocks the sender beyond 16 entries. *)

From Stdlib Require Import QArith.
From S2P Require Import Prelude Packet Strings Net Rewrite Timeslot IpscFrame Translator MmdvmTraffic Text Rptc Sha256 MmdvmServer.
#[local] Open Scope Z_scope.

Inductive client_state := STATE_IDLE | STATE_SENT_LOGIN | STATE_SENT_AUTH | STATE_SENT_RPTC | STATE_READY | STATE_TIMEOUT.

#[export] Instance client_state_eq_dec : EqDecision client_state.
Proof. solve_decision. Defined.

(** What the status handler is told; the fields copied from the configuration
    are the configuration. *)
Record ClientStatus := mkStatus {
  st_SourceKey : string;
  st_Status : string;
  st_Online : bool;
  st_LastSeenAt : time;
  st_cfg : MMDVM
}.

(** [SourceKey] of managed_config.go *)
Definition client_source_key (cfg : MMDVM) : string :=
  let key := TrimSpace (str_bytes (SourceKey cfg)) in
  if decide (key = []) then "mmdvm-upstream:" +:+ bytes_str (TrimSpace (str_bytes (Name cfg))) else bytes_str key.

Section client.
Context `{Dmrgo} `{MapOrder}.

Record Client := mkClient {
  cl_cfg : MMDVM;
  cl_traffic : Traffic;
  cl_state : client_state;
  cl_connTX : list (list Z);
  cl_wire : list (list Z);
  cl_keepAlive : Z;
  cl_timeout : Z;
  cl_lastPing : time;
  cl_lastPingSent : time;
  cl_started : bool;
  cl_stopped : bool;
  cl_watchdog : bool;
  cl_pingers : nat;
  cl_statusHandler : bool;
  cl_statuses : list ClientStatus
}.

Definition with_cl_state (h : Client) st := mkClient (cl_cfg h) (cl_traffic h) st (cl_connTX h) (cl_wire h)
  (cl_keepAlive h) (cl_timeout h) (cl_lastPing h) (cl_lastPingSent h) (cl_started h) (cl_stopped h) (cl_watchdog h)
  (cl_pingers h) (cl_statusHandler h) (cl_statuses h).
Definition with_cl_traffic (h : Client) t := mkClient (cl_cfg h) t (cl_state h) (cl_connTX h) (cl_wire h)
  (cl_keepAlive h) (cl_timeout h) (cl_lastPing h) (cl_lastPingSent h) (cl_started h) (cl_stopped h) (cl_watchdog h)
  (cl_pingers h) (cl_statusHandler h) (cl_statuses h).
Definition with_conn (h : Client) q w := mkClient (cl_cfg h) (cl_traffic h) (cl_state h) q w
  (cl_keepAlive h) (cl_timeout h) (cl_lastPing h) (cl_lastPingSent h) (cl_started h) (cl_stopped h) (cl_watchdog h)
  (cl_pingers h) (cl_statusHandler h) (cl_statuses h).
Definition with_pings (h : Client) lastPing lastSent pingers := mkClient (cl_cfg h) (cl_traffic h) (cl_state h)
  (cl_connTX h) (cl_wire h) (cl_keepAlive h) (cl_timeout h) lastPing lastSent (cl_started h) (cl_stopped h)
  (cl_watchdog h) pingers (cl_statusHandler h) (cl_statuses h).
Definition with_running (h : Client) started stopped watchdog pingers := mkClient (cl_cfg h) (cl_traffic h) (cl_state h)
  (cl_connTX h) (cl_wire h) (cl_keepAlive h) (cl_timeout h) (cl_lastPing h) (cl_lastPingSent h) started stopped
  watchdog pingers (cl_statusHandler h) (cl_statuses h).
Definition with_statuses (h : Client) handler l := mkClient (cl_cfg h) (cl_traffic h) (cl_state h)
  (cl_connTX h) (cl_wire h) (cl_keepAlive h) (cl_timeout h) (cl_lastPing h) (cl_lastPingSent h) (cl_started h)
  (cl_stopped h) (cl_watchdog h) (cl_pingers h) handler l.

Definition NewMMDVMClient (cfg : MMDVM) : Client :=
  mkClient cfg (NewTraffic (Name cfg) (cfg_rules cfg)) STATE_IDLE [] [] (5 * second) (15 * second) 0 0
    false false false 0 false [].

Definition SetStatusHandler (h : Client) : Client := with_statuses h true (cl_statuses h).

Definition publishStatus (h : Client) (status : string) (online : bool) (now : time) : Client :=
  if cl_statusHandler h then
    with_statuses h true (cl_statuses h ++ [mkStatus (client_source_key (cl_cfg h)) status online now (cl_cfg h)])
  else h.

(** ** Messages *)

Definition queue (h : Client) (data : list Z) : Client := with_conn h (cl_connTX h ++ [data]) (cl_wire h).

Definition login_message (cfg : MMDVM) : list Z := str_bytes "RPTL" ++ put_be32 (ID cfg).
Definition auth_message (cfg : MMDVM) (random : list Z) : list Z :=
  str_bytes "RPTK" ++ put_be32 (ID cfg) ++ sha256 (random ++ str_bytes (Password cfg)).
Definition ping_message (cfg : MMDVM) : list Z := str_bytes "RPTPING" ++ put_be32 (ID cfg).
(** [sendRPTCLDirect]: the identifier in eight hexadecimal digits *)
Definition disconnect_message (cfg : MMDVM) : list Z := str_bytes "RPTCL" ++ str_bytes (hex_string (put_be32 (ID cfg))).

Definition sendLogin (h : Client) : Client := queue h (login_message (cl_cfg h)).
Definition sendRPTCL (h : Client) : Client := queue h (str_bytes "RPTCL" ++ put_be32 (ID (cl_cfg h))).
Definition sendRPTC (h : Client) : Client := queue h (rptc_message (cl_cfg h)).
Definition sendRPTK (h : Client) (random : list Z) : Client := queue h (auth_message (cl_cfg h) random).
Definition sendPing (h : Client) (now : time) : Client :=
  queue (with_pings h (cl_lastPing h) now (cl_pingers h)) (ping_message (cl_cfg h)).
(** The repeater field of voice is the client's own identifier. *)
Definition sendPacket (h : Client) (pkt : Packet) : Client :=
  queue h (Packet.Encode (mkPacket (Signature pkt) (Seq pkt) (Src pkt) (Dst pkt) (ID (cl_cfg h)) (Packet.Slot pkt)
    (GroupCall pkt) (FrameType pkt) (DTypeOrVSeq pkt) (StreamID pkt) (DMRData pkt))).

(** ** Connecting *)

(** [dial] says whether the new connection could be made. *)
Definition reconnect (h : Client) (dial : bool) (now : time) : Client :=
  let h := with_cl_state h STATE_TIMEOUT in
  let h := publishStatus h "reconnecting" false now in
  let h := if dial then h else publishStatus h "connect_failed" false now in
  sendLogin (with_cl_state h STATE_SENT_LOGIN).

Definition Start (h : Client) (dial : bool) (now : time) : Client * bool :=
  let h := with_cl_traffic h (with_translator (cl_traffic h) (SetPeerID (translator (cl_traffic h)) (ID (cl_cfg h)))
    (to_ipscHandler (cl_traffic h))) in
  let h := publishStatus h "connecting" false now in
  if negb dial then (h, false)
  else
    let h := with_running h true (cl_stopped h) true (cl_pingers h) in
    (sendLogin (with_cl_state h STATE_SENT_LOGIN), true).

Definition Stop (h : Client) (now : time) : Client :=
  if cl_stopped h then h
  else
    let h := publishStatus h "stopped" false now in
    let h := with_conn h (cl_connTX h) (cl_wire h ++ [disconnect_message (cl_cfg h)]) in
    with_running h false true false 0.

(** ** Datagrams *)

Definition last4 (data : list Z) : list Z := drop (length data - 4) data.

Definition handleSentLogin (h : Client) (data : list Z) (now : time) : Client :=
  if starts_with "RPTACK" data then
    if (length data <? 10)%nat then h
    else
      let h := publishStatus h "authenticating" false now in
      with_cl_state (sendRPTK h (last4 data)) STATE_SENT_AUTH
  else sendLogin h.

Definition handleSentAuth (h : Client) (data : list Z) (now : time) : Client :=
  if starts_with "RPTACK" data then
    sendRPTC (with_cl_state (publishStatus h "configuring" false now) STATE_SENT_RPTC)
  else if starts_with "RPTNAK" data then
    sendLogin (with_cl_state (publishStatus h "auth_failed" false now) STATE_SENT_LOGIN)
  else h.

(** The beginning of the [ping] goroutine. *)
Definition start_ping (h : Client) (now : time) : Client :=
  let h := sendPing h now in
  with_pings h now (cl_lastPingSent h) (S (cl_pingers h)).

Definition handleSentRPTC (h : Client) (data : list Z) (now : time) : Client :=
  if starts_with "RPTACK" data then
    start_ping (publishStatus (with_cl_state h STATE_READY) "online" true now) now
  else if starts_with "MSTNAK" data then sendRPTC h
  else h.

Definition handleReady (h : Client) (data : list Z) (now : time) : Client :=
  if starts_with "MSTP" data then
    if starts_with "MSTPONG" data then
      publishStatus (with_pings h now (cl_lastPingSent h) (cl_pingers h)) "online" true now
    else h
  else if starts_with "DMRD" data then
    match Packet.Decode data with
    | (packet, true) => with_cl_traffic h (handleOutboundPacket (cl_traffic h) packet now)
    | (_, false) => h
    end
  else h.

Definition handleState (h : Client) (data : list Z) (now : time) : Client :=
  match cl_state h with
  | STATE_IDLE | STATE_TIMEOUT => h
  | STATE_SENT_LOGIN => handleSentLogin h data now
  | STATE_SENT_AUTH => handleSentAuth h data now
  | STATE_SENT_RPTC => handleSentRPTC h data now
  | STATE_READY => handleReady h data now
  end.

(** [rx] reads at most 512 bytes of a datagram; [handler] ignores short ones. *)
Definition client_receive (h : Client) (datagram : list Z) (now : time) : Client :=
  let data := take 512 datagram in
  if (length data <? 4)%nat then h else handleState h data now.

(** ** Timers and queues *)

(** A tick of the [ping] loop. *)
Definition ping_tick (h : Client) (dial : bool) (now : time) : Client :=
  if now >? cl_lastPing h + cl_timeout h then
    let h := publishStatus h "timeout" false now in
    let h := reconnect h dial now in
    with_pings h (cl_lastPing h) (cl_lastPingSent h) (Nat.pred (cl_pingers h))
  else sendPing h now.

(** A tick of [handshakeWatchdog]. *)
Definition watchdog_tick (h : Client) (dial : bool) (now : time) : Client :=
  if decide (cl_state h = STATE_READY) then with_running h (cl_started h) (cl_stopped h) false (cl_pingers h)
  else reconnect (publishStatus h "handshake_timeout" false now) dial now.

Inductive write_result := WriteOK | WriteClosed | WriteError.

(** One datagram of [tx]: on a connection just closed it goes to the end of the queue. *)
Definition tx_write (h : Client) (r : write_result) : Client :=
  match cl_connTX h with
  | [] => h
  | data :: rest =>
      match r with
      | WriteOK => with_conn h rest (cl_wire h ++ [data])
      | WriteClosed => with_conn h (if (length rest <? 16)%nat then rest ++ [data] else rest) (cl_wire h)
      | WriteError => with_conn h rest (cl_wire h)
      end
  end.

(** One packet of [forwardTX]. *)
Definition forward_one (h : Client) : Client :=
  match tx_chan (cl_traffic h) with
  | [] => h
  | pkt :: rest => sendPacket (with_cl_traffic h (with_tx (cl_traffic h) rest (tx_room (cl_traffic h)))) pkt
  end.

Definition ClientHandleTranslatedPacket (h : Client) (pkt : Packet) (now : time) : Client * bool :=
  let '(t, ok) := HandleTranslatedPacket (cl_started h) (cl_traffic h) pkt now in (with_cl_traffic h t, ok).

Inductive client_event :=
| Datagram (data : list Z) (now : time)
| PingTick (dial : bool) (now : time)
| HandshakeTick (dial : bool) (now : time)
| Write (r : write_result)
| Forward
| ClientTranslated (pkt : Packet) (now : time)
| StopCall (now : time).

(** The goroutines run until [done] is closed; a timer only ticks while its
    goroutine is there. *)
Definition client_step (h : Client) (e : client_event) : Client :=
  if cl_stopped h then h
  else
    match e with
    | Datagram data now => client_receive h data now
    | PingTick dial now => if (cl_pingers h =? 0)%nat then h else ping_tick h dial now
    | HandshakeTick dial now => if cl_watchdog h then watchdog_tick h dial now else h
    | Write r => tx_write h r
    | Forward => forward_one h
    | ClientTranslated pkt now => fst (ClientHandleTranslatedPacket h pkt now)
    | StopCall now => Stop h now
    end.

End client.

(** ** The goroutines *)

Section goroutines.
Context `{Dmrgo} `{MapOrder}.

(** A connected client is in the middle of the login or ready, and exactly one
    ping loop runs when it is ready. *)
Record client_ok (h : Client) : Prop := {
  co_state : cl_state h <> STATE_IDLE /\ cl_state h <> STATE_TIMEOUT;
  co_ping : cl_pingers h = if cl_stopped h then O else if decide (cl_state h = STATE_READY) then 1%nat else O
}.

Lemma publish_fields h status online now :
  let h' := publishStatus h status online now in
  cl_cfg h' = cl_cfg h /\ cl_state h' = cl_state h /\ cl_stopped h' = cl_stopped h /\ cl_pingers h' = cl_pingers h /\
  cl_watchdog h' = cl_watchdog h /\ cl_connTX h' = cl_connTX h /\ cl_wire h' = cl_wire h /\
  cl_traffic h' = cl_traffic h /\ cl_statusHandler h' = cl_statusHandler h.
Proof. unfold publishStatus. by destruct (cl_statusHandler h) eqn:E; rewrite ?E. Qed.

Lemma publish_state h status online now : cl_state (publishStatus h status online now) = cl_state h.
Proof. apply publish_fields. Qed.
Lemma publish_stopped h status online now : cl_stopped (publishStatus h status online now) = cl_stopped h.
Proof. apply publish_fields. Qed.
Lemma publish_pingers h status online now : cl_pingers (publishStatus h status online now) = cl_pingers h.
Proof. apply publish_fields. Qed.
Lemma publish_cfg h status online now : cl_cfg (publishStatus h status online now) = cl_cfg h.
Proof. apply publish_fields. Qed.
Lemma publish_connTX h status online now : cl_connTX (publishStatus h status online now) = cl_connTX h.
Proof. apply publish_fields. Qed.
Lemma publish_watchdog h status online now : cl_watchdog (publishStatus h status online now) = cl_watchdog h.
Proof. apply publish_fields. Qed.
Hint Rewrite publish_watchdog publish_state publish_stopped publish_pingers publish_cfg publish_connTX : publish.

(** What a reconnect leaves. *)
Lemma reconnect_fields h dial now :
  let h' := reconnect h dial now in
  cl_cfg h' = cl_cfg h /\ cl_state h' = STATE_SENT_LOGIN /\ cl_stopped h' = cl_stopped h /\ cl_pingers h' = cl_pingers h /\
  cl_watchdog h' = cl_watchdog h /\ cl_connTX h' = cl_connTX h ++ [login_message (cl_cfg h)].
Proof.
  unfold reconnect. destruct dial; cbn; autorewrite with publish; by split_ands.
Qed.

(** The invariant only speaks of three fields. *)
Lemma client_ok_same h h' :
  client_ok h -> cl_state h' = cl_state h -> cl_stopped h' = cl_stopped h -> cl_pingers h' = cl_pingers h -> client_ok h'.
Proof. intros [Hs Hp] E1 E2 E3. split; by rewrite ?E1, ?E2, ?E3. Qed.

Ltac keep := by (eapply client_ok_same; [eassumption | unfold publishStatus; cbn; try case_match; done ..]).

(** A connected client that is not ready has no ping loop. *)
Lemma client_ok_login h h' :
  client_ok h -> cl_state h <> STATE_READY -> cl_state h' ∈ [STATE_SENT_LOGIN; STATE_SENT_AUTH; STATE_SENT_RPTC] ->
  cl_stopped h' = cl_stopped h -> cl_pingers h' = cl_pingers h -> client_ok h'.
Proof.
  intros [Hs Hp] Hr Hin E2 E3. rewrite (decide_False (P := cl_state h = STATE_READY)) in Hp by done.
  rewrite !elem_of_cons, elem_of_nil in Hin.
  split; [by destruct Hin as [-> | [-> | [-> | []]]] |]. rewrite E2, E3, Hp.
  destruct (cl_stopped h); [done |]. by destruct Hin as [-> | [-> | [-> | []]]].
Qed.

Ltac to_login E := eapply client_ok_login;
  [eassumption | by rewrite E | cbn; autorewrite with publish; cbn; rewrite ?E; set_solver |
   cbn; by autorewrite with publish | cbn; by autorewrite with publish].

Lemma receive_ok h data now : client_ok h -> cl_stopped h = false -> client_ok (client_receive h data now).
Proof.
  intros Hh Es. unfold client_receive. destruct (length _ <? 4)%nat; [done |].
  unfold handleState. destruct (cl_state h) eqn:E; try done.
  - unfold handleSentLogin. destruct (starts_with _ _); [| to_login E]. destruct (length _ <? 10)%nat; [done | to_login E].
  - unfold handleSentAuth. destruct (starts_with _ _); [to_login E |]. destruct (starts_with _ _); [to_login E | done].
  - unfold handleSentRPTC. destruct (starts_with _ _); [| destruct (starts_with _ _); [to_login E | done]].
    destruct Hh as [_ Hp]. rewrite Es, E in Hp. unfold start_ping, sendPing, queue.
    split; cbn; autorewrite with publish; cbn; [done |]. by rewrite Hp, Es.
  - unfold handleReady. repeat case_match; first [done | keep].
Qed.

Lemma client_step_ok h e : client_ok h -> client_ok (client_step h e).
Proof.
  intros Hh. unfold client_step. destruct (cl_stopped h) eqn:Es; [done |].
  destruct e as [data now | dial now | dial now | r | | pkt now | now].
  - by apply receive_ok.
  - destruct (cl_pingers h =? 0)%nat eqn:E0; [done |]. unfold ping_tick. destruct (_ >? _); [| keep].
    destruct Hh as [_ Hp]. rewrite Es in Hp. destruct (decide (cl_state h = STATE_READY)) as [Hr | Hr]; [| by rewrite Hp in E0].
    set (h0 := publishStatus h "timeout" false now). destruct (reconnect_fields h0 dial now) as (_ & R1 & R2 & R3 & _).
    split; cbn [cl_state cl_stopped cl_pingers with_pings]; rewrite ?R1, ?R2, ?R3; [done |]. unfold h0. autorewrite with publish. by rewrite Es, Hp.
  - destruct (cl_watchdog h); [| done]. unfold watchdog_tick. case_decide as Er; [keep |].
    set (h0 := publishStatus h "handshake_timeout" false now).
    destruct (reconnect_fields h0 dial now) as (_ & R1 & R2 & R3 & _).
    eapply client_ok_login; [exact Hh | done | rewrite R1; set_solver | rewrite R2; apply publish_stopped | rewrite R3; apply publish_pingers].
  - unfold tx_write. destruct (cl_connTX h); [done | destruct r; keep].
  - unfold forward_one. destruct (tx_chan (cl_traffic h)); [done | keep].
  - unfold ClientHandleTranslatedPacket. destruct (HandleTranslatedPacket _ _ _ _) as [t ok]. keep.
  - unfold Stop. rewrite Es. split; cbn; autorewrite with publish; [apply Hh | done].
Qed.

Lemma client_run_ok h evs : client_ok h -> client_ok (foldl client_step h evs).
Proof. intros Hh. apply foldl_inv; [done |]. intros. by apply client_step_ok. Qed.

Lemma start_ok h now : cl_stopped h = false -> cl_pingers h = O -> client_ok (fst (Start h true now)).
Proof. intros Es Ep. unfold Start, publishStatus. cbn. destruct (cl_statusHandler h); split; cbn; by rewrite ?Es. Qed.

(** The goroutines of a client keep in step.  After any history of
    datagrams, timer ticks and writes a started client is sending its login, its
    password, its configuration, or is ready, and never left in the time-out
    state; exactly one ping loop runs when it is ready and none otherwise. *)
Theorem client_goroutines cfg evs now :
  let h := foldl client_step (fst (Start (NewMMDVMClient cfg) true now)) evs in
  cl_state h <> STATE_IDLE /\ cl_state h <> STATE_TIMEOUT /\
  (cl_stopped h = false -> cl_pingers h = if decide (cl_state h = STATE_READY) then 1%nat else O).
Proof.
  cbn zeta. destruct (client_run_ok _ evs (start_ok (NewMMDVMClient cfg) now eq_refl eq_refl)) as [[H1 H2] H3].
  split; [done |]. split; [done |]. intros E. by rewrite E in H3.
Qed.

Definition is_timer (e : client_event) : Prop :=
  match e with PingTick _ _ | HandshakeTick _ _ => True | _ => False end.

(** After a ready connection is lost, the new login is not guarded.  The
    handshake watchdog ends at its first tick in the ready state; when the ping
    loop then times out it sends one login and ends too, and from there no timer
    does anything: if that login or its answer is lost, the client stays in the
    login until the master happens to send something. *)
Theorem lost_login_not_repeated h dial now ticks :
  client_ok h -> cl_stopped h = false -> cl_state h = STATE_READY -> cl_watchdog h = false ->
  cl_lastPing h + cl_timeout h < now -> Forall is_timer ticks ->
  let h' := client_step h (PingTick dial now) in
  cl_state h' = STATE_SENT_LOGIN /\ cl_connTX h' = cl_connTX h ++ [login_message (cl_cfg h)] /\
  foldl client_step h' ticks = h'.
Proof.
  intros [_ Hp] Es Er Hw Hn Hticks. rewrite Es, Er in Hp. cbn in Hp. cbn zeta.
  set (h0 := publishStatus h "timeout" false now).
  assert (Estep : client_step h (PingTick dial now) = with_pings (reconnect h0 dial now) (cl_lastPing (reconnect h0 dial now))
    (cl_lastPingSent (reconnect h0 dial now)) (Nat.pred (cl_pingers (reconnect h0 dial now)))).
  { unfold client_step. rewrite Es, Hp. cbn [Nat.eqb]. unfold ping_tick. by rewrite (proj2 (Z.gtb_lt _ _) Hn). }
  rewrite Estep. clear Estep.
  destruct (publish_fields h "timeout" false now) as (P0 & _ & P1 & P2 & P3 & P4 & _).
  destruct (reconnect_fields h0 dial now) as (_ & R1 & R2 & R3 & R4 & R5). fold h0 in P0, P1, P2, P3, P4.
  set (h1 := reconnect h0 dial now) in *. set (h2 := with_pings h1 _ _ _).
  split; [exact R1 |]. split; [change (cl_connTX h2) with (cl_connTX h1); by rewrite R5, P4, P0 |].
  assert (E2 : cl_stopped h2 = false /\ cl_pingers h2 = O /\ cl_watchdog h2 = false).
  { change (cl_stopped h1 = false /\ Nat.pred (cl_pingers h1) = O /\ cl_watchdog h1 = false).
    rewrite R2, R3, R4, P1, P2, P3, Hp. done. }
  clearbody h2. destruct E2 as (E1 & E2 & E3).
  induction Hticks as [| e ticks He Hticks IH]; [done |]. cbn [foldl].
  replace (client_step h2 e) with h2; [exact IH |]. unfold client_step. rewrite E1.
  destruct e; try done; by rewrite ?E2, ?E3.
Qed.

End goroutines.

(** ** Client and server together *)

Section login.
Context `{Dmrgo} `{MapOrder} `{SessionOrder} `{!SessionOrderLaws}.

(** The datagrams a step of the server sent to [addr]. *)
Definition replies (h h' : Server) (addr : UDPAddr) : list (list Z) :=
  (filter (fun d => fst d = addr) (drop (length (sv_wire h)) (sv_wire h'))).*2.

(** The next datagram of the client reaches the server, and its answers reach
    the client. *)
Definition exchange (addr : UDPAddr) (now : time) (rnd : option Z) (s : Client * Server) : Client * Server :=
  let '(c, h) := s in
  match cl_connTX c with
  | [] => s
  | data :: _ =>
      let c := client_step c (Write WriteOK) in
      let h' := receive h data addr now rnd in
      (foldl (fun c d => client_step c (Datagram d now)) c (replies h h' addr), h')
  end.

(** *** Messages on the wire *)

Lemma put_be32_length v : length (put_be32 v) = 4%nat.
Proof. done. Qed.

Lemma starts_with_app s l : starts_with s (str_bytes s ++ l) = true.
Proof.
  unfold starts_with. apply bool_decide_eq_true. replace (String.length s) with (length (str_bytes s)); [apply take_app_length |].
  unfold str_bytes, chars. rewrite length_fmap. induction s as [| c s IH]; [done |]. cbn. by rewrite IH.
Qed.

Lemma id_at_tag tag id l n : length tag = n -> is_u32 id -> id_at (tag ++ put_be32 id ++ l) n = id.
Proof.
  intros <- Hid. unfold id_at. etrans; [| exact (get_put_be32 id Hid)].
  assert (B : forall i, (i < 4)%nat -> (tag ++ put_be32 id ++ l).[length tag + i] = (put_be32 id).[i]).
  { intros i Hi. unfold byte_at. rewrite lookup_app_r by lia. replace (length tag + i - length tag)%nat with i by lia.
    by rewrite lookup_app_l by (rewrite put_be32_length; lia). }
  pose proof (B 0%nat ltac:(lia)) as B0. rewrite Nat.add_0_r in B0. rewrite B0, !B by lia. done.
Qed.

Lemma valid_tag tag id l n : length tag = n -> is_u32 id -> id <> 0 -> validID (tag ++ put_be32 id ++ l) n = true.
Proof.
  intros Hn Hid Hz. unfold validID. rewrite id_at_tag by done.
  rewrite (proj2 (Nat.ltb_ge _ _)) by (rewrite !length_app, put_be32_length; lia). by rewrite (proj2 (Z.eqb_neq _ _) Hz).
Qed.

Lemma replies_raw h h1 addr data : sv_wire h1 = sv_wire h -> replies h (sendRaw h1 addr data) addr = [data].
Proof.
  intros E. unfold replies, sendRaw. cbn [sv_wire with_wire]. rewrite E, drop_app_length.
  rewrite filter_cons_True, filter_nil by done. done.
Qed.

(** *** The steps of the server *)

Lemma server_login h cfg addr now r :
  is_u32 (ID cfg) -> ID cfg <> 0 ->
  let h' := receive h (login_message cfg) addr now (Some r) in
  replies h h' addr = [str_bytes "RPTACK" ++ put_be32 r] /\ sv_cfg h' = sv_cfg h /\
  exists s, sv_sessions h' !! addr_string addr = Some s /\ s_state s = serverStateSentChallenge /\ s_challenge s = put_be32 r.
Proof.
  intros Hid Hz. cbn zeta. unfold receive. assert (Hl : length (login_message cfg) = 8%nat) by reflexivity.
  rewrite take_ge by lia. unfold handlePacket. rewrite Hl. cbn [Nat.ltb Nat.leb]. unfold login_message.
  rewrite (starts_with_excl "RPTL" "RPTCL"), (starts_with_app "RPTL") by first [apply starts_with_app | done | cbn; lia].
  pose proof (valid_tag (str_bytes "RPTL") (ID cfg) [] 4 eq_refl Hid Hz) as Hv. rewrite app_nil_r in Hv.
  unfold handleLogin. rewrite Hv. cbn [negb beginHandshake].
  split; [by rewrite replies_raw |]. split; [done |]. eexists. cbn. rewrite lookup_insert_eq. done.
Qed.

Lemma auth_receive h cfg random addr now rnd :
  receive h (auth_message cfg random) addr now rnd = handleAuth h (auth_message cfg random) addr.
Proof.
  unfold receive. assert (Hl : length (auth_message cfg random) = 40%nat).
  { unfold auth_message. by rewrite !length_app, put_be32_length, sha256_length. }
  rewrite take_ge by lia. unfold handlePacket. rewrite Hl. cbn [Nat.ltb Nat.leb]. unfold auth_message.
  by rewrite (starts_with_excl "RPTK" "RPTCL"), (starts_with_excl "RPTK" "RPTL"), (starts_with_app "RPTK")
    by first [apply starts_with_app | done | cbn; lia].
Qed.

Lemma server_auth h cfg random addr now rnd s :
  is_u32 (ID cfg) -> ID cfg <> 0 -> sv_sessions h !! addr_string addr = Some s ->
  s_state s = serverStateSentChallenge -> s_challenge s = random ->
  let ok := bool_decide (sha256 (random ++ str_bytes (Password cfg)) = sha256 (random ++ str_bytes (Password (sv_cfg h)))) in
  let h' := receive h (auth_message cfg random) addr now rnd in
  replies h h' addr = [if ok then rptAck else rptNak] /\ sv_cfg h' = sv_cfg h /\
  sv_sessions h' = if ok then <[addr_string addr := with_state (with_addr s addr) serverStateAwaitConfig]> (sv_sessions h)
    else sv_sessions h.
Proof.
  intros Hid Hz Es Est Ech. cbn zeta.
  assert (Hl : length (auth_message cfg random) = 40%nat).
  { unfold auth_message. by rewrite !length_app, put_be32_length, sha256_length. }
  assert (Hv : validID (auth_message cfg random) 4 = true) by (by apply valid_tag).
  assert (Et : slice 8 40 (auth_message cfg random) = sha256 (random ++ str_bytes (Password cfg))).
  { unfold slice, auth_message. rewrite app_assoc. change 8%nat with (length (str_bytes "RPTK" ++ put_be32 (ID cfg))).
    rewrite drop_app_length. apply take_ge. by rewrite sha256_length. }
  rewrite auth_receive. unfold handleAuth. rewrite Hl, Hv, Es, Est, Et, Ech. cbn [Nat.ltb Nat.leb negb orb].
  rewrite bool_decide_true by done. cbn [negb]. unfold auth_token, getOrCreateSession. rewrite Es.
  destruct (bool_decide _); cbn [negb]; (split; [by apply replies_raw | done]).
Qed.

Lemma rptc_tag cfg : exists rest, rptc_message cfg = str_bytes "RPTC" ++ put_be32 (ID cfg) ++ rest.
Proof. eexists. reflexivity. Qed.

(** The identifier does not begin with the byte of the letter L, which would
    make the configuration look like a disconnect. *)
Definition id_not_L (id : Z) : Prop := Z.shiftr id 24 <> 76.

Lemma rptc_not_disconnect id rest : is_u32 id -> id_not_L id -> starts_with "RPTCL" (str_bytes "RPTC" ++ put_be32 id ++ rest) = false.
Proof.
  intros Hid HL. apply bool_decide_eq_false. intros E. apply HL.
  rewrite <- (u8_id (Z.shiftr id 24)); [exact (f_equal (fun l => nth 4 l 0) E) |].
  unfold is_byte, is_u32 in *. rewrite Z.shiftr_div_pow2 by lia. Z.to_euclidean_division_equations. lia.
Qed.

Lemma same_config_named cfg i listener key ip port online seen :
  same_config cfg i -> same_config cfg (info_at (info_named i listener key) ip port online seen).
Proof. by destruct i. Qed.

Lemma server_config h cfg addr now rnd :
  rptc_fits cfg -> ID cfg <> 0 -> id_not_L (ID cfg) ->
  let h' := receive h (rptc_message cfg) addr now rnd in
  replies h h' addr = [rptAck] /\
  exists s, sv_sessions h' !! addr_string addr = Some s /\ s_state s = serverStateReady /\ same_config cfg (s_info s) /\
    pi_SourceKey (s_info s) = "mmdvm:" +:+ Name (sv_cfg h) +:+ ":" +:+ pretty (ID cfg).
Proof.
  intros Hf Hz HL. cbn zeta. pose proof (rptc_length cfg Hf) as Hl. pose proof (fit_ID _ Hf) as Hid.
  pose proof (rptc_same_config cfg Hf) as Hsame. destruct (rptc_tag cfg) as [rest Er].
  assert (Hv : validID (rptc_message cfg) 4 = true) by (rewrite Er; by apply valid_tag).
  assert (Et : receive h (rptc_message cfg) addr now rnd = handleConfig h (rptc_message cfg) addr now).
  { unfold receive. rewrite take_ge by lia. unfold handlePacket. rewrite Hl. cbn [Nat.ltb Nat.leb]. rewrite Er.
    by rewrite rptc_not_disconnect, (starts_with_excl "RPTC" "RPTL"), (starts_with_excl "RPTC" "RPTK"), (starts_with_app "RPTC")
      by first [apply starts_with_app | done | cbn; lia]. }
  rewrite Et. unfold handleConfig. rewrite Hl, Hv. cbn [Nat.ltb Nat.leb negb orb].
  split; [by apply replies_raw; rewrite (proj1 (proj2 (proj2 (proj2 (emitPeer_fields _ _))))) |].
  eexists. unfold sendACK, sendRaw. cbn [sv_sessions with_wire]. rewrite emitPeer_sessions. cbn [sv_sessions with_sessions].
  rewrite lookup_insert_eq. split; [exact eq_refl |]. split; [exact eq_refl |]. cbn [s_info]. unfold config_info.
  split; [by apply same_config_named |]. cbn [info_at info_named pi_SourceKey].
  rewrite (proj1 Hsame). unfold source_key. by rewrite (proj2 (Z.eqb_neq _ _) Hz).
Qed.

(** *** The steps of the client *)

Definition client_at (c : Client) (cfg : MMDVM) (st : client_state) (q : list (list Z)) : Prop :=
  cl_cfg c = cfg /\ cl_state c = st /\ cl_connTX c = q /\ cl_stopped c = false.

Lemma client_write c cfg st data q : client_at c cfg st (data :: q) -> client_at (client_step c (Write WriteOK)) cfg st q.
Proof. intros (E1 & E2 & E3 & E4). unfold client_step. rewrite E4. unfold tx_write. rewrite E3. by split_ands. Qed.

Lemma client_challenge c cfg r now :
  client_at c cfg STATE_SENT_LOGIN [] ->
  client_at (client_step c (Datagram (str_bytes "RPTACK" ++ put_be32 r) now)) cfg STATE_SENT_AUTH [auth_message cfg (put_be32 r)].
Proof.
  intros (E1 & E2 & E3 & E4). unfold client_step, client_receive. rewrite E4. rewrite take_ge by (cbn; lia).
  change (length (str_bytes "RPTACK" ++ put_be32 r)) with 10%nat. cbn [Nat.ltb Nat.leb].
  unfold handleState. rewrite E2. unfold handleSentLogin. rewrite starts_with_app.
  change (length (str_bytes "RPTACK" ++ put_be32 r)) with 10%nat. cbn [Nat.ltb Nat.leb].
  unfold client_at, sendRPTK, queue. cbn [cl_cfg cl_state cl_connTX cl_stopped with_cl_state with_conn].
  rewrite publish_connTX, publish_cfg, publish_stopped, E1, E3. by split_ands.
Qed.

(** The answers without contents. *)
Lemma client_plain_receive c cfg st data now :
  client_at c cfg st [] -> data = rptAck \/ data = rptNak -> client_step c (Datagram data now) = handleState c data now.
Proof. intros (_ & _ & _ & E4) Hd. unfold client_step. rewrite E4. by destruct Hd as [-> | ->]. Qed.

Lemma client_auth_ack c cfg now :
  client_at c cfg STATE_SENT_AUTH [] ->
  client_at (client_step c (Datagram rptAck now)) cfg STATE_SENT_RPTC [rptc_message cfg].
Proof.
  intros Hc. rewrite (client_plain_receive _ _ _ _ _ Hc) by by left. destruct Hc as (E1 & E2 & E3 & E4).
  unfold handleState. rewrite E2. change (handleSentAuth c rptAck now) with
    (sendRPTC (with_cl_state (publishStatus c "configuring" false now) STATE_SENT_RPTC)).
  unfold client_at, sendRPTC, queue. cbn [cl_cfg cl_state cl_connTX cl_stopped with_cl_state with_conn].
  rewrite publish_connTX, publish_cfg, publish_stopped, E1, E3. by split_ands.
Qed.

Lemma client_auth_nak c cfg now :
  client_at c cfg STATE_SENT_AUTH [] ->
  client_at (client_step c (Datagram rptNak now)) cfg STATE_SENT_LOGIN [login_message cfg].
Proof.
  intros Hc. rewrite (client_plain_receive _ _ _ _ _ Hc) by by right. destruct Hc as (E1 & E2 & E3 & E4).
  unfold handleState. rewrite E2. change (handleSentAuth c rptNak now) with
    (sendLogin (with_cl_state (publishStatus c "auth_failed" false now) STATE_SENT_LOGIN)).
  unfold client_at, sendLogin, queue. cbn [cl_cfg cl_state cl_connTX cl_stopped with_cl_state with_conn].
  rewrite publish_connTX, publish_cfg, publish_stopped, E1, E3. by split_ands.
Qed.

Lemma client_config_ack c cfg now :
  client_at c cfg STATE_SENT_RPTC [] ->
  client_at (client_step c (Datagram rptAck now)) cfg STATE_READY [ping_message cfg].
Proof.
  intros Hc. rewrite (client_plain_receive _ _ _ _ _ Hc) by by left. destruct Hc as (E1 & E2 & E3 & E4).
  unfold handleState. rewrite E2. change (handleSentRPTC c rptAck now) with
    (start_ping (publishStatus (with_cl_state c STATE_READY) "online" true now) now).
  unfold client_at, start_ping, sendPing, queue. cbn [cl_cfg cl_state cl_connTX cl_stopped with_pings with_conn].
  rewrite publish_connTX, publish_cfg, publish_stopped, publish_state. cbn. rewrite E1, E3. by split_ands.
Qed.

Lemma client_started cfg now : client_at (fst (Start (NewMMDVMClient cfg) true now)) cfg STATE_SENT_LOGIN [login_message cfg].
Proof. done. Qed.

(** One exchange, by its parts. *)
Lemma exchange_one c cfg st data h addr now rnd answer :
  client_at c cfg st [data] -> replies h (receive h data addr now rnd) addr = [answer] ->
  exchange addr now rnd (c, h) =
    (client_step (client_step c (Write WriteOK)) (Datagram answer now), receive h data addr now rnd).
Proof. intros (_ & _ & E & _) Er. unfold exchange. rewrite E, Er. done. Qed.

Lemma login_first cfg h addr now r :
  is_u32 (ID cfg) -> ID cfg <> 0 ->
  let '(c', h') := exchange addr now (Some r) (fst (Start (NewMMDVMClient cfg) true now), h) in
  client_at c' cfg STATE_SENT_AUTH [auth_message cfg (put_be32 r)] /\ sv_cfg h' = sv_cfg h /\
  exists s, sv_sessions h' !! addr_string addr = Some s /\ s_state s = serverStateSentChallenge /\ s_challenge s = put_be32 r.
Proof.
  intros Hid Hz. destruct (server_login h cfg addr now r Hid Hz) as (Er & Ec & Hs).
  rewrite (exchange_one _ _ _ _ _ _ _ _ _ (client_started cfg now) Er). split; [| by split].
  by apply client_challenge, (client_write _ _ _ (login_message cfg)), client_started.
Qed.

(** C6: The login completes.  Whatever sessions the server has, a client that
    starts with the server's password, an identifier other than zero that does
    not begin with the byte of the letter L, and a configuration that fits its
    fields is ready after three exchanges, and the server has a ready session
    with the client's configuration under its address. *)
Theorem login_completes cfg h addr now r :
  rptc_fits cfg -> ID cfg <> 0 -> id_not_L (ID cfg) -> Password cfg = Password (sv_cfg h) ->
  let '(c', h') := exchange addr now None (exchange addr now None (exchange addr now (Some r)
    (fst (Start (NewMMDVMClient cfg) true now), h))) in
  cl_state c' = STATE_READY /\
  exists s, sv_sessions h' !! addr_string addr = Some s /\ s_state s = serverStateReady /\ same_config cfg (s_info s) /\
    pi_SourceKey (s_info s) = "mmdvm:" +:+ Name (sv_cfg h) +:+ ":" +:+ pretty (ID cfg).
Proof.
  intros Hf Hz HL Hpw. pose proof (fit_ID _ Hf) as Hid. pose proof (login_first cfg h addr now r Hid Hz) as L.
  destruct (exchange addr now (Some r) _) as [c1 h1]. destruct L as (A1 & Ec1 & s & Es & Est & Ech).
  destruct (server_auth h1 cfg (put_be32 r) addr now None s Hid Hz Es Est Ech) as (Er & Ec2 & _).
  rewrite Ec1, Hpw, bool_decide_true in Er by done.
  rewrite (exchange_one _ _ _ _ _ _ _ _ _ A1 Er). set (h2 := receive h1 _ addr now None) in *.
  assert (A2 := client_auth_ack _ _ now (client_write _ _ _ _ _ A1)).
  destruct (server_config h2 cfg addr now None Hf Hz HL) as (Er3 & Hs).
  rewrite (exchange_one _ _ _ _ _ _ _ _ _ A2 Er3). assert (A3 := client_config_ack _ _ now (client_write _ _ _ _ _ A2)).
  split; [apply A3 |]. rewrite Ec2, Ec1 in Hs. exact Hs.
Qed.

(** A wrong password is refused.  When the two passwords give different
    hashes for the challenge, the client is back in the login after two
    exchanges and has queued a new one, and the server's session still waits for
    the right answer. *)
Theorem wrong_password_refused cfg h addr now r :
  is_u32 (ID cfg) -> ID cfg <> 0 ->
  sha256 (put_be32 r ++ str_bytes (Password cfg)) <> sha256 (put_be32 r ++ str_bytes (Password (sv_cfg h))) ->
  let '(c', h') := exchange addr now None (exchange addr now (Some r) (fst (Start (NewMMDVMClient cfg) true now), h)) in
  cl_state c' = STATE_SENT_LOGIN /\ cl_connTX c' = [login_message cfg] /\
  exists s, sv_sessions h' !! addr_string addr = Some s /\ s_state s = serverStateSentChallenge.
Proof.
  intros Hid Hz Hpw. pose proof (login_first cfg h addr now r Hid Hz) as L.
  destruct (exchange addr now (Some r) _) as [c1 h1]. destruct L as (A1 & Ec1 & s & Es & Est & Ech).
  destruct (server_auth h1 cfg (put_be32 r) addr now None s Hid Hz Es Est Ech) as (Er & Ec2 & Em).
  rewrite Ec1, bool_decide_false in Er, Em by done.
  rewrite (exchange_one _ _ _ _ _ _ _ _ _ A1 Er). assert (A2 := client_auth_nak _ _ now (client_write _ _ _ _ _ A1)).
  split; [apply A2 |]. split; [apply A2 |]. exists s. by rewrite Em.
Qed.

Lemma hex_digit_ascii d : 48 <= Z.of_N (Ascii.N_of_ascii (hex_digit d)) < 256.
Proof.
  pose proof (Ascii.N_ascii_bounded (hex_digit d)). split; [| lia]. clear. unfold hex_digit.
  destruct (Z.to_nat d) as [| n]; [done |]. do 16 (destruct n as [| n]; [done |]). by destruct n.
Qed.

Lemma disconnect_valid cfg : validID (disconnect_message cfg) 5 = true.
Proof.
  unfold validID. change (length (disconnect_message cfg)) with 13%nat. cbn [Nat.ltb Nat.leb].
  set (v := id_at _ 5). assert (v <> 0); [| by rewrite (proj2 (Z.eqb_neq v 0))]. unfold v, id_at, disconnect_message, put_be32.
  set (x0 := u8 (Z.shiftr (ID cfg) 24)). set (x1 := u8 (Z.shiftr (ID cfg) 16)).
  pose proof (hex_digit_ascii (Z.shiftr x0 4)). pose proof (hex_digit_ascii (Z.land x0 0xF)).
  pose proof (hex_digit_ascii (Z.shiftr x1 4)). pose proof (hex_digit_ascii (Z.land x1 0xF)).
  change (get_be32 (Z.of_N (Ascii.N_of_ascii (hex_digit (Z.shiftr x0 4)))) (Z.of_N (Ascii.N_of_ascii (hex_digit (Z.land x0 0xF))))
    (Z.of_N (Ascii.N_of_ascii (hex_digit (Z.shiftr x1 4)))) (Z.of_N (Ascii.N_of_ascii (hex_digit (Z.land x1 0xF)))) <> 0).
  rewrite get_be32_add by (unfold is_byte; lia). lia.
Qed.

(** Stopping a client ends its session: the last datagram it writes takes
    its session off the server, and no other. *)
Theorem stop_ends_session c h addr now now' rnd :
  cl_stopped c = false ->
  let data := default [] (last (cl_wire (Stop c now))) in
  let h' := receive h data addr now' rnd in
  sv_sessions h' = delete (addr_string addr) (sv_sessions h).
Proof.
  intros Es. cbn zeta. unfold Stop. rewrite Es. cbn [cl_wire with_running with_conn]. rewrite last_snoc. cbn [default from_option id].
  set (cfg := cl_cfg _). clearbody cfg. unfold receive. change (length (disconnect_message cfg)) with 13%nat.
  rewrite take_ge by (change (length (disconnect_message cfg)) with 13%nat; lia).
  unfold handlePacket. change (length (disconnect_message cfg)) with 13%nat. cbn [Nat.ltb Nat.leb].
  unfold disconnect_message at 1. rewrite (starts_with_app "RPTCL"). unfold handleDisconnect.
  change (length (disconnect_message cfg)) with 13%nat. cbn [Nat.ltb Nat.leb orb]. rewrite disconnect_valid. cbn [negb].
  unfold setOffline. destruct (sv_sessions h !! addr_string addr) eqn:E; [by rewrite emitPeer_sessions | by rewrite delete_id].
Qed.

End login.

(** ** Witnesses *)

#[local] Existing Instances sample_dmrgo sample_order sample_sessions sample_sessions_laws.

Definition ack_with_challenge : list Z := str_bytes "RPTACK" ++ put_be32 1.
(** The login, its answers, the first tick of the handshake watchdog. *)
Definition ready_history : list client_event :=
  [Datagram ack_with_challenge 1; Datagram rptAck 2; Datagram rptAck 3; HandshakeTick true (15 * second)].

Lemma lost_login_not_repeated_witness :
  let h := foldl client_step (fst (Start (NewMMDVMClient sample_config) true 0)) ready_history in
  let h' := client_step h (PingTick true (20 * second)) in
  cl_state h' = STATE_SENT_LOGIN /\ cl_connTX h' = cl_connTX h ++ [login_message (cl_cfg h)] /\
  foldl client_step h' [PingTick true (25 * second); HandshakeTick true (40 * second)] = h'.
Proof.
  cbv zeta. apply lost_login_not_repeated.
  - apply client_run_ok, start_ok; reflexivity.
  - vm_compute. reflexivity.
  - vm_compute. reflexivity.
  - vm_compute. reflexivity.
  - vm_compute. reflexivity.
  - repeat apply Forall_cons_2; try exact I. apply Forall_nil_2.
Defined.

Lemma login_completes_witness :
  rptc_fits sample_config /\ Password sample_config = Password sample_server /\
  let '(c', _) := exchange hotspot 9 None (exchange hotspot 9 None (exchange hotspot 9 (Some 1)
    (fst (Start (NewMMDVMClient sample_config) true 9), serving sample_server all_sources NewManager))) in
  cl_state c' = STATE_READY.
Proof.
  split; [exact sample_config_fits |]. split; [reflexivity |].
  pose proof (login_completes sample_config (serving sample_server all_sources NewManager) hotspot 9 1 sample_config_fits
    ltac:(vm_compute; discriminate) ltac:(vm_compute; discriminate) eq_refl) as L.
  destruct (exchange hotspot 9 None _) as [c' h']. exact (proj1 L).
Defined.

Definition other_password : MMDVM :=
  mkMMDVM "" "net" "N0CALL" 312000 438800000 431200000 1 1 0 0 0 "" "" "" 0 "" "" "wrong" (mkRuleConfigs [] [] [] [] [] []).

Lemma wrong_password_refused_witness :
  let '(c', _) := exchange hotspot 9 None (exchange hotspot 9 (Some 1)
    (fst (Start (NewMMDVMClient other_password) true 9), serving sample_server all_sources NewManager)) in
  cl_state c' = STATE_SENT_LOGIN.
Proof.
  pose proof (wrong_password_refused other_password (serving sample_server all_sources NewManager) hotspot 9 1
    ltac:(vm_compute; intuition discriminate) ltac:(vm_compute; discriminate) ltac:(vm_compute; discriminate)) as L.
  destruct (exchange hotspot 9 None _) as [c' h']. exact (proj1 L).
Defined.

Lemma stop_ends_session_witness :
  let c := fst (Start (NewMMDVMClient sample_config) true 0) in
  let h := foldl server_step (serving sample_server all_sources NewManager) (login_events ++ [config_event]) in
  sv_sessions (receive h (default [] (last (cl_wire (Stop c 5)))) hotspot 5 None) !! addr_string hotspot = None.
Proof.
  cbv zeta. rewrite (stop_ends_session (fst (Start (NewMMDVMClient sample_config) true 0)) _ hotspot 5 5 None eq_refl).
  apply lookup_delete_eq.
Defined.
