(* ===== verification/Ingress.v ===== *)
(** * The way of a packet through the program (cmd/root.go)

    [handleIngress] takes every packet from a repeater, a hotspot or a link: it
    passes the guard, is remembered for private calls, and is routed to the
    subscribed devices ([routeGroupCall]) or, as a private call, to the device
    its destination was heard on or to all frontends ([legacyForward]).
    [sendToTarget] hands it to the frontend named by the prefix of the device
    key.  The frontends themselves are an interface, [Frontends]: what each is
    asked to send, and whether it did. *)

From Stdlib Require Import Ascii.
From S2P Require Import Prelude Packet Strings Rewrite Guard Routing PrivateRoute IpscFrame Translator Text.
#[local] Open Scope Z_scope.

(** The frontends, with a state [K] of their own. *)
Class Frontends (K : Type) := {
  forwardAllowed : K -> string -> bool;
  (** whether the server was started; fixed from then on *)
  ipscServer_on : bool;
  SendUserPacketToPeer : K -> Z -> list Z -> K * bool;
  SendUserPacket : K -> list Z -> K;
  hyteraServer_on : bool;
  (** the flag selects [SendPacketFromMotoTo] and [SendPacketFromMoto] *)
  hytera_SendPacketTo : K -> bool -> Packet -> string -> K * bool;
  hytera_SendPacket : K -> bool -> Packet -> K;
  upstream_HandleTranslatedPacket : K -> string -> Packet -> time -> option (K * bool);
  mmdvmServers : K -> nat;
  server_SendPacketToPeer : K -> nat -> Packet -> string -> K * bool;
  mmdvmNetworks : K -> nat;
  (** the network is a server, or forwarding to its source key is allowed *)
  network_allowed : K -> nat -> bool;
  network_MatchesPacket : K -> nat -> Packet -> bool -> bool;
  network_HandleTranslatedPacket : K -> nat -> Packet -> time -> K * bool;
  nrl_HandleDMRPacket : K -> string -> Packet -> K * bool;
  (** the audio pool and the call records *)
  observe : K -> string -> string -> Packet -> time -> K
}.

(** What follows the last colon. *)
Definition after_last_colon (s : string) : option string :=
  let fix go (l : list Z) (found : option (list Z)) :=
    match l with
    | [] => found
    | c :: l => go l (if c =? 58 then Some l else found)
    end in
  bytes_str <$> go (str_bytes s) None.

Definition motoSourceKey (source : string) (addr : option string) : string :=
  let rest :=
    match addr with
    | Some ip => "moto:" +:+ ip
    | None => "moto:" +:+ source
    end in
  match after_last_colon source with
  | Some suffix => match ParseUint32 suffix with Some _ => "moto:" +:+ suffix | None => rest end
  | None => rest
  end.

Definition hyteraSourceKey (addr : option string) : string :=
  match addr with
  | None => "hytera:unknown"
  | Some ip => "hytera:" +:+ ip
  end.

Definition legacyMMDVMSourceKey (name : string) : string := "mmdvm-upstream:" +:+ bytes_str (TrimSpace (str_bytes name)).

(** [known]: the registry has the device; [upstreamKeys]: the source keys of
    the networks that are clients, by name. *)
Definition mmdvmSourceKey (known : string -> bool) (upstreamKeys : gmap string string) (networkName : string) (pkt : Packet) : string :=
  let key := "mmdvm:" +:+ networkName +:+ ":" +:+ pretty (Repeater pkt) in
  if negb (Repeater pkt =? 0) && known key then key
  else
    let sourceKey := default "" (upstreamKeys !! networkName) in
    if bool_decide (sourceKey = "") then "mmdvm-upstream:" +:+ networkName else sourceKey.

(** ** Routes *)

Definition rank (order : list string) (deviceKey : string) : Z :=
  match list_find (fun p => has_prefix p deviceKey = true) order with
  | Some (i, _) => Z.of_nat i
  | None => 10
  end.

Definition routeTargetPriority (sourceFrontend deviceKey : string) : Z :=
  if decide (sourceFrontend = "moto") then
    rank ["nrl-virtual:"; "hytera:"; "mmdvm:"; "mmdvm-upstream:"; "moto:"] deviceKey
  else if decide (sourceFrontend = "hytera") then
    rank ["nrl-virtual:"; "moto:"; "mmdvm:"; "mmdvm-upstream:"; "hytera:"] deviceKey
  else if decide (sourceFrontend = "mmdvm") then
    rank ["nrl-virtual:"; "moto:"; "hytera:"; "mmdvm:"; "mmdvm-upstream:"] deviceKey
  else if decide (sourceFrontend = "nrl") then
    rank ["moto:"; "hytera:"; "mmdvm:"; "mmdvm-upstream:"; "nrl-virtual:"] deviceKey
  else 10.

(** Priority first, then device key and slot. *)
Definition target_le (frontend : string) (a b : TargetRoute) : Prop :=
  let pa := routeTargetPriority frontend (DeviceKey a) in
  let pb := routeTargetPriority frontend (DeviceKey b) in
  pa < pb \/ (pa = pb /\ route_le a b).

#[export] Instance target_le_dec frontend : RelDecision (target_le frontend).
Proof. unfold target_le. intros a b. apply _. Defined.

Definition sortRouteTargets (frontend : string) (targets : list TargetRoute) : list TargetRoute :=
  merge_sort (target_le frontend) targets.

(** The packet on the slot of the target, and whether that is another slot. *)
Definition packetForTargetSlot (pkt : Packet) (targetSlot : Z) : Packet * bool :=
  let wantSlot2 := targetSlot =? Slot2 in
  (with_slot pkt wantSlot2, negb (Bool.eqb (Slot pkt) wantSlot2)).

Definition shouldActivateDynamicGroup (pkt : Packet) : bool :=
  if negb (GroupCall pkt) || (Dst pkt =? 0) then false else (FrameType pkt =? 2) && (DTypeOrVSeq pkt =? 1).

Definition slotFromPacket (pkt : Packet) : Z := if Slot pkt then Slot2 else Slot1.

Section ingress.
Context `{Dmrgo} `{MapOrder} {K : Type} `{Frontends K}.

(** [ap_offered] records the calls of [sendToTarget]. *)
Record App := mkApp {
  ap_guard : Guard;
  ap_private : option recentPrivateRouteCache;
  ap_group : SubscriptionManager;
  ap_routeTranslators : gmap string IPSCTranslator;
  ap_motoTranslators : gmap string IPSCTranslator;
  ap_bridgeID : Z;
  ap_frontends : K;
  ap_offered : list (string * Packet)
}.

Definition with_guard (a : App) g := mkApp g (ap_private a) (ap_group a) (ap_routeTranslators a) (ap_motoTranslators a)
  (ap_bridgeID a) (ap_frontends a) (ap_offered a).
Definition with_private (a : App) c := mkApp (ap_guard a) c (ap_group a) (ap_routeTranslators a) (ap_motoTranslators a)
  (ap_bridgeID a) (ap_frontends a) (ap_offered a).
Definition with_routing (a : App) m := mkApp (ap_guard a) (ap_private a) m (ap_routeTranslators a) (ap_motoTranslators a)
  (ap_bridgeID a) (ap_frontends a) (ap_offered a).
Definition with_routeTr (a : App) tr := mkApp (ap_guard a) (ap_private a) (ap_group a) tr (ap_motoTranslators a)
  (ap_bridgeID a) (ap_frontends a) (ap_offered a).
Definition with_motoTr (a : App) tr := mkApp (ap_guard a) (ap_private a) (ap_group a) (ap_routeTranslators a) tr
  (ap_bridgeID a) (ap_frontends a) (ap_offered a).
Definition with_frontends (a : App) k := mkApp (ap_guard a) (ap_private a) (ap_group a) (ap_routeTranslators a)
  (ap_motoTranslators a) (ap_bridgeID a) k (ap_offered a).
Definition offer (a : App) (target : string) (pkt : Packet) := mkApp (ap_guard a) (ap_private a) (ap_group a)
  (ap_routeTranslators a) (ap_motoTranslators a) (ap_bridgeID a) (ap_frontends a) (ap_offered a ++ [(target, pkt)]).

(** The translator of a route; [None] without a route key. *)
Definition getRouteMotoTranslator (a : App) (sourceDeviceKey targetKey : string) : option (string * IPSCTranslator) :=
  if bool_decide (sourceDeviceKey = "") || bool_decide (targetKey = "") then None
  else
    let key := sourceDeviceKey +:+ "->" +:+ targetKey in
    Some (key, default (SetPeerID NewIPSCTranslator (ap_bridgeID a)) (ap_routeTranslators a !! key)).

(** Translate for a route; the translator keeps its new state. *)
Definition route_translate (a : App) (sourceDeviceKey targetKey : string) (pkt : Packet) (now : time)
    : option (App * list (list Z)) :=
  '(key, tr) ← getRouteMotoTranslator a sourceDeviceKey targetKey;
  let '(tr, datas) := TranslateToIPSC tr pkt now in
  Some (with_routeTr a (<[key := tr]> (ap_routeTranslators a)), datas).

Definition mark_forwarded (a : App) (frontend : string) (pkt : Packet) (now : time) : App :=
  with_guard a (MarkForwarded (ap_guard a) frontend pkt now).

(** The first network of [ns] that matches takes the packet. *)
Fixpoint dispatch_among (k : K) (ns : list nat) (pkt : Packet) (passall : bool) (now : time) : option (K * bool) :=
  match ns with
  | [] => None
  | n :: ns =>
      if network_allowed k n && network_MatchesPacket k n pkt passall
      then Some (network_HandleTranslatedPacket k n pkt now)
      else dispatch_among k ns pkt passall now
  end.

Definition dispatchToMMDVM (k : K) (pkt : Packet) (now : time) : K * bool :=
  let ns := seq 0 (mmdvmNetworks k) in
  match dispatch_among k ns pkt false now with
  | Some r => r
  | None => match dispatch_among k ns pkt true now with Some r => r | None => (k, false) end
  end.

(** The first server that has the peer. *)
Fixpoint server_send (k : K) (ns : list nat) (pkt : Packet) (targetKey : string) : K * bool :=
  match ns with
  | [] => (k, false)
  | n :: ns =>
      let '(k, ok) := server_SendPacketToPeer k n pkt targetKey in
      if ok then (k, true) else server_send k ns pkt targetKey
  end.

(** The result of a frontend, with its state put back. *)
Definition frontend_result (a : App) (r : K * bool) : App * bool := (with_frontends a (fst r), snd r).

Definition send_moto (a : App) (sourceDeviceKey targetKey : string) (pkt : Packet) (now : time) : App * bool :=
  if negb (ipscServer_on) then (a, false)
  else
    match ParseUint32 (trim_prefix "moto:" targetKey) with
    | None => (a, false)
    | Some peerID =>
        match getRouteMotoTranslator a sourceDeviceKey targetKey with
        | None => (a, false)
        | Some _ =>
            let a := mark_forwarded a "moto" pkt now in
            match route_translate a sourceDeviceKey targetKey pkt now with
            | None => (a, false)
            | Some (a, datas) =>
                frontend_result a (foldl (fun '(k, sent) data =>
                  let '(k, ok) := SendUserPacketToPeer k peerID data in (k, sent || ok)) (ap_frontends a, false) datas)
            end
        end
    end.

Definition sendToTarget (now : time) (a : App) (targetKey sourceFrontend sourceDeviceKey : string) (pkt : Packet) : App * bool :=
  let a := offer a targetKey pkt in
  let k := ap_frontends a in
  if negb (forwardAllowed k targetKey) then (a, false)
  else if has_prefix "moto:" targetKey then send_moto a sourceDeviceKey targetKey pkt now
  else if has_prefix "hytera:" targetKey then
    if negb (hyteraServer_on) then (a, false)
    else frontend_result (mark_forwarded a "hytera" pkt now)
      (hytera_SendPacketTo k (bool_decide (sourceFrontend = "moto")) pkt targetKey)
  else if has_prefix "mmdvm-upstream:" targetKey then
    match upstream_HandleTranslatedPacket k targetKey pkt now with
    | None => (a, false)
    | Some r => frontend_result a r
    end
  else if has_prefix "mmdvm:" targetKey then frontend_result a (server_send k (seq 0 (mmdvmServers k)) pkt targetKey)
  else if has_prefix "nrl-virtual:" targetKey then frontend_result a (nrl_HandleDMRPacket k targetKey pkt)
  else (a, false).

(** One target of a group call. *)
Definition send_route (now : time) (sourceFrontend sourceDeviceKey : string) (pkt : Packet) (acc : App * bool)
    (target : TargetRoute) : App * bool :=
  let '(a, sent) := acc in
  let '(a, ok) := sendToTarget now a (DeviceKey target) sourceFrontend sourceDeviceKey (fst (packetForTargetSlot pkt (RSlot target))) in
  (a, sent || ok).

Definition is_hytera (target : TargetRoute) : bool := has_prefix "hytera:" (DeviceKey target).

Definition routeGroupCall (a : App) (sourceFrontend sourceDeviceKey : string) (pkt : Packet) (now : time) : App * bool :=
  if bool_decide (sourceDeviceKey = "") || (Dst pkt =? 0) then (a, false)
  else
    let slot := slotFromPacket pkt in
    let a :=
      if shouldActivateDynamicGroup pkt
      then with_routing a (fst (ActivateDynamic (ap_group a) sourceDeviceKey slot (u32 (Dst pkt)) now now)) else a in
    let '(m, targets) := ResolveRoutes (ap_group a) sourceDeviceKey (u32 (Dst pkt)) now now in
    let a := with_routing a m in
    let targets := sortRouteTargets sourceFrontend targets in
    let acc := foldl (send_route now sourceFrontend sourceDeviceKey pkt) (a, false)
      (List.filter (fun t => negb (is_hytera t)) targets) in
    if hyteraServer_on then
      foldl (send_route now sourceFrontend sourceDeviceKey pkt) acc (List.filter is_hytera targets)
    else acc.

(** Translate for all Motorola repeaters and send. *)
Definition send_all_moto (a : App) (sourceDeviceKey : string) (pkt : Packet) (now : time) : App :=
  let a := mark_forwarded a "moto" pkt now in
  match route_translate a sourceDeviceKey "legacy:moto" pkt now with
  | None => a
  | Some (a, datas) => with_frontends a (foldl SendUserPacket (ap_frontends a) datas)
  end.

Definition dispatch (a : App) (pkt : Packet) (now : time) : App :=
  with_frontends a (fst (dispatchToMMDVM (ap_frontends a) pkt now)).

Definition send_all_hytera (a : App) (fromMoto : bool) (pkt : Packet) (now : time) : App :=
  let a := mark_forwarded a "hytera" pkt now in with_frontends a (hytera_SendPacket (ap_frontends a) fromMoto pkt).

Definition legacyForward (a : App) (frontend sourceDeviceKey : string) (pkt : Packet) (now : time) : App :=
  let '(c, a', (_, ok)) := routePrivateCall (ap_private a) a frontend sourceDeviceKey pkt now now (Some (sendToTarget now)) in
  let a := with_private a' c in
  if ok then a
  else if decide (frontend = "moto") then
    let a := if hyteraServer_on then send_all_hytera a true pkt now else a in
    dispatch a pkt now
  else if decide (frontend = "hytera") then
    let a := if ipscServer_on then send_all_moto a "legacy:hytera" pkt now else a in
    dispatch a pkt now
  else
    let a := dispatch a pkt now in
    let a := if ipscServer_on then send_all_moto a ("legacy:" +:+ frontend) pkt now else a in
    if hyteraServer_on then send_all_hytera a false pkt now else a.

Definition recordSourceKey (frontend source : string) (addr : option string) : string :=
  if decide (frontend = "moto") then motoSourceKey source addr
  else if decide (frontend = "hytera") then hyteraSourceKey addr
  else source.

Definition handleIngress (a : App) (frontend source : string) (pkt : Packet) (addr : option string) (now : time) : App :=
  let key := recordSourceKey frontend source addr in
  let '(g, ok) := AllowIngress (ap_guard a) (frontend +:+ ":" +:+ source) pkt now in
  let a := with_guard a g in
  if negb ok then a
  else
    let a := if negb (Src pkt =? 0) then with_private a (Remember (ap_private a) (u32 (Src pkt)) key now now) else a in
    let a := with_frontends a (observe (ap_frontends a) frontend key pkt now) in
    if GroupCall pkt then fst (routeGroupCall a frontend key pkt now)
    else legacyForward a frontend key pkt now.

(** A burst of a Motorola repeater: each has its own translator. *)
Definition handleBurst (a : App) (packetType : Z) (data : list Z) (addr ip : string) (now : time) : outcome App :=
  let source :=
    if (5 <=? length data)%nat
    then addr +:+ ":" +:+ pretty (get_be32 (data.[1]) (data.[2]) (data.[3]) (data.[4])) else addr in
  let tr := default NewIPSCTranslator (ap_motoTranslators a !! source) in
  let! (tr, packets) := TranslateToMMDVM tr packetType data now in
  Done (foldl (fun a pkt => handleIngress a "moto" source pkt (Some ip) now)
    (with_motoTr a (<[source := tr]> (ap_motoTranslators a))) packets).

(** A packet handed on by an MMDVM network. *)
Definition handleNetworkPacket (a : App) known upstreamKeys (networkName : string) (pkt : Packet) (now : time) : App :=
  handleIngress a "mmdvm" (mmdvmSourceKey known upstreamKeys networkName pkt) pkt None now.

(** ** Histories *)

(** The program after its start: [k] is the state of the frontends. *)
Definition new_app (bridgeID : Z) (k : K) : App :=
  mkApp NewGuard (Some (newRecentPrivateRouteCache recentPrivateRouteTTL)) (NewSubscriptionManager (15 * minute)) ∅ ∅ bridgeID k [].

(** A packet comes in, or the subscriptions are changed from the web interface. *)
Inductive app_event :=
| EvIngress (frontend source : string) (pkt : Packet) (addr : option string) (now : time)
| EvRouting (o : Routing.op).

Definition app_step (a : App) (e : app_event) : App :=
  match e with
  | EvIngress frontend source pkt addr now => handleIngress a frontend source pkt addr now
  | EvRouting o => with_routing a (Routing.step (ap_group a) o)
  end.

(** ** What stays true *)

(** Every packet the guard remembers as forwarded is remembered under the bare
    name of a frontend. *)
Definition egress_plain (g : Guard) : Prop :=
  forall key, is_Some (recentEgress g !! key) -> exists f p, plain f /\ key = echo_key f p.

Record app_ok (a : App) : Prop := {
  ao_group : subs_inv (ap_group a);
  ao_guard : egress_plain (ap_guard a)
}.

Lemma evict_plain g now : egress_plain g -> egress_plain (evictExpired g now).
Proof. intros Hg key [ts E]. cbn in E. apply map_lookup_filter_Some in E as [E _]. apply Hg. by eexists. Qed.

Lemma mark_plain g f pkt now : plain f -> egress_plain g -> egress_plain (MarkForwarded g f pkt now).
Proof.
  intros Hf Hg key [ts E]. cbn [recentEgress MarkForwarded with_egress] in E.
  apply lookup_insert_Some in E as [[<- _] | [_ E]]; [by exists f, pkt |]. apply (evict_plain g now Hg). by eexists.
Qed.

Lemma allow_plain g source pkt now : egress_plain g -> egress_plain (fst (AllowIngress g source pkt now)).
Proof.
  intros Hg key Hk. rewrite (proj1 (AllowIngress_egress g source pkt now)) in Hk. by apply (evict_plain g now Hg).
Qed.

Lemma moto_plain : plain "moto".
Proof. unfold plain. by_eval. Qed.
Lemma hytera_plain : plain "hytera".
Proof. unfold plain. by_eval. Qed.

(** What sending to a frontend leaves alone. *)
Record kept (a a' : App) : Prop := {
  kp_group : ap_group a' = ap_group a;
  kp_private : ap_private a' = ap_private a;
  kp_guard : egress_plain (ap_guard a) -> egress_plain (ap_guard a')
}.

Lemma routing_kept_refl a : kept a a.
Proof. by split. Qed.
Lemma routing_kept_trans a b c : kept a b -> kept b c -> kept a c.
Proof. intros [] []. split; [congruence | congruence | auto]. Qed.
Lemma kept_ok a a' : kept a a' -> app_ok a -> app_ok a'.
Proof. intros [E _ Hg] [H1' H2']. split; [by rewrite E | auto]. Qed.

Lemma mark_kept a f pkt now : plain f -> kept a (mark_forwarded a f pkt now).
Proof. intros Hf. split; [done | done |]. by apply mark_plain. Qed.
Lemma frontends_kept a k : kept a (with_frontends a k).
Proof. by split. Qed.
Lemma translate_kept a s t pkt now a' datas : route_translate a s t pkt now = Some (a', datas) -> kept a a' /\ ap_offered a' = ap_offered a.
Proof.
  unfold route_translate. destruct (getRouteMotoTranslator a s t) as [[key tr] |]; [| done]. cbn.
  destruct (TranslateToIPSC tr pkt now) as [tr' d]. by intros [= <- <-].
Qed.

Lemma send_moto_kept a src target pkt now :
  kept a (fst (send_moto a src target pkt now)) /\ ap_offered (fst (send_moto a src target pkt now)) = ap_offered a.
Proof.
  unfold send_moto. destruct ipscServer_on; cbn [negb]; [| split; [apply routing_kept_refl | done]].
  destruct (ParseUint32 _) as [peer |]; [| split; [apply routing_kept_refl | done]].
  destruct (getRouteMotoTranslator a src target); [| split; [apply routing_kept_refl | done]].
  pose proof (mark_kept a "moto" pkt now moto_plain) as Hm. set (a1 := mark_forwarded a "moto" pkt now) in *.
  destruct (route_translate a1 src target pkt now) as [[a2 datas] |] eqn:E; [| by split].
  destruct (translate_kept _ _ _ _ _ _ _ E) as [H2' E2]. split; [| exact E2].
  eapply routing_kept_trans; [exact Hm |]. eapply routing_kept_trans; [exact H2' | apply frontends_kept].
Qed.

Lemma sendToTarget_kept now a target fe src pkt :
  kept a (fst (sendToTarget now a target fe src pkt)) /\
  ap_offered (fst (sendToTarget now a target fe src pkt)) = ap_offered a ++ [(target, pkt)].
Proof.
  assert (Ho : kept a (offer a target pkt)) by by split.
  unfold sendToTarget. destruct (forwardAllowed _ _); cbn [negb]; [| by split].
  destruct (has_prefix "moto:" target).
  { destruct (send_moto_kept (offer a target pkt) src target pkt now) as [H1' H2']. by split; [eapply routing_kept_trans |]. }
  destruct (has_prefix "hytera:" target).
  { destruct hyteraServer_on; cbn [negb]; [| by split]. split; [| done]. eapply routing_kept_trans; [exact Ho |].
    eapply routing_kept_trans; [by apply (mark_kept _ "hytera" pkt now hytera_plain) | apply frontends_kept]. }
  destruct (has_prefix "mmdvm-upstream:" target).
  { destruct (upstream_HandleTranslatedPacket _ _ _ _); by split. }
  destruct (has_prefix "mmdvm:" target); [by split |].
  destruct (has_prefix "nrl-virtual:" target); by split.
Qed.

Lemma send_routes_kept now fe src pkt ts acc :
  kept (fst acc) (fst (foldl (send_route now fe src pkt) acc ts)) /\
  ap_offered (fst (foldl (send_route now fe src pkt) acc ts)) =
    ap_offered (fst acc) ++ ((fun t => (DeviceKey t, fst (packetForTargetSlot pkt (RSlot t)))) <$> ts).
Proof.
  revert acc. induction ts as [| t ts IH]; intros acc; [split; [apply routing_kept_refl | by rewrite app_nil_r] |].
  cbn [foldl]. destruct (IH (send_route now fe src pkt acc t)) as [H1' H2']. destruct acc as [a sent]. unfold send_route in *.
  destruct (sendToTarget_kept now a (DeviceKey t) fe src (fst (packetForTargetSlot pkt (RSlot t)))) as [H3' H4'].
  destruct (sendToTarget now a (DeviceKey t) fe src (fst (packetForTargetSlot pkt (RSlot t)))) as [a1 ok]. cbn [fst] in *.
  split; [by eapply routing_kept_trans |]. by rewrite H2', H4', <- app_assoc.
Qed.

Lemma send_all_moto_kept a src pkt now : kept a (send_all_moto a src pkt now).
Proof.
  unfold send_all_moto. pose proof (mark_kept a "moto" pkt now moto_plain) as Hm. set (a1 := mark_forwarded a "moto" pkt now) in *.
  destruct (route_translate a1 src "legacy:moto" pkt now) as [[a2 datas] |] eqn:E; [| done].
  destruct (translate_kept _ _ _ _ _ _ _ E) as [H2' _].
  eapply routing_kept_trans; [exact Hm |]. eapply routing_kept_trans; [exact H2' | apply frontends_kept].
Qed.

Lemma send_all_hytera_kept a b pkt now : kept a (send_all_hytera a b pkt now).
Proof. eapply routing_kept_trans; [by apply (mark_kept _ "hytera" pkt now hytera_plain) | apply frontends_kept]. Qed.

Lemma private_kept c a fe src pkt now :
  let '(_, a', _) := routePrivateCall c a fe src pkt now now (Some (sendToTarget now)) in kept a a'.
Proof.
  unfold routePrivateCall. destruct c as [c |]; [| apply routing_kept_refl]. destruct (_ || _); [apply routing_kept_refl |].
  destruct (Lookup (Some c) (u32 (Dst pkt)) now now) as [c' [target ok]].
  destruct (_ || _); [apply routing_kept_refl |].
  pose proof (proj1 (sendToTarget_kept now a target fe src pkt)) as Hk.
  by destruct (sendToTarget now a target fe src pkt) as [a' [|]].
Qed.

Lemma legacy_ok a frontend src pkt now : app_ok a -> app_ok (legacyForward a frontend src pkt now).
Proof.
  intros Ha. unfold legacyForward. pose proof (private_kept (ap_private a) a frontend src pkt now) as Hk.
  destruct (routePrivateCall _ a frontend src pkt now now _) as [[c a'] [target ok]].
  assert (H1' : app_ok (with_private a' c)) by (destruct (kept_ok _ _ Hk Ha); by split).
  set (a1 := with_private a' c) in *. clearbody a1. clear Hk a' c Ha.
  assert (Hd : forall b, app_ok b -> app_ok (dispatch b pkt now)) by (intros b [? ?]; by split).
  assert (Hm : forall b s, app_ok b -> app_ok (if ipscServer_on then send_all_moto b s pkt now else b)).
  { intros b s Hb. destruct ipscServer_on; [| done]. eapply kept_ok; [apply send_all_moto_kept | done]. }
  assert (Hh : forall b f, app_ok b -> app_ok (if hyteraServer_on then send_all_hytera b f pkt now else b)).
  { intros b f Hb. destruct hyteraServer_on; [| done]. eapply kept_ok; [apply send_all_hytera_kept | done]. }
  destruct ok; [done |]. case_decide; [by apply Hd, Hh |]. case_decide; [by apply Hd, Hm |]. by apply Hh, Hm, Hd.
Qed.

(** The subscriptions a group call is routed with: a voice header first
    subscribes its source. *)
Definition subscriptions_at (a : App) (key : string) (pkt : Packet) (now : time) : SubscriptionManager :=
  if shouldActivateDynamicGroup pkt
  then fst (ActivateDynamic (ap_group a) key (slotFromPacket pkt) (u32 (Dst pkt)) now now) else ap_group a.

Lemma subscriptions_at_inv a key pkt now : subs_inv (ap_group a) -> subs_inv (subscriptions_at a key pkt now).
Proof.
  intros Hi. unfold subscriptions_at. destruct (shouldActivateDynamicGroup pkt); [| done].
  exact (subs_step_inv _ (OpActivateDynamic _ _ _ _ _) Hi).
Qed.

(** The targets of a group call, in the order they are served. *)
Definition group_targets (frontend : string) (routes : list TargetRoute) : list TargetRoute :=
  let ts := sortRouteTargets frontend routes in
  List.filter (fun t => negb (is_hytera t)) ts ++ (if hyteraServer_on then List.filter is_hytera ts else []).

Definition offers (pkt : Packet) (ts : list TargetRoute) : list (string * Packet) :=
  (fun t => (DeviceKey t, fst (packetForTargetSlot pkt (RSlot t)))) <$> ts.

Lemma routeGroupCall_spec a frontend key pkt now :
  key <> "" -> Dst pkt <> 0 -> app_ok a ->
  let m := subscriptions_at a key pkt now in
  let r := ResolveRoutes m key (u32 (Dst pkt)) now now in
  let a' := fst (routeGroupCall a frontend key pkt now) in
  app_ok a' /\ ap_offered a' = ap_offered a ++ offers pkt (group_targets frontend (snd r)).
Proof.
  intros Hk Hd [Hg Hp]. cbn zeta. unfold routeGroupCall. rewrite bool_decide_false by done.
  rewrite (proj2 (Z.eqb_neq _ _) Hd). cbn [orb].
  set (a1 := if shouldActivateDynamicGroup pkt then _ else a).
  assert (E1 : ap_group a1 = subscriptions_at a key pkt now /\ ap_guard a1 = ap_guard a /\ ap_offered a1 = ap_offered a).
  { unfold a1, subscriptions_at. by destruct (shouldActivateDynamicGroup pkt). }
  destruct E1 as (E1 & E2 & E3). rewrite E1.
  pose proof (subs_step_inv _ (OpResolveRoutes key (u32 (Dst pkt)) now now) (subscriptions_at_inv a key pkt now Hg)) as Hr.
  cbn [Routing.step] in Hr. destruct (ResolveRoutes _ key (u32 (Dst pkt)) now now) as [m routes]. cbn [fst snd] in *.
  set (a2 := with_routing a1 m). assert (H2' : app_ok a2) by (split; [done | cbn; by rewrite E2]).
  destruct (send_routes_kept now frontend key pkt
    (List.filter (fun t => negb (is_hytera t)) (sortRouteTargets frontend routes)) (a2, false)) as [K1 O1].
  set (acc := foldl _ (a2, false) _) in *. cbn [fst] in K1, O1.
  change (ap_offered a2) with (ap_offered a1) in O1. rewrite E3 in O1.
  unfold group_targets, offers. destruct hyteraServer_on.
  - destruct (send_routes_kept now frontend key pkt (List.filter is_hytera (sortRouteTargets frontend routes)) acc) as [K2 O2].
    split; [eapply kept_ok; [exact K2 | by eapply kept_ok] |]. by rewrite O2, O1, fmap_app, <- app_assoc.
  - rewrite app_nil_r. split; [by eapply kept_ok | exact O1].
Qed.

Lemma routeGroupCall_none a frontend key pkt now :
  key = "" \/ Dst pkt = 0 -> routeGroupCall a frontend key pkt now = (a, false).
Proof.
  intros Hn. unfold routeGroupCall. destruct Hn as [-> | ->]; [by rewrite bool_decide_true |]. by rewrite orb_true_r.
Qed.

(** The state [handleIngress] routes with. *)
Definition admitted (a : App) (frontend source : string) (pkt : Packet) (addr : option string) (now : time) : App :=
  let key := recordSourceKey frontend source addr in
  let a := with_guard a (fst (AllowIngress (ap_guard a) (frontend +:+ ":" +:+ source) pkt now)) in
  let a := if negb (Src pkt =? 0) then with_private a (Remember (ap_private a) (u32 (Src pkt)) key now now) else a in
  with_frontends a (observe (ap_frontends a) frontend key pkt now).

Lemma handleIngress_admitted a frontend source pkt addr now :
  handleIngress a frontend source pkt addr now =
    let key := recordSourceKey frontend source addr in
    if snd (AllowIngress (ap_guard a) (frontend +:+ ":" +:+ source) pkt now) then
      let a := admitted a frontend source pkt addr now in
      if GroupCall pkt then fst (routeGroupCall a frontend key pkt now) else legacyForward a frontend key pkt now
    else with_guard a (fst (AllowIngress (ap_guard a) (frontend +:+ ":" +:+ source) pkt now)).
Proof. unfold handleIngress, admitted. by destruct (AllowIngress _ _ pkt now) as [g [|]]. Qed.

Lemma admitted_fields a frontend source pkt addr now :
  let a' := admitted a frontend source pkt addr now in
  ap_group a' = ap_group a /\ ap_offered a' = ap_offered a /\
  ap_guard a' = fst (AllowIngress (ap_guard a) (frontend +:+ ":" +:+ source) pkt now).
Proof. unfold admitted. by destruct (Src pkt =? 0). Qed.

Lemma app_step_ok a e : app_ok a -> app_ok (app_step a e).
Proof.
  intros [Hg Hp]. destruct e as [frontend source pkt addr now | o]; cbn [app_step]; [| split; [by apply subs_step_inv | done]].
  rewrite handleIngress_admitted. cbn zeta.
  destruct (snd _); [| split; [done | by apply allow_plain]].
  destruct (admitted_fields a frontend source pkt addr now) as (E1 & E2 & E3).
  assert (Ha : app_ok (admitted a frontend source pkt addr now)) by (split; [by rewrite E1 | rewrite E3; by apply allow_plain]).
  set (a1 := admitted a frontend source pkt addr now) in *. set (key := recordSourceKey frontend source addr).
  destruct (GroupCall pkt); [| by apply legacy_ok].
  destruct (decide (key = "" \/ Dst pkt = 0)) as [Hn | Hn]; [by rewrite routeGroupCall_none |].
  apply routeGroupCall_spec; tauto.
Qed.

Lemma app_run_ok bridgeID k evs : app_ok (foldl app_step (new_app bridgeID k) evs).
Proof.
  apply foldl_inv; [| intros; by apply app_step_ok]. split; [apply new_inv |].
  intros key [ts E]. cbn in E. by rewrite lookup_empty in E.
Qed.

(** C4: A group call goes exactly to its subscribers.  After any history, a
    group call the guard admits is offered exactly once to every device and slot
    that is subscribed to its talkgroup at that time, with the slot set to the
    subscribed one, and never to the device it came from; a voice header first
    subscribes its own device.  Hytera devices come last, and only when the
    Hytera server runs. *)
Theorem group_call_exact bridgeID k evs frontend source pkt addr now :
  let a := foldl app_step (new_app bridgeID k) evs in
  let key := recordSourceKey frontend source addr in
  snd (AllowIngress (ap_guard a) (frontend +:+ ":" +:+ source) pkt now) = true ->
  GroupCall pkt = true -> key <> "" -> 0 < Dst pkt < 2 ^ 32 ->
  let a' := handleIngress a frontend source pkt addr now in
  exists ts1 ts2, ap_offered a' = ap_offered a ++ offers pkt (ts1 ++ ts2) /\ NoDup (ts1 ++ ts2) /\
  Forall (fun t => is_hytera t = false) ts1 /\ Forall (fun t => is_hytera t = true) ts2 /\
  forall d s, mkRoute d s ∈ ts1 ++ ts2 <->
    subscribed (subscriptions_at a key pkt now) now d s (Dst pkt) /\ (s = Slot1 \/ s = Slot2) /\ d <> key /\
    (has_prefix "hytera:" d = true -> hyteraServer_on = true).
Proof.
  cbn zeta. pose proof (app_run_ok bridgeID k evs) as Ha. set (a := foldl app_step _ evs) in *. clearbody a.
  set (key := recordSourceKey frontend source addr). intros Hok Hgc Hk Hd.
  rewrite handleIngress_admitted. cbn zeta. rewrite Hok, Hgc.
  destruct (admitted_fields a frontend source pkt addr now) as (E1 & E2 & E3).
  assert (Ha' : app_ok (admitted a frontend source pkt addr now)).
  { destruct Ha. split; [by rewrite E1 | rewrite E3; by apply allow_plain]. }
  set (a1 := admitted a frontend source pkt addr now) in *. fold key.
  destruct (routeGroupCall_spec a1 frontend key pkt now Hk ltac:(lia) Ha') as [_ Eo].
  assert (Em : subscriptions_at a1 key pkt now = subscriptions_at a key pkt now) by (unfold subscriptions_at; by rewrite E1).
  rewrite Em, E2 in Eo.
  destruct (resolve_routes_spec (subscriptions_at a key pkt now) key (u32 (Dst pkt)) now now
    (subscriptions_at_inv a key pkt now (ao_group _ Ha))) as (Hin & Hnd & _); [rewrite u32_id; unfold is_u32; lia |].
  set (routes := snd (ResolveRoutes _ _ _ _ _)) in *. unfold group_targets in Eo.
  set (ts := sortRouteTargets frontend routes) in *.
  assert (Hp : ts ≡ₚ routes) by apply merge_sort_Permutation.
  assert (Hfilter : forall f (t : TargetRoute), t ∈ List.filter f ts <-> t ∈ routes /\ f t = true).
  { intros f t. rewrite list_elem_of_In, List.filter_In, <- list_elem_of_In. by rewrite Hp. }
  set (ts1 := List.filter (fun t => negb (is_hytera t)) ts) in *.
  exists ts1, (if hyteraServer_on then List.filter is_hytera ts else []). split; [exact Eo |].
  assert (Hts : NoDup ts) by by rewrite Hp. split; [| split; [| split]].
  - apply NoDup_app. split; [by apply NoDup_ListNoDup, List.NoDup_filter, NoDup_ListNoDup |]. split.
    + intros t Ht. destruct hyteraServer_on; [| by apply not_elem_of_nil]. intros Ht'.
      apply Hfilter in Ht as [_ Ht], Ht' as [_ Ht']. by rewrite Ht' in Ht.
    + destruct hyteraServer_on; [by apply NoDup_ListNoDup, List.NoDup_filter, NoDup_ListNoDup | apply NoDup_nil_2].
  - apply Forall_forall. intros t Ht. apply Hfilter in Ht as [_ Ht]. by destruct (is_hytera t).
  - destruct hyteraServer_on; [| apply Forall_nil_2]. apply Forall_forall. intros t Ht. by apply Hfilter in Ht as [_ Ht].
  - intros d s. rewrite elem_of_app. unfold ts1. rewrite Hfilter, Hin, u32_id by (unfold is_u32; lia).
    assert (En : now_or now now = now) by (unfold now_or; by destruct (time_is_zero now)). rewrite En. unfold is_hytera at 1. cbn [DeviceKey].
    destruct hyteraServer_on; [rewrite Hfilter, Hin, u32_id, En by (unfold is_u32; lia); unfold is_hytera; cbn [DeviceKey] |
      rewrite elem_of_nil]; destruct (has_prefix "hytera:" d); cbn [negb]; intuition congruence.
Qed.

(** The check for echoes never finds anything.  The guard remembers a
    forwarded packet under the name of the frontend alone and looks for it under
    the frontend with the source of the packet; after any history no packet from
    anywhere is found. *)
Theorem echo_check_dead bridgeID k evs frontend source pkt :
  recentEgress (ap_guard (foldl app_step (new_app bridgeID k) evs)) !! echo_key (frontend +:+ ":" +:+ source) pkt = None.
Proof.
  pose proof (ao_guard _ (app_run_ok bridgeID k evs)) as Hg. set (g := ap_guard _) in *. clearbody g.
  destruct (recentEgress g !! _) as [ts |] eqn:E; [| done]. exfalso.
  destruct (Hg _ (mk_is_Some _ _ E)) as (f & p & Hf & Ek). apply echo_key_source in Ek. subst f.
  apply Hf. rewrite !chars_app, !elem_of_app. right. left. by left.
Qed.

End ingress.

(** ** A witness *)

#[local] Existing Instances sample_dmrgo sample_order.

(** Frontends that take everything. *)
#[local] Instance sample_frontends : Frontends unit := {|
  forwardAllowed _ _ := true; ipscServer_on := true; SendUserPacketToPeer k _ _ := (k, true); SendUserPacket k _ := k;
  hyteraServer_on := false; hytera_SendPacketTo k _ _ _ := (k, true); hytera_SendPacket k _ _ := k;
  upstream_HandleTranslatedPacket _ _ _ _ := None; mmdvmServers _ := 0%nat; server_SendPacketToPeer k _ _ _ := (k, true);
  mmdvmNetworks _ := 0%nat; network_allowed _ _ := true; network_MatchesPacket _ _ _ _ := true;
  network_HandleTranslatedPacket k _ _ _ := (k, true); nrl_HandleDMRPacket k _ _ := (k, true); observe k _ _ _ _ := k |}.

Definition two_subscribers : list app_event :=
  [EvRouting (OpReplaceStatic "moto:5" Slot2 [9]); EvRouting (OpReplaceStatic "hytera:192.0.2.1" Slot1 [9])].

Lemma group_call_exact_witness :
  let a := foldl app_step (new_app 1 tt) two_subscribers in
  exists ts, ap_offered (handleIngress a "mmdvm" "mmdvm:net:312000" call_header None 1000) = offers call_header ts /\
  mkRoute "moto:5" Slot2 ∈ ts /\ (mkRoute "hytera:192.0.2.1" Slot1 ∉ ts).
Proof.
  cbv zeta.
  destruct (group_call_exact 1 tt two_subscribers "mmdvm" "mmdvm:net:312000" call_header None 1000) as (ts1 & ts2 & E & _ & _ & _ & Hin).
  - vm_compute. reflexivity.
  - reflexivity.
  - discriminate.
  - split; reflexivity.
  - exists (ts1 ++ ts2). split; [exact E |]. split.
    + apply Hin. split; [left; by_eval |]. split; [by right |]. split; [discriminate | discriminate].
    + rewrite Hin. intros (_ & _ & _ & Hh). discriminate (Hh eq_refl).
Defined.
