(* ===== verification/Config.v ===== *)
(** * The validation of the configuration (internal/config/config.go)

    [Validate] checks the settings one after another and reports the first that
    is wrong; it fills in the default listen address of an MMDVM server. *)

From Stdlib Require Import QArith Qabs.
From S2P Require Import Prelude Strings Rewrite Text Rptc.
#[local] Open Scope Z_scope.

Inductive ConfigError :=
| ErrInvalidLogLevel | ErrInvalidMMDVMName | ErrDuplicateMMDVMName | ErrInvalidMMDVMCallsign | ErrInvalidMMDVMColorCode
| ErrInvalidMMDVMLongitude | ErrInvalidMMDVMLatitude | ErrInvalidMMDVMMasterServer | ErrInvalidMMDVMListen
| ErrDuplicateMMDVMListen | ErrInvalidMMDVMPassword | ErrInvalidRewriteSlot | ErrInvalidRewriteRange
| ErrInvalidHyteraP2PPort | ErrInvalidIPSCDMRPort | ErrIPSCPortConflict | ErrInvalidIPSCAuthKey
| ErrInvalidMetricsAddress | ErrInvalidStoragePath | ErrInvalidWebAddress | ErrInvalidLocalID | ErrInvalidLocalColorCode.

Record Config := mkConfig {
  LogLevel : string;
  DisplayIP : string;
  Metrics_Enabled : bool;
  Metrics_Address : string;
  Storage_Path : string;
  Web_Enabled : bool;
  Web_Address : string;
  Local_ID : Z;
  Local_ColorCode : Z;
  MMDVMClients : list MMDVM;
  MMDVMServers : list MMDVM;
  IPSC_Enabled : bool;
  IPSC_Port : Z;
  IPSC_IP : string;
  Auth_Enabled : bool;
  Auth_Key : string;
  Hytera_Enabled : bool;
  P2PPort : Z;
  DMRPort : Z
}.

(** ** [net.SplitHostPort] *)

Definition index_byte (c : Z) (l : list Z) : option nat := fst <$> list_find (fun b => b = c) l.
Definition last_index (c : Z) (l : list Z) : option nat :=
  (fun i => length l - 1 - i)%nat <$> index_byte c (reverse l).
Definition has_byte (c : Z) (l : list Z) : bool := bool_decide (c ∈ l).

(** Host and port, [None] on an error. *)
Definition SplitHostPort (hostport : list Z) : option (list Z * list Z) :=
  match last_index 58 hostport with
  | None => None
  | Some i =>
      let check host j k :=
        if has_byte 91 (drop j hostport) || has_byte 93 (drop k hostport) then None
        else Some (host, drop (S i) hostport) in
      if hostport.[0] =? 91 then
        match index_byte 93 hostport with
        | None => None
        | Some e => if (S e =? i)%nat then check (take (e - 1) (drop 1 hostport)) 1%nat (S e) else None
        end
      else
        let host := take i hostport in
        if has_byte 58 host then None else check host 0%nat 0%nat
  end.

Definition address_ok (s : string) : bool := bool_decide (is_Some (SplitHostPort (str_bytes s))).

(** ** Networks *)

Definition validateSlot (slot : Z) : bool := (slot =? 1) || (slot =? 2).

Fixpoint check_rules (rules : list RewriteConfig) : option ConfigError :=
  match rules with
  | [] => None
  | r :: rules =>
      if negb (validateSlot (rc_FromSlot r)) || negb (validateSlot (rc_ToSlot r)) then Some ErrInvalidRewriteSlot
      else if rc_Range r <? 1 then Some ErrInvalidRewriteRange
      else check_rules rules
  end.

(** The first error of two checks in sequence. *)
Definition and_then (a b : option ConfigError) : option ConfigError := match a with Some e => Some e | None => b end.

Definition validateRewrites (h : MMDVM) : option ConfigError :=
  let r := cfg_rules h in
  and_then (check_rules (TGRewrites r)) (and_then (check_rules (PCRewrites r))
    (and_then (check_rules (TypeRewrites r)) (check_rules (SrcRewrites r)))).

Definition set_listen (h : MMDVM) (l : string) : MMDVM :=
  mkMMDVM (SourceKey h) (Name h) (Callsign h) (ID h) (RXFreq h) (TXFreq h) (TXPower h) (cfg_ColorCode h) (Latitude h)
    (Longitude h) (Height h) (Location h) (Description h) (URL h) (Slots h) (MasterServer h) l (Password h) (cfg_rules h).

Definition default_listen (h : MMDVM) : MMDVM := if bool_decide (Listen h = "") then set_listen h ":62031" else h.

Definition check_identity (h : MMDVM) : option ConfigError :=
  if bool_decide (Callsign h = "") then Some ErrInvalidMMDVMCallsign
  else if 15 <? cfg_ColorCode h then Some ErrInvalidMMDVMColorCode
  else if negb (Qle_bool (-180 # 1) (Longitude h)) || negb (Qle_bool (Longitude h) (180 # 1)) then Some ErrInvalidMMDVMLongitude
  else if negb (Qle_bool (-90 # 1) (Latitude h)) || negb (Qle_bool (Latitude h) (90 # 1)) then Some ErrInvalidMMDVMLatitude
  else None.

Definition check_secret (h : MMDVM) : option ConfigError :=
  if bool_decide (Password h = "") then Some ErrInvalidMMDVMPassword else validateRewrites h.

(** The networks, their listen addresses filled in up to the first error; the
    names and listen addresses seen so far. *)
Fixpoint validateMMDVMNetworks (networks : list MMDVM) (requireMaster requireIdentity : bool) (names listeners : gset string)
    : list MMDVM * gset string * gset string * option ConfigError :=
  match networks with
  | [] => ([], names, listeners, None)
  | h :: rest =>
      let stop h names listeners e := (h :: rest, names, listeners, Some e) in
      if bool_decide (Name h = "") then stop h names listeners ErrInvalidMMDVMName
      else if bool_decide (Name h ∈ names) then stop h names listeners ErrDuplicateMMDVMName
      else
        let names := {[Name h]} ∪ names in
        match (if requireIdentity then check_identity h else None) with
        | Some e => stop h names listeners e
        | None =>
            let go h listeners :=
              match check_secret h with
              | Some e => stop h names listeners e
              | None =>
                  let '(rest, names, listeners, e) := validateMMDVMNetworks rest requireMaster requireIdentity names listeners in
                  (h :: rest, names, listeners, e)
              end in
            if requireMaster then
              if bool_decide (MasterServer h = "") then stop h names listeners ErrInvalidMMDVMMasterServer
              else go h listeners
            else
              let h := default_listen h in
              if negb (address_ok (Listen h)) then stop h names listeners ErrInvalidMMDVMListen
              else if bool_decide (Listen h ∈ listeners) then stop h names listeners ErrDuplicateMMDVMListen
              else go h ({[Listen h]} ∪ listeners)
        end
  end.

(** ^[0-9a-fA-F]{0,40}$ *)
Definition hex_key (s : string) : bool :=
  let l := str_bytes s in
  (length l <=? 40)%nat &&
  forallb (fun c => ((48 <=? c) && (c <=? 57)) || ((97 <=? c) && (c <=? 102)) || ((65 <=? c) && (c <=? 70))) l.

(** The checks before the networks, and those after. *)
Definition check_head (c : Config) : option ConfigError :=
  if negb (bool_decide (LogLevel c ∈ ["debug"; "info"; "warn"; "error"])) then Some ErrInvalidLogLevel
  else if Metrics_Enabled c && negb (bool_decide (Metrics_Address c = "")) && negb (address_ok (Metrics_Address c))
    then Some ErrInvalidMetricsAddress
  else if bool_decide (Storage_Path c = "") then Some ErrInvalidStoragePath
  else if Web_Enabled c && negb (bool_decide (Web_Address c = "")) && negb (address_ok (Web_Address c))
    then Some ErrInvalidWebAddress
  else if Local_ID c =? 0 then Some ErrInvalidLocalID
  else if 15 <? Local_ColorCode c then Some ErrInvalidLocalColorCode
  else None.

Definition check_tail (c : Config) : option ConfigError :=
  if IPSC_Enabled c && (Auth_Enabled c && bool_decide (Auth_Key c = "")) then Some ErrInvalidIPSCAuthKey
  else if IPSC_Enabled c && negb (hex_key (Auth_Key c)) then Some ErrInvalidIPSCAuthKey
  else if Hytera_Enabled c && (P2PPort c =? 0) then Some ErrInvalidHyteraP2PPort
  else if Hytera_Enabled c && (DMRPort c =? 0) then Some ErrInvalidIPSCDMRPort
  else if IPSC_Enabled c && Hytera_Enabled c && (P2PPort c =? IPSC_Port c) then Some ErrIPSCPortConflict
  else None.

Definition set_networks (c : Config) (clients servers : list MMDVM) : Config :=
  mkConfig (LogLevel c) (DisplayIP c) (Metrics_Enabled c) (Metrics_Address c) (Storage_Path c) (Web_Enabled c) (Web_Address c)
    (Local_ID c) (Local_ColorCode c) clients servers (IPSC_Enabled c) (IPSC_Port c) (IPSC_IP c) (Auth_Enabled c) (Auth_Key c)
    (Hytera_Enabled c) (P2PPort c) (DMRPort c).

(** The configuration with its defaults filled in, and the first error. *)
Definition Validate (c : Config) : Config * option ConfigError :=
  match check_head c with
  | Some e => (c, Some e)
  | None =>
      match validateMMDVMNetworks (MMDVMClients c) true true ∅ ∅ with
      | (clients, _, _, Some e) => (set_networks c clients (MMDVMServers c), Some e)
      | (clients, names, listeners, None) =>
          match validateMMDVMNetworks (MMDVMServers c) false false names listeners with
          | (servers, _, _, Some e) => (set_networks c clients servers, Some e)
          | (servers, _, _, None) => (set_networks c clients servers, check_tail c)
          end
      end
  end.

Definition ValidateMMDVMClients (networks : list MMDVM) : option ConfigError :=
  snd (validateMMDVMNetworks networks true true ∅ ∅).

(** ** Lookups *)

Definition trim_space (s : string) : string := bytes_str (TrimSpace (str_bytes s)).

Definition DisplayAddressIP (c : Config) : string :=
  let ip := trim_space (DisplayIP c) in if bool_decide (ip = "") then trim_space (IPSC_IP c) else ip.

Definition FirstMMDVM (c : Config) : option MMDVM :=
  match MMDVMClients c with
  | h :: _ => Some h
  | [] => head (MMDVMServers c)
  end.

Definition BridgeID (c : Config) : Z :=
  if negb (Local_ID c =? 0) then Local_ID c
  else match FirstMMDVM c with Some h => ID h | None => 9000000 end.

(** ** What a valid configuration is *)

Definition rule_ok (r : RewriteConfig) : Prop :=
  (rc_FromSlot r = 1 \/ rc_FromSlot r = 2) /\ (rc_ToSlot r = 1 \/ rc_ToSlot r = 2) /\ 1 <= rc_Range r.

Definition rules_ok (r : RuleConfigs) : Prop :=
  Forall rule_ok (TGRewrites r) /\ Forall rule_ok (PCRewrites r) /\ Forall rule_ok (TypeRewrites r) /\ Forall rule_ok (SrcRewrites r).

Definition identity_ok (h : MMDVM) : Prop :=
  Callsign h <> "" /\ cfg_ColorCode h <= 15 /\ (-180 # 1 <= Longitude h <= 180 # 1)%Q /\ (-90 # 1 <= Latitude h <= 90 # 1)%Q.

Record network_ok (requireMaster requireIdentity : bool) (h : MMDVM) : Prop := {
  no_name : Name h <> "";
  no_identity : requireIdentity = true -> identity_ok h;
  no_address : if requireMaster then MasterServer h <> "" else address_ok (Listen (default_listen h)) = true;
  no_password : Password h <> "";
  no_rules : rules_ok (cfg_rules h)
}.

Definition listen_of (h : MMDVM) : string := Listen (default_listen h).

Lemma check_rules_iff rules : check_rules rules = None <-> Forall rule_ok rules.
Proof.
  induction rules as [| r rules IH]; [split; [intros _; apply Forall_nil_2 | done] |]. cbn [check_rules].
  rewrite Forall_cons, <- IH. unfold rule_ok, validateSlot. case_bools; cbn [negb orb]; split; intros; intuition (congruence || lia).
Qed.

Lemma and_then_iff a b : and_then a b = None <-> a = None /\ b = None.
Proof. destruct a; cbn; intuition congruence. Qed.

Lemma validateRewrites_iff h : validateRewrites h = None <-> rules_ok (cfg_rules h).
Proof. unfold validateRewrites, rules_ok. by rewrite !and_then_iff, !check_rules_iff. Qed.

Lemma check_secret_iff h : check_secret h = None <-> Password h <> "" /\ rules_ok (cfg_rules h).
Proof.
  unfold check_secret. destruct (bool_decide_reflect (Password h = "")); [intuition congruence |].
  rewrite validateRewrites_iff. tauto.
Qed.

Lemma check_identity_iff h : check_identity h = None <-> identity_ok h.
Proof.
  unfold check_identity, identity_ok. rewrite <- !Qle_bool_iff.
  destruct (bool_decide_reflect (Callsign h = "")); [intuition congruence |].
  destruct (Z.ltb_spec 15 (cfg_ColorCode h)); [split; [done | intros (_ & ? & _); lia] |].
  destruct (Qle_bool (-180 # 1) (Longitude h)), (Qle_bool (Longitude h) (180 # 1)),
    (Qle_bool (-90 # 1) (Latitude h)), (Qle_bool (Latitude h) (90 # 1)); cbn; intuition congruence.
Qed.

Lemma default_listen_fields h :
  Name (default_listen h) = Name h /\ Password (default_listen h) = Password h /\ cfg_rules (default_listen h) = cfg_rules h /\
  listen_of (default_listen h) = listen_of h.
Proof. unfold listen_of, default_listen. destruct (bool_decide_reflect (Listen h = "")) as [E | E]; cbn; [done |]. by rewrite bool_decide_false. Qed.

Lemma check_secret_default h : check_secret (default_listen h) = check_secret h.
Proof.
  unfold check_secret, validateRewrites. destruct (default_listen_fields h) as (_ & -> & -> & _). done.
Qed.

(** The networks of one kind are valid next to names and listeners in use. *)
Record networks_ok (requireMaster requireIdentity : bool) (names listeners : gset string) (networks : list MMDVM) : Prop := {
  ns_each : Forall (network_ok requireMaster requireIdentity) networks;
  ns_names : NoDup (Name <$> networks) /\ Forall (fun h => Name h ∉ names) networks;
  ns_listeners : requireMaster = false -> NoDup (listen_of <$> networks) /\ Forall (fun h => listen_of h ∉ listeners) networks
}.

Lemma networks_ok_cons rm ri names listeners h networks :
  networks_ok rm ri names listeners (h :: networks) <->
  network_ok rm ri h /\ Name h ∉ names /\ (rm = false -> listen_of h ∉ listeners) /\
  networks_ok rm ri ({[Name h]} ∪ names) (if rm then listeners else {[listen_of h]} ∪ listeners) networks.
Proof.
  assert (Hsplit : forall (f : MMDVM -> string) (S : gset string),
    NoDup (f <$> (h :: networks)) /\ Forall (fun x => f x ∉ S) (h :: networks) <->
    f h ∉ S /\ NoDup (f <$> networks) /\ Forall (fun x => f x ∉ ({[f h]} ∪ S : gset string)) networks).
  { intros f S. cbn [fmap list_fmap]. rewrite NoDup_cons, Forall_cons, !Forall_forall.
    setoid_rewrite list_elem_of_fmap. setoid_rewrite not_elem_of_union. setoid_rewrite not_elem_of_singleton.
    split; [intros ((Hn & Hd) & Hh & Hs) | intros (Hh & Hd & Hs)]; split_and!; try done.
    - intros x Hx. split; [| by apply Hs]. intros E. apply Hn. by exists x.
    - intros (x & E & Hx). by destruct (Hs x Hx).
    - intros x Hx. by apply Hs. }
  split.
  - intros [H1 H2 H3]. apply Forall_cons in H1 as [H1 H1']. apply Hsplit in H2 as (N1 & N2 & N3).
    split_and!; [done | done | intros E; by apply (Hsplit listen_of) in H3 as (? & _) |].
    split; [done | done |]. intros E. apply (Hsplit listen_of) in H3 as (_ & ? & ?); [| done]. by rewrite E.
  - intros (H1 & H2 & H3 & [H4 H5 H6]). split; [by apply Forall_cons | apply Hsplit; tauto |].
    intros E. apply (Hsplit listen_of). rewrite E in H6. specialize (H6 eq_refl). tauto.
Qed.

(** A network that is refused does not satisfy the conditions. *)
Ltac refuse_network :=
  split; [split; [done |
    rewrite networks_ok_cons; intros (Hn & Hnm & Hl & _); exfalso; destruct Hn as [Hn1 Hn2 Hn3 Hn4 Hn5]; try done] | done].

Lemma validateMMDVMNetworks_spec rm ri names listeners networks :
  let '(out, names', listeners', e) := validateMMDVMNetworks networks rm ri names listeners in
  (e = None <-> networks_ok rm ri names listeners networks) /\
  (e = None -> out = (if rm then networks else default_listen <$> networks) /\
     names' = list_to_set (Name <$> networks) ∪ names /\
     listeners' = (if rm then listeners else list_to_set (listen_of <$> networks) ∪ listeners)).
Proof.
  revert names listeners. induction networks as [| h networks IH]; intros names listeners; cbn [validateMMDVMNetworks].
  { split; [split; [intros _ | done] | intros _].
    - split; [apply Forall_nil_2 | split; [apply NoDup_nil_2 | apply Forall_nil_2] |].
      intros _. split; [apply NoDup_nil_2 | apply Forall_nil_2].
    - cbn. by destruct rm; rewrite ?union_empty_l_L. }
  destruct (bool_decide_reflect (Name h = "")) as [Hname | Hname]; [refuse_network |].
  destruct (bool_decide_reflect (Name h ∈ names)) as [Hseen | Hseen]; [refuse_network |].
  destruct (if ri then check_identity h else None) as [e |] eqn:Eid.
  { refuse_network. destruct ri; [| done]. specialize (Hn2 eq_refl). apply check_identity_iff in Hn2. congruence. }
  assert (Hid : ri = true -> identity_ok h) by (intros ->; by apply check_identity_iff). clear Eid.
  destruct (check_secret h) as [e |] eqn:Esec.
  { assert (Hbad : forall P : Prop, network_ok rm ri h -> P).
    { intros P [? ? ? Hp Hr]. exfalso. assert (check_secret h = None) by by apply check_secret_iff. congruence. }
    destruct rm; [destruct (bool_decide_reflect (MasterServer h = "")); [refuse_network |] |
      destruct (address_ok (Listen (default_listen h))) eqn:Ea; cbn [negb];
      [destruct (bool_decide_reflect (Listen (default_listen h) ∈ listeners)); [refuse_network; by apply Hl |] | refuse_network; cbn in Hn3; congruence]];
      rewrite ?check_secret_default, ?Esec; (split; [split; [done |] | done]); rewrite networks_ok_cons; intros (Hn & _); by apply Hbad. }
  apply check_secret_iff in Esec as [Hpw Hrules]. assert (Esec : check_secret h = None) by by apply check_secret_iff.
  destruct rm.
  - destruct (bool_decide_reflect (MasterServer h = "")) as [Hms | Hms]; [refuse_network |]. rewrite ?Esec.
    specialize (IH ({[Name h]} ∪ names) listeners).
    destruct (validateMMDVMNetworks networks true ri ({[Name h]} ∪ names) listeners) as [[[out names'] listeners'] e].
    destruct IH as [IH1 IH2]. rewrite networks_ok_cons, IH1. split.
    + split; [intros Hok; split_and!; try done | tauto].
    + intros E%IH1. destruct (IH2 E) as (-> & -> & ->). split; [done |]. split; [| done]. cbn. set_solver.
  - destruct (address_ok (Listen (default_listen h))) eqn:Ea; cbn [negb]; [| refuse_network; cbn in Hn3; congruence].
    destruct (bool_decide_reflect (Listen (default_listen h) ∈ listeners)) as [Hls | Hls]; [refuse_network; by apply Hl |].
    rewrite check_secret_default, Esec. specialize (IH ({[Name h]} ∪ names) ({[listen_of h]} ∪ listeners)).
    change ({[Listen (default_listen h)]} ∪ listeners) with ({[listen_of h]} ∪ listeners).
    destruct (validateMMDVMNetworks networks false ri ({[Name h]} ∪ names) ({[listen_of h]} ∪ listeners)) as [[[out names'] listeners'] e].
    destruct IH as [IH1 IH2]. rewrite networks_ok_cons, IH1. split.
    + split; [intros Hok; split_and!; try done | tauto].
    + intros E%IH1. destruct (IH2 E) as (-> & -> & ->). split; [done |]. split; cbn; set_solver.
Qed.

(** All that [Validate] asks for, with the networks taken together. *)
Record config_valid (c : Config) : Prop := {
  cv_log : LogLevel c ∈ ["debug"; "info"; "warn"; "error"];
  cv_metrics : Metrics_Enabled c = true -> Metrics_Address c = "" \/ address_ok (Metrics_Address c) = true;
  cv_storage : Storage_Path c <> "";
  cv_web : Web_Enabled c = true -> Web_Address c = "" \/ address_ok (Web_Address c) = true;
  cv_local : Local_ID c <> 0 /\ Local_ColorCode c <= 15;
  cv_clients : Forall (network_ok true true) (MMDVMClients c);
  cv_servers : Forall (network_ok false false) (MMDVMServers c);
  cv_names : NoDup (Name <$> MMDVMClients c ++ MMDVMServers c);
  cv_listeners : NoDup (listen_of <$> MMDVMServers c);
  cv_ipsc : IPSC_Enabled c = true -> hex_key (Auth_Key c) = true /\ (Auth_Enabled c = true -> Auth_Key c <> "");
  cv_hytera : Hytera_Enabled c = true -> P2PPort c <> 0 /\ DMRPort c <> 0 /\ (IPSC_Enabled c = true -> P2PPort c <> IPSC_Port c)
}.

Lemma check_head_iff c :
  check_head c = None <->
  LogLevel c ∈ ["debug"; "info"; "warn"; "error"] /\
  (Metrics_Enabled c = true -> Metrics_Address c = "" \/ address_ok (Metrics_Address c) = true) /\ Storage_Path c <> "" /\
  (Web_Enabled c = true -> Web_Address c = "" \/ address_ok (Web_Address c) = true) /\ Local_ID c <> 0 /\ Local_ColorCode c <= 15.
Proof.
  unfold check_head. destruct (bool_decide_reflect (LogLevel c ∈ ["debug"; "info"; "warn"; "error"])); cbn [negb]; [| intuition congruence].
  destruct (Metrics_Enabled c), (bool_decide_reflect (Metrics_Address c = "")), (address_ok (Metrics_Address c)); cbn [andb negb];
    try (intuition congruence).
  all: destruct (bool_decide_reflect (Storage_Path c = "")); [intuition congruence |].
  all: destruct (Web_Enabled c), (bool_decide_reflect (Web_Address c = "")), (address_ok (Web_Address c)); cbn [andb negb];
    try (intuition congruence).
  all: destruct (Z.eqb_spec (Local_ID c) 0); [intuition congruence |].
  all: destruct (Z.ltb_spec 15 (Local_ColorCode c)); intuition (congruence || lia).
Qed.

Lemma check_tail_iff c :
  check_tail c = None <->
  (IPSC_Enabled c = true -> hex_key (Auth_Key c) = true /\ (Auth_Enabled c = true -> Auth_Key c <> "")) /\
  (Hytera_Enabled c = true -> P2PPort c <> 0 /\ DMRPort c <> 0 /\ (IPSC_Enabled c = true -> P2PPort c <> IPSC_Port c)).
Proof.
  unfold check_tail. destruct (bool_decide_reflect (Auth_Key c = "")), (hex_key (Auth_Key c)), (IPSC_Enabled c), (Auth_Enabled c), (Hytera_Enabled c);
    cbn [andb negb]; try (intuition congruence); case_bools; intuition congruence.
Qed.

Lemma check_tail_networks c clients servers : check_tail (set_networks c clients servers) = check_tail c.
Proof. done. Qed.

(** C39: [Validate] reports no error exactly for the valid configurations: the
    checks in sequence, with the names and listen addresses they collect, amount
    to the conditions on each setting and to names that differ over all networks
    and listen addresses that differ over all servers.  The configuration it
    leaves then has every default listen address filled in and nothing else
    changed. *)
Theorem validate_exact c :
  (snd (Validate c) = None <-> config_valid c) /\
  (snd (Validate c) = None -> fst (Validate c) = set_networks c (MMDVMClients c) (default_listen <$> MMDVMServers c)).
Proof.
  unfold Validate. destruct (check_head c) as [e |] eqn:Eh.
  { split; [| done]. split; [done |]. intros [H1 H2 H3 H4 [H5 H6] _ _ _ _ _ _].
    assert (check_head c = None) by (by apply check_head_iff). congruence. }
  apply check_head_iff in Eh as (G1 & G2 & G3 & G4 & G5 & G6).
  pose proof (validateMMDVMNetworks_spec true true ∅ ∅ (MMDVMClients c)) as S1.
  destruct (validateMMDVMNetworks (MMDVMClients c) true true ∅ ∅) as [[[clients names] listeners] e1].
  destruct S1 as [S1 F1]. destruct e1 as [e1 |].
  { split; [| done]. split; [done |]. intros V. exfalso. pose proof (cv_names _ V) as Hn. rewrite fmap_app, NoDup_app in Hn.
    assert (Some e1 = None) by (apply S1; split; [apply V | split; [apply Hn | apply Forall_true; set_solver] | done]). done. }
  destruct (F1 eq_refl) as (-> & -> & ->). assert (N1 := proj1 S1 eq_refl). clear S1 F1.
  pose proof (validateMMDVMNetworks_spec false false (list_to_set (Name <$> MMDVMClients c) ∪ ∅) ∅ (MMDVMServers c)) as S2.
  destruct (validateMMDVMNetworks (MMDVMServers c) false false _ ∅) as [[[servers names2] listeners2] e2].
  destruct S2 as [S2 F2].
  assert (Hnames : NoDup (Name <$> MMDVMClients c ++ MMDVMServers c) <->
    NoDup (Name <$> MMDVMServers c) /\ Forall (fun h => Name h ∉ (list_to_set (Name <$> MMDVMClients c) ∪ ∅ : gset string)) (MMDVMServers c)).
  { destruct N1 as [_ [N1 _] _]. rewrite fmap_app, NoDup_app, Forall_forall. split; [intros (_ & Hd & Hn) | intros (Hn & Hd)].
    - split; [done |]. intros h Hh. rewrite union_empty_r_L, elem_of_list_to_set. intros Hin.
      apply (Hd _ Hin). apply list_elem_of_fmap. by exists h.
    - split; [done |]. split; [| done]. intros x Hx Hin. apply list_elem_of_fmap in Hin as (h & -> & Hh).
      apply (Hd h Hh). by rewrite union_empty_r_L, elem_of_list_to_set. }
  assert (Hiff : e2 = None /\ check_tail c = None <-> config_valid c).
  { rewrite S2, check_tail_iff. split.
    - intros ([M1 M2 M3] & T1 & T2). destruct (M3 eq_refl). split; try done; [apply N1 | by apply Hnames].
    - intros V. split; [| split; apply V]. split; [apply V | apply Hnames, V |]. intros _. split; [apply V | apply Forall_true; set_solver]. }
  destruct e2 as [e2 |]; [split; [| done]; rewrite <- Hiff; split; [done | by intros [? _]] |].
  destruct (F2 eq_refl) as (-> & _ & _). cbn [fst snd]. split; [rewrite <- Hiff; tauto | done].
Qed.

(** The identifier is not among the settings checked: a client with identifier
    zero passes, though a server refuses its login. *)
Example zero_id_passes :
  ValidateMMDVMClients [mkMMDVM "" "net" "N0CALL" 0 0 0 0 1 0 0 0 "" "" "" 0 "master.example:62031" "" "secret"
    (mkRuleConfigs [] [] [] [] [] [])] = None.
Proof. vm_compute. reflexivity. Qed.

Definition sample_setup : Config :=
  mkConfig "info" "" true ":9100" "bridge.db" true ":9201" 9000000 1
    [mkMMDVM "" "upstream" "N0CALL" 312000 0 0 0 1 0 0 0 "" "" "" 0 "master.example:62031" "" "secret"
      (mkRuleConfigs [mkRewriteConfig 1 9 2 9 1] [] [] [] [] [])]
    [mkMMDVM "" "hotspots" "" 0 0 0 0 0 0 0 0 "" "" "" 0 "" "" "secret" (mkRuleConfigs [] [] [] [] [1] [1])]
    true 50000 "" true "c0ffee" true 50001 30001.

Lemma validate_exact_witness :
  config_valid sample_setup /\ Listen <$> MMDVMServers (fst (Validate sample_setup)) = [":62031"%string].
Proof.
  assert (E : snd (Validate sample_setup) = None) by (vm_compute; reflexivity).
  split; [exact (proj1 (proj1 (validate_exact sample_setup)) E) |].
  rewrite (proj2 (validate_exact sample_setup) E). vm_compute. reflexivity.
Defined.
