(* ===== verification/IpscServer.v ===== *)
(** * The IPSC server (internal/ipsc/server.go)

    Motorola repeaters register with the server, keep their registration alive,
    ask for the list of peers and send bursts.  With authentication enabled
    every datagram ends in ten bytes of an HMAC.  Every packet is handled by a
    goroutine of its own; as all accesses to the table of peers are critical
    sections and a handler has one that writes, a handler is one step here.
    The iteration over the table is the parameter [peer_iter], and whether a
    datagram can be written is [udp_ok]. *)

From S2P Require Import Prelude Strings Net Text Rptc Sha256 Sha1 Config.

Record Peer := mkPeer {
  peer_ID : Z;
  peer_Addr : option NetAddr;
  peer_Mode : Z;
  peer_Flags : list Z;
  peer_LastSeen : time;
  peer_KeepAliveReceived : Z;
  peer_RegistrationStatus : bool
}.

Definition PacketType_GroupVoice : Z := 0x80.
Definition PacketType_PrivateVoice : Z := 0x81.
Definition PacketType_GroupData : Z := 0x83.
Definition PacketType_PrivateData : Z := 0x84.
Definition PacketType_RepeaterWakeUp : Z := 0x85.
Definition PacketType_MasterRegisterRequest : Z := 0x90.
Definition PacketType_MasterRegisterReply : Z := 0x91.
Definition PacketType_PeerListRequest : Z := 0x92.
Definition PacketType_PeerListReply : Z := 0x93.
Definition PacketType_MasterAliveRequest : Z := 0x96.
Definition PacketType_MasterAliveReply : Z := 0x97.
Definition PacketType_ControlF0 : Z := 0xF0.

Definition ipscVersion : list Z := [0x04; 0x02; 0x04; 0x01].
Definition ipscPeerTimeout : Z := 30 * second.
Definition burstInterval : Z := 30 * millisecond.

Inductive IpscError := ErrTooShort | ErrShortForAuth | ErrAuthFailed | ErrPacketIgnored | ErrUnknownType | ErrNoPeerID | ErrSend.

(** What was written to the socket: when, for which peer (user packets), where
    and what. *)
Record Datagram := mkDatagram { dg_time : time; dg_peer : option Z; dg_addr : option NetAddr; dg_data : list Z }.

Class PeerNet := {
  peer_iter : gmap Z Peer -> list (Z * Peer);
  udp_ok : option NetAddr -> list Z -> bool
}.
Class PeerNetLaws `{PeerNet} : Prop := { peer_iter_elements m : peer_iter m ≡ₚ map_to_list m }.

(** [sourceKey] of a peer *)
Definition moto_key (peerID : Z) : string := "moto:" +:+ pretty peerID.

Section server.
Context `{PeerNet}.

(** The handlers that are set, and what they were called with. *)
Record IPSCServer := mkIPSCServer {
  is_auth : bool;
  is_localID : Z;
  is_authKey : list Z;
  is_peers : gmap Z Peer;
  is_lastSend : gmap Z time;
  is_stopped : bool;
  is_burstHandler : bool;
  is_peerHandler : bool;
  is_offlineHandler : bool;
  is_sendFilter : option (string -> bool);
  is_wire : list Datagram;
  is_bursts : list (Z * list Z * option NetAddr);
  is_updates : list Peer;
  is_offline : list string
}.

Definition with_table (s : IPSCServer) m := mkIPSCServer (is_auth s) (is_localID s) (is_authKey s) m (is_lastSend s) (is_stopped s)
  (is_burstHandler s) (is_peerHandler s) (is_offlineHandler s) (is_sendFilter s) (is_wire s) (is_bursts s) (is_updates s) (is_offline s).
Definition with_lastSend (s : IPSCServer) m := mkIPSCServer (is_auth s) (is_localID s) (is_authKey s) (is_peers s) m (is_stopped s)
  (is_burstHandler s) (is_peerHandler s) (is_offlineHandler s) (is_sendFilter s) (is_wire s) (is_bursts s) (is_updates s) (is_offline s).
Definition with_datagrams (s : IPSCServer) w := mkIPSCServer (is_auth s) (is_localID s) (is_authKey s) (is_peers s) (is_lastSend s) (is_stopped s)
  (is_burstHandler s) (is_peerHandler s) (is_offlineHandler s) (is_sendFilter s) w (is_bursts s) (is_updates s) (is_offline s).
Definition with_bursts (s : IPSCServer) b := mkIPSCServer (is_auth s) (is_localID s) (is_authKey s) (is_peers s) (is_lastSend s) (is_stopped s)
  (is_burstHandler s) (is_peerHandler s) (is_offlineHandler s) (is_sendFilter s) (is_wire s) b (is_updates s) (is_offline s).
Definition with_updates (s : IPSCServer) u := mkIPSCServer (is_auth s) (is_localID s) (is_authKey s) (is_peers s) (is_lastSend s) (is_stopped s)
  (is_burstHandler s) (is_peerHandler s) (is_offlineHandler s) (is_sendFilter s) (is_wire s) (is_bursts s) u (is_offline s).
Definition with_offline (s : IPSCServer) o := mkIPSCServer (is_auth s) (is_localID s) (is_authKey s) (is_peers s) (is_lastSend s) (is_stopped s)
  (is_burstHandler s) (is_peerHandler s) (is_offlineHandler s) (is_sendFilter s) (is_wire s) (is_bursts s) (is_updates s) o.
Definition with_handlers (s : IPSCServer) stopped burst peer offline filter :=
  mkIPSCServer (is_auth s) (is_localID s) (is_authKey s) (is_peers s) (is_lastSend s) stopped
    burst peer offline filter (is_wire s) (is_bursts s) (is_updates s) (is_offline s).

(** The key: padded with zeros on the left to forty digits; a key that is not
    hexadecimal is taken as it is. *)
Definition auth_key (key : string) : list Z :=
  let digits := str_bytes key in
  default digits (hex_decode (replicate (40 - length digits) 48 ++ digits)).

Definition NewIPSCServer (c : Config) : IPSCServer :=
  mkIPSCServer (Auth_Enabled c) (BridgeID c)
    (if Auth_Enabled c && negb (bool_decide (Auth_Key c = "")) then auth_key (Auth_Key c) else [])
    ∅ ∅ false false false false None [] [] [] [].

Definition SetBurstHandler (s : IPSCServer) :=
  with_handlers s (is_stopped s) true (is_peerHandler s) (is_offlineHandler s) (is_sendFilter s).
Definition SetPeerUpdateHandler (s : IPSCServer) :=
  with_handlers s (is_stopped s) (is_burstHandler s) true (is_offlineHandler s) (is_sendFilter s).
Definition SetPeerOfflineHandler (s : IPSCServer) :=
  with_handlers s (is_stopped s) (is_burstHandler s) (is_peerHandler s) true (is_sendFilter s).
Definition SetSendFilter (s : IPSCServer) (filter : string -> bool) :=
  with_handlers s (is_stopped s) (is_burstHandler s) (is_peerHandler s) (is_offlineHandler s) (Some filter).
Definition Stop (s : IPSCServer) :=
  with_handlers s true (is_burstHandler s) (is_peerHandler s) (is_offlineHandler s) (is_sendFilter s).

(** ** Authentication *)

Definition mac (key payload : list Z) : list Z := take 10 (hmac_sha1 key payload).

(** The payload and the tag of a datagram of at least ten bytes. *)
Definition payload_of (data : list Z) : list Z := take (length data - 10) data.
Definition tag_of (data : list Z) : list Z := drop (length data - 10) data.

Definition auth (s : IPSCServer) (data : list Z) : bool := bool_decide (tag_of data = mac (is_authKey s) (payload_of data)).

Definition signed (s : IPSCServer) (data : list Z) : list Z :=
  if is_auth s then data ++ mac (is_authKey s) data else data.

(** The new state, and whether the datagram was written. *)
Definition sendPacket (s : IPSCServer) (peer : option Z) (data : list Z) (addr : option NetAddr) (now : time) : IPSCServer * bool :=
  let data := signed s data in
  if udp_ok addr data then (with_datagrams s (is_wire s ++ [mkDatagram now peer addr data]), true) else (s, false).

(** ** Replies *)

Definition defaultModeByte : Z := Z.lor (Z.lor (Z.lor 0x40 0x20) 0x08) 0x02.
Definition defaultFlagsBytes (s : IPSCServer) : list Z := [0; 0; 0; if is_auth s then Z.lor 0x0D 0x10 else 0x0D].

Definition parsePeerID (data : list Z) : option Z :=
  if (length data <? 5)%nat then None else Some (get_be32 (data.[1]) (data.[2]) (data.[3]) (data.[4])).

Definition reply_head (s : IPSCServer) (packetType : Z) : list Z :=
  [packetType] ++ put_be32 (is_localID s).

Definition buildMasterRegisterReply (s : IPSCServer) : list Z :=
  reply_head s PacketType_MasterRegisterReply ++ [defaultModeByte] ++ defaultFlagsBytes s ++
    put_be16 (Z.min (Z.of_nat (size (is_peers s))) 65535) ++ ipscVersion.

Definition buildMasterAliveReply (s : IPSCServer) : list Z :=
  reply_head s PacketType_MasterAliveReply ++ [defaultModeByte] ++ defaultFlagsBytes s ++ ipscVersion.

(** The entry of a peer: identifier, address, port and mode. *)
Definition peer_entry (p : Peer) : list Z :=
  match peer_Addr p with
  | Some a =>
      match na_IP a with
      | Some ip =>
          let port := if (na_Port a <? 0) || (65535 <? na_Port a) then 0 else na_Port a in
          put_be32 (peer_ID p) ++ To4 ip ++ put_be16 port ++ [peer_Mode p]
      | None => []
      end
  | None => []
  end.

Definition buildPeerList (s : IPSCServer) : list Z := (peer_iter (is_peers s)) ≫= (fun '(_, p) => peer_entry p).

Definition buildPeerListReply (s : IPSCServer) : list Z :=
  let peerList := buildPeerList s in
  reply_head s PacketType_PeerListReply ++ put_be16 (Z.min (Z.of_nat (length peerList)) 65535) ++ peerList.

(** ** The table of peers *)

Definition new_peer (peerID : Z) : Peer := mkPeer peerID None 0 [0; 0; 0; 0] 0 0 false.

Definition registered (p : Peer) (addr : option NetAddr) (mode : Z) (flags : list Z) (now : time) : Peer :=
  mkPeer (peer_ID p) addr mode flags now (peer_KeepAliveReceived p) true.
Definition alive (p : Peer) (addr : option NetAddr) (now : time) : Peer :=
  mkPeer (peer_ID p) addr (peer_Mode p) (peer_Flags p) now (u64 (peer_KeepAliveReceived p + 1)) (peer_RegistrationStatus p).

(** The peer is stored and reported. *)
Definition put_peer (s : IPSCServer) (peerID : Z) (p : Peer) : IPSCServer :=
  let s := with_table s (<[peerID := p]> (is_peers s)) in
  if is_peerHandler s then with_updates s (is_updates s ++ [p]) else s.

Definition upsertPeer (s : IPSCServer) (peerID : Z) (addr : option NetAddr) (mode : Z) (flags : list Z) (now : time) : IPSCServer :=
  put_peer s peerID (registered (default (new_peer peerID) (is_peers s !! peerID)) addr mode flags now).

Definition markPeerAlive (s : IPSCServer) (peerID : Z) (addr : option NetAddr) (now : time) : IPSCServer :=
  put_peer s peerID (alive (default (new_peer peerID) (is_peers s !! peerID)) addr now).

Definition stale_peer (now : time) (p : Peer) : bool := ipscPeerTimeout <? time_sub now (peer_LastSeen p).

(** One tick of [peerExpiryLoop]. *)
Definition expireStalePeers (s : IPSCServer) (now : time) : IPSCServer :=
  let expired := List.filter (fun '(_, p) => stale_peer now p) (peer_iter (is_peers s)) in
  let s := with_table s (foldl (fun m '(id, _) => delete id m) (is_peers s) expired) in
  if is_offlineHandler s then with_offline s (is_offline s ++ ((fun '(_, p) => moto_key (peer_ID p)) <$> expired)) else s.

Definition peerExpiryTick (s : IPSCServer) (now : time) : IPSCServer := if is_stopped s then s else expireStalePeers s now.

(** ** Handlers *)

Definition send_reply (s : IPSCServer) (reply : list Z) (addr : option NetAddr) (now : time) : IPSCServer * option IpscError :=
  let '(s, ok) := sendPacket s None reply addr now in (s, if ok then None else Some ErrSend).

Definition handleMasterRegisterRequest (s : IPSCServer) (data : list Z) (addr : option NetAddr) (now : time) : IPSCServer * option IpscError :=
  match parsePeerID data with
  | None => (s, Some ErrNoPeerID)
  | Some peerID =>
      let '(mode, flags) :=
        if (10 <=? length data)%nat then (data.[5], slice 6 10 data) else (defaultModeByte, defaultFlagsBytes s) in
      let s := upsertPeer s peerID addr mode flags now in
      send_reply s (buildMasterRegisterReply s) addr now
  end.

Definition handleMasterAliveRequest (s : IPSCServer) (data : list Z) (addr : option NetAddr) (now : time) : IPSCServer * option IpscError :=
  match parsePeerID data with
  | None => (s, Some ErrNoPeerID)
  | Some peerID => let s := markPeerAlive s peerID addr now in send_reply s (buildMasterAliveReply s) addr now
  end.

Definition handlePeerListRequest (s : IPSCServer) (data : list Z) (addr : option NetAddr) (now : time) : IPSCServer * option IpscError :=
  match parsePeerID data with
  | None => (s, Some ErrNoPeerID)
  | Some _ => send_reply s (buildPeerListReply s) addr now
  end.

Definition handleRepeaterWakeUp (s : IPSCServer) (data : list Z) (addr : option NetAddr) (now : time) : IPSCServer * option IpscError :=
  match parsePeerID data with
  | None => (s, Some ErrNoPeerID)
  | Some peerID => (markPeerAlive s peerID addr now, None)
  end.

Definition handleUserPacket (s : IPSCServer) (packetType : Z) (data : list Z) (addr : option NetAddr) (now : time) : IPSCServer * option IpscError :=
  match parsePeerID data with
  | None => (s, Some ErrNoPeerID)
  | Some peerID =>
      let s := markPeerAlive s peerID addr now in
      (if is_burstHandler s then with_bursts s (is_bursts s ++ [(packetType, data, addr)]) else s, None)
  end.

Definition is_user_type (packetType : Z) : bool :=
  bool_decide (packetType ∈ [PacketType_GroupVoice; PacketType_PrivateVoice; PacketType_GroupData; PacketType_PrivateData]).
Definition is_reply_type (packetType : Z) : bool :=
  bool_decide (packetType ∈ [PacketType_MasterRegisterReply; PacketType_PeerListReply; PacketType_MasterAliveReply; PacketType_ControlF0]).

Definition dispatch_type (s : IPSCServer) (packetType : Z) (data : list Z) (addr : option NetAddr) (now : time) : IPSCServer * option IpscError :=
  if is_user_type packetType then handleUserPacket s packetType data addr now
  else if packetType =? PacketType_RepeaterWakeUp then handleRepeaterWakeUp s data addr now
  else if packetType =? PacketType_MasterRegisterRequest then handleMasterRegisterRequest s data addr now
  else if packetType =? PacketType_MasterAliveRequest then handleMasterAliveRequest s data addr now
  else if packetType =? PacketType_PeerListRequest then handlePeerListRequest s data addr now
  else if is_reply_type packetType then (s, Some ErrPacketIgnored)
  else (s, Some ErrUnknownType).

(** The payload of a packet, or the error it is refused with. *)
Definition checked (s : IPSCServer) (data : list Z) : list Z + IpscError :=
  if (length data <? 1)%nat then inr ErrTooShort
  else if is_auth s then
    if (length data <=? 10)%nat then inr ErrShortForAuth
    else if negb (auth s data) then inr ErrAuthFailed
    else inl (payload_of data)
  else inl data.

Definition handlePacket (s : IPSCServer) (data : list Z) (addr : option NetAddr) (now : time) : IPSCServer * option IpscError :=
  match checked s data with
  | inr e => (s, Some e)
  | inl payload => dispatch_type s (data.[0]) payload addr now
  end.

(** ** Sending bursts *)

(** [pacePeer] reads the last sending time in one critical section, sleeps, and
    writes the new one in a second. *)
Definition pace_wait (s : IPSCServer) (peerID : Z) (now : time) : Z :=
  let last := default 0 (is_lastSend s !! peerID) in
  if negb (time_is_zero last) then
    let elapsed := time_sub now last in
    if elapsed <? burstInterval then burstInterval - elapsed else 0
  else 0.
Definition pace_mark (s : IPSCServer) (peerID : Z) (now : time) : IPSCServer :=
  with_lastSend s (<[peerID := now]> (is_lastSend s)).

(** The time after the pause, which may be late by [delay].  The packet that is paced
    is written at this instant; the code writes it right after. *)
Definition pacePeer (s : IPSCServer) (peerID : Z) (now : time) (delay : Z) : IPSCServer * time :=
  let now := now + pace_wait s peerID now + delay in (pace_mark s peerID now, now).

Definition send_allowed (s : IPSCServer) (peerID : Z) : bool :=
  match is_sendFilter s with Some f => f (moto_key peerID) | None => true end.

(** One peer of [SendUserPacket]; [delay] says how late each pause ends. *)
Definition send_burst (data : list Z) (delay : Z -> Z) (acc : IPSCServer * time) (p : Peer) : IPSCServer * time :=
  let '(s, now) := acc in
  if negb (send_allowed s (peer_ID p)) then (s, now)
  else
    let '(s, now) := pacePeer s (peer_ID p) now (delay (peer_ID p)) in
    (fst (sendPacket s (Some (peer_ID p)) data (peer_Addr p) now), now).

Definition SendUserPacket (s : IPSCServer) (data : list Z) (now : time) (delay : Z -> Z) : IPSCServer * time :=
  if is_stopped s then (s, now)
  else
    let peers := List.filter (fun p => bool_decide (is_Some (peer_Addr p))) (snd <$> peer_iter (is_peers s)) in
    foldl (send_burst data delay) (s, now) peers.

Definition SendUserPacketToPeer (s : IPSCServer) (peerID : Z) (data : list Z) (now : time) (delay : Z) : IPSCServer * bool :=
  if is_stopped s || (peerID =? 0) then (s, false)
  else if negb (send_allowed s peerID) then (s, false)
  else
    match is_peers s !! peerID ≫= peer_Addr with
    | None => (s, false)
    | Some addr =>
        let '(s, now) := pacePeer s peerID now delay in
        sendPacket s (Some peerID) data (Some addr) now
    end.

End server.

(** ** Histories of a running server *)

Inductive ipsc_event :=
| EvPacket (data : list Z) (addr : option NetAddr) (now : time)
| EvTick (now : time)
| EvSendAll (data : list Z) (now : time) (delay : Z -> Z)
| EvSendTo (peerID : Z) (data : list Z) (now : time) (delay : Z).

Definition event_time (e : ipsc_event) : time :=
  match e with EvPacket _ _ now | EvTick now | EvSendAll _ now _ | EvSendTo _ _ now _ => now end.

Section histories.
Context `{PeerNet} `{!PeerNetLaws}.

Definition ipsc_step (s : IPSCServer) (e : ipsc_event) : IPSCServer :=
  match e with
  | EvPacket data addr now => fst (handlePacket s data addr now)
  | EvTick now => peerExpiryTick s now
  | EvSendAll data now delay => fst (SendUserPacket s data now delay)
  | EvSendTo peerID data now delay => fst (SendUserPacketToPeer s peerID data now delay)
  end.

(** A server with its handlers set that has not received anything. *)
Definition fresh (s : IPSCServer) : Prop :=
  is_peers s = ∅ /\ is_lastSend s = ∅ /\ is_stopped s = false /\ is_wire s = [] /\ is_bursts s = [].

(** ** What one packet says of a peer *)

(** The peer a payload comes from, and its mode and flags in a registration. *)
Definition peer_packet (s : IPSCServer) (payload : list Z) : option (Z * option (Z * list Z)) :=
  let packetType := payload.[0] in
  id ← parsePeerID payload;
  if is_user_type packetType || (packetType =? PacketType_RepeaterWakeUp) || (packetType =? PacketType_MasterAliveRequest)
  then Some (id, None)
  else if packetType =? PacketType_MasterRegisterRequest
  then Some (id, Some (if (10 <=? length payload)%nat then (payload.[5], slice 6 10 payload) else (defaultModeByte, defaultFlagsBytes s)))
  else None.

Inductive peer_input := Heard (registration : option (Z * list Z)) (addr : option NetAddr) (t : time) | Tick (t : time).

(** The life of one peer, whatever the others do. *)
Definition peer_next (id : Z) (st : option Peer) (i : peer_input) : option Peer :=
  match i with
  | Heard None addr t => Some (alive (default (new_peer id) st) addr t)
  | Heard (Some (mode, flags)) addr t => Some (registered (default (new_peer id) st) addr mode flags t)
  | Tick t => p ← st; if stale_peer t p then None else Some p
  end.

Definition input_of (s : IPSCServer) (id : Z) (e : ipsc_event) : option peer_input :=
  match e with
  | EvPacket data addr now =>
      match checked s data with
      | inl payload =>
          '(id', registration) ← peer_packet s payload;
          if id' =? id then Some (Heard registration addr now) else None
      | inr _ => None
      end
  | EvTick now => Some (Tick now)
  | _ => None
  end.

(** ** Frames *)

(** What no step changes. *)
Definition same_setup (s s' : IPSCServer) : Prop :=
  is_auth s' = is_auth s /\ is_localID s' = is_localID s /\ is_authKey s' = is_authKey s /\ is_stopped s' = is_stopped s /\
  is_burstHandler s' = is_burstHandler s /\ is_peerHandler s' = is_peerHandler s /\
  is_offlineHandler s' = is_offlineHandler s /\ is_sendFilter s' = is_sendFilter s.

Lemma same_setup_trans s1 s2 s3 : same_setup s1 s2 -> same_setup s2 s3 -> same_setup s1 s3.
Proof. unfold same_setup. intuition congruence. Qed.

(** Sending changes nothing but the wire and the sending times. *)
Definition only_sends (s s' : IPSCServer) : Prop :=
  same_setup s s' /\ is_peers s' = is_peers s /\ is_bursts s' = is_bursts s /\ is_updates s' = is_updates s /\
  is_offline s' = is_offline s.

Lemma only_sends_refl s : only_sends s s.
Proof. done. Qed.
Lemma only_sends_trans s1 s2 s3 : only_sends s1 s2 -> only_sends s2 s3 -> only_sends s1 s3.
Proof. unfold only_sends, same_setup. intuition congruence. Qed.

Lemma sendPacket_only s peer data addr now : only_sends s (fst (sendPacket s peer data addr now)).
Proof. unfold sendPacket. by destruct (udp_ok addr (signed s data)). Qed.

Lemma sendPacket_wire s peer data addr now :
  is_wire (fst (sendPacket s peer data addr now)) =
    is_wire s ++ (if udp_ok addr (signed s data) then [mkDatagram now peer addr (signed s data)] else []) /\
  is_lastSend (fst (sendPacket s peer data addr now)) = is_lastSend s.
Proof. unfold sendPacket. destruct (udp_ok addr (signed s data)); [done |]. by rewrite app_nil_r. Qed.

Lemma send_burst_only data delay acc p : only_sends (fst acc) (fst (send_burst data delay acc p)).
Proof.
  destruct acc as [s now]. unfold send_burst. destruct (negb _); [done |]. unfold pacePeer. cbn [fst].
  exact (sendPacket_only (pace_mark s (peer_ID p) _) _ data (peer_Addr p) _).
Qed.

Lemma send_all_only s data now delay : only_sends s (fst (SendUserPacket s data now delay)).
Proof.
  unfold SendUserPacket. destruct (is_stopped s); [done |].
  apply (foldl_inv (fun acc => only_sends s (fst acc))); [done |].
  intros acc p _ Ha. eapply only_sends_trans; [exact Ha | apply send_burst_only].
Qed.

Lemma send_to_only s peerID data now delay : only_sends s (fst (SendUserPacketToPeer s peerID data now delay)).
Proof.
  unfold SendUserPacketToPeer. destruct (_ || _); [done |]. destruct (negb _); [done |].
  destruct (is_peers s !! peerID ≫= peer_Addr); [| done].
  exact (sendPacket_only (pace_mark s peerID _) _ data _ _).
Qed.

Lemma put_peer_fields s id p :
  same_setup s (put_peer s id p) /\ is_peers (put_peer s id p) = <[id := p]> (is_peers s) /\
  is_bursts (put_peer s id p) = is_bursts s /\ is_wire (put_peer s id p) = is_wire s /\ is_lastSend (put_peer s id p) = is_lastSend s.
Proof. unfold put_peer. cbv zeta. by destruct (is_peerHandler (with_table s _)). Qed.

Lemma reply_only s reply addr now : only_sends s (fst (send_reply s reply addr now)).
Proof.
  unfold send_reply. pose proof (sendPacket_only s None reply addr now). by destruct (sendPacket s None reply addr now).
Qed.

(** What a handler does to the table: one peer takes its next state. *)
Definition hears (s : IPSCServer) (said : option (Z * option (Z * list Z))) (addr : option NetAddr) (now : time) (s' : IPSCServer) : Prop :=
  same_setup s s' /\ is_lastSend s' = is_lastSend s /\
  forall id, is_peers s' !! id =
    match said with
    | Some (id', registration) =>
        if id' =? id then peer_next id (is_peers s !! id) (Heard registration addr now) else is_peers s !! id
    | None => is_peers s !! id
    end.

Lemma hears_nothing s addr now s' : only_sends s s' -> is_lastSend s' = is_lastSend s -> hears s None addr now s'.
Proof. intros (? & Hp & _) ?. split_and!; [done | done |]. intros id. by rewrite Hp. Qed.

Lemma hears_put s id p registration addr now s' :
  Some p = peer_next id (is_peers s !! id) (Heard registration addr now) ->
  only_sends (put_peer s id p) s' -> is_lastSend s' = is_lastSend s -> hears s (Some (id, registration)) addr now s'.
Proof.
  intros Hp (Hs & Ht & _) Hl. destruct (put_peer_fields s id p) as (Hs' & Hp' & _).
  split_and!; [unfold same_setup in *; intuition congruence | done |]. intros id'. rewrite Ht, Hp'.
  destruct (Z.eqb_spec id id') as [<- | Hne]; [by rewrite lookup_insert_eq | by rewrite lookup_insert_ne].
Qed.

Lemma reply_spec s reply addr now :
  is_lastSend (fst (send_reply s reply addr now)) = is_lastSend s /\
  is_wire (fst (send_reply s reply addr now)) =
    is_wire s ++ (if udp_ok addr (signed s reply) then [mkDatagram now None addr (signed s reply)] else []).
Proof.
  unfold send_reply. destruct (sendPacket_wire s None reply addr now) as [E1 E2].
  by destruct (sendPacket s None reply addr now).
Qed.

(** The bursts a payload is handed on as. *)
Definition burst_of (s : IPSCServer) (payload : list Z) (addr : option NetAddr) : list (Z * list Z * option NetAddr) :=
  if is_user_type (payload.[0]) && is_burstHandler s && bool_decide (is_Some (parsePeerID payload))
  then [(payload.[0], payload, addr)] else [].

(** The reply to a payload, in the state of the table after it. *)
Definition reply_of (s' : IPSCServer) (payload : list Z) : option (list Z) :=
  let packetType := payload.[0] in
  _ ← parsePeerID payload;
  if packetType =? PacketType_MasterRegisterRequest then Some (buildMasterRegisterReply s')
  else if packetType =? PacketType_MasterAliveRequest then Some (buildMasterAliveReply s')
  else if packetType =? PacketType_PeerListRequest then Some (buildPeerListReply s')
  else None.

Definition sent_reply (s : IPSCServer) (reply : option (list Z)) (addr : option NetAddr) (now : time) : list Datagram :=
  match reply with
  | Some r => if udp_ok addr (signed s r) then [mkDatagram now None addr (signed s r)] else []
  | None => []
  end.

Ltac use_reply :=
  match goal with |- context [send_reply ?s ?r ?addr ?now] =>
    destruct (reply_spec s r addr now) as [Hl Hw]; pose proof (reply_only s r addr now) as Ho;
    destruct (send_reply s r addr now) as [s' e]; cbn [fst] in *
  end.

Lemma user_packet_spec s payload addr now id :
  parsePeerID payload = Some id ->
  let s' := fst (handleUserPacket s (payload.[0]) payload addr now) in
  hears s (Some (id, None)) addr now s' /\
  is_bursts s' = is_bursts s ++ (if is_burstHandler s then [(payload.[0], payload, addr)] else []) /\
  is_wire s' = is_wire s.
Proof.
  intros Eid. cbv zeta. unfold handleUserPacket. rewrite Eid. unfold markPeerAlive. set (p := alive _ addr now).
  destruct (put_peer_fields s id p) as (Hs & Hp & Hb & Hw & Hl).
  assert (Hb' : is_burstHandler (put_peer s id p) = is_burstHandler s) by apply Hs. rewrite Hb'.
  assert (Ht : forall id', is_peers (put_peer s id p) !! id' =
    (if id =? id' then peer_next id' (is_peers s !! id') (Heard None addr now) else is_peers s !! id')).
  { intros id'. rewrite Hp. destruct (Z.eqb_spec id id') as [<- | Hne]; [by rewrite lookup_insert_eq | by rewrite lookup_insert_ne]. }
  destruct (is_burstHandler s) eqn:E; cbn [fst]; (split_and!; [split_and! | |]); rewrite ?app_nil_r; cbn [with_bursts is_bursts is_wire];
    rewrite ?Hb; try done.
Qed.

(** User packets are not answered. *)
Lemma user_no_reply s payload : is_user_type (payload.[0]) = true -> reply_of s payload = None.
Proof.
  unfold is_user_type, reply_of. intros E%bool_decide_eq_true_1. destruct (parsePeerID payload); [| done]. cbn [mbind option_bind].
  repeat (apply elem_of_cons in E as [-> | E]; [done |]). by apply elem_of_nil in E.
Qed.

Lemma dispatch_spec s payload addr now :
  let s' := fst (dispatch_type s (payload.[0]) payload addr now) in
  hears s (peer_packet s payload) addr now s' /\ is_bursts s' = is_bursts s ++ burst_of s payload addr /\
  is_wire s' = is_wire s ++ sent_reply s (reply_of s' payload) addr now.
Proof.
  cbv zeta. unfold dispatch_type, burst_of, reply_of, peer_packet. set (t := payload.[0]).
  destruct (parsePeerID payload) as [id |] eqn:Eid; cycle 1.
  { unfold handleUserPacket, handleRepeaterWakeUp, handleMasterRegisterRequest, handleMasterAliveRequest, handlePeerListRequest.
    rewrite Eid, bool_decide_false, andb_false_r by (by intros [? ?]).
    repeat case_match; cbn [fst mbind option_bind sent_reply]; rewrite !app_nil_r; (split; [by apply hears_nothing | done]). }
  cbn [mbind option_bind]. rewrite (bool_decide_true (is_Some (Some id))), andb_true_r by done.
  destruct (is_user_type t) eqn:Eu; cbn [orb andb].
  { destruct (user_packet_spec s payload addr now id Eid) as (U1 & U2 & U3).
    pose proof (user_no_reply (fst (handleUserPacket s t payload addr now)) payload Eu) as Hn. unfold reply_of in Hn. rewrite Eid in Hn.
    cbn [mbind option_bind] in Hn. fold t in U1, U2, U3, Hn. split_and!; [done | done |]. rewrite Hn. cbn [sent_reply]. by rewrite app_nil_r. }
  rewrite app_nil_r.
  destruct (Z.eqb_spec t PacketType_RepeaterWakeUp) as [-> | Nw]; cbn [orb].
  { unfold handleRepeaterWakeUp. rewrite Eid. unfold markPeerAlive. set (p := alive _ addr now).
    destruct (put_peer_fields s id p) as (Hs & Hp & Hb & Hw & Hl). cbn [fst sent_reply]. rewrite app_nil_r.
    split; [| done]. by eapply (hears_put s id p). }
  destruct (Z.eqb_spec t PacketType_MasterAliveRequest) as [-> | Ha]; cbn [orb].
  { change (PacketType_MasterAliveRequest =? PacketType_MasterRegisterRequest) with false. cbn iota.
    change (PacketType_MasterAliveRequest =? PacketType_MasterAliveRequest) with true. cbn iota.
    unfold handleMasterAliveRequest. rewrite Eid. unfold markPeerAlive. set (p := alive _ addr now).
    destruct (put_peer_fields s id p) as (Hs & Hp & Hb & Hw' & Hl'). use_reply. split; [| split].
    - apply (hears_put s id p); [done | done | congruence].
    - destruct Ho as (_ & _ & Hb' & _). congruence.
    - destruct Ho as [(E1 & E2 & E3 & _) _]. rewrite Hw, Hw'. f_equal. unfold sent_reply, buildMasterAliveReply, reply_head, defaultFlagsBytes.
      unfold signed. destruct Hs as (F1 & F2 & F3 & _). by rewrite E1, E2, F1, F2, F3. }
  destruct (Z.eqb_spec t PacketType_MasterRegisterRequest) as [-> | Hr].
  { unfold handleMasterRegisterRequest. rewrite Eid.
    destruct (if (10 <=? length payload)%nat then _ else _) as [mode flags]. unfold upsertPeer. set (p := registered _ addr mode flags now).
    destruct (put_peer_fields s id p) as (Hs & Hp & Hb & Hw' & Hl'). use_reply. split; [| split].
    - apply (hears_put s id p); [done | done | congruence].
    - destruct Ho as (_ & _ & Hb' & _). congruence.
    - destruct Ho as [(E1 & E2 & E3 & _) (Ep & _)]. rewrite Hw, Hw'. f_equal.
      unfold sent_reply, buildMasterRegisterReply, reply_head, defaultFlagsBytes.
      unfold signed. destruct Hs as (F1 & F2 & F3 & _). by rewrite E1, E2, Ep, F1, F2, F3. }
  destruct (Z.eqb_spec t PacketType_PeerListRequest) as [-> | Hq].
  { unfold handlePeerListRequest. rewrite Eid. use_reply. split; [by apply hears_nothing | split; [apply Ho |]].
    destruct Ho as [(E1 & E2 & E3 & _) (Ep & _)]. rewrite Hw. f_equal. cbn iota.
    unfold sent_reply, buildPeerListReply, buildPeerList, reply_head. by rewrite E2, Ep. }
  destruct (is_reply_type t); cbn [fst sent_reply]; rewrite app_nil_r; (split; [by apply hears_nothing | done]).
Qed.

(** ** Steps *)

Lemma setup_checked s s' data : same_setup s s' -> checked s' data = checked s data.
Proof. intros (E1 & _ & E2 & _). unfold checked, auth. by rewrite E1, E2. Qed.

Lemma setup_input s s' id e : same_setup s s' -> input_of s' id e = input_of s id e.
Proof.
  intros Hs. destruct e as [data addr now | | |]; try done. cbn [input_of]. rewrite (setup_checked s s') by done.
  destruct (checked s data); [| done]. unfold peer_packet, defaultFlagsBytes. by destruct Hs as (-> & _).
Qed.

(** The first byte is the same before and behind the check. *)
Lemma checked_payload s data payload :
  checked s data = inl payload -> payload.[0] = data.[0] /\ data <> [] /\ payload <> [] /\
  (if is_auth s then data = payload ++ mac (is_authKey s) payload else data = payload).
Proof.
  unfold checked. destruct (Nat.ltb_spec (length data) 1) as [| Hlen]; [done |].
  assert (data <> []) by (by destruct data; cbn in Hlen; [lia |]).
  destruct (is_auth s); [| intros [= <-]; done].
  destruct (Nat.leb_spec (length data) 10) as [| Hlen']; [done |]. destruct (auth s data) eqn:Ea; [| done]. intros [= <-].
  apply bool_decide_eq_true_1 in Ea. unfold payload_of, tag_of in *. split_and!; [by rewrite byte_at_take by lia | done | |].
  - intros E. apply (f_equal length) in E. rewrite length_take in E. cbn in E. lia.
  - by rewrite <- Ea, take_drop.
Qed.

Lemma delete_all_lookup {A} (l : list (Z * A)) (m : gmap Z A) id :
  foldl (fun m '(id, _) => delete id m) m l !! id = if decide (id ∈ l.*1) then None else m !! id.
Proof.
  revert m. induction l as [| [k a] l IH]; intros m; [done |]. cbn [foldl fmap list_fmap fst]. rewrite IH.
  destruct (decide (id ∈ l.*1)) as [Hin | Hin]; [by rewrite decide_True by (by right) |].
  destruct (decide (id = k)) as [-> | Hne]; [by rewrite lookup_delete_eq, decide_True by left |].
  rewrite lookup_delete_ne by done. rewrite decide_False; [done |]. by rewrite not_elem_of_cons.
Qed.

(** The peers a tick takes off. *)
Definition expired (s : IPSCServer) (now : time) : list (Z * Peer) :=
  List.filter (fun '(_, p) => stale_peer now p) (peer_iter (is_peers s)).

Lemma expired_iff s now id p : (id, p) ∈ expired s now <-> is_peers s !! id = Some p /\ stale_peer now p = true.
Proof.
  unfold expired. rewrite list_elem_of_In, List.filter_In, <- list_elem_of_In, peer_iter_elements, elem_of_map_to_list. done.
Qed.

Lemma tick_spec s now :
  is_stopped s = false ->
  let s' := peerExpiryTick s now in
  same_setup s s' /\ is_lastSend s' = is_lastSend s /\ is_bursts s' = is_bursts s /\ is_wire s' = is_wire s /\
  (forall id, is_peers s' !! id = peer_next id (is_peers s !! id) (Tick now)) /\
  is_offline s' = is_offline s ++ (if is_offlineHandler s then (fun '(_, p) => moto_key (peer_ID p)) <$> expired s now else []).
Proof.
  intros Hst. cbv zeta. unfold peerExpiryTick. rewrite Hst. unfold expireStalePeers. fold (expired s now).
  set (s1 := with_table s _).
  assert (Ht : forall id, is_peers s1 !! id = peer_next id (is_peers s !! id) (Tick now)).
  { intros id. unfold s1. cbn [with_table is_peers]. rewrite delete_all_lookup. cbn [peer_next].
    destruct (decide (id ∈ (expired s now).*1)) as [Hin | Hin].
    - apply list_elem_of_fmap in Hin as ([k p] & -> & Hin). cbn [fst]. apply expired_iff in Hin as [-> Hp]. cbn. by rewrite Hp.
    - destruct (is_peers s !! id) as [p |] eqn:E; [| done]. cbn. destruct (stale_peer now p) eqn:Ep; [| done].
      exfalso. apply Hin. apply list_elem_of_fmap. exists (id, p). split; [done |]. by apply expired_iff. }
  change (is_offlineHandler s1) with (is_offlineHandler s).
  destruct (is_offlineHandler s) eqn:E; rewrite ?app_nil_r; split_and!; done.
Qed.

Lemma ipsc_step_spec s e :
  is_stopped s = false ->
  same_setup s (ipsc_step s e) /\
  (forall id, is_peers (ipsc_step s e) !! id =
    match input_of s id e with Some i => peer_next id (is_peers s !! id) i | None => is_peers s !! id end).
Proof.
  intros Hst. destruct e as [data addr now | now | data now delay | id data now delay]; cbn [ipsc_step input_of].
  - unfold handlePacket. destruct (checked s data) as [payload | e] eqn:Ec; [| done].
    destruct (checked_payload _ _ _ Ec) as (Eh & _). rewrite <- Eh.
    destruct (dispatch_spec s payload addr now) as ((Hs & _ & Hp) & _). split; [done |]. intros id. rewrite Hp.
    destruct (peer_packet s payload) as [[id' r] |]; [| done]. cbn. by destruct (id' =? id).
  - destruct (tick_spec s now Hst) as (Hs & _ & _ & _ & Hp & _). done.
  - destruct (send_all_only s data now delay) as (Hs & Hp & _). split; [done |]. intros id. by rewrite Hp.
  - destruct (send_to_only s id data now delay) as (Hs & Hp & _). split; [done |]. intros id'. by rewrite Hp.
Qed.

Definition ipsc_run (s : IPSCServer) (evs : list ipsc_event) : IPSCServer := foldl ipsc_step s evs.

Lemma ipsc_run_setup s evs : is_stopped s = false -> same_setup s (ipsc_run s evs).
Proof.
  intros Hst. apply (foldl_inv (fun s' => same_setup s s')); [done |]. intros s' e _ Hs.
  destruct (ipsc_step_spec s' e) as [Hs' _]; [destruct Hs as (_ & _ & _ & -> & _); done |]. unfold same_setup in *. intuition congruence.
Qed.

Lemma run_not_stopped s evs : is_stopped s = false -> is_stopped (ipsc_run s evs) = false.
Proof. intros Hst. destruct (ipsc_run_setup s evs Hst) as (_ & _ & _ & -> & _). done. Qed.

Lemma ipsc_run_snoc s evs e : ipsc_run s (evs ++ [e]) = ipsc_step (ipsc_run s evs) e.
Proof. unfold ipsc_run. by rewrite foldl_app. Qed.

(** The inputs of one peer in a history. *)
Definition inputs (s : IPSCServer) (id : Z) (evs : list ipsc_event) : list peer_input := omap (input_of s id) evs.

Lemma peer_table_run s evs id :
  fresh s -> is_peers (ipsc_run s evs) !! id = foldl (peer_next id) None (inputs s id evs).
Proof.
  intros (Hp & _ & Hst & _). induction evs as [| e evs IH] using rev_ind; [change (ipsc_run s []) with s; by rewrite Hp, lookup_empty |].
  rewrite ipsc_run_snoc. unfold inputs. rewrite omap_app, foldl_app. fold (inputs s id evs). rewrite <- IH.
  destruct (ipsc_step_spec (ipsc_run s evs) e (run_not_stopped _ _ Hst)) as [_ ->].
  rewrite (setup_input s) by (by apply ipsc_run_setup). cbn [omap list_omap]. by destruct (input_of s id e).
Qed.

(** C27: The peers of the server are independent.  After any history the entry
    of a peer in the table is what the packets that came from this peer and the
    expiry ticks alone make of it: a registration sets address, mode and flags,
    any other packet counts as a sign of life, a tick after more than thirty
    seconds of silence removes it; packets of other peers, packets that fail the
    authentication and everything the server sends have no part in it. *)
Theorem peer_table_refines s evs id :
  fresh s -> is_peers (ipsc_run s evs) !! id = foldl (peer_next id) None (inputs s id evs).
Proof. apply peer_table_run. Qed.

(** ** Expiry *)

(** When a peer was heard. *)
Definition heard_time (i : peer_input) : option time := match i with Heard _ _ t => Some t | Tick _ => None end.
Definition heard (s : IPSCServer) (id : Z) (evs : list ipsc_event) : list time := omap heard_time (inputs s id evs).

Definition clock_ok (evs : list ipsc_event) (now : time) : Prop := no_backstep (rev (event_time <$> evs)) now.

Lemma clock_ok_snoc evs e now : clock_ok (evs ++ [e]) now <-> event_time e <= now /\ clock_ok evs (event_time e).
Proof. unfold clock_ok. by rewrite fmap_app, rev_app_distr. Qed.

Lemma heard_snoc s id evs e :
  heard s id (evs ++ [e]) = heard s id evs ++ match input_of s id e ≫= heard_time with Some t => [t] | None => [] end.
Proof. unfold heard, inputs. rewrite !omap_app. cbn. destruct (input_of s id e) as [[r a t | t] |]; done. Qed.

Lemma input_time s id e i : input_of s id e = Some i -> match i with Heard _ _ t | Tick t => t = event_time e end.
Proof.
  destruct e as [data addr now | now | |]; cbn; [| by intros [= <-] | done | done].
  destruct (checked s data); [| done]. destruct (peer_packet s l) as [[id' r] |]; [| done]. cbn.
  destruct (id' =? id); [| done]. by intros [= <-].
Qed.

Lemma stale_iff now p : stale_peer now p = true <-> ipscPeerTimeout < now - peer_LastSeen p.
Proof.
  unfold stale_peer. rewrite Z.ltb_lt. pose proof (time_sub_gt now (peer_LastSeen p) ipscPeerTimeout) as H'.
  unfold ipscPeerTimeout, second, millisecond in *. unfold max_duration in H'. lia.
Qed.

Lemma expiry_inv s evs now id :
  fresh s -> clock_ok evs now ->
  match is_peers (ipsc_run s evs) !! id with
  | Some p => last (heard s id evs) = Some (peer_LastSeen p) /\ peer_ID p = id
  | None => forall t, last (heard s id evs) = Some t -> ipscPeerTimeout < now - t
  end.
Proof.
  intros Hf. rewrite peer_table_run by done. revert now.
  induction evs as [| e evs IH] using rev_ind; intros now Hc; [done |].
  apply clock_ok_snoc in Hc as [Hle Hc]. specialize (IH _ Hc).
  unfold inputs. rewrite omap_app, foldl_app. fold (inputs s id evs). rewrite heard_snoc. cbn [omap list_omap].
  destruct (input_of s id e) as [i |] eqn:Ei; cbn [mbind option_bind foldl]; cycle 1.
  { rewrite app_nil_r. destruct (foldl (peer_next id) None (inputs s id evs)); [done |]. intros t Et. specialize (IH t Et). lia. }
  pose proof (input_time _ _ _ _ Ei) as Et. set (st := foldl (peer_next id) None (inputs s id evs)) in *. clearbody st.
  destruct i as [[[mode flags] |] addr t | t]; cbn [heard_time peer_next].
  1, 2: rewrite last_snoc; split; [done |]; destruct st as [p |]; [apply IH | done].
  rewrite app_nil_r. destruct st as [p |]; cbn [mbind option_bind]; cycle 1.
  { intros t' Et'. specialize (IH t' Et'). lia. }
  destruct (stale_peer t p) eqn:Es; [| done]. apply stale_iff in Es. destruct IH as [IH _].
  intros t' Et'. rewrite IH in Et'. injection Et' as <-. subst t. lia.
Qed.

(** The server knows exactly the peers heard within the last thirty
    seconds.  After any history with a clock that does not go back, a tick
    leaves a peer in the table exactly when its last accepted packet is no older
    than the timeout; the entry then carries the time of that packet.  The tick
    reports exactly the peers it removes as offline, each once. *)
Theorem expiry_exact s evs now :
  fresh s -> is_offlineHandler s = true -> clock_ok evs now ->
  let before := ipsc_run s evs in
  let after := peerExpiryTick before now in
  (forall id t, (peer_LastSeen <$> is_peers after !! id = Some t <-> last (heard s id evs) = Some t /\ now - t <= ipscPeerTimeout)) /\
  exists off, is_offline after = is_offline before ++ (moto_key <$> off) /\ NoDup off /\
    forall id, id ∈ off <-> is_Some (is_peers before !! id) /\ is_peers after !! id = None.
Proof.
  intros Hf Ho Hc. cbv zeta. set (b := ipsc_run s evs).
  assert (Hst : is_stopped b = false) by (apply run_not_stopped, Hf).
  assert (Hoff : is_offlineHandler b = true) by (destruct (ipsc_run_setup s evs ltac:(apply Hf)) as (_&_&_&_&_&_&E&_); unfold b; congruence).
  destruct (tick_spec b now Hst) as (_ & _ & _ & _ & Hp & Hoffs). rewrite Hoff in Hoffs.
  assert (Hinv := fun id => expiry_inv s evs now id Hf Hc). fold b in Hinv.
  split.
  - intros id t. rewrite Hp. specialize (Hinv id). destruct (is_peers b !! id) as [p |] eqn:E; cbn [peer_next mbind option_bind].
    + destruct Hinv as [-> _]. destruct (stale_peer now p) eqn:Es; cbn.
      * apply stale_iff in Es. split; [done |]. intros ([= <-] & Hle). lia.
      * assert (~ ipscPeerTimeout < now - peer_LastSeen p) by (rewrite <- stale_iff; congruence). split; [intros [= <-]; split; [done | lia] | by intros [[= <-] _]].
    + split; [done |]. intros [El Hle]. specialize (Hinv t El). lia.
  - exists (fst <$> expired b now). split; [| split].
    + rewrite Hoffs, <- list_fmap_compose. f_equal. apply list_fmap_ext. intros i [id p] Hin.
      apply list_elem_of_lookup_2, expired_iff in Hin as [E _]. specialize (Hinv id). rewrite E in Hinv. destruct Hinv as [_ Hid].
      cbn. by rewrite Hid.
    + unfold expired. assert (Hnd : NoDup (peer_iter (is_peers b)).*1) by (rewrite peer_iter_elements; apply NoDup_fst_map_to_list).
      revert Hnd. generalize (peer_iter (is_peers b)). intros l. induction l as [| [k p] l IH]; cbn; [done |].
      rewrite NoDup_cons. intros [Hk Hnd]. destruct (stale_peer now p); [| by apply IH]. cbn. apply NoDup_cons. split; [| by apply IH].
      intros Hin. apply Hk. apply list_elem_of_fmap in Hin as ([k' p'] & -> & Hin). apply list_elem_of_fmap. exists (k', p'). split; [done |].
      rewrite list_elem_of_In, List.filter_In in Hin. apply list_elem_of_In, Hin.
    + intros id. rewrite Hp, list_elem_of_fmap. split.
      * intros ([k p] & -> & Hin). cbn [fst]. apply expired_iff in Hin as [-> Es]. cbn. rewrite Es. split; [by eexists | done].
      * intros [[p Hb] Ha]. rewrite Hb in Ha. cbn in Ha. exists (id, p). split; [done |]. apply expired_iff.
        split; [done |]. by destruct (stale_peer now p).
Qed.

(** ** Authentication *)

Lemma mac_length key payload : length (mac key payload) = 10%nat.
Proof. unfold mac. rewrite length_take, hmac_length. done. Qed.

(** What one server signs, a server with the same key accepts. *)
Lemma checked_signed s s' payload :
  is_auth s' = is_auth s -> is_authKey s' = is_authKey s -> payload <> [] -> checked s' (signed s payload) = inl payload.
Proof.
  intros Ha Hk Hne. assert (0 < length payload)%nat by (destruct payload; [done | cbn; lia]).
  unfold checked, signed, auth, payload_of, tag_of. rewrite Ha, Hk.
  destruct (is_auth s); cycle 1.
  { destruct (Nat.ltb_spec (length payload) 1); [lia | done]. }
  rewrite length_app, mac_length. destruct (Nat.ltb_spec (length payload + 10) 1); [lia |].
  destruct (Nat.leb_spec (length payload + 10) 10); [lia |].
  replace (length payload + 10 - 10)%nat with (length payload) by lia.
  by rewrite drop_app_length, take_app_length, bool_decide_true.
Qed.

(** The new datagrams of a step carry a signed payload. *)
Definition all_signed (s : IPSCServer) (w : list Datagram) : Prop := Forall (fun d => exists p, dg_data d = signed s p) w.

Lemma setup_signed s s' p : same_setup s s' -> signed s' p = signed s p.
Proof. intros (E1 & _ & E2 & _). unfold signed. by rewrite E1, E2. Qed.

Lemma sendPacket_signed s0 s peer data addr now :
  same_setup s0 s -> all_signed s0 (is_wire s) -> all_signed s0 (is_wire (fst (sendPacket s peer data addr now))).
Proof.
  intros Hs Hw. destruct (sendPacket_wire s peer data addr now) as [-> _]. apply Forall_app. split; [done |].
  destruct (udp_ok addr (signed s data)); [| apply Forall_nil_2]. apply Forall_singleton. exists data.
  by apply setup_signed.
Qed.

Lemma step_signed s e : is_stopped s = false -> all_signed s (is_wire s) -> all_signed s (is_wire (ipsc_step s e)).
Proof.
  intros Hst Hw. destruct e as [data addr now | now | data now delay | id data now delay]; cbn [ipsc_step].
  - unfold handlePacket. destruct (checked s data) as [payload |] eqn:Ec; [| done].
    destruct (checked_payload _ _ _ Ec) as (<- & _). destruct (dispatch_spec s payload addr now) as (_ & _ & ->).
    apply Forall_app. split; [done |]. unfold sent_reply. destruct (reply_of _ payload) as [r |]; [| apply Forall_nil_2].
    destruct (udp_ok addr (signed s r)); [| apply Forall_nil_2]. apply Forall_singleton. by exists r.
  - by destruct (tick_spec s now Hst) as (_ & _ & _ & -> & _).
  - unfold SendUserPacket. rewrite Hst.
    apply (foldl_inv (fun acc => same_setup s (fst acc) /\ all_signed s (is_wire (fst acc)))); [done |].
    intros [s1 t1] p _ [Hs1 Hw1]. cbn [fst] in *.
    split; [eapply same_setup_trans; [exact Hs1 | apply (send_burst_only data delay (s1, t1) p)] |].
    unfold send_burst. destruct (negb _); [done |]. unfold pacePeer. cbn [fst]. by apply sendPacket_signed.
  - unfold SendUserPacketToPeer. destruct (_ || _); [done |]. destruct (negb _); [done |].
    destruct (is_peers s !! id ≫= peer_Addr); [| done]. by apply sendPacket_signed.
Qed.

Lemma run_signed s evs : fresh s -> all_signed s (is_wire (ipsc_run s evs)).
Proof.
  intros (_ & _ & Hst & Hw & _). induction evs as [| e evs IH] using rev_ind; [change (ipsc_run s []) with s; rewrite Hw; apply Forall_nil_2 |].
  rewrite ipsc_run_snoc. pose proof (ipsc_run_setup s evs Hst) as Hs.
  assert (Hall : forall w, all_signed (ipsc_run s evs) w <-> all_signed s w).
  { intros w. unfold all_signed. apply Forall_iff. intros d. by setoid_rewrite (setup_signed s _ _ Hs). }
  apply Hall, step_signed; [by apply run_not_stopped | by apply Hall].
Qed.

(** A packet that counts for a peer, or is handed on, was signed. *)
Lemma input_packet s id e r addr t :
  is_auth s = true -> input_of s id e = Some (Heard r addr t) ->
  exists payload, e = EvPacket (payload ++ mac (is_authKey s) payload) addr t /\ parsePeerID payload = Some id.
Proof.
  intros Ha. destruct e as [data addr' now | | |]; try done. cbn [input_of].
  destruct (checked s data) as [payload |] eqn:Ec; [| done]. destruct (checked_payload _ _ _ Ec) as (_ & _ & _ & Ed). rewrite Ha in Ed.
  unfold peer_packet. destruct (parsePeerID payload) as [id' |] eqn:Ep; [| done]. cbn [mbind option_bind].
  intros E. exists payload. rewrite <- Ed.
  destruct (_ || _); [| destruct (_ =? PacketType_MasterRegisterRequest); [| done]]; cbn in E;
    destruct (Z.eqb_spec id' id) as [-> |]; try done; by injection E as _ <- <-.
Qed.

Lemma peer_from_input id st ins p :
  foldl (peer_next id) st ins = Some p -> st = Some p \/ exists r, Heard r (peer_Addr p) (peer_LastSeen p) ∈ ins.
Proof.
  revert st. induction ins as [| i ins IH]; intros st E; [by left |]. cbn [foldl] in E.
  destruct (IH _ E) as [Hp | [r Hr]]; [| right; exists r; by right].
  destruct i as [[[mode flags] |] addr t | t]; cbn in Hp; [| | destruct st as [p' |]; [| done]; cbn in Hp; destruct (stale_peer t p'); [done | by left]].
  all: injection Hp as <-; right; eexists; by left.
Qed.

Lemma run_bursts s evs b :
  fresh s -> b ∈ is_bursts (ipsc_run s evs) ->
  exists data t, EvPacket data (snd b) t ∈ evs /\ checked s data = inl (snd (fst b)).
Proof.
  intros (_ & _ & Hst & _ & Hb). induction evs as [| e evs IH] using rev_ind; [change (ipsc_run s []) with s; rewrite Hb; by intros ?%elem_of_nil |].
  rewrite ipsc_run_snoc. intros Hin.
  assert (Hold : b ∈ is_bursts (ipsc_run s evs) -> exists data t, EvPacket data (snd b) t ∈ evs ++ [e] /\ checked s data = inl (snd (fst b))).
  { intros Ho. destruct (IH Ho) as (data & t & Hd & Hc). exists data, t. split; [apply elem_of_app; by left | done]. }
  pose proof (ipsc_run_setup s evs Hst) as Hs. set (s1 := ipsc_run s evs) in *.
  destruct e as [data addr now | now | data now delay | id data now delay]; cbn [ipsc_step] in Hin.
  - unfold handlePacket in Hin. destruct (checked s1 data) as [payload |] eqn:Ec; [| by apply Hold].
    destruct (checked_payload _ _ _ Ec) as (Eh & _). rewrite <- Eh in Hin.
    destruct (dispatch_spec s1 payload addr now) as (_ & Hbs & _). rewrite Hbs in Hin.
    apply elem_of_app in Hin as [Hin | Hin]; [by apply Hold |].
    unfold burst_of in Hin. destruct (_ && _); [| by apply elem_of_nil in Hin]. apply list_elem_of_singleton in Hin as ->.
    exists data, now. split; [apply elem_of_app; right; by left |]. by rewrite <- (setup_checked s s1) .
  - destruct (tick_spec s1 now) as (_ & _ & E & _); [by apply run_not_stopped |]. rewrite E in Hin. by apply Hold.
  - destruct (send_all_only s1 data now delay) as (_ & _ & E & _). rewrite E in Hin. by apply Hold.
  - destruct (send_to_only s1 id data now delay) as (_ & _ & E & _). rewrite E in Hin. by apply Hold.
Qed.

(** C28: With authentication only signed packets count.  After any history of a
    server that demands authentication, every peer in the table has the address
    and the time of a datagram that consists of a payload with its identifier
    and the truncated HMAC of the payload under the key; so has every burst that
    was handed on; and everything the server has written is signed, so that a
    server with the same key accepts it. *)
Theorem authentic_only s evs :
  fresh s -> is_auth s = true ->
  let s' := ipsc_run s evs in
  let with_mac p := p ++ mac (is_authKey s) p in
  (forall id p, is_peers s' !! id = Some p ->
    exists payload, parsePeerID payload = Some id /\ EvPacket (with_mac payload) (peer_Addr p) (peer_LastSeen p) ∈ evs) /\
  (forall packetType payload addr, (packetType, payload, addr) ∈ is_bursts s' -> exists t, EvPacket (with_mac payload) addr t ∈ evs) /\
  (forall d, d ∈ is_wire s' -> exists payload, dg_data d = with_mac payload /\ (payload <> [] -> checked s (dg_data d) = inl payload)).
Proof.
  intros Hf Ha. cbv zeta. split; [| split].
  - intros id p Hp. rewrite peer_table_run in Hp by done. apply peer_from_input in Hp as [Hp | [r Hr]]; [done |].
    apply list_elem_of_omap in Hr as (e & He & Hi). apply input_packet in Hi as (payload & -> & Hid); [| done]. by exists payload.
  - intros packetType payload addr Hb. destruct (run_bursts s evs _ Hf Hb) as (data & t & He & Hc).
    apply checked_payload in Hc as (_ & _ & _ & Hd). rewrite Ha in Hd. cbn [fst snd] in *. rewrite Hd in He. by exists t.
  - intros d Hd. pose proof (run_signed s evs Hf) as Hw. unfold all_signed in Hw. rewrite Forall_forall in Hw.
    destruct (Hw d Hd) as [payload Ep]. exists payload. split.
    + by rewrite Ep; unfold signed; rewrite Ha.
    + intros Hne. rewrite Ep. by apply checked_signed.
Qed.

(** ** The list of peers *)

(** How a repeater reads the reply: eleven bytes per peer. *)
Fixpoint read_entries (n : nat) (l : list Z) : list (Z * list Z * Z * Z) :=
  match n with
  | O => []
  | S n =>
      (get_be32 (l.[0]) (l.[1]) (l.[2]) (l.[3]), take 4 (drop 4 l), get_be16 (l.[8]) (l.[9]), l.[10]) :: read_entries n (drop 11 l)
  end.
Definition read_peer_list (reply : list Z) : list (Z * list Z * Z * Z) :=
  read_entries (Z.to_nat (get_be16 (reply.[5]) (reply.[6])) / 11) (drop 7 reply).

Lemma read_reply s t n pl :
  0 <= n < 65536 -> read_peer_list (reply_head s t ++ put_be16 n ++ pl) = read_entries (Z.to_nat n / 11) pl.
Proof.
  intros Hn. change (read_peer_list _) with (read_entries (Z.to_nat (get_be16 (u8 (Z.shiftr n 8)) (u8 n)) / 11) pl).
  by rewrite get_put_be16 by lia.
Qed.

(** Identifier, address, port and mode of a peer. *)
Definition peer_fields (entry : Z * Peer) : Z * list Z * Z * Z :=
  let '(id, p) := entry in
  let a := default (mkNetAddr None 0 "") (peer_Addr p) in (id, To4 (default [] (na_IP a)), na_Port a, peer_Mode p).

Definition ipv4 (addr : option NetAddr) : Prop :=
  exists a ip, addr = Some a /\ na_IP a = Some ip /\ length (To4 ip) = 4%nat /\ 0 <= na_Port a <= 65535.

Definition good_peer (id : Z) (p : Peer) : Prop :=
  peer_ID p = id /\ is_u32 id /\ is_byte (peer_Mode p) /\ ipv4 (peer_Addr p).

(** Datagrams of bytes, from IPv4 addresses. *)
Definition good_event (e : ipsc_event) : Prop :=
  match e with EvPacket data addr _ => Forall is_byte data /\ ipv4 addr | _ => True end.

Lemma parse_u32 payload id : Forall is_byte payload -> parsePeerID payload = Some id -> is_u32 id.
Proof.
  intros Hb. unfold parsePeerID. destruct (_ <? _)%nat; [done |]. intros [= <-].
  apply get_be32_range; by apply byte_at_Forall.
Qed.

Lemma input_good s id e r addr t :
  good_event e -> input_of s id e = Some (Heard r addr t) ->
  is_u32 id /\ ipv4 addr /\ match r with Some (mode, _) => is_byte mode | None => True end.
Proof.
  destruct e as [data addr' now | | |]; try done. intros [Hb Hi]. cbn [input_of].
  destruct (checked s data) as [payload |] eqn:Ec; [| done]. destruct (checked_payload _ _ _ Ec) as (_ & _ & _ & Ed).
  assert (Hp : Forall is_byte payload) by (destruct (is_auth s); subst data; [by apply Forall_app in Hb as [? _] | done]).
  assert (Hr : exists mode flags, is_byte mode /\
    (if (10 <=? length payload)%nat then (payload.[5], slice 6 10 payload) else (defaultModeByte, defaultFlagsBytes s)) = (mode, flags)).
  { destruct (10 <=? length payload)%nat; do 2 eexists; (split; [| done]); [by apply byte_at_Forall | done]. }
  destruct Hr as (mode & flags & Hm & Er). unfold peer_packet. rewrite Er.
  destruct (parsePeerID payload) as [id' |] eqn:Ep; [| done]. cbn [mbind option_bind]. apply parse_u32 in Ep; [| done].
  destruct (_ || _); [| destruct (_ =? PacketType_MasterRegisterRequest); [| done]]; cbn [mbind option_bind];
    destruct (Z.eqb_spec id' id) as [-> |]; try done;
    intros E; injection E as <- <- <-; split_and!; done.
Qed.

Lemma table_good s evs id p :
  fresh s -> Forall good_event evs -> is_peers (ipsc_run s evs) !! id = Some p -> good_peer id p.
Proof.
  intros Hf Hg. rewrite peer_table_run by done.
  assert (Hins : forall r addr t, Heard r addr t ∈ inputs s id evs -> is_u32 id /\ ipv4 addr /\
    match r with Some (mode, _) => is_byte mode | None => True end).
  { intros r addr t (e & He & Hi)%list_elem_of_omap. rewrite Forall_forall in Hg. by apply (input_good s id e r addr t (Hg e He)). }
  assert (H' : match foldl (peer_next id) None (inputs s id evs) with Some p => good_peer id p | None => True end).
  { apply (foldl_inv (fun st => match st with Some p => good_peer id p | None => True end)); [done |].
    intros st i Hi Hst. assert (Hn : peer_ID (default (new_peer id) st) = id /\ is_byte (peer_Mode (default (new_peer id) st)))
      by (destruct st; [split; apply Hst | done]).
    destruct i as [[[mode flags] |] addr t | t]; cbn [peer_next].
    1, 2: destruct (Hins _ _ _ Hi) as (? & ? & ?); split_and!; cbn; tauto.
    destruct st as [p' |]; [| done]. cbn. by destruct (stale_peer t p'). }
  intros E. by rewrite E in H'.
Qed.

Lemma read_entry x0 x1 x2 x3 x4 x5 x6 x7 x8 x9 x10 l n :
  read_entries (S n) ([x0; x1; x2; x3; x4; x5; x6; x7; x8; x9; x10] ++ l) =
    (get_be32 x0 x1 x2 x3, [x4; x5; x6; x7], get_be16 x8 x9, x10) :: read_entries n l.
Proof. reflexivity. Qed.

Lemma good_entry id p rest n :
  good_peer id p -> read_entries (S n) (peer_entry p ++ rest) = peer_fields (id, p) :: read_entries n rest /\ length (peer_entry p) = 11%nat.
Proof.
  intros (Hid & Hu & Hm & a & ip & Ea & Ei & Hip & Hport).
  assert (peer_fields (id, p) = (id, To4 ip, na_Port a, peer_Mode p)) as -> by (unfold peer_fields; rewrite Ea; cbn; by rewrite Ei).
  unfold peer_entry. rewrite Ea, Ei, Hid.
  destruct (Z.ltb_spec (na_Port a) 0); [lia |]. destruct (Z.ltb_spec 65535 (na_Port a)); [lia |]. cbn [orb].
  destruct (To4 ip) as [| b0 [| b1 [| b2 [| b3 [|]]]]]; try done. split; [| done]. unfold put_be32, put_be16.
  change ((_ ++ _) ++ rest) with ([u8 (Z.shiftr id 24); u8 (Z.shiftr id 16); u8 (Z.shiftr id 8); u8 id; b0; b1; b2; b3;
    u8 (Z.shiftr (na_Port a) 8); u8 (na_Port a); peer_Mode p] ++ rest).
  rewrite read_entry, get_put_be32 by done. by rewrite get_put_be16 by lia.
Qed.

Lemma read_all (l : list (Z * Peer)) rest n :
  Forall (fun '(id, p) => good_peer id p) l -> (n <= length l)%nat ->
  read_entries n ((l ≫= fun '(_, p) => peer_entry p) ++ rest) = take n (peer_fields <$> l) /\
  length (l ≫= fun '(_, p) => peer_entry p) = (11 * length l)%nat.
Proof.
  intros Hl. revert n. induction Hl as [| [id p] l Hp Hl IH]; intros n Hn.
  - by destruct n; cbn in Hn; [| lia].
  - change (((id, p) :: l) ≫= fun '(_, p) => peer_entry p) with (peer_entry p ++ (l ≫= fun '(_, p) => peer_entry p)).
    rewrite length_app, (proj2 (good_entry id p [] 0 Hp)).
    destruct n as [| n]; [destruct (IH 0%nat) as [_ ->]; [lia | cbn; split; [done | lia]] |].
    destruct (IH n) as [E ->]; [cbn in Hn; lia |]. split; [| cbn; lia].
    rewrite <- app_assoc, (proj1 (good_entry id p _ n Hp)), E. done.
Qed.

(** A repeater that asks for the peers gets them.  After any history with
    IPv4 repeaters, an accepted request is answered by one datagram to its
    sender, which a server with the same key accepts; read entry by entry, its
    payload is the list of all peers with identifier, address, port and mode,
    in some order, cut to the 5957 entries its length field can announce. *)
Theorem peer_list_roundtrip s evs request payload addr now :
  fresh s -> Forall good_event evs ->
  checked s request = inl payload -> payload.[0] = PacketType_PeerListRequest -> (5 <= length payload)%nat ->
  (forall data, udp_ok addr data = true) ->
  let s1 := ipsc_run s evs in
  exists reply peers, peers ≡ₚ map_to_list (is_peers s1) /\
    is_wire (ipsc_step s1 (EvPacket request addr now)) = is_wire s1 ++ [mkDatagram now None addr (signed s reply)] /\
    checked s (signed s reply) = inl reply /\ read_peer_list reply = take (Z.to_nat 5957) (peer_fields <$> peers).
Proof.
  intros Hf Hg Hc Ht Hlen Hudp. cbv zeta. set (s1 := ipsc_run s evs).
  assert (Hs : same_setup s s1) by (apply ipsc_run_setup, Hf).
  exists (buildPeerListReply s1), (peer_iter (is_peers s1)). split; [apply peer_iter_elements |].
  destruct (checked_payload _ _ _ Hc) as (Eh & _). cbn [ipsc_step]. unfold handlePacket. rewrite (setup_checked s s1), Hc, <- Eh by done.
  destruct (dispatch_spec s1 payload addr now) as (_ & _ & ->).
  assert (Eid : exists id, parsePeerID payload = Some id).
  { unfold parsePeerID. destruct (Nat.ltb_spec (length payload) 5); [lia | by eexists]. }
  destruct Eid as [id Eid]. split; [| split].
  - f_equal. unfold reply_of, dispatch_type. rewrite Eid, Ht. cbn [mbind option_bind].
    change (is_user_type PacketType_PeerListRequest) with false. cbn -[handlePeerListRequest buildPeerListReply].
    unfold handlePeerListRequest. rewrite Eid. pose proof (reply_only s1 (buildPeerListReply s1) addr now) as ([_ [E2 _]] & Ep & _).
    set (s2 := fst _) in *. unfold sent_reply.
    assert (buildPeerListReply s2 = buildPeerListReply s1) as -> by (unfold buildPeerListReply, buildPeerList, reply_head; by rewrite E2, Ep).
    by rewrite Hudp, (setup_signed s s1).
  - by apply checked_signed.
  - unfold buildPeerListReply. set (pl := buildPeerList s1). rewrite read_reply by lia.
    assert (Hgood : Forall (fun '(id, p) => good_peer id p) (peer_iter (is_peers s1))).
    { apply Forall_forall. intros [id' p] Hin. rewrite peer_iter_elements, elem_of_map_to_list in Hin. by eapply table_good. }
    assert (Hpl : length pl = (11 * length (peer_iter (is_peers s1)))%nat) by (apply (read_all _ [] 0); [done | lia]).
    destruct (Z_le_gt_dec (Z.of_nat (length (peer_iter (is_peers s1)))) 5957) as [Hle | Hgt].
    + replace (Z.to_nat (Z.min (Z.of_nat (length pl)) 65535) / 11)%nat with (length (peer_iter (is_peers s1))).
      * rewrite <- (app_nil_r pl). unfold pl, buildPeerList. rewrite (proj1 (read_all _ [] _ Hgood (le_n _))).
        rewrite !take_ge; rewrite ?length_fmap; [done | lia | lia].
      * rewrite Z.min_l by lia. rewrite Nat2Z.id, Hpl, Nat.mul_comm, Nat.div_mul; lia.
    + rewrite Z.min_r by lia. replace (Z.to_nat 65535 / 11)%nat with (Z.to_nat 5957) by (vm_compute; reflexivity).
      rewrite <- (app_nil_r pl). unfold pl, buildPeerList. apply read_all; [done | lia].
Qed.

(** ** Pacing *)

(** When user packets were written for a peer. *)
Definition send_times (id : Z) (w : list Datagram) : list time :=
  omap (fun d => if bool_decide (dg_peer d = Some id) then Some (dg_time d) else None) w.

Definition spaced (l : list time) : Prop := forall i a b, l !! i = Some a -> l !! S i = Some b -> a + burstInterval <= b.

(** When a step has ended. *)
Definition finish (s : IPSCServer) (e : ipsc_event) : time :=
  match e with
  | EvSendAll data now delay => snd (SendUserPacket s data now delay)
  | EvSendTo id data now delay => snd (pacePeer s id now delay)
  | _ => event_time e
  end.
Definition delays_ok (e : ipsc_event) : Prop :=
  match e with EvSendAll _ _ delay => forall id, 0 <= delay id | EvSendTo _ _ _ delay => 0 <= delay | _ => True end.

(** Every step begins when the one before has ended. *)
Fixpoint sequential (s : IPSCServer) (t : time) (evs : list ipsc_event) : Prop :=
  match evs with
  | [] => True
  | e :: evs => t <= event_time e /\ delays_ok e /\ sequential (ipsc_step s e) (finish s e) evs
  end.

Record paced (s : IPSCServer) (t : time) : Prop := {
  pc_last : forall id u, is_lastSend s !! id = Some u -> 0 < u <= t;
  pc_spaced : forall id, spaced (send_times id (is_wire s));
  pc_latest : forall id a, last (send_times id (is_wire s)) = Some a -> exists u, is_lastSend s !! id = Some u /\ a <= u
}.

Lemma spaced_snoc l b : spaced l -> (forall a, last l = Some a -> a + burstInterval <= b) -> spaced (l ++ [b]).
Proof.
  unfold spaced, time in *. intros Hl Hb i x y Hx Hy. destruct (decide (S i < length l)%nat) as [Hi | Hi].
  - rewrite lookup_app_l in Hx, Hy by lia. by apply (Hl i).
  - pose proof (lookup_lt_Some _ _ _ Hy) as Hlt. rewrite length_app in Hlt. cbn in Hlt.
    rewrite lookup_app_l in Hx by lia. rewrite lookup_app_r in Hy by lia.
    replace (S i - length l)%nat with 0%nat in Hy by lia. injection Hy as <-.
    apply Hb. rewrite last_lookup. by replace (Nat.pred (length l)) with i by lia.
Qed.

Lemma send_times_app id w1 w2 : send_times id (w1 ++ w2) = send_times id w1 ++ send_times id w2.
Proof. apply omap_app. Qed.

Lemma paced_weaken s s' t t' :
  paced s t -> t <= t' -> is_lastSend s' = is_lastSend s -> (forall id, send_times id (is_wire s') = send_times id (is_wire s)) -> paced s' t'.
Proof.
  intros [H1 H2 H3] Hle El Ew. split.
  - intros id u. rewrite El. intros E. specialize (H1 id u E). lia.
  - intros id. by rewrite Ew.
  - intros id a. rewrite Ew, El. apply H3.
Qed.

Lemma pace_wait_enough s t id now :
  paced s t -> 0 < t <= now -> 0 <= pace_wait s id now /\ forall u, is_lastSend s !! id = Some u -> u + burstInterval <= now + pace_wait s id now.
Proof.
  intros Hp Ht. unfold pace_wait. destruct (is_lastSend s !! id) as [u |] eqn:E; cbn; [| split; [done | by intros ?]].
  pose proof (pc_last _ _ Hp _ _ E) as Hu. unfold time_is_zero, time_sub, max_duration, burstInterval, millisecond in *.
  destruct (Z.eqb_spec u 0); [lia |]. cbn [negb].
  destruct (Z.ltb_spec (Z.max (- 2 ^ 63) (Z.min (2 ^ 63 - 1) (now - u))) (30 * 1000000)); split; try lia; intros ? [= <-]; lia.
Qed.

Lemma paced_send s t id data addr now delay :
  paced s t -> 0 < t <= now -> 0 <= delay ->
  let '(s1, v) := pacePeer s id now delay in
  now <= v /\ paced (fst (sendPacket s1 (Some id) data addr v)) v.
Proof.
  intros Hp Ht Hd. destruct (pace_wait_enough s t id now Hp Ht) as [Hw Hgap]. unfold pacePeer. set (v := now + _ + delay).
  split; [lia |]. destruct (sendPacket_wire (pace_mark s id v) (Some id) data addr v) as [Ew El].
  cbn [pace_mark with_lastSend is_wire is_lastSend] in Ew, El. split.
  - intros id' u. rewrite El. destruct (decide (id = id')) as [<- | Hne]; [rewrite lookup_insert_eq | rewrite lookup_insert_ne by done].
    + intros [= <-]. lia.
    + intros E. pose proof (pc_last _ _ Hp _ _ E). lia.
  - intros id'. rewrite Ew, send_times_app. destruct (udp_ok _ _); [| rewrite app_nil_r; apply Hp].
    cbn [send_times omap list_omap dg_peer dg_time]. destruct (bool_decide_reflect (Some id = Some id')) as [[= <-] | Hne]; [| rewrite app_nil_r; apply Hp].
    apply spaced_snoc; [apply Hp |]. intros a Ha. destruct (pc_latest _ _ Hp _ _ Ha) as (u & Eu & Hau). specialize (Hgap u Eu). lia.
  - intros id' a. rewrite Ew, El, send_times_app. destruct (decide (id = id')) as [<- | Hne].
    + rewrite lookup_insert_eq. intros Ha. exists v. split; [done |].
      destruct (udp_ok _ _); cbn [send_times omap list_omap dg_peer dg_time] in Ha.
      * rewrite bool_decide_true, last_snoc in Ha by done. injection Ha as <-. lia.
      * rewrite app_nil_r in Ha. destruct (pc_latest _ _ Hp _ _ Ha) as (u & Eu & Hau). pose proof (pc_last _ _ Hp _ _ Eu). lia.
    + rewrite lookup_insert_ne by done.
      replace (send_times id' (if udp_ok addr _ then _ else _)) with (@nil time); [rewrite app_nil_r; apply Hp |].
      destruct (udp_ok _ _); [| done]. cbn [send_times omap list_omap dg_peer dg_time]. rewrite bool_decide_false; [done |]. by intros [= ->].
Qed.

Lemma step_paced s t e :
  is_stopped s = false -> paced s t -> 0 < t <= event_time e -> delays_ok e ->
  event_time e <= finish s e /\ paced (ipsc_step s e) (finish s e).
Proof.
  intros Hst Hp Ht Hd. destruct e as [data addr now | now | data now delay | id data now delay]; cbn [event_time finish ipsc_step delays_ok] in *.
  - split; [done |]. unfold handlePacket. destruct (checked s data) as [payload |] eqn:Ec; [| by apply (paced_weaken s _ t); [| lia | |]].
    destruct (checked_payload _ _ _ Ec) as (<- & _). destruct (dispatch_spec s payload addr now) as ((_ & El & _) & _ & Ew).
    eapply paced_weaken; [exact Hp | lia | done |]. intros id. rewrite Ew, send_times_app.
    unfold sent_reply. destruct (reply_of _ payload); [destruct (udp_ok _ _) |]; apply app_nil_r.
  - split; [done |]. destruct (tick_spec s now Hst) as (_ & El & _ & Ew & _). apply (paced_weaken s _ t); [done | lia | done |].
    intros id. by rewrite Ew.
  - unfold SendUserPacket. rewrite Hst.
    apply (foldl_inv (fun acc => now <= snd acc /\ paced (fst acc) (snd acc))); [cbn; split; [done |]; apply (paced_weaken s _ t); [done | lia | done | done] |].
    intros [s1 t1] p _ [Hle Hp1]. cbn [fst snd] in *. unfold send_burst. destruct (negb _); [done |].
    pose proof (paced_send s1 t1 (peer_ID p) data (peer_Addr p) t1 (delay (peer_ID p)) Hp1 ltac:(lia) (Hd _)) as Hs.
    destruct (pacePeer s1 (peer_ID p) t1 (delay (peer_ID p))) as [s2 v]. cbn [fst snd]. split; [lia | apply Hs].
  - pose proof (fun a => paced_send s t id data a now delay Hp Ht Hd) as Hs. unfold SendUserPacketToPeer.
    assert (Hv : now <= snd (pacePeer s id now delay)).
    { specialize (Hs None). destruct (pacePeer s id now delay). apply Hs. }
    assert (Hstay : paced s (snd (pacePeer s id now delay))) by (apply (paced_weaken s _ t); [done | lia | done | done]).
    split; [done |]. destruct (_ || _); [done |]. destruct (negb _); [done |].
    destruct (is_peers s !! id ≫= peer_Addr) as [a |]; [| done].
    specialize (Hs (Some a)). destruct (pacePeer s id now delay). apply Hs.
Qed.

(** C29: Bursts to a repeater are at least thirty milliseconds apart.  In any
    history of a server whose steps follow one another, with pauses that never
    end early, the user packets written to one peer are separated by the burst
    interval, whoever sent them and whatever came in between. *)
Theorem bursts_paced s t evs id :
  fresh s -> 0 < t -> sequential s t evs -> spaced (send_times id (is_wire (ipsc_run s evs))).
Proof.
  intros (_ & El & Hst & Ew & _) Ht.
  assert (Hp : paced s t).
  { split.
    - intros id' u. by rewrite El, lookup_empty.
    - intros id'. rewrite Ew. intros i a b Ha. by destruct i.
    - intros id' a. by rewrite Ew. }
  clear El Ew. revert s t Hst Ht Hp. induction evs as [| e evs IH]; intros s t Hst Ht Hp; [intros _; apply Hp |].
  intros (Hle & Hd & Hs). destruct (step_paced s t e Hst Hp (conj Ht Hle) Hd) as [Hf Hp'].
  apply (IH (ipsc_step s e) (finish s e)); [| lia | done | done].
  by destruct (ipsc_step_spec s e Hst) as [(_ & _ & _ & -> & _) _].
Qed.

(** ** Broadcasts *)

Lemma peer_ids s evs id p : fresh s -> is_peers (ipsc_run s evs) !! id = Some p -> peer_ID p = id.
Proof.
  intros Hf. rewrite peer_table_run by done.
  assert (H' : match foldl (peer_next id) None (inputs s id evs) with Some p => peer_ID p = id | None => True end).
  { apply (foldl_inv (fun st => match st with Some p => peer_ID p = id | None => True end)); [done |].
    intros [p' |] [[[mode flags] |] addr t | t] _ Hst; cbn; try done. by destruct (stale_peer t p'). }
  intros E. by rewrite E in H'.
Qed.

(** The peers a burst is written to. *)
Definition burst_target (s : IPSCServer) (data : list Z) (p : Peer) : bool :=
  bool_decide (is_Some (peer_Addr p)) && send_allowed s (peer_ID p) && udp_ok (peer_Addr p) (signed s data).

Definition addressed (d : Datagram) : option Z * option NetAddr * list Z := (dg_peer d, dg_addr d, dg_data d).

Lemma broadcast_loop s data delay l s0 now :
  same_setup s s0 -> Forall (fun p => is_Some (peer_Addr p)) l ->
  exists ds, is_wire (fst (foldl (send_burst data delay) (s0, now) l)) = is_wire s0 ++ ds /\
    addressed <$> ds = (fun p => (Some (peer_ID p), peer_Addr p, signed s data)) <$> List.filter (burst_target s data) l.
Proof.
  intros Hs Hl. revert s0 now Hs. induction Hl as [| p l Hp Hl IH]; intros s0 now Hs; [exists []; by rewrite app_nil_r |].
  cbn [foldl]. set (acc := send_burst data delay (s0, now) p).
  assert (Hacc : same_setup s (fst acc) /\ exists d, is_wire (fst acc) = is_wire s0 ++ d /\
    addressed <$> d = if burst_target s data p then [(Some (peer_ID p), peer_Addr p, signed s data)] else []).
  { split; [eapply same_setup_trans; [exact Hs | apply (send_burst_only data delay (s0, now) p)] |].
    unfold acc, send_burst, burst_target. rewrite bool_decide_true by done.
    assert (send_allowed s0 (peer_ID p) = send_allowed s (peer_ID p)) as ->.
    { unfold send_allowed. by destruct Hs as (_ & _ & _ & _ & _ & _ & _ & ->). }
    destruct (send_allowed s (peer_ID p)); cbn [negb andb]; [| exists []; by rewrite app_nil_r].
    unfold pacePeer. cbn [fst]. set (v := now + _ + _). destruct (sendPacket_wire (pace_mark s0 (peer_ID p) v) (Some (peer_ID p)) data (peer_Addr p) v) as [-> _].
    assert (signed (pace_mark s0 (peer_ID p) v) data = signed s data) as -> by (apply setup_signed; by apply (same_setup_trans _ s0)).
    eexists. split; [done |]. by destruct (udp_ok _ _). }
  destruct acc as [s1 t1]. destruct Hacc as (Hs1 & d & Ed & Ad). cbn [fst] in *.
  destruct (IH s1 t1 Hs1) as (ds & Eds & Ads). exists (d ++ ds). split; [by rewrite Eds, Ed, <- app_assoc |].
  rewrite fmap_app, Ad, Ads. cbn [List.filter]. by destruct (burst_target s data p).
Qed.

(** A burst for all repeaters is written exactly once to each.  After any
    history [SendUserPacket] writes the burst, signed when authentication is on,
    to the current address of every peer in the table that has one, that the
    send filter lets through under its source key and whose datagram the socket
    takes; to no other; and to each once. *)
Theorem broadcast_exact s evs data now delay :
  fresh s ->
  let s1 := ipsc_run s evs in
  exists ds, is_wire (fst (SendUserPacket s1 data now delay)) = is_wire s1 ++ ds /\ NoDup (dg_peer <$> ds) /\
    forall who addr bytes, (who, addr, bytes) ∈ addressed <$> ds <->
      bytes = signed s data /\ is_Some addr /\ udp_ok addr bytes = true /\
      exists id p, who = Some id /\ is_peers s1 !! id = Some p /\ peer_Addr p = addr /\ send_allowed s id = true.
Proof.
  intros Hf. cbv zeta. set (s1 := ipsc_run s evs). assert (Hs : same_setup s s1) by (apply ipsc_run_setup, Hf).
  unfold SendUserPacket. assert (is_stopped s1 = false) as -> by (apply run_not_stopped, Hf).
  set (l := List.filter _ (snd <$> peer_iter (is_peers s1))).
  assert (Hl : forall p, p ∈ l <-> is_peers s1 !! peer_ID p = Some p /\ is_Some (peer_Addr p)).
  { intros p. unfold l. rewrite list_elem_of_In, List.filter_In, <- list_elem_of_In, bool_decide_eq_true, list_elem_of_fmap. split.
    - intros (([id p'] & -> & Hin) & Ha). rewrite peer_iter_elements, elem_of_map_to_list in Hin. cbn [snd] in *.
      by rewrite (peer_ids s evs id p').
    - intros [Hp Ha]. split; [| done]. exists (peer_ID p, p). by rewrite peer_iter_elements, elem_of_map_to_list. }
  assert (Hnd : NoDup (peer_ID <$> l)).
  { assert (Hk : NoDup (peer_iter (is_peers s1)).*1) by (rewrite peer_iter_elements; apply NoDup_fst_map_to_list).
    assert (Hid : Forall (fun '(id, p) => peer_ID p = id) (peer_iter (is_peers s1))).
    { apply Forall_forall. intros [id p]. rewrite peer_iter_elements, elem_of_map_to_list. by apply peer_ids. }
    unfold l. clear Hl l. induction Hid as [| [id p] r Hp Hr IH]; [apply NoDup_nil_2 |]. cbn in Hk |- *. apply NoDup_cons in Hk as [Hn Hk].
    destruct (bool_decide (is_Some (peer_Addr p))); [| by apply IH]. cbn. apply NoDup_cons. split; [| by apply IH].
    intros Hin. apply Hn. apply list_elem_of_fmap in Hin as (p' & E & Hin). apply list_elem_of_In, List.filter_In in Hin as [Hin _].
    apply list_elem_of_In, list_elem_of_fmap in Hin as ([id' p''] & -> & Hin). rewrite Forall_forall in Hr. specialize (Hr _ Hin). cbn in *.
    apply list_elem_of_fmap. exists (id', p''). split; [cbn; congruence | done]. }
  destruct (broadcast_loop s data delay l s1 now Hs) as (ds & Ew & Ed); [apply Forall_forall; intros p Hp; by apply Hl |].
  exists ds. split; [done |]. split.
  - assert (dg_peer <$> ds = Some <$> (peer_ID <$> List.filter (burst_target s data) l)) as ->.
    { transitivity ((fun x => fst (fst x)) <$> (addressed <$> ds)); [by rewrite <- list_fmap_compose |]. by rewrite Ed, <- !list_fmap_compose. }
    apply NoDup_fmap_2; [apply _ |]. clear -Hnd. induction l as [| p l IH]; [done |]. cbn in *. apply NoDup_cons in Hnd as [Hn Hd].
    destruct (burst_target s data p); [| by apply IH]. cbn. apply NoDup_cons. split; [| by apply IH].
    intros Hin. apply Hn. apply list_elem_of_fmap in Hin as (p' & -> & Hin). apply list_elem_of_In, List.filter_In in Hin as [Hin _].
    apply list_elem_of_fmap. exists p'. by rewrite list_elem_of_In.
  - intros who addr bytes. rewrite Ed, list_elem_of_fmap. split.
    + intros (p & [= -> -> ->] & Hin). apply list_elem_of_In, List.filter_In in Hin as [Hin Ht]. apply list_elem_of_In, Hl in Hin as [Hp Ha].
      unfold burst_target in Ht. apply andb_true_iff in Ht as [[_ Ht]%andb_true_iff Hu]. split_and!; try done. by exists (peer_ID p), p.
    + intros (-> & Ha & Hu & id & p & -> & Hp & <- & Hal). pose proof (peer_ids s evs id p Hf Hp) as <-. exists p. split; [done |].
      apply list_elem_of_In, List.filter_In. split; [apply list_elem_of_In; by apply Hl |].
      unfold burst_target. by rewrite bool_decide_true, Hal, Hu.
Qed.

End histories.

(** ** Witnesses *)

#[local] Instance sample_net : PeerNet := {| peer_iter m := map_to_list m; udp_ok _ _ := true |}.
#[local] Instance sample_net_laws : PeerNetLaws.
Proof. by split. Qed.

(** A server that demands authentication, and a repeater that registers. *)
Definition sample_server : IPSCServer := SetPeerOfflineHandler (SetBurstHandler (NewIPSCServer sample_setup)).
Definition repeater : option NetAddr := Some (mkNetAddr (Some [192; 0; 2; 7]) 50000 "").
Definition register_payload : list Z := [0x90; 0; 4; 0xC2; 0xC1; 0x6A; 0; 0; 0x80; 0xDC; 4; 2; 4; 1].
Definition list_payload : list Z := [0x92; 0; 4; 0xC2; 0xC1].
Definition registration (now : time) : ipsc_event := EvPacket (signed sample_server register_payload) repeater now.

Lemma sample_server_fresh : fresh sample_server.
Proof. repeat split. Qed.

Lemma peer_table_refines_witness :
  is_peers (ipsc_run sample_server [registration 1000]) !! 312001 =
    Some (mkPeer 312001 repeater 0x6A [0; 0; 0x80; 0xDC] 1000 0 true).
Proof. rewrite (peer_table_refines sample_server _ 312001 sample_server_fresh). vm_compute. reflexivity. Defined.

Lemma expiry_exact_witness :
  peer_LastSeen <$> is_peers (peerExpiryTick (ipsc_run sample_server [registration 1000]) (20 * second)) !! 312001 = Some 1000.
Proof.
  destruct (expiry_exact sample_server [registration 1000] (20 * second) sample_server_fresh eq_refl) as [He _].
  - split; [by_eval | done].
  - apply He. split; [vm_compute; reflexivity | by_eval].
Defined.

Lemma authentic_only_witness :
  exists payload, EvPacket (payload ++ mac (is_authKey sample_server) payload) repeater 1000 ∈ [registration 1000].
Proof.
  destruct (authentic_only sample_server [registration 1000] sample_server_fresh eq_refl) as [Hp _].
  destruct (Hp 312001 (mkPeer 312001 repeater 0x6A [0; 0; 0x80; 0xDC] 1000 0 true)) as (payload & _ & Hin); [vm_compute; reflexivity |].
  exists payload. exact Hin.
Defined.

Lemma peer_list_roundtrip_witness :
  exists reply, checked sample_server (signed sample_server reply) = inl reply /\
    read_peer_list reply ≡ₚ [(312001, [192; 0; 2; 7], 50000, 0x6A)].
Proof.
  destruct (peer_list_roundtrip sample_server [registration 1000] (signed sample_server list_payload) list_payload repeater 2000
    sample_server_fresh) as (reply & peers & Hp & _ & Hc & Hr); [| vm_compute; reflexivity | reflexivity | by_eval | done |].
  - apply Forall_singleton. split; [by_eval |]. exists (mkNetAddr (Some [192; 0; 2; 7]) 50000 ""), [192; 0; 2; 7].
    split_and!; try done; by_eval.
  - exists reply. split; [exact Hc |]. rewrite Hr.
    assert (Hl : map_to_list (is_peers (ipsc_run sample_server [registration 1000])) =
      [(312001, mkPeer 312001 repeater 0x6A [0; 0; 0x80; 0xDC] 1000 0 true)]) by (vm_compute; reflexivity).
    rewrite Hl in Hp. apply Permutation_singleton_r in Hp as ->. vm_compute. reflexivity.
Defined.

Lemma bursts_paced_witness :
  let s := ipsc_run sample_server [registration 1000; EvSendTo 312001 [1] 2000 0; EvSendTo 312001 [2] (2000 + 5 * millisecond) 0] in
  spaced (send_times 312001 (is_wire s)).
Proof.
  apply (bursts_paced sample_server 1 _ 312001 sample_server_fresh); [by_eval |]. repeat split; by_eval.
Defined.

Lemma broadcast_exact_witness :
  exists d, d ∈ addressed <$> is_wire (ipsc_run sample_server [registration 1000; EvSendAll [1; 2; 3] 2000 (fun _ => 0)]) /\
    d = (Some 312001, repeater, signed sample_server [1; 2; 3]).
Proof.
  destruct (broadcast_exact sample_server [registration 1000] [1; 2; 3] 2000 (fun _ => 0) sample_server_fresh) as (ds & E & _ & Hin).
  exists (Some 312001, repeater, signed sample_server [1; 2; 3]). split; [| reflexivity].
  change (ipsc_run sample_server [registration 1000; EvSendAll [1; 2; 3] 2000 (fun _ => 0)]) with
    (fst (SendUserPacket (ipsc_run sample_server [registration 1000]) [1; 2; 3] 2000 (fun _ => 0))).
  rewrite E, fmap_app, elem_of_app. right. apply Hin. split_and!; [done | by eexists | done |].
  exists 312001, (mkPeer 312001 repeater 0x6A [0; 0; 0x80; 0xDC] 1000 0 true). split_and!; [done | vm_compute; reflexivity | done | done].
Defined.

(** A repeater with an IPv6 address: its entry has seven bytes, so that every
    entry behind it is read wrong. *)
Example ipv6_entry_short :
  length (peer_entry (mkPeer 312001 (Some (mkNetAddr (Some (replicate 15 0 ++ [1])) 50000 "")) 0x6A [0; 0; 0; 0] 1000 0 true)) = 7%nat.
Proof. reflexivity. Qed.

(** A sign of life of a peer that never registered puts it into the table. *)
Example wake_up_registers :
  (peer_RegistrationStatus <$> is_peers (ipsc_run (NewIPSCServer (mkConfig "info" "" true "" "x" true "" 1 1 [] [] true 50000 "" false "" false 0 0))
    [EvPacket [0x85; 0; 4; 0xC2; 0xC1] repeater 1000]) !! 312001) = Some false.
Proof. vm_compute. reflexivity. Qed.
