(* ===== verification/HyteraFrame.v ===== *)
(** * The packet formats of Hytera repeaters (internal/hytera/server.go)

    A voice or data burst travels in a packet of 72 bytes with the addresses in
    its last twelve; the burst itself is stored with the bytes of every 16-bit
    word exchanged.  This file holds the functions without state: encoding and
    recognising packets, the wake-up and sync packets that open a call, the
    redirect packet of the registration, and the identifiers found in RDAC and
    registration packets. *)

From S2P Require Import Prelude Packet Bptc LinkControl VoiceBurst Rewrite Rptc Text.

Definition hyteraPrefixA : Z := 0x5A.
Definition packetTypeA : Z := 0x41.
Definition packetTypeTerminator : Z := 0x43.

Definition slotTypePrivacyIndicator : Z := 0x0000.
Definition slotTypeVoiceLCHeader : Z := 0x1111.
Definition slotTypeTerminator : Z := 0x2222.
Definition slotTypeCSBK : Z := 0x3333.
Definition slotTypeDataHeader : Z := 0x4444.
Definition slotTypeRate12Data : Z := 0x5555.
Definition slotTypeRate34Data : Z := 0x6666.
Definition slotTypeDataC : Z := 0x7777.
Definition slotTypeDataD : Z := 0x8888.
Definition slotTypeDataE : Z := 0x9999.
Definition slotTypeDataF : Z := 0xAAAA.
Definition slotTypeDataAOrPrivacy : Z := 0xBBBB.
Definition slotTypeDataB : Z := 0xCCCC.
Definition slotTypeWakeupRequest : Z := 0xDDDD.
Definition slotTypeSync : Z := 0xEEEE.

Definition timeslotRaw1 : Z := 0x1111.
Definition timeslotRaw2 : Z := 0x2222.

(** ** Slot types *)

(** Frame type and data type, or voice sequence. *)
Definition decodeSlotType (slotType : Z) : option (Z * Z) :=
  if slotType =? slotTypeVoiceLCHeader then Some (2, 1)
  else if slotType =? slotTypeTerminator then Some (2, 2)
  else if slotType =? slotTypeCSBK then Some (2, 3)
  else if slotType =? slotTypeDataHeader then Some (2, 6)
  else if slotType =? slotTypeRate12Data then Some (2, 7)
  else if slotType =? slotTypeRate34Data then Some (2, 8)
  else if slotType =? slotTypeDataAOrPrivacy then Some (1, 0)
  else if slotType =? slotTypeDataB then Some (0, 1)
  else if slotType =? slotTypeDataC then Some (0, 2)
  else if slotType =? slotTypeDataD then Some (0, 3)
  else if slotType =? slotTypeDataE then Some (0, 4)
  else if slotType =? slotTypeDataF then Some (0, 5)
  else if slotType =? slotTypePrivacyIndicator then Some (2, 0)
  else None.

(** Slot type and packet type; [None] is an error. *)
Definition encodeSlotType (pkt : Packet) : option (Z * Z) :=
  let d := DTypeOrVSeq pkt in
  if FrameType pkt =? 2 then
    if d =? 0 then Some (slotTypePrivacyIndicator, packetTypeA)
    else if d =? 1 then Some (slotTypeVoiceLCHeader, packetTypeA)
    else if d =? 2 then Some (slotTypeTerminator, packetTypeTerminator)
    else if d =? 3 then Some (slotTypeCSBK, packetTypeA)
    else if d =? 6 then Some (slotTypeDataHeader, packetTypeA)
    else if d =? 7 then Some (slotTypeRate12Data, packetTypeA)
    else if d =? 8 then Some (slotTypeRate34Data, packetTypeA)
    else None
  else
    if d =? 0 then Some (slotTypeDataAOrPrivacy, packetTypeA)
    else if d =? 1 then Some (slotTypeDataB, packetTypeA)
    else if d =? 2 then Some (slotTypeDataC, packetTypeA)
    else if d =? 3 then Some (slotTypeDataD, packetTypeA)
    else if d =? 4 then Some (slotTypeDataE, packetTypeA)
    else if d =? 5 then Some (slotTypeDataF, packetTypeA)
    else None.

(** ** Fields *)

Definition encodeID24LE (id : Z) : list Z := [u8 id; u8 (Z.shiftr id 8); u8 (Z.shiftr id 16); 0].
Definition decodeID24LE (src : list Z) : Z :=
  if (length src <? 3)%nat then 0 else Z.lor (Z.lor (src.[0]) (Z.shiftl (src.[1]) 8)) (Z.shiftl (src.[2]) 16).

(** Exchange the bytes of every pair. *)
Fixpoint swap_pairs (l : list Z) : list Z :=
  match l with
  | a :: b :: l => b :: a :: swap_pairs l
  | _ => l
  end.

(** An odd length is filled up with a zero first, an even one loses its last
    byte afterwards; of nothing there is no last byte to lose. *)
Definition swapDMRPayload (data : list Z) : outcome (list Z) :=
  let odd := negb (length data mod 2 =? 0)%nat in
  let out := swap_pairs (if odd then data ++ [0] else data) in
  if odd then Done out
  else match out with [] => Panic | _ => Done (take (length out - 1) out) end.

Definition slot_marker (slot : bool) : Z := if slot then 0x02 else 0x01.
Definition slot_raw (slot : bool) : Z := if slot then timeslotRaw2 else timeslotRaw1.

Definition hasNativeHyteraPrefix (data : list Z) : bool :=
  (4 <=? length data)%nat && (data.[0] =? hyteraPrefixA) && (data.[1] =? hyteraPrefixA) && (data.[2] =? hyteraPrefixA) && (data.[3] =? hyteraPrefixA).

Definition hasHyteraDMRHeader (data : list Z) : bool :=
  if hasNativeHyteraPrefix data then true
  else if (length data <? 20)%nat then false
  else if negb (data.[9] =? 0x00) || negb (data.[10] =? 0x05) || negb (data.[11] =? 0x01) then false
  else if negb (data.[12] =? 0x01) && negb (data.[12] =? 0x02) then false
  else let slotRaw := get_be16 (data.[16]) (data.[17]) in (slotRaw =? timeslotRaw1) || (slotRaw =? timeslotRaw2).

(** ** Packets *)

Definition cfgColorCode (localColorCode : Z) : Z := Z.land localColorCode 0x0F.

Definition call_type (groupCall : bool) : Z := if groupCall then 0x01 else 0x00.

(** [encodeFromMMDVMWithState], for the sequence number it has counted up to;
    [None] is an error.  The payload is swapped first, as a value. *)
Definition hytera_frame (outSeq colorCode : Z) (pkt : Packet) (slotType packetType : Z) (payload : list Z) : list Z :=
  let cc := cfgColorCode colorCode in
  let ccByte := Z.lor cc (u8 (Z.shiftl cc 4)) in
  [hyteraPrefixA; hyteraPrefixA; hyteraPrefixA; hyteraPrefixA; outSeq; 0xE0; 0; 0; packetType; 0; 0x05; 0x01; slot_marker (Slot pkt); 0; 0; 0]
  ++ put_be16 (slot_raw (Slot pkt)) ++ put_be16 slotType ++ [ccByte; ccByte] ++ put_be16 0 ++ [0x40; 0x5C]
  ++ payload ++ [0x63; 0x02; call_type (GroupCall pkt); 0] ++ encodeID24LE (Dst pkt) ++ encodeID24LE (Src pkt).

Definition encode_frame (outSeq colorCode : Z) (pkt : Packet) : option (list Z) :=
  match encodeSlotType pkt with
  | None => None
  | Some (slotType, packetType) =>
      match swapDMRPayload (DMRData pkt) with
      | Done payload =>
          if negb (length payload =? 34)%nat then None
          else Some (hytera_frame outSeq colorCode pkt slotType packetType payload)
      | Panic => None
      end
  end.

Definition setHyteraHeaderColorCode (data : list Z) (colorCode : Z) : list Z :=
  if (length data <? 22)%nat then data
  else
    let cc := Z.land colorCode 0x0F in
    let ccByte := Z.lor cc (u8 (Z.shiftl cc 4)) in <[21%nat := ccByte]> (<[20%nat := ccByte]> data).

Definition buildWakeupPacket (slot : bool) (sourceID targetID : Z) (colorCode : Z) : list Z :=
  let cc := Z.land colorCode 0x0F in
  let ccByte := Z.lor cc (u8 (Z.shiftl cc 4)) in
  [0x5A; 0x5A; 0x5A; 0x5A; 0; 0; 0; 0; 0x42; 0; 0x05; 0x42; slot_marker slot; 0; 0; 0] ++ put_be16 (slot_raw slot)
  ++ [0xDD; 0xDD; ccByte; ccByte; 0; 0; 0x40] ++ replicate 11 0 ++ [0x01; 0; 0x02; 0; 0x02; 0; 0x01] ++ replicate 13 0
  ++ [0xFF; 0xFF; 0xEF; 0x08; 0x2A; 0; 0x07; 0] ++ encodeID24LE targetID ++ encodeID24LE sourceID.

Definition buildSyncPacket (slot : bool) (sourceID targetID : Z) (groupCall : bool) (colorCode : Z) : list Z :=
  let cc := Z.land colorCode 0x0F in
  let ccByte := Z.lor cc (u8 (Z.shiftl cc 4)) in
  [0x5A; 0x5A; 0x5A; 0x5A; 0; 0; 0; 0; 0x42; 0; 0x05; 0x01; slot_marker slot; 0; 0; 0] ++ put_be16 (slot_raw slot)
  ++ [0xEE; 0xEE; ccByte; ccByte; 0x11; 0x11; 0x40; 0x2F] ++ replicate 7 0
  ++ [u8 (Z.shiftr targetID 16); 0; u8 (Z.shiftr targetID 8); 0; u8 targetID; 0;
      u8 (Z.shiftr sourceID 16); 0; u8 (Z.shiftr sourceID 8); 0; u8 sourceID; 0]
  ++ replicate 14 0 ++ replicate 4 0 ++ [call_type groupCall; 0] ++ encodeID24LE targetID ++ encodeID24LE sourceID.

(** The wake-up and sync packets; [None] for another slot type. *)
Definition buildFixedStartupPacket (slotType : Z) (pkt : Packet) (colorCode : Z) : option (list Z) :=
  let cc := Z.land colorCode 0x0F in
  if slotType =? slotTypeWakeupRequest then Some (buildWakeupPacket (Slot pkt) (Src pkt) (Dst pkt) cc)
  else if slotType =? slotTypeSync then Some (buildSyncPacket (Slot pkt) (Src pkt) (Dst pkt) (GroupCall pkt) cc)
  else None.

(** A remembered startup packet with slot, type and addresses of a call. *)
Definition patch_template (template : list Z) (slotType : Z) (pkt : Packet) : option (list Z) :=
  if (length template <? 38)%nat then None
  else
    let tailStart := (length template - 12)%nat in
    let t := <[12%nat := slot_marker (Slot pkt)]> template in
    let t := list_inserts 16 (put_be16 (slot_raw (Slot pkt))) t in
    let t := list_inserts 18 (put_be16 slotType) t in
    let t := <[(tailStart + 2)%nat := call_type (GroupCall pkt)]> t in
    let t := list_inserts (tailStart + 4) (encodeID24LE (Dst pkt)) t in
    Some (list_inserts (tailStart + 8) (encodeID24LE (Src pkt)) t).

Definition getRedirectPacket (data : list Z) (targetPort : Z) : list Z :=
  if (length data <? 16)%nat then data
  else
    let out := take (length data - 1) data in
    let out := <[4%nat := 0x0B]> out in
    let out := <[12%nat := 0xFF]> out in
    let out := <[13%nat := 0xFF]> out in
    let out := <[14%nat := 0x01]> out in
    let out := <[15%nat := 0x00]> out in
    out ++ [0xFF; 0x01] ++ [u8 targetPort; u8 (Z.shiftr targetPort 8)].

(** ** Color code, link control and service options *)

Inductive cc_source := FromSlotType | FromEmbedded | FromFallback.

Definition packetColorCodeWithSource `{Pdu} (pkt : Packet) (fallback : Z) : Z * cc_source :=
  match BurstSlotTypeColorCode (DMRData pkt) with
  | (slotCC, true) => (slotCC, FromSlotType)
  | _ =>
      match BurstEmbeddedColorCode (DMRData pkt) with
      | (embeddedCC, true) => (embeddedCC, FromEmbedded)
      | _ => (Z.land fallback 0x0F, FromFallback)
      end
  end.
Definition packetColorCode `{Pdu} (pkt : Packet) (fallback : Z) : Z := fst (packetColorCodeWithSource pkt fallback).

(** A color code of zero counts as unknown. *)
Definition normalizeMotoColorCode (cc fallback : Z) : Z :=
  let cc := Z.land cc 0x0F in
  let fb := Z.land fallback 0x0F in
  if (cc =? 0) && negb (fb =? 0) then fb else cc.

Definition with_data (pkt : Packet) (data : list Z) : Packet :=
  mkPacket (Signature pkt) (Seq pkt) (Src pkt) (Dst pkt) (Repeater pkt) (Slot pkt) (GroupCall pkt) (FrameType pkt) (DTypeOrVSeq pkt)
    (StreamID pkt) data.

(** The data burst of a rebuilt Link Control. *)
Definition lc_burst (pkt : Packet) (so dataType cc : Z) : list Z :=
  BuildLCDataBurst (BuildStandardLCBytesForDataType (Src pkt) (Dst pkt) (GroupCall pkt) so dataType) dataType cc.

Definition standardizeMotoLCPacketWithSO (pkt : Packet) (colorCode so : Z) : Packet :=
  let cc := Z.land colorCode 0x0F in
  if (FrameType pkt =? 2) && (DTypeOrVSeq pkt =? 1) then with_data pkt (lc_burst pkt so DataTypeVoiceLCHeader cc)
  else if (FrameType pkt =? 2) && (DTypeOrVSeq pkt =? 2) then with_data pkt (lc_burst pkt so DataTypeTerminatorWithLC cc)
  else pkt.
Definition standardizeMotoLCPacket (pkt : Packet) (colorCode : Z) : Packet := standardizeMotoLCPacketWithSO pkt colorCode 0x20.

#[export] Instance LCSS_eq_dec : EqDecision LCSS.
Proof. solve_decision. Defined.

(** [patchMotoVoiceEmbeddedControl] works on a burst of dmrgo, whose LCSS
    constants have the names of those in types.go. *)
Class EmbCodec := {
  EmbBurst : Type;
  emb_DecodeFromBytes : list Z -> EmbBurst;
  emb_HasEmbeddedSignalling : EmbBurst -> bool;
  emb_ColorCode : EmbBurst -> Z;
  emb_LCSS : EmbBurst -> LCSS;
  emb_set_ColorCode : EmbBurst -> Z -> EmbBurst;
  emb_set_LCSS : EmbBurst -> LCSS -> EmbBurst;
  emb_UnpackEmbeddedSignallingData : EmbBurst -> list Z -> EmbBurst;
  emb_Encode : EmbBurst -> list Z
}.

(** The LCSS a voice burst should have. *)
Definition wanted_LCSS (voiceSeq : Z) : option LCSS :=
  if voiceSeq =? 1 then Some FirstFragmentLC
  else if (voiceSeq =? 2) || (voiceSeq =? 3) then Some ContinuationFragmentLCorCSBK
  else if voiceSeq =? 4 then Some LastFragmentLCorCSBK
  else if voiceSeq =? 5 then Some SingleFragmentLCorCSBK
  else None.

Definition patchMotoVoiceEmbeddedControl `{EmbCodec} (pkt : Packet) (colorCode : Z) : Packet :=
  let cc := Z.land colorCode 0x0F in
  if negb (FrameType pkt =? 0) then pkt
  else
    let burst := emb_DecodeFromBytes (DMRData pkt) in
    if negb (emb_HasEmbeddedSignalling burst) then pkt
    else
      let '(burst, changed) :=
        if negb (cc =? 0) && (emb_ColorCode burst =? 0) then (emb_set_ColorCode burst cc, true) else (burst, false) in
      let '(burst, changed) :=
        match wanted_LCSS (DTypeOrVSeq pkt) with
        | Some lcss => if negb (bool_decide (emb_LCSS burst = lcss)) then (emb_set_LCSS burst lcss, true) else (burst, changed)
        | None => (burst, changed)
        end in
      let '(burst, changed) :=
        if DTypeOrVSeq pkt =? 5 then
          let burst := emb_UnpackEmbeddedSignallingData burst [0; 0; 0; 0] in
          (if negb (cc =? 0) then emb_set_ColorCode burst cc else burst, true)
        else (burst, changed) in
      if negb changed then pkt else with_data pkt (emb_Encode burst).

(** ** Identifiers *)

Definition plausibleDMRID (id : Z) : bool := 100000 <=? id.

(** The first plausible little-endian number of three bytes. *)
Fixpoint scan24BitDMRID (data : list Z) : option Z :=
  match data with
  | a :: ((b :: c :: _) as rest) =>
      let candidate := Z.lor (Z.lor a (Z.shiftl b 8)) (Z.shiftl c 16) in
      if candidate =? 0 then scan24BitDMRID rest
      else if plausibleDMRID candidate then Some candidate
      else scan24BitDMRID rest
  | _ => None
  end.

Definition nonzero (id : Z) : option Z := if id =? 0 then None else Some id.

Definition parseRDACDMRID (data : list Z) : option Z :=
  let n := length data in
  if (n =? 14)%nat && (data.[0] =? 0x96) && (data.[1] =? 0x00) then
    nonzero (Z.lor (Z.lor (Z.shiftl (data.[2]) 16) (Z.shiftl (data.[3]) 8)) (data.[4]))
  else if (21 <=? n)%nat && (data.[0] =? 0x7E) && (data.[3] =? 0x00) then
    nonzero (Z.lor (Z.lor (data.[18]) (Z.shiftl (data.[19]) 8)) (Z.shiftl (data.[20]) 16))
  else if (72 <=? n)%nat && hasHyteraDMRHeader data then nonzero (decodeID24LE (slice (n - 4) (n - 1) data))
  else if (32 <=? n)%nat then scan24BitDMRID data
  else None.

(** The last three bytes of a radio address, written in decimal one after the
    other; [ParseUint] fails on more than 32 bits. *)
Definition decodeHyteraRadioIPDMRID (data : list Z) : option Z :=
  if (length data <? 4)%nat then None
  else
    let digits := dec (data.[1]) ++ dec (data.[2]) ++ dec (data.[3]) in
    let dmrid := foldl (fun acc c => acc * 10 + (c - 48)) 0 digits in
    if dmrid <? 2 ^ 32 then nonzero dmrid else None.

Definition parseHyteraDMRAppDMRID (data : list Z) : option Z :=
  if (length data <? 21)%nat then None
  else if negb (data.[0] =? 0x7E) || negb (data.[3] =? 0x00) then None
  else
    let hrnpLen := get_be16 (data.[8]) (data.[9]) in
    let data := if (0 <? hrnpLen) && (hrnpLen <=? Z.of_nat (length data)) then take (Z.to_nat hrnpLen) data else data in
    if (length data <? 21)%nat then None
    else
      let hdap := drop 12 data in
      if negb (Z.land (hdap.[0]) 0x1F =? 0x11) then None
      else if negb (hdap.[1] =? 0x00) then None
      else if negb (bool_decide (hdap.[2] ∈ [0x01; 0x02; 0x03; 0x80; 0x82])) then None
      else if Z.lor (hdap.[3]) (Z.shiftl (hdap.[4]) 8) <? 4 then None
      else decodeHyteraRadioIPDMRID (slice 5 9 hdap).

(** ** Swapping *)

Lemma pair_ind (P : list Z -> Prop) : P [] -> (forall a, P [a]) -> (forall a b l, P l -> P (a :: b :: l)) -> forall l, P l.
Proof. intros H0 H1 H2. fix IH 1. intros [| a [| b l]]; [done | apply H1 | apply H2, IH]. Qed.

Lemma swap_pairs_length l : length (swap_pairs l) = length l.
Proof. induction l as [| a | a b l IH] using pair_ind; cbn; by rewrite ?IH. Qed.

Lemma swap_pairs_involutive l : swap_pairs (swap_pairs l) = l.
Proof. induction l as [| a | a b l IH] using pair_ind; cbn; by rewrite ?IH. Qed.

(** A burst of 33 bytes is stored in 34 and found again in them. *)
Lemma swap_burst data :
  length data = 33%nat ->
  exists payload, swapDMRPayload data = Done payload /\ length payload = 34%nat /\ swapDMRPayload payload = Done data.
Proof.
  intros Hl. exists (swap_pairs (data ++ [0])). unfold swapDMRPayload. rewrite Hl. cbn [Nat.modulo Nat.divmod Nat.eqb snd negb Nat.sub].
  assert (Hlen : length (swap_pairs (data ++ [0])) = 34%nat) by (rewrite swap_pairs_length, length_app, Hl; done).
  split; [done |]. split; [done |]. rewrite Hlen. cbn [Nat.modulo Nat.divmod Nat.eqb snd negb Nat.sub].
  rewrite swap_pairs_involutive. destruct (data ++ [0]) eqn:E; [by destruct data |]. rewrite <- E, length_app, Hl.
  change (33 + length [0] - 1)%nat with 33%nat. f_equal. change (33 + length [0] - 1)%nat with 33%nat. rewrite take_app_le by (rewrite Hl; done). apply take_ge. by rewrite Hl.
Qed.
