(* ===== verification/Hytera.v ===== *)
(** * The Hytera server: repeaters and received bursts (internal/hytera/server.go)

    A repeater registers on the P2P socket, tells the ports of its voice and
    its RDAC service, is asked for its identifier over RDAC and sends its bursts
    to the DMR socket.  [slotState] carries the state of a timeslot for both
    directions: [inbound] and [outbound] are its fields for the received and for
    the sent bursts; sending is modelled in [HyteraSend].  Each received datagram
    is one step; the goroutine that starts the identification after a pause is a
    pending timer. *)

From S2P Require Import Prelude Strings Net Packet Bptc LinkControl VoiceBurst Rewrite Rptc Text Config HyteraFrame.

Definition hyteraGroupCallHangTime : Z := 6 * second.
Definition hyteraPrivateCallHangTime : Z := 4 * second.
Definition hyteraPeerTimeout : Z := 30 * second.

Definition rdacStep0Request : list Z := [0x7E; 0x04; 0x00; 0xFE; 0x20; 0x10; 0x00; 0x00; 0x00; 0x0C; 0x60; 0xE1].
Definition rdacStep0Response : list Z := [0x7E; 0x04; 0x00; 0xFD].
Definition rdacStep1Request : list Z :=
  [0x7E; 0x04; 0x00; 0x00; 0x20; 0x10; 0x00; 0x01; 0x00; 0x18; 0x9B; 0x60; 0x02; 0x04; 0x00; 0x05;
   0x00; 0x64; 0x00; 0x00; 0x00; 0x01; 0xC4; 0x03].
Definition rdacStep1Response : list Z := [0x7E; 0x04; 0x00; 0x10].
Definition rdacStep2Response : list Z := [0x7E; 0x04; 0x00; 0x00].

(** ** State *)

Record inbound := mkInbound {
  inLastSeqSet : bool;
  inLastSeq : Z;
  mmdvmSeq : Z;
  streamID : Z;
  active : bool;
  inSrc : Z;
  inDst : Z;
  inGroupCall : bool;
  lastInbound : time
}.

Record outbound := mkOutbound {
  outSeq : Z;
  outStreamID : Z;
  lastSent : time;
  lastMotoWakeup : time;
  lastMotoHeader : time;
  motoSO : Z;
  motoSOSet : bool
}.

Record slotState := mkSlotState { st_in : inbound; st_out : outbound }.

Definition empty_inbound : inbound := mkInbound false 0 0 0 false 0 0 false 0.
Definition empty_outbound : outbound := mkOutbound 0 0 0 0 0 0 false.
Definition new_slotState : slotState := mkSlotState empty_inbound empty_outbound.

Record rdacSession := mkRdac {
  step : nat;
  lastRequestAt : time;
  lastDMRID : Z;
  identCompleted : bool;
  lastP2PAt : time
}.
Definition new_session : rdacSession := mkRdac 0 0 0 false 0.

(** The addresses of the repeaters, by IP address. *)
Record Peers := mkPeers {
  repeaterP2PAddr : gmap string UDPAddr;
  repeaterDMRAddr : gmap string UDPAddr;
  repeaterRDACAddr : gmap string UDPAddr;
  peerLastSeen : gmap string time;
  rdacSessions : gmap string rdacSession
}.

Inductive socket := P2PSocket | DMRSocket | RDACSocket.

(** The arguments of the peer handler. *)
Record PeerUpdate := mkUpdate { up_addr : UDPAddr; up_p2pPort : Z; up_dmrPort : Z; up_rdacPort : Z; up_dmrid : Z }.

Inductive HyteraError := ErrShortPacket | ErrIgnored | ErrInvalidTail | ErrPayloadLength.

(** What the sockets accept, and the order of an iteration over addresses. *)
Class HyteraNet := {
  udp_write : UDPAddr -> list Z -> bool;
  addr_iter : gmap string UDPAddr -> list (string * UDPAddr);
  seen_iter : gmap string time -> list (string * time)
}.
Class HyteraNetLaws `{HyteraNet} : Prop := {
  addr_iter_elements m : addr_iter m ≡ₚ map_to_list m;
  seen_iter_elements m : seen_iter m ≡ₚ map_to_list m
}.

Record Server := mkServer {
  hy_cfg : Config;
  hy_RDACPort : Z;
  (** the RDAC socket is open *)
  hy_rdac : bool;
  hy_peers : Peers;
  hy_slots : gmap bool slotState;
  hy_routeSlots : gmap string (gmap bool slotState);
  hy_nextStreamID : Z;
  hy_templates : gmap string (list Z);
  hy_lastSend : gmap string time;
  hy_stopped : bool;
  hy_packetHandler : bool;
  hy_peerHandler : bool;
  hy_offlineHandler : bool;
  hy_sendFilter : option (string -> bool);
  (** pending identifications *)
  hy_timers : list UDPAddr;
  hy_wire : list (socket * UDPAddr * list Z);
  hy_packets : list (Packet * UDPAddr);
  hy_updates : list PeerUpdate;
  hy_offline : list string
}.

Definition with_hpeers (s : Server) p := mkServer (hy_cfg s) (hy_RDACPort s) (hy_rdac s) p (hy_slots s) (hy_routeSlots s) (hy_nextStreamID s)
  (hy_templates s) (hy_lastSend s) (hy_stopped s) (hy_packetHandler s) (hy_peerHandler s) (hy_offlineHandler s) (hy_sendFilter s)
  (hy_timers s) (hy_wire s) (hy_packets s) (hy_updates s) (hy_offline s).
Definition with_slots (s : Server) m next := mkServer (hy_cfg s) (hy_RDACPort s) (hy_rdac s) (hy_peers s) m (hy_routeSlots s) next
  (hy_templates s) (hy_lastSend s) (hy_stopped s) (hy_packetHandler s) (hy_peerHandler s) (hy_offlineHandler s) (hy_sendFilter s)
  (hy_timers s) (hy_wire s) (hy_packets s) (hy_updates s) (hy_offline s).
Definition with_routeSlots (s : Server) m := mkServer (hy_cfg s) (hy_RDACPort s) (hy_rdac s) (hy_peers s) (hy_slots s) m (hy_nextStreamID s)
  (hy_templates s) (hy_lastSend s) (hy_stopped s) (hy_packetHandler s) (hy_peerHandler s) (hy_offlineHandler s) (hy_sendFilter s)
  (hy_timers s) (hy_wire s) (hy_packets s) (hy_updates s) (hy_offline s).
Definition with_templates (s : Server) t := mkServer (hy_cfg s) (hy_RDACPort s) (hy_rdac s) (hy_peers s) (hy_slots s) (hy_routeSlots s)
  (hy_nextStreamID s) t (hy_lastSend s) (hy_stopped s) (hy_packetHandler s) (hy_peerHandler s) (hy_offlineHandler s) (hy_sendFilter s)
  (hy_timers s) (hy_wire s) (hy_packets s) (hy_updates s) (hy_offline s).
Definition with_hlastSend (s : Server) m := mkServer (hy_cfg s) (hy_RDACPort s) (hy_rdac s) (hy_peers s) (hy_slots s) (hy_routeSlots s)
  (hy_nextStreamID s) (hy_templates s) m (hy_stopped s) (hy_packetHandler s) (hy_peerHandler s) (hy_offlineHandler s) (hy_sendFilter s)
  (hy_timers s) (hy_wire s) (hy_packets s) (hy_updates s) (hy_offline s).
Definition with_timers (s : Server) t := mkServer (hy_cfg s) (hy_RDACPort s) (hy_rdac s) (hy_peers s) (hy_slots s) (hy_routeSlots s)
  (hy_nextStreamID s) (hy_templates s) (hy_lastSend s) (hy_stopped s) (hy_packetHandler s) (hy_peerHandler s) (hy_offlineHandler s)
  (hy_sendFilter s) t (hy_wire s) (hy_packets s) (hy_updates s) (hy_offline s).
Definition with_hwire (s : Server) w := mkServer (hy_cfg s) (hy_RDACPort s) (hy_rdac s) (hy_peers s) (hy_slots s) (hy_routeSlots s)
  (hy_nextStreamID s) (hy_templates s) (hy_lastSend s) (hy_stopped s) (hy_packetHandler s) (hy_peerHandler s) (hy_offlineHandler s)
  (hy_sendFilter s) (hy_timers s) w (hy_packets s) (hy_updates s) (hy_offline s).
Definition with_packets (s : Server) p := mkServer (hy_cfg s) (hy_RDACPort s) (hy_rdac s) (hy_peers s) (hy_slots s) (hy_routeSlots s)
  (hy_nextStreamID s) (hy_templates s) (hy_lastSend s) (hy_stopped s) (hy_packetHandler s) (hy_peerHandler s) (hy_offlineHandler s)
  (hy_sendFilter s) (hy_timers s) (hy_wire s) p (hy_updates s) (hy_offline s).
Definition with_hupdates (s : Server) u := mkServer (hy_cfg s) (hy_RDACPort s) (hy_rdac s) (hy_peers s) (hy_slots s) (hy_routeSlots s)
  (hy_nextStreamID s) (hy_templates s) (hy_lastSend s) (hy_stopped s) (hy_packetHandler s) (hy_peerHandler s) (hy_offlineHandler s)
  (hy_sendFilter s) (hy_timers s) (hy_wire s) (hy_packets s) u (hy_offline s).
Definition with_hoffline (s : Server) o := mkServer (hy_cfg s) (hy_RDACPort s) (hy_rdac s) (hy_peers s) (hy_slots s) (hy_routeSlots s)
  (hy_nextStreamID s) (hy_templates s) (hy_lastSend s) (hy_stopped s) (hy_packetHandler s) (hy_peerHandler s) (hy_offlineHandler s)
  (hy_sendFilter s) (hy_timers s) (hy_wire s) (hy_packets s) (hy_updates s) o.
Definition with_hooks (s : Server) stopped packet peer offline filter := mkServer (hy_cfg s) (hy_RDACPort s) (hy_rdac s) (hy_peers s)
  (hy_slots s) (hy_routeSlots s) (hy_nextStreamID s) (hy_templates s) (hy_lastSend s) stopped packet peer offline filter
  (hy_timers s) (hy_wire s) (hy_packets s) (hy_updates s) (hy_offline s).

(** [NewServer]; [rdac] and its port come from the configuration. *)
Definition NewServer (cfg : Config) (rdac : bool) (rdacPort : Z) : Server :=
  mkServer cfg rdacPort rdac (mkPeers ∅ ∅ ∅ ∅ ∅) (<[false := new_slotState]> (<[true := new_slotState]> ∅)) ∅ 1 ∅ ∅
    false false false false None [] [] [] [] [].

Definition SetPacketHandler (s : Server) := with_hooks s (hy_stopped s) true (hy_peerHandler s) (hy_offlineHandler s) (hy_sendFilter s).
Definition SetPeerUpdateHandler (s : Server) := with_hooks s (hy_stopped s) (hy_packetHandler s) true (hy_offlineHandler s) (hy_sendFilter s).
Definition SetPeerOfflineHandler (s : Server) := with_hooks s (hy_stopped s) (hy_packetHandler s) (hy_peerHandler s) true (hy_sendFilter s).
Definition SetSendFilter (s : Server) (f : string -> bool) :=
  with_hooks s (hy_stopped s) (hy_packetHandler s) (hy_peerHandler s) (hy_offlineHandler s) (Some f).
Definition Stop (s : Server) := with_hooks s true (hy_packetHandler s) (hy_peerHandler s) (hy_offlineHandler s) (hy_sendFilter s).

(** ** Received bursts *)

(** "ts1:1111" *)
Definition startupTemplateKey (slot : bool) (slotType : Z) : string :=
  (if slot then "ts2" else "ts1") +:+ ":" +:+ hex_string (put_be16 slotType).

Definition cacheStartupTemplate (s : Server) (slot : bool) (slotType : Z) (data : list Z) : Server :=
  if (length data <? 72)%nat then s
  else with_templates s (<[startupTemplateKey slot slotType := data]> (hy_templates s)).

Definition hang_time (groupCall : bool) : Z := if groupCall then hyteraGroupCallHangTime else hyteraPrivateCallHangTime.

Definition shouldStartNewInboundStream (st : inbound) (slotType src dst : Z) (groupCall : bool) (now : time) : bool :=
  if negb (active st) then true
  else if negb (slotType =? slotTypeVoiceLCHeader) then false
  else if negb (inSrc st =? src) || negb (inDst st =? dst) || negb (Bool.eqb (inGroupCall st) groupCall) then true
  else time_is_zero (lastInbound st) || (hang_time groupCall <? time_sub now (lastInbound st)).

(** The next stream identifier; zero is left out. *)
Definition next_stream (n : Z) : Z := let n := u32 (n + 1) in if n =? 0 then 1 else n.

(** A received packet taken apart. *)
Record Burst := mkBurst { b_slot : bool; b_slotType : Z; b_frameType : Z; b_dtype : Z; b_groupCall : bool; b_dst : Z; b_src : Z; b_data : list Z }.

(** The duplicate check of packets with the native prefix: the new memory, or
    [None] for a repetition. *)
Definition note_sequence (st : inbound) (data : list Z) : option inbound :=
  if hasNativeHyteraPrefix data then
    let seqIn := data.[4] in
    if inLastSeqSet st && (inLastSeq st =? seqIn) then None
    else Some (mkInbound true seqIn (mmdvmSeq st) (streamID st) (active st) (inSrc st) (inDst st) (inGroupCall st) (lastInbound st))
  else Some st.

(** Numbering and stream of a burst. *)
Definition receive_burst (bridgeID : Z) (st : inbound) (next : Z) (b : Burst) (now : time) : inbound * Z * Packet :=
  let fresh := negb (active st) || shouldStartNewInboundStream st (b_slotType b) (b_src b) (b_dst b) (b_groupCall b) now in
  let id := if fresh then next else streamID st in
  let next := if fresh then next_stream next else next in
  let pkt := mkPacket (str_bytes "DMRD") (mmdvmSeq st) (b_src b) (b_dst b) bridgeID (b_slot b) (b_groupCall b) (b_frameType b) (b_dtype b)
    id (b_data b) in
  (mkInbound (inLastSeqSet st) (inLastSeq st) (u8 (mmdvmSeq st + 1)) id (negb (b_slotType b =? slotTypeTerminator))
    (b_src b) (b_dst b) (b_groupCall b) now, next, pkt).

(** The fields of a packet with a known slot type. *)
Definition parse_burst (data : list Z) (frameType dtype : Z) : outcome (Burst + HyteraError) :=
  let tailStart := (length data - 12)%nat in
  if (tailStart <? 26)%nat then Done (inr ErrInvalidTail)
  else
    let! dmrDataBytes := swapDMRPayload (slice 26 tailStart data) in
    if negb (length dmrDataBytes =? 33)%nat then Done (inr ErrPayloadLength)
    else Done (inl (mkBurst (negb (data.[12] =? 0x01)) (get_be16 (data.[18]) (data.[19])) frameType dtype (data.[tailStart + 2] =? 0x01)
      (decodeID24LE (slice (tailStart + 4) (tailStart + 8) data)) (decodeID24LE (slice (tailStart + 8) (tailStart + 12) data)) dmrDataBytes)).

Definition is_startup (slotType : Z) : bool := (slotType =? slotTypeSync) || (slotType =? slotTypeWakeupRequest).

Definition decodeToMMDVM (s : Server) (data : list Z) (now : time) : outcome (Server * (Packet + HyteraError)) :=
  if (length data <? 38)%nat then Done (s, inr ErrShortPacket)
  else if negb (hasHyteraDMRHeader data) then Done (s, inr ErrIgnored)
  else
    let slot := negb (data.[12] =? 0x01) in
    let slotType := get_be16 (data.[18]) (data.[19]) in
    let s := if is_startup slotType || (slotType =? slotTypeVoiceLCHeader) then cacheStartupTemplate s slot slotType data else s in
    if is_startup slotType then Done (s, inr ErrIgnored)
    else
      match decodeSlotType slotType with
      | None => Done (s, inr ErrIgnored)
      | Some (frameType, dtype) =>
          let! r := parse_burst data frameType dtype in
          match r with
          | inr e => Done (s, inr e)
          | inl b =>
              let st := default new_slotState (hy_slots s !! slot) in
              match note_sequence (st_in st) data with
              | None => Done (s, inr ErrIgnored)
              | Some sin =>
                  let '(sin, next, pkt) := receive_burst (BridgeID (hy_cfg s)) sin (hy_nextStreamID s) b now in
                  Done (with_slots s (<[slot := mkSlotState sin (st_out st)]> (hy_slots s)) next, inl pkt)
              end
          end
      end.

Section server.
Context `{HyteraNet}.

(** ** Sockets and handlers *)

(** A datagram, and whether it was written. *)
Definition write (s : Server) (via : socket) (data : list Z) (addr : UDPAddr) : Server * bool :=
  if udp_write addr data then (with_hwire s (hy_wire s ++ [(via, addr, data)]), true) else (s, false).

Definition emit (s : Server) (u : PeerUpdate) : Server := if hy_peerHandler s then with_hupdates s (hy_updates s ++ [u]) else s.

Definition port_of (m : gmap string UDPAddr) (key : string) : Z := default 0 (addr_Port <$> m !! key).

(** [&net.UDPAddr{IP, Port}] *)
Definition plain_addr (addr : UDPAddr) (port : Z) : UDPAddr := mkAddr (addr_IP addr) port "".

Definition with_p2p p m := mkPeers m (repeaterDMRAddr p) (repeaterRDACAddr p) (peerLastSeen p) (rdacSessions p).
Definition with_dmr p m := mkPeers (repeaterP2PAddr p) m (repeaterRDACAddr p) (peerLastSeen p) (rdacSessions p).
Definition with_rdac p m := mkPeers (repeaterP2PAddr p) (repeaterDMRAddr p) m (peerLastSeen p) (rdacSessions p).
Definition with_seen p m := mkPeers (repeaterP2PAddr p) (repeaterDMRAddr p) (repeaterRDACAddr p) m (rdacSessions p).
Definition with_sessions p m := mkPeers (repeaterP2PAddr p) (repeaterDMRAddr p) (repeaterRDACAddr p) (peerLastSeen p) m.

(** The P2P socket was heard from. *)
Definition associate (p : Peers) (key : string) (now : time) : Peers :=
  let ss := default new_session (rdacSessions p !! key) in
  with_sessions p (<[key := mkRdac (step ss) (lastRequestAt ss) (lastDMRID ss) (identCompleted ss) now]> (rdacSessions p)).
Definition markP2PAssociation (s : Server) (addr : UDPAddr) (now : time) : Server :=
  with_hpeers s (associate (hy_peers s) (addr_IP addr) now).

(** ** RDAC identification *)

Definition set_session (s : Server) (key : string) (ss : rdacSession) : Server :=
  with_hpeers s (with_sessions (hy_peers s) (<[key := ss]> (rdacSessions (hy_peers s)))).

Definition session_of (s : Server) (key : string) : rdacSession := default new_session (rdacSessions (hy_peers s) !! key).

Definition startRDACIdentification (s : Server) (addr : UDPAddr) (now : time) : Server :=
  if negb (hy_rdac s) then s
  else
    let key := addr_IP addr in
    let ss := session_of s key in
    let s := set_session s key ss in
    if time_is_zero (lastP2PAt ss) || (15 * second <? time_sub now (lastP2PAt ss)) then s
    else if identCompleted ss && negb (lastDMRID ss =? 0) then s
    else if time_sub now (lastRequestAt ss) <? 2 * second then s
    else
      let s := set_session s key (mkRdac 1 now (lastDMRID ss) (identCompleted ss) (lastP2PAt ss)) in
      fst (write s RDACSocket rdacStep0Request addr).

Definition emitHyteraPeerUpdate (s : Server) (addr : UDPAddr) (dmrid : Z) : Server :=
  let key := addr_IP addr in
  let p := hy_peers s in
  let rdacPort := let known := port_of (repeaterRDACAddr p) key in if known =? 0 then addr_Port addr else known in
  emit s (mkUpdate addr (port_of (repeaterP2PAddr p) key) (port_of (repeaterDMRAddr p) key) rdacPort dmrid).

Definition has_bytes (data prefix : list Z) : bool := bool_decide (take (length prefix) data = prefix).

Definition handleRDACHandshake (s : Server) (addr : UDPAddr) (data : list Z) (now : time) : Server :=
  if negb (hy_rdac s) then s
  else if bool_decide (data = [0x00]) then startRDACIdentification s addr now
  else
    let key := addr_IP addr in
    let ss := session_of s key in
    let s := set_session s key ss in
    if (step ss =? 1)%nat then
      if has_bytes data rdacStep0Response then
        let s := set_session s key (mkRdac 2 now (lastDMRID ss) (identCompleted ss) (lastP2PAt ss)) in
        fst (write s RDACSocket rdacStep1Request addr)
      else s
    else if (step ss =? 2)%nat then
      if has_bytes data rdacStep1Response then
        set_session s key (mkRdac 3 (lastRequestAt ss) (lastDMRID ss) (identCompleted ss) (lastP2PAt ss))
      else s
    else if (step ss =? 3)%nat then
      if has_bytes data rdacStep2Response then
        match parseRDACDMRID data with
        | Some dmrid =>
            emitHyteraPeerUpdate (set_session s key (mkRdac 0 (lastRequestAt ss) dmrid true (lastP2PAt ss))) addr dmrid
        | None => set_session s key (mkRdac 0 (lastRequestAt ss) (lastDMRID ss) (identCompleted ss) (lastP2PAt ss))
        end
      else s
    else s.

(** One datagram of [rdacLoop]. *)
Definition rdac_receive (s : Server) (data : list Z) (addr : UDPAddr) (now : time) : Server :=
  if (length data =? 0)%nat then s
  else
    let key := addr_IP addr in
    let p := hy_peers s in
    let s := with_hpeers s (with_rdac p (<[key := plain_addr addr (addr_Port addr)]> (repeaterRDACAddr p))) in
    let p2pPort := port_of (repeaterP2PAddr p) key in
    let dmrPort := port_of (repeaterDMRAddr p) key in
    let s := handleRDACHandshake s addr data now in
    emit s (mkUpdate addr p2pPort dmrPort (addr_Port addr) (default 0 (parseRDACDMRID data))).

(** ** Registration *)

Definition p2p_write (s : Server) (data : list Z) (addr : UDPAddr) : Server := fst (write s P2PSocket data addr).

(** The answer to a command, with its counter raised. *)
Definition p2p_answer (data : list Z) : list Z := <[13%nat := 0x01]> (<[4%nat := u8 (data.[4] + 1)]> data).

Definition handleRegistration (s : Server) (data : list Z) (addr : UDPAddr) (now : time) : Server :=
  let resp := <[15%nat := 0x5A]> (<[14%nat := 0x01]> (p2p_answer (<[3%nat := 0x50]> data))) ++ [0x01] in
  let s := p2p_write s resp addr in
  let key := addr_IP addr in
  let p := hy_peers s in
  let p := with_p2p p (<[key := addr]> (repeaterP2PAddr p)) in
  let p := with_dmr p (<[key := plain_addr addr (addr_Port addr)]> (repeaterDMRAddr p)) in
  let p := with_seen p (<[key := now]> (peerLastSeen p)) in
  emit (with_hpeers s (associate p key now)) (mkUpdate addr (addr_Port addr) (addr_Port addr) 0 0).

(** [rdac]: the command announces the RDAC port, not the DMR port. *)
Definition handleStartup (s : Server) (data : list Z) (addr : UDPAddr) (rdac : bool) (now : time) : Server :=
  let resp := p2p_answer data ++ [0x01] in
  let key := addr_IP addr in
  let p := hy_peers s in
  let responseAddr := default (plain_addr addr (P2PPort (hy_cfg s))) (repeaterP2PAddr p !! key) in
  let p := with_seen (associate p key now) (<[key := now]> (peerLastSeen p)) in
  let here := plain_addr addr (addr_Port addr) in
  let p := if rdac then with_rdac p (<[key := here]> (repeaterRDACAddr p)) else with_dmr p (<[key := here]> (repeaterDMRAddr p)) in
  let p :=
    match repeaterDMRAddr p !! key with
    | Some _ => p
    | None => with_dmr p (<[key := plain_addr addr (DMRPort (hy_cfg s))]> (repeaterDMRAddr p))
    end in
  let rdacPort := port_of (repeaterRDACAddr p) key in
  let s := with_hpeers s p in
  let s := emit s (mkUpdate addr (addr_Port responseAddr) (if rdac then DMRPort (hy_cfg s) else addr_Port addr)
    (if rdac then addr_Port addr else rdacPort) 0) in
  let s := p2p_write s resp responseAddr in
  let redirect := getRedirectPacket resp (if rdac then hy_RDACPort s else DMRPort (hy_cfg s)) in
  let s := p2p_write s redirect responseAddr in
  if rdac && hy_rdac s then with_timers s (hy_timers s ++ [addr]) else s.

Definition handleP2PCommand (s : Server) (data : list Z) (addr : UDPAddr) (now : time) : Server :=
  let packetType := data.[20] in
  if packetType =? 0x10 then handleRegistration s data addr now
  else if packetType =? 0x11 then handleStartup s data addr false now
  else if packetType =? 0x12 then handleStartup s data addr true now
  else s.

Definition is_p2p_ping (data : list Z) : bool :=
  (15 <=? length data)%nat && bool_decide (slice 4 9 data = [0x0A; 0x00; 0x00; 0x00; 0x14]).

Definition handleP2P (s : Server) (data : list Z) (addr : UDPAddr) (now : time) : Server :=
  if is_p2p_ping data then
    let key := addr_IP addr in
    let p := hy_peers s in
    let p := with_p2p p (<[key := addr]> (repeaterP2PAddr p)) in
    let p := with_seen p (<[key := now]> (peerLastSeen p)) in
    let s := markP2PAssociation (with_hpeers s p) addr now in
    p2p_write s (<[14%nat := 0x01]> (<[12%nat := 0xFF]> data)) addr
  else if (length data <? 21)%nat then s
  else if bool_decide (take 3 data = [0x50; 0x32; 0x50]) then handleP2PCommand (markP2PAssociation s addr now) data addr now
  else s.

(** The identification that waited for its pause. *)
Definition rdac_timer (s : Server) (now : time) : Server :=
  match hy_timers s with
  | [] => s
  | addr :: rest => startRDACIdentification (with_timers s rest) addr now
  end.

(** ** The DMR socket and the expiry *)

(** One datagram of [p2pLoop]; [bridged] says that the NRL bridge took it. *)
Definition p2p_receive (s : Server) (bridged : bool) (data : list Z) (addr : UDPAddr) (now : time) : Server :=
  if bridged then s else handleP2P s data addr now.

(** One datagram of [dmrLoop]. *)
Definition dmr_receive (s : Server) (bridged : bool) (data : list Z) (addr : UDPAddr) (now : time) : outcome Server :=
  if bridged then Done s
  else
  let key := addr_IP addr in
  let p := hy_peers s in
  let p :=
    if (20 <=? length data)%nat && hasHyteraDMRHeader data
    then with_dmr p (<[key := plain_addr addr (addr_Port addr)]> (repeaterDMRAddr p)) else p in
  let p := with_seen p (<[key := now]> (peerLastSeen p)) in
  let s := emit (with_hpeers s p) (mkUpdate addr (port_of (repeaterP2PAddr p) key) (addr_Port addr) (port_of (repeaterRDACAddr p) key)
    (default 0 (parseHyteraDMRAppDMRID data))) in
  let! (s, r) := decodeToMMDVM s data now in
  match r with
  | inr _ => Done s
  | inl pkt => Done (if hy_packetHandler s then with_packets s (hy_packets s ++ [(pkt, addr)]) else s)
  end.

Definition stale_repeater (now lastSeen : time) : bool := hyteraPeerTimeout <? time_sub now lastSeen.

(** One tick of [peerExpiryLoop]. *)
Definition expireStalePeers (s : Server) (now : time) : Server :=
  let p := hy_peers s in
  let expired := (List.filter (fun '(_, t) => stale_repeater now t) (seen_iter (peerLastSeen p))).*1 in
  let remove {A} (m : gmap string A) := foldl (fun m key => delete key m) m expired in
  let s := with_hpeers s (mkPeers (remove (repeaterP2PAddr p)) (remove (repeaterDMRAddr p)) (remove (repeaterRDACAddr p))
    (remove (peerLastSeen p)) (rdacSessions p)) in
  if hy_offlineHandler s then with_hoffline s (hy_offline s ++ (String.append "hytera:" <$> expired)) else s.

End server.
