(* ===== verification/HyteraBursts.v ===== *)
(** * Bursts received from Hytera repeaters

    Theorems about [decodeToMMDVM]: the inputs it panics on, that it reads what
    [encodeFromMMDVM] wrote, and how it numbers the packets of a timeslot and
    cuts them into streams. *)

From S2P Require Import Prelude Strings Net Packet Bptc LinkControl VoiceBurst Rewrite Rptc Text Config HyteraFrame Hytera.

(** ** The outcomes of decoding *)

Lemma swap_panics data : swapDMRPayload data = Panic <-> data = [].
Proof.
  unfold swapDMRPayload. destruct (negb (length data mod 2 =? 0)%nat) eqn:E.
  - split; [done |]. intros ->. done.
  - split; [| by intros ->]. destruct (swap_pairs data) eqn:Es; [| done]. intros _.
    apply (f_equal length) in Es. rewrite swap_pairs_length in Es. by destruct data.
Qed.

Lemma parse_burst_panics data frameType dtype :
  (38 <= length data)%nat -> (parse_burst data frameType dtype = Panic <-> length data = 38%nat).
Proof.
  intros Hl. unfold parse_burst. destruct (Nat.ltb_spec (length data - 12) 26); [lia |].
  destruct (swapDMRPayload _) as [d |] eqn:E; cbn [obind].
  - destruct (negb (length d =? 33)%nat); (split; [done |]); intros Hn; exfalso;
      assert (slice 26 (length data - 12) data = []) as E0 by (rewrite Hn; unfold slice; apply nil_length_inv; rewrite length_take; lia);
      apply swap_panics in E0; congruence.
  - split; [| done]. intros _. apply swap_panics in E. apply (f_equal length) in E. unfold slice in E.
    rewrite length_take, length_drop in E. cbn in E. lia.
Qed.

(** A received packet of 38 bytes stops the program.  [decodeToMMDVM]
    panics exactly on a packet of that length with the header of a Hytera packet
    and a slot type that carries a burst: the burst between header and addresses
    is then empty, and its last byte is cut off.  On every other input it
    returns. *)
Theorem decode_panics_iff s data now :
  decodeToMMDVM s data now = Panic <->
  length data = 38%nat /\ hasHyteraDMRHeader data = true /\ is_Some (decodeSlotType (get_be16 (data.[18]) (data.[19]))).
Proof.
  unfold decodeToMMDVM. destruct (Nat.ltb_spec (length data) 38) as [| Hl]; [split; [done | lia] |].
  destruct (hasHyteraDMRHeader data); cbn [negb]; [| split; [done | by intros (_ & ? & _)]].
  set (slotType := get_be16 _ _). set (s' := if _ || _ then _ else s). clearbody s'.
  destruct (is_startup slotType) eqn:Es.
  { split; [done |]. intros (_ & _ & [x Hx]). unfold is_startup in Es.
    apply orb_true_iff in Es as [E | E]; apply Z.eqb_eq in E; rewrite E in Hx; discriminate. }
  destruct (decodeSlotType slotType) as [[frameType dtype] |]; [| split; [done | by intros (_ & _ & [? ?])]].
  pose proof (parse_burst_panics data frameType dtype Hl) as Hp.
  destruct (parse_burst data frameType dtype) as [[b | e] |]; cbn [obind].
  - assert (length data <> 38%nat) by (intros E; by apply Hp in E).
    destruct (note_sequence _ data) as [sin |]; [| split; [done | tauto]].
    destruct (receive_burst _ sin _ b now) as [[sin' next] pkt]. split; [done | tauto].
  - assert (length data <> 38%nat) by (intros E; by apply Hp in E). split; [done | tauto].
  - split; [| done]. intros _. split_and!; [by apply Hp | done | by eexists].
Qed.

(** What is left alone when no packet comes out. *)
Definition same_streams (s s' : Server) : Prop := hy_slots s' = hy_slots s /\ hy_nextStreamID s' = hy_nextStreamID s.

(** A slot's memory up to the sequence byte. *)
Definition same_but_sequence (a b : inbound) : Prop :=
  mmdvmSeq a = mmdvmSeq b /\ streamID a = streamID b /\ active a = active b /\ inSrc a = inSrc b /\ inDst a = inDst b /\
  inGroupCall a = inGroupCall b /\ lastInbound a = lastInbound b.

Lemma note_sequence_same st data st' : note_sequence st data = Some st' -> same_but_sequence st' st.
Proof.
  unfold note_sequence. destruct (hasNativeHyteraPrefix data); [| by intros [= ->]].
  destruct (_ && _); [done |]. by intros [= <-].
Qed.

Lemma cache_same s slot slotType data : same_streams s (cacheStartupTemplate s slot slotType data) /\ hy_cfg (cacheStartupTemplate s slot slotType data) = hy_cfg s.
Proof. unfold cacheStartupTemplate. by destruct (_ <? _)%nat. Qed.

Lemma decode_spec s data now s' r :
  decodeToMMDVM s data now = Done (s', r) ->
  match r with
  | inr _ => same_streams s s'
  | inl pkt => exists b sin sin' next,
      decodeSlotType (b_slotType b) = Some (b_frameType b, b_dtype b) /\
      same_but_sequence sin (st_in (default new_slotState (hy_slots s !! b_slot b))) /\
      receive_burst (BridgeID (hy_cfg s)) sin (hy_nextStreamID s) b now = (sin', next, pkt) /\
      hy_slots s' = <[b_slot b := mkSlotState sin' (st_out (default new_slotState (hy_slots s !! b_slot b)))]> (hy_slots s) /\
      hy_nextStreamID s' = next
  end.
Proof.
  unfold decodeToMMDVM. destruct (_ <? 38)%nat; [by intros [= <- <-] |].
  destruct (hasHyteraDMRHeader data); cbn [negb]; [| by intros [= <- <-]].
  set (slotType := get_be16 _ _). set (slot := negb _).
  set (s1 := if is_startup slotType || (slotType =? slotTypeVoiceLCHeader) then cacheStartupTemplate s slot slotType data else s).
  assert (Hs1 : same_streams s s1 /\ hy_cfg s1 = hy_cfg s).
  { unfold s1. destruct (is_startup slotType || (slotType =? slotTypeVoiceLCHeader)); [apply cache_same | done]. }
  clearbody s1. destruct Hs1 as [[Em En] Ec]. rewrite Em, En, Ec.
  destruct (is_startup slotType); [by intros [= <- <-] |].
  destruct (decodeSlotType slotType) as [[frameType dtype] |] eqn:Ed; [| by intros [= <- <-]].
  destruct (parse_burst data frameType dtype) as [[b | e] |] eqn:Ep; cbn [obind]; [| by intros [= <- <-] | done].
  assert (Hb : b_slot b = slot /\ b_slotType b = slotType /\ b_frameType b = frameType /\ b_dtype b = dtype).
  { unfold parse_burst in Ep. destruct (_ <? _)%nat; [done |]. destruct (swapDMRPayload _) as [d |]; [| done].
    cbn [obind] in Ep. destruct (negb _) in Ep; [done |]. by injection Ep as <-. }
  destruct Hb as (Hb1 & Hb2 & Hb3 & Hb4). rewrite <- Hb1.
  destruct (note_sequence _ data) as [sin |] eqn:Es; [| by intros [= <- <-]].
  destruct (receive_burst _ sin _ b now) as [[sin' next] pkt] eqn:Er. intros [= <- <-].
  exists b, sin, sin', next. split_and!; [by rewrite Hb2, Hb3, Hb4 | by eapply note_sequence_same | done | done | done].
Qed.

(** ** Round trip *)

Lemma slot_type_roundtrip pkt slotType packetType :
  encodeSlotType pkt = Some (slotType, packetType) ->
  decodeSlotType slotType = Some (if FrameType pkt =? 2 then 2 else if DTypeOrVSeq pkt =? 0 then 1 else 0, DTypeOrVSeq pkt) /\
  is_startup slotType = false /\ get_be16 (u8 (Z.shiftr slotType 8)) (u8 slotType) = slotType.
Proof.
  unfold encodeSlotType.
  destruct (FrameType pkt =? 2); repeat (match goal with |- context [DTypeOrVSeq pkt =? ?k] =>
    destruct (Z.eqb_spec (DTypeOrVSeq pkt) k) as [-> |] end; [intros [= <- <-]; by split_and! |]); done.
Qed.

Lemma id24_roundtrip id : is_u24 id -> decodeID24LE (encodeID24LE id) = id.
Proof.
  intros Hid. unfold decodeID24LE, encodeID24LE. cbn [length Nat.ltb Nat.leb].
  unfold byte_at. cbn [lookup list_lookup default from_option].
  rewrite Z.lor_comm, Z.lor_assoc, (Z.lor_comm _ (u8 id)), <- Z.lor_assoc.
  change (Z.lor (u8 id) (Z.lor (Z.shiftl (u8 (Z.shiftr id 16)) 16) (Z.shiftl (u8 (Z.shiftr id 8)) 8)) = id).
  rewrite Z.lor_comm. exact (get_put_be24 id Hid).
Qed.

(** The parts of a packet. *)
Lemma frame_parts q cc pkt slotType packetType payload :
  length payload = 34%nat ->
  let f := hytera_frame q cc pkt slotType packetType payload in
  length f = 72%nat /\ hasNativeHyteraPrefix f = true /\ f.[4] = q /\ f.[12] = slot_marker (Slot pkt) /\
  get_be16 (f.[18]) (f.[19]) = get_be16 (u8 (Z.shiftr slotType 8)) (u8 slotType) /\
  slice 26 60 f = payload /\ f.[62] = call_type (GroupCall pkt) /\ slice 64 68 f = encodeID24LE (Dst pkt) /\ slice 68 72 f = encodeID24LE (Src pkt).
Proof.
  intros Hl. cbv zeta. do 34 (destruct payload as [| ? payload]; [discriminate Hl |]). destruct payload; [| discriminate Hl].
  split_and!; reflexivity.
Qed.

(** What is sent to a Hytera repeater is read back from it.  The packet
    written for a burst with addresses of three bytes has 72 bytes, and the
    server reads from it the same addresses, slot, call type, data type or voice
    sequence and burst, unless the sequence number repeats the last one of the
    slot; the frame type comes back as data, voice sync or voice. *)
Theorem hytera_frame_roundtrip s pkt q frame now :
  encode_frame q (Local_ColorCode (hy_cfg s)) pkt = Some frame ->
  length (DMRData pkt) = 33%nat -> is_u24 (Src pkt) -> is_u24 (Dst pkt) ->
  (let st := st_in (default new_slotState (hy_slots s !! Slot pkt)) in inLastSeqSet st && (inLastSeq st =? q) = false) ->
  length frame = 72%nat /\ exists s' pkt', decodeToMMDVM s frame now = Done (s', inl pkt') /\
    Src pkt' = Src pkt /\ Dst pkt' = Dst pkt /\ Slot pkt' = Slot pkt /\ GroupCall pkt' = GroupCall pkt /\
    DTypeOrVSeq pkt' = DTypeOrVSeq pkt /\ DMRData pkt' = DMRData pkt /\
    FrameType pkt' = (if FrameType pkt =? 2 then 2 else if DTypeOrVSeq pkt =? 0 then 1 else 0).
Proof.
  intros He Hlen Hsrc Hdst Hseq. unfold encode_frame in He.
  destruct (encodeSlotType pkt) as [[slotType packetType] |] eqn:Et; [| done].
  destruct (swap_burst (DMRData pkt) Hlen) as (payload & E1 & Hp & E2). rewrite E1, Hp in He. cbn [Nat.eqb negb] in He. injection He as <-.
  destruct (slot_type_roundtrip _ _ _ Et) as (Hd & Hst & Hbe).
  destruct (frame_parts q (Local_ColorCode (hy_cfg s)) pkt slotType packetType payload Hp) as (P1 & P2 & P3 & P4 & P5 & P6 & P7 & P8 & P9).
  set (f := hytera_frame _ _ _ _ _ _) in *. split; [done |].
  unfold decodeToMMDVM. rewrite P1, P5, Hbe, Hst, Hd. cbn [Nat.ltb Nat.leb orb].
  assert (hasHyteraDMRHeader f = true) as -> by (unfold hasHyteraDMRHeader; by rewrite P2). cbn [negb].
  set (s1 := if slotType =? _ then _ else s).
  assert (Hs1 : same_streams s s1) by (unfold s1; destruct (slotType =? slotTypeVoiceLCHeader); [apply cache_same | done]). destruct Hs1 as [Em En]. rewrite Em, En.
  unfold parse_burst. rewrite P1, P4, P5, Hbe. change (72 - 12)%nat with 60%nat. cbn [Nat.ltb Nat.leb].
  rewrite P6, E2. cbn [obind]. rewrite Hlen. cbn [Nat.eqb negb Nat.add].
  rewrite P7, P8, P9, !id24_roundtrip by done.
  assert (negb (slot_marker (Slot pkt) =? 1) = Slot pkt) as -> by (by destruct (Slot pkt)).
  cbn [b_slot]. unfold note_sequence. rewrite P2, P3. cbv zeta in Hseq. rewrite Hseq. unfold receive_burst.
  do 2 eexists. split; [reflexivity |]. cbn. split_and!; try done. by destruct (GroupCall pkt).
Qed.

(** ** Streams *)

(** The packets decoded from a sequence of datagrams, with their times. *)
Fixpoint decode_all (s : Server) (evs : list (list Z * time)) : outcome (Server * list (time * Packet)) :=
  match evs with
  | [] => Done (s, [])
  | (data, now) :: evs =>
      let! (s, r) := decodeToMMDVM s data now in
      let! (s, l) := decode_all s evs in
      Done (s, match r with inl pkt => (now, pkt) :: l | inr _ => l end)
  end.

Definition on_slot (b : bool) (l : list (time * Packet)) : list (time * Packet) := filter (fun x => Slot (snd x) = b) l.

Definition is_header (p : Packet) : bool := (FrameType p =? 2) && (DTypeOrVSeq p =? 1).
Definition is_terminator (p : Packet) : bool := (FrameType p =? 2) && (DTypeOrVSeq p =? 2).

(** The second packet begins a call after the first: that was a terminator, or
    this is a voice header for other parties or after the hang time. *)
Definition new_call (x y : time * Packet) : Prop :=
  let '(t, p) := x in let '(t', p') := y in
  is_terminator p = true \/
  (is_header p' = true /\ (Src p' <> Src p \/ Dst p' <> Dst p \/ GroupCall p' <> GroupCall p \/ hang_time (GroupCall p') < t' - t)).

Definition follows (x y : time * Packet) : Prop :=
  Seq (snd y) = u8 (Seq (snd x) + 1) /\ (StreamID (snd y) = StreamID (snd x) <-> ~ new_call x y).

Definition chain (l : list (time * Packet)) : Prop := forall i x y, l !! i = Some x -> l !! S i = Some y -> follows x y.

Definition slot_in (s : Server) (b : bool) : inbound := st_in (default new_slotState (hy_slots s !! b)).

(** The memory of a slot is its last packet. *)
Definition remembers (st : inbound) (x : option (time * Packet)) : Prop :=
  match x with
  | None => active st = false /\ mmdvmSeq st = 0
  | Some (t, p) =>
      mmdvmSeq st = u8 (Seq p + 1) /\ streamID st = StreamID p /\ active st = negb (is_terminator p) /\
      inSrc st = Src p /\ inDst st = Dst p /\ inGroupCall st = GroupCall p /\ lastInbound st = t /\ 0 < t
  end.

Record streams_ok (s : Server) (l : list (time * Packet)) : Prop := {
  so_next : 1 <= hy_nextStreamID s <= Z.of_nat (length l) + 1;
  so_ids : forall x, x ∈ l -> 1 <= StreamID (snd x) < hy_nextStreamID s;
  so_slots : forall x y, x ∈ l -> y ∈ l -> StreamID (snd x) = StreamID (snd y) -> Slot (snd x) = Slot (snd y);
  so_last : forall b, remembers (slot_in s b) (last (on_slot b l));
  so_chain : forall b, chain (on_slot b l)
}.

Lemma on_slot_snoc b l x : on_slot b (l ++ [x]) = on_slot b l ++ (if bool_decide (Slot (snd x) = b) then [x] else []).
Proof. unfold on_slot. rewrite filter_app, filter_cons, filter_nil. case_decide; [by rewrite bool_decide_true | by rewrite bool_decide_false]. Qed.

Lemma chain_snoc l y : chain l -> (forall x, last l = Some x -> follows x y) -> chain (l ++ [y]).
Proof.
  intros Hl Hy i a b Ha Hb. destruct (decide (S i < length l)%nat) as [Hi | Hi].
  - rewrite lookup_app_l in Ha, Hb by lia. by apply (Hl i).
  - pose proof (lookup_lt_Some _ _ _ Hb) as Hlt. rewrite length_app in Hlt. cbn in Hlt.
    rewrite lookup_app_l in Ha by lia. rewrite lookup_app_r in Hb by lia.
    replace (S i - length l)%nat with 0%nat in Hb by lia. injection Hb as <-.
    apply Hy. rewrite last_lookup. by replace (Nat.pred (length l)) with i by lia.
Qed.

Lemma last_on_slot b l x : last (on_slot b l) = Some x -> x ∈ l /\ Slot (snd x) = b.
Proof. intros E. apply last_Some_elem_of, list_elem_of_filter in E. tauto. Qed.

(** The data types of headers and terminators. *)
Lemma slot_type_kinds slotType frameType dtype :
  decodeSlotType slotType = Some (frameType, dtype) ->
  (slotType =? slotTypeVoiceLCHeader) = (frameType =? 2) && (dtype =? 1) /\
  (slotType =? slotTypeTerminator) = (frameType =? 2) && (dtype =? 2).
Proof.
  unfold decodeSlotType.
  repeat (match goal with |- context [slotType =? ?k] =>
    destruct (Z.eqb_spec slotType k) as [-> |] end; [intros [= <- <-]; by split |]). done.
Qed.

Lemma new_stream_iff st b now t p :
  remembers st (Some (t, p)) -> 0 < now ->
  (b_slotType b =? slotTypeVoiceLCHeader) = (b_frameType b =? 2) && (b_dtype b =? 1) ->
  negb (active st) || shouldStartNewInboundStream st (b_slotType b) (b_src b) (b_dst b) (b_groupCall b) now = true <->
  (is_terminator p = true \/ ((b_frameType b =? 2) && (b_dtype b =? 1) = true /\
    (b_src b <> Src p \/ b_dst b <> Dst p \/ b_groupCall b <> GroupCall p \/ hang_time (b_groupCall b) < now - t))).
Proof.
  intros (_ & _ & Ea & Es & Ed & Eg & El & Ht) Hnow Hk. unfold shouldStartNewInboundStream. rewrite Ea, Es, Ed, Eg, El, Hk.
  destruct (is_terminator p); cbn [negb orb]; [tauto |].
  destruct ((b_frameType b =? 2) && (b_dtype b =? 1)); cbn [negb]; [| intuition congruence].
  destruct (Z.eqb_spec (Src p) (b_src b)), (Z.eqb_spec (Dst p) (b_dst b)), (Bool.eqb_spec (GroupCall p) (b_groupCall b)); cbn [negb orb];
    try (intuition congruence).
  assert (Hd : hang_time (b_groupCall b) < time_sub now t <-> hang_time (b_groupCall b) < now - t).
  { pose proof (time_sub_gt now t (hang_time (b_groupCall b))) as Hg. unfold hang_time, hyteraGroupCallHangTime, hyteraPrivateCallHangTime,
      second, millisecond, max_duration in *. destruct (b_groupCall b); lia. }
  unfold time_is_zero. destruct (Z.eqb_spec t 0); [lia |]. cbn [orb]. rewrite Z.ltb_lt, Hd. intuition congruence.
Qed.

Lemma remembers_same a b x : same_but_sequence a b -> remembers b x -> remembers a x.
Proof. intros (E1 & E2 & E3 & E4 & E5 & E6 & E7). unfold remembers. destruct x as [[t p] |]; by rewrite ?E1, ?E2, ?E3, ?E4, ?E5, ?E6, ?E7. Qed.

Lemma slot_in_insert s s' b sin st b' :
  hy_slots s' = <[b := mkSlotState sin st]> (hy_slots s) -> slot_in s' b' = if bool_decide (b = b') then sin else slot_in s b'.
Proof.
  intros E. unfold slot_in. rewrite E. case_bool_decide as Hb; [subst b'; by rewrite lookup_insert_eq | by rewrite lookup_insert_ne].
Qed.

(** One more packet. *)
Lemma packet_ok s l bridgeID sin b now sin' next pkt st s' :
  streams_ok s l -> 0 < now -> Z.of_nat (length l) < 2 ^ 32 - 2 ->
  decodeSlotType (b_slotType b) = Some (b_frameType b, b_dtype b) ->
  same_but_sequence sin (slot_in s (b_slot b)) ->
  receive_burst bridgeID sin (hy_nextStreamID s) b now = (sin', next, pkt) ->
  hy_slots s' = <[b_slot b := mkSlotState sin' st]> (hy_slots s) -> hy_nextStreamID s' = next ->
  streams_ok s' (l ++ [(now, pkt)]).
Proof.
  intros [Hn Hi Hs Hl Hc] Hnow Hlen Hd Hsame Hr Em En. destruct (slot_type_kinds _ _ _ Hd) as [Hk1 Hk2].
  pose proof (remembers_same _ _ _ Hsame (Hl (b_slot b))) as Hrem. set (prev := last (on_slot (b_slot b) l)) in *.
  unfold receive_burst in Hr. set (fresh := negb (active sin) || _) in Hr.
  assert (Hnext : next_stream (hy_nextStreamID s) = hy_nextStreamID s + 1).
  { unfold next_stream. rewrite u32_id by (unfold is_u32; lia). destruct (Z.eqb_spec (hy_nextStreamID s + 1) 0); lia. }
  injection Hr as <- <- <-. set (pkt := mkPacket _ _ _ _ _ _ _ _ _ _ _). set (id := if fresh then _ else _) in *.
  assert (Hid : if fresh then id = hy_nextStreamID s else exists x, prev = Some x /\ id = StreamID (snd x)).
  { unfold id. destruct fresh eqn:Ef; [done |]. destruct prev as [[t p] |]; [exists (t, p); split; [done | apply Hrem] |].
    destruct Hrem as [Ea _]. unfold fresh in Ef. by rewrite Ea in Ef. }
  assert (Hrange : 1 <= id < hy_nextStreamID s').
  { rewrite En. destruct fresh; [rewrite Hid, Hnext; lia |]. destruct Hid as (x & Ex & ->). apply last_on_slot in Ex as [Ex _].
    specialize (Hi x Ex). lia. }
  split.
  - rewrite En, length_app. cbn [length]. destruct fresh; rewrite ?Hnext; lia.
  - intros x [Hx | Hx%list_elem_of_singleton]%elem_of_app; [| by subst x].
    specialize (Hi x Hx). rewrite En. destruct fresh; rewrite ?Hnext; lia.
  - assert (Hnew : forall x, x ∈ l -> StreamID (snd x) = id -> Slot (snd x) = b_slot b).
    { intros x Hx E. destruct fresh; [specialize (Hi x Hx); lia |]. destruct Hid as (y & Ey & Eid). apply last_on_slot in Ey as [Ey <-].
      apply Hs; [done | done | congruence]. }
    intros x y [Hx | Hx%list_elem_of_singleton]%elem_of_app [Hy | Hy%list_elem_of_singleton]%elem_of_app; subst; intros E;
      [by apply Hs | by apply Hnew | by symmetry; apply Hnew | done].
  - intros b'. rewrite (slot_in_insert s s' _ _ _ b' Em), on_slot_snoc. cbn [snd]. change (Slot pkt) with (b_slot b).
    destruct (bool_decide_reflect (b_slot b = b')) as [<- | Hne]; [| rewrite app_nil_r; apply Hl].
    rewrite last_snoc. unfold remembers, is_terminator. cbn. rewrite <- Hk2. split_and!; done.
  - intros b'. rewrite on_slot_snoc. cbn [snd]. change (Slot pkt) with (b_slot b).
    destruct (bool_decide_reflect (b_slot b = b')) as [<- | Hne]; [| rewrite app_nil_r; apply Hc].
    apply chain_snoc; [apply Hc |]. intros [t p] Ex. fold prev in Ex. rewrite Ex in Hrem, Hid.
    split; [apply Hrem |]. cbn [snd]. change (StreamID pkt) with id.
    pose proof (new_stream_iff sin b now t p Hrem Hnow Hk1) as Hnc. fold fresh in Hnc.
    change (new_call (t, p) (now, pkt)) with (is_terminator p = true \/ ((b_frameType b =? 2) && (b_dtype b =? 1) = true /\
      (b_src b <> Src p \/ b_dst b <> Dst p \/ b_groupCall b <> GroupCall p \/ hang_time (b_groupCall b) < now - t))).
    rewrite <- Hnc. destruct fresh.
    + apply last_on_slot in Ex as [Ex _]. specialize (Hi _ Ex). cbn in Hi. split; [lia | tauto].
    + destruct Hid as (x & [= <-] & Eid). cbn in Eid. intuition congruence.
Qed.

Lemma streams_same s s' l : same_streams s s' -> streams_ok s l -> streams_ok s' l.
Proof. intros [Em En] [Hn Hi Hs Hl Hc]. split; unfold slot_in in *; rewrite ?En, ?Em; done. Qed.

Lemma decode_all_ok s evs l0 s' l :
  streams_ok s l0 -> Forall (fun e => 0 < snd e) evs -> Z.of_nat (length l0 + length evs) < 2 ^ 32 - 1 ->
  decode_all s evs = Done (s', l) -> streams_ok s' (l0 ++ l).
Proof.
  intros Ho Ht. revert s l0 l Ho. induction Ht as [| [data now] evs Hnow Ht IH]; intros s l0 l Ho Hlen; cbn [decode_all].
  { intros [= <- <-]. by rewrite app_nil_r. }
  destruct (decodeToMMDVM s data now) as [[s1 r] |] eqn:Ed; cbn [obind]; [| done].
  destruct (decode_all s1 evs) as [[s2 l2] |] eqn:Ea; cbn [obind]; [| done]. intros [= <- <-].
  pose proof (decode_spec _ _ _ _ _ Ed) as Hd. cbn [length] in Hlen. destruct r as [pkt | e].
  - destruct Hd as (b & sin & sin' & next & D1 & D2 & D3 & D4 & D5).
    enough (Hx : streams_ok s2 ((l0 ++ [(now, pkt)]) ++ l2)) by (by rewrite <- app_assoc in Hx).
    refine (IH s1 (l0 ++ [(now, pkt)]) l2 _ _ Ea); [eapply packet_ok; try done; lia | rewrite length_app; cbn; lia].
  - apply (IH s1); [by eapply streams_same | lia | done].
Qed.

(** Calls received from Hytera repeaters are numbered and kept apart.  From
    a fresh server, for any datagrams with fewer than 2^32 - 1 of them: the
    packets of a timeslot are numbered consecutively modulo 256; a packet stays
    in the stream of the one before it on its slot exactly unless that was a
    terminator, or it is a voice header for other parties or after the hang
    time; no stream identifier is zero, and the two timeslots never share one. *)
Theorem inbound_streams cfg rdac rdacPort evs s' l :
  Forall (fun e => 0 < snd e) evs -> Z.of_nat (length evs) < 2 ^ 32 - 1 ->
  decode_all (NewServer cfg rdac rdacPort) evs = Done (s', l) ->
  (forall b, chain (on_slot b l)) /\ (forall x, x ∈ l -> StreamID (snd x) <> 0) /\
  (forall x y, x ∈ l -> y ∈ l -> StreamID (snd x) = StreamID (snd y) -> Slot (snd x) = Slot (snd y)).
Proof.
  intros Ht Hlen Hd.
  assert (Hnew : streams_ok (NewServer cfg rdac rdacPort) []).
  { split; [cbn; lia | by intros x ?%elem_of_nil | by intros x y ?%elem_of_nil | by intros [|] | by intros [|] i]. }
  destruct (decode_all_ok _ _ [] _ _ Hnew Ht Hlen Hd) as [_ Hi Hs _ Hc]. split_and!; [done | | done].
  intros x Hx. specialize (Hi x Hx). lia.
Qed.

(** ** Witnesses *)

Definition sample_hytera : Server := NewServer sample_setup true 30002.
Definition sample_burst : list Z := Z.of_nat <$> seq 100 33.
(** A voice header and a voice burst of a group call. *)
Definition sample_call (slot : bool) (src dst frameType dtype : Z) : Packet :=
  mkPacket (str_bytes "DMRD") 0 src dst 0 slot true frameType dtype 77 sample_burst.
Definition sample_frame (q : Z) (pkt : Packet) : list Z := default [] (encode_frame q 1 pkt).

Lemma hytera_frame_roundtrip_witness :
  length (sample_frame 7 (sample_call true 3120001 9 0 3)) = 72%nat.
Proof.
  destruct (hytera_frame_roundtrip sample_hytera (sample_call true 3120001 9 0 3) 7 (sample_frame 7 (sample_call true 3120001 9 0 3)) 1000)
    as [E _]; [vm_compute; reflexivity | reflexivity | by_eval | by_eval | vm_compute; reflexivity | exact E].
Defined.

Definition sample_datagrams : list (list Z * time) :=
  [(sample_frame 1 (sample_call true 3120001 9 2 1), 1000); (sample_frame 2 (sample_call true 3120001 9 0 1), 2000);
   (sample_frame 1 (sample_call false 3120002 8 2 1), 3000)].

Lemma inbound_streams_witness :
  exists s' l, decode_all sample_hytera sample_datagrams = Done (s', l) /\ length l = 3%nat /\
    (forall x, x ∈ l -> StreamID (snd x) <> 0).
Proof.
  destruct (decode_all sample_hytera sample_datagrams) as [[s' l] |] eqn:E; [| vm_compute in E; discriminate E].
  exists s', l. split; [reflexivity |]. split.
  - vm_compute in E. injection E as _ <-. reflexivity.
  - apply (inbound_streams sample_setup true 30002 sample_datagrams s' l); [by_eval | by_eval | exact E].
Defined.

(** The packet that stops the program: the header of a voice header packet and
    twenty bytes behind it. *)
Example crash_packet :
  decodeToMMDVM sample_hytera (take 26 (sample_frame 1 (sample_call true 3120001 9 2 1)) ++ replicate 12 0) 1000 = Panic.
Proof. vm_compute. reflexivity. Qed.

(** The state of a timeslot is shared by all repeaters: a burst of one repeater
    that begins without a header while another is calling on the same slot is
    put into the stream of the other call. *)
Example repeaters_share_stream :
  match decode_all sample_hytera [(sample_frame 1 (sample_call true 3120001 9 2 1), 1000); (sample_frame 9 (sample_call true 3120002 8 0 1), 2000)] with
  | Done (_, [(_, p); (_, q)]) => Src p <> Src q /\ Dst p <> Dst q /\ StreamID p = StreamID q
  | _ => False
  end.
Proof. vm_compute. split_and!; (discriminate || reflexivity). Qed.
