(* ===== verification/HyteraPeers.v ===== *)
(** * The repeaters of the Hytera server

    Histories of datagrams, timers and expiry ticks: which addresses the server
    knows, how long it keeps them, and what an identification over RDAC rests
    on. *)

From S2P Require Import Prelude Strings Net Packet Bptc LinkControl VoiceBurst Rewrite Rptc Text Config HyteraFrame Hytera.

Inductive hytera_event :=
| EvP2P (bridged : bool) (data : list Z) (addr : UDPAddr) (now : time)
| EvRDAC (data : list Z) (addr : UDPAddr) (now : time)
| EvDMR (bridged : bool) (data : list Z) (addr : UDPAddr) (now : time)
| EvTimer (now : time)
| EvTick (now : time).

Definition event_time (e : hytera_event) : time :=
  match e with EvP2P _ _ _ now | EvRDAC _ _ now | EvDMR _ _ _ now | EvTimer now | EvTick now => now end.

Section peers.
Context `{HyteraNet} `{!HyteraNetLaws}.

Definition hytera_step (s : Server) (e : hytera_event) : outcome Server :=
  match e with
  | EvP2P bridged data addr now => Done (p2p_receive s bridged data addr now)
  | EvRDAC data addr now => Done (rdac_receive s data addr now)
  | EvDMR bridged data addr now => dmr_receive s bridged data addr now
  | EvTimer now => Done (rdac_timer s now)
  | EvTick now => Done (expireStalePeers s now)
  end.

(** A history that does not panic. *)
Inductive hytera_run (s : Server) : list hytera_event -> Server -> Prop :=
| run_nil : hytera_run s [] s
| run_snoc evs s1 e s2 : hytera_run s evs s1 -> hytera_step s1 e = Done s2 -> hytera_run s (evs ++ [e]) s2.

(** ** Frames *)

Lemma write_peers s via data addr : hy_peers (fst (write s via data addr)) = hy_peers s /\ hy_offlineHandler (fst (write s via data addr)) = hy_offlineHandler s /\
  hy_offline (fst (write s via data addr)) = hy_offline s /\ hy_timers (fst (write s via data addr)) = hy_timers s /\ hy_rdac (fst (write s via data addr)) = hy_rdac s.
Proof. unfold write. by destruct (udp_write addr data). Qed.

Lemma emit_peers s u : hy_peers (emit s u) = hy_peers s /\ hy_offlineHandler (emit s u) = hy_offlineHandler s /\ hy_offline (emit s u) = hy_offline s /\
  hy_timers (emit s u) = hy_timers s /\ hy_rdac (emit s u) = hy_rdac s.
Proof. unfold emit. destruct (hy_peerHandler s) eqn:E; [| done]. done. Qed.

(** Nothing but the RDAC sessions and the wire changes. *)
Definition keeps_tables (s s' : Server) : Prop :=
  repeaterP2PAddr (hy_peers s') = repeaterP2PAddr (hy_peers s) /\ repeaterDMRAddr (hy_peers s') = repeaterDMRAddr (hy_peers s) /\
  peerLastSeen (hy_peers s') = peerLastSeen (hy_peers s) /\ hy_offlineHandler s' = hy_offlineHandler s /\ hy_offline s' = hy_offline s.

Lemma keeps_tables_trans s1 s2 s3 : keeps_tables s1 s2 -> keeps_tables s2 s3 -> keeps_tables s1 s3.
Proof. unfold keeps_tables. intuition congruence. Qed.

Lemma write_keeps s via data addr : keeps_tables s (fst (write s via data addr)).
Proof. destruct (write_peers s via data addr) as (E1 & E2 & E3 & _). unfold keeps_tables. by rewrite E1, E2, E3. Qed.

Lemma emit_keeps s u : keeps_tables s (emit s u).
Proof. destruct (emit_peers s u) as (E1 & E2 & E3 & _). unfold keeps_tables. by rewrite E1, E2, E3. Qed.

Lemma set_session_keeps s key ss : keeps_tables s (set_session s key ss).
Proof. done. Qed.

Lemma start_keeps s addr now : keeps_tables s (startRDACIdentification s addr now).
Proof.
  unfold startRDACIdentification. destruct (negb (hy_rdac s)); [done |]. cbv zeta.
  repeat (match goal with |- context [if ?c then _ else _] => destruct c end; [done |]).
  eapply keeps_tables_trans; [| apply write_keeps]. done.
Qed.

Lemma handshake_keeps s addr data now : keeps_tables s (handleRDACHandshake s addr data now).
Proof.
  unfold handleRDACHandshake. destruct (negb (hy_rdac s)); [done |]. case_match; [apply start_keeps |]. cbv zeta.
  repeat match goal with |- context [if ?c then _ else _] => destruct c end; try done.
  - eapply keeps_tables_trans; [| apply write_keeps]. done.
  - destruct (parseRDACDMRID data); [| done]. eapply keeps_tables_trans; [| apply emit_keeps]. done.
Qed.

(** ** Signs of life *)

(** The repeater a step hears from, among those that keep it in the tables. *)
Definition life (e : hytera_event) : option (string * time) :=
  match e with
  | EvDMR bridged _ addr now => if bridged then None else Some (addr_IP addr, now)
  | EvP2P bridged data addr now =>
      if bridged then None
      else if is_p2p_ping data then Some (addr_IP addr, now)
      else if (21 <=? length data)%nat && bool_decide (take 3 data = [0x50; 0x32; 0x50]) && bool_decide (data.[20] ∈ [0x10; 0x11; 0x12])
      then Some (addr_IP addr, now) else None
  | _ => None
  end.

(** What a step other than a tick does to the tables: at most the repeater it
    hears from gets an address, and then it counts as seen. *)
Definition hears_one (key : string) (now : time) (p p' : Peers) : Prop :=
  peerLastSeen p' = <[key := now]> (peerLastSeen p) /\
  (forall k, k <> key -> repeaterDMRAddr p' !! k = repeaterDMRAddr p !! k) /\
  (forall k, k <> key -> repeaterP2PAddr p' !! k = repeaterP2PAddr p !! k) /\
  (forall a, repeaterDMRAddr p' !! key = Some a -> repeaterDMRAddr p !! key = Some a \/ addr_IP a = key) /\
  (forall a, repeaterP2PAddr p' !! key = Some a -> repeaterP2PAddr p !! key = Some a \/ addr_IP a = key).

Lemma lookup_put_addr (m : gmap string UDPAddr) key b k a :
  <[key := b]> m !! k = Some a -> addr_IP b = key -> m !! k = Some a \/ addr_IP a = k.
Proof.
  intros E Hb. destruct (decide (key = k)) as [<- | Hne]; [rewrite lookup_insert_eq in E; injection E as <-; by right |].
  rewrite lookup_insert_ne in E by done. by left.
Qed.

Ltac other_keys := intros k Hk; cbn; rewrite ?lookup_insert_ne by done; done.
Ltac own_key := intros a Ha; cbn in Ha; (by left) || (eapply lookup_put_addr; [exact Ha | done]).

Lemma registration_hears s data addr now :
  hears_one (addr_IP addr) now (hy_peers s) (hy_peers (handleRegistration s data addr now)) /\
  hy_offlineHandler (handleRegistration s data addr now) = hy_offlineHandler s /\ hy_offline (handleRegistration s data addr now) = hy_offline s.
Proof.
  unfold handleRegistration, p2p_write. cbv zeta. match goal with |- context [write ?a ?b ?c ?d] => destruct (write_peers a b c d) as (E1 & E2 & E3 & _) end.
  match goal with |- context [emit ?a ?b] => destruct (emit_peers a b) as (F1 & F2 & F3 & _) end.
  rewrite F1, F2, F3. cbn [with_hpeers hy_peers hy_offlineHandler hy_offline]. rewrite E1, E2, E3. split; [| done].
  split_and!; [done | other_keys | other_keys | own_key | own_key].
Qed.


Lemma startup_hears s data addr rdac now :
  hears_one (addr_IP addr) now (hy_peers s) (hy_peers (handleStartup s data addr rdac now)) /\
  hy_offlineHandler (handleStartup s data addr rdac now) = hy_offlineHandler s /\ hy_offline (handleStartup s data addr rdac now) = hy_offline s.
Proof.
  unfold handleStartup, p2p_write. cbv zeta.
  match goal with |- context [write (fst (write ?a ?b ?c ?d)) ?e ?f ?g] =>
    destruct (write_peers a b c d) as (E1 & E2 & E3 & _); destruct (write_peers (fst (write a b c d)) e f g) as (D1 & D2 & D3 & _) end.
  match goal with |- context [emit ?a ?b] => destruct (emit_peers a b) as (F1 & F2 & F3 & _) end.
  rewrite E1, F1 in D1. rewrite E2, F2 in D2. rewrite E3, F3 in D3.
  match goal with |- context [if ?c then with_timers ?x _ else ?x] => enough (hears_one (addr_IP addr) now (hy_peers s) (hy_peers x)
    /\ hy_offlineHandler x = hy_offlineHandler s /\ hy_offline x = hy_offline s) by (destruct c; done) end.
  rewrite D1, D2, D3. cbn [with_hpeers hy_peers hy_offlineHandler hy_offline]. split; [| done].
  destruct rdac.
  - case_match; (split_and!; [done | other_keys | other_keys | own_key | own_key]).
  - match goal with |- context [repeaterDMRAddr (with_dmr ?q ?m) !! ?k] => assert (E : repeaterDMRAddr (with_dmr q m) !! k = Some (plain_addr addr (addr_Port addr)))
      by (cbn; apply lookup_insert_eq); rewrite E end.
    split_and!; [done | other_keys | other_keys | own_key | own_key].
Qed.

Lemma p2p_life s data addr now :
  let s' := handleP2P s data addr now in
  match life (EvP2P false data addr now) with
  | Some (k, t) => hears_one k t (hy_peers s) (hy_peers s')
  | None => keeps_tables s s'
  end /\ hy_offlineHandler s' = hy_offlineHandler s /\ hy_offline s' = hy_offline s.
Proof.
  cbv zeta. unfold life, handleP2P. destruct (is_p2p_ping data) eqn:Ep.
  - unfold p2p_write, markP2PAssociation. match goal with |- context [write ?a ?b ?c ?d] => destruct (write_peers a b c d) as (E1 & E2 & E3 & _) end.
    rewrite E1, E2, E3. split; [| done]. split_and!; [done | other_keys | other_keys | own_key | own_key].
  - destruct (length data <? 21)%nat eqn:El; [apply Nat.ltb_lt in El; replace (21 <=? length data)%nat with false by (symmetry; apply Nat.leb_gt; lia); done |].
    apply Nat.ltb_ge in El. replace (21 <=? length data)%nat with true by (symmetry; apply Nat.leb_le; lia). cbn [andb].
    case_bool_decide as Eh; [| done]. cbn [andb]. unfold handleP2PCommand.
    case_bool_decide as Et.
    + assert (E : data.[20] = 0x10 \/ data.[20] = 0x11 \/ data.[20] = 0x12) by set_solver.
      destruct (data.[20] =? 0x10) eqn:E1; [exact (registration_hears (markP2PAssociation s addr now) data addr now) |].
      destruct (data.[20] =? 0x11) eqn:E2; [exact (startup_hears (markP2PAssociation s addr now) data addr false now) |].
      destruct (data.[20] =? 0x12) eqn:E3; [exact (startup_hears (markP2PAssociation s addr now) data addr true now) |]. lia.
    + repeat rewrite elem_of_cons in Et. destruct (data.[20] =? 0x10) eqn:E1; [exfalso; apply Et; left; lia |].
      destruct (data.[20] =? 0x11) eqn:E2; [exfalso; apply Et; right; left; lia |].
      destruct (data.[20] =? 0x12) eqn:E3; [exfalso; apply Et; right; right; left; lia |]. done.
Qed.

Lemma decode_keeps s data now s' r : decodeToMMDVM s data now = Done (s', r) -> hy_peers s' = hy_peers s /\ hy_offlineHandler s' = hy_offlineHandler s /\
  hy_offline s' = hy_offline s /\ hy_timers s' = hy_timers s /\ hy_rdac s' = hy_rdac s.
Proof.
  assert (Hc : forall s b n, hy_peers (cacheStartupTemplate s b n data) = hy_peers s /\ hy_offlineHandler (cacheStartupTemplate s b n data) = hy_offlineHandler s
    /\ hy_offline (cacheStartupTemplate s b n data) = hy_offline s /\ hy_timers (cacheStartupTemplate s b n data) = hy_timers s
    /\ hy_rdac (cacheStartupTemplate s b n data) = hy_rdac s)
    by (intros; unfold cacheStartupTemplate; by case_match).
  unfold decodeToMMDVM. case_match; [by intros [= <- _] |]. case_match; [by intros [= <- _] |].
  cbv zeta. match goal with |- context [if ?c then cacheStartupTemplate s ?b ?n data else s] => set (s1 := if c then cacheStartupTemplate s b n data else s) end.
  assert (Hs1 : hy_peers s1 = hy_peers s /\ hy_offlineHandler s1 = hy_offlineHandler s /\ hy_offline s1 = hy_offline s /\ hy_timers s1 = hy_timers s /\ hy_rdac s1 = hy_rdac s)
    by (unfold s1; case_match; [apply Hc | done]).
  case_match; [by intros [= <- _] |]. case_match; [| by intros [= <- _]]. destruct p as [ft dt].
  unfold obind. case_match; [| done]. case_match; [| by intros [= <- _]]. case_match; [| by intros [= <- _]].
  case_match. case_match. intros [= <- _]. done.
Qed.

Lemma dmr_hears s data addr now s' :
  dmr_receive s false data addr now = Done s' ->
  hears_one (addr_IP addr) now (hy_peers s) (hy_peers s') /\ hy_offlineHandler s' = hy_offlineHandler s /\ hy_offline s' = hy_offline s.
Proof.
  unfold dmr_receive. cbv zeta. match goal with |- context [emit ?a ?b] => destruct (emit_peers a b) as (F1 & F2 & F3 & _); set (s1 := emit a b) in * end.
  clearbody s1. unfold obind. destruct (decodeToMMDVM s1 data now) as [[s2 r] |] eqn:Ed; [| done]. apply decode_keeps in Ed as (D1 & D2 & D3 & _).
  intros Hs. assert (E : hy_peers s' = hy_peers s2 /\ hy_offlineHandler s' = hy_offlineHandler s2 /\ hy_offline s' = hy_offline s2).
  { destruct r; [| by injection Hs as <-]. destruct (hy_packetHandler s2) in Hs; by injection Hs as <-. }
  destruct E as (-> & -> & ->). rewrite D1, D2, D3, F1, F2, F3. cbn [with_hpeers hy_peers hy_offlineHandler hy_offline]. split; [| done].
  destruct (_ && _); (split_and!; [done | other_keys | other_keys | own_key | own_key]).
Qed.

Lemma rdac_keeps s data addr now : keeps_tables s (rdac_receive s data addr now).
Proof.
  unfold rdac_receive. destruct (length data =? 0)%nat; [done |]. cbv zeta.
  eapply keeps_tables_trans; [| apply emit_keeps]. eapply keeps_tables_trans; [| apply handshake_keeps]. done.
Qed.

Lemma timer_keeps s now : keeps_tables s (rdac_timer s now).
Proof. unfold rdac_timer. destruct (hy_timers s); [done |]. eapply keeps_tables_trans; [| apply start_keeps]. done. Qed.

(** A step that is not a tick. *)
Lemma step_life s e s' :
  hytera_step s e = Done s' -> (forall now, e <> EvTick now) ->
  match life e with
  | Some (k, t) => hears_one k t (hy_peers s) (hy_peers s')
  | None => keeps_tables s s'
  end /\ hy_offlineHandler s' = hy_offlineHandler s /\ hy_offline s' = hy_offline s.
Proof.
  intros Hs Ht. destruct e as [[|] data addr now | data addr now | [|] data addr now | now | now]; cbn [hytera_step] in Hs.
  - by injection Hs as <-.
  - injection Hs as <-. apply p2p_life.
  - injection Hs as <-. pose proof (rdac_keeps s data addr now) as K. split; [done |]. split; apply K.
  - by injection Hs as <-.
  - eapply dmr_hears, Hs.
  - injection Hs as <-. pose proof (timer_keeps s now) as K. split; [done |]. split; apply K.
  - by destruct (Ht now).
Qed.

(** ** Expiry *)

Definition expired (s : Server) (now : time) : list string :=
  (List.filter (fun '(_, t) => stale_repeater now t) (seen_iter (peerLastSeen (hy_peers s)))).*1.

Lemma gone_iff s now k :
  k ∈ expired s now <-> exists t, peerLastSeen (hy_peers s) !! k = Some t /\ stale_repeater now t = true.
Proof.
  unfold expired. rewrite list_elem_of_fmap. split.
  - intros ([k' t] & -> & Hin). rewrite list_elem_of_In, List.filter_In, <- list_elem_of_In, seen_iter_elements, elem_of_map_to_list in Hin. by exists t.
  - intros (t & Hk & Ht). exists (k, t). split; [done |].
    by rewrite list_elem_of_In, List.filter_In, <- list_elem_of_In, seen_iter_elements, elem_of_map_to_list.
Qed.

Lemma expired_nodup s now : NoDup (expired s now).
Proof.
  unfold expired. assert (Hnd : NoDup (seen_iter (peerLastSeen (hy_peers s))).*1) by (rewrite seen_iter_elements; apply NoDup_fst_map_to_list).
  revert Hnd. generalize (seen_iter (peerLastSeen (hy_peers s))). intros l. induction l as [| [k t] l IH]; cbn; [done |].
  rewrite NoDup_cons. intros [Hk Hnd]. destruct (stale_repeater now t); [| by apply IH]. cbn. apply NoDup_cons. split; [| by apply IH].
  intros Hin. apply Hk. apply list_elem_of_fmap in Hin as (x & -> & Hin). apply list_elem_of_fmap. exists x. split; [done |].
  rewrite list_elem_of_In, List.filter_In in Hin. apply list_elem_of_In, Hin.
Qed.

Lemma lookup_delete_all {A} (m : gmap string A) l k :
  foldl (fun m key => delete key m) m l !! k = if decide (k ∈ l) then None else m !! k.
Proof.
  revert m. induction l as [| k' l IH]; intros m; [done |]. cbn [foldl]. rewrite IH.
  destruct (decide (k ∈ l)); [by rewrite decide_True by by right |].
  destruct (decide (k = k')) as [-> | Hne]; [by rewrite lookup_delete_eq, decide_True by left |].
  rewrite lookup_delete_ne by done. rewrite decide_False; [done |]. by rewrite not_elem_of_cons.
Qed.

Lemma tick_tables s now :
  let s' := expireStalePeers s now in
  let gone {A} (m' m : gmap string A) := forall k, m' !! k = if decide (k ∈ expired s now) then None else m !! k in
  gone (repeaterP2PAddr (hy_peers s')) (repeaterP2PAddr (hy_peers s)) /\ gone (repeaterDMRAddr (hy_peers s')) (repeaterDMRAddr (hy_peers s)) /\
  gone (peerLastSeen (hy_peers s')) (peerLastSeen (hy_peers s)) /\ hy_offlineHandler s' = hy_offlineHandler s /\
  hy_offline s' = hy_offline s ++ (if hy_offlineHandler s then String.append "hytera:" <$> expired s now else []).
Proof.
  cbv zeta. unfold expireStalePeers. cbv zeta. fold (expired s now).
  cbn [with_hpeers hy_offlineHandler]. destruct (hy_offlineHandler s) eqn:Eo; cbn; rewrite ?app_nil_r;
    (split_and!; [intros k; apply lookup_delete_all | intros k; apply lookup_delete_all | intros k; apply lookup_delete_all | done | done]).
Qed.

Lemma stale_repeater_iff now t : stale_repeater now t = true <-> hyteraPeerTimeout < now - t.
Proof.
  unfold stale_repeater. rewrite Z.ltb_lt. pose proof (time_sub_gt now t hyteraPeerTimeout) as G.
  unfold hyteraPeerTimeout, second, millisecond in *. unfold max_duration in G. lia.
Qed.

(** ** Histories *)

(** The times at which a repeater was heard. *)
Definition heard_from (k : string) (e : hytera_event) : option time :=
  match life e with Some (k', t) => if decide (k' = k) then Some t else None | None => None end.
Definition heard (k : string) (evs : list hytera_event) : list time := omap (heard_from k) evs.

Definition clock_ok (evs : list hytera_event) (now : time) : Prop := no_backstep (rev (event_time <$> evs)) now.

Lemma hytera_clock_snoc evs e now : clock_ok (evs ++ [e]) now <-> event_time e <= now /\ clock_ok evs (event_time e).
Proof. unfold clock_ok. by rewrite fmap_app, rev_app_distr. Qed.

Lemma last_heard_snoc k evs e :
  last (heard k (evs ++ [e])) = match heard_from k e with Some t => Some t | None => last (heard k evs) end.
Proof.
  unfold heard. rewrite omap_app. cbn [omap list_omap]. destruct (heard_from k e); [apply last_snoc | by rewrite app_nil_r].
Qed.

Lemma life_time e k t : life e = Some (k, t) -> t = event_time e.
Proof. destruct e; cbn; try done; (case_match; [done |]); [| by intros [= _ <-]]. repeat (case_match; [by intros [= _ <-] |]). done. Qed.

Lemma run_offline_handler s evs s' : hytera_run s evs s' -> hy_offlineHandler s' = hy_offlineHandler s.
Proof.
  induction 1 as [| evs s1 e s2 Hr IH Hs]; [done |]. rewrite <- IH.
  destruct e as [| | | | now]; [by eapply (step_life s1) in Hs as (_ & -> & _) .. |].
  injection Hs as <-. by destruct (tick_tables s1 now) as (_ & _ & _ & -> & _).
Qed.

(** No repeater is known yet. *)
Definition unaware (s : Server) : Prop := hy_peers s = mkPeers ∅ ∅ ∅ ∅ ∅.

(** What the tables hold of a repeater. *)
Definition table_inv (k : string) (evs : list hytera_event) (now : time) (p : Peers) : Prop :=
  match peerLastSeen p !! k with
  | Some t => last (heard k evs) = Some t
  | None => (forall t, last (heard k evs) = Some t -> hyteraPeerTimeout < now - t) /\ repeaterDMRAddr p !! k = None /\ repeaterP2PAddr p !! k = None
  end /\
  forall a, repeaterDMRAddr p !! k = Some a \/ repeaterP2PAddr p !! k = Some a -> addr_IP a = k.

Lemma table_inv_later k evs now now' p : now <= now' -> table_inv k evs now p -> table_inv k evs now' p.
Proof.
  intros Hle [H1 H2]. split; [| done]. destruct (peerLastSeen p !! k); [done |]. destruct H1 as [H1 H3]. split; [| done].
  intros t Ht. specialize (H1 t Ht). lia.
Qed.

Lemma table_inv_step s e s' k evs :
  hytera_step s e = Done s' -> table_inv k evs (event_time e) (hy_peers s) -> table_inv k (evs ++ [e]) (event_time e) (hy_peers s').
Proof.
  intros Hs [H1 H2]. unfold table_inv. rewrite last_heard_snoc.
  assert (Hcase : (exists now, e = EvTick now) \/ forall now, e <> EvTick now) by (destruct e; eauto).
  destruct Hcase as [[now ->] | Hnt].
  - injection Hs as <-. cbn [event_time heard_from life] in *. destruct (tick_tables s now) as (-> & Hd & Hl & _).
    rewrite Hd, Hl. split; [| destruct (decide (k ∈ expired s now)); [by intros a [? | ?] | done]].
    destruct (decide (k ∈ expired s now)) as [Hin | Hin]; [| done]. apply gone_iff in Hin as (t & Hk & Hst). rewrite Hk in H1.
    apply stale_repeater_iff in Hst. split; [| done]. intros t' Ht'. rewrite H1 in Ht'. injection Ht' as <-. done.
  - destruct (step_life _ _ _ Hs Hnt) as (Hl & _). unfold heard_from. destruct (life e) as [[k' t] |] eqn:El; cycle 1.
    { destruct Hl as (-> & -> & -> & _). done. }
    destruct Hl as (-> & Hd & Hp & Hd' & Hp'). destruct (decide (k' = k)) as [-> | Hne].
    + rewrite lookup_insert_eq. split; [done |]. intros a [Ha | Ha]; [apply Hd' in Ha | apply Hp' in Ha]; destruct Ha as [Ha | Ha]; eauto.
    + rewrite lookup_insert_ne by done. rewrite Hd, Hp by congruence. done.
Qed.

Lemma table_inv_run s evs s' now k : unaware s -> hytera_run s evs s' -> clock_ok evs now -> table_inv k evs now (hy_peers s').
Proof.
  intros Hu Hr. revert now. induction Hr as [| evs s1 e s2 Hr IH Hs]; intros now Hc.
  { rewrite Hu. unfold table_inv. cbn. rewrite !lookup_empty. split; [done |]. by intros a [? | ?]. }
  apply hytera_clock_snoc in Hc as [Hle Hc]. apply (table_inv_later _ _ (event_time e)); [done |].
  apply (table_inv_step s1); [done |]. by apply IH.
Qed.

(** C30: The server knows exactly the repeaters heard within the last thirty seconds:
    over the voice socket, or over the P2P socket with a registration, an
    announcement or a ping.  After any history whose clock does not go back, an
    expiry tick leaves a repeater in the tables exactly when it was last heard no
    longer ago than that; the addresses of a repeater have its IP address and
    belong to a repeater in the table; the tick reports exactly the repeaters
    that it removes, each once. *)
Theorem repeaters_expire s evs before now :
  unaware s -> hy_offlineHandler s = true -> hytera_run s evs before -> clock_ok evs now ->
  let after := expireStalePeers before now in
  (forall k t, peerLastSeen (hy_peers after) !! k = Some t <-> last (heard k evs) = Some t /\ now - t <= hyteraPeerTimeout) /\
  (forall k a, repeaterDMRAddr (hy_peers after) !! k = Some a \/ repeaterP2PAddr (hy_peers after) !! k = Some a ->
    addr_IP a = k /\ is_Some (peerLastSeen (hy_peers after) !! k)) /\
  exists off, hy_offline after = hy_offline before ++ (String.append "hytera:" <$> off) /\ NoDup off /\
    forall k, k ∈ off <-> is_Some (peerLastSeen (hy_peers before) !! k) /\ peerLastSeen (hy_peers after) !! k = None.
Proof.
  intros Hu Ho Hr Hc. cbv zeta. destruct (tick_tables before now) as (Hp & Hd & Hl & _ & Hoff).
  rewrite (run_offline_handler _ _ _ Hr), Ho in Hoff. assert (Hinv := fun k => table_inv_run _ _ _ _ k Hu Hr Hc).
  split; [| split].
  - intros k t. rewrite Hl. destruct (Hinv k) as [H1 _]. destruct (peerLastSeen (hy_peers before) !! k) as [t0 |] eqn:E.
    + rewrite H1. destruct (decide (k ∈ expired before now)) as [Hin | Hin].
      * apply gone_iff in Hin as (t' & Hk & Hst). rewrite E in Hk. injection Hk as <-. apply stale_repeater_iff in Hst.
        split; [done |]. intros [[= <-] Hle]. lia.
      * split; [| by intros [? _]]. intros [= <-]. split; [done |].
        destruct (Z.le_gt_cases (now - t0) hyteraPeerTimeout) as [| Hgt]; [done |]. exfalso. apply Hin, gone_iff. exists t0. split; [done |]. by apply stale_repeater_iff, Z.gt_lt_iff, Z.lt_gt.
    + destruct H1 as [H1 _]. split; [by destruct (decide _) |]. intros [Ht Hle]. specialize (H1 t Ht). lia.
  - intros k a. rewrite Hd, Hp, Hl. destruct (Hinv k) as [H1 H2]. destruct (decide (k ∈ expired before now)); [by intros [? | ?] |].
    intros Ha. split; [by apply H2 |]. destruct (peerLastSeen (hy_peers before) !! k); [done |]. destruct H1 as (_ & E1 & E2). rewrite E1, E2 in Ha. by destruct Ha.
  - exists (expired before now). split; [done |]. split; [apply expired_nodup |]. intros k. rewrite Hl.
    destruct (decide (k ∈ expired before now)) as [Hin | Hin].
    + split; [| done]. intros _. split; [| done]. apply gone_iff in Hin as (t & -> & _). eauto.
    + split; [done |]. intros [[t Ht] Hn]. congruence.
Qed.

(** ** Identification *)

(** What the P2P socket takes as a sign of the repeater: a ping, or a command of
    at least 21 bytes behind the prefix, whatever its type. *)
Definition associates (data : list Z) : bool := is_p2p_ping data || ((21 <=? length data)%nat && bool_decide (take 3 data = [0x50; 0x32; 0x50])).

Definition associated (ss : rdacSession) (now : time) : rdacSession :=
  mkRdac (step ss) (lastRequestAt ss) (lastDMRID ss) (identCompleted ss) now.

(** The startup command of the RDAC service, which sets a timer. *)
Definition rdac_startup (data : list Z) : bool := negb (is_p2p_ping data) && associates data && (data.[20] =? 0x12).

(** An event that makes the server ask repeater [k] for its identifier: the next
    of the timers fires and is one of [k], or [k] sends the byte zero. *)
Definition asks (k : string) (timers : list UDPAddr) (e : hytera_event) : Prop :=
  (exists now addr rest, e = EvTimer now /\ timers = addr :: rest /\ addr_IP addr = k) \/
  (exists addr now, e = EvRDAC [0x00] addr now /\ addr_IP addr = k).

(** How an event moves the session of repeater [k]; [timers] are the timers set
    before it. *)
Inductive session_move (k : string) (timers : list UDPAddr) : hytera_event -> rdacSession -> rdacSession -> Prop :=
| move_none e ss : session_move k timers e ss ss
| move_associate data addr now ss : addr_IP addr = k -> associates data = true -> session_move k timers (EvP2P false data addr now) ss (associated ss now)
| move_start e ss :
    asks k timers e -> lastP2PAt ss <> 0 -> time_sub (event_time e) (lastP2PAt ss) <= 15 * second -> identCompleted ss = false \/ lastDMRID ss = 0 ->
    session_move k timers e ss (mkRdac 1 (event_time e) (lastDMRID ss) (identCompleted ss) (lastP2PAt ss))
| move_step0 data addr now ss : addr_IP addr = k -> step ss = 1%nat -> has_bytes data rdacStep0Response = true ->
    session_move k timers (EvRDAC data addr now) ss (mkRdac 2 now (lastDMRID ss) (identCompleted ss) (lastP2PAt ss))
| move_step1 data addr now ss : addr_IP addr = k -> step ss = 2%nat -> has_bytes data rdacStep1Response = true ->
    session_move k timers (EvRDAC data addr now) ss (mkRdac 3 (lastRequestAt ss) (lastDMRID ss) (identCompleted ss) (lastP2PAt ss))
| move_step2 data addr now ss dmrid : addr_IP addr = k -> step ss = 3%nat -> has_bytes data rdacStep2Response = true ->
    parseRDACDMRID data = Some dmrid ->
    session_move k timers (EvRDAC data addr now) ss (mkRdac 0 (lastRequestAt ss) dmrid true (lastP2PAt ss))
| move_unparsed data addr now ss : addr_IP addr = k -> step ss = 3%nat -> parseRDACDMRID data = None ->
    session_move k timers (EvRDAC data addr now) ss (mkRdac 0 (lastRequestAt ss) (lastDMRID ss) (identCompleted ss) (lastP2PAt ss)).

Lemma session_of_set s key ss k : session_of (set_session s key ss) k = if decide (key = k) then ss else session_of s k.
Proof.
  unfold session_of, set_session. cbn. destruct (decide (key = k)) as [-> | Hne]; [by rewrite lookup_insert_eq | by rewrite lookup_insert_ne].
Qed.

Lemma session_of_peers s s' k : hy_peers s' = hy_peers s -> session_of s' k = session_of s k.
Proof. unfold session_of. by intros ->. Qed.

(** Putting back a session as it is changes nothing. *)
Lemma session_of_touch s key k : session_of (set_session s key (session_of s key)) k = session_of s k.
Proof. rewrite session_of_set. by case_decide; subst. Qed.

Lemma session_of_start timers s addr now k e :
  event_time e = now -> asks (addr_IP addr) timers e ->
  session_move k timers e (session_of s k) (session_of (startRDACIdentification s addr now) k).
Proof.
  intros <- He. unfold startRDACIdentification. destruct (negb (hy_rdac s)); [constructor |]. cbv zeta.
  set (key := addr_IP addr) in *. set (ss := session_of s key).
  destruct (time_is_zero (lastP2PAt ss) || _) eqn:E1; [unfold ss; rewrite session_of_touch; constructor |].
  destruct (identCompleted ss && _) eqn:E2; [unfold ss; rewrite session_of_touch; constructor |].
  destruct (_ <? 2 * second); [unfold ss; rewrite session_of_touch; constructor |].
  rewrite (session_of_peers _ _ k (proj1 (write_peers _ _ _ _))).
  rewrite session_of_set. case_decide as Ek; [| unfold ss; rewrite session_of_touch; constructor].
  rewrite <- Ek. apply orb_false_iff in E1 as [E1 E1']. unfold time_is_zero in E1. fold ss. apply move_start.
  - exact He.
  - lia.
  - lia.
  - destruct (identCompleted ss); [right | by left]. cbn in E2. destruct (lastDMRID ss =? 0) eqn:E; [lia | done].
Qed.

Ltac at_session H tac := match goal with |- session_move _ _ _ _ (session_of ?s' _) => erewrite (H _ s') by tac end.

Lemma session_of_handshake timers s addr data now k :
  session_move k timers (EvRDAC data addr now) (session_of s k) (session_of (handleRDACHandshake s addr data now) k).
Proof.
  unfold handleRDACHandshake. destruct (negb (hy_rdac s)); [constructor |].
  case_bool_decide as E0; [subst data; apply session_of_start; [done | right; eauto] |]. cbv zeta.
  set (key := addr_IP addr). set (ss := session_of s key).
  assert (Hset : forall x s', hy_peers s' = hy_peers (set_session (set_session s key ss) key x) ->
    session_of s' k = if decide (key = k) then x else session_of s k).
  { intros x s' E. rewrite (session_of_peers _ _ _ E), session_of_set. case_decide; [done | apply session_of_touch]. }
  destruct (Nat.eqb_spec (step ss) 1).
  { destruct (has_bytes data rdacStep0Response) eqn:Eh; [| rewrite session_of_touch; constructor].
    at_session Hset ltac:(apply write_peers). case_decide as Ek; [rewrite <- Ek; by apply move_step0 | constructor]. }
  destruct (Nat.eqb_spec (step ss) 2).
  { destruct (has_bytes data rdacStep1Response) eqn:Eh; [| rewrite session_of_touch; constructor].
    at_session Hset ltac:(done). case_decide as Ek; [rewrite <- Ek; by apply move_step1 | constructor]. }
  destruct (Nat.eqb_spec (step ss) 3); [| rewrite session_of_touch; constructor].
  destruct (has_bytes data rdacStep2Response) eqn:Eh; [| rewrite session_of_touch; constructor].
  destruct (parseRDACDMRID data) as [dmrid |] eqn:Ed.
  - at_session Hset ltac:(unfold emitHyteraPeerUpdate; apply emit_peers). case_decide as Ek; [rewrite <- Ek; by apply move_step2 | constructor].
  - at_session Hset ltac:(done). case_decide as Ek; [rewrite <- Ek; by apply move_unparsed | constructor].
Qed.

Lemma session_of_associate s addr now k :
  session_of (markP2PAssociation s addr now) k = if decide (addr_IP addr = k) then associated (session_of s k) now else session_of s k.
Proof.
  unfold session_of, markP2PAssociation, associate, associated. cbn.
  destruct (decide (addr_IP addr = k)) as [-> | Hne]; [by rewrite lookup_insert_eq | by rewrite lookup_insert_ne].
Qed.

Lemma sessions_of_p2p s data addr now :
  let s' := handleP2P s data addr now in
  let s1 := markP2PAssociation s addr now in
  (associates data = false /\ s' = s) \/
  (associates data = true /\ forall k, session_of s' k = session_of s1 k).
Proof.
  assert (Htwice : forall k, session_of (markP2PAssociation (markP2PAssociation s addr now) addr now) k = session_of (markP2PAssociation s addr now) k)
    by (intros k; rewrite !session_of_associate; by case_decide).
  cbv zeta. unfold associates, handleP2P. destruct (is_p2p_ping data) eqn:Ep.
  - right. split; [done |]. intros k. unfold p2p_write. rewrite (session_of_peers _ _ _ (proj1 (write_peers _ _ _ _))). done.
  - destruct (Nat.ltb_spec (length data) 21); [left; destruct (Nat.leb_spec 21 (length data)); [lia | done] |].
    destruct (Nat.leb_spec 21 (length data)); [| lia]. case_bool_decide; [| by left]. right. split; [done |]. intros k.
    rewrite <- Htwice at 1. set (s1 := markP2PAssociation s addr now). unfold handleP2PCommand.
    assert (Hsu : forall rdac, session_of (handleStartup s1 data addr rdac now) k = session_of (markP2PAssociation s1 addr now) k).
    { intros rdac. unfold handleStartup, p2p_write. cbv zeta.
      match goal with |- session_of (if ?c then with_timers ?x _ else ?x) _ = _ => enough (session_of x k = session_of (markP2PAssociation s1 addr now) k) by (destruct c; done) end.
      rewrite !(session_of_peers _ _ _ (proj1 (write_peers _ _ _ _))), (session_of_peers _ _ _ (proj1 (emit_peers _ _))).
      destruct rdac; cbn [session_of with_hpeers]; case_match; done. }
    destruct (_ =? 0x10); [| destruct (_ =? 0x11); [apply Hsu | destruct (_ =? 0x12); [apply Hsu |]]].
    + unfold handleRegistration, p2p_write. cbv zeta. rewrite (session_of_peers _ _ _ (proj1 (emit_peers _ _))).
      unfold session_of at 1. cbn [with_hpeers hy_peers]. rewrite (proj1 (write_peers _ _ _ _)). done.
    + unfold s1. symmetry. apply Htwice.
Qed.

Lemma step_session s e s' k : hytera_step s e = Done s' -> session_move k (hy_timers s) e (session_of s k) (session_of s' k).
Proof.
  intros Hs. destruct e as [[|] data addr now | data addr now | [|] data addr now | now | now]; cbn [hytera_step] in Hs.
  - injection Hs as <-. constructor.
  - injection Hs as <-. destruct (sessions_of_p2p s data addr now) as [[_ E] | [Ha Hk]]; [cbn [p2p_receive]; rewrite E; constructor |].
    cbn [p2p_receive].
    rewrite Hk, session_of_associate. case_decide; [by apply move_associate | constructor].
  - injection Hs as <-. unfold rdac_receive. destruct (length data =? 0)%nat; [constructor |]. cbv zeta.
    rewrite (session_of_peers _ _ _ (proj1 (emit_peers _ _))).
    match goal with |- context [handleRDACHandshake ?s1 _ _ _] => apply (session_of_handshake _ s1) end.
  - injection Hs as <-. constructor.
  - unfold dmr_receive in Hs. cbv zeta in Hs. match type of Hs with context [emit ?a ?b] => pose proof (proj1 (emit_peers a b)) as F; set (s1 := emit a b) in * end.
    clearbody s1. unfold obind in Hs. destruct (decodeToMMDVM s1 data now) as [[s2 r] |] eqn:Ed; [| done]. apply decode_keeps in Ed as (D & _).
    assert (E : hy_peers s' = hy_peers s1). { rewrite <- D. destruct r; [| by injection Hs as <-]. destruct (hy_packetHandler s2) in Hs; by injection Hs as <-. }
    rewrite (session_of_peers _ _ _ E). unfold session_of. rewrite F. destruct (_ && _); constructor.
  - injection Hs as <-. unfold rdac_timer. destruct (hy_timers s) as [| addr rest] eqn:Et; [constructor |].
    change (session_of s k) with (session_of (with_timers s rest) k). apply session_of_start; [done |]. left. by exists now, addr, rest.
  - injection Hs as <-. unfold expireStalePeers. cbv zeta. destruct (hy_offlineHandler _); constructor.
Qed.

(** Where the timers come from. *)
Lemma p2p_timers s data addr now a :
  a ∈ hy_timers (handleP2P s data addr now) -> a ∈ hy_timers s \/ (a = addr /\ rdac_startup data = true).
Proof.
  unfold handleP2P, p2p_write, rdac_startup, associates. cbv zeta. destruct (is_p2p_ping data) eqn:Ep.
  { rewrite (proj1 (proj2 (proj2 (proj2 (write_peers _ _ _ _))))). by left. }
  destruct (Nat.ltb_spec (length data) 21); [by left |]. destruct (Nat.leb_spec 21 (length data)); [| lia].
  case_bool_decide; [| by left]. cbn [orb negb andb]. unfold handleP2PCommand. cbv zeta.
  assert (Hst : forall s0 rdac, hy_timers s0 = hy_timers s -> a ∈ hy_timers (handleStartup s0 data addr rdac now) ->
    a ∈ hy_timers s \/ (a = addr /\ rdac = true)).
  { intros s0 rdac E. unfold handleStartup, p2p_write. cbv zeta.
    match goal with |- a ∈ hy_timers (if ?c then with_timers ?x _ else ?x) -> _ => assert (Ex : hy_timers x = hy_timers s) end.
    { rewrite !(proj1 (proj2 (proj2 (proj2 (write_peers _ _ _ _))))), (proj1 (proj2 (proj2 (proj2 (emit_peers _ _))))). exact E. }
    destruct (rdac && _) eqn:Er; [| rewrite Ex; by left]. cbn [hy_timers with_timers]. rewrite Ex.
    intros [Hin | ->%list_elem_of_singleton]%elem_of_app; [by left | right]. by apply andb_true_iff in Er as [-> _]. }
  destruct (_ =? 0x10); [| destruct (_ =? 0x11); [| destruct (_ =? 0x12) eqn:E12]].
  - unfold handleRegistration, p2p_write. cbv zeta. rewrite (proj1 (proj2 (proj2 (proj2 (emit_peers _ _))))).
    cbn [hy_timers with_hpeers]. rewrite (proj1 (proj2 (proj2 (proj2 (write_peers _ _ _ _))))). by left.
  - intros Hin. apply Hst in Hin as [? | [_ ?]]; [by left | done | done].
  - intros Hin. apply Hst in Hin as [? | [? _]]; [by left | by right | done].
  - by left.
Qed.

Lemma start_timers s addr now : hy_timers (startRDACIdentification s addr now) = hy_timers s.
Proof.
  unfold startRDACIdentification. cbv zeta. repeat (case_match; try done).
  by rewrite (proj1 (proj2 (proj2 (proj2 (write_peers _ _ _ _))))).
Qed.

Lemma handshake_timers s addr data now : hy_timers (handleRDACHandshake s addr data now) = hy_timers s.
Proof.
  unfold handleRDACHandshake, emitHyteraPeerUpdate. cbv zeta.
  repeat (case_match; try done); rewrite ?start_timers, ?(proj1 (proj2 (proj2 (proj2 (write_peers _ _ _ _))))),
    ?(proj1 (proj2 (proj2 (proj2 (emit_peers _ _))))); done.
Qed.

Lemma step_timers s e s' a :
  hytera_step s e = Done s' -> a ∈ hy_timers s' ->
  a ∈ hy_timers s \/ exists data now, e = EvP2P false data a now /\ rdac_startup data = true.
Proof.
  intros Hs. destruct e as [[|] data addr now | data addr now | [|] data addr now | now | now]; cbn [hytera_step] in Hs.
  - injection Hs as <-. by left.
  - injection Hs as <-. cbn [p2p_receive]. intros Hin. apply p2p_timers in Hin as [? | [-> ?]]; [by left | right; eauto].
  - injection Hs as <-. unfold rdac_receive. destruct (length data =? 0)%nat; [by left |]. cbv zeta.
    rewrite (proj1 (proj2 (proj2 (proj2 (emit_peers _ _))))), handshake_timers. by left.
  - injection Hs as <-. by left.
  - unfold dmr_receive in Hs. cbv zeta in Hs. match type of Hs with context [emit ?x ?y] => pose proof (emit_peers x y) as F; set (s1 := emit x y) in * end.
    clearbody s1. unfold obind in Hs. destruct (decodeToMMDVM s1 data now) as [[s2 r] |] eqn:Ed; [| done]. apply decode_keeps in Ed as (_ & _ & _ & D & _).
    assert (E : hy_timers s' = hy_timers s2) by (destruct r; [| by injection Hs as <-]; destruct (hy_packetHandler s2) in Hs; by injection Hs as <-).
    rewrite E, D, (proj1 (proj2 (proj2 (proj2 F)))). by left.
  - injection Hs as <-. unfold rdac_timer. destruct (hy_timers s) as [| addr rest] eqn:Et; [rewrite Et; by left |].
    rewrite start_timers. cbn [hy_timers with_timers]. left. by right.
  - injection Hs as <-. unfold expireStalePeers. cbv zeta. destruct (hy_offlineHandler _); by left.
Qed.

(** A sign of the repeater dates its session. *)
Lemma step_associates s data addr now s' :
  hytera_step s (EvP2P false data addr now) = Done s' -> associates data = true ->
  lastP2PAt (session_of s' (addr_IP addr)) = now.
Proof.
  intros [= <-] Ha. cbn [p2p_receive]. destruct (sessions_of_p2p s data addr now) as [[E _] | [_ Hk]]; [congruence |].
  by rewrite Hk, session_of_associate, decide_True.
Qed.

(** A timer of repeater [k] is set, and the last sign of [k] is of time [t]: the
    startup command that set the timer, and the last sign if it is a later one. *)
Inductive timer_history (k : string) (t : time) : list hytera_event -> Prop :=
| timer_now data addr : addr_IP addr = k -> rdac_startup data = true -> timer_history k t [EvP2P false data addr t]
| timer_older sdata saddr snow data addr : addr_IP saddr = k -> rdac_startup sdata = true ->
    addr_IP addr = k -> associates data = true ->
    timer_history k t [EvP2P false sdata saddr snow; EvP2P false data addr t].

(** The events an identification has gone through before its [n]th step. *)
Inductive rdac_history (k : string) : nat -> list hytera_event -> Prop :=
| history_timer l t now : timer_history k t l -> time_sub now t <= 15 * second -> rdac_history k 1 (l ++ [EvTimer now])
| history_asked data addr now addr' now' : addr_IP addr = k -> associates data = true ->
    addr_IP addr' = k -> time_sub now' now <= 15 * second ->
    rdac_history k 1 [EvP2P false data addr now; EvRDAC [0x00] addr' now']
| history_step0 l data addr now : rdac_history k 1 l -> addr_IP addr = k -> has_bytes data rdacStep0Response = true ->
    rdac_history k 2 (l ++ [EvRDAC data addr now])
| history_step1 l data addr now : rdac_history k 2 l -> addr_IP addr = k -> has_bytes data rdacStep1Response = true ->
    rdac_history k 3 (l ++ [EvRDAC data addr now]).

Definition identified (k : string) (dmrid : Z) (l : list hytera_event) : Prop :=
  exists l0 data addr now, l = l0 ++ [EvRDAC data addr now] /\ rdac_history k 3 l0 /\ addr_IP addr = k /\
    has_bytes data rdacStep2Response = true /\ parseRDACDMRID data = Some dmrid.

Record session_inv (k : string) (evs : list hytera_event) (timers : list UDPAddr) (ss : rdacSession) : Prop := mkSessionInv {
  inv_associated : lastP2PAt ss <> 0 -> exists data addr, addr_IP addr = k /\ associates data = true /\ EvP2P false data addr (lastP2PAt ss) ∈ evs;
  inv_timer a : a ∈ timers -> addr_IP a = k -> exists l, timer_history k (lastP2PAt ss) l /\ l `sublist_of` evs;
  inv_asked : step ss <> 0%nat -> exists l, rdac_history k (step ss) l /\ l `sublist_of` evs;
  inv_identified : identCompleted ss = true -> exists l, identified k (lastDMRID ss) l /\ l `sublist_of` evs
}.

Lemma associates_startup data : rdac_startup data = true -> associates data = true.
Proof. unfold rdac_startup. intros [[_ Ha]%andb_true_iff _]%andb_true_iff. done. Qed.

(** A later sign of the repeater takes the place of the last one. *)
Lemma timer_renewed k t l evs data addr now :
  timer_history k t l -> l `sublist_of` evs -> addr_IP addr = k -> associates data = true ->
  exists l', timer_history k now l' /\ l' `sublist_of` evs ++ [EvP2P false data addr now].
Proof.
  intros Ht Hl Hk Ha. set (e := EvP2P false data addr now).
  assert (Hh : exists sdata saddr snow, addr_IP saddr = k /\ rdac_startup sdata = true /\ [EvP2P false sdata saddr snow] `sublist_of` evs).
  { destruct Ht as [d a0 H1' H2' | sd sa sn d a0 H1' H2' _ _]; [by exists d, a0, t | exists sd, sa, sn]. split_ands; try done.
    etrans; [| exact Hl]. apply singleton_sublist_l. by left. }
  destruct Hh as (sd & sa & sn & H1' & H2' & H3').
  exists ([EvP2P false sd sa sn] ++ [e]). split; [by apply timer_older | by apply sublist_app].
Qed.

(** The timers of the new state have their histories. *)
Lemma timers_inv_step s e s' k evs :
  hytera_step s e = Done s' -> session_inv k evs (hy_timers s) (session_of s k) ->
  forall a, a ∈ hy_timers s' -> addr_IP a = k ->
  exists l, timer_history k (lastP2PAt (session_of s' k)) l /\ l `sublist_of` evs ++ [e].
Proof.
  intros Hs [_ Itm _ _] a Hin Hk. pose proof (step_session _ _ _ k Hs) as Hm.
  destruct (step_timers _ _ _ _ Hs Hin) as [Hold | (data & now & -> & Hst)].
  - destruct (Itm a Hold Hk) as (l & Hl & Hsub).
    inversion Hm as [e0 ss0 | data addr now ss0 Hk' Ha | | | | |]; subst; try (exists l; split; [exact Hl | by apply sublist_inserts_r]).
    by eapply timer_renewed.
  - subst k. rewrite (step_associates _ _ _ _ _ Hs) by (by apply associates_startup).
    exists [EvP2P false data a now]. split; [by apply timer_now | by apply sublist_inserts_l].
Qed.

Lemma history_start k timers e evs ss :
  session_inv k evs timers ss -> asks k timers e -> lastP2PAt ss <> 0 -> time_sub (event_time e) (lastP2PAt ss) <= 15 * second ->
  exists l, rdac_history k 1 l /\ l `sublist_of` evs ++ [e].
Proof.
  intros [Ia Itm _ _] [(now & addr & rest & -> & -> & Hk) | (addr & now & -> & Hk)] Hne Hle; cbn [event_time] in Hle.
  - destruct (Itm addr ltac:(by left) Hk) as (l & Hl & Hsub). exists (l ++ [EvTimer now]).
    split; [by eapply history_timer | by apply sublist_app].
  - destruct (Ia Hne) as (d & a & Hk' & Ha & Hin). exists ([EvP2P false d a (lastP2PAt ss)] ++ [EvRDAC [0x00] addr now]).
    split; [by apply history_asked | apply sublist_app; [by apply singleton_sublist_l | done]].
Qed.

Lemma session_inv_step s e s' k evs :
  hytera_step s e = Done s' -> session_inv k evs (hy_timers s) (session_of s k) ->
  session_inv k (evs ++ [e]) (hy_timers s') (session_of s' k).
Proof.
  intros Hs Hinv. pose proof (timers_inv_step _ _ _ _ _ Hs Hinv) as Htm. pose proof (step_session _ _ _ k Hs) as Hm.
  revert Hinv Htm Hm. generalize (session_of s k) (session_of s' k) (hy_timers s) (hy_timers s'). clear Hs s s'.
  intros ss ss' tm tm' Hinv Htm Hm. pose proof Hinv as [Ia _ Is Ii].
  assert (Ia' : lastP2PAt ss <> 0 -> exists data addr, addr_IP addr = k /\ associates data = true /\ EvP2P false data addr (lastP2PAt ss) ∈ evs ++ [e])
    by (intros Hne; destruct (Ia Hne) as (d & a & ? & ? & ?); exists d, a; set_solver).
  assert (Is' : step ss <> 0%nat -> exists l, rdac_history k (step ss) l /\ l `sublist_of` evs ++ [e])
    by (intros Hne; destruct (Is Hne) as (l & Hl & Hsub); exists l; split; [done | by apply sublist_inserts_r]).
  assert (Ii' : identCompleted ss = true -> exists l, identified k (lastDMRID ss) l /\ l `sublist_of` evs ++ [e])
    by (intros Hi; destruct (Ii Hi) as (l & Hl & Hsub); exists l; split; [done | by apply sublist_inserts_r]).
  destruct Hm as [e ss | data addr now ss Hk Ha | e ss He Hne Hle _ | data addr now ss Hk Hst Hh | data addr now ss Hk Hst Hh | data addr now ss dmrid Hk Hst Hh Hp | data addr now ss Hk Hst Hp];
    constructor; cbn [associated step lastRequestAt lastDMRID identCompleted lastP2PAt] in *; try done.
  - intros _. exists data, addr. set_solver.
  - intros _. by eapply history_start.
  - intros _. rewrite Hst in Is. destruct (Is ltac:(done)) as (l & Hl & Hsub). exists (l ++ [EvRDAC data addr now]).
    split; [by apply history_step0 | by apply sublist_app].
  - intros _. rewrite Hst in Is. destruct (Is ltac:(done)) as (l & Hl & Hsub). exists (l ++ [EvRDAC data addr now]).
    split; [by apply history_step1 | by apply sublist_app].
  - intros _. rewrite Hst in Is. destruct (Is ltac:(done)) as (l & Hl & Hsub). exists (l ++ [EvRDAC data addr now]).
    split; [by exists l, data, addr, now | by apply sublist_app].
Qed.

(** C31: An identification counts only after a complete exchange.  When the session
    of a repeater of a fresh server says that it is identified, the history
    contains, in this order and from its IP address: a sign of the repeater on
    the P2P socket (a ping, or any command of at least 21 bytes behind the P2P
    prefix); at most fifteen seconds later what made the server ask, which is the
    byte zero on the RDAC socket, or a timer, and then an RDAC startup command of
    this repeater set the timer before or is itself that sign; an answer to each
    of the three questions; and the identifier is the one parsed from the last
    answer. *)
Theorem rdac_sound s evs s' k :
  unaware s -> hy_timers s = [] -> hytera_run s evs s' -> identCompleted (session_of s' k) = true ->
  exists l, identified k (lastDMRID (session_of s' k)) l /\ l `sublist_of` evs.
Proof.
  intros Hu Ht Hr. assert (Hinv : session_inv k evs (hy_timers s') (session_of s' k)).
  { induction Hr as [| evs s1 e s2 Hr IH Hs]; [| by eapply session_inv_step].
    unfold session_of. rewrite Hu, Ht. cbn. rewrite lookup_empty. constructor; [done | by intros a ?%not_elem_of_nil | done | done]. }
  apply Hinv.
Qed.

End peers.

(** ** Witnesses *)

#[local] Instance sample_net : HyteraNet := {| udp_write _ _ := true; addr_iter m := map_to_list m; seen_iter m := map_to_list m |}.
#[local] Instance sample_net_laws : HyteraNetLaws.
Proof. split; done. Qed.

(** A history computed. *)
Fixpoint hytera_exec (s : Server) (evs : list hytera_event) : outcome Server :=
  match evs with
  | [] => Done s
  | e :: evs => let! s := hytera_step s e in hytera_exec s evs
  end.

Lemma hytera_exec_run s evs s' : hytera_exec s evs = Done s' -> hytera_run s evs s'.
Proof.
  assert (G : forall evs0 s0, hytera_run s evs0 s0 -> forall evs s', hytera_exec s0 evs = Done s' -> hytera_run s (evs0 ++ evs) s').
  { intros evs0 s0 Hr evs1. revert evs0 s0 Hr. induction evs1 as [| e evs1 IH]; intros evs0 s0 Hr s1 Hx; [rewrite app_nil_r; by injection Hx as <- |].
    cbn [hytera_exec] in Hx. unfold obind in Hx. destruct (hytera_step s0 e) as [s2 |] eqn:Es; [| done].
    change (e :: evs1) with ([e] ++ evs1). rewrite app_assoc. eapply IH; [by eapply run_snoc | done]. }
  apply (G [] s). constructor.
Qed.

Definition sample_repeater : Server := SetPeerOfflineHandler (NewServer sample_setup true 30002).
Definition repeater_addr (port : Z) : UDPAddr := mkAddr "192.0.2.7" port "".
(** A P2P command of type [t], an answer with [prefix], and the last answer. *)
Definition p2p_command (t : Z) : list Z := [0x50; 0x32; 0x50] ++ replicate 17 0 ++ [t].
Definition answer (prefix : list Z) : list Z := prefix ++ replicate 14 0 ++ [0xC1; 0x9B; 0x2F].

Definition identification : list hytera_event :=
  [EvP2P false (p2p_command 0x10) (repeater_addr 50000) second; EvRDAC [0x00] (repeater_addr 50002) (5 * second);
   EvRDAC (answer rdacStep0Response) (repeater_addr 50002) (6 * second); EvRDAC (answer rdacStep1Response) (repeater_addr 50002) (7 * second);
   EvRDAC (answer rdacStep2Response) (repeater_addr 50002) (8 * second)].

Definition identified_server : Server := match hytera_exec sample_repeater identification with Done s => s | Panic => sample_repeater end.

Lemma identification_run : hytera_run sample_repeater identification identified_server.
Proof. apply hytera_exec_run. vm_compute. reflexivity. Qed.

Lemma rdac_sound_witness :
  exists l, identified "192.0.2.7" 3120065 l /\ l `sublist_of` identification.
Proof.
  destruct (rdac_sound sample_repeater identification identified_server "192.0.2.7") as (l & Hl & Hs);
    [reflexivity | reflexivity | exact identification_run | vm_compute; reflexivity |].
  exists l. split; [exact Hl | exact Hs].
Defined.

Lemma repeaters_expire_witness :
  peerLastSeen (hy_peers (expireStalePeers identified_server (31 * second))) !! "192.0.2.7" = Some second /\
  peerLastSeen (hy_peers (expireStalePeers identified_server (32 * second))) !! "192.0.2.7" = None.
Proof.
  assert (Hc : forall n, 8 <= n -> clock_ok identification (n * second)) by (intros n Hn; repeat split; cbn; unfold second, millisecond; lia).
  split.
  - destruct (repeaters_expire sample_repeater identification identified_server (31 * second) eq_refl eq_refl identification_run (Hc 31 ltac:(lia))) as (Hl & _).
    apply Hl. split; [vm_compute; reflexivity | vm_compute; discriminate].
  - destruct (repeaters_expire sample_repeater identification identified_server (32 * second) eq_refl eq_refl identification_run (Hc 32 ltac:(lia))) as (Hl & _).
    destruct (peerLastSeen _ !! _) as [t |] eqn:E; [| reflexivity]. apply Hl in E as [Et Hle]. vm_compute in Et. injection Et as <-.
    vm_compute in Hle. by destruct Hle.
Defined.

(** A repeater that is only heard on the RDAC socket is never removed. *)
Example rdac_only_stays :
  match hytera_exec sample_repeater [EvRDAC [0x01] (repeater_addr 50002) second; EvTick (1000 * second)] with
  | Done s => repeaterRDACAddr (hy_peers s) !! "192.0.2.7" = Some (repeater_addr 50002) /\ hy_offline s = []
  | Panic => False
  end.
Proof. vm_compute. done. Qed.
