(* ===== verification/HyteraSend.v ===== *)
(** * Sending to Hytera repeaters (internal/hytera/server.go)

    A packet for one repeater, the route [sourceKey], or for all of them when
    the key is empty.  The first packet of a call is preceded by wake-up packets
    and a pause; a voice header is preceded by sync packets; a call from the
    Motorola side gets its header three times, and one made up for it when it
    begins with a voice burst.  Each send is one step, as the lock of its route
    has it; [now] runs along, and [late] says how late a pause that starts at a
    given time ends. *)

From S2P Require Import Prelude Strings Net Packet Bptc LinkControl VoiceBurst Rewrite Rptc Text Config HyteraFrame Hytera.

Definition hyteraSyncWakeupTime : Z := 300 * millisecond.
Definition hyteraGatewayWakeupTime : Z := 150 * millisecond.
Definition hyteraWakeupRetries : nat := 3.
Definition hyteraGatewayWakeRetries : nat := 2.
Definition motoHeaderRepeats : nat := 3.
Definition hyteraBurstInterval : Z := 20 * millisecond.
Definition hyteraSyncHeaderInterval : Z := 5 * millisecond.

(** ** The packets of a call *)

Definition hangTimeForPacket (pkt : Packet) : Z := if GroupCall pkt then hyteraGroupCallHangTime else hyteraPrivateCallHangTime.

Definition is_header (pkt : Packet) : bool := (FrameType pkt =? 2) && (DTypeOrVSeq pkt =? 1).

Definition isVoiceCallStartOrVoice (pkt : Packet) : bool := is_header pkt || (FrameType pkt =? 0) || (FrameType pkt =? 1).

Definition new_stream (pkt : Packet) (lastStreamID : Z) : bool := negb (StreamID pkt =? 0) && negb (StreamID pkt =? lastStreamID).

Definition shouldWakeup (pkt : Packet) (lastStreamID : Z) (idle : bool) : bool :=
  let newStream := new_stream pkt lastStreamID in
  if DTypeOrVSeq pkt =? 1 then newStream
  else idle && newStream && isVoiceCallStartOrVoice pkt.

Definition is_idle (st : outbound) (pkt : Packet) (now : time) : bool :=
  time_is_zero (lastSent st) || (hangTimeForPacket pkt <? time_sub now (lastSent st)).

(** The packet starts a stream of its own. *)
Definition accepts_stream (st : outbound) (pkt : Packet) (idle fromMoto : bool) : bool :=
  let newStream := new_stream pkt (outStreamID st) in
  let startLike := isVoiceCallStartOrVoice pkt in
  ((outStreamID st =? 0) && negb (StreamID pkt =? 0) && (negb fromMoto || startLike)) || (is_header pkt && newStream)
  || (idle && newStream && startLike).

(** The service options, and the slot state that remembers them. *)
Definition resolveMotoServiceOptions (pkt : Packet) (st : outbound) : Z * outbound :=
  let cached := if motoSOSet st then motoSO st else 0x00 in
  if (FrameType pkt =? 2) && ((DTypeOrVSeq pkt =? 1) || (DTypeOrVSeq pkt =? 2)) then
    match DecodeLCFromBurst (DMRData pkt) with
    | (lc, true) => (lc.[2], mkOutbound (outSeq st) (outStreamID st) (lastSent st) (lastMotoWakeup st) (lastMotoHeader st) (lc.[2]) true)
    | _ => (cached, st)
    end
  else (cached, st).

Definition with_outSeq st n := mkOutbound n (outStreamID st) (lastSent st) (lastMotoWakeup st) (lastMotoHeader st) (motoSO st) (motoSOSet st).
Definition with_lastSent st t := mkOutbound (outSeq st) (outStreamID st) t (lastMotoWakeup st) (lastMotoHeader st) (motoSO st) (motoSOSet st).
(** A wake-up was sent. *)
Definition with_wakeup st t := mkOutbound (outSeq st) (outStreamID st) (lastSent st) t 0 (motoSO st) (motoSOSet st).
Definition with_header st t := mkOutbound (outSeq st) (outStreamID st) (lastSent st) (lastMotoWakeup st) t (motoSO st) (motoSOSet st).
(** A stream was accepted; the options of the last one are forgotten. *)
Definition with_stream st (n id : Z) (forget : bool) :=
  mkOutbound n id (lastSent st) (lastMotoWakeup st) (lastMotoHeader st) (if forget then 0 else motoSO st) (if forget then false else motoSOSet st).

(** ** Routes *)

(** The state of a route, made on first use; the empty key is the state shared
    with the received bursts. *)
Definition route_slots (s : Server) (sourceKey : string) : gmap bool slotState :=
  default (<[false := new_slotState]> (<[true := new_slotState]> ∅)) (hy_routeSlots s !! sourceKey).
Definition outboundSlotState (s : Server) (slot : bool) (sourceKey : string) : slotState :=
  default new_slotState (if decide (sourceKey = "") then hy_slots s !! slot else route_slots s sourceKey !! slot).
Definition outbound_of (s : Server) (slot : bool) (sourceKey : string) : outbound := st_out (outboundSlotState s slot sourceKey).
Definition put_outbound (s : Server) (slot : bool) (sourceKey : string) (o : outbound) : Server :=
  let st := mkSlotState (st_in (outboundSlotState s slot sourceKey)) o in
  if decide (sourceKey = "") then with_slots s (<[slot := st]> (hy_slots s)) (hy_nextStreamID s)
  else with_routeSlots s (<[sourceKey := <[slot := st]> (route_slots s sourceKey)]> (hy_routeSlots s)).

Definition send_ok (s : Server) (sourceKey : string) : bool := match hy_sendFilter s with Some f => f sourceKey | None => true end.

Definition startupTemplate (s : Server) (slot : bool) (slotType : Z) : option (list Z) :=
  match hy_templates s !! startupTemplateKey slot slotType with
  | Some template => Some template
  | None => hy_templates s !! startupTemplateKey (negb slot) slotType
  end.

Definition buildStartupPacket (s : Server) (slotType : Z) (pkt : Packet) : option (list Z) :=
  match startupTemplate s (Slot pkt) slotType with
  | None => buildFixedStartupPacket slotType pkt (cfgColorCode (Local_ColorCode (hy_cfg s)))
  | Some template => patch_template template slotType pkt
  end.

Definition buildStartupPacketForRoute (s : Server) (slotType : Z) (pkt : Packet) (fromMoto : bool) (motoColorCode : Z) : option (list Z) :=
  if fromMoto then buildFixedStartupPacket slotType pkt motoColorCode else buildStartupPacket s slotType pkt.

(** ** Writing *)

Section send.
Context `{HyteraNet} `{Pdu} `{EmbCodec} (late : time -> Z).

(** The addresses of a route: the one of its repeater, or of all the repeaters
    that the filter lets through. *)
Definition targetDMRAddrs (s : Server) (sourceKey : string) : list UDPAddr :=
  let addrs := repeaterDMRAddr (hy_peers s) in
  if decide (sourceKey = "") then (List.filter (fun '(key, _) => send_ok s (String.append "hytera:" key)) (addr_iter addrs)).*2
  else
    match addrs !! trim_prefix "hytera:" sourceKey with
    | Some addr => if send_ok s sourceKey then [addr] else []
    | None => []
    end.

Definition sleep (now : time) (d : Z) : time := now + d + late now.

Definition paceAddr (s : Server) (addr : UDPAddr) (interval : Z) (now : time) : Server * time :=
  let interval := if interval <=? 0 then hyteraBurstInterval else interval in
  let key := addr_string addr in
  let last := default 0 (hy_lastSend s !! key) in
  let elapsed := time_sub now last in
  let now := if negb (time_is_zero last) && (elapsed <? interval) then sleep now (interval - elapsed) else now in
  (with_hlastSend s (<[key := now]> (hy_lastSend s)), now).

Definition paced_write (s : Server) (data : list Z) (addr : UDPAddr) (interval : Z) (now : time) : Server * time * bool :=
  let '(s, now) := paceAddr s addr interval now in
  let '(s, ok) := write s DMRSocket data addr in
  (s, now, ok).

(** [slot] and [sourceKey] name the state [st]. *)
Definition sendEncodedToHyteraWithInterval (s : Server) (data : list Z) (slot : bool) (sourceKey : string) (interval : Z) (now : time)
    : Server * time * bool :=
  match targetDMRAddrs s sourceKey with
  | [] => (s, now, false)
  | addrs =>
      let '(s, now) := foldl (fun '(s, now) addr =>
        let '(s, now, ok) := paced_write s data addr interval now in
        (if ok : bool then put_outbound s slot sourceKey (with_lastSent (outbound_of s slot sourceKey) now) else s, now)) (s, now) addrs in
      (s, now, true)
  end.

Definition with_pslot (pkt : Packet) (slot : bool) : Packet :=
  mkPacket (Signature pkt) (Seq pkt) (Src pkt) (Dst pkt) (Repeater pkt) slot (GroupCall pkt) (FrameType pkt) (DTypeOrVSeq pkt)
    (StreamID pkt) (DMRData pkt).

(** One wake-up packet for an address. *)
Definition send_wakeup (pkt : Packet) (fromMoto : bool) (addr : UDPAddr) (acc : Server * time) (slot : bool) : Server * time :=
  let '(s, now) := acc in
  let wakeupPkt := with_pslot pkt slot in
  let motoCC := if fromMoto then packetColorCode wakeupPkt (cfgColorCode (Local_ColorCode (hy_cfg s))) else 0 in
  match buildStartupPacketForRoute s slotTypeWakeupRequest wakeupPkt fromMoto motoCC with
  | None => (s, now)
  | Some packet => let '(s, now, _) := paced_write s packet addr hyteraBurstInterval now in (s, now)
  end.

Definition sendWakeups (s : Server) (pkt : Packet) (repeats : nat) (sourceKey : string) (fromMoto : bool) (now : time) : Server * time :=
  let repeats := Nat.max 1 repeats in
  let slots := if fromMoto then [false; true] else [Slot pkt] in
  foldl (fun '(s, now) addr =>
    if negb (send_ok s (String.append "hytera:" (addr_IP addr))) then (s, now)
    else foldl (send_wakeup pkt fromMoto addr) (s, now) (concat (replicate repeats slots))) (s, now) (targetDMRAddrs s sourceKey).

(** The sync packet of a header, and the packet itself; [false] ends the loop
    around it. *)
Definition send_once (s : Server) (pkt outPacket : Packet) (fromMoto : bool) (motoCC : Z) (sourceKey : string) (now : time)
    : Server * time * bool :=
  let '(s, now, ok) :=
    match (if is_header pkt then buildStartupPacketForRoute s slotTypeSync pkt fromMoto motoCC else None) with
    | Some syncPacket => sendEncodedToHyteraWithInterval s syncPacket (Slot pkt) sourceKey hyteraBurstInterval now
    | None => (s, now, true)
    end in
  if negb ok then (s, now, false)
  else
    let st := outbound_of s (Slot pkt) sourceKey in
    let st := with_outSeq st (u8 (outSeq st + 1)) in
    let s := put_outbound s (Slot pkt) sourceKey st in
    match encode_frame (outSeq st) (Local_ColorCode (hy_cfg s)) outPacket with
    | None => (s, now, false)
    | Some data =>
        let data := if fromMoto then setHyteraHeaderColorCode data motoCC else data in
        let interval := if is_header pkt then hyteraSyncHeaderInterval else hyteraBurstInterval in
        sendEncodedToHyteraWithInterval s data (Slot pkt) sourceKey interval now
    end.

Fixpoint send_repeats (n : nat) (s : Server) (pkt outPacket : Packet) (fromMoto : bool) (motoCC : Z) (sourceKey : string) (now : time)
    : Server * time * bool :=
  match n with
  | O => (s, now, true)
  | S n =>
      let '(s, now, ok) := send_once s pkt outPacket fromMoto motoCC sourceKey now in
      if negb ok then (s, now, false) else send_repeats n s pkt outPacket fromMoto motoCC sourceKey now
  end.

Definition with_frame (pkt : Packet) (frameType dtype : Z) (data : list Z) : Packet :=
  mkPacket (Signature pkt) (Seq pkt) (Src pkt) (Dst pkt) (Repeater pkt) (Slot pkt) (GroupCall pkt) frameType dtype (StreamID pkt) data.

Definition sendSynthesizedMotoHeader (s : Server) (pkt : Packet) (motoCC so : Z) (sourceKey : string) (now : time) : Server * time * bool :=
  let header := with_frame pkt 2 1 (lc_burst pkt so DataTypeVoiceLCHeader (Z.land motoCC 0x0F)) in
  let '(s, now, ok) := send_repeats motoHeaderRepeats s header header true motoCC sourceKey now in
  if negb ok then (s, now, false)
  else (put_outbound s (Slot pkt) sourceKey (with_header (outbound_of s (Slot pkt) sourceKey) now), now, true).

(** ** A packet *)

(** The wake-up of a call that starts, and the pause after it. *)
Definition wake_call (s : Server) (pkt : Packet) (fromMoto idle again : bool) (sourceKey : string) (now : time) : Server * time :=
  let slot := Slot pkt in
  let woken s now := if fromMoto then put_outbound s slot sourceKey (with_wakeup (outbound_of s slot sourceKey) now) else s in
  if idle then
    let '(s, now) := sendWakeups s pkt (if fromMoto then hyteraWakeupRetries else hyteraGatewayWakeRetries) sourceKey fromMoto now in
    (woken s now, sleep now (if fromMoto then hyteraSyncWakeupTime else hyteraGatewayWakeupTime))
  else if fromMoto && again then
    let '(s, now) := sendWakeups s pkt 1 sourceKey fromMoto now in
    (woken s now, sleep now hyteraSyncWakeupTime)
  else (s, now).

(** The color code for a packet from the Motorola side. *)
Definition moto_color_code (s : Server) (pkt : Packet) : Z :=
  let own := cfgColorCode (Local_ColorCode (hy_cfg s)) in
  normalizeMotoColorCode (fst (packetColorCodeWithSource pkt own)) own.

(** The packet after the wake-up, its header and repetitions included;
    [accept] says whether it starts a stream. *)
Definition send_bursts (s : Server) (pkt : Packet) (fromMoto accept : bool) (sourceKey : string) (now : time) : Server * time * bool :=
  let slot := Slot pkt in
  let motoCC := if fromMoto then moto_color_code s pkt else 0 in
  let '(motoSO, st) := if fromMoto then resolveMotoServiceOptions pkt (outbound_of s slot sourceKey) else (0x20, outbound_of s slot sourceKey) in
  let s := put_outbound s slot sourceKey st in
  let outPacket :=
    if fromMoto then patchMotoVoiceEmbeddedControl (standardizeMotoLCPacketWithSO pkt motoCC motoSO) motoCC else pkt in
  let '(s, now, ok) :=
    if fromMoto && accept && negb (FrameType pkt =? 2) && isVoiceCallStartOrVoice pkt
    then sendSynthesizedMotoHeader s pkt motoCC motoSO sourceKey now else (s, now, true) in
  if negb ok then (s, now, false)
  else
    let '(s, now, ok) := send_repeats (if fromMoto && is_header pkt then motoHeaderRepeats else 1) s pkt outPacket fromMoto motoCC sourceKey now in
    if negb ok then (s, now, false)
    else (if fromMoto && is_header pkt then put_outbound s slot sourceKey (with_header (outbound_of s slot sourceKey) now) else s, now, true).

Definition sendPacketTo (s : Server) (pkt : Packet) (fromMoto : bool) (sourceKey : string) (now : time) : Server * time * bool :=
  if hy_stopped s then (s, now, false)
  else
    let slot := Slot pkt in
    let st := outbound_of s slot sourceKey in
    let lastStreamID := outStreamID st in
    let idle := is_idle st pkt now in
    let accept := accepts_stream st pkt idle fromMoto in
    let s := put_outbound s slot sourceKey
      (if accept && negb (StreamID pkt =? 0) then with_stream st 0 (StreamID pkt) fromMoto else st) in
    let '(s, now) :=
      if shouldWakeup pkt lastStreamID idle
      then wake_call s pkt fromMoto idle (accept && new_stream pkt lastStreamID) sourceKey now else (s, now) in
    send_bursts s pkt fromMoto accept sourceKey now.

Definition SendPacket (s : Server) (pkt : Packet) (now : time) : Server * time := fst (sendPacketTo s pkt false "" now).
Definition SendPacketTo (s : Server) (pkt : Packet) (sourceKey : string) (now : time) := sendPacketTo s pkt false sourceKey now.
Definition SendPacketFromMoto (s : Server) (pkt : Packet) (now : time) : Server * time := fst (sendPacketTo s pkt true "" now).
Definition SendPacketFromMotoTo (s : Server) (pkt : Packet) (sourceKey : string) (now : time) := sendPacketTo s pkt true sourceKey now.

(** The keys in order, without the empty one and without repetitions. *)
Definition unique_keys (sourceKeys : list string) : list string :=
  foldl (fun unique key => if bool_decide (key = "") || bool_decide (key ∈ unique) then unique else unique ++ [key]) [] sourceKeys.

(** [SendPacketToMany]; the sends of the routes are taken one after the other,
    each from the same time on. *)
Definition SendPacketToMany (s : Server) (pkt : Packet) (fromMoto : bool) (sourceKeys : list string) (now : time)
    : Server * gmap string bool :=
  if hy_stopped s then (s, ∅)
  else foldl (fun '(s, results) target =>
    let '(s, _, sent) := sendPacketTo s pkt fromMoto target now in (s, <[target := sent]> results)) (s, ∅) (unique_keys sourceKeys).

(** One route of [PrimeTargets]. *)
Definition prime_target (pkt : Packet) (fromMoto : bool) (acc : Server * time * Z) (sourceKey : string) : Server * time * Z :=
  let '(s, now, maxPause) := acc in
  let slot := Slot pkt in
  let st := outbound_of s slot sourceKey in
  let lastStreamID := outStreamID st in
  let idle := is_idle st pkt now in
  let accept := accepts_stream st pkt idle fromMoto in
  let st := if accept && negb (StreamID pkt =? 0) then with_stream st (if fromMoto then 255 else 0) (StreamID pkt) false else st in
  let s := put_outbound s slot sourceKey st in
  if negb (shouldWakeup pkt lastStreamID idle) || negb idle then (s, now, maxPause)
  else
    let s := if fromMoto then put_outbound s slot sourceKey (with_wakeup st now) else s in
    let '(s, now) := sendWakeups s pkt (if fromMoto then hyteraWakeupRetries else hyteraGatewayWakeRetries) sourceKey fromMoto now in
    (s, now, Z.max maxPause (if fromMoto then hyteraSyncWakeupTime else hyteraGatewayWakeupTime)).

Definition PrimeTargets (s : Server) (pkt : Packet) (fromMoto : bool) (sourceKeys : list string) (now : time) : Server * time * Z :=
  if hy_stopped s then (s, now, 0) else foldl (prime_target pkt fromMoto) (s, now, 0) (unique_keys sourceKeys).

End send.

(** ** Only the targets *)

Section targets.
Context `{HyteraNet} `{Pdu} `{EmbCodec} (late : time -> Z).

(** What sending leaves alone. *)
Definition same_server (s s' : Server) : Prop :=
  hy_cfg s' = hy_cfg s /\ hy_peers s' = hy_peers s /\ hy_templates s' = hy_templates s /\ hy_sendFilter s' = hy_sendFilter s /\
  hy_stopped s' = hy_stopped s.

(** Only datagrams of the DMR socket for addresses in [P] are written. *)
Definition sends_to (P : UDPAddr -> Prop) (s s' : Server) : Prop :=
  same_server s s' /\ exists new, hy_wire s' = hy_wire s ++ new /\ Forall (fun '(via, a, _) => via = DMRSocket /\ P a) new.

Lemma sends_to_refl P s : sends_to P s s.
Proof. split; [done |]. exists []. by rewrite app_nil_r. Qed.

Lemma sends_to_trans P s1 s2 s3 : sends_to P s1 s2 -> sends_to P s2 s3 -> sends_to P s1 s3.
Proof.
  intros [E1 (n1 & W1 & F1)] [E2 (n2 & W2 & F2)]. split; [unfold same_server in *; intuition congruence |].
  exists (n1 ++ n2). rewrite W2, W1, app_assoc. split; [done |]. by apply Forall_app.
Qed.

Lemma put_sends P s slot key o : sends_to P s (put_outbound s slot key o).
Proof. unfold put_outbound. case_decide; (split; [done | exists []; by rewrite app_nil_r]). Qed.

Lemma paced_write_sends P s data addr interval now :
  P addr -> sends_to P s (fst (fst (paced_write late s data addr interval now))).
Proof.
  intros HP. unfold paced_write, paceAddr, write. cbv zeta. destruct (udp_write addr data); [| split; [done | exists []; by rewrite app_nil_r]].
  split; [done |]. exists [(DMRSocket, addr, data)]. split; [done |]. by apply Forall_singleton.
Qed.

Lemma targets_same s s' key : same_server s s' -> targetDMRAddrs s' key = targetDMRAddrs s key.
Proof. unfold same_server, targetDMRAddrs, send_ok. by intros (_ & -> & _ & -> & _). Qed.

Definition is_target (s : Server) (key : string) (a : UDPAddr) : Prop := a ∈ targetDMRAddrs s key.

Lemma is_target_step s s' key P : sends_to P s s' -> forall a, is_target s' key a <-> is_target s key a.
Proof. intros [Hs _] a. unfold is_target. by rewrite (targets_same s s'). Qed.

Lemma encoded_sends s data slot key interval now :
  sends_to (is_target s key) s (fst (fst (sendEncodedToHyteraWithInterval late s data slot key interval now))).
Proof.
  unfold sendEncodedToHyteraWithInterval. destruct (targetDMRAddrs s key) as [| a0 l0] eqn:Et; [apply sends_to_refl |]. rewrite <- Et.
  match goal with |- context [foldl ?f (s, now) _] => set (g := f) end.
  assert (Hf : sends_to (is_target s key) s (fst (foldl g (s, now) (targetDMRAddrs s key)))).
  { apply (foldl_inv (fun acc => sends_to (is_target s key) s (fst acc))); [apply sends_to_refl |].
    intros [s1 t1] addr Ha Hs. cbn [fst] in Hs. unfold g.
    pose proof (paced_write_sends (is_target s key) s1 data addr interval t1 Ha) as Hw.
    destruct (paced_write late s1 data addr interval t1) as [[s2 t2] ok]. cbn [fst] in *. eapply sends_to_trans; [exact Hs |].
    destruct ok; [| exact Hw]. eapply sends_to_trans; [exact Hw | apply put_sends]. }
  destruct (foldl g (s, now) (targetDMRAddrs s key)). exact Hf.
Qed.

Lemma wakeups_send s pkt repeats key fromMoto now :
  sends_to (is_target s key) s (fst (sendWakeups late s pkt repeats key fromMoto now)).
Proof.
  unfold sendWakeups. apply (foldl_inv (fun acc => sends_to (is_target s key) s (fst acc))); [apply sends_to_refl |].
  intros [s1 t1] addr Ha Hs. destruct (negb _); [exact Hs |].
  apply (foldl_inv (fun acc => sends_to (is_target s key) s (fst acc))); [exact Hs |].
  intros [s2 t2] slot _ Hs2. cbn [fst] in Hs2. unfold send_wakeup. cbv zeta. case_match; [| exact Hs2].
  match goal with |- context [paced_write late s2 ?d addr ?i t2] => pose proof (paced_write_sends (is_target s key) s2 d addr i t2 Ha) as Hw;
    destruct (paced_write late s2 d addr i t2) as [[s3 t3] ok] end.
  eapply sends_to_trans; [exact Hs2 | exact Hw].
Qed.

(** A step that sends to its own targets, after other such steps. *)
Lemma sends_then key s1 s2 s3 : sends_to (is_target s1 key) s1 s2 -> sends_to (is_target s2 key) s2 s3 -> sends_to (is_target s1 key) s1 s3.
Proof.
  intros S1 S2. eapply sends_to_trans; [exact S1 |]. destruct S2 as [E (new & W & F)]. split; [done |]. exists new. split; [done |].
  eapply Forall_impl; [exact F |]. intros [[via a] d] [Hv Ha]. split; [done |]. by apply (is_target_step _ _ _ _ S1).
Qed.

Lemma once_sends s pkt out fromMoto cc key now :
  sends_to (is_target s key) s (fst (fst (send_once late s pkt out fromMoto cc key now))).
Proof.
  unfold send_once.
  match goal with |- context [let '(_, _) := ?x in _] => set (first := x) end.
  assert (Hf : sends_to (is_target s key) s (fst (fst first))).
  { unfold first. case_match; [apply encoded_sends | apply sends_to_refl]. }
  destruct first as [[s1 t1] ok]. cbn [fst] in Hf. destruct (negb ok); [exact Hf |]. cbv zeta.
  match goal with |- context [put_outbound ?a ?b ?c ?d] => pose proof (put_sends (is_target s1 key) a b c d) as Hp; set (s2 := put_outbound a b c d) in * end.
  clearbody s2. pose proof (sends_then _ _ _ _ Hf Hp) as Hfp. case_match; [| exact Hfp].
  eapply sends_then; [exact Hfp | apply encoded_sends].
Qed.

Lemma repeats_send n s pkt out fromMoto cc key now :
  sends_to (is_target s key) s (fst (fst (send_repeats late n s pkt out fromMoto cc key now))).
Proof.
  revert s now. induction n as [| n IH]; intros s now; [apply sends_to_refl |]. cbn [send_repeats].
  pose proof (once_sends s pkt out fromMoto cc key now) as Ho. destruct (send_once late s pkt out fromMoto cc key now) as [[s1 t1] ok].
  cbn [fst] in Ho. destruct (negb ok); [exact Ho |]. eapply sends_then; [exact Ho | apply IH].
Qed.

Lemma wake_sends s pkt fromMoto idle again key now : sends_to (is_target s key) s (fst (wake_call late s pkt fromMoto idle again key now)).
Proof.
  unfold wake_call. cbv zeta. destruct idle; [| destruct (fromMoto && again); [| apply sends_to_refl]].
  all: match goal with |- context [sendWakeups ?l ?a ?b ?c ?d ?e ?f] => pose proof (wakeups_send a b c d e f) as Hw; destruct (sendWakeups l a b c d e f) as [s1 t1] end;
    cbn [fst] in *; destruct fromMoto; [eapply sends_to_trans; [exact Hw | apply put_sends] | exact Hw].
Qed.

Lemma header_sends s pkt cc so key now : sends_to (is_target s key) s (fst (fst (sendSynthesizedMotoHeader late s pkt cc so key now))).
Proof.
  unfold sendSynthesizedMotoHeader. cbv zeta.
  match goal with |- context [send_repeats ?l ?n ?a ?b ?c ?d ?e ?f ?g] => pose proof (repeats_send n a b c d e f g) as Hr; destruct (send_repeats l n a b c d e f g) as [[s1 t1] ok] end.
  cbn [fst] in Hr. destruct (negb ok); [exact Hr |]. eapply sends_to_trans; [exact Hr | apply put_sends].
Qed.

Lemma bursts_send s pkt fromMoto accept key now : sends_to (is_target s key) s (fst (fst (send_bursts late s pkt fromMoto accept key now))).
Proof.
  unfold send_bursts. cbv zeta.
  match goal with |- context [if fromMoto then resolveMotoServiceOptions ?a ?b else ?c] =>
    destruct (if fromMoto then resolveMotoServiceOptions a b else c) as [so st] end.
  match goal with |- context [put_outbound s ?b ?c ?d] => pose proof (put_sends (is_target s key) s b c d) as S3; set (s3 := put_outbound s b c d) in * end.
  clearbody s3.
  match goal with |- context [if ?c then sendSynthesizedMotoHeader ?l ?a1 ?a2 ?a3 ?a4 ?a5 ?a6 else ?y] =>
    set (h := if c then sendSynthesizedMotoHeader l a1 a2 a3 a4 a5 a6 else y) end.
  assert (S4 : sends_to (is_target s key) s (fst (fst h))).
  { eapply sends_then; [exact S3 |]. unfold h. case_match; [apply header_sends | apply sends_to_refl]. }
  clearbody h. destruct h as [[s4 t4] ok4]. cbn [fst] in S4. destruct (negb ok4); [done |].
  match goal with |- context [send_repeats ?l ?n ?a ?b ?c ?d ?e ?f ?g] => pose proof (sends_then _ _ _ _ S4 (repeats_send n a b c d e f g)) as S5;
    destruct (send_repeats l n a b c d e f g) as [[s5 t5] ok5] end.
  cbn [fst] in S5. destruct (negb ok5); [done |]. destruct (fromMoto && is_header pkt); [| done].
  eapply sends_to_trans; [exact S5 | apply put_sends].
Qed.

(** A packet goes to its targets and to nobody else: whatever the server writes
    for it, wake-up, sync and header packets included, leaves on the DMR socket
    for an address of the route's repeater, or of all repeaters, that the send
    filter lets through; a stopped server sends nothing, and of the rest of the
    server only the state of the route changes. *)
Theorem hytera_sends_to_targets s pkt fromMoto key now :
  let '(s', _, sent) := sendPacketTo late s pkt fromMoto key now in
  sends_to (is_target s key) s s' /\ (sent = true -> hy_stopped s = false) /\ (hy_stopped s = true -> s' = s).
Proof.
  unfold sendPacketTo. destruct (hy_stopped s) eqn:Est; [split; [apply sends_to_refl | done] |]. cbv zeta.
  match goal with |- context [put_outbound s ?b ?c ?d] => pose proof (put_sends (is_target s key) s b c d) as S1; set (s1 := put_outbound s b c d) in * end.
  clearbody s1.
  match goal with |- context [if shouldWakeup ?a ?b ?c then ?x else ?y] => set (w := if shouldWakeup a b c then x else y) end.
  assert (S2 : sends_to (is_target s key) s (fst w)).
  { eapply sends_then; [exact S1 |]. unfold w. case_match; [apply wake_sends | apply sends_to_refl]. }
  clearbody w. destruct w as [s2 t2]. cbn [fst] in S2.
  match goal with |- context [send_bursts ?l ?a ?b ?c ?d ?e ?f] => pose proof (sends_then _ _ _ _ S2 (bursts_send a b c d e f)) as S5;
    destruct (send_bursts l a b c d e f) as [[s5 t5] ok5] end.
  done.
Qed.

End targets.
