(* ===== verification/HyteraCalls.v ===== *)
(** * Calls to a Hytera repeater

    How the bursts of a call from the Motorola side are numbered: the wake-up,
    sync and repeated header packets included in what the server writes, packet
    after packet. *)

From S2P Require Import Prelude Strings Net Packet Bptc LinkControl VoiceBurst Rewrite Rptc Text Config HyteraFrame Hytera HyteraPeers HyteraSend.

(** The encoder of dmrgo gives 33 bytes. *)
Class EmbCodecLaws `{EmbCodec} : Prop := { emb_Encode_length b : length (emb_Encode b) = 33%nat }.

(** The type of the wake-up and sync packets. *)
Definition is_startup_packet (data : list Z) : bool := data.[8] =? 0x42.

(** The sequence numbers of the burst packets on the wire. *)
Definition numbers (w : list (socket * UDPAddr * list Z)) : list Z :=
  omap (fun '(_, _, data) => if is_startup_packet data then None else Some (data.[4])) w.

(** [n] numbers, modulo 256, after [q]. *)
Definition count_from (q : Z) (n : nat) : list Z := (fun i => u8 (q + Z.of_nat i)) <$> seq 1 n.

Lemma u8_add a b : u8 (u8 a + b) = u8 (a + b).
Proof. unfold u8. apply Zplus_mod_idemp_l. Qed.

Lemma u8_u8 a : u8 (u8 a) = u8 a.
Proof. unfold u8. apply Zmod_mod. Qed.

Lemma count_from_app q n m : count_from q (n + m) = count_from q n ++ count_from (q + Z.of_nat n) m.
Proof.
  unfold count_from. rewrite seq_app, fmap_app. f_equal. rewrite Nat.add_comm, <- (fmap_add_seq n 1 m), <- list_fmap_compose.
  apply list_fmap_ext. intros i j _. cbn. f_equal. lia.
Qed.

Lemma count_from_u8 q q' n : u8 q = u8 q' -> count_from q n = count_from q' n.
Proof. intros E. apply list_fmap_ext. intros i j _. by rewrite <- (u8_add q), E, u8_add. Qed.

Lemma numbers_app w1 w2 : numbers (w1 ++ w2) = numbers w1 ++ numbers w2.
Proof. apply omap_app. Qed.

(** ** Packets *)

Lemma startup_packet_type slotType pkt cc data : buildFixedStartupPacket slotType pkt cc = Some data -> is_startup_packet data = true.
Proof. unfold buildFixedStartupPacket. case_match; [by intros [= <-] |]. case_match; [by intros [= <-] | done]. Qed.

Lemma frame_number q cc pkt :
  encodeSlotType pkt <> None -> length (DMRData pkt) = 33%nat ->
  exists data, encode_frame q cc pkt = Some data /\ is_startup_packet data = false /\ data.[4] = q.
Proof.
  intros Ht Hl. unfold encode_frame. destruct (encodeSlotType pkt) as [[st pt] |] eqn:Et; [| done].
  destruct (swap_burst _ Hl) as (payload & -> & -> & _). cbn [Nat.eqb negb]. eexists. split; [reflexivity |]. split; [| done].
  unfold is_startup_packet, hytera_frame. cbn. unfold encodeSlotType in Et.
  assert (pt = packetTypeA \/ pt = packetTypeTerminator) as [-> | ->]; [| done | done].
  repeat case_match; simplify_eq; auto.
Qed.

Lemma color_code_number data cc :
  is_startup_packet (setHyteraHeaderColorCode data cc) = is_startup_packet data /\ (setHyteraHeaderColorCode data cc).[4] = data.[4].
Proof.
  unfold setHyteraHeaderColorCode, is_startup_packet. case_match; [done |]. cbv zeta.
  by rewrite !byte_at_insert_ne by done.
Qed.

(** The packet can be sent. *)
Definition sendable (pkt : Packet) : Prop := encodeSlotType pkt <> None /\ length (DMRData pkt) = 33%nat.

Lemma encode_type_data pkt data : encodeSlotType (with_data pkt data) = encodeSlotType pkt.
Proof. done. Qed.

Lemma standardized_sendable pkt cc so : sendable pkt -> sendable (standardizeMotoLCPacketWithSO pkt cc so).
Proof.
  intros [Ht Hl]. unfold standardizeMotoLCPacketWithSO. cbv zeta.
  case_match; [split; [done | apply burst_length] |]. case_match; [split; [done | apply burst_length] | done].
Qed.

Lemma patched_sendable `{EmbCodec} `{!EmbCodecLaws} pkt cc : sendable pkt -> sendable (patchMotoVoiceEmbeddedControl pkt cc).
Proof.
  intros [Ht Hl]. unfold patchMotoVoiceEmbeddedControl. cbv zeta. case_match; [done |]. case_match; [done |].
  repeat case_match; try done; (split; [done | apply emb_Encode_length]).
Qed.

(** ** Writes of one route *)

Section route.
Context `{HyteraNet} `{Pdu} `{EmbCodec} `{!EmbCodecLaws} (late : time -> Z).
Variables (key : string) (addr : UDPAddr) (slot : bool).
Hypothesis udp_ok : forall data, udp_write addr data = true.

(** The only target of the route. *)
Definition reachable (s : Server) : Prop := targetDMRAddrs s key = [addr].

Definition route (s : Server) : outbound := outbound_of s slot key.

(** [n] bursts of the route were written, and the stream is the same. *)
Definition writes (n : nat) (s s' : Server) : Prop :=
  same_server s s' /\ numbers (hy_wire s') = numbers (hy_wire s) ++ count_from (outSeq (route s)) n /\
  u8 (outSeq (route s')) = u8 (outSeq (route s) + Z.of_nat n) /\ outStreamID (route s') = outStreamID (route s).

Lemma writes_trans n m s1 s2 s3 : writes n s1 s2 -> writes m s2 s3 -> writes (n + m) s1 s3.
Proof.
  intros (E1 & W1 & Q1 & I1) (E2 & W2 & Q2 & I2). split; [unfold same_server in *; intuition congruence |].
  rewrite W2, W1, <- app_assoc, count_from_app. split; [do 2 f_equal; by apply count_from_u8 |].
  split; [| congruence]. rewrite Q2, <- u8_add, Q1, u8_add. f_equal. lia.
Qed.

Lemma route_put s o : route (put_outbound s slot key o) = o.
Proof.
  unfold route, outbound_of, outboundSlotState, put_outbound, route_slots.
  destruct (decide (key = "")); cbn [with_slots with_routeSlots hy_slots hy_routeSlots].
  - by rewrite lookup_insert_eq.
  - rewrite lookup_insert_eq. cbn [from_option id]. by rewrite lookup_insert_eq.
Qed.

Lemma put_writes s o :
  outSeq o = outSeq (route s) -> outStreamID o = outStreamID (route s) -> writes 0 s (put_outbound s slot key o).
Proof.
  intros Eq Ei. unfold writes. rewrite route_put, Eq, Ei, Z.add_0_r. split; [unfold put_outbound; by case_decide |].
  unfold count_from. cbn. rewrite app_nil_r. unfold put_outbound. by case_decide.
Qed.

Lemma writes_refl s : writes 0 s s.
Proof. unfold writes, count_from. cbn. by rewrite Z.add_0_r, app_nil_r. Qed.

(** A packet was written that carries no number of the route's state. *)
Lemma paced_write_wire s data interval now :
  exists t, let s' := with_hlastSend s (<[addr_string addr := t]> (hy_lastSend s)) in
    paced_write late s data addr interval now = (with_hwire s' (hy_wire s ++ [(DMRSocket, addr, data)]), t, true).
Proof. unfold paced_write, paceAddr, write. cbv zeta. rewrite udp_ok. by eexists. Qed.

Lemma encoded_writes s data interval now :
  reachable s ->
  exists s' t, sendEncodedToHyteraWithInterval late s data slot key interval now = (s', t, true) /\
    same_server s s' /\ hy_wire s' = hy_wire s ++ [(DMRSocket, addr, data)] /\
    outSeq (route s') = outSeq (route s) /\ outStreamID (route s') = outStreamID (route s).
Proof.
  intros Ht. unfold sendEncodedToHyteraWithInterval. rewrite Ht. cbn [foldl].
  destruct (paced_write_wire s data interval now) as [t ->]. do 2 eexists. split; [reflexivity |].
  rewrite route_put. split; [unfold put_outbound; by case_decide |]. split; [unfold put_outbound; by case_decide | done].
Qed.

Lemma startup_writes s data interval now :
  reachable s -> is_startup_packet data = true ->
  exists s' t, sendEncodedToHyteraWithInterval late s data slot key interval now = (s', t, true) /\ writes 0 s s'.
Proof.
  intros Ht Hs. destruct (encoded_writes s data interval now Ht) as (s' & t & -> & E & W & Q & I). exists s', t. split; [done |].
  unfold writes. rewrite W, numbers_app, Q, Z.add_0_r. cbn. rewrite Hs. by rewrite app_nil_r.
Qed.

Lemma reachable_step n s s' : writes n s s' -> reachable s -> reachable s'.
Proof. intros [E _]. unfold reachable. by rewrite (targets_same _ _ _ E). Qed.

Lemma once_writes s pkt out cc now :
  reachable s -> Slot pkt = slot -> sendable out ->
  exists s' t, send_once late s pkt out true cc key now = (s', t, true) /\ writes 1 s s'.
Proof.
  intros Ht Hslot [Hty Hl]. unfold send_once. rewrite !Hslot.
  match goal with |- context [let '(_, _) := ?x in _] => set (first := x) end.
  assert (Hf : exists s1 t1, first = (s1, t1, true) /\ writes 0 s s1).
  { unfold first. destruct (is_header pkt); cycle 1.
    - exists s, now. split; [done | apply writes_refl].
    - unfold buildStartupPacketForRoute. destruct (buildFixedStartupPacket slotTypeSync pkt cc) as [sync |] eqn:Es; [| done].
      apply startup_writes; [done |]. by eapply startup_packet_type. }
  destruct Hf as (s1 & t1 & -> & W1). cbn [negb].
  set (st := with_outSeq (outbound_of s1 slot key) _). set (s2 := put_outbound s1 slot key st).
  assert (R2 : route s2 = st) by (apply route_put).
  assert (E2 : same_server s1 s2) by (unfold s2, put_outbound; by case_decide).
  assert (Hw2 : hy_wire s2 = hy_wire s1) by (unfold s2, put_outbound; by case_decide).
  destruct (frame_number (outSeq st) (Local_ColorCode (hy_cfg s2)) out Hty Hl) as (data & -> & Hd & Hn).
  destruct (color_code_number data cc) as [Hd' Hn']. rewrite Hd in Hd'. rewrite Hn in Hn'.
  assert (T2 : reachable s2).
  { pose proof (reachable_step _ _ _ W1 Ht) as T1. unfold reachable in *. by rewrite (targets_same _ _ _ E2). }
  match goal with |- context [sendEncodedToHyteraWithInterval ?l s2 ?d ?b ?k ?i ?t] => destruct (encoded_writes s2 d i t T2) as (s3 & t3 & -> & E3 & W3 & Q3 & I3) end.
  exists s3, t3. split; [done |]. change 1%nat with (0 + 1)%nat. apply (writes_trans _ _ _ s1); [done |].
  assert (Hq : outSeq st = u8 (outSeq (route s1) + 1)) by done. assert (Hi : outStreamID st = outStreamID (route s1)) by done.
  unfold writes. rewrite W3, numbers_app, Q3, I3, R2, Hw2, Hi. clearbody st.
  split; [unfold same_server in *; intuition congruence |]. split; [| split; [by rewrite Hq, u8_u8 | done]].
  f_equal. cbn [numbers omap list_omap]. rewrite Hd', Hn', Hq. done.
Qed.

Lemma repeats_write n s pkt out cc now :
  reachable s -> Slot pkt = slot -> sendable out ->
  exists s' t, send_repeats late n s pkt out true cc key now = (s', t, true) /\ writes n s s'.
Proof.
  intros Ht Hslot Ho. revert s now Ht. induction n as [| n IH]; intros s now Ht.
  { exists s, now. split; [done | apply writes_refl]. }
  cbn [send_repeats]. destruct (once_writes s pkt out cc now Ht Hslot Ho) as (s1 & t1 & -> & W1). cbn [negb].
  destruct (IH s1 t1 (reachable_step _ _ _ W1 Ht)) as (s2 & t2 & -> & W2). exists s2, t2. split; [done |].
  change (S n) with (1 + n)%nat. by eapply writes_trans.
Qed.

(** Wake-up packets carry no number. *)
Lemma wakeups_write s pkt repeats now : writes 0 s (fst (sendWakeups late s pkt repeats key true now)).
Proof.
  unfold sendWakeups. apply (foldl_inv (fun acc => writes 0 s (fst acc))); [apply writes_refl |].
  intros [s1 t1] a _ Hs. destruct (negb _); [exact Hs |].
  apply (foldl_inv (fun acc => writes 0 s (fst acc))); [exact Hs |].
  intros [s2 t2] b _ Hs2. cbn [fst] in Hs2. unfold send_wakeup, buildStartupPacketForRoute. cbv zeta.
  destruct (buildFixedStartupPacket _ _ _) as [data |] eqn:Ed; [| exact Hs2]. apply startup_packet_type in Ed.
  unfold paced_write, paceAddr, write. cbv zeta. change 0%nat with (0 + 0)%nat. eapply writes_trans; [exact Hs2 |].
  destruct (udp_write a data); [| exact (writes_refl s2)].
  unfold writes, count_from. cbn [fst hy_wire with_hwire with_hlastSend]. rewrite numbers_app. cbn [numbers omap list_omap]. rewrite Ed.
  cbn. rewrite Z.add_0_r. done.
Qed.

Lemma wake_writes s pkt idle again now :
  Slot pkt = slot -> writes 0 s (fst (wake_call late s pkt true idle again key now)).
Proof.
  intros Hslot. unfold wake_call. rewrite Hslot. cbv zeta. destruct idle; [| destruct (true && again); [| apply writes_refl]].
  all: match goal with |- context [sendWakeups ?l ?a ?b ?c ?d ?e ?f] => pose proof (wakeups_write a b c f) as Hw; destruct (sendWakeups l a b c d e f) as [s1 t1] end;
    cbn [fst] in *; change 0%nat with (0 + 0)%nat; (eapply writes_trans; [exact Hw | by apply put_writes]).
Qed.

(** How often the bursts of a packet are sent; the first packet of a stream
    that is not a header gets a header of its own. *)
Definition copies (opens : bool) (pkt : Packet) : nat :=
  let made := opens && negb (FrameType pkt =? 2) in
  ((if made then motoHeaderRepeats else 0) + (if is_header pkt then motoHeaderRepeats else 1))%nat.

Lemma accepts_start st pkt idle : accepts_stream st pkt idle true = true -> isVoiceCallStartOrVoice pkt = true /\ StreamID pkt <> 0.
Proof.
  unfold accepts_stream, isVoiceCallStartOrVoice, new_stream. intros E. destruct (Z.eqb_spec (StreamID pkt) 0) as [Hz | Hne];
    destruct (outStreamID st =? 0), (StreamID pkt =? outStreamID st), (is_header pkt), idle, (FrameType pkt =? 0), (FrameType pkt =? 1); cbn in *; done.
Qed.

Lemma header_writes s pkt cc so now :
  reachable s -> Slot pkt = slot ->
  exists s' t, sendSynthesizedMotoHeader late s pkt cc so key now = (s', t, true) /\ writes motoHeaderRepeats s s'.
Proof.
  intros Ht Hslot. unfold sendSynthesizedMotoHeader. cbv zeta. set (header := with_frame pkt 2 1 _).
  destruct (repeats_write motoHeaderRepeats s header header cc now Ht Hslot ltac:(split; [done | apply burst_length])) as (s1 & t1 & -> & W1).
  cbn [negb]. do 2 eexists. split; [reflexivity |]. rewrite Hslot. rewrite <- (Nat.add_0_r motoHeaderRepeats).
  eapply writes_trans; [exact W1 | by apply put_writes].
Qed.


Lemma options_keep pkt st so st' : resolveMotoServiceOptions pkt st = (so, st') -> outSeq st' = outSeq st /\ outStreamID st' = outStreamID st.
Proof.
  unfold resolveMotoServiceOptions. cbv zeta. case_match; [| by intros [= _ <-]]. destruct (DecodeLCFromBurst _) as [lc [|]]; by intros [= _ <-].
Qed.

Lemma bursts_write s pkt accept now :
  reachable s -> Slot pkt = slot -> sendable pkt -> (accept = true -> isVoiceCallStartOrVoice pkt = true) ->
  exists s' t, send_bursts late s pkt true accept key now = (s', t, true) /\ writes (copies accept pkt) s s'.
Proof.
  intros Ht Hslot Hpkt Hv. unfold send_bursts. rewrite Hslot. cbv zeta. cbn [andb]. fold (route s).
  destruct (resolveMotoServiceOptions pkt (route s)) as [so st] eqn:Eo. apply options_keep in Eo as [Eq Ei].
  assert (W1 : writes 0 s (put_outbound s slot key st)) by (by apply put_writes). set (s1 := put_outbound s slot key st) in *. clearbody s1.
  set (cc := moto_color_code s pkt). clearbody cc. pose proof (reachable_step _ _ _ W1 Ht) as T1.
  match goal with |- context [let '(_, _) := ?x in _] => set (h := x) end.
  assert (Hh : exists s2 t2, h = (s2, t2, true) /\ writes (if accept && negb (FrameType pkt =? 2) then motoHeaderRepeats else 0) s1 s2).
  { unfold h. destruct accept; cbn [andb]; [| exists s1, now; split; [done | apply writes_refl]]. rewrite Hv by done. rewrite andb_true_r.
    destruct (negb (FrameType pkt =? 2)); [by apply header_writes | exists s1, now; split; [done | apply writes_refl]]. }
  clearbody h. destruct Hh as (s2 & t2 & -> & W2). cbn [negb]. pose proof (reachable_step _ _ _ W2 T1) as T2.
  match goal with |- context [send_repeats ?l ?n s2 pkt ?o true cc key t2] =>
    destruct (repeats_write n s2 pkt o cc t2 T2 Hslot ltac:(by apply patched_sendable, standardized_sendable)) as (s3 & t3 & -> & W3) end.
  cbn [negb]. do 2 eexists. split; [reflexivity |]. unfold copies. cbv zeta.
  assert (W : writes (0 + ((if accept && negb (FrameType pkt =? 2) then motoHeaderRepeats else 0) + (if is_header pkt then motoHeaderRepeats else 1))) s s3)
    by (eapply writes_trans; [exact W1 |]; by eapply writes_trans).
  cbn [Nat.add] in W. destruct (is_header pkt) eqn:Eh; [| exact W].
  match goal with |- writes ?n _ _ => rewrite <- (Nat.add_0_r n) end. eapply writes_trans; [exact W | by apply put_writes].
Qed.

(** A packet sent to the route: how many numbers it takes, and from where. *)
Lemma send_writes s pkt now :
  hy_stopped s = false -> reachable s -> Slot pkt = slot -> sendable pkt ->
  let accept := accepts_stream (route s) pkt (is_idle (route s) pkt now) true in
  let q := if accept then 0 else outSeq (route s) in
  exists s' t, sendPacketTo late s pkt true key now = (s', t, true) /\ same_server s s' /\
    numbers (hy_wire s') = numbers (hy_wire s) ++ count_from q (copies accept pkt) /\
    u8 (outSeq (route s')) = u8 (q + Z.of_nat (copies accept pkt)) /\
    outStreamID (route s') = if accept then StreamID pkt else outStreamID (route s).
Proof.
  intros Hrun Ht Hslot Hpkt. cbv zeta. unfold sendPacketTo. rewrite Hrun, Hslot. cbv zeta. fold (route s).
  set (idle := is_idle (route s) pkt now). set (accept := accepts_stream (route s) pkt idle true).
  assert (Hacc : accept = true -> isVoiceCallStartOrVoice pkt = true /\ StreamID pkt <> 0) by apply accepts_start.
  match goal with |- context [put_outbound s slot key ?o] => set (o1 := o); set (s1 := put_outbound s slot key o1) end.
  assert (E1 : same_server s s1) by (unfold s1, put_outbound; by case_decide).
  assert (Hw1 : hy_wire s1 = hy_wire s) by (unfold s1, put_outbound; by case_decide).
  assert (R1 : outSeq (route s1) = (if accept then 0 else outSeq (route s)) /\ outStreamID (route s1) = if accept then StreamID pkt else outStreamID (route s)).
  { unfold s1. rewrite route_put. unfold o1. destruct accept; [| done]. destruct Hacc as [_ Hid]; [done |].
    by destruct (Z.eqb_spec (StreamID pkt) 0). }
  clearbody s1. destruct R1 as [Q1 I1].
  match goal with |- context [if shouldWakeup ?a ?b ?c then ?x else ?y] => set (w := if shouldWakeup a b c then x else y) end.
  assert (W2 : writes 0 s1 (fst w)) by (unfold w; destruct (shouldWakeup _ _ _); [by apply wake_writes | apply writes_refl]).
  clearbody w. destruct w as [s2 t2]. cbn [fst] in W2.
  assert (T2 : reachable s2) by (apply (reachable_step _ _ _ W2); unfold reachable; by rewrite (targets_same _ _ _ E1)).
  destruct (bursts_write s2 pkt accept t2 T2 Hslot Hpkt (fun E => proj1 (Hacc E))) as (s3 & t3 & -> & W3).
  destruct (writes_trans _ _ _ _ _ W2 W3) as (E & N & Q & I). exists s3, t3. split; [done |].
  rewrite N, Hw1, <- Q1, <- I1. split; [unfold same_server in *; intuition congruence | done].
Qed.

(** ** A call *)

(** Packets sent one after another, with their times; whether all were sent. *)
Definition send_call (s : Server) (call : list (Packet * time)) : Server * bool :=
  foldl (fun '(s, ok) '(pkt, now) => let '(s, _, sent) := sendPacketTo late s pkt true key now in (s, ok && sent)) (s, true) call.

Definition call_copies (rest : list (Packet * time)) : nat := sum_list_with (fun '(pkt, _) => copies false pkt) rest.

(** A packet of a stream that is under way. *)
Lemma accepts_running st pkt idle : StreamID pkt <> 0 -> outStreamID st = StreamID pkt -> accepts_stream st pkt idle true = false.
Proof.
  intros Hid Es. unfold accepts_stream, new_stream. rewrite Es. destruct (Z.eqb_spec (StreamID pkt) 0); [done |]. rewrite Z.eqb_refl. cbn.
  by rewrite !andb_false_r.
Qed.

Lemma call_writes id rest s :
  id <> 0 -> hy_stopped s = false -> reachable s -> outStreamID (route s) = id ->
  Forall (fun '(pkt, _) => StreamID pkt = id /\ Slot pkt = slot /\ sendable pkt) rest ->
  exists s', send_call s rest = (s', true) /\ numbers (hy_wire s') = numbers (hy_wire s) ++ count_from (outSeq (route s)) (call_copies rest).
Proof.
  intros Hid. revert s. induction rest as [| [pkt now] rest IH]; intros s Hrun Ht Hs Hf.
  { exists s. split; [done |]. by rewrite app_nil_r. }
  apply Forall_cons in Hf as [(Ei & Hslot & Hp) Hf].
  destruct (send_writes s pkt now Hrun Ht Hslot Hp) as (s1 & t1 & E & Hsame & N & Q & I).
  rewrite (accepts_running (route s) pkt _) in N, Q, I by congruence.
  destruct (IH s1) as (s2 & E2 & N2); [by destruct Hsame as (_ & _ & _ & _ & ->) | unfold reachable; by rewrite (targets_same _ _ _ Hsame) | congruence | done |].
  exists s2. unfold send_call in *. cbn [foldl]. rewrite E. split; [done |].
  rewrite N2, N, <- app_assoc. f_equal. unfold call_copies. cbn [sum_list_with]. rewrite count_from_app. f_equal. by apply count_from_u8.
Qed.

(** The bursts of a call from the Motorola side are numbered without a gap.  When
    the repeater of the route is known and takes what it is sent, every packet of
    a call is sent, whenever it comes; the burst packets on the wire carry the
    numbers 1, 2, 3, ... modulo 256: first the header, three times, made up when
    the call begins with a voice burst, then every later packet once, or three
    times when it is a header again. *)
Theorem moto_call_numbered s first now rest :
  hy_stopped s = false -> reachable s ->
  Slot first = slot -> sendable first -> accepts_stream (route s) first (is_idle (route s) first now) true = true ->
  Forall (fun '(pkt, _) => StreamID pkt = StreamID first /\ Slot pkt = slot /\ sendable pkt) rest ->
  exists s', send_call s ((first, now) :: rest) = (s', true) /\
    numbers (hy_wire s') = numbers (hy_wire s) ++ count_from 0 (copies true first + call_copies rest).
Proof.
  intros Hrun Ht Hslot Hp Ha Hf. destruct (send_writes s first now Hrun Ht Hslot Hp) as (s1 & t1 & E & Hsame & N & Q & I).
  rewrite Ha in N, Q, I.
  destruct (call_writes (StreamID first) rest s1) as (s2 & E2 & N2);
    [apply (accepts_start _ _ _ Ha) | by destruct Hsame as (_ & _ & _ & _ & ->) | unfold reachable; by rewrite (targets_same _ _ _ Hsame) | done | done |].
  exists s2. unfold send_call in *. cbn [foldl]. rewrite E. split; [done |].
  rewrite N2, N, <- app_assoc. f_equal. rewrite count_from_app. f_equal. by apply count_from_u8.
Qed.
End route.

(** ** Witnesses *)

#[local] Existing Instance sample_net.

Record sample_emb := mkEmb { se_data : list Z; se_cc : Z; se_lcss : LCSS }.
#[local] Instance sample_codec : EmbCodec := {|
  EmbBurst := sample_emb;
  emb_DecodeFromBytes d := mkEmb d 0 SingleFragmentLCorCSBK;
  emb_HasEmbeddedSignalling _ := true;
  emb_ColorCode := se_cc;
  emb_LCSS := se_lcss;
  emb_set_ColorCode b cc := mkEmb (se_data b) cc (se_lcss b);
  emb_set_LCSS b l := mkEmb (se_data b) (se_cc b) l;
  emb_UnpackEmbeddedSignallingData b _ := b;
  emb_Encode b := take 33 (se_data b ++ replicate 33 0)
|}.
#[local] Instance sample_codec_laws : EmbCodecLaws.
Proof. split. intros b. cbn [emb_Encode sample_codec]. rewrite length_take, length_app, length_replicate. lia. Qed.

Definition moto_packet (frameType dtype : Z) : Packet :=
  mkPacket (str_bytes "DMRD") 0 3120001 9 0 true true frameType dtype 77 (Z.of_nat <$> seq 100 33).
Definition repeater_key : string := "hytera:192.0.2.7".

Lemma moto_call_numbered_witness :
  exists s', send_call (fun _ => 0) repeater_key identified_server
      [(moto_packet 1 0, 10 * second); (moto_packet 0 1, 11 * second); (moto_packet 2 2, 12 * second)] = (s', true) /\
    numbers (hy_wire s') = numbers (hy_wire identified_server) ++ [1; 2; 3; 4; 5; 6].
Proof.
  assert (Hp : forall f d, encodeSlotType (moto_packet f d) <> None -> sendable (moto_packet f d)) by (intros f d Ht; split; [exact Ht | reflexivity]).
  destruct (@moto_call_numbered sample_net systematic_pdu sample_codec sample_codec_laws (fun _ => 0) repeater_key (repeater_addr 50000) true (fun _ => eq_refl) identified_server (moto_packet 1 0) (10 * second)
    [(moto_packet 0 1, 11 * second); (moto_packet 2 2, 12 * second)]) as (s' & E & N).
  - vm_compute. reflexivity.
  - vm_compute. reflexivity.
  - reflexivity.
  - apply Hp. discriminate.
  - vm_compute. reflexivity.
  - repeat constructor; discriminate.
  - exists s'. split; [exact E | exact N].
Defined.

(** A call that is primed first is numbered from 0, and keeps no header of its
    own when it begins with a voice burst. *)
Example primed_call :
  let '(primed, now, _) := PrimeTargets (fun _ => 0) identified_server (moto_packet 1 0) true [repeater_key] (10 * second) in
  let burst_numbers s := drop (length (numbers (hy_wire identified_server))) (numbers (hy_wire s)) in
  burst_numbers (fst (fst (sendPacketTo (fun _ => 0) primed (moto_packet 1 0) true repeater_key now))) = [0] /\
  burst_numbers (fst (fst (sendPacketTo (fun _ => 0) identified_server (moto_packet 1 0) true repeater_key (10 * second)))) = [1; 2; 3; 4].
Proof. vm_compute. done. Qed.
