(* ===== verification/G711.v ===== *)
(** * Companded audio (internal/nrl/g711.go)

    A-law and mu-law of the ITU recommendation G.711: 16-bit samples to bytes
    and back.  The tables the package fills when it starts are functions of
    their index. *)

From S2P Require Import Prelude.

(** The value of an int16. *)
Definition i16 (z : Z) : Z := (z + 32768) mod 65536 - 32768.
Definition u16 (z : Z) : Z := z mod 65536.
Definition is_i16 (z : Z) : Prop := -32768 <= z < 32768.

Definition segMask : Z := 0x70.
Definition quantMask : Z := 0x0F.
Definition segShift : Z := 4.
Definition bias : Z := 0x84.

(** ** A-law *)

Definition rawAlaw2linear (code : Z) : Z :=
  let code := Z.lxor code 0x55 in
  let iexp := Z.shiftr (Z.land code 0x70) 4 in
  let mant := Z.land code 0x0F in
  let mant := if 0 <? iexp then i16 (mant + 16) else mant in
  let mant := i16 (Z.shiftl mant 4 + 0x08) in
  let mant := if 1 <? iexp then i16 (Z.shiftl mant (iexp - 1)) else mant in
  if negb (Z.land code 0x80 =? 0) then mant else i16 (- mant).

(** Halve until the value is below 32, counting; a sample has at most 11 bits
    left at this point. *)
Fixpoint alaw_segment (fuel : nat) (ix iexp : Z) : Z * Z :=
  match fuel with
  | O => (ix, iexp)
  | S fuel => if 31 <? ix then alaw_segment fuel (Z.shiftr ix 1) (u8 (iexp + 1)) else (ix, iexp)
  end.

Definition rawLinear2Alaw (sample : Z) : Z :=
  let negative := sample <? 0 in
  let ix := if negative then Z.shiftr (Z.lnot sample) 4 else Z.shiftr sample 4 in
  let ix :=
    if 15 <? ix then
      let '(ix, iexp) := alaw_segment 11 ix 1 in
      i16 (i16 (ix - 16) + u8 (Z.shiftl iexp 4))
    else ix in
  let ix := if negative then ix else Z.lor ix 0x80 in
  Z.lxor (u8 ix) 0x55.

(** ** Mu-law *)

Definition rawUlaw2linear (code : Z) : Z :=
  let code := u8 (Z.lnot code) in
  let sign := Z.land code 0x80 in
  let exponent := Z.shiftr (Z.land code segMask) segShift in
  let mantissa := Z.land code quantMask in
  let sample := i16 (Z.shiftl (i16 (i16 (Z.shiftl mantissa 3) + bias)) exponent) in
  let sample := i16 (sample - bias) in
  if negb (sign =? 0) then i16 (- sample) else sample.

(** The position of the highest bit, at most 7 rounds down from bit 14. *)
Fixpoint ulaw_exponent (exponent : nat) (s mask : Z) : nat :=
  match exponent with
  | O => O
  | S e => if Z.land s mask =? 0 then ulaw_exponent e s (Z.shiftr mask 1) else exponent
  end.

Definition rawLinear2Ulaw (sample : Z) : Z :=
  let clip := 32635 in
  let negative := sample <? 0 in
  let sign := if negative then 0x80 else 0 in
  let s := if negative then - sample else sample in
  let s := if clip <? s then clip else s in
  let s := s + bias in
  let exponent := ulaw_exponent 7 s 0x4000 in
  let mantissa := Z.land (Z.shiftr s (Z.of_nat exponent + 3)) quantMask in
  u8 (Z.lnot (Z.lor (Z.lor sign (u8 (Z.shiftl (Z.of_nat exponent) segShift))) (u8 mantissa))).

(** ** Tables *)

Definition alaw2linearTable (i : Z) : Z := rawAlaw2linear i.
Definition ulaw2linearTable (i : Z) : Z := rawUlaw2linear i.
Definition linear2alawTable (i : Z) : Z := rawLinear2Alaw (i16 i).
Definition linear2ulawTable (i : Z) : Z := rawLinear2Ulaw (i16 i).

Definition AlawToLinear (code : Z) : Z := alaw2linearTable code.
Definition LinearToAlaw (sample : Z) : Z := linear2alawTable (u16 sample).
Definition UlawToLinear (code : Z) : Z := ulaw2linearTable code.
Definition LinearToUlaw (sample : Z) : Z := linear2ulawTable (u16 sample).

(** ** Codes *)

Lemma i16_id z : is_i16 z -> i16 z = z.
Proof. unfold is_i16, i16. intros Hz. rewrite Z.mod_small; lia. Qed.

Lemma i16_u16 z : i16 (u16 z) = i16 z.
Proof. unfold i16, u16. by rewrite Zplus_mod_idemp_l. Qed.

Lemma LinearToAlaw_raw s : is_i16 s -> LinearToAlaw s = rawLinear2Alaw s.
Proof. intros Hs. unfold LinearToAlaw, linear2alawTable. by rewrite i16_u16, i16_id. Qed.

Lemma LinearToUlaw_raw s : is_i16 s -> LinearToUlaw s = rawLinear2Ulaw s.
Proof. intros Hs. unfold LinearToUlaw, linear2ulawTable. by rewrite i16_u16, i16_id. Qed.

(** What holds of all the codes. *)
Lemma all_codes (P : Z -> bool) c : forallb P (Z.of_nat <$> seq 0 256) = true -> is_byte c -> P c = true.
Proof.
  intros Hf Hc. rewrite forallb_forall in Hf. apply Hf. apply list_elem_of_In, list_elem_of_fmap.
  unfold is_byte in Hc. exists (Z.to_nat c). split; [lia |]. apply elem_of_seq. lia.
Qed.

Lemma AlawToLinear_range c : is_byte c -> is_i16 (AlawToLinear c).
Proof.
  intros Hc. assert (E : (-32768 <=? AlawToLinear c) && (AlawToLinear c <? 32768) = true); [| unfold is_i16; lia].
  apply (all_codes (fun c => (-32768 <=? AlawToLinear c) && (AlawToLinear c <? 32768))); [vm_compute; reflexivity | done].
Qed.

Lemma UlawToLinear_range c : is_byte c -> is_i16 (UlawToLinear c).
Proof.
  intros Hc. assert (E : (-32768 <=? UlawToLinear c) && (UlawToLinear c <? 32768) = true); [| unfold is_i16; lia].
  apply (all_codes (fun c => (-32768 <=? UlawToLinear c) && (UlawToLinear c <? 32768))); [vm_compute; reflexivity | done].
Qed.

(** A code is found again from the sample it stands for.  Decoding a byte and
    encoding the sample gives the byte back, for A-law always and for mu-law
    except for the code of a negative zero, 0x7F, which becomes the one of the
    positive zero, 0xFF. *)
Theorem codes_roundtrip c :
  is_byte c -> LinearToAlaw (AlawToLinear c) = c /\ LinearToUlaw (UlawToLinear c) = if c =? 0x7F then 0xFF else c.
Proof.
  intros Hc.
  assert (E : (LinearToAlaw (AlawToLinear c) =? c) && (LinearToUlaw (UlawToLinear c) =? (if c =? 0x7F then 0xFF else c)) = true); [| lia].
  apply (all_codes (fun c => (LinearToAlaw (AlawToLinear c) =? c) && (LinearToUlaw (UlawToLinear c) =? (if c =? 0x7F then 0xFF else c))));
    [vm_compute; reflexivity | done].
Qed.

Lemma codes_roundtrip_witness : LinearToUlaw (UlawToLinear 0x7F) = 0xFF.
Proof. destruct (codes_roundtrip 0x7F) as [_ E]; [by_eval | exact E]. Defined.

(** ** A-law as a quantiser *)

(** The level of a sample that is not negative, in mathematical terms: [m]
    sixteenths of segment [k]. *)
Definition alaw_level (k m : Z) : Z := (16 * m + 8) * 2 ^ k.

(** Where a sample lies. *)
Definition in_step (k m s : Z) : Prop := 16 * m * 2 ^ k <= s < 16 * (m + 1) * 2 ^ k.
Definition is_step (k m : Z) : Prop := (k = 0 /\ 0 <= m < 32) \/ (0 < k <= 6 /\ 16 <= m < 32).

Definition alaw_code (k m : Z) : Z := if m <? 16 then m else m - 16 + 16 * (k + 1).

Lemma code_level k m negative :
  is_step k m -> AlawToLinear (Z.lxor (if negative : bool then alaw_code k m else Z.lor (alaw_code k m) 0x80) 0x55) =
    (if negative then - alaw_level k m else alaw_level k m).
Proof.
  intros Hs. assert (E : forallb (fun k => forallb (fun m =>
      (AlawToLinear (Z.lxor (alaw_code k m) 0x55) =? - alaw_level k m) && (AlawToLinear (Z.lxor (Z.lor (alaw_code k m) 0x80) 0x55) =? alaw_level k m))
      (Z.of_nat <$> (if (k =? 0)%Z then seq 0 32 else seq 16 16)%nat)) (Z.of_nat <$> seq 0 7) = true) by (vm_compute; reflexivity).
  rewrite forallb_forall in E. specialize (E k). rewrite forallb_forall in E.
  assert (Hm : (AlawToLinear (Z.lxor (alaw_code k m) 0x55) =? - alaw_level k m) && (AlawToLinear (Z.lxor (Z.lor (alaw_code k m) 0x80) 0x55) =? alaw_level k m) = true).
  { apply E.
    - apply list_elem_of_In, list_elem_of_fmap. exists (Z.to_nat k). unfold is_step in Hs. split; [lia |]. apply elem_of_seq. lia.
    - apply list_elem_of_In, list_elem_of_fmap. exists (Z.to_nat m). unfold is_step in Hs. split; [lia |].
      destruct (Z.eqb_spec k 0); apply elem_of_seq; lia. }
  destruct negative; lia.
Qed.

(** The loop finds the segment. *)
Lemma segment_steps j fuel ix iexp :
  16 * 2 ^ Z.of_nat j <= ix < 32 * 2 ^ Z.of_nat j -> 0 <= iexp -> iexp + Z.of_nat j < 256 -> (j <= fuel)%nat ->
  alaw_segment fuel ix iexp = (Z.shiftr ix (Z.of_nat j), iexp + Z.of_nat j).
Proof.
  revert fuel ix iexp. induction j as [| j IH]; intros fuel ix iexp Hix He He' Hf.
  { cbn in Hix. rewrite Z.shiftr_0_r, Z.add_0_r. destruct fuel; [done |]. cbn [alaw_segment]. by destruct (Z.ltb_spec 31 ix); [lia |]. }
  rewrite Nat2Z.inj_succ, Z.pow_succ_r in Hix by lia. assert (0 < 2 ^ Z.of_nat j) by lia.
  destruct fuel as [| fuel]; [lia |]. cbn [alaw_segment]. destruct (Z.ltb_spec 31 ix); [| nia].
  assert (u8 (iexp + 1) = iexp + 1) as -> by (apply u8_id; unfold is_byte; lia).
  rewrite IH; [| rewrite Z.shiftr_div_pow2 by lia; change (2 ^ 1) with 2; split; [apply Z.div_le_lower_bound | apply Z.div_lt_upper_bound]; lia | lia | lia | lia].
  rewrite Z.shiftr_shiftr by lia. f_equal; [f_equal; lia | lia].
Qed.

(** The code of the magnitude [ix]. *)
Definition magnitude_code (ix : Z) : Z :=
  if 15 <? ix then let '(ix, iexp) := alaw_segment 11 ix 1 in i16 (i16 (ix - 16) + u8 (Z.shiftl iexp 4)) else ix.

Lemma magnitude_step ix :
  0 <= ix < 2048 -> exists k m, is_step k m /\ m * 2 ^ k <= ix < (m + 1) * 2 ^ k /\ magnitude_code ix = alaw_code k m.
Proof.
  intros Hix. unfold magnitude_code. destruct (Z.ltb_spec 15 ix) as [Hl | Hl].
  - assert (Hj : exists j, (j <= 6)%nat /\ 16 * 2 ^ Z.of_nat j <= ix < 32 * 2 ^ Z.of_nat j).
    { destruct (Z.ltb_spec ix 32); [by exists 0%nat; lia |]. destruct (Z.ltb_spec ix 64); [by exists 1%nat; lia |].
      destruct (Z.ltb_spec ix 128); [by exists 2%nat; lia |]. destruct (Z.ltb_spec ix 256); [by exists 3%nat; lia |].
      destruct (Z.ltb_spec ix 512); [by exists 4%nat; lia |]. destruct (Z.ltb_spec ix 1024); [by exists 5%nat; lia |]. by exists 6%nat; lia. }
    destruct Hj as (j & Hj & Hr). rewrite (segment_steps j) by lia. rewrite Z.shiftr_div_pow2 by lia.
    set (k := Z.of_nat j) in *. set (m := ix / 2 ^ k). assert (Hp : 0 < 2 ^ k) by lia.
    assert (Hm : m * 2 ^ k <= ix < (m + 1) * 2 ^ k).
    { unfold m. pose proof (Z.mul_div_le ix (2 ^ k) Hp). pose proof (Z.mul_succ_div_gt ix (2 ^ k) Hp). lia. }
    assert (Hmr : 16 <= m < 32) by (unfold m; split; [apply Z.div_le_lower_bound | apply Z.div_lt_upper_bound]; lia).
    exists k, m. split; [unfold is_step; lia |]. split; [done |].
    assert (u8 (Z.shiftl (1 + k) 4) = 16 * (k + 1)) as -> by (rewrite Z.shiftl_mul_pow2 by lia; change (2 ^ 4) with 16; rewrite u8_id; unfold is_byte; lia).
    rewrite (i16_id (m - 16)), i16_id by (unfold is_i16; lia). unfold alaw_code. destruct (Z.ltb_spec m 16); lia.
  - exists 0, ix. split; [unfold is_step; lia |]. split; [change (2 ^ 0) with 1; lia |]. unfold alaw_code. destruct (Z.ltb_spec ix 16); [done | lia].
Qed.

Lemma alaw_code_byte k m : is_step k m -> 0 <= alaw_code k m < 128.
Proof. intros Hs. unfold is_step in Hs. unfold alaw_code. destruct (Z.ltb_spec m 16); lia. Qed.

(** A sample comes back as the level of its step, a negative one as its mirror
    image. *)
Lemma alaw_value s :
  is_i16 s -> exists k m, is_step k m /\ in_step k m (if s <? 0 then - s - 1 else s) /\
    AlawToLinear (LinearToAlaw s) = (if s <? 0 then - alaw_level k m else alaw_level k m).
Proof.
  intros Hs. rewrite LinearToAlaw_raw by done. unfold is_i16 in Hs. unfold rawLinear2Alaw. cbv zeta.
  set (x := if s <? 0 then - s - 1 else s). assert (Hx : 0 <= x < 32768) by (unfold x; destruct (Z.ltb_spec s 0); lia).
  assert (Ex : (if s <? 0 then Z.shiftr (Z.lnot s) 4 else Z.shiftr s 4) = x / 16).
  { unfold x. rewrite !Z.shiftr_div_pow2 by lia. destruct (s <? 0); [| done]. unfold Z.lnot. f_equal; lia. }
  rewrite Ex. fold (magnitude_code (x / 16)).
  assert (Hd : 0 <= x / 16 < 2048) by (split; [apply Z.div_pos | apply Z.div_lt_upper_bound]; lia).
  destruct (magnitude_step _ Hd) as (k & m & Hst & Hr & ->). exists k, m. split; [done |].
  assert (Hp : 0 < 2 ^ k) by (apply Z.pow_pos_nonneg; unfold is_step in Hst; lia).
  pose proof (Z.mul_div_le x 16 ltac:(lia)). pose proof (Z.mul_succ_div_gt x 16 ltac:(lia)).
  split; [unfold in_step; lia |]. rewrite <- code_level by done. f_equal. f_equal.
  pose proof (alaw_code_byte k m Hst). apply u8_id. destruct (s <? 0); [unfold is_byte; lia |].
  apply byte_range, lor_range; lia.
Qed.

Lemma level_middle k m x : is_step k m -> in_step k m x -> 0 <= x /\ Z.abs (alaw_level k m - x) <= 8 * 2 ^ k /\ Z.abs (alaw_level k m - (x + 1)) <= 8 * 2 ^ k /\
  8 * 2 ^ k <= Z.max 8 (x / 32) /\ 0 < alaw_level k m.
Proof.
  intros Hs Hx. unfold in_step, alaw_level in *. assert (Hp : 0 < 2 ^ k) by (apply Z.pow_pos_nonneg; unfold is_step in Hs; lia).
  assert (Hm : 0 <= m) by (unfold is_step in Hs; lia). split_and!; [nia | nia | nia | | nia].
  destruct Hs as [[-> _] | [_ Hm16]]; [change (2 ^ 0) with 1; lia |]. transitivity (x / 32); [| lia]. apply Z.div_le_lower_bound; nia.
Qed.

(** The steps are in order. *)
Lemma level_mono k m k' m' x x' :
  is_step k m -> is_step k' m' -> in_step k m x -> in_step k' m' x' -> x <= x' -> alaw_level k m <= alaw_level k' m'.
Proof.
  intros Hs Hs' Hx Hx' Hle. unfold in_step, alaw_level in *.
  assert (Hk : 0 <= k <= 6 /\ 0 <= m < 32 /\ (0 < k -> 16 <= m)) by (unfold is_step in Hs; lia).
  assert (Hk' : 0 <= k' <= 6 /\ 0 <= m' < 32 /\ (0 < k' -> 16 <= m')) by (unfold is_step in Hs'; lia).
  clear Hs Hs'. assert (Hp : 0 < 2 ^ k) by (apply Z.pow_pos_nonneg; lia). assert (Hp' : 0 < 2 ^ k') by (apply Z.pow_pos_nonneg; lia).
  destruct (Z.lt_trichotomy k k') as [Hlt | [-> | Hgt]].
  - assert (E : 2 ^ k' = 2 ^ k * 2 ^ (k' - k)) by (rewrite <- Z.pow_add_r by lia; f_equal; lia).
    assert (2 <= 2 ^ (k' - k)) by (replace (k' - k) with (Z.succ (k' - k - 1)) by lia; rewrite Z.pow_succ_r by lia; pose proof (Z.pow_pos_nonneg 2 (k' - k - 1)); lia).
    rewrite E. nia.
  - assert (m <= m') by nia. nia.
  - assert (E : 2 ^ k = 2 ^ k' * 2 ^ (k - k')) by (rewrite <- Z.pow_add_r by lia; f_equal; lia).
    assert (2 <= 2 ^ (k - k')) by (replace (k - k') with (Z.succ (k - k' - 1)) by lia; rewrite Z.pow_succ_r by lia; pose proof (Z.pow_pos_nonneg 2 (k - k' - 1)); lia).
    exfalso. rewrite E in Hx. nia.
Qed.

(** A-law keeps a sample up to its precision and keeps the order of samples.
    What comes back for a 16-bit sample differs from it by at most eight, or by
    at most one 32nd of it; and a louder sample never comes back as a quieter
    one. *)
Theorem alaw_quantises s t :
  is_i16 s -> is_i16 t ->
  Z.abs (AlawToLinear (LinearToAlaw s) - s) <= Z.max 8 (Z.abs s / 32) /\
  (s <= t -> AlawToLinear (LinearToAlaw s) <= AlawToLinear (LinearToAlaw t)).
Proof.
  intros Hs Ht. destruct (alaw_value s Hs) as (k & m & Hst & Hr & ->). destruct (alaw_value t Ht) as (k' & m' & Hst' & Hr' & ->).
  destruct (level_middle _ _ _ Hst Hr) as (P1 & P2 & P3 & P4 & P5). destruct (level_middle _ _ _ Hst' Hr') as (_ & _ & _ & _ & P5').
  revert Hr Hr' P1 P2 P3 P4. destruct (Z.ltb_spec s 0), (Z.ltb_spec t 0); intros Hr Hr' P1 P2 P3 P4; split.
  1, 3: rewrite (Z.abs_neq s) by lia; replace (- s - 1 + 1) with (- s) in P3 by lia;
    assert ((- s - 1) / 32 <= (- s) / 32) by (apply Z.div_le_mono; lia); lia.
  3, 5: rewrite (Z.abs_eq s) by lia; lia.
  all: intros Hle; try lia.
  - assert (alaw_level k' m' <= alaw_level k m); [| lia]. apply (level_mono _ _ _ _ (- t - 1) (- s - 1)); [done .. | lia].
  - by apply (level_mono _ _ _ _ s t).
Qed.

Lemma alaw_quantises_witness : AlawToLinear (LinearToAlaw (-32768)) = -32256 /\ AlawToLinear (LinearToAlaw (-32768)) <= AlawToLinear (LinearToAlaw 32767).
Proof.
  destruct (alaw_quantises (-32768) 32767) as [_ Hm]; [by_eval | by_eval |]. split; [vm_compute; reflexivity | apply Hm; discriminate].
Defined.
