(* ===== verification/NrlFrame.v ===== *)
(** * NRL packets (internal/nrl/protocol.go, internal/nrl/dmr.go, and the codec of
    internal/hytera/nrl_bridge.go)

    Datagrams of the NRL network: a header of 48 bytes with a length, a source
    identifier, a counter and callsigns, and A-law audio behind it.  The package
    nrl and the Hytera bridge each have an encoder and a decoder of their own.
    The end of the file holds the DMR packets the package nrl makes of audio. *)

From S2P Require Import Prelude Packet Strings Text LinkControl Bptc VoiceBurst Rptc.

(** The case mapping of Unicode beyond ASCII. *)
Class Unicode := {
  (** [strings.ToUpper] of a text that is not ASCII *)
  upper_runes : list Z -> list Z;
  (** [strings.EqualFold] of two texts that are not both ASCII *)
  fold_runes : list Z -> list Z -> bool
}.

Definition is_ascii_text (l : list Z) : bool := forallb (fun c => c <? 128) l.
Definition upper_ascii (c : Z) : Z := if (97 <=? c) && (c <=? 122) then c - 32 else c.

Definition ToUpper `{Unicode} (l : list Z) : list Z := if is_ascii_text l then upper_ascii <$> l else upper_runes l.
Definition EqualFold `{Unicode} (l k : list Z) : bool :=
  if is_ascii_text l && is_ascii_text k then bool_decide (upper_ascii <$> l = upper_ascii <$> k) else fold_runes l k.

(** [strings.TrimRight(s, "\x00\r ")] *)
Definition trim_right (l : list Z) : list Z := reverse (strip [[0]; [13]; [32]] (reverse l)).

(** Cut to six bytes, or filled up with blanks. *)
Definition six_bytes (cs : list Z) : list Z := take 6 cs ++ replicate (6 - length cs) 32.

(** ** The package nrl *)

Definition headerLen : nat := 48.
Definition packetTypeVoice : Z := 1.
Definition packetTypePing : Z := 2.
Definition devModelDMR : Z := 200.

Record DeviceConfig := mkDevice {
  dev_SourceKey : string;
  dev_Name : string;
  dev_Callsign : string;
  dev_DMRID : Z;
  dev_ServerAddr : string;
  dev_ServerPort : Z;
  dev_LocalUDPPort : Z;
  dev_SSID : Z;
  dev_Slot : Z;
  dev_TargetTG : Z;
  dev_ColorCode : Z
}.

Definition equal (c other : DeviceConfig) : bool :=
  bool_decide (dev_SourceKey c = dev_SourceKey other) && bool_decide (dev_Name c = dev_Name other) && bool_decide (dev_Callsign c = dev_Callsign other)
  && (dev_DMRID c =? dev_DMRID other) && bool_decide (dev_ServerAddr c = dev_ServerAddr other) && (dev_ServerPort c =? dev_ServerPort other)
  && (dev_LocalUDPPort c =? dev_LocalUDPPort other) && (dev_SSID c =? dev_SSID other) && (dev_Slot c =? dev_Slot other)
  && (dev_TargetTG c =? dev_TargetTG other) && (dev_ColorCode c =? dev_ColorCode other).

(** It compares every field. *)
Lemma config_equal_spec c other : equal c other = true <-> c = other.
Proof.
  unfold equal. rewrite !andb_true_iff, !bool_decide_eq_true, !Z.eqb_eq. destruct c, other; cbn. split; [intuition congruence |]. intros [= -> -> -> -> -> -> -> -> -> -> ->]. tauto.
Qed.

Record packet := mkNrlPacket {
  nrl_Type : Z;
  nrl_DMRID : Z;
  nrl_Count : Z;
  nrl_Callsign : list Z;
  nrl_SSID : Z;
  nrl_OriginalCallsign : list Z;
  nrl_OriginalSSID : Z;
  nrl_OriginalIP : list Z;
  nrl_Data : list Z
}.

Inductive NrlError := ErrShortNrl | ErrNrlSignature.

Definition nrl_signature : list Z := str_bytes "NRL2".

(** The length of the datagram to read: the field, or all of it when the field
    cannot be right. *)
Definition nrl_total (data : list Z) : nat :=
  let total := Z.to_nat (get_be16 (data.[4]) (data.[5])) in
  let total := if (total <? headerLen)%nat || (length data <? total)%nat then length data else total in
  let voice := (data.[20] =? packetTypeVoice) || (data.[20] =? 9) in
  if voice && (headerLen <? length data)%nat && ((total =? headerLen)%nat || (total =? length data - headerLen)%nat) then length data else total.

Definition decodePacket (data : list Z) : packet + NrlError :=
  if (length data <? headerLen)%nat then inr ErrShortNrl
  else if negb (bool_decide (take 4 data = nrl_signature)) then inr ErrNrlSignature
  else
    let total := nrl_total data in
    let original := (data.[20] =? 9) || (data.[31] =? devModelDMR) in
    inl (mkNrlPacket (data.[20]) (get_be24 (data.[6]) (data.[7]) (data.[8])) (get_be16 (data.[22]) (data.[23]))
      (trim_right (slice 24 30 data)) (data.[30])
      (if original then trim_right (slice 32 38 data) else []) (if original then data.[38] else 0)
      (if original then slice 39 43 data else [])
      (if (headerLen <? total)%nat then slice headerLen total data else [])).

Section encoders.
Context `{Unicode}.

Definition normalizeCallsign (callsign : string) : list Z := six_bytes (ToUpper (TrimSpace (str_bytes callsign))).

(** [localIP.To4()] is four bytes, or nothing. *)
Definition encodeVoicePacket (cfg : DeviceConfig) (count srcDMRID : Z) (srcCallsign : string) (payload localIP4 : list Z) : list Z :=
  nrl_signature ++ put_be16 (Z.of_nat (headerLen + length payload))
  ++ [u8 (Z.shiftr srcDMRID 16); u8 (Z.shiftr srcDMRID 8); u8 srcDMRID] ++ replicate 11 0
  ++ [packetTypeVoice; 1] ++ put_be16 count ++ normalizeCallsign (dev_Callsign cfg) ++ [dev_SSID cfg; devModelDMR]
  ++ normalizeCallsign srcCallsign ++ [dev_SSID cfg] ++ take 4 (localIP4 ++ replicate 4 0) ++ replicate 5 0 ++ payload.

Definition encodeHeartbeatPacket (cfg : DeviceConfig) (count : Z) : list Z :=
  nrl_signature ++ put_be16 (Z.of_nat headerLen) ++ replicate 14 0
  ++ [packetTypePing; 1] ++ put_be16 count ++ normalizeCallsign (dev_Callsign cfg) ++ [dev_SSID cfg; devModelDMR] ++ replicate 16 0.

End encoders.

(** ** The bridge of the Hytera server *)

Definition nrlHeaderLen : nat := 48.

Record NRLPeerConfig := mkNRLPeer {
  ServerAddr : string;
  ServerPort : Z;
  peer_SSID : Z;
  peer_Callsign : string;
  peer_DMRID : Z;
  HyteraVoicePort : Z
}.

Record nrlPacket := mkNRL21 { n21_Type : Z; n21_DMRID : Z; n21_Callsign : list Z; n21_SSID : Z; n21_Data : list Z }.

Definition bytesToUint24 (b : list Z) : Z := if (length b <? 3)%nat then 0 else get_be24 (b.[0]) (b.[1]) (b.[2]).

Definition decodeNRL21Packet (data : list Z) : nrlPacket + NrlError :=
  if (length data <? nrlHeaderLen)%nat then inr ErrShortNrl
  else if negb (bool_decide (take 4 data = nrl_signature)) then inr ErrNrlSignature
  else
    let total := Nat.min (Z.to_nat (get_be16 (data.[4]) (data.[5]))) (length data) in
    inl (mkNRL21 (data.[20]) (bytesToUint24 (slice 6 9 data)) (trim_right (slice 24 30 data)) (data.[30])
      (if (nrlHeaderLen <? total)%nat then slice nrlHeaderLen total data else [])).

Section encoder21.
Context `{Unicode}.

Definition normalizeNRLCallsign (callsign : string) : list Z :=
  let cs := ToUpper (TrimSpace (str_bytes callsign)) in
  six_bytes (if bool_decide (cs = []) then str_bytes "HYTNRL" else cs).

Definition encodeNRL21Packet (cfg : NRLPeerConfig) (packetType : Z) (payload : list Z) (count : Z) : list Z :=
  nrl_signature ++ put_be16 (Z.of_nat (nrlHeaderLen + length payload))
  ++ [u8 (Z.shiftr (peer_DMRID cfg) 16); u8 (Z.shiftr (peer_DMRID cfg) 8); u8 (peer_DMRID cfg)] ++ replicate 11 0
  ++ [packetType; 0x01] ++ put_be16 count ++ normalizeNRLCallsign (peer_Callsign cfg)
  ++ [if peer_SSID cfg =? 0 then 50 else peer_SSID cfg; 0x32] ++ replicate 16 0 ++ payload.

End encoder21.

(** ** DMR packets *)

(** [randomStreamID], of the number [rand.Int31] gave. *)
Definition randomStreamID (v : Z) : Z := if v =? 0 then 1 else v.

Definition stream_packet (srcID dstID slot streamID seq frameType dtype : Z) (data : list Z) : Packet :=
  mkPacket (str_bytes "DMRD") (Z.land seq 0xFF) srcID dstID 0 (slot =? 2) true frameType dtype streamID data.

Definition control_packet (dataType srcID dstID slot colorCode streamID seq : Z) : Packet :=
  stream_packet srcID dstID slot streamID seq 2 dataType
    (BuildLCDataBurst (BuildStandardLCBytesForDataType srcID dstID true 0x20 dataType) dataType colorCode).

Definition newHeaderPacket : Z -> Z -> Z -> Z -> Z -> Z -> Packet := control_packet DataTypeVoiceLCHeader.
Definition newTerminatorPacket : Z -> Z -> Z -> Z -> Z -> Z -> Packet := control_packet DataTypeTerminatorWithLC.

Definition newVoicePacket (srcID dstID slot colorCode streamID seq voiceSeq : Z) (ambe0 ambe1 ambe2 : list Z) : Packet :=
  stream_packet srcID dstID slot streamID seq (if voiceSeq =? 0 then 1 else 0) voiceSeq
    (AssembleVoiceBurst ambe0 ambe1 ambe2 voiceSeq srcID dstID colorCode).

(** ** Callsigns *)

(** A callsign that fits its field. *)
Definition callsign_ok (cs : string) : Prop := text_ok (str_bytes cs) /\ (length (str_bytes cs) <= 6)%nat.

Definition upper (cs : string) : list Z := upper_ascii <$> str_bytes cs.

Lemma upper_text l : text_ok l -> text_ok (upper_ascii <$> l).
Proof.
  intros [Hp Hh Hl]. assert (Hne : forall c, c <> 32 -> upper_ascii c <> 32).
  { intros c Hc. unfold upper_ascii. destruct (Z.leb_spec 97 c), (Z.leb_spec c 122); cbn; lia. }
  split.
  - apply Forall_fmap. eapply Forall_impl; [exact Hp |]. intros c Hc. cbn in Hc. unfold compose, upper_ascii. destruct (Z.leb_spec 97 c), (Z.leb_spec c 122); cbn; lia.
  - destruct l as [| c l]; [done |]. cbn. intros [= E]. apply (Hne c); [intros ->; by apply Hh | done].
  - rewrite fmap_last. destruct (last l) as [c |]; [| done]. cbn. intros [= E]. apply (Hne c); [intros ->; by apply Hl | done].
Qed.

Lemma ascii_text l : text_ok l -> is_ascii_text l = true.
Proof.
  intros [Hp _ _]. unfold is_ascii_text. apply forallb_forall. intros c Hc. apply list_elem_of_In in Hc.
  rewrite Forall_forall in Hp. specialize (Hp c Hc). cbn in Hp. apply Z.ltb_lt. lia.
Qed.

Lemma six_bytes_length cs : length (six_bytes cs) = 6%nat.
Proof. unfold six_bytes. rewrite length_app, length_take, length_replicate. lia. Qed.

Lemma trim_right_padded l n : text_ok l -> trim_right (l ++ replicate n 32) = l.
Proof.
  intros Hl. assert (Hp := text_reverse _ Hl). unfold trim_right. rewrite reverse_app, reverse_replicate.
  rewrite strip_run by (intros; unfold is_prefix; cbn; by rewrite take_0).
  rewrite strip_stop; [apply reverse_involutive |]. intros c Hc. pose proof (text_head_print _ _ Hp Hc).
  repeat (apply Forall_cons_2; [eexists _, _; split; [reflexivity | lia] |]); apply Forall_nil_2.
Qed.

Lemma six_bytes_trim l : text_ok l -> (length l <= 6)%nat -> trim_right (six_bytes l) = l.
Proof. intros Hl Hn. unfold six_bytes. rewrite take_ge by done. by apply trim_right_padded. Qed.

Section roundtrip.
Context `{Unicode}.

Lemma normalized cs : callsign_ok cs -> trim_right (normalizeCallsign cs) = upper cs.
Proof.
  intros [Ht Hn]. unfold normalizeCallsign, ToUpper. rewrite trim_text, ascii_text by done.
  apply six_bytes_trim; [by apply upper_text | unfold upper; by rewrite length_fmap].
Qed.

Lemma normalized21 cs : callsign_ok cs -> cs <> "" -> trim_right (normalizeNRLCallsign cs) = upper cs.
Proof.
  intros [Ht Hn] Hne. unfold normalizeNRLCallsign, ToUpper. rewrite trim_text, ascii_text by done. cbv zeta.
  rewrite bool_decide_false.
  - apply six_bytes_trim; [by apply upper_text | unfold upper; by rewrite length_fmap].
  - intros E. apply fmap_nil_inv in E. apply Hne. rewrite <- (bytes_str_bytes cs), E. done.
Qed.

(** *** Packets *)

Lemma header_at h payload i : (i < length h)%nat -> (h ++ payload).[i] = h.[i].
Proof. intros Hi. by apply byte_at_app_l. Qed.

Lemma header_slice h payload a b : (b <= length h)%nat -> slice a b (h ++ payload) = slice a b h.
Proof.
  intros Hb. unfold slice. destruct (decide (a <= length h)%nat) as [Ha | Ha].
  - rewrite drop_app_le by done. apply take_app_le. rewrite length_drop. lia.
  - replace (b - a)%nat with 0%nat by lia. by rewrite !take_0.
Qed.

Lemma payload_slice h payload : slice (length h) (length h + length payload) (h ++ payload) = payload.
Proof. unfold slice. rewrite drop_app_length. apply take_ge. lia. Qed.

Lemma payload_or_nil h payload :
  (if (length h <? length h + length payload)%nat then slice (length h) (length h + length payload) (h ++ payload) else []) = payload.
Proof. rewrite payload_slice. destruct payload; [| by destruct (Nat.ltb_spec (length h) (length h + length (z :: payload))); [| cbn in *; lia]]. by destruct (_ <? _)%nat. Qed.

Lemma length_field n : Z.of_nat n < 65536 -> Z.to_nat (get_be16 (u8 (Z.shiftr (Z.of_nat n) 8)) (u8 (Z.of_nat n))) = n.
Proof. intros Hn. rewrite get_put_be16 by lia. lia. Qed.

(** NRL packets are read back as they were written.  A voice packet with the
    callsigns of device and speaker comes back with the same source, counter,
    station number, address and audio and with the callsigns in capitals; a
    packet of the Hytera bridge with the same type, source and audio, the
    station number 50 in place of 0. *)
Theorem nrl_packets_roundtrip cfg peer count src cs payload ip typ :
  Z.of_nat (length payload) + 48 < 65536 -> is_u24 src -> 0 <= count < 65536 -> length ip = 4%nat ->
  callsign_ok (dev_Callsign cfg) -> callsign_ok cs -> callsign_ok (peer_Callsign peer) -> peer_Callsign peer <> "" -> is_u24 (peer_DMRID peer) ->
  decodePacket (encodeVoicePacket cfg count src cs payload ip) =
    inl (mkNrlPacket packetTypeVoice src count (upper (dev_Callsign cfg)) (dev_SSID cfg) (upper cs) (dev_SSID cfg) ip payload) /\
  decodeNRL21Packet (encodeNRL21Packet peer typ payload count) =
    inl (mkNRL21 typ (peer_DMRID peer) (upper (peer_Callsign peer)) (if peer_SSID peer =? 0 then 50 else peer_SSID peer) payload).
Proof.
  intros Hp Hs Hc Hi Hd Hcs Hq Hq0 Hid. pose proof (normalized _ Hd) as E1. pose proof (normalized _ Hcs) as E2. pose proof (normalized21 _ Hq Hq0) as E3.
  pose proof (six_bytes_length (ToUpper (TrimSpace (str_bytes (dev_Callsign cfg))))) as L1. fold (normalizeCallsign (dev_Callsign cfg)) in L1.
  pose proof (six_bytes_length (ToUpper (TrimSpace (str_bytes cs)))) as L2. fold (normalizeCallsign cs) in L2.
  assert (L3 : length (normalizeNRLCallsign (peer_Callsign peer)) = 6%nat) by apply six_bytes_length.
  unfold encodeVoicePacket, encodeNRL21Packet. rewrite !app_assoc.
  set (c1 := normalizeCallsign (dev_Callsign cfg)) in *. set (c2 := normalizeCallsign cs) in *. set (c3 := normalizeNRLCallsign (peer_Callsign peer)) in *.
  clearbody c1 c2 c3.
  do 6 (destruct c1 as [| ? c1]; [discriminate L1 |]). destruct c1; [| discriminate L1].
  do 6 (destruct c2 as [| ? c2]; [discriminate L2 |]). destruct c2; [| discriminate L2].
  do 6 (destruct c3 as [| ? c3]; [discriminate L3 |]). destruct c3; [| discriminate L3].
  do 4 (destruct ip as [| ? ip]; [discriminate Hi |]). destruct ip; [| discriminate Hi].
  split.
  - match goal with |- decodePacket (?x ++ payload) = _ => set (h := x) end. assert (Lh : length h = 48%nat) by reflexivity.
    unfold decodePacket, nrl_total. rewrite length_app, Lh.
    rewrite !header_at by (rewrite Lh; lia). rewrite !(header_slice h) by (rewrite Lh; lia).
    assert (Et : Z.to_nat (get_be16 (h.[4]) (h.[5])) = (48 + length payload)%nat) by (apply (length_field (48 + length payload)); lia).
    rewrite Et.
    destruct (Nat.ltb_spec (48 + length payload) 48); [lia |]. destruct (Nat.ltb_spec (48 + length payload) headerLen); [unfold headerLen in *; lia |].
    rewrite Nat.ltb_irrefl. cbn [orb]. change (h.[20]) with 1. cbn [Z.eqb Pos.eqb orb andb]. change (packetTypeVoice) with 1. cbn [Z.eqb Pos.eqb orb andb].
    set (quirk := (headerLen <? 48 + length payload)%nat && _).
    assert (Eq : (if quirk then 48 + length payload else 48 + length payload)%nat = (48 + length payload)%nat) by (by destruct quirk). rewrite Eq.
    rewrite bool_decide_true by reflexivity. cbn [negb]. change (h.[31] =? devModelDMR) with true. cbv iota.
    change headerLen with 48%nat. rewrite <- Lh, payload_or_nil. f_equal. f_equal; try done; [exact (get_put_be24 _ Hs) | exact (get_put_be16 _ Hc)].
  - match goal with |- decodeNRL21Packet (?x ++ payload) = _ => set (h := x) end. assert (Lh : length h = 48%nat) by reflexivity.
    unfold decodeNRL21Packet. rewrite length_app, Lh.
    rewrite !header_at by (rewrite Lh; lia). rewrite !(header_slice h) by (rewrite Lh; lia).
    assert (Et : Z.to_nat (get_be16 (h.[4]) (h.[5])) = (48 + length payload)%nat) by (apply (length_field (48 + length payload)); lia).
    rewrite Et, Nat.min_id. destruct (Nat.ltb_spec (48 + length payload) nrlHeaderLen); [unfold nrlHeaderLen in *; lia |].
    rewrite bool_decide_true by reflexivity. cbn [negb].
    change nrlHeaderLen with 48%nat. rewrite <- Lh, payload_or_nil. f_equal. f_equal; try done. exact (get_put_be24 _ Hid).
Qed.

Definition sample_device : DeviceConfig := mkDevice "nrl-virtual:1" "test" "bg4abc" 4600001 "nrl.example" 60050 0 7 1 46001 1.
Definition sample_peer : NRLPeerConfig := mkNRLPeer "nrl.example" 60050 0 "BH1XYZ" 4600002 0.

End roundtrip.

#[export] Instance ascii_only : Unicode := {| upper_runes l := l; fold_runes l k := bool_decide (l = k) |}.

Lemma nrl_packets_roundtrip_witness :
  decodePacket (encodeVoicePacket sample_device 5 4600001 "BG4ABC" (replicate 500 0xD5) [10; 0; 0; 1]) =
    inl (mkNrlPacket 1 4600001 5 (str_bytes "BG4ABC") 7 (str_bytes "BG4ABC") 7 [10; 0; 0; 1] (replicate 500 0xD5)).
Proof.
  destruct (nrl_packets_roundtrip sample_device sample_peer 5 4600001 "BG4ABC" (replicate 500 0xD5) [10; 0; 0; 1] 1) as [E _];
    [by_eval | by_eval | by_eval | reflexivity | split; [by_eval | by_eval] | split; [by_eval | by_eval] | split; [by_eval | by_eval] | discriminate | by_eval |].
  exact E.
Defined.
