(* ===== verification/NrlBridge.v ===== *)
(** * The NRL bridge (internal/nrl/bridge.go)

    A session connects a talkgroup with an NRL server.  DMR voice is decoded by
    the vocoder and sent to the server as A-law in packets of 500 bytes; A-law
    from the server is encoded and becomes DMR streams with a header, voice
    bursts and, when the speaker has been silent, a terminator.  Every method
    runs under the lock of its session and is one step.  The packets a session
    writes or hands on are kept with the key of the stream they belong to. *)

From S2P Require Import Prelude Packet Strings Text LinkControl Bptc VoiceBurst IpscFrame G711 NrlFrame.

Definition voicePayloadSize : nat := 500.
Definition streamIdleTimeout : Z := 1500 * millisecond.

(** The vocoder is a third-party library; an instance of it has a state. *)
Class Md380 := {
  Vocoder : Type;
  Voc_Decode : Vocoder -> list Z -> Vocoder * option (list Z);
  Voc_Encode : Vocoder -> list Z -> Vocoder * option (list Z);
  PCMFrameSize : nat;
  AMBEFrameSize : nat
}.
Class Md380Laws `{Md380} : Prop := {
  pcm_frame_size : PCMFrameSize = 160%nat;
  ambe_frame_size : AMBEFrameSize = 9%nat;
  decode_length v frame : match snd (Voc_Decode v frame) with Some pcm => length pcm = PCMFrameSize /\ Forall is_i16 pcm | None => True end
}.

(** ** State *)

Section bridge.
Context `{Unicode} `{Md380} `{Dmrgo} `{AmbeTables}.

Record dmrDecodeState := mkDecode { dd_vocoder : Vocoder; dd_lastSeen : time; dd_srcDMRID : Z; dd_buffer : list Z }.

Record nrlEncodeState := mkEncode {
  ne_vocoder : Vocoder;
  ne_streamID : Z;
  ne_sequence : Z;
  ne_voiceSeq : Z;
  ne_pcmBuffer : list Z;
  ne_ambeFrames : list (list Z);
  ne_lastSeen : time;
  ne_headerSent : bool;
  ne_srcID : Z
}.

Record session := mkSession {
  se_cfg : DeviceConfig;
  se_count : Z;
  se_decoders : gmap string dmrDecodeState;
  se_encoders : gmap string nrlEncodeState;
  se_closed : bool;
  (** the read loop and the heartbeat loop are running *)
  se_reading : bool;
  se_beating : bool;
  (** datagrams; a heartbeat belongs to no stream *)
  se_wire : list (option string * list Z);
  se_packets : list (string * Packet)
}.

Definition with_count s n := mkSession (se_cfg s) n (se_decoders s) (se_encoders s) (se_closed s) (se_reading s) (se_beating s) (se_wire s) (se_packets s).
Definition with_decoders s m := mkSession (se_cfg s) (se_count s) m (se_encoders s) (se_closed s) (se_reading s) (se_beating s) (se_wire s) (se_packets s).
Definition with_encoders s m := mkSession (se_cfg s) (se_count s) (se_decoders s) m (se_closed s) (se_reading s) (se_beating s) (se_wire s) (se_packets s).
Definition with_nwire s w := mkSession (se_cfg s) (se_count s) (se_decoders s) (se_encoders s) (se_closed s) (se_reading s) (se_beating s) w (se_packets s).
Definition with_npackets s p := mkSession (se_cfg s) (se_count s) (se_decoders s) (se_encoders s) (se_closed s) (se_reading s) (se_beating s) (se_wire s) p.
Definition with_ncfg s cfg := mkSession cfg (se_count s) (se_decoders s) (se_encoders s) (se_closed s) (se_reading s) (se_beating s) (se_wire s) (se_packets s).
Definition with_loops s closed reading beating :=
  mkSession (se_cfg s) (se_count s) (se_decoders s) (se_encoders s) closed reading beating (se_wire s) (se_packets s).

(** What the session is told by its surroundings: whether a datagram can be
    written, the local address, the callsign of a subscriber, the subscriber an
    NRL caller stands for, and the order of an iteration. *)
Class NrlNet := {
  conn_write : list Z -> bool;
  local_ip : list Z;
  resolveCallsign : Z -> string;
  resolveInboundDMRID : Z -> list Z -> Z;
  dec_iter : gmap string dmrDecodeState -> list (string * dmrDecodeState);
  enc_iter : gmap string nrlEncodeState -> list (string * nrlEncodeState)
}.
Class NrlNetLaws `{NrlNet} : Prop := {
  dec_iter_elements m : dec_iter m ≡ₚ map_to_list m;
  enc_iter_elements m : enc_iter m ≡ₚ map_to_list m
}.

Context `{NrlNet}.

(** The zero time is further back than any timeout. *)
Definition stream_idle (now lastSeen : time) : bool := time_is_zero lastSeen || (streamIdleTimeout <? time_sub now lastSeen).

(** ** DMR to NRL *)

Definition blank (s : string) : bool := bool_decide (TrimSpace (str_bytes s) = []).

(** [None] in the result is an error. *)
Definition writeVoicePacketLocked (s : session) (key : string) (srcDMRID : Z) (payload : list Z) : session * bool :=
  if blank (dev_Callsign (se_cfg s)) then (s, false)
  else if srcDMRID =? 0 then (s, false)
  else
    let originalCallsign := resolveCallsign srcDMRID in
    if blank originalCallsign then (s, false)
    else
      let packet := encodeVoicePacket (se_cfg s) (se_count s) srcDMRID originalCallsign payload local_ip in
      let s := with_count s (u16 (se_count s + 1)) in
      if conn_write packet then (with_nwire s (se_wire s ++ [(Some key, packet)]), true) else (s, false).

(** [ambeFrameBytes] *)
Definition ambeFrameBytes (decodedBits : list Z) : list Z :=
  let bits := EncodeAMBEFrame decodedBits in
  foldl (fun out i => if bits.[i] =? 1 then <[(i / 8)%nat := Z.lor (out.[i / 8]) (Z.shiftl 1 (7 - Z.of_nat (i mod 8)))]> out else out)
    (replicate AMBEFrameSize 0) (seq 0 (length bits)).

Definition flushDecoderLocked (s : session) (key : string) : session :=
  match se_decoders s !! key with
  | None => s
  | Some state =>
      let s :=
        if (0 <? length (dd_buffer state))%nat then
          let buffer := dd_buffer state ++ replicate (voicePayloadSize - length (dd_buffer state)) 0xD5 in
          fst (writeVoicePacketLocked s key (dd_srcDMRID state) (take voicePayloadSize buffer))
        else s in
      with_decoders s (delete key (se_decoders s))
  end.

Definition emitTerminatorLocked (s : session) (key : string) (state : nrlEncodeState) : session :=
  let cfg := se_cfg s in
  if negb (ne_headerSent state) || (dev_TargetTG cfg =? 0) then s
  else with_npackets s (se_packets s ++
    [(key, newTerminatorPacket (ne_srcID state) (dev_TargetTG cfg) (dev_Slot cfg) (dev_ColorCode cfg) (ne_streamID state) (ne_sequence state))]).

Definition expire_decoder (now : time) (s : session) (e : string * dmrDecodeState) : session :=
  if streamIdleTimeout <? time_sub now (dd_lastSeen (snd e)) then flushDecoderLocked s (fst e) else s.

Definition expire_encoder (now : time) (s : session) (e : string * nrlEncodeState) : session :=
  if time_sub now (ne_lastSeen (snd e)) <=? streamIdleTimeout then s
  else let s := emitTerminatorLocked s (fst e) (snd e) in with_encoders s (delete (fst e) (se_encoders s)).

Definition expireLocked (s : session) (now : time) : session :=
  let s := foldl (expire_decoder now) s (dec_iter (se_decoders s)) in
  foldl (expire_encoder now) s (enc_iter (se_encoders s)).

(** Send the full payloads of a buffer; what is left, and whether all writes
    succeeded.  A round for each byte is enough. *)
Fixpoint write_payloads (fuel : nat) (s : session) (key : string) (src : Z) (buffer : list Z) : session * list Z * bool :=
  match fuel with
  | O => (s, buffer, true)
  | S fuel =>
      if (length buffer <? voicePayloadSize)%nat then (s, buffer, true)
      else
        let '(s, ok) := writeVoicePacketLocked s key src (take voicePayloadSize buffer) in
        let buffer := drop voicePayloadSize buffer in
        if ok then write_payloads fuel s key src buffer else (s, buffer, false)
  end.

(** The vocoder's samples for the frames of a burst, as A-law. *)
Definition decode_frames (v : Vocoder) (frames : list (list Z)) : Vocoder * list Z :=
  foldl (fun '(v, out) frame =>
    let '(v, pcm) := Voc_Decode v (ambeFrameBytes frame) in
    (v, out ++ match pcm with Some pcm => LinearToAlaw <$> pcm | None => [] end)) (v, []) frames.

Definition stream_key (pkt : Packet) : string := pretty (Src pkt) +:+ ":" +:+ pretty_bool (Slot pkt) +:+ ":" +:+ pretty (StreamID pkt).

(** [voc] is what [NewVocoder] gives, if it is called. *)
Definition handleDMRPacket (s : session) (pkt : Packet) (voc : option Vocoder) (now : time) : session * bool :=
  let key := stream_key pkt in
  if se_closed s then (s, false)
  else if (FrameType pkt =? 2) && (DTypeOrVSeq pkt =? 2) then (flushDecoderLocked s key, true)
  else if negb (FrameType pkt =? 0) && negb (FrameType pkt =? 1) then (expireLocked s now, false)
  else
    let burst := Burst_DecodeFromBytes Burst_zero (DMRData pkt) in
    if IsData burst then (expireLocked s now, false)
    else
      match (match se_decoders s !! key with Some st => Some (dd_vocoder st, dd_buffer st) | None => (fun v => (v, [])) <$> voc end) with
      | None => (s, false)
      | Some (v, buffer) =>
          let src := u32 (Src pkt) in
          let '(v, alaw) := decode_frames v (VoiceFrames burst) in
          let buffer := buffer ++ alaw in
          let '(s, buffer, ok) := write_payloads (length buffer) s key src buffer in
          let s := with_decoders s (<[key := mkDecode v now src buffer]> (se_decoders s)) in
          if ok then (expireLocked s now, true) else (s, false)
      end.

(** ** NRL to DMR *)

(** Encode the full frames of the buffer; three of them make a burst.  A round
    for each sample is enough. *)
Fixpoint encode_audio (fuel : nat) (cfg : DeviceConfig) (st : nrlEncodeState) : nrlEncodeState * list Packet :=
  match fuel with
  | O => (st, [])
  | S fuel =>
      if (length (ne_pcmBuffer st) <? PCMFrameSize)%nat then (st, [])
      else
        let framePCM := take PCMFrameSize (ne_pcmBuffer st) in
        let rest := drop PCMFrameSize (ne_pcmBuffer st) in
        let '(v, ambe) := Voc_Encode (ne_vocoder st) framePCM in
        let keep frames seq vseq := mkEncode v (ne_streamID st) seq vseq rest frames (ne_lastSeen st) (ne_headerSent st) (ne_srcID st) in
        match ambe with
        | None => encode_audio fuel cfg (keep (ne_ambeFrames st) (ne_sequence st) (ne_voiceSeq st))
        | Some ambe =>
            let frames := ne_ambeFrames st ++ [ambe] in
            if (length frames <? 3)%nat then encode_audio fuel cfg (keep frames (ne_sequence st) (ne_voiceSeq st))
            else
              let pkt := newVoicePacket (ne_srcID st) (dev_TargetTG cfg) (dev_Slot cfg) (dev_ColorCode cfg) (ne_streamID st) (ne_sequence st)
                (ne_voiceSeq st) (nth 0 frames []) (nth 1 frames []) (nth 2 frames []) in
              let '(st, pkts) := encode_audio fuel cfg (keep [] (u32 (ne_sequence st + 1)) ((ne_voiceSeq st + 1) mod 6)) in
              (st, pkt :: pkts)
        end
  end.

Definition fresh_stream (v : Vocoder) (streamID : Z) (lastSeen : time) (srcID : Z) : nrlEncodeState :=
  mkEncode v streamID 0 0 [] [] lastSeen false srcID.

(** The audio of one packet for a stream. *)
Definition encode_packet (cfg : DeviceConfig) (st : nrlEncodeState) (data : list Z) (now : time) : nrlEncodeState * list Packet :=
  let header := newHeaderPacket (ne_srcID st) (dev_TargetTG cfg) (dev_Slot cfg) (dev_ColorCode cfg) (ne_streamID st) (ne_sequence st) in
  let first := if ne_headerSent st then [] else [header] in
  let st := mkEncode (ne_vocoder st) (ne_streamID st) (if ne_headerSent st then ne_sequence st else u32 (ne_sequence st + 1)) (ne_voiceSeq st)
    (ne_pcmBuffer st ++ (AlawToLinear <$> data)) (ne_ambeFrames st) now true (ne_srcID st) in
  let '(st, pkts) := encode_audio (length (ne_pcmBuffer st)) cfg st in
  (st, first ++ pkts).

Definition caller_key (srcID : Z) (pkt : packet) : string :=
  let original := TrimSpace (nrl_OriginalCallsign pkt) in
  let identity := if bool_decide (original = []) then TrimSpace (nrl_Callsign pkt) else original in
  pretty srcID +:+ ":" +:+ bytes_str (ToUpper identity) +:+ ":" +:+ pretty (nrl_SSID pkt).

(** [voc] and the numbers [rnd] are what [NewVocoder] and [rand.Int31] give, if
    they are called. *)
Definition handleNRLPacket (s : session) (pkt : packet) (voc : option Vocoder) (rnd : Z * Z) (now : time) : session :=
  let srcID := resolveInboundDMRID (nrl_DMRID pkt) (nrl_OriginalCallsign pkt) in
  let srcID := if srcID =? 0 then nrl_DMRID pkt else srcID in
  if srcID =? 0 then s
  else if dev_TargetTG (se_cfg s) =? 0 then s
  else if se_closed s then s
  else
    let key := caller_key srcID pkt in
    let s := expireLocked s now in
    match (match se_encoders s !! key with Some st => Some st | None => (fun v => fresh_stream v (randomStreamID (fst rnd)) 0 srcID) <$> voc end) with
    | None => s
    | Some st =>
        let st := if stream_idle now (ne_lastSeen st) then fresh_stream (ne_vocoder st) (randomStreamID (snd rnd)) (ne_lastSeen st) (ne_srcID st) else st in
        let '(st, pkts) := encode_packet (se_cfg s) st (nrl_Data pkt) now in
        let s := with_encoders s (<[key := st]> (se_encoders s)) in
        with_npackets s (se_packets s ++ (pair key <$> pkts))
    end.

(** ** Loops *)

(** A heartbeat, and whether the loop goes on. *)
Definition send_heartbeat (s : session) : session * bool :=
  if se_closed s then (s, false)
  else if blank (dev_Callsign (se_cfg s)) then (s, true)
  else
    let packet := encodeHeartbeatPacket (se_cfg s) (se_count s) in
    let s := with_count s (u16 (se_count s + 1)) in
    if conn_write packet then (with_nwire s (se_wire s ++ [(None, packet)]), true) else (s, false).

(** A datagram of the server; whether it says that the server is there. *)
Definition read_datagram (s : session) (data : list Z) (voc : option Vocoder) (rnd : Z * Z) (now : time) : session * bool :=
  if negb (se_reading s) then (s, false)
  else
    match decodePacket data with
    | inr _ => (s, false)
    | inl pkt =>
        if negb (nrl_Type pkt =? 1) && negb (nrl_Type pkt =? 9) then (s, true) else (handleNRLPacket s pkt voc rnd now, true)
    end.

Definition session_close (s : session) : session := with_loops s true false false.

(** ** Sessions *)

Record Bridge := mkBridge {
  br_sessions : gmap string session;
  (** reported statuses and endpoints *)
  br_status : list (string * string * bool);
  br_endpoints : list (string * string * Z)
}.

Definition NewBridge : Bridge := mkBridge ∅ [] [].
Definition with_nsessions b m := mkBridge m (br_status b) (br_endpoints b).
Definition publishStatus (b : Bridge) (key status : string) (online : bool) : Bridge :=
  mkBridge (br_sessions b) (br_status b ++ [(key, status, online)]) (br_endpoints b).
Definition publishEndpoint (b : Bridge) (key ip : string) (port : Z) : Bridge :=
  mkBridge (br_sessions b) (br_status b) (br_endpoints b ++ [(key, ip, port)]).

(** [resolved] is the configuration of the device now, [dialed] the local
    address of the new socket. *)
Definition ensureSession (b : Bridge) (sourceKey : string) (resolved : option DeviceConfig) (dialed : option (string * Z)) : Bridge * option session :=
  match br_sessions b !! sourceKey with
  | Some sess =>
      let sess := match resolved with Some cfg => with_ncfg sess cfg | None => sess end in
      (with_nsessions b (<[sourceKey := sess]> (br_sessions b)), Some sess)
  | None =>
      match resolved, dialed with
      | Some cfg, Some (ip, port) =>
          let sess := mkSession cfg 0 ∅ ∅ false true true [] [] in
          let b := with_nsessions b (<[sourceKey := sess]> (br_sessions b)) in
          let b := publishStatus b sourceKey "connecting" false in
          (publishEndpoint b sourceKey ip port, Some sess)
      | _, _ => (b, None)
      end
  end.

Definition HandleDMRPacket (b : Bridge) (targetKey : string) (pkt : Packet) (resolved : option DeviceConfig) (dialed : option (string * Z))
    (voc : option Vocoder) (now : time) : Bridge * bool :=
  if decide (targetKey = "") then (b, false)
  else
    match ensureSession b targetKey resolved dialed with
    | (b, None) => (b, false)
    | (b, Some sess) =>
        let '(sess, ok) := handleDMRPacket sess pkt voc now in
        (with_nsessions b (<[targetKey := sess]> (br_sessions b)), ok)
    end.

Definition Activate (b : Bridge) (sourceKey : string) (resolved : option DeviceConfig) (dialed : option (string * Z)) : Bridge * bool :=
  if decide (sourceKey = "") then (b, true)
  else let '(b, sess) := ensureSession b sourceKey resolved dialed in (b, bool_decide (is_Some sess)).

Definition Deactivate (b : Bridge) (sourceKey : string) : Bridge :=
  match br_sessions b !! sourceKey with
  | Some sess =>
      if decide (sourceKey = "") then b
      else publishStatus (with_nsessions b (delete sourceKey (br_sessions b))) (dev_SourceKey (se_cfg sess)) "offline" false
  | None => b
  end.

Definition IsActive (b : Bridge) (sourceKey : string) : bool :=
  if decide (sourceKey = "") then false else bool_decide (is_Some (br_sessions b !! sourceKey)).

(** [order] is the order of the iteration over the sessions. *)
Definition Bridge_Close (b : Bridge) (order : gmap string session -> list (string * session)) : Bridge :=
  foldl (fun b e => publishStatus b (dev_SourceKey (se_cfg (snd e))) "offline" false) (with_nsessions b ∅) (order (br_sessions b)).

Definition MatchesResolvedConfig (b : Bridge) (sourceKey : string) (resolved : option DeviceConfig) : bool :=
  if decide (sourceKey = "") then false
  else
    match resolved, br_sessions b !! sourceKey with
    | Some cfg, Some sess => equal (se_cfg sess) cfg
    | _, _ => false
    end.

(** An activated device has one session with the configuration it has now. *)
Lemma activated_matches b key cfg dialed : key <> "" -> is_Some (br_sessions b !! key) \/ is_Some dialed ->
  let '(b', ok) := Activate b key (Some cfg) dialed in
  ok = true /\ IsActive b' key = true /\ MatchesResolvedConfig b' key (Some cfg) = true /\ IsActive (Deactivate b' key) key = false.
Proof.
  intros Hk Hd. unfold Activate, ensureSession. rewrite decide_False by done.
  assert (Hs : forall b' sess, br_sessions b' !! key = Some sess -> se_cfg sess = cfg ->
    IsActive b' key = true /\ MatchesResolvedConfig b' key (Some cfg) = true /\ IsActive (Deactivate b' key) key = false).
  { intros b' sess E Ec. unfold IsActive, MatchesResolvedConfig, Deactivate. rewrite E, !decide_False by done. cbn [br_sessions publishStatus with_nsessions].
    rewrite lookup_delete_eq, bool_decide_true, bool_decide_false by (done || by intros []). split_and!; [done | by apply config_equal_spec | done]. }
  destruct (br_sessions b !! key) as [sess |] eqn:E.
  - split; [done |]. eapply Hs; [apply lookup_insert_eq | done].
  - destruct Hd as [Hd | [[ip port] ->]]; [by destruct Hd |]. split; [done |]. eapply Hs; [apply lookup_insert_eq | done].
Qed.

(** ** Events *)

Inductive nrl_event :=
| EvDMR (pkt : Packet) (voc : option Vocoder) (now : time)
| EvNRL (pkt : packet) (voc : option Vocoder) (rnd : Z * Z) (now : time)
| EvHeartbeat.

Definition nrl_step (s : session) (e : nrl_event) : session :=
  match e with
  | EvDMR pkt voc now => fst (handleDMRPacket s pkt voc now)
  | EvNRL pkt voc rnd now => handleNRLPacket s pkt voc rnd now
  | EvHeartbeat => fst (send_heartbeat s)
  end.

Definition nrl_run (s : session) (evs : list nrl_event) : session := foldl nrl_step s evs.

End bridge.
