(* ===== verification/NrlCalls.v ===== *)
(** * Calls through the NRL bridge

    What becomes of the audio of a call: the DMR stream made of a talk spurt on
    the NRL side, and the NRL packets made of a DMR stream, each compared with a
    reference that takes the audio as a whole. *)

From S2P Require Import Prelude Packet Strings Text LinkControl Bptc VoiceBurst IpscFrame G711 NrlFrame NrlBridge.

(** ** Pieces of equal length *)

(** The pieces of [n] elements of a list, and what is left over; a round for
    each element is enough. *)
Fixpoint pieces_fuel {A} (fuel n : nat) (l : list A) : list (list A) :=
  match fuel with
  | O => []
  | S fuel => if (length l <? n)%nat then [] else take n l :: pieces_fuel fuel n (drop n l)
  end.
Definition pieces {A} (n : nat) (l : list A) : list (list A) := pieces_fuel (length l) n l.
Fixpoint rest_fuel {A} (fuel n : nat) (l : list A) : list A :=
  match fuel with
  | O => l
  | S fuel => if (length l <? n)%nat then l else rest_fuel fuel n (drop n l)
  end.
Definition rest_of {A} (n : nat) (l : list A) : list A := rest_fuel (length l) n l.

Section pieces.
Context {A : Type} (n : nat).
Hypothesis n_pos : (0 < n)%nat.
Implicit Types l : list A.

Lemma pieces_enough fuel l : (length l <= fuel)%nat -> pieces_fuel fuel n l = pieces n l /\ rest_fuel fuel n l = rest_of n l.
Proof.
  unfold pieces, rest_of. remember (length l) as m eqn:Em. assert (Hm : (length l <= m)%nat) by lia. clear Em. revert m fuel l Hm.
  induction m as [| m IH]; intros fuel l Hm Hf.
  - destruct l; [| cbn in Hm; lia]. destruct fuel; [done |]. cbn [pieces_fuel rest_fuel length]. destruct (Nat.ltb_spec 0 n); [done | lia].
  - destruct fuel as [| fuel]; [lia |]. cbn [pieces_fuel rest_fuel]. destruct (Nat.ltb_spec (length l) n); [done |].
    destruct (IH fuel (drop n l)) as [-> ->]; [rewrite length_drop; lia | lia | done].
Qed.

Lemma pieces_short l : (length l < n)%nat -> pieces n l = [] /\ rest_of n l = l.
Proof. intros Hl. unfold pieces, rest_of. destruct l as [| a l]; [done |]. cbn [pieces_fuel rest_fuel length]. destruct (Nat.ltb_spec (S (length l)) n); [done | cbn in Hl; lia]. Qed.

Lemma pieces_step l : (n <= length l)%nat -> pieces n l = take n l :: pieces n (drop n l) /\ rest_of n l = rest_of n (drop n l).
Proof.
  intros Hl. destruct l as [| a l]; [cbn in Hl; lia |]. unfold pieces at 1, rest_of at 1. cbn [length pieces_fuel rest_fuel].
  destruct (Nat.ltb_spec (S (length l)) n); [cbn in Hl; lia |].
  destruct (pieces_enough (length l) (drop n (a :: l))) as [-> ->]; [rewrite length_drop; cbn [length]; lia | done].
Qed.

(** Induction on a list piece by piece. *)
Lemma pieces_ind (P : list A -> Prop) :
  (forall l, (length l < n)%nat -> P l) -> (forall l, (n <= length l)%nat -> P (drop n l) -> P l) -> forall l, P l.
Proof.
  intros H0 H1 l. remember (length l) as m eqn:Em. assert (Hm : (length l <= m)%nat) by lia. clear Em. revert l Hm.
  induction m as [| m IH]; intros l Hm; [apply H0; lia |].
  destruct (Nat.ltb_spec (length l) n); [by apply H0 |]. apply H1; [done |]. apply IH. rewrite length_drop. lia.
Qed.

Lemma pieces_app l k : pieces n (l ++ k) = pieces n l ++ pieces n (rest_of n l ++ k) /\ rest_of n (l ++ k) = rest_of n (rest_of n l ++ k).
Proof.
  induction l as [l Hl | l Hl IH] using pieces_ind.
  - by destruct (pieces_short l Hl) as [-> ->].
  - destruct (pieces_step l Hl) as [-> ->]. destruct (pieces_step (l ++ k)) as [-> ->]; [rewrite length_app; lia |].
    rewrite take_app_le, drop_app_le by done. destruct IH as [-> ->]. done.
Qed.

Lemma pieces_concat l : concat (pieces n l) ++ rest_of n l = l /\ Forall (fun p => length p = n) (pieces n l) /\ (length (rest_of n l) < n)%nat.
Proof.
  induction l as [l Hl | l Hl (IH1 & IH2 & IH3)] using pieces_ind.
  - by destruct (pieces_short l Hl) as [-> ->].
  - destruct (pieces_step l Hl) as [-> ->]. cbn [concat]. rewrite <- app_assoc, IH1, take_drop. split; [done |]. split; [| done].
    constructor; [rewrite length_take; lia | done].
Qed.

End pieces.

Section calls.
Context `{Unicode} `{Md380} `{!Md380Laws} `{Dmrgo} `{AmbeTables} `{!NrlNet} `{!NrlNetLaws}.

(** ** A talk spurt as a whole *)

(** The frames the vocoder makes of pieces of audio; one that it cannot encode
    is left out. *)
Fixpoint encoded (v : Vocoder) (frames : list (list Z)) : Vocoder * list (list Z) :=
  match frames with
  | [] => (v, [])
  | frame :: frames =>
      let '(v, ambe) := Voc_Encode v frame in
      let '(v, out) := encoded v frames in
      (v, match ambe with Some ambe => ambe :: out | None => out end)
  end.

(** Voice packets of groups of three frames, numbered on. *)
Fixpoint bursts (cfg : DeviceConfig) (srcID streamID seq vseq : Z) (groups : list (list (list Z))) : list Packet :=
  match groups with
  | [] => []
  | g :: groups =>
      newVoicePacket srcID (dev_TargetTG cfg) (dev_Slot cfg) (dev_ColorCode cfg) streamID seq vseq (nth 0 g []) (nth 1 g []) (nth 2 g [])
      :: bursts cfg srcID streamID (u32 (seq + 1)) ((vseq + 1) mod 6) groups
  end.

(** The DMR stream of a talk spurt with the samples [pcm]: a header, and a voice
    packet for every three frames of the vocoder. *)
Definition reference_stream (cfg : DeviceConfig) (v : Vocoder) (srcID streamID : Z) (pcm : list Z) : list Packet :=
  newHeaderPacket srcID (dev_TargetTG cfg) (dev_Slot cfg) (dev_ColorCode cfg) streamID 0
  :: bursts cfg srcID streamID 1 0 (pieces 3 (snd (encoded v (pieces PCMFrameSize pcm)))).

Lemma pcm_pos : (0 < PCMFrameSize)%nat.
Proof. rewrite pcm_frame_size. lia. Qed.

Lemma encoded_app v l k :
  encoded v (l ++ k) = let '(v1, o1) := encoded v l in let '(v2, o2) := encoded v1 k in (v2, o1 ++ o2).
Proof.
  revert v. induction l as [| f l IH]; intros v; cbn [encoded app]; [by destruct (encoded v k) |].
  destruct (Voc_Encode v f) as [v1 a]. rewrite IH. destruct (encoded v1 l) as [v2 o2]. destruct (encoded v2 k) as [v3 o3]. by destruct a.
Qed.

Definition next_seq (n : nat) (seq : Z) : Z := Nat.iter n (fun q => u32 (q + 1)) seq.
Definition next_vseq (n : nat) (vseq : Z) : Z := Nat.iter n (fun q => (q + 1) mod 6) vseq.

Lemma next_seq_add n m seq : next_seq (n + m) seq = next_seq m (next_seq n seq).
Proof. unfold next_seq. rewrite Nat.add_comm. by rewrite Nat.iter_add. Qed.
Lemma next_vseq_add n m v : next_vseq (n + m) v = next_vseq m (next_vseq n v).
Proof. unfold next_vseq. rewrite Nat.add_comm. by rewrite Nat.iter_add. Qed.

Lemma bursts_app cfg src id seq vseq l k :
  bursts cfg src id seq vseq (l ++ k) = bursts cfg src id seq vseq l ++ bursts cfg src id (next_seq (length l) seq) (next_vseq (length l) vseq) k.
Proof.
  revert seq vseq. induction l as [| g l IH]; intros seq vseq; [done |]. cbn [app bursts length]. rewrite IH.
  change (S (length l)) with (1 + length l)%nat. by rewrite next_seq_add, next_vseq_add.
Qed.

(** The loop of [handleNRLPacket] computes the reference. *)
Lemma encode_audio_spec cfg buf : forall fuel v id seq vseq ambe last sent src, (length buf <= fuel)%nat -> (length ambe < 3)%nat ->
  encode_audio fuel cfg (mkEncode v id seq vseq buf ambe last sent src) =
    let '(v', out) := encoded v (pieces PCMFrameSize buf) in
    let groups := pieces 3 (ambe ++ out) in
    (mkEncode v' id (next_seq (length groups) seq) (next_vseq (length groups) vseq) (rest_of PCMFrameSize buf) (rest_of 3 (ambe ++ out)) last sent src,
     bursts cfg src id seq vseq groups).
Proof.
  pose proof pcm_pos as Hpos. induction buf as [buf Hl | buf Hl IH] using (pieces_ind PCMFrameSize Hpos); intros fuel v id seq vseq ambe lst sent src Hf Ha.
  - destruct (pieces_short PCMFrameSize Hpos buf Hl) as [-> ->]. cbn [encoded]. rewrite app_nil_r.
    destruct (pieces_short 3 ltac:(lia) ambe Ha) as [-> ->]. cbn.
    destruct fuel; [done |]. cbn [encode_audio ne_pcmBuffer]. by destruct (Nat.ltb_spec (length buf) PCMFrameSize); [| lia].
  - destruct (pieces_step PCMFrameSize Hpos buf Hl) as [-> ->]. destruct fuel as [| fuel]; [lia |].
    cbn [encode_audio ne_pcmBuffer ne_vocoder ne_streamID ne_lastSeen ne_headerSent ne_srcID ne_ambeFrames ne_sequence ne_voiceSeq encoded].
    destruct (Nat.ltb_spec (length buf) PCMFrameSize); [lia |].
    destruct (Voc_Encode v (take PCMFrameSize buf)) as [v1 a].
    assert (Hf' : (length (drop PCMFrameSize buf) <= fuel)%nat) by (rewrite length_drop; lia).
    destruct a as [a |]; cycle 1.
    { rewrite IH by done. by destruct (encoded v1 _) as [v2 out]. }
    destruct (Nat.ltb_spec (length (ambe ++ [a])) 3) as [Hle3 | Hle3]; rewrite length_app in Hle3; cbn [length] in Hle3.
    { rewrite IH by (done || (rewrite length_app; cbn; lia)). destruct (encoded v1 _) as [v2 out]. by rewrite <- app_assoc. }
    rewrite IH by (done || cbn; lia). destruct (encoded v1 _) as [v2 out]. cbn [app].
    destruct (pieces_step 3 ltac:(lia) (ambe ++ a :: out)) as [-> ->]; [rewrite length_app; cbn; lia |].
    assert (Hlen : length ambe = 2%nat) by lia. destruct ambe as [| a1 [| a2 [|]]]; try done.
    cbn [length app take drop]. set (groups := pieces 3 (drop 0 out)). change (S (length groups)) with (1 + length groups)%nat.
    by rewrite next_seq_add, next_vseq_add.
Qed.

(** ** The stream of a caller *)

(** What the session remembers of a talk spurt with the samples [pcm]. *)
Definition stream_state (v : Vocoder) (streamID srcID : Z) (pcm : list Z) (lastSeen : time) : nrlEncodeState :=
  let '(v', out) := encoded v (pieces PCMFrameSize pcm) in
  let n := length (pieces 3 out) in
  mkEncode v' streamID (next_seq n 1) (next_vseq n 0) (rest_of PCMFrameSize pcm) (rest_of 3 out) lastSeen true srcID.

Lemma first_packet cfg v id src last data now :
  encode_packet cfg (fresh_stream v id last src) data now =
    (stream_state v id src (AlawToLinear <$> data) now, reference_stream cfg v src id (AlawToLinear <$> data)).
Proof.
  unfold encode_packet, fresh_stream, stream_state, reference_stream. cbn [ne_headerSent ne_srcID ne_streamID ne_sequence ne_vocoder ne_voiceSeq ne_pcmBuffer ne_ambeFrames app].
  rewrite encode_audio_spec by (done || cbn; lia). destruct (encoded v _) as [v' out]. done.
Qed.

Lemma later_packet cfg v id src pcm last data now :
  let '(st, pkts) := encode_packet cfg (stream_state v id src pcm last) data now in
  st = stream_state v id src (pcm ++ (AlawToLinear <$> data)) now /\
  reference_stream cfg v src id (pcm ++ (AlawToLinear <$> data)) = reference_stream cfg v src id pcm ++ pkts.
Proof.
  pose proof pcm_pos as Hpos. unfold encode_packet, stream_state, reference_stream. set (d := AlawToLinear <$> data).
  destruct (pieces_app PCMFrameSize Hpos pcm d) as [E1 E2]. rewrite E1, E2, encoded_app.
  destruct (encoded v (pieces PCMFrameSize pcm)) as [v1 o1] eqn:Ev1.
  cbn [ne_headerSent ne_srcID ne_streamID ne_sequence ne_vocoder ne_voiceSeq ne_pcmBuffer ne_ambeFrames].
  destruct (pieces_concat 3 ltac:(lia) o1) as (_ & _ & Hrest).
  rewrite encode_audio_spec by (done || lia).
  destruct (encoded v1 (pieces PCMFrameSize (rest_of PCMFrameSize pcm ++ d))) as [v2 o2].
  destruct (pieces_app 3 ltac:(lia) o1 o2) as [E3 E4]. cbn [snd]. rewrite E3, E4, length_app, next_seq_add, next_vseq_add, bursts_app.
  done.
Qed.

(** Nothing but decoders, the counter and the wire changes. *)
Definition dmr_side (s s' : session) : Prop :=
  se_cfg s' = se_cfg s /\ se_encoders s' = se_encoders s /\ se_closed s' = se_closed s /\ se_packets s' = se_packets s.

Lemma dmr_side_trans s1 s2 s3 : dmr_side s1 s2 -> dmr_side s2 s3 -> dmr_side s1 s3.
Proof. unfold dmr_side. intuition congruence. Qed.

Lemma write_side s key src payload : dmr_side s (fst (writeVoicePacketLocked s key src payload)).
Proof. unfold writeVoicePacketLocked. repeat case_match; done. Qed.

Lemma flush_side s key : dmr_side s (flushDecoderLocked s key).
Proof.
  unfold flushDecoderLocked. destruct (se_decoders s !! key) as [st |]; [| done]. cbv zeta. destruct (_ <? _)%nat; [| done].
  apply (write_side s key (dd_srcDMRID st) _).
Qed.

Lemma payloads_side fuel s key src buffer : dmr_side s (fst (fst (write_payloads fuel s key src buffer))).
Proof.
  revert s buffer. induction fuel as [| fuel IH]; intros s buffer; [done |]. cbn [write_payloads]. destruct (_ <? _)%nat; [done |].
  pose proof (write_side s key src (take voicePayloadSize buffer)) as Hw. destruct (writeVoicePacketLocked s key src _) as [s1 ok]. cbn [fst] in Hw.
  destruct ok; [| done]. eapply dmr_side_trans; [exact Hw | apply IH].
Qed.

(** The packets handed on for a caller. *)
Definition of_key {A} (key : string) (l : list (string * A)) : list A := omap (fun '(k, x) => if decide (k = key) then Some x else None) l.

Lemma of_key_app {A} key (l k : list (string * A)) : of_key key (l ++ k) = of_key key l ++ of_key key k.
Proof. apply omap_app. Qed.

Lemma of_key_own {A} key (l : list A) : of_key key (pair key <$> l) = l.
Proof. induction l as [| a l IH]; [done |]. cbn. rewrite decide_True by done. f_equal. exact IH. Qed.

Lemma of_key_other {A} key k (l : list A) : k <> key -> of_key key (pair k <$> l) = [].
Proof. intros Hk. induction l as [| a l IH]; [done |]. cbn. by rewrite decide_False. Qed.

(** The caller is not silent for longer than the timeout. *)
Definition heard_recently (key : string) (now : time) (s : session) : Prop :=
  forall st, se_encoders s !! key = Some st -> time_sub now (ne_lastSeen st) <= streamIdleTimeout.

(** Nothing changes for caller [key]. *)
Definition same_caller (key : string) (s s' : session) : Prop :=
  se_cfg s' = se_cfg s /\ se_closed s' = se_closed s /\ se_encoders s' !! key = se_encoders s !! key /\
  of_key key (se_packets s') = of_key key (se_packets s).

Lemma same_caller_trans key s1 s2 s3 : same_caller key s1 s2 -> same_caller key s2 s3 -> same_caller key s1 s3.
Proof. unfold same_caller. intuition congruence. Qed.

Lemma dmr_side_caller key s s' : dmr_side s s' -> same_caller key s s'.
Proof. intros (E1 & E2 & E3 & E4). unfold same_caller. by rewrite E1, E2, E3, E4. Qed.

Lemma expire_caller key s now : heard_recently key now s -> same_caller key s (expireLocked s now).
Proof.
  intros Hh. unfold expireLocked. set (s1 := foldl _ s _).
  assert (H1s : dmr_side s s1).
  { apply (foldl_inv (fun s' => dmr_side s s')); [done |]. intros s' [k st] _ Hs. unfold expire_decoder. cbn [fst snd].
    destruct (_ <? _); [| exact Hs]. eapply dmr_side_trans; [exact Hs | apply flush_side]. }
  apply (foldl_inv (fun s' => same_caller key s s')); [by apply dmr_side_caller |].
  intros s' [k st] Hin Hs. unfold expire_encoder. cbn [fst snd]. destruct (Z.leb_spec (time_sub now (ne_lastSeen st)) streamIdleTimeout); [exact Hs |].
  assert (Hk : k <> key).
  { intros ->. rewrite enc_iter_elements, elem_of_map_to_list in Hin. destruct H1s as (_ & E & _). rewrite E in Hin. specialize (Hh st Hin). lia. }
  eapply same_caller_trans; [exact Hs |]. unfold emitTerminatorLocked. cbv zeta.
  destruct (_ || _); unfold same_caller; cbn [se_cfg se_closed se_encoders se_packets with_encoders with_npackets].
  - by rewrite lookup_delete_ne.
  - rewrite lookup_delete_ne by done. split_and!; [done | done | done |]. rewrite of_key_app. cbn. rewrite decide_False by done. by rewrite app_nil_r.
Qed.

(** ** Talk spurts *)

Definition caller (pkt : packet) : Z :=
  let srcID := resolveInboundDMRID (nrl_DMRID pkt) (nrl_OriginalCallsign pkt) in if srcID =? 0 then nrl_DMRID pkt else srcID.

(** The audio of caller [key] in an event. *)
Definition own_audio (key : string) (src : Z) (e : nrl_event) : option (list Z * time) :=
  match e with
  | EvNRL pkt _ _ now => if (caller pkt =? src) && bool_decide (caller_key src pkt = key) then Some (AlawToLinear <$> nrl_Data pkt, now) else None
  | _ => None
  end.
Definition samples (key : string) (src : Z) (evs : list nrl_event) : list Z := concat (omap (fun e => fst <$> own_audio key src e) evs).

Definition event_time (e : nrl_event) : option time := match e with EvDMR _ _ now | EvNRL _ _ _ now => Some now | EvHeartbeat => None end.

(** No event comes later than the timeout after the last audio of the caller,
    who has no other identifier. *)
Fixpoint on_air (key : string) (src : Z) (last : time) (evs : list nrl_event) : Prop :=
  match evs with
  | [] => True
  | e :: evs =>
      match event_time e with Some now => 0 < now /\ now - last <= streamIdleTimeout | None => True end /\
      match e with EvNRL pkt _ _ _ => caller_key (caller pkt) pkt = key -> caller pkt = src | _ => True end /\
      on_air key src (match own_audio key src e with Some (_, now) => now | None => last end) evs
  end.

Lemma heartbeat_side s : dmr_side s (fst (send_heartbeat s)).
Proof. unfold send_heartbeat. repeat case_match; done. Qed.

Lemma dmr_packet_caller key s pkt voc now : heard_recently key now s -> same_caller key s (fst (handleDMRPacket s pkt voc now)).
Proof.
  intros Hh. assert (He : forall s1, dmr_side s s1 -> same_caller key s (expireLocked s1 now)).
  { intros s1 Hs. eapply same_caller_trans; [by apply dmr_side_caller |]. apply expire_caller. unfold heard_recently. by destruct Hs as (_ & -> & _). }
  unfold handleDMRPacket. cbv zeta. destruct (se_closed s); [done |]. destruct (_ && _); [apply dmr_side_caller, flush_side |].
  destruct (_ && _); [by apply He |]. destruct (IsData _); [by apply He |].
  match goal with |- context [fst (match ?o with _ => _ end)] => destruct o as [[v buffer] |] end; [| done].
  destruct (decode_frames v _) as [v1 alaw].
  match goal with |- context [write_payloads ?f ?a ?b ?c ?d] => pose proof (payloads_side f a b c d) as Hp; destruct (write_payloads f a b c d) as [[s1 buf] ok] end.
  cbn [fst] in Hp. destruct ok; [by apply He | by apply dmr_side_caller].
Qed.

Lemma time_sub_le a b d : - 2 ^ 63 <= d < max_duration -> (time_sub a b <= d <-> a - b <= d).
Proof. intros Hd. pose proof (time_sub_gt a b d Hd). lia. Qed.

Lemma idle_sub a b : a - b <= streamIdleTimeout -> time_sub a b <= streamIdleTimeout.
Proof. intros Hab. apply time_sub_le; [unfold streamIdleTimeout, millisecond, max_duration; lia | exact Hab]. Qed.

(** Caller [key] of session [s] is sending, after [old] packets. *)
Definition sending (key : string) (cfg : DeviceConfig) (old : list Packet) (v : Vocoder) (id src : Z) (pcm : list Z) (last : time) (s : session) : Prop :=
  se_cfg s = cfg /\ se_closed s = false /\ se_encoders s !! key = Some (stream_state v id src pcm last) /\
  of_key key (se_packets s) = old ++ reference_stream cfg v src id pcm.

Lemma sending_caller key cfg old v id src pcm last s s' :
  same_caller key s s' -> sending key cfg old v id src pcm last s -> sending key cfg old v id src pcm last s'.
Proof. unfold same_caller, sending. intuition congruence. Qed.

Lemma stream_last v id src pcm last : ne_lastSeen (stream_state v id src pcm last) = last.
Proof. unfold stream_state. by destruct (encoded v _). Qed.

Lemma sending_heard key cfg old v id src pcm last s now :
  sending key cfg old v id src pcm last s -> now - last <= streamIdleTimeout -> heard_recently key now s.
Proof. intros (_ & _ & E & _) Hn st Hst. rewrite E in Hst. simplify_eq. rewrite stream_last. apply idle_sub, Hn. Qed.

(** A packet of another caller. *)
Lemma other_packet key s pkt voc rnd now : heard_recently key now s -> caller_key (caller pkt) pkt <> key -> same_caller key s (handleNRLPacket s pkt voc rnd now).
Proof.
  intros Hh Hk. unfold handleNRLPacket. cbv zeta. fold (caller pkt). destruct (_ =? 0); [done |]. destruct (_ =? 0); [done |]. destruct (se_closed s); [done |].
  pose proof (expire_caller key s now Hh) as He. set (s1 := expireLocked s now) in *.
  match goal with |- context [match ?o with Some _ => _ | None => s1 end] => destruct o as [st |] end; [| exact He].
  destruct (encode_packet _ _ _ _) as [st' pkts]. eapply same_caller_trans; [exact He |].
  unfold same_caller. cbn [se_cfg se_closed se_encoders se_packets with_encoders with_npackets].
  rewrite lookup_insert_ne by done. split_and!; [done | done | done |]. by rewrite of_key_app, of_key_other, app_nil_r.
Qed.

(** The first packet of a caller who has no stream. *)
Lemma start_sending s pkt v rnd now key src :
  se_closed s = false -> dev_TargetTG (se_cfg s) <> 0 -> caller pkt = src -> src <> 0 -> caller_key src pkt = key -> se_encoders s !! key = None ->
  sending key (se_cfg s) (of_key key (se_packets s)) v (randomStreamID (snd rnd)) src (AlawToLinear <$> nrl_Data pkt) now
    (handleNRLPacket s pkt (Some v) rnd now).
Proof.
  intros Hc Ht Hsrc Hsrc0 Hkey Hno. pose proof (expire_caller key s now) as He. destruct He as (E1 & E2 & E3 & E4); [intros st Hst; congruence |].
  unfold handleNRLPacket. cbv zeta. fold (caller pkt). rewrite Hsrc, (proj2 (Z.eqb_neq _ _) Hsrc0), (proj2 (Z.eqb_neq _ _) Ht), Hc, Hkey, E3, Hno. cbn [fmap option_fmap option_map].
  unfold stream_idle, time_is_zero. cbn [fresh_stream ne_lastSeen ne_vocoder ne_srcID]. cbn [Z.eqb orb]. rewrite E1, first_packet.
  unfold sending. cbn [se_cfg se_closed se_encoders se_packets with_encoders with_npackets].
  rewrite lookup_insert_eq, of_key_app, of_key_own, E1, E2, E4. done.
Qed.

(** The next packets of the caller. *)
Lemma keep_sending key cfg old v id src pcm last s pkt voc rnd now :
  sending key cfg old v id src pcm last s -> dev_TargetTG cfg <> 0 -> src <> 0 -> last <> 0 -> now - last <= streamIdleTimeout ->
  caller pkt = src -> caller_key src pkt = key ->
  sending key cfg old v id src (pcm ++ (AlawToLinear <$> nrl_Data pkt)) now (handleNRLPacket s pkt voc rnd now).
Proof.
  intros Hs Ht Hsrc0 Hl Hn Hsrc Hkey. pose proof (sending_heard _ _ _ _ _ _ _ _ _ _ Hs Hn) as Hh.
  pose proof (sending_caller _ _ _ _ _ _ _ _ _ _ (expire_caller key s now Hh) Hs) as (F1 & F2 & F3 & F4). destruct Hs as (E1 & E2 & E3 & E4).
  unfold handleNRLPacket. cbv zeta. fold (caller pkt). rewrite Hsrc, (proj2 (Z.eqb_neq _ _) Hsrc0), E1, (proj2 (Z.eqb_neq _ _) Ht), E2, Hkey, F3.
  assert (Hi : stream_idle now (ne_lastSeen (stream_state v id src pcm last)) = false).
  { unfold stream_idle, time_is_zero. rewrite stream_last, (proj2 (Z.eqb_neq _ _) Hl). cbn [orb]. apply Z.ltb_ge, idle_sub, Hn. }
  rewrite Hi, F1. pose proof (later_packet cfg v id src pcm last (nrl_Data pkt) now) as Hp.
  destruct (encode_packet _ _ _ _) as [st pkts]. destruct Hp as [-> Hp].
  unfold sending. cbn [se_cfg se_closed se_encoders se_packets with_encoders with_npackets].
  rewrite of_key_app, of_key_own, F4, Hp. split; [exact F1 |]. split; [exact F2 |]. split; [apply lookup_insert_eq |]. symmetry. apply app_assoc.
Qed.

Lemma own_audio_packet key src pkt voc rnd now : own_audio key src (EvNRL pkt voc rnd now) <> None <-> caller pkt = src /\ caller_key src pkt = key.
Proof.
  cbn [own_audio]. destruct (Z.eqb_spec (caller pkt) src); [| by split; [| intros []]]. cbn [andb]. case_bool_decide; [done |]. by split; [| intros []].
Qed.

Lemma sending_run key cfg old v id src pcm last s evs :
  sending key cfg old v id src pcm last s -> dev_TargetTG cfg <> 0 -> src <> 0 -> last <> 0 -> on_air key src last evs ->
  exists last', sending key cfg old v id src (pcm ++ samples key src evs) last' (nrl_run s evs).
Proof.
  revert s pcm last. induction evs as [| e evs IH]; intros s pcm lst Hs Ht Hsrc0 Hl Hon; [exists lst; by rewrite app_nil_r |].
  cbn [on_air] in Hon. destruct Hon as (Hnow & Hown & Hon). cbn [nrl_run foldl]. fold (nrl_run (nrl_step s e) evs).
  assert (Hpass : own_audio key src e = None -> same_caller key s (nrl_step s e) ->
    exists last', sending key cfg old v id src (pcm ++ samples key src (e :: evs)) last' (nrl_run (nrl_step s e) evs)).
  { intros Ho Hsame. rewrite Ho in Hon. unfold samples. cbn [omap list_omap]. rewrite Ho. cbn [fmap option_fmap option_map].
    apply (IH _ pcm lst); [by eapply sending_caller | done..]. }
  destruct e as [pkt voc now | pkt voc rnd now |]; cbn [nrl_step event_time] in *.
  - apply Hpass; [done |]. apply dmr_packet_caller. eapply sending_heard; [exact Hs | tauto].
  - destruct (decide (caller_key (caller pkt) pkt = key)) as [Hk | Hk].
    + pose proof (Hown Hk) as Hsrc. assert (Ho : own_audio key src (EvNRL pkt voc rnd now) = Some (AlawToLinear <$> nrl_Data pkt, now)).
      { cbn [own_audio]. rewrite (proj2 (Z.eqb_eq _ _) Hsrc), bool_decide_true by congruence. done. }
      rewrite Ho in Hon. unfold samples. cbn [omap list_omap]. rewrite Ho. cbn [fmap option_fmap option_map fst concat]. rewrite app_assoc.
      apply (IH _ (pcm ++ (AlawToLinear <$> nrl_Data pkt)) now); [| done | done | lia | done].
      apply (keep_sending key cfg old v id src pcm lst); try done; [tauto | congruence].
    + apply Hpass; [| apply other_packet; [eapply sending_heard; [exact Hs | tauto] | done]].
      destruct (own_audio key src _) eqn:Ho; [| done]. exfalso. assert (Hne : own_audio key src (EvNRL pkt voc rnd now) <> None) by congruence.
      apply own_audio_packet in Hne as [Hs1 Hs2]. apply Hk. by rewrite Hs1.
  - apply Hpass; [done | apply dmr_side_caller, heartbeat_side].
Qed.

(** C32: A talk spurt from NRL becomes one DMR stream.  From the first audio packet of
    a caller who has no stream, as long as the caller is not silent for 1.5
    seconds, and whatever DMR packets, packets of other callers and heartbeats
    come between, the packets handed on for the caller are those of the
    reference: a header with sequence number 0, and, for the audio of all the
    packets together, a voice burst for every three frames of the vocoder,
    numbered on from 1, with the voice sequence going round 0 to 5.  How the
    audio is cut into NRL packets makes no difference. *)
Theorem talk_spurt s pkt v rnd now evs key src :
  se_closed s = false -> dev_TargetTG (se_cfg s) <> 0 -> caller pkt = src -> src <> 0 -> caller_key src pkt = key -> se_encoders s !! key = None ->
  now <> 0 -> on_air key src now evs ->
  let first := EvNRL pkt (Some v) rnd now in
  of_key key (se_packets (nrl_run s (first :: evs))) =
    of_key key (se_packets s) ++ reference_stream (se_cfg s) v src (randomStreamID (snd rnd)) (samples key src (first :: evs)).
Proof.
  intros Hc Ht Hsrc Hsrc0 Hkey Hno Hn Hon. cbv zeta. cbn [nrl_run foldl nrl_step]. fold (nrl_run (handleNRLPacket s pkt (Some v) rnd now) evs).
  pose proof (start_sending s pkt v rnd now key src Hc Ht Hsrc Hsrc0 Hkey Hno) as Hs.
  destruct (sending_run _ _ _ _ _ _ _ _ _ evs Hs Ht Hsrc0 Hn Hon) as [last' (_ & _ & _ & ->)].
  unfold samples. cbn [omap list_omap own_audio]. rewrite (proj2 (Z.eqb_eq _ _) Hsrc), bool_decide_true by done. done.
Qed.

(** ** A DMR stream as a whole *)

(** The audio in the datagrams of stream [key]. *)
Definition payloads (key : string) (s : session) : list (list Z) :=
  omap (fun '(k, d) => if decide (k = Some key) then Some (drop headerLen d) else None) (se_wire s).

(** Nothing changes for stream [key]. *)
Definition same_stream (key : string) (s s' : session) : Prop :=
  se_cfg s' = se_cfg s /\ se_closed s' = se_closed s /\ se_decoders s' !! key = se_decoders s !! key /\ payloads key s' = payloads key s.

Lemma same_stream_trans key s1 s2 s3 : same_stream key s1 s2 -> same_stream key s2 s3 -> same_stream key s1 s3.
Proof. unfold same_stream. intuition congruence. Qed.

Lemma payloads_snoc key s k d :
  payloads key (with_nwire s (se_wire s ++ [(k, d)])) = payloads key s ++ (if decide (k = Some key) then [drop headerLen d] else []).
Proof. unfold payloads. cbn [se_wire with_nwire]. rewrite omap_app. cbn. by case_decide. Qed.

Lemma voice_packet_data cfg count src cs payload ip : drop headerLen (encodeVoicePacket cfg count src cs payload ip) = payload.
Proof.
  unfold encodeVoicePacket. rewrite !app_assoc. apply drop_app_length'.
  rewrite !length_app, !length_replicate, length_take, length_app, length_replicate. unfold normalizeCallsign. rewrite !six_bytes_length, Nat.min_l by lia. reflexivity.
Qed.

Lemma write_other key k s src payload : k <> key -> same_stream key s (fst (writeVoicePacketLocked s k src payload)).
Proof.
  intros Hk. unfold writeVoicePacketLocked. cbv zeta. destruct (blank _); [done |]. destruct (src =? 0); [done |]. destruct (blank _); [done |].
  destruct (conn_write _); [| done]. cbn [fst]. unfold same_stream. split_and!; [done | done | done |].
  rewrite payloads_snoc, decide_False by congruence. apply app_nil_r.
Qed.

Lemma flush_other key k s : k <> key -> same_stream key s (flushDecoderLocked s k).
Proof.
  intros Hk. unfold flushDecoderLocked. destruct (se_decoders s !! k) as [st |]; [| done]. cbv zeta.
  assert (Hd : forall s1, same_stream key s s1 -> same_stream key s (with_decoders s1 (delete k (se_decoders s1)))).
  { intros s1 (E1 & E2 & E3 & E4). unfold same_stream. cbn [se_cfg se_closed se_decoders with_decoders]. rewrite lookup_delete_ne by done. done. }
  apply Hd. destruct (_ <? _)%nat; [by apply write_other | done].
Qed.

Lemma write_payloads_other key k fuel s src buffer : k <> key -> same_stream key s (fst (fst (write_payloads fuel s k src buffer))).
Proof.
  intros Hk. revert s buffer. induction fuel as [| fuel IH]; intros s buffer; [done |]. cbn [write_payloads]. destruct (_ <? _)%nat; [done |].
  pose proof (write_other key k s src (take voicePayloadSize buffer) Hk) as Hw. destruct (writeVoicePacketLocked s k src _) as [s1 ok]. cbn [fst] in Hw.
  destruct ok; [| done]. eapply same_stream_trans; [exact Hw | apply IH].
Qed.

(** The stream is not silent for longer than the timeout. *)
Definition heard_stream (key : string) (now : time) (s : session) : Prop :=
  forall st, se_decoders s !! key = Some st -> time_sub now (dd_lastSeen st) <= streamIdleTimeout.

Lemma expire_stream key s now : heard_stream key now s -> same_stream key s (expireLocked s now).
Proof.
  intros Hh. unfold expireLocked. set (s1 := foldl _ s _).
  assert (H1s : same_stream key s s1).
  { apply (foldl_inv (fun s' => same_stream key s s')); [done |]. intros s' [k st] Hin Hs. unfold expire_decoder. cbn [fst snd].
    destruct (Z.ltb_spec streamIdleTimeout (time_sub now (dd_lastSeen st))) as [Hlt |]; [| exact Hs]. eapply same_stream_trans; [exact Hs |]. apply flush_other.
    intros ->. rewrite dec_iter_elements, elem_of_map_to_list in Hin. specialize (Hh st Hin). lia. }
  apply (foldl_inv (fun s' => same_stream key s s')); [exact H1s |]. intros s' [k st] _ Hs. unfold expire_encoder. cbn [fst snd].
  destruct (_ <=? _); [exact Hs |]. eapply same_stream_trans; [exact Hs |]. unfold emitTerminatorLocked. cbv zeta. by destruct (_ || _).
Qed.

(** The datagrams of source [src] can be written. *)
Record sendable (cfg : DeviceConfig) (src : Z) : Prop := {
  sendable_device : blank (dev_Callsign cfg) = false;
  sendable_source : src <> 0 /\ blank (resolveCallsign src) = false;
  sendable_conn d : conn_write d = true
}.

Lemma write_sendable s key src payload : sendable (se_cfg s) src ->
  exists s1, writeVoicePacketLocked s key src payload = (s1, true) /\ se_cfg s1 = se_cfg s /\ se_closed s1 = se_closed s /\ se_decoders s1 = se_decoders s /\
    payloads key s1 = payloads key s ++ [payload].
Proof.
  intros [Hd [Hs0 Hs] Hw]. unfold writeVoicePacketLocked. cbv zeta. rewrite Hd, (proj2 (Z.eqb_neq _ _) Hs0), Hs, Hw.
  eexists; split; [reflexivity |]. split_and!; [done | done | done |].
  rewrite payloads_snoc, decide_True by done. by rewrite voice_packet_data.
Qed.

Lemma payload_pos : (0 < voicePayloadSize)%nat.
Proof. unfold voicePayloadSize. lia. Qed.

Lemma write_payloads_sendable fuel s key src buffer : sendable (se_cfg s) src -> (length buffer <= fuel)%nat ->
  exists s1, write_payloads fuel s key src buffer = (s1, rest_of voicePayloadSize buffer, true) /\
    se_cfg s1 = se_cfg s /\ se_closed s1 = se_closed s /\ se_decoders s1 = se_decoders s /\ payloads key s1 = payloads key s ++ pieces voicePayloadSize buffer.
Proof.
  pose proof payload_pos as Hpos. revert fuel s. induction buffer as [buffer Hl | buffer Hl IH] using (pieces_ind voicePayloadSize Hpos); intros fuel s Hs Hf.
  - destruct (pieces_short voicePayloadSize Hpos buffer Hl) as [-> ->]. exists s. rewrite app_nil_r. split; [| done].
    destruct fuel; [done |]. cbn [write_payloads]. by destruct (Nat.ltb_spec (length buffer) voicePayloadSize); [| lia].
  - destruct (pieces_step voicePayloadSize Hpos buffer Hl) as [-> ->]. destruct fuel as [| fuel]; [lia |].
    cbn [write_payloads]. destruct (Nat.ltb_spec (length buffer) voicePayloadSize); [lia |].
    destruct (write_sendable s key src (take voicePayloadSize buffer) Hs) as (s1 & -> & E1 & E2 & E3 & E4).
    destruct (IH fuel s1) as (s2 & -> & F1 & F2 & F3 & F4); [by rewrite E1 | rewrite length_drop; lia |].
    exists s2. split; [done |]. rewrite F1, F2, F3, F4, E1, E2, E3, E4, <- app_assoc. done.
Qed.

Lemma decode_frames_from v out frames :
  foldl (fun '(v, out) frame => let '(v, pcm) := Voc_Decode v (ambeFrameBytes frame) in
      (v, out ++ match pcm with Some pcm => LinearToAlaw <$> pcm | None => [] end)) (v, out) frames
  = let '(v1, o1) := decode_frames v frames in (v1, out ++ o1).
Proof.
  unfold decode_frames. revert v out. induction frames as [| f frames IH]; intros v out; cbn [foldl]; [by rewrite app_nil_r |].
  destruct (Voc_Decode v _) as [v1 pcm]. rewrite IH. rewrite (IH v1 ([] ++ _)). destruct (foldl _ _ frames) as [v2 o2]. by rewrite <- app_assoc.
Qed.

Lemma decode_frames_app v l k :
  decode_frames v (l ++ k) = let '(v1, o1) := decode_frames v l in let '(v2, o2) := decode_frames v1 k in (v2, o1 ++ o2).
Proof. unfold decode_frames at 1. rewrite foldl_app. fold (decode_frames v l). destruct (decode_frames v l) as [v1 o1]. by rewrite decode_frames_from. Qed.

(** The vocoder frames of a packet, if it is a voice burst. *)
Definition voice_frames (pkt : Packet) : option (list (list Z)) :=
  let burst := Burst_DecodeFromBytes Burst_zero (DMRData pkt) in
  if ((FrameType pkt =? 0) || (FrameType pkt =? 1)) && negb (IsData burst) then Some (VoiceFrames burst) else None.

Definition is_terminator (pkt : Packet) : bool := (FrameType pkt =? 2) && (DTypeOrVSeq pkt =? 2).

(** Stream [key] of [src] is being received. *)
Definition receiving (key : string) (cfg : DeviceConfig) (old : list (list Z)) (v : Vocoder) (src : Z) (frames : list (list Z)) (last : time) (s : session) : Prop :=
  let '(v', alaw) := decode_frames v frames in
  se_cfg s = cfg /\ se_closed s = false /\ se_decoders s !! key = Some (mkDecode v' last src (rest_of voicePayloadSize alaw)) /\
  payloads key s = old ++ pieces voicePayloadSize alaw.

Lemma receiving_stream key cfg old v src frames last s s' :
  same_stream key s s' -> receiving key cfg old v src frames last s -> receiving key cfg old v src frames last s'.
Proof. unfold same_stream, receiving. destruct (decode_frames v frames). intuition congruence. Qed.

Lemma receiving_heard key cfg old v src frames last s now :
  receiving key cfg old v src frames last s -> now - last <= streamIdleTimeout -> heard_stream key now s.
Proof.
  unfold receiving. destruct (decode_frames v frames). intros (_ & _ & E & _) Hn st Hst. rewrite E in Hst. injection Hst as <-. apply idle_sub, Hn.
Qed.

(** A voice packet of the stream. *)
Lemma voice_step key s pkt voc now frames v buffer :
  se_closed s = false -> stream_key pkt = key -> voice_frames pkt = Some frames -> sendable (se_cfg s) (u32 (Src pkt)) ->
  (match se_decoders s !! key with Some st => Some (dd_vocoder st, dd_buffer st) | None => (fun v => (v, [])) <$> voc end) = Some (v, buffer) ->
  let '(v1, alaw) := decode_frames v frames in
  let s1 := fst (handleDMRPacket s pkt voc now) in
  se_cfg s1 = se_cfg s /\ se_closed s1 = false /\
  se_decoders s1 !! key = Some (mkDecode v1 now (u32 (Src pkt)) (rest_of voicePayloadSize (buffer ++ alaw))) /\
  payloads key s1 = payloads key s ++ pieces voicePayloadSize (buffer ++ alaw).
Proof.
  intros Hc Hkey Hv Hsend Hst. unfold voice_frames in Hv. cbv zeta in Hv.
  destruct ((FrameType pkt =? 0) || (FrameType pkt =? 1)) eqn:Hf; [| done]. destruct (IsData _) eqn:Hd; [done |]. injection Hv as <-.
  unfold handleDMRPacket. cbv zeta. rewrite Hc, Hd, Hkey, Hst.
  assert (Ha : (FrameType pkt =? 2) && (DTypeOrVSeq pkt =? 2) = false).
  { apply andb_false_iff. left. apply Z.eqb_neq. apply orb_true_iff in Hf. rewrite !Z.eqb_eq in Hf. lia. }
  assert (Hb : negb (FrameType pkt =? 0) && negb (FrameType pkt =? 1) = false) by (by rewrite <- negb_orb, Hf).
  rewrite Ha, Hb. destruct (decode_frames v _) as [v1 alaw].
  destruct (write_payloads_sendable (length (buffer ++ alaw)) s key (u32 (Src pkt)) (buffer ++ alaw) Hsend ltac:(done)) as (s1 & -> & E1 & E2 & E3 & E4).
  cbn [fst]. match goal with |- context [expireLocked ?x now] => set (s2 := x); pose proof (expire_stream key s2 now) as He end.
  destruct He as (F1 & F2 & F3 & F4).
  { intros st. subst s2. cbn [se_decoders with_decoders]. rewrite lookup_insert_eq. intros [= <-]. cbn [dd_lastSeen]. apply idle_sub. unfold streamIdleTimeout, millisecond. lia. }
  rewrite F1, F2, F3, F4. subst s2. cbn [se_cfg se_closed se_decoders with_decoders]. rewrite lookup_insert_eq, E1, E2.
  split_and!; [done | done | done | exact E4].
Qed.

Lemma start_receiving s pkt voc now key frames v :
  se_closed s = false -> stream_key pkt = key -> voice_frames pkt = Some frames -> sendable (se_cfg s) (u32 (Src pkt)) ->
  se_decoders s !! key = None -> voc = Some v ->
  receiving key (se_cfg s) (payloads key s) v (u32 (Src pkt)) frames now (fst (handleDMRPacket s pkt voc now)).
Proof.
  intros Hc Hkey Hv Hsend Hno ->. pose proof (voice_step key s pkt (Some v) now frames v [] Hc Hkey Hv Hsend) as Hs. rewrite Hno in Hs.
  unfold receiving. destruct (decode_frames v frames) as [v1 alaw]. exact (Hs eq_refl).
Qed.

Lemma keep_receiving key cfg old v src frames last s pkt voc now more :
  receiving key cfg old v src frames last s -> sendable cfg src -> stream_key pkt = key -> u32 (Src pkt) = src -> voice_frames pkt = Some more ->
  receiving key cfg old v src (frames ++ more) now (fst (handleDMRPacket s pkt voc now)).
Proof.
  unfold receiving. rewrite decode_frames_app. destruct (decode_frames v frames) as [v1 alaw]. intros (E1 & E2 & E3 & E4) Hsend Hkey Hsrc Hv.
  pose proof (voice_step key s pkt voc now more v1 (rest_of voicePayloadSize alaw) E2 Hkey Hv) as Hs. rewrite E1, E3, E4, Hsrc in Hs.
  specialize (Hs Hsend eq_refl). destruct (decode_frames v1 more) as [v2 alaw2].
  destruct (pieces_app voicePayloadSize payload_pos alaw alaw2) as [-> ->]. rewrite app_assoc. exact Hs.
Qed.

(** A packet that is not voice of the stream. *)
Lemma other_dmr key s pkt voc now : heard_stream key now s -> stream_key pkt <> key \/ (voice_frames pkt = None /\ is_terminator pkt = false) ->
  same_stream key s (fst (handleDMRPacket s pkt voc now)).
Proof.
  intros Hh Hk. assert (He : forall s1, same_stream key s s1 -> same_stream key s (expireLocked s1 now)).
  { intros s1 Hs. eapply same_stream_trans; [exact Hs |]. apply expire_stream. unfold heard_stream. by destruct Hs as (_ & _ & -> & _). }
  unfold handleDMRPacket. cbv zeta. unfold voice_frames, is_terminator in Hk. cbv zeta in Hk.
  destruct (se_closed s); [done |]. destruct ((FrameType pkt =? 2) && (DTypeOrVSeq pkt =? 2)).
  { apply flush_other. destruct Hk as [Hk | [_ Hk]]; [done | discriminate Hk]. }
  rewrite <- negb_orb. destruct ((FrameType pkt =? 0) || (FrameType pkt =? 1)); [| by apply He]. cbn [negb]. destruct (IsData _); [by apply He |].
  destruct Hk as [Hk | [Hk _]]; [| discriminate Hk].
  match goal with |- context [fst (match ?o with _ => _ end)] => destruct o as [[v buffer] |] end; [| done].
  destruct (decode_frames v _) as [v1 alaw].
  match goal with |- context [write_payloads ?f ?a ?b ?c ?d] => pose proof (write_payloads_other key b f a c d Hk) as Hp; destruct (write_payloads f a b c d) as [[s1 buf] ok] end.
  cbn [fst] in Hp.
  assert (Hi : forall st, same_stream key s (with_decoders s1 (<[stream_key pkt := st]> (se_decoders s1)))).
  { intros st. destruct Hp as (E1 & E2 & E3 & E4). unfold same_stream. cbn [se_cfg se_closed se_decoders with_decoders]. rewrite lookup_insert_ne by done. done. }
  destruct ok; [by apply He | by apply Hi].
Qed.

Lemma nrl_same_stream key s pkt voc rnd now : heard_stream key now s -> same_stream key s (handleNRLPacket s pkt voc rnd now).
Proof.
  intros Hh. unfold handleNRLPacket. cbv zeta. fold (caller pkt). destruct (_ =? 0); [done |]. destruct (_ =? 0); [done |]. destruct (se_closed s); [done |].
  pose proof (expire_stream key s now Hh) as He. set (s1 := expireLocked s now) in *.
  match goal with |- context [match ?o with Some _ => _ | None => s1 end] => destruct o as [st |] end; [| exact He].
  by destruct (encode_packet _ _ _ _) as [st' pkts].
Qed.

Lemma heartbeat_same_stream key s : same_stream key s (fst (send_heartbeat s)).
Proof.
  unfold send_heartbeat. destruct (se_closed s) eqn:Hc; [done |]. destruct (blank _); [done |]. cbv zeta. destruct (conn_write _); [| done]. cbn [fst].
  unfold same_stream. cbn [se_cfg se_closed se_decoders with_nwire with_count]. split_and!; [done | by rewrite Hc | done |].
  rewrite payloads_snoc, decide_False by done. apply app_nil_r.
Qed.

(** The vocoder frames of stream [key] in an event. *)
Definition own_frames (key : string) (e : nrl_event) : option (list (list Z) * time) :=
  match e with
  | EvDMR pkt _ now => if decide (stream_key pkt = key) then (fun frames => (frames, now)) <$> voice_frames pkt else None
  | _ => None
  end.
Definition frames_of (key : string) (evs : list nrl_event) : list (list Z) := concat (omap (fun e => fst <$> own_frames key e) evs).

(** No event comes later than the timeout after the last voice of the stream,
    which does not end. *)
Fixpoint on_channel (key : string) (src : Z) (last : time) (evs : list nrl_event) : Prop :=
  match evs with
  | [] => True
  | e :: evs =>
      match event_time e with Some now => now - last <= streamIdleTimeout | None => True end /\
      match e with EvDMR pkt _ _ => stream_key pkt = key -> u32 (Src pkt) = src /\ is_terminator pkt = false | _ => True end /\
      on_channel key src (match own_frames key e with Some (_, now) => now | None => last end) evs
  end.

Lemma receiving_run key cfg old v src frames last s evs :
  receiving key cfg old v src frames last s -> sendable cfg src -> on_channel key src last evs ->
  exists last', receiving key cfg old v src (frames ++ frames_of key evs) last' (nrl_run s evs).
Proof.
  revert s frames last. induction evs as [| e evs IH]; intros s frames lst Hr Hsend Hon; [exists lst; unfold frames_of; cbn; by rewrite app_nil_r |].
  cbn [on_channel] in Hon. destruct Hon as (Hnow & Hown & Hon). cbn [nrl_run foldl]. fold (nrl_run (nrl_step s e) evs).
  assert (Hpass : own_frames key e = None -> same_stream key s (nrl_step s e) ->
    exists last', receiving key cfg old v src (frames ++ frames_of key (e :: evs)) last' (nrl_run (nrl_step s e) evs)).
  { intros Ho Hsame. rewrite Ho in Hon. unfold frames_of. cbn [omap list_omap]. rewrite Ho. cbn [fmap option_fmap option_map].
    apply (IH _ frames lst); [by eapply receiving_stream | done..]. }
  destruct e as [pkt voc now | pkt voc rnd now |]; cbn [nrl_step event_time] in *.
  - pose proof (receiving_heard _ _ _ _ _ _ _ _ now Hr Hnow) as Hh. destruct (decide (stream_key pkt = key)) as [Hk | Hk]; cycle 1.
    { apply Hpass; [cbn [own_frames]; by rewrite decide_False | apply other_dmr; [done | by left]]. }
    destruct (Hown Hk) as [Hsrc Hterm]. destruct (voice_frames pkt) as [more |] eqn:Hv; cycle 1.
    { apply Hpass; [cbn [own_frames]; by rewrite decide_True, Hv | apply other_dmr; [done | by right]]. }
    assert (Ho : own_frames key (EvDMR pkt voc now) = Some (more, now)) by (cbn [own_frames]; by rewrite decide_True, Hv).
    rewrite Ho in Hon. unfold frames_of. cbn [omap list_omap]. rewrite Ho. cbn [fmap option_fmap option_map fst concat]. rewrite app_assoc.
    apply (IH _ (frames ++ more) now); [by apply (keep_receiving key cfg old v src frames lst) | done | done].
  - apply Hpass; [done |]. apply nrl_same_stream. by eapply receiving_heard.
  - apply Hpass; [done | apply heartbeat_same_stream].
Qed.

(** The flush at the end of a stream. *)
Lemma flush_receiving key cfg old v src frames last s :
  receiving key cfg old v src frames last s -> sendable cfg src ->
  let rest := rest_of voicePayloadSize (snd (decode_frames v frames)) in
  payloads key (flushDecoderLocked s key) = old ++ pieces voicePayloadSize (snd (decode_frames v frames)) ++
    (if bool_decide (rest = []) then [] else [rest ++ replicate (voicePayloadSize - length rest) 0xD5]) /\
  se_decoders (flushDecoderLocked s key) !! key = None.
Proof.
  unfold receiving. destruct (pieces_concat voicePayloadSize payload_pos (snd (decode_frames v frames))) as (_ & _ & Hlen).
  destruct (decode_frames v frames) as [v1 alaw]. cbn [snd] in *. intros (E1 & E2 & E3 & E4) Hsend. cbv zeta. unfold flushDecoderLocked. rewrite E3. cbn [dd_buffer dd_srcDMRID].
  set (rest := rest_of voicePayloadSize alaw) in *. destruct rest as [| b rest'] eqn:Er.
  - cbn [length Nat.ltb Nat.leb]. rewrite bool_decide_true, app_nil_r by done. split; [exact E4 | apply lookup_delete_eq].
  - rewrite bool_decide_false by done. cbv zeta. destruct (Nat.ltb_spec 0 (length (b :: rest'))) as [_ | Hl]; [| cbn in Hl; lia].
    rewrite <- E1 in Hsend.
    match goal with |- context [writeVoicePacketLocked s key src ?p] => destruct (write_sendable s key src p Hsend) as (s1 & -> & F1 & F2 & F3 & F4) end.
    cbn [fst]. split; [| apply lookup_delete_eq]. change (payloads key s1 = old ++ pieces voicePayloadSize alaw ++ [(b :: rest') ++ replicate (voicePayloadSize - length (b :: rest')) 0xD5]).
    rewrite F4, E4, <- app_assoc. do 3 f_equal. apply firstn_all2. rewrite length_app, length_replicate. unfold voicePayloadSize in *. lia.
Qed.

(** C33: The voice of a DMR stream reaches the NRL server whole as long as it can be
    sent: the session is open, datagrams to the server can be written, the device
    has a callsign, and the source of the stream is not zero and its callsign is
    known.  (A payload that cannot be sent is dropped.)  From the first voice
    burst of such a stream that has no decoder, to its terminator, with never more
    than 1.5 seconds between its bursts, and whatever other streams, packets from
    the server and heartbeats come between: the audio in the datagrams of the stream
    is the A-law of everything the vocoder decodes from its frames, in order, cut
    into payloads of 500 bytes.  What is left when the terminator comes is sent
    too, padded with silence to 500 bytes, and the decoder is gone. *)
Theorem stream_to_nrl s pkt v now evs key frames term voc after :
  se_closed s = false -> stream_key pkt = key -> voice_frames pkt = Some frames -> sendable (se_cfg s) (u32 (Src pkt)) -> se_decoders s !! key = None ->
  on_channel key (u32 (Src pkt)) now evs -> stream_key term = key -> is_terminator term = true ->
  let first := EvDMR pkt (Some v) now in
  let s1 := nrl_run s (first :: evs) in
  let s2 := nrl_step s1 (EvDMR term voc after) in
  let alaw := snd (decode_frames v (frames_of key (first :: evs))) in
  let rest := rest_of voicePayloadSize alaw in
  payloads key s1 = payloads key s ++ pieces voicePayloadSize alaw /\
  payloads key s2 = payloads key s1 ++ (if bool_decide (rest = []) then [] else [rest ++ replicate (voicePayloadSize - length rest) 0xD5]) /\
  concat (pieces voicePayloadSize alaw) ++ rest = alaw /\ (length rest < voicePayloadSize)%nat /\ se_decoders s2 !! key = None.
Proof.
  intros Hc Hkey Hv Hsend Hno Hon Htk Hterm. cbv zeta. cbn [nrl_run foldl nrl_step]. fold (nrl_run (fst (handleDMRPacket s pkt (Some v) now)) evs).
  pose proof (start_receiving s pkt (Some v) now key frames v Hc Hkey Hv Hsend Hno eq_refl) as Hr.
  destruct (receiving_run _ _ _ _ _ _ _ _ evs Hr Hsend Hon) as [last' Hr'].
  assert (Ef : frames_of key (EvDMR pkt (Some v) now :: evs) = frames ++ frames_of key evs).
  { unfold frames_of. cbn [omap list_omap own_frames]. rewrite decide_True, Hv by done. done. }
  rewrite Ef. set (s1 := nrl_run _ evs) in *. set (fs := frames ++ frames_of key evs) in *.
  pose proof (flush_receiving _ _ _ _ _ _ _ _ Hr' Hsend) as [Hf Hd]. cbv zeta in Hf.
  assert (Hstep : fst (handleDMRPacket s1 term voc after) = flushDecoderLocked s1 key).
  { unfold handleDMRPacket. cbv zeta. unfold is_terminator in Hterm. rewrite Htk, Hterm.
    unfold receiving in Hr'. destruct (decode_frames v fs). destruct Hr' as (_ & -> & _). done. }
  rewrite Hstep. unfold receiving in Hr'. destruct (decode_frames v fs) as [v1 alaw] eqn:Ed. cbn [snd] in *. destruct Hr' as (_ & _ & _ & E4).
  destruct (pieces_concat voicePayloadSize payload_pos alaw) as (P1 & _ & P3). rewrite Hf, E4, <- app_assoc. done.
Qed.

(** ** Buffers *)

(** Nothing that makes a full payload, frame or burst stays in a buffer. *)
Record buffers_ok (s : session) : Prop := {
  payload_short : map_Forall (fun _ st => (length (dd_buffer st) < voicePayloadSize)%nat) (se_decoders s);
  frame_short : map_Forall (fun _ st => (length (ne_pcmBuffer st) < PCMFrameSize)%nat /\ (length (ne_ambeFrames st) < 3)%nat) (se_encoders s)
}.

Lemma write_maps s key src payload :
  se_decoders (fst (writeVoicePacketLocked s key src payload)) = se_decoders s /\ se_encoders (fst (writeVoicePacketLocked s key src payload)) = se_encoders s.
Proof. unfold writeVoicePacketLocked. cbv zeta. by repeat case_match. Qed.

Lemma flush_ok s key : buffers_ok s -> buffers_ok (flushDecoderLocked s key).
Proof.
  intros [Hd He]. unfold flushDecoderLocked. destruct (se_decoders s !! key) as [st |] eqn:E; [| by split]. cbv zeta.
  assert (Hs : forall s1, se_decoders s1 = se_decoders s /\ se_encoders s1 = se_encoders s -> buffers_ok (with_decoders s1 (delete key (se_decoders s1)))).
  { intros s1 [E1 E2]. split; cbn [se_decoders se_encoders with_decoders]; [rewrite E1; by apply map_Forall_delete | by rewrite E2]. }
  apply Hs. destruct (_ <? _)%nat; [apply write_maps | done].
Qed.

Lemma expire_ok s now : buffers_ok s -> buffers_ok (expireLocked s now).
Proof.
  intros Hok. unfold expireLocked. apply (foldl_inv buffers_ok).
  - apply (foldl_inv buffers_ok); [exact Hok |]. intros s1 e _ Hs1. unfold expire_decoder. destruct (_ <? _); [by apply flush_ok | done].
  - intros s1 [k st] _ [Hd He]. unfold expire_encoder, emitTerminatorLocked. cbn [fst snd]. destruct (_ <=? _); [by split |]. cbv zeta.
    destruct (_ || _); (split; [exact Hd | by apply map_Forall_delete]).
Qed.

Lemma write_payloads_short fuel s key src buffer : (length buffer <= fuel)%nat -> (length buffer < 2 * voicePayloadSize)%nat ->
  let '(s1, rest, _) := write_payloads fuel s key src buffer in
  (length rest < voicePayloadSize)%nat /\ se_decoders s1 = se_decoders s /\ se_encoders s1 = se_encoders s.
Proof.
  revert s buffer. induction fuel as [| fuel IH]; intros s buffer Hf Hl; cbn [write_payloads]; [unfold voicePayloadSize; by split; [lia |] |].
  destruct (Nat.ltb_spec (length buffer) voicePayloadSize) as [| Hb]; [done |].
  pose proof (write_maps s key src (take voicePayloadSize buffer)) as Hw. destruct (writeVoicePacketLocked s key src _) as [s1 ok]. cbn [fst] in Hw. destruct Hw as [W1 W2].
  assert (Hdrop : (length (drop voicePayloadSize buffer) < voicePayloadSize)%nat) by (rewrite length_drop; lia).
  destruct ok; [| done].
  assert (Hd1 : (length (drop voicePayloadSize buffer) <= fuel)%nat) by (rewrite length_drop; unfold voicePayloadSize in *; lia).
  assert (Hd2 : (length (drop voicePayloadSize buffer) < 2 * voicePayloadSize)%nat) by lia.
  specialize (IH s1 (drop voicePayloadSize buffer) Hd1 Hd2). destruct (write_payloads _ _ _ _ _) as [[s2 r] ok]. by rewrite <- W1, <- W2.
Qed.

Lemma decode_frames_length v frames : (length (snd (decode_frames v frames)) <= 160 * length frames)%nat.
Proof.
  revert v. induction frames as [| f frames IH]; intros v; [done |]. change (f :: frames) with ([f] ++ frames). rewrite decode_frames_app, length_app.
  assert (Hf : (length (snd (decode_frames v [f])) <= 160)%nat).
  { unfold decode_frames. cbn [foldl]. pose proof (decode_length v (ambeFrameBytes f)) as Hd. rewrite pcm_frame_size in Hd.
    destruct (Voc_Decode v (ambeFrameBytes f)) as [v1 [pcm |]]; cbn [snd app] in *; [| cbn; lia]. rewrite length_fmap. lia. }
  destruct (decode_frames v [f]) as [v1 o1]. specialize (IH v1). destruct (decode_frames v1 frames) as [v2 o2]. cbn [snd length] in *. rewrite length_app. lia.
Qed.

Lemma dmr_ok s pkt voc now : (forall b, length (VoiceFrames b) <= 3)%nat -> buffers_ok s -> buffers_ok (fst (handleDMRPacket s pkt voc now)).
Proof.
  intros Hthree Hok. unfold handleDMRPacket. cbv zeta. destruct (se_closed s); [done |].
  destruct ((FrameType pkt =? 2) && _); [by apply flush_ok |]. destruct (negb _ && negb _); [by apply expire_ok |]. destruct (IsData _); [by apply expire_ok |].
  assert (Hbuf : forall v buffer, (match se_decoders s !! stream_key pkt with Some st => Some (dd_vocoder st, dd_buffer st) | None => (fun v => (v, [])) <$> voc end) = Some (v, buffer) ->
    (length buffer < voicePayloadSize)%nat).
  { destruct Hok as [Hd _]. intros v buffer. destruct (se_decoders s !! stream_key pkt) as [st |] eqn:E.
    - intros [= _ <-]. exact (Hd _ _ E).
    - destruct voc; [intros [= _ <-]; apply payload_pos | done]. }
  match goal with |- context [fst (match ?o with _ => _ end)] => destruct o as [[v buffer] |] end; [| done]. specialize (Hbuf v buffer eq_refl).
  pose proof (decode_frames_length v (VoiceFrames (Burst_DecodeFromBytes Burst_zero (DMRData pkt)))) as Hl. specialize (Hthree (Burst_DecodeFromBytes Burst_zero (DMRData pkt))).
  destruct (decode_frames v _) as [v1 alaw]. cbn [snd] in Hl.
  pose proof (write_payloads_short (length (buffer ++ alaw)) s (stream_key pkt) (u32 (Src pkt)) (buffer ++ alaw) ltac:(done)) as Hw.
  destruct (write_payloads _ _ _ _ _) as [[s1 rest] ok]. destruct Hw as (Hr & E1 & E2); [rewrite length_app; unfold voicePayloadSize in *; lia |].
  assert (Hs2 : buffers_ok (with_decoders s1 (<[stream_key pkt := mkDecode v1 now (u32 (Src pkt)) rest]> (se_decoders s1)))).
  { destruct Hok as [Hd He]. split; cbn [se_decoders se_encoders with_decoders]; [rewrite E1; by apply map_Forall_insert_2 | by rewrite E2]. }
  destruct ok; [by apply expire_ok | done].
Qed.

Lemma nrl_ok s pkt voc rnd now : buffers_ok s -> buffers_ok (handleNRLPacket s pkt voc rnd now).
Proof.
  intros Hok. unfold handleNRLPacket. cbv zeta. fold (caller pkt). destruct (_ =? 0); [done |]. destruct (_ =? 0); [done |]. destruct (se_closed s); [done |].
  pose proof (expire_ok s now Hok) as He. set (s1 := expireLocked s now) in *. destruct He as [Hd He].
  assert (Hst : forall st, (match se_encoders s1 !! caller_key (caller pkt) pkt with Some st => Some st | None => (fun v => fresh_stream v (randomStreamID (fst rnd)) 0 (caller pkt)) <$> voc end) = Some st ->
    (length (ne_ambeFrames st) < 3)%nat).
  { intros st. destruct (se_encoders s1 !! _) as [st' |] eqn:E; [intros [= <-]; exact (proj2 (He _ _ E)) |]. destruct voc; [intros [= <-]; cbn; lia | done]. }
  match goal with |- context [match ?o with Some _ => _ | None => s1 end] => destruct o as [st |] end; [| by split]. specialize (Hst st eq_refl).
  set (st1 := if stream_idle _ _ then _ else _). assert (Hst1 : (length (ne_ambeFrames st1) < 3)%nat) by (subst st1; destruct (stream_idle _ _); [cbn; lia | exact Hst]).
  unfold encode_packet. cbv zeta. rewrite encode_audio_spec by done. destruct (encoded _ _) as [v1 out]. cbn [fst].
  split; cbn [se_decoders se_encoders with_encoders with_npackets]; [exact Hd |]. apply map_Forall_insert_2; [| exact He]. cbn [ne_pcmBuffer ne_ambeFrames].
  split; [eapply (pieces_concat PCMFrameSize pcm_pos) | eapply (pieces_concat 3); lia].
Qed.

(** The session never holds back a full payload, vocoder frame or burst, and the
    padding of the last payload never has a negative length: after any run, also
    with datagrams that cannot be written and frames the vocoder refuses, every
    buffer for the NRL server has fewer than 500 bytes, and every buffer of a talk
    spurt fewer than 160 samples and 3 frames. *)
Theorem buffers_bounded s evs : (forall b, length (VoiceFrames b) <= 3)%nat -> buffers_ok s -> buffers_ok (nrl_run s evs).
Proof.
  intros Hthree Hok. unfold nrl_run. apply (foldl_inv buffers_ok); [exact Hok |]. intros s1 [pkt voc now | pkt voc rnd now |] _ Hs1; cbn [nrl_step].
  - by apply dmr_ok.
  - by apply nrl_ok.
  - unfold send_heartbeat. cbv zeta. destruct Hs1 as [Hd He]. repeat case_match; by split.
Qed.

(** Nothing but a packet ends a stream: while only heartbeats are sent, a talk
    spurt that is over gets no terminator, however much time passes. *)
Lemma spurt_end_waits s n : se_packets (nrl_run s (replicate n EvHeartbeat)) = se_packets s /\ se_encoders (nrl_run s (replicate n EvHeartbeat)) = se_encoders s.
Proof.
  revert s. induction n as [| n IH]; intros s; [done |]. cbn [replicate nrl_run foldl nrl_step]. fold (nrl_run (fst (send_heartbeat s)) (replicate n EvHeartbeat)).
  destruct (IH (fst (send_heartbeat s))) as [-> ->]. destruct (heartbeat_side s) as (_ & -> & _ & ->). done.
Qed.

End calls.

(** ** A concrete instance *)

Section sample.

#[local] Instance sample_vocoder : Md380 := {|
  Vocoder := Z;
  Voc_Decode v _ := (v + 1, Some (replicate 160 (v mod 1000)));
  Voc_Encode v _ := (v + 1, Some (replicate 9 (v mod 256)));
  PCMFrameSize := 160;
  AMBEFrameSize := 9
|}.
#[local] Instance sample_vocoder_laws : Md380Laws.
Proof.
  split; [done | done |]. intros v f. cbn [Voc_Decode sample_vocoder snd]. split; [apply length_replicate |]. apply Forall_replicate.
  unfold is_i16. pose proof (Z.mod_pos_bound v 1000 ltac:(lia)). lia.
Qed.
#[local] Instance sample_bursts : Dmrgo := {|
  FullLinkControl_Encode _ := None;
  FullLinkControl_DecodeFromBits _ _ := None;
  Burst := list Z;
  Burst_zero := [];
  Burst_DecodeFromBytes _ data := data;
  IsData _ := false;
  VoiceFrames _ := replicate 3 (replicate 49 0);
  HasEmbeddedSignalling _ := false;
  PackEmbeddedSignallingData _ := replicate 4 0;
  Burst_Encode b := ob_embedded b
|}.
#[local] Instance sample_tables : AmbeTables := {| Golay_24_12_8_EncodingTable _ := 0; Golay_23_12_7_EncodingTable _ := 0; PRNG_TABLE _ := 0 |}.
#[local] Instance sample_nrl_net : NrlNet := {|
  conn_write _ := true;
  local_ip := [10; 0; 0; 1];
  resolveCallsign _ := "BG4ABC";
  resolveInboundDMRID id _ := id;
  dec_iter m := map_to_list m;
  enc_iter m := map_to_list m
|}.
#[local] Instance sample_nrl_net_laws : NrlNetLaws.
Proof. by split. Qed.

Definition sample_session : session := mkSession sample_device 0 ∅ ∅ false true true [] [].
Definition sample_voice : packet := mkNrlPacket 9 4600001 0 (str_bytes "BG4ABC") 7 (str_bytes "BG4XYZ") 7 [10; 0; 0; 1] (replicate 500 0xD5).
Definition sample_burst (frame dtype : Z) : Packet := mkPacket (str_bytes "DMRD") 0 4600001 46001 0 false true frame dtype 77 (repeat 0 33).

(** Two packets of 500 samples make a header and two bursts. *)
Lemma talk_spurt_witness :
  let s' := nrl_run sample_session [EvNRL sample_voice (Some 0) (5, 6) 1000; EvHeartbeat; EvNRL sample_voice None (7, 8) (1000 + 20 * millisecond)] in
  (fun p => (Seq p, FrameType p, DTypeOrVSeq p, StreamID p)) <$> of_key (caller_key 4600001 sample_voice) (se_packets s') = [(0, 2, 1, 6); (1, 1, 0, 6); (2, 0, 1, 6)].
Proof.
  cbv zeta.
  rewrite (talk_spurt sample_session sample_voice 0 (5, 6) 1000 [EvHeartbeat; EvNRL sample_voice None (7, 8) (1000 + 20 * millisecond)]
    (caller_key 4600001 sample_voice) 4600001); [by_eval | reflexivity | discriminate | reflexivity | discriminate | reflexivity | reflexivity | discriminate |].
  cbn [on_air event_time]. split_and!; try done; by_eval.
Defined.

(** Two bursts of 480 samples make a payload, and the terminator flushes another. *)
Lemma stream_to_nrl_witness :
  let key := stream_key (sample_burst 1 0) in
  let s1 := nrl_run sample_session [EvDMR (sample_burst 1 0) (Some 0) 1000; EvDMR (sample_burst 0 1) None (1000 + 60 * millisecond)] in
  length <$> payloads key (nrl_step s1 (EvDMR (sample_burst 2 2) None (1000 + 120 * millisecond))) = [500; 500]%nat.
Proof.
  cbv zeta.
  destruct (stream_to_nrl sample_session (sample_burst 1 0) 0 1000 [EvDMR (sample_burst 0 1) None (1000 + 60 * millisecond)]
    (stream_key (sample_burst 1 0)) (replicate 3 (replicate 49 0)) (sample_burst 2 2) None (1000 + 120 * millisecond)) as (E1 & E2 & _);
    [reflexivity | reflexivity | reflexivity | | reflexivity | | reflexivity | reflexivity |].
  - split; [by_eval | split; [discriminate | by_eval] | done].
  - cbn [on_channel event_time]. split_and!; try done; by_eval.
  - cbv zeta in E1, E2. rewrite E1 in E2. etransitivity; [exact (f_equal (fmap length) E2) | by_eval].
Defined.

Lemma buffers_bounded_witness : buffers_ok (nrl_run sample_session [EvNRL sample_voice (Some 0) (5, 6) 1000; EvDMR (sample_burst 1 0) (Some 0) 2000]).
Proof. apply buffers_bounded; [done | split; apply map_Forall_empty]. Defined.

End sample.
