(* ===== verification/HyteraNrl.v ===== *)
(** * The NRL bridge of the Hytera server (internal/hytera/nrl_bridge.go)

    A repeater in analog mode sends and receives mu-law audio in packets of 512
    bytes; for each such repeater with an NRL server configured there is a
    session that translates between them and the A-law packets of the server,
    reports the calls it hears and hands the audio on to listeners.  What a step
    writes or reports is a list of outputs, oldest first.

    The voice for the NRL server goes through a channel of 256 chunks to a
    goroutine of its own; a chunk that does not fit makes the loop that reads from
    the repeaters wait, and is kept in [hn_waiting].  The
    P2P loop and the DMR loop both hand packets to a session; in a history they come
    one after the other, as from one reader. *)

From S2P Require Import Prelude Packet Strings Net Text G711 NrlFrame HyteraFrame.

Definition hyteraAnalogPacketLen : nat := 512.
Definition hyteraAnalogHeaderLen : nat := 32.
Definition hyteraAnalogFrameSamples : nat := 160.
Definition hyteraAnalogFrameGroup : nat := 480.
Definition nrlVoiceFlushWatermark : nat := 500.
Definition nrlHeartbeatInterval : Z := 2000 * millisecond.
Definition nrlSessionTTL : Z := 6000 * millisecond.
Definition nrlCallIdleTimeout : Z := 1500 * millisecond.
Definition voiceQueue_cap : nat := 256.

Definition hyteraAnalogFallbackHeader : list Z :=
  [0x5A; 0x5A; 0x5A; 0x5A; 0x00; 0x02; 0x00; 0x00; 0x45; 0x00; 0x05; 0x01; 0x01; 0x00; 0x00; 0x00;
   0x00; 0x00; 0x00; 0x00; 0x00; 0x00; 0x00; 0x00; 0x00; 0x00; 0xC0; 0x03; 0xA0; 0xF6; 0x8B; 0x10].

(** ** State and outputs *)

Record AnalogAudioEvent := mkAudio {
  au_StreamID : string;
  au_Frontend : string;
  au_SourceKey : string;
  au_SourceDMRID : Z;
  au_PCM : list Z;
  au_Ended : bool
}.

Record NRLCallEvent := mkCall {
  ca_Ended : bool;
  ca_HyteraSourceKey : string;
  ca_SourceKey : string;
  ca_SourceName : string;
  ca_SourceCallsign : string;
  ca_SourceDMRID : Z;
  ca_StreamID : Z;
  ca_FromIP : string;
  ca_FromPort : Z
}.

Inductive hn_output :=
| OutNRL (datagram : list Z)
| OutHytera (datagram : list Z) (addr : UDPAddr)
| OutCall (e : NRLCallEvent)
| OutAudio (e : AnalogAudioEvent).

(** The fields of an [nrlSession], in groups: what concerns the packets for the
    repeater, the call, and the voice for the server. *)
Record to_hytera := mkToHytera {
  th_hyteraAddr : option UDPAddr;
  th_templateReady : bool;
  th_template : list Z;
  th_outSeq : Z;
  th_ulawBuffer : list Z
}.

Record call_state := mkCallState {
  cs_callActive : bool;
  cs_callStreamID : Z;
  cs_callLastVoiceAt : time;
  cs_callFromIP : string;
  cs_callFromPort : Z;
  cs_callSourceName : string;
  cs_callSourceCS : string;
  cs_callSourceDMRID : Z
}.

Record to_server := mkToServer {
  ts_nextNRLCount : Z;
  ts_voiceQueue : list (list Z);
  ts_waiting : list (list Z);
  ts_lastHeartbeatAt : time;
  (** the write loop is running *)
  ts_writing : bool
}.

Record nrlSession := mkNrlSession {
  hn_sourceKey : string;
  hn_cfg : NRLPeerConfig;
  (** the remote address of the socket *)
  hn_remote : string * Z;
  hn_hytera : to_hytera;
  hn_call : call_state;
  hn_server : to_server;
  hn_lastActivityAt : time;
  hn_closed : bool;
  (** the read loop is running *)
  hn_reading : bool
}.

Definition with_hncfg s cfg := mkNrlSession (hn_sourceKey s) cfg (hn_remote s) (hn_hytera s) (hn_call s) (hn_server s) (hn_lastActivityAt s) (hn_closed s) (hn_reading s).
Definition with_hytera s h := mkNrlSession (hn_sourceKey s) (hn_cfg s) (hn_remote s) h (hn_call s) (hn_server s) (hn_lastActivityAt s) (hn_closed s) (hn_reading s).
Definition with_call s c := mkNrlSession (hn_sourceKey s) (hn_cfg s) (hn_remote s) (hn_hytera s) c (hn_server s) (hn_lastActivityAt s) (hn_closed s) (hn_reading s).
Definition with_server s v := mkNrlSession (hn_sourceKey s) (hn_cfg s) (hn_remote s) (hn_hytera s) (hn_call s) v (hn_lastActivityAt s) (hn_closed s) (hn_reading s).
Definition with_activity s t := mkNrlSession (hn_sourceKey s) (hn_cfg s) (hn_remote s) (hn_hytera s) (hn_call s) (hn_server s) t (hn_closed s) (hn_reading s).
Definition with_closed s c r := mkNrlSession (hn_sourceKey s) (hn_cfg s) (hn_remote s) (hn_hytera s) (hn_call s) (hn_server s) (hn_lastActivityAt s) c r.

Definition inactive (c : call_state) : call_state :=
  mkCallState false (cs_callStreamID c) (cs_callLastVoiceAt c) (cs_callFromIP c) (cs_callFromPort c) (cs_callSourceName c) (cs_callSourceCS c) (cs_callSourceDMRID c).
Definition heard_at (c : call_state) (now : time) : call_state :=
  mkCallState (cs_callActive c) (cs_callStreamID c) now (cs_callFromIP c) (cs_callFromPort c) (cs_callSourceName c) (cs_callSourceCS c) (cs_callSourceDMRID c).

(** ** Samples *)

Definition ulawSamplesToPCM16 (l : list Z) : list Z := UlawToLinear <$> l.
Definition alawSamplesToPCM16 (l : list Z) : list Z := AlawToLinear <$> l.
Definition ulawChunkToAlaw (l : list Z) : list Z := (fun c => LinearToAlaw (i16 (UlawToLinear c * 3))) <$> l.
Definition alawChunkToUlaw (l : list Z) : list Z := (fun c => LinearToUlaw (AlawToLinear c)) <$> l.

(** The chunks of 160 bytes from the start; a rest is left out.  A round for each
    byte is enough. *)
Fixpoint chunks_fuel (fuel : nat) (l : list Z) : list (list Z) :=
  match fuel with
  | O => []
  | S fuel => if (length l <? hyteraAnalogFrameSamples)%nat then [] else take hyteraAnalogFrameSamples l :: chunks_fuel fuel (drop hyteraAnalogFrameSamples l)
  end.
Definition chunks (l : list Z) : list (list Z) := chunks_fuel (length l) l.

Definition isHyteraAnalogVoicePacket (data : list Z) : bool :=
  (length data =? hyteraAnalogPacketLen)%nat && (hyteraAnalogHeaderLen <=? length data)%nat && hasNativeHyteraPrefix data && (data.[8] =? 0x45).

(** What a session is told by its surroundings: the handlers that are set,
    whether a datagram can be written to the server, the configured port, the
    address [net.ParseIP] reads from a text, and the order of an iteration over the
    sessions. *)
Class NrlLink := {
  callHandler : bool;
  audioHandler : bool;
  nrl_write : list Z -> bool;
  cfg_DMRPort : Z;
  ParseIP : string -> option string;
  hn_iter : gmap string nrlSession -> list (string * nrlSession)
}.
Class NrlLinkLaws `{NrlLink} : Prop := { hn_iter_elements m : hn_iter m ≡ₚ map_to_list m }.

Section bridge.
Context `{Unicode} `{NrlLink}.

(** ** Reports *)

Definition emitAudioChunk (s : nrlSession) (frontend streamID : string) (sourceDMRID : Z) (pcm : list Z) (ended : bool) : list hn_output :=
  if negb audioHandler || bool_decide (streamID = "") then [] else [OutAudio (mkAudio streamID frontend (hn_sourceKey s) sourceDMRID pcm ended)].

Definition nrl_stream (s : nrlSession) : string := "analog:nrl:" +:+ hn_sourceKey s +:+ ":" +:+ pretty (cs_callStreamID (hn_call s)).

Definition call_event (s : nrlSession) (ended : bool) : NRLCallEvent :=
  let c := hn_call s in
  mkCall ended (hn_sourceKey s) ("nrl:" +:+ hn_sourceKey s) (cs_callSourceName c) (cs_callSourceCS c) (cs_callSourceDMRID c) (cs_callStreamID c) (cs_callFromIP c) (cs_callFromPort c).

Definition emitCallEventLocked (s : nrlSession) (ended : bool) : list hn_output :=
  let c := hn_call s in
  let last := emitAudioChunk s "analog-nrl" (nrl_stream s) (cs_callSourceDMRID c) [] true in
  if negb callHandler || (cs_callStreamID c =? 0) then (if ended && negb (cs_callStreamID c =? 0) then last else [])
  else OutCall (call_event s ended) :: (if ended then last else []).

Definition callSourceCallsign (s : nrlSession) (callsign : list Z) (ssid : Z) : string :=
  let cs := TrimSpace callsign in
  let cs := if bool_decide (cs = []) then TrimSpace (normalizeNRLCallsign (peer_Callsign (hn_cfg s))) else cs in
  bytes_str cs +:+ "-" +:+ pretty ssid.

Definition expireCallIfIdle (s : nrlSession) (now : time) : nrlSession * list hn_output :=
  if negb (cs_callActive (hn_call s)) then (s, [])
  else if time_sub now (cs_callLastVoiceAt (hn_call s)) <=? nrlCallIdleTimeout then (s, [])
  else (with_call s (inactive (hn_call s)), emitCallEventLocked s true).

(** ** To the server *)

(** Move what waits into the channel. *)
Definition fill_queue (v : to_server) : to_server :=
  let room := (voiceQueue_cap - length (ts_voiceQueue v))%nat in
  mkToServer (ts_nextNRLCount v) (ts_voiceQueue v ++ take room (ts_waiting v)) (drop room (ts_waiting v)) (ts_lastHeartbeatAt v) (ts_writing v).

Definition sendNRLVoice (s : nrlSession) (alaw : list Z) : nrlSession :=
  if hn_closed s then s
  else
    let v := hn_server s in
    with_server s (fill_queue (mkToServer (ts_nextNRLCount v) (ts_voiceQueue v) (ts_waiting v ++ [alaw]) (ts_lastHeartbeatAt v) (ts_writing v))).

(** [false] is an error. *)
Definition sendHeartbeat (s : nrlSession) (now : time) : nrlSession * list hn_output * bool :=
  let v := hn_server s in
  if hn_closed s then (s, [], false)
  else if negb (time_is_zero (ts_lastHeartbeatAt v)) && (time_sub now (ts_lastHeartbeatAt v) <? nrlHeartbeatInterval) then (s, [], true)
  else
    let packet := encodeNRL21Packet (hn_cfg s) 2 [] (ts_nextNRLCount v) in
    let s := with_server s (mkToServer (u16 (ts_nextNRLCount v + 1)) (ts_voiceQueue v) (ts_waiting v) now (ts_writing v)) in
    if nrl_write packet then (s, [OutNRL packet], true) else (s, [], false).

Definition writeNRLPacket (s : nrlSession) (packetType : Z) (payload : list Z) : nrlSession * list hn_output * bool :=
  let v := hn_server s in
  if hn_closed s then (s, [], false)
  else
    let packet := encodeNRL21Packet (hn_cfg s) packetType payload (ts_nextNRLCount v) in
    let s := with_server s (mkToServer (u16 (ts_nextNRLCount v + 1)) (ts_voiceQueue v) (ts_waiting v) (ts_lastHeartbeatAt v) (ts_writing v)) in
    if nrl_write packet then (s, [OutNRL packet], true) else (s, [], false).

(** A round of the write loop: it takes a chunk, and ends when it cannot write. *)
Definition write_round (s : nrlSession) : nrlSession * list hn_output :=
  let v := hn_server s in
  if hn_closed s || negb (ts_writing v) then (s, [])
  else
    match ts_voiceQueue v with
    | [] => (s, [])
    | payload :: queue =>
        let s := with_server s (fill_queue (mkToServer (ts_nextNRLCount v) queue (ts_waiting v) (ts_lastHeartbeatAt v) true)) in
        let '(s, outs, ok) := writeNRLPacket s 1 payload in
        let v := hn_server s in
        (with_server s (mkToServer (ts_nextNRLCount v) (ts_voiceQueue v) (ts_waiting v) (ts_lastHeartbeatAt v) ok), outs)
    end.

Definition handleHyteraVoice (s : nrlSession) (addr : UDPAddr) (data : list Z) (now : time) : nrlSession * list hn_output :=
  let h := hn_hytera s in
  let h :=
    if (hyteraAnalogHeaderLen <=? length data)%nat
    then mkToHytera (Some addr) true (take hyteraAnalogHeaderLen data) (data.[4]) (th_ulawBuffer h)
    else mkToHytera (Some addr) (th_templateReady h) (th_template h) (th_outSeq h) (th_ulawBuffer h) in
  let s := with_activity (with_hytera s h) now in
  if (length data <=? hyteraAnalogHeaderLen)%nat then (s, [])
  else
    let voice := drop hyteraAnalogHeaderLen data in
    let outs := emitAudioChunk s "analog-hytera" ("analog:hytera:" +:+ hn_sourceKey s) 0 (ulawSamplesToPCM16 voice) false in
    (foldl (fun s chunk => sendNRLVoice s (ulawChunkToAlaw chunk)) s (chunks voice), outs).

(** ** To the repeater *)

Definition bootstrapHyteraFallbackLocked (s : nrlSession) : nrlSession :=
  let h := hn_hytera s in
  let h :=
    if th_templateReady h then h
    else mkToHytera (th_hyteraAddr h) true hyteraAnalogFallbackHeader (if th_outSeq h =? 0 then hyteraAnalogFallbackHeader.[4] else th_outSeq h) (th_ulawBuffer h) in
  let s := with_hytera s h in
  match th_hyteraAddr h with
  | Some _ => s
  | None =>
      match ParseIP (bytes_str (TrimSpace (str_bytes (trim_prefix "hytera:" (hn_sourceKey s))))) with
      | None => s
      | Some ip =>
          let port := HyteraVoicePort (hn_cfg s) in
          let port := if port <=? 0 then cfg_DMRPort else port in
          let port := if port <=? 0 then 50001 else port in
          with_hytera s (mkToHytera (Some (mkAddr ip port "")) (th_templateReady h) (th_template h) (th_outSeq h) (th_ulawBuffer h))
      end
  end.

Definition buildHyteraAnalogPacket (s : nrlSession) (voice : list Z) : nrlSession * option (list Z * UDPAddr) :=
  let s := bootstrapHyteraFallbackLocked s in
  let h := hn_hytera s in
  match th_hyteraAddr h with
  | Some addr =>
      if negb (th_templateReady h) || (length voice <? hyteraAnalogFrameGroup)%nat then (s, None)
      else
        let seq := u8 (th_outSeq h + 1) in
        let packet := list_inserts 0 (take hyteraAnalogHeaderLen (th_template h)) (replicate hyteraAnalogPacketLen 0) in
        let packet := <[8%nat := 0x45]> (<[4%nat := seq]> packet) in
        let packet := list_inserts hyteraAnalogHeaderLen (take hyteraAnalogFrameGroup voice) packet in
        (with_hytera s (mkToHytera (th_hyteraAddr h) (th_templateReady h) (th_template h) seq (th_ulawBuffer h)), Some (packet, addr))
  | None => (s, None)
  end.

Definition with_ulaw (s : nrlSession) (buffer : list Z) : nrlSession :=
  let h := hn_hytera s in with_hytera s (mkToHytera (th_hyteraAddr h) (th_templateReady h) (th_template h) (th_outSeq h) buffer).

(** Send the full groups of the buffer.  A round for each byte is enough. *)
Fixpoint flush_groups (fuel : nat) (s : nrlSession) : nrlSession * list hn_output :=
  match fuel with
  | O => (s, [])
  | S fuel =>
      let buffer := th_ulawBuffer (hn_hytera s) in
      if (length buffer <? hyteraAnalogFrameGroup)%nat then (s, [])
      else
        let s := with_ulaw s (drop hyteraAnalogFrameGroup buffer) in
        let '(s, packet) := buildHyteraAnalogPacket s (take hyteraAnalogFrameGroup buffer) in
        let '(s, outs) := flush_groups fuel s in
        (s, match packet with Some (packet, addr) => OutHytera packet addr :: outs | None => outs end)
  end.

(** The call the packet belongs to. *)
Definition track_call (s : nrlSession) (pkt : nrlPacket) (now : time) : nrlSession * list hn_output :=
  let c := hn_call s in
  let source := callSourceCallsign s (n21_Callsign pkt) (n21_SSID pkt) in
  if negb (cs_callActive c) || (nrlCallIdleTimeout <? time_sub now (cs_callLastVoiceAt c)) || negb (bool_decide (cs_callSourceCS c = source)) then
    let ended := if cs_callActive c then emitCallEventLocked s true else [] in
    let s := with_call s (mkCallState true ((cs_callStreamID c + 1) mod 2 ^ 64) (cs_callLastVoiceAt c) (fst (hn_remote s)) (snd (hn_remote s))
      ("NRL " +:+ source +:+ " via " +:+ hn_sourceKey s) source (n21_DMRID pkt)) in
    (s, ended ++ emitCallEventLocked s false)
  else (s, []).

Definition handleNRLPacket (s : nrlSession) (pkt : nrlPacket) (now : time) : nrlSession * list hn_output :=
  if negb (n21_Type pkt =? 1) || (length (n21_Data pkt) =? 0)%nat then (s, [])
  else
    let s := with_activity s now in
    let '(s, calls) := track_call s pkt now in
    let s := with_call s (heard_at (hn_call s) now) in
    let audio := emitAudioChunk s "analog-nrl" (nrl_stream s) (cs_callSourceDMRID (hn_call s)) (alawSamplesToPCM16 (n21_Data pkt)) false in
    let s := with_ulaw s (th_ulawBuffer (hn_hytera s) ++ concat (alawChunkToUlaw <$> chunks (n21_Data pkt))) in
    if (length (th_ulawBuffer (hn_hytera s)) <? nrlVoiceFlushWatermark)%nat then (s, calls ++ audio)
    else
      let '(s, outs) := flush_groups (length (th_ulawBuffer (hn_hytera s))) s in
      (s, calls ++ audio ++ outs).

(** What the read loop gets: a datagram, a timeout, or an error that ends it. *)
Inductive hn_read := ReadData (data : list Z) | ReadTimeout | ReadError.

Definition read_round (s : nrlSession) (r : hn_read) (now : time) : nrlSession * list hn_output :=
  if negb (hn_reading s) then (s, [])
  else
    match r with
    | ReadTimeout => (with_closed s (hn_closed s) (negb (hn_closed s)), [])
    | ReadError => (with_closed s (hn_closed s) false, [])
    | ReadData data => match decodeNRL21Packet data with inl pkt => handleNRLPacket s pkt now | inr _ => (s, []) end
    end.

(** ** Configuration and end of a session *)

Definition sameEndpoint (s : nrlSession) (cfg : NRLPeerConfig) : bool :=
  EqualFold (TrimSpace (str_bytes (ServerAddr (hn_cfg s)))) (TrimSpace (str_bytes (ServerAddr cfg))) && (ServerPort (hn_cfg s) =? ServerPort cfg).

Definition sameDynamicConfig (s : nrlSession) (cfg : NRLPeerConfig) : bool :=
  (peer_SSID (hn_cfg s) =? peer_SSID cfg) && bool_decide (normalizeNRLCallsign (peer_Callsign (hn_cfg s)) = normalizeNRLCallsign (peer_Callsign cfg))
  && (peer_DMRID (hn_cfg s) =? peer_DMRID cfg) && (HyteraVoicePort (hn_cfg s) =? HyteraVoicePort cfg).

Definition sameConfig (s : nrlSession) (cfg : NRLPeerConfig) : bool := sameEndpoint s cfg && sameDynamicConfig s cfg.

Definition updateConfig (s : nrlSession) (cfg : NRLPeerConfig) : nrlSession :=
  if hn_closed s then s
  else
    let oldVoicePort := HyteraVoicePort (hn_cfg s) in
    let s := with_hncfg s cfg in
    let h := hn_hytera s in
    match th_hyteraAddr h with
    | Some addr =>
        if negb (oldVoicePort =? HyteraVoicePort cfg) && (0 <? HyteraVoicePort cfg)
        then with_hytera s (mkToHytera (Some (mkAddr (addr_IP addr) (HyteraVoicePort cfg) (addr_Zone addr))) (th_templateReady h) (th_template h) (th_outSeq h) (th_ulawBuffer h))
        else s
    | None => s
    end.

Definition isExpired (s : nrlSession) (now : time) : bool := nrlSessionTTL <? time_sub now (hn_lastActivityAt s).

(** [close] waits for both loops to end. *)
Definition nrl_close (s : nrlSession) : nrlSession * list hn_output :=
  if hn_closed s then (s, [])
  else
    let outs := if cs_callActive (hn_call s) then emitCallEventLocked s true else [] in
    let s := if cs_callActive (hn_call s) then with_call s (inactive (hn_call s)) else s in
    (with_closed s true false, outs).

Definition new_nrlSession (sourceKey : string) (cfg : NRLPeerConfig) (remote : string * Z) (now : time) : nrlSession :=
  mkNrlSession sourceKey cfg remote (mkToHytera None false (replicate hyteraAnalogHeaderLen 0) 0 [])
    (mkCallState false 0 0 "" 0 "" "" 0) (mkToServer 0 [] [] 0 true) now false true.

(** ** Sessions *)

Notation nrlBridge := (gmap string nrlSession).

(** Put back a session with what a step made of it. *)
Definition put_nrl {A} (b : nrlBridge) (key : string) (r : nrlSession * A) : nrlBridge * A := (<[key := fst r]> b, snd r).

Definition closeSession (b : nrlBridge) (sourceKey : string) : nrlBridge * list hn_output :=
  match b !! sourceKey with
  | Some s => (delete sourceKey b, snd (nrl_close s))
  | None => (b, [])
  end.

(** [dialed] is the remote address of a new socket, if there is one. *)
Definition nrl_ensureSession (b : nrlBridge) (sourceKey : string) (cfg : NRLPeerConfig) (dialed : option (string * Z)) (now : time)
    : nrlBridge * list hn_output * bool :=
  match b !! sourceKey with
  | Some s =>
      if sameEndpoint s cfg then (<[sourceKey := updateConfig s cfg]> b, [], true)
      else
        let outs := snd (nrl_close s) in
        let b := delete sourceKey b in
        match dialed with
        | None => (b, outs, false)
        | Some remote => let '(s, more, _) := sendHeartbeat (new_nrlSession sourceKey cfg remote now) now in (<[sourceKey := s]> b, outs ++ more, true)
        end
  | None =>
      match dialed with
      | None => (b, [], false)
      | Some remote => let '(s, outs, _) := sendHeartbeat (new_nrlSession sourceKey cfg remote now) now in (<[sourceKey := s]> b, outs, true)
      end
  end.

(** The answer says whether the packet is the bridge's. *)
Definition HandleHyteraPacket (b : nrlBridge) (addr : option UDPAddr) (data : list Z) (resolver : string -> option NRLPeerConfig) (dialed : option (string * Z))
    (now : time) : nrlBridge * list hn_output * bool :=
  match addr with
  | None => (b, [], false)
  | Some addr =>
      let sourceKey := "hytera:" +:+ addr_IP addr in
      let usable cfg := negb (bool_decide (TrimSpace (str_bytes (ServerAddr cfg)) = [])) && negb (ServerPort cfg =? 0) in
      match resolver sourceKey with
      | Some cfg =>
          if usable cfg then
            match nrl_ensureSession b sourceKey cfg dialed now with
            | (b, outs, false) => (b, outs, isHyteraAnalogVoicePacket data)
            | (b, outs, true) =>
                match b !! sourceKey with
                | None => (b, outs, isHyteraAnalogVoicePacket data)
                | Some s =>
                    let '(s, beat) :=
                      if bool_decide (data = [0]) then let '(s, beat, _) := sendHeartbeat (with_activity s now) now in (s, beat) else (s, []) in
                    if isHyteraAnalogVoicePacket data
                    then let '(s, audio) := handleHyteraVoice s addr data now in (<[sourceKey := s]> b, outs ++ beat ++ audio, true)
                    else (<[sourceKey := s]> b, outs ++ beat, false)
                end
            end
          else let '(b, outs) := closeSession b sourceKey in (b, outs, isHyteraAnalogVoicePacket data)
      | None => let '(b, outs) := closeSession b sourceKey in (b, outs, isHyteraAnalogVoicePacket data)
      end
  end.

(** The tick of one session; [None] if it has expired. *)
Definition tick_session (s : nrlSession) (now : time) : nrlSession * list hn_output * bool :=
  let '(s, ended) := expireCallIfIdle s now in
  if isExpired s now then let '(s, outs) := nrl_close s in (s, ended ++ outs, false)
  else
    let '(s, outs, ok) := sendHeartbeat s now in
    (if ok : bool then with_activity s now else s, ended ++ outs, true).

Definition tickSessions (b : nrlBridge) (now : time) : nrlBridge * list hn_output :=
  foldl (fun '(b, outs) '(key, s) =>
    let '(s, more, stays) := tick_session s now in
    (if stays : bool then <[key := s]> b else delete key b, outs ++ more)) (b, []) (hn_iter b).

Definition nrl_Stop (b : nrlBridge) : nrlBridge * list hn_output := (∅, concat ((fun e => snd (nrl_close (snd e))) <$> hn_iter b)).

(** ** Events of one session *)

Inductive hn_event :=
| HnVoice (addr : UDPAddr) (data : list Z) (now : time)
| HnRead (r : hn_read) (now : time)
| HnWrite
| HnTick (now : time)
| HnConfig (cfg : NRLPeerConfig)
| HnPing (now : time)
| HnClose.

(** Only packets with analog voice come to [handleHyteraVoice].  While a chunk waits
    for the channel, the loop that reads from the repeater does not get to its next
    packet. *)
Definition hn_step (s : nrlSession) (e : hn_event) : nrlSession * list hn_output :=
  match e with
  | HnVoice addr data now => if isHyteraAnalogVoicePacket data && bool_decide (ts_waiting (hn_server s) = []) then handleHyteraVoice s addr data now else (s, [])
  | HnRead r now => read_round s r now
  | HnWrite => write_round s
  | HnTick now => let '(s, outs, _) := tick_session s now in (s, outs)
  | HnConfig cfg => (updateConfig s cfg, [])
  | HnPing now => let '(s, outs, _) := sendHeartbeat (with_activity s now) now in (s, outs)
  | HnClose => nrl_close s
  end.

Fixpoint hn_run (s : nrlSession) (evs : list hn_event) : nrlSession * list hn_output :=
  match evs with
  | [] => (s, [])
  | e :: evs => let '(s, outs) := hn_step s e in let '(s, more) := hn_run s evs in (s, outs ++ more)
  end.

(** The bridge takes exactly the packets with analog voice, whatever sessions there
    are and whether or not the repeater has a server. *)
Lemma bridge_takes_analog b addr data resolver dialed now :
  snd (HandleHyteraPacket b (Some addr) data resolver dialed now) = isHyteraAnalogVoicePacket data.
Proof.
  unfold HandleHyteraPacket. cbv zeta. destruct (resolver _) as [cfg |]; [| by destruct (closeSession _ _)].
  destruct (negb _ && negb _); [| by destruct (closeSession _ _)].
  destruct (nrl_ensureSession _ _ _ _ _) as [[b1 outs] [|]]; [| done]. destruct (b1 !! _) as [s |]; [| done].
  destruct (if bool_decide (data = [0]) then _ else _) as [s1 beat]. destruct (isHyteraAnalogVoicePacket data); [| done].
  by destruct (handleHyteraVoice _ _ _ _) as [s2 audio].
Qed.

(** A packet for a session with the same server is a sequence of steps of it. *)
Lemma handle_is_steps b addr data resolver dialed now cfg s :
  let key := "hytera:" +:+ addr_IP addr in
  b !! key = Some s -> resolver key = Some cfg -> TrimSpace (str_bytes (ServerAddr cfg)) <> [] -> ServerPort cfg <> 0 -> sameEndpoint s cfg = true ->
  ts_waiting (hn_server s) = [] ->
  let evs := HnConfig cfg :: (if bool_decide (data = [0]) then [HnPing now] else []) ++ (if isHyteraAnalogVoicePacket data then [HnVoice addr data now] else []) in
  HandleHyteraPacket b (Some addr) data resolver dialed now = (<[key := fst (hn_run s evs)]> b, snd (hn_run s evs), isHyteraAnalogVoicePacket data).
Proof.
  intros key Hs Hr Ha Hp He Hw evs. unfold HandleHyteraPacket. fold key. cbv zeta. rewrite Hr, bool_decide_false, (proj2 (Z.eqb_neq _ _) Hp) by done. cbn [negb andb].
  unfold nrl_ensureSession. rewrite Hs, He. cbv iota beta. rewrite lookup_insert_eq. subst evs. cbn [hn_run hn_step].
  assert (Hw1 : ts_waiting (hn_server (updateConfig s cfg)) = []) by (unfold updateConfig; repeat case_match; done).
  destruct (bool_decide (data = [0])) eqn:Hz.
  - apply bool_decide_eq_true in Hz as ->. change (isHyteraAnalogVoicePacket [0]) with false. cbn [app hn_run hn_step].
    destruct (sendHeartbeat _ now) as [[s1 beat] ok]. cbn [fst snd]. by rewrite insert_insert_eq, app_nil_r.
  - destruct (isHyteraAnalogVoicePacket data) eqn:Hv; cbn [app hn_run hn_step fst snd]; [| by rewrite insert_insert_eq].
    rewrite Hv, Hw1, bool_decide_true by done. cbn [andb]. destruct (handleHyteraVoice _ _ _ _) as [s2 audio]. cbn [fst snd]. by rewrite insert_insert_eq, app_nil_r.
Qed.

End bridge.
