(* ===== verification/HyteraAnalog.v ===== *)
(** * Analog calls through the Hytera server

    What the sessions of [HyteraNrl] promise: calls are reported with a start and
    an end each, audio goes through in both directions without loss as long as the
    goroutines run, and what happens when the write loop has ended. *)

From S2P Require Import Prelude Packet Strings Net Text G711 NrlFrame HyteraFrame HyteraNrl.

Section analog.
Context `{Unicode} `{NrlLink}.

(** ** Runs *)

Lemma run_app s l k : hn_run s (l ++ k) = let '(s1, o1) := hn_run s l in let '(s2, o2) := hn_run s1 k in (s2, o1 ++ o2).
Proof.
  revert s. induction l as [| e l IH]; intros s; cbn [app hn_run]; [by destruct (hn_run s k) |].
  destruct (hn_step s e) as [s1 o1]. rewrite IH. destruct (hn_run s1 l) as [s2 o2]. destruct (hn_run s2 k) as [s3 o3]. by rewrite app_assoc.
Qed.

(** ** The calls of a session *)

(** What a listener knows of the calls of a session: the last number, and the
    call that is going on, or the one whose end was reported and whose audio is to
    be ended. *)
Inductive call_phase := Quiet (n : Z) | Talking (start : NRLCallEvent) | Ending (start : NRLCallEvent).

Definition ended_call (e : NRLCallEvent) : NRLCallEvent :=
  mkCall true (ca_HyteraSourceKey e) (ca_SourceKey e) (ca_SourceName e) (ca_SourceCallsign e) (ca_SourceDMRID e) (ca_StreamID e) (ca_FromIP e) (ca_FromPort e).

Definition call_stream (e : NRLCallEvent) : string := "analog:nrl:" +:+ ca_HyteraSourceKey e +:+ ":" +:+ pretty (ca_StreamID e).

#[local] Instance call_eq_dec : EqDecision NRLCallEvent.
Proof. solve_decision. Defined.

(** The protocol of calls: they are numbered on, a call ends before the next one
    starts, the end repeats what the start said, audio only belongs to the call
    that is going on, and its end comes right after the end of the call. *)
Definition listen (p : call_phase) (o : hn_output) : option call_phase :=
  match o with
  | OutCall e =>
      match p with
      | Quiet n => if negb (ca_Ended e) && (ca_StreamID e =? n + 1) then Some (Talking e) else None
      | Talking start => if decide (e = ended_call start) then Some (Ending start) else None
      | Ending _ => None
      end
  | OutAudio a =>
      if negb (bool_decide (au_Frontend a = "analog-nrl")) then Some p
      else
        match p with
        | Quiet _ => None
        | Talking start => if negb (au_Ended a) && bool_decide (au_StreamID a = call_stream start) && (au_SourceDMRID a =? ca_SourceDMRID start) then Some p else None
        | Ending start => if au_Ended a && bool_decide (au_StreamID a = call_stream start) && bool_decide (au_PCM a = []) then Some (Quiet (ca_StreamID start)) else None
        end
  | _ => Some p
  end.

Fixpoint listens (p : call_phase) (outs : list hn_output) : option call_phase :=
  match outs with
  | [] => Some p
  | o :: outs => match listen p o with Some p => listens p outs | None => None end
  end.

Lemma listens_app p l k : listens p (l ++ k) = match listens p l with Some p => listens p k | None => None end.
Proof. revert p. induction l as [| o l IH]; intros p; [done |]. cbn [app listens]. by destruct (listen p o). Qed.

(** What a session has reported. *)
Definition phase_of (s : nrlSession) : call_phase :=
  if cs_callActive (hn_call s) then Talking (call_event s false) else Quiet (cs_callStreamID (hn_call s)).

(** Outputs a listener to calls does not care about. *)
Definition other_output (o : hn_output) : bool :=
  match o with OutCall _ => false | OutAudio a => negb (bool_decide (au_Frontend a = "analog-nrl")) | _ => true end.

Lemma listens_other p outs : forallb other_output outs = true -> listens p outs = Some p.
Proof.
  intros Ho. induction outs as [| o outs IH]; [done |]. cbn [forallb] in Ho. apply andb_prop in Ho as [Ho1 Ho2].
  cbn [listens]. destruct o; try done; cbn [listen other_output] in *; try by apply IH. rewrite Ho1. by apply IH.
Qed.

(** A step that leaves the call alone. *)
Definition call_kept (s s' : nrlSession) : Prop := hn_call s' = hn_call s /\ hn_sourceKey s' = hn_sourceKey s.

Lemma kept_phase s s' : call_kept s s' -> phase_of s' = phase_of s.
Proof. intros [E1 E2]. unfold phase_of, call_event. by rewrite E1, E2. Qed.

Context (call_handler : callHandler = true) (audio_handler : audioHandler = true).

Lemma emit_audio s frontend stream src pcm ended : stream <> "" -> emitAudioChunk s frontend stream src pcm ended = [OutAudio (mkAudio stream frontend (hn_sourceKey s) src pcm ended)].
Proof. intros Hs. unfold emitAudioChunk. by rewrite audio_handler, bool_decide_false. Qed.

Lemma nrl_stream_nonempty s : nrl_stream s <> "".
Proof. done. Qed.

(** The end of a call that is going on. *)
Lemma emit_end s n : cs_callActive (hn_call s) = true -> cs_callStreamID (hn_call s) = n -> n <> 0 -> listens (phase_of s) (emitCallEventLocked s true) = Some (Quiet n).
Proof.
  intros Ha Hn Hn0. unfold phase_of, emitCallEventLocked. rewrite Ha, call_handler, Hn, (proj2 (Z.eqb_neq _ _) Hn0). cbn [negb orb].
  rewrite emit_audio by apply nrl_stream_nonempty. cbn [listens listen au_Frontend au_Ended au_StreamID au_PCM].
  rewrite decide_True by done. cbn [listens listen au_Frontend au_Ended au_StreamID au_PCM]. rewrite !bool_decide_true by done. cbn. by rewrite Hn.
Qed.

(** The start of a call. *)
Lemma emit_start s n : cs_callActive (hn_call s) = true -> cs_callStreamID (hn_call s) = n + 1 -> n + 1 <> 0 -> listens (Quiet n) (emitCallEventLocked s false) = Some (phase_of s).
Proof.
  intros Ha Hn Hn0. unfold phase_of, emitCallEventLocked. rewrite Ha, call_handler, Hn, (proj2 (Z.eqb_neq _ _) Hn0). cbn [negb orb listens listen call_event ca_Ended ca_StreamID andb].
  by rewrite Hn, Z.eqb_refl.
Qed.

(** After at most [n] calls. *)
Definition calls_wf (n : Z) (s : nrlSession) : Prop :=
  0 <= cs_callStreamID (hn_call s) <= n /\ (cs_callActive (hn_call s) = true -> cs_callStreamID (hn_call s) <> 0).

(** A step reports what its state says. *)
Definition reports (n : Z) (s : nrlSession) (r : nrlSession * list hn_output) : Prop :=
  listens (phase_of s) (snd r) = Some (phase_of (fst r)) /\ calls_wf (n + 1) (fst r).

Lemma kept_reports n s s' outs : calls_wf n s -> call_kept s s' -> forallb other_output outs = true -> reports n s (s', outs).
Proof.
  intros [Hn Ha] Hk Ho. split; cbn [fst snd]; [by rewrite listens_other, (kept_phase s s') |]. unfold calls_wf. destruct Hk as [-> _]. split; [lia | done].
Qed.

Lemma end_reports n s : calls_wf n s -> cs_callActive (hn_call s) = true ->
  listens (phase_of s) (emitCallEventLocked s true) = Some (phase_of (with_call s (inactive (hn_call s)))) /\ calls_wf n (with_call s (inactive (hn_call s))).
Proof.
  intros [Hn Ha] Hact. split; [| by split]. by rewrite (emit_end s (cs_callStreamID (hn_call s))); [| | | apply Ha].
Qed.

Lemma expire_reports n s now : calls_wf n s ->
  let '(s', outs) := expireCallIfIdle s now in listens (phase_of s) outs = Some (phase_of s') /\ calls_wf n s'.
Proof.
  intros Hw. unfold expireCallIfIdle. destruct (cs_callActive (hn_call s)) eqn:Ha; [| by split]. cbn [negb].
  destruct (_ <=? _); [by split | by apply end_reports].
Qed.

Lemma close_reports n s : calls_wf n s ->
  let '(s', outs) := nrl_close s in listens (phase_of s) outs = Some (phase_of s') /\ calls_wf n s'.
Proof.
  intros Hw. unfold nrl_close. destruct (hn_closed s); [by split |]. destruct (cs_callActive (hn_call s)) eqn:Ha; [| by split].
  exact (end_reports n s Hw Ha).
Qed.

Lemma heartbeat_kept s now : let '(s', outs, _) := sendHeartbeat s now in call_kept s s' /\ forallb other_output outs = true.
Proof. unfold sendHeartbeat. cbv zeta. by repeat case_match; simplify_eq. Qed.

Lemma tick_reports n s now : calls_wf n s -> let '(s', outs, _) := tick_session s now in reports n s (s', outs).
Proof.
  intros Hw. unfold tick_session. pose proof (expire_reports n s now Hw) as He. destruct (expireCallIfIdle s now) as [s1 ended]. destruct He as [He1 He2].
  destruct (isExpired s1 now).
  - pose proof (close_reports n s1 He2) as Hc. destruct (nrl_close s1) as [s2 outs]. destruct Hc as [Hc1 Hc2].
    split; cbn [fst snd]; [by rewrite listens_app, He1 | destruct Hc2; split; [lia | done]].
  - pose proof (heartbeat_kept s1 now) as Hk. destruct (sendHeartbeat s1 now) as [[s2 outs] ok]. destruct Hk as [Hk Ho].
    pose proof (kept_reports n s1 s2 outs He2 Hk Ho) as [Hr1 Hr2]. cbn [fst snd] in *.
    split; cbn [fst snd]; [rewrite listens_app, He1, Hr1; by destruct ok | by destruct ok].
Qed.

Lemma voice_kept s addr data now : let '(s', outs) := handleHyteraVoice s addr data now in call_kept s s' /\ forallb other_output outs = true.
Proof.
  unfold handleHyteraVoice. cbv zeta. destruct (_ <=? _)%nat eqn:El, (length data <=? _)%nat; (split; [| try done; by rewrite emit_audio]); try done.
  all: apply (foldl_inv (fun s' => call_kept s s')); [done |]; intros s1 c _ Hs; unfold sendNRLVoice; destruct (hn_closed s1); exact Hs.
Qed.

Lemma write_kept s : let '(s', outs) := write_round s in call_kept s s' /\ forallb other_output outs = true.
Proof.
  unfold write_round. cbv zeta. destruct (_ || _); [done |]. destruct (ts_voiceQueue _) as [| c q]; [done |].
  unfold writeNRLPacket. cbv zeta. by repeat case_match; simplify_eq.
Qed.

Lemma config_kept s cfg : call_kept s (updateConfig s cfg).
Proof. unfold updateConfig. cbv zeta. by repeat case_match. Qed.

Lemma bootstrap_kept s : call_kept s (bootstrapHyteraFallbackLocked s).
Proof. unfold bootstrapHyteraFallbackLocked. cbv zeta. by repeat case_match. Qed.

Lemma build_kept s voice : call_kept s (fst (buildHyteraAnalogPacket s voice)).
Proof. unfold buildHyteraAnalogPacket. cbv zeta. pose proof (bootstrap_kept s) as Hk. by repeat case_match. Qed.

Lemma flush_kept fuel s : let '(s', outs) := flush_groups fuel s in call_kept s s' /\ forallb other_output outs = true.
Proof.
  revert s. induction fuel as [| fuel IH]; intros s; [done |]. cbn [flush_groups]. destruct (_ <? _)%nat; [done |].
  pose proof (build_kept (with_ulaw s (drop hyteraAnalogFrameGroup (th_ulawBuffer (hn_hytera s)))) (take hyteraAnalogFrameGroup (th_ulawBuffer (hn_hytera s)))) as Hb.
  destruct (buildHyteraAnalogPacket _ _) as [s1 packet]. specialize (IH s1). destruct (flush_groups fuel s1) as [s2 outs]. destruct IH as [[E1 E2] Ho], Hb as [F1 F2]. cbn [fst] in F1, F2.
  split; [split; [by rewrite E1, F1 | by rewrite E2, F2] |]. by destruct packet as [[packet addr] |].
Qed.

Lemma track_reports n s pkt now : calls_wf n s -> n + 1 < 2 ^ 64 ->
  let '(s', outs) := track_call s pkt now in reports n s (s', outs) /\ cs_callActive (hn_call s') = true.
Proof.
  intros Hw Hn. unfold track_call. cbv zeta. set (source := callSourceCallsign s _ _). destruct (_ || _) eqn:Hb; cycle 1.
  { apply orb_false_iff in Hb as [Hb _]. apply orb_false_iff in Hb as [Hb _]. apply negb_false_iff in Hb.
    split; [split; [done |] | done]. destruct Hw as [Hw1 Hw2]. split; [cbn [fst]; lia | done]. }
  set (c := hn_call s). destruct Hw as [Hw1 Hw2]. fold c in Hw1, Hw2.
  assert (Eid : (cs_callStreamID c + 1) mod 2 ^ 64 = cs_callStreamID c + 1) by (apply Z.mod_small; lia). rewrite Eid.
  set (s1 := with_call s (mkCallState true _ _ _ _ _ _ _)).
  assert (Hend : listens (phase_of s) (if cs_callActive c then emitCallEventLocked s true else []) = Some (Quiet (cs_callStreamID c))).
  { unfold c in *. destruct (cs_callActive (hn_call s)) eqn:Ha; [apply emit_end; [done | done | by apply Hw2] |]. unfold phase_of. by rewrite Ha. }
  split; [| done]. split; cbn [fst snd].
  - rewrite listens_app, Hend. apply emit_start; [done | done | lia].
  - split; cbn; [lia | intros _; lia].
Qed.

Lemma packet_reports n s pkt now : calls_wf n s -> n + 1 < 2 ^ 64 -> reports n s (handleNRLPacket s pkt now).
Proof.
  intros Hw Hn. unfold handleNRLPacket. cbv zeta. destruct (_ || _); [split; [done |]; destruct Hw; split; [cbn [fst]; lia | done] |].
  pose proof (track_reports n (with_activity s now) pkt now Hw Hn) as Ht. destruct (track_call (with_activity s now) pkt now) as [s1 calls]. destruct Ht as [[Ht1 Ht2] Hact]. cbn [fst snd] in *.
  set (s2 := with_call s1 (heard_at (hn_call s1) now)).
  assert (E2 : phase_of s2 = phase_of s1) by (unfold phase_of; subst s2; cbn [hn_call with_call heard_at cs_callActive]; done).
  set (s3 := with_ulaw s2 _). set (audio := emitAudioChunk s2 _ _ _ _ _).
  assert (Haudio : listens (phase_of s1) audio = Some (phase_of s1)).
  { subst audio. rewrite emit_audio by apply nrl_stream_nonempty. unfold phase_of. rewrite Hact. cbn [listens listen au_Frontend au_Ended au_StreamID au_SourceDMRID].
    rewrite !bool_decide_true by done. cbn [negb andb]. change (cs_callSourceDMRID (hn_call s2)) with (ca_SourceDMRID (call_event s1 false)). by rewrite Z.eqb_refl. }
  change (phase_of (with_activity s now)) with (phase_of s) in Ht1. clearbody audio.
  destruct (_ <? _)%nat.
  - split; cbn [fst snd]; [| exact Ht2]. rewrite listens_app, Ht1. cbv iota. exact Haudio.
  - pose proof (flush_kept (length (th_ulawBuffer (hn_hytera s3))) s3) as Hf. destruct (flush_groups _ s3) as [s4 outs]. destruct Hf as [Hk Ho].
    split; cbn [fst snd].
    + rewrite !listens_app, Ht1. cbv iota. rewrite listens_app, Haudio. cbv iota. rewrite (listens_other _ _ Ho). f_equal. rewrite (kept_phase s3 s4 Hk). symmetry. exact E2.
    + unfold calls_wf. destruct Hk as [-> _]. exact Ht2.
Qed.

Lemma step_reports n s e : calls_wf n s -> n + 1 < 2 ^ 64 -> reports n s (hn_step s e).
Proof.
  intros Hw Hn. assert (Hsame : reports n s (s, [])) by (by apply kept_reports).
  destruct e as [addr data now | r now | | now | cfg | now |]; cbn [hn_step].
  - destruct (_ && _); [| done]. pose proof (voice_kept s addr data now) as Hk. destruct (handleHyteraVoice s addr data now) as [s1 outs]. destruct Hk. by apply kept_reports.
  - unfold read_round. destruct (hn_reading s); [| done]. cbn [negb]. destruct r as [data | |]; [| by apply kept_reports..].
    destruct (decodeNRL21Packet data); [by apply packet_reports | done].
  - pose proof (write_kept s) as Hk. destruct (write_round s) as [s1 outs]. destruct Hk. by apply kept_reports.
  - pose proof (tick_reports n s now Hw) as Ht. by destruct (tick_session s now) as [[s1 outs] ok].
  - apply kept_reports; [done | apply config_kept | done].
  - pose proof (heartbeat_kept (with_activity s now) now) as Hk. destruct (sendHeartbeat _ now) as [[s1 outs] ok]. destruct Hk. by apply kept_reports.
  - pose proof (close_reports n s Hw) as Hc. destruct (nrl_close s) as [s1 outs]. destruct Hc as [Hc1 [Hc2 Hc3]]. split; [exact Hc1 | split; [cbn [fst]; lia | exact Hc3]].
Qed.

Lemma run_reports n s evs : calls_wf n s -> n + Z.of_nat (length evs) < 2 ^ 64 ->
  listens (phase_of s) (snd (hn_run s evs)) = Some (phase_of (fst (hn_run s evs))).
Proof.
  revert n s. induction evs as [| e evs IH]; intros n s Hw Hn; [done |]. cbn [hn_run]. cbn [length] in Hn.
  pose proof (step_reports n s e Hw ltac:(lia)) as [Hr1 Hr2]. destruct (hn_step s e) as [s1 o1]. cbn [fst snd] in *.
  specialize (IH (n + 1) s1 Hr2 ltac:(lia)). destruct (hn_run s1 evs) as [s2 o2]. cbn [fst snd] in *. by rewrite listens_app, Hr1, IH.
Qed.

(** C34: The calls of a repeater in analog mode are reported in order.  Whatever a new
    session goes through (packets, time-outs, configuration changes, failing reads
    and writes, its end), the reported calls are numbered 1, 2, 3, ...; each ends,
    with the data it started with, before the next one starts; audio from the
    server only carries the number and source of the call that is going on; the
    audio of a call is ended right after the call; and a call is left open exactly
    if the session is still in it. *)
Theorem calls_bracketed key cfg remote now evs :
  Z.of_nat (length evs) < 2 ^ 64 ->
  let '(s, outs) := hn_run (new_nrlSession key cfg remote now) evs in
  listens (Quiet 0) outs = Some (if cs_callActive (hn_call s) then Talking (call_event s false) else Quiet (cs_callStreamID (hn_call s))).
Proof.
  intros Hl. pose proof (run_reports 0 (new_nrlSession key cfg remote now) evs) as Hr. destruct (hn_run _ evs) as [s outs]. apply Hr; [| lia].
  split; cbn; [lia | done].
Qed.

(** ** Audio for the repeater *)

(** The voice in the packets for the repeater. *)
Definition repeater_voice (outs : list hn_output) : list Z :=
  concat (omap (fun o => match o with OutHytera d _ => Some (drop hyteraAnalogHeaderLen d) | _ => None end) outs).

(** The audio of a step that comes from the server, in whole chunks. *)
Definition heard (s : nrlSession) (e : hn_event) : list Z :=
  match e with
  | HnRead (ReadData data) _ =>
      if hn_reading s then
        match decodeNRL21Packet data with
        | inl pkt => if n21_Type pkt =? 1 then concat (alawChunkToUlaw <$> chunks (n21_Data pkt)) else []
        | inr _ => []
        end
      else []
  | _ => []
  end.

Fixpoint heard_run (s : nrlSession) (evs : list hn_event) : list Z :=
  match evs with
  | [] => []
  | e :: evs => heard s e ++ heard_run (fst (hn_step s e)) evs
  end.

(** A header as repeaters send it. *)
Definition header_ok (template : list Z) : Prop := length template = hyteraAnalogHeaderLen /\ hasNativeHyteraPrefix template = true.

(** The address of the repeater can be found. *)
Definition reachable (s : nrlSession) : Prop :=
  th_hyteraAddr (hn_hytera s) <> None \/ ParseIP (bytes_str (TrimSpace (str_bytes (trim_prefix "hytera:" (hn_sourceKey s))))) <> None.

Record link_ok (s : nrlSession) : Prop := {
  link_template : th_templateReady (hn_hytera s) = true -> header_ok (th_template (hn_hytera s));
  link_address : reachable s
}.

Lemma fallback_ok : header_ok hyteraAnalogFallbackHeader.
Proof. by split. Qed.

Lemma bootstrap_ok s : link_ok s ->
  let s1 := bootstrapHyteraFallbackLocked s in
  exists addr, th_hyteraAddr (hn_hytera s1) = Some addr /\ th_templateReady (hn_hytera s1) = true /\ header_ok (th_template (hn_hytera s1)) /\
    th_ulawBuffer (hn_hytera s1) = th_ulawBuffer (hn_hytera s) /\ hn_reading s1 = hn_reading s /\ hn_sourceKey s1 = hn_sourceKey s.
Proof.
  intros [Ht Ha]. unfold bootstrapHyteraFallbackLocked. cbv zeta.
  set (h := if th_templateReady (hn_hytera s) then _ else _).
  assert (Hh : th_hyteraAddr h = th_hyteraAddr (hn_hytera s) /\ th_templateReady h = true /\ header_ok (th_template h) /\ th_ulawBuffer h = th_ulawBuffer (hn_hytera s)).
  { subst h. destruct (th_templateReady (hn_hytera s)) eqn:Er; [by auto |]. by split_and!. }
  clearbody h. destruct Hh as (H1 & H2 & H3 & H4). destruct (th_hyteraAddr h) as [addr |] eqn:Ea; [by exists addr |].
  destruct Ha as [Ha | Ha]; [by rewrite <- H1 in Ha |]. destruct (ParseIP _) as [ip |]; [| done]. by eexists.
Qed.

(** A packet made of a header and voice. *)
Lemma analog_packet template seq voice : header_ok template -> length voice = hyteraAnalogFrameGroup ->
  let packet := list_inserts 0 (take hyteraAnalogHeaderLen template) (replicate hyteraAnalogPacketLen 0) in
  let packet := <[8%nat := 0x45]> (<[4%nat := seq]> packet) in
  let packet := list_inserts hyteraAnalogHeaderLen (take hyteraAnalogFrameGroup voice) packet in
  drop hyteraAnalogHeaderLen packet = voice /\ isHyteraAnalogVoicePacket packet = true.
Proof.
  intros [Hl Hp] Hv. cbv zeta. rewrite !take_ge by (rewrite ?Hl, ?Hv; unfold hyteraAnalogHeaderLen, hyteraAnalogFrameGroup; lia).
  assert (E1 : list_inserts 0 template (replicate hyteraAnalogPacketLen 0) = template ++ replicate 480 0).
  { change hyteraAnalogPacketLen with (32 + 480)%nat. rewrite replicate_add. apply list_inserts_0_r. by rewrite Hl. }
  rewrite E1. set (t := <[8%nat:=0x45]> (<[4%nat:=seq]> template)).
  assert (Ht : length t = 32%nat) by (subst t; by rewrite !length_insert, Hl).
  assert (E2 : <[8%nat:=0x45]> (<[4%nat:=seq]> (template ++ replicate 480 0)) = t ++ replicate 480 0).
  { subst t. unfold hyteraAnalogHeaderLen in Hl. rewrite !insert_app_l by (rewrite ?length_insert; lia). done. }
  rewrite E2. assert (E3 : list_inserts hyteraAnalogHeaderLen voice (t ++ replicate 480 0) = t ++ voice).
  { replace hyteraAnalogHeaderLen with (length t + 0)%nat by (rewrite Ht; done). rewrite list_inserts_app_r. f_equal.
    rewrite <- (app_nil_r (replicate 480 0)), list_inserts_0_r by (rewrite length_replicate; exact Hv). apply app_nil_r. }
  rewrite E3. split; [by apply drop_app_length' |]. unfold isHyteraAnalogVoicePacket, hasNativeHyteraPrefix. rewrite length_app, Ht, Hv.
  subst t. unfold hasNativeHyteraPrefix in Hp. unfold hyteraAnalogHeaderLen in Hl.
  destruct template as [| a0 [| a1 [| a2 [| a3 [| a4 [| a5 [| a6 [| a7 [| a8 template]]]]]]]]]; try discriminate Hl.
  change (true && (true && (a0 =? hyteraPrefixA) && (a1 =? hyteraPrefixA) && (a2 =? hyteraPrefixA) && (a3 =? hyteraPrefixA)) && true = true).
  rewrite andb_true_r. exact Hp.
Qed.

Definition packets_valid (outs : list hn_output) : Prop :=
  Forall (fun o => match o with OutHytera d _ => isHyteraAnalogVoicePacket d = true | _ => True end) outs.

(** What a step does with the audio for the repeater: [audio] is new. *)
Definition forwards (s : nrlSession) (audio : list Z) (r : nrlSession * list hn_output) : Prop :=
  repeater_voice (snd r) ++ th_ulawBuffer (hn_hytera (fst r)) = th_ulawBuffer (hn_hytera s) ++ audio /\ packets_valid (snd r) /\ link_ok (fst r).

Lemma repeater_voice_app l k : repeater_voice (l ++ k) = repeater_voice l ++ repeater_voice k.
Proof. unfold repeater_voice. by rewrite omap_app, concat_app. Qed.

Lemma build_ok s voice : link_ok s -> length voice = hyteraAnalogFrameGroup ->
  let '(s1, packet) := buildHyteraAnalogPacket s voice in
  exists d addr, packet = Some (d, addr) /\ drop hyteraAnalogHeaderLen d = voice /\ isHyteraAnalogVoicePacket d = true /\
    link_ok s1 /\ th_ulawBuffer (hn_hytera s1) = th_ulawBuffer (hn_hytera s).
Proof.
  intros Hok Hv. pose proof (bootstrap_ok s Hok) as (addr & B1 & B2 & B3 & B4 & B5 & B6). cbv zeta in *.
  unfold buildHyteraAnalogPacket. cbv zeta. rewrite B1, B2, Hv, Nat.ltb_irrefl. cbn [negb orb].
  eexists _, addr. split; [done |]. destruct (analog_packet _ (u8 (th_outSeq (hn_hytera (bootstrapHyteraFallbackLocked s)) + 1)) _ B3 Hv) as [P1 P2].
  split; [exact P1 |]. split; [exact P2 |]. split; [| exact B4]. split; [by intros _ | by left].
Qed.

Lemma with_ulaw_ok s buffer : link_ok s -> link_ok (with_ulaw s buffer).
Proof. by intros [H1 H2]. Qed.

Lemma flush_forwards fuel s : link_ok s -> (length (th_ulawBuffer (hn_hytera s)) <= fuel)%nat ->
  forwards s [] (flush_groups fuel s) /\ (length (th_ulawBuffer (hn_hytera (fst (flush_groups fuel s)))) < hyteraAnalogFrameGroup)%nat.
Proof.
  revert s. induction fuel as [| fuel IH]; intros s Hok Hf; cbn [flush_groups].
  - split; [| cbn [fst]; unfold hyteraAnalogFrameGroup; lia]. split; [by rewrite app_nil_r | split; [constructor | done]].
  - set (buffer := th_ulawBuffer (hn_hytera s)) in *. destruct (Nat.ltb_spec (length buffer) hyteraAnalogFrameGroup) as [| Hge].
    { split; [| done]. split; [by rewrite app_nil_r | split; [constructor | done]]. }
    pose proof (build_ok (with_ulaw s (drop hyteraAnalogFrameGroup buffer)) (take hyteraAnalogFrameGroup buffer) (with_ulaw_ok s _ Hok)) as Hb.
    destruct (buildHyteraAnalogPacket _ _) as [s1 packet]. destruct Hb as (d & addr & -> & Hd & Hv & Hok1 & Hu); [rewrite length_take; lia |].
    cbn [hn_hytera with_ulaw with_hytera th_ulawBuffer] in Hu.
    destruct (IH s1 Hok1) as [(F1 & F2 & F3) F4]; [rewrite Hu, length_drop; unfold hyteraAnalogFrameGroup in *; lia |].
    destruct (flush_groups fuel s1) as [s2 outs]. cbn [fst snd] in *. split; [| exact F4]. split; cbn [fst snd]; [| split; [by constructor | exact F3]].
    change (OutHytera d addr :: outs) with ([OutHytera d addr] ++ outs). rewrite repeater_voice_app, <- app_assoc, F1, Hu, !app_nil_r.
    unfold repeater_voice. cbn [omap list_omap concat]. rewrite Hd, app_nil_r. apply take_drop.
Qed.

(** A step that sends nothing to the repeater. *)
Definition no_packet (o : hn_output) : bool := match o with OutHytera _ _ => false | _ => true end.

Lemma no_packets_voice outs : forallb no_packet outs = true -> repeater_voice outs = [] /\ packets_valid outs.
Proof.
  unfold repeater_voice, packets_valid. intros Ho. induction outs as [| o outs IH]; [done |]. cbn [forallb] in Ho. apply andb_prop in Ho as [Ho1 Ho2].
  destruct (IH Ho2) as [E1 E2]. destruct o; try discriminate Ho1; cbn [omap list_omap]; (split; [exact E1 | by constructor]).
Qed.

Lemma kept_forwards s s' outs :
  th_ulawBuffer (hn_hytera s') = th_ulawBuffer (hn_hytera s) -> link_ok s' -> forallb no_packet outs = true -> forwards s [] (s', outs).
Proof. intros E Hok Ho. destruct (no_packets_voice outs Ho) as [E1 E2]. split; cbn [fst snd]; [by rewrite E1, E, app_nil_r | done]. Qed.

Lemma same_hytera s s' : link_ok s -> hn_hytera s' = hn_hytera s -> hn_sourceKey s' = hn_sourceKey s -> link_ok s'.
Proof. intros [H1 H2] E1 E2. split; [by rewrite E1 | unfold reachable; by rewrite E1, E2]. Qed.

(** A step that has nothing to do with the repeater. *)
Definition aside (s : nrlSession) (s' : nrlSession) (outs : list hn_output) : Prop :=
  hn_hytera s' = hn_hytera s /\ hn_sourceKey s' = hn_sourceKey s /\ forallb no_packet outs = true.

Lemma aside_forwards s s' outs : link_ok s -> aside s s' outs -> forwards s [] (s', outs).
Proof. intros Hok (E1 & E2 & Ho). apply kept_forwards; [by rewrite E1 | by eapply same_hytera | done]. Qed.

Lemma emit_audio_aside s frontend stream src pcm ended : forallb no_packet (emitAudioChunk s frontend stream src pcm ended) = true.
Proof. unfold emitAudioChunk. by destruct (_ || _). Qed.

Lemma emit_call_aside s ended : forallb no_packet (emitCallEventLocked s ended) = true.
Proof.
  unfold emitCallEventLocked. cbv zeta. pose proof (emit_audio_aside s "analog-nrl" (nrl_stream s) (cs_callSourceDMRID (hn_call s)) [] true) as Ha.
  destruct (_ || _), ended; cbn [andb]; try done. by destruct (negb _).
Qed.

Lemma expire_aside s now : let '(s', outs) := expireCallIfIdle s now in aside s s' outs.
Proof. unfold expireCallIfIdle. destruct (negb _); [done |]. destruct (_ <=? _); [done |]. split_and!; [done | done | apply emit_call_aside]. Qed.

Lemma close_aside s : let '(s', outs) := nrl_close s in aside s s' outs.
Proof. unfold nrl_close. cbv zeta. destruct (hn_closed s); [done |]. destruct (cs_callActive _); [| done]. split_and!; [done | done | apply emit_call_aside]. Qed.

Lemma heartbeat_aside s now : let '(s', outs, _) := sendHeartbeat s now in aside s s' outs.
Proof. unfold sendHeartbeat. cbv zeta. by repeat case_match; simplify_eq. Qed.

Lemma write_aside s : let '(s', outs) := write_round s in aside s s' outs.
Proof.
  unfold write_round. cbv zeta. destruct (_ || _); [done |]. destruct (ts_voiceQueue _) as [| c q]; [done |].
  unfold writeNRLPacket. cbv zeta. by repeat case_match; simplify_eq.
Qed.

Lemma aside_trans s s1 s2 o1 o2 : aside s s1 o1 -> aside s1 s2 o2 -> aside s s2 (o1 ++ o2).
Proof. intros (E1 & E2 & E3) (F1 & F2 & F3). split_and!; [congruence | congruence |]. rewrite forallb_app. by rewrite E3, F3. Qed.

Lemma tick_aside s now : let '(s', outs, _) := tick_session s now in aside s s' outs.
Proof.
  unfold tick_session. pose proof (expire_aside s now) as He. destruct (expireCallIfIdle s now) as [s1 ended]. destruct (isExpired s1 now).
  - pose proof (close_aside s1) as Hc. destruct (nrl_close s1) as [s2 outs]. by eapply aside_trans.
  - pose proof (heartbeat_aside s1 now) as Hb. destruct (sendHeartbeat s1 now) as [[s2 outs] ok].
    pose proof (aside_trans _ _ _ _ _ He Hb) as Ht. by destruct ok.
Qed.

Lemma track_aside s pkt now : let '(s', outs) := track_call s pkt now in aside s s' outs.
Proof.
  unfold track_call. cbv zeta. destruct (_ || _); [| done]. split_and!; [done | done |].
  rewrite forallb_app, emit_call_aside, andb_true_r. destruct (cs_callActive _); [apply emit_call_aside | done].
Qed.

Lemma chunks_nil : chunks [] = [].
Proof. done. Qed.

Lemma packet_forwards s pkt now : link_ok s -> (length (th_ulawBuffer (hn_hytera s)) < nrlVoiceFlushWatermark)%nat ->
  let r := handleNRLPacket s pkt now in
  forwards s (if n21_Type pkt =? 1 then concat (alawChunkToUlaw <$> chunks (n21_Data pkt)) else []) r /\
  (length (th_ulawBuffer (hn_hytera (fst r))) < nrlVoiceFlushWatermark)%nat.
Proof.
  intros Hok Hl. cbv zeta. unfold handleNRLPacket. cbv zeta. destruct (n21_Type pkt =? 1); cbn [negb orb]; [| split; [by apply kept_forwards | done]].
  destruct (Nat.eqb_spec (length (n21_Data pkt)) 0) as [E0 | _]; [apply nil_length_inv in E0; rewrite E0, chunks_nil; split; [by apply kept_forwards | done] |].
  set (audio := concat _). pose proof (track_aside (with_activity s now) pkt now) as Ht.
  destruct (track_call (with_activity s now) pkt now) as [s1 calls]. destruct Ht as (T1 & T2 & T3).
  set (s2 := with_call s1 (heard_at (hn_call s1) now)). pose proof (emit_audio_aside s2 "analog-nrl" (nrl_stream s2) (cs_callSourceDMRID (hn_call s2)) (alawSamplesToPCM16 (n21_Data pkt)) false) as Ha.
  set (said := emitAudioChunk s2 _ _ _ _ _) in *. clearbody said. set (s3 := with_ulaw s2 (th_ulawBuffer (hn_hytera s2) ++ audio)).
  assert (Hq : forallb no_packet (calls ++ said) = true) by (rewrite forallb_app; by rewrite T3, Ha).
  assert (Hok3 : link_ok s3) by (apply with_ulaw_ok; apply (same_hytera s s2); [done | exact T1 | exact T2]).
  assert (E3 : th_ulawBuffer (hn_hytera s3) = th_ulawBuffer (hn_hytera s) ++ audio).
  { subst s3. cbn [with_ulaw with_hytera hn_hytera th_ulawBuffer]. by rewrite (f_equal th_ulawBuffer (T1 : hn_hytera s2 = hn_hytera s)). }
  clearbody s3. destruct (no_packets_voice _ Hq) as [V1 V2].
  destruct (Nat.ltb_spec (length (th_ulawBuffer (hn_hytera s3))) nrlVoiceFlushWatermark).
  - split; [| done]. split; cbn [fst snd]; [by rewrite V1, E3 | done].
  - destruct (flush_forwards (length (th_ulawBuffer (hn_hytera s3))) s3 Hok3 ltac:(done)) as [(F1 & F2 & F3) F4].
    destruct (flush_groups _ s3) as [s4 outs]. cbn [fst snd] in *. split; [| unfold hyteraAnalogFrameGroup, nrlVoiceFlushWatermark in *; lia].
    split; cbn [fst snd]; [| split; [| exact F3]].
    + rewrite app_assoc, repeater_voice_app, V1. cbn [app]. by rewrite F1, E3, app_nil_r.
    + rewrite app_assoc. by apply Forall_app.
Qed.

Lemma sends_hytera s l :
  let s' := foldl (fun s chunk => sendNRLVoice s (ulawChunkToAlaw chunk)) s l in hn_hytera s' = hn_hytera s /\ hn_sourceKey s' = hn_sourceKey s.
Proof.
  cbv zeta. apply (foldl_inv (fun s' => hn_hytera s' = hn_hytera s /\ hn_sourceKey s' = hn_sourceKey s)); [done |].
  intros s1 c _ Hs. unfold sendNRLVoice. by destruct (hn_closed s1).
Qed.

Lemma voice_forwards s addr data now : link_ok s -> isHyteraAnalogVoicePacket data = true -> forwards s [] (handleHyteraVoice s addr data now).
Proof.
  intros [Ht Ha] Hv. unfold isHyteraAnalogVoicePacket in Hv. rewrite !andb_true_iff in Hv. destruct Hv as [[[Hl Hl2] Hp] _]. apply Nat.eqb_eq in Hl.
  unfold handleHyteraVoice. cbv zeta. rewrite Hl2. set (s1 := with_activity _ now).
  assert (Hok1 : link_ok s1 /\ th_ulawBuffer (hn_hytera s1) = th_ulawBuffer (hn_hytera s)).
  { split; [| done]. split; [intros _ | by left]. split; [change (length (take hyteraAnalogHeaderLen data) = hyteraAnalogHeaderLen); rewrite length_take, Hl; done |].
    change (hasNativeHyteraPrefix (take hyteraAnalogHeaderLen data) = true). unfold hyteraAnalogPacketLen in Hl.
    destruct data as [| a0 [| a1 [| a2 [| a3 data]]]]; try discriminate Hl. exact Hp. }
  clearbody s1. destruct Hok1 as [Hok1 Hu]. destruct (length data <=? hyteraAnalogHeaderLen)%nat; [by apply kept_forwards |].
  destruct (sends_hytera s1 (chunks (drop hyteraAnalogHeaderLen data))) as [E1 E2].
  apply kept_forwards; [by rewrite E1 | by apply (same_hytera s1) | apply emit_audio_aside].
Qed.

Lemma config_forwards s cfg : link_ok s -> forwards s [] (updateConfig s cfg, []).
Proof.
  intros Hok. unfold updateConfig. cbv zeta. destruct (hn_closed s); [by apply kept_forwards |]. destruct Hok as [Ht Ha].
  destruct (th_hyteraAddr (hn_hytera (with_hncfg s cfg))) as [addr |] eqn:E; [| by apply kept_forwards].
  destruct (_ && _); (apply kept_forwards; [done | | done]); (split; [exact Ht | by (done || left)]).
Qed.

Lemma step_forwards s e : link_ok s -> (length (th_ulawBuffer (hn_hytera s)) < nrlVoiceFlushWatermark)%nat ->
  forwards s (heard s e) (hn_step s e) /\ (length (th_ulawBuffer (hn_hytera (fst (hn_step s e)))) < nrlVoiceFlushWatermark)%nat.
Proof.
  intros Hok Hl.
  assert (Hshort : forall r, forwards s [] r -> forwards s [] r /\ (length (th_ulawBuffer (hn_hytera (fst r))) < nrlVoiceFlushWatermark)%nat).
  { intros r [F1 F2]. split; [by split |]. rewrite app_nil_r in F1. rewrite <- F1, length_app in Hl. lia. }
  assert (Hsame : forwards s [] (s, [])) by (by apply kept_forwards).
  destruct e as [addr data now | r now | | now | cfg now | now |]; cbn [hn_step heard].
  - apply Hshort. destruct (isHyteraAnalogVoicePacket data) eqn:Hv; cbn [andb]; [| done]. destruct (bool_decide _); [by apply voice_forwards | done].
  - unfold read_round. destruct (hn_reading s); cbn [negb]; [| destruct r; by apply Hshort].
    destruct r as [data | |]; [| apply Hshort, kept_forwards; [done | by apply (same_hytera s) | done]..].
    destruct (decodeNRL21Packet data) as [pkt |]; [by apply packet_forwards | by apply Hshort].
  - apply Hshort. pose proof (write_aside s) as Hw. destruct (write_round s) as [s1 outs]. by apply aside_forwards.
  - apply Hshort. pose proof (tick_aside s now) as Ht. destruct (tick_session s now) as [[s1 outs] ok]. by apply aside_forwards.
  - apply Hshort. by apply config_forwards.
  - apply Hshort. pose proof (heartbeat_aside (with_activity s now) now) as Hb. destruct (sendHeartbeat _ now) as [[s1 outs] ok]. by apply aside_forwards.
  - apply Hshort. pose proof (close_aside s) as Hc. destruct (nrl_close s) as [s1 outs]. by apply aside_forwards.
Qed.

(** The audio of the NRL server reaches the repeater.  Whatever a session goes
    through whose repeater has an address, the voice in the packets sent to the
    repeater, with what is still in the buffer, is the mu-law of the whole chunks
    of 160 bytes of all voice packets received, in order; what is still in the
    buffer is shorter than 500 bytes; and every packet sent is an analog voice
    packet of 512 bytes. *)
Theorem voice_to_repeater s evs :
  link_ok s -> (length (th_ulawBuffer (hn_hytera s)) < nrlVoiceFlushWatermark)%nat ->
  let '(s', outs) := hn_run s evs in
  repeater_voice outs ++ th_ulawBuffer (hn_hytera s') = th_ulawBuffer (hn_hytera s) ++ heard_run s evs /\
  (length (th_ulawBuffer (hn_hytera s')) < nrlVoiceFlushWatermark)%nat /\ packets_valid outs.
Proof.
  revert s. induction evs as [| e evs IH]; intros s Hok Hl; cbn [hn_run heard_run]; [split_and!; [by rewrite app_nil_r | done | constructor] |].
  destruct (step_forwards s e Hok Hl) as [(F1 & F2 & F3) F4]. destruct (hn_step s e) as [s1 o1]. cbn [fst snd] in *.
  specialize (IH s1 F3 F4). destruct (hn_run s1 evs) as [s2 o2]. destruct IH as (I1 & I2 & I3). split_and!; [| done | by apply Forall_app].
  by rewrite repeater_voice_app, <- app_assoc, I1, app_assoc, F1, <- app_assoc.
Qed.

(** ** Audio for the server *)

(** The voice in the datagrams to the server. *)
Definition server_voice (outs : list hn_output) : list (list Z) :=
  omap (fun o => match o with OutNRL d => if d.[20] =? 1 then Some (drop nrlHeaderLen d) else None | _ => None end) outs.

(** The chunks that are to be sent. *)
Definition backlog (s : nrlSession) : list (list Z) := ts_voiceQueue (hn_server s) ++ ts_waiting (hn_server s).

(** The chunks a step reads from the repeater. *)
Definition spoken (s : nrlSession) (e : hn_event) : list (list Z) :=
  match e with
  | HnVoice _ data _ =>
      if isHyteraAnalogVoicePacket data && bool_decide (ts_waiting (hn_server s) = []) && negb (hn_closed s)
      then ulawChunkToAlaw <$> chunks (drop hyteraAnalogHeaderLen data) else []
  | _ => []
  end.

Fixpoint spoken_run (s : nrlSession) (evs : list hn_event) : list (list Z) :=
  match evs with
  | [] => []
  | e :: evs => spoken s e ++ spoken_run (fst (hn_step s e)) evs
  end.

Lemma server_voice_app l k : server_voice (l ++ k) = server_voice l ++ server_voice k.
Proof. apply omap_app. Qed.

Lemma nrl21_datagram cfg typ payload count :
  (encodeNRL21Packet cfg typ payload count).[20] = typ /\ drop nrlHeaderLen (encodeNRL21Packet cfg typ payload count) = payload.
Proof.
  split; [done |]. unfold encodeNRL21Packet. rewrite !app_assoc. apply drop_app_length'.
  rewrite !length_app. unfold normalizeNRLCallsign. rewrite six_bytes_length, !length_replicate. done.
Qed.

(** A step that has nothing to do with voice for the server. *)
Definition not_voice (o : hn_output) : bool := match o with OutNRL d => negb (d.[20] =? 1) | _ => true end.

Lemma not_voice_none outs : forallb not_voice outs = true -> server_voice outs = [].
Proof.
  unfold server_voice. induction outs as [| o outs IH]; [done |]. cbn [forallb omap list_omap]. intros Ho. apply andb_prop in Ho as [Ho1 Ho2].
  destruct o; cbn [not_voice] in Ho1; try by apply IH. apply negb_true_iff in Ho1. rewrite Ho1. by apply IH.
Qed.

Record line_same (s s' : nrlSession) (outs : list hn_output) : Prop := {
  same_queue : ts_voiceQueue (hn_server s') = ts_voiceQueue (hn_server s);
  same_waiting : ts_waiting (hn_server s') = ts_waiting (hn_server s);
  same_writing : ts_writing (hn_server s') = ts_writing (hn_server s);
  no_voice : forallb not_voice outs = true
}.

Lemma line_trans s s1 s2 o1 o2 : line_same s s1 o1 -> line_same s1 s2 o2 -> line_same s s2 (o1 ++ o2).
Proof. intros [A1 A2 A3 A4] [B1 B2 B3 B4]. split; [congruence | congruence | congruence | rewrite forallb_app; by rewrite A4, B4]. Qed.

Lemma line_refl s : line_same s s [].
Proof. by split. Qed.

Lemma line_server s s' outs : hn_server s' = hn_server s -> forallb not_voice outs = true -> line_same s s' outs.
Proof. intros E Ho. split; [by rewrite E.. | done]. Qed.

Lemma emit_audio_line s frontend stream src pcm ended : forallb not_voice (emitAudioChunk s frontend stream src pcm ended) = true.
Proof. unfold emitAudioChunk. by destruct (_ || _). Qed.

Lemma emit_call_line s ended : forallb not_voice (emitCallEventLocked s ended) = true.
Proof.
  unfold emitCallEventLocked. cbv zeta. pose proof (emit_audio_line s "analog-nrl" (nrl_stream s) (cs_callSourceDMRID (hn_call s)) [] true) as Ha.
  destruct (_ || _), ended; cbn [andb]; try done. by destruct (negb _).
Qed.

Lemma heartbeat_line s now : let '(s', outs, _) := sendHeartbeat s now in line_same s s' outs.
Proof. unfold sendHeartbeat. cbv zeta. repeat case_match; simplify_eq; by split. Qed.

Lemma close_line s : let '(s', outs) := nrl_close s in line_same s s' outs.
Proof.
  unfold nrl_close. cbv zeta. destruct (hn_closed s); [apply line_refl |].
  destruct (cs_callActive _); apply line_server; try done. apply emit_call_line.
Qed.

Lemma expire_line s now : let '(s', outs) := expireCallIfIdle s now in line_same s s' outs.
Proof.
  unfold expireCallIfIdle. destruct (negb _); [apply line_refl |]. destruct (_ <=? _); [apply line_refl |].
  apply line_server; [done | apply emit_call_line].
Qed.

Lemma tick_line s now : let '(s', outs, _) := tick_session s now in line_same s s' outs.
Proof.
  unfold tick_session. pose proof (expire_line s now) as He. destruct (expireCallIfIdle s now) as [s1 ended]. destruct (isExpired s1 now).
  - pose proof (close_line s1) as Hc. destruct (nrl_close s1) as [s2 outs]. by eapply line_trans.
  - pose proof (heartbeat_line s1 now) as Hb. destruct (sendHeartbeat s1 now) as [[s2 outs] ok].
    destruct (line_trans _ _ _ _ _ He Hb) as [L1 L2 L3 L4]. destruct ok; by split.
Qed.

Lemma config_line s cfg : line_same s (updateConfig s cfg) [].
Proof. apply line_server; [| done]. unfold updateConfig. cbv zeta. by repeat case_match. Qed.

Lemma bootstrap_server s : hn_server (bootstrapHyteraFallbackLocked s) = hn_server s.
Proof. unfold bootstrapHyteraFallbackLocked. cbv zeta. by repeat case_match. Qed.

Lemma build_server s voice : hn_server (fst (buildHyteraAnalogPacket s voice)) = hn_server s.
Proof. unfold buildHyteraAnalogPacket. cbv zeta. pose proof (bootstrap_server s) as Hk. by repeat case_match. Qed.

Lemma flush_line fuel s : let '(s', outs) := flush_groups fuel s in line_same s s' outs.
Proof.
  revert s. induction fuel as [| fuel IH]; intros s; [apply line_refl |]. cbn [flush_groups]. destruct (_ <? _)%nat; [apply line_refl |].
  pose proof (build_server (with_ulaw s (drop hyteraAnalogFrameGroup (th_ulawBuffer (hn_hytera s)))) (take hyteraAnalogFrameGroup (th_ulawBuffer (hn_hytera s)))) as Hb.
  destruct (buildHyteraAnalogPacket _ _) as [s1 packet]. specialize (IH s1). destruct (flush_groups fuel s1) as [s2 outs]. cbn [fst] in Hb.
  destruct IH as [A1 A2 A3 A4]. rewrite Hb in A1, A2, A3. split; try done. by destruct packet as [[packet addr] |].
Qed.

Lemma track_line s pkt now : let '(s', outs) := track_call s pkt now in line_same s s' outs.
Proof.
  unfold track_call. cbv zeta. destruct (_ || _); [| apply line_refl]. apply line_server; [done |].
  rewrite forallb_app, emit_call_line, andb_true_r. destruct (cs_callActive _); [apply emit_call_line | done].
Qed.

Lemma packet_line s pkt now : let '(s', outs) := handleNRLPacket s pkt now in line_same s s' outs.
Proof.
  unfold handleNRLPacket. cbv zeta. destruct (_ || _); [apply line_refl |].
  pose proof (track_line (with_activity s now) pkt now) as Ht. destruct (track_call (with_activity s now) pkt now) as [s1 calls].
  set (s2 := with_call s1 (heard_at (hn_call s1) now)). set (s3 := with_ulaw s2 _). set (said := emitAudioChunk s2 _ _ _ _ _).
  assert (Hs : line_same s s3 (calls ++ said)).
  { apply (line_trans s s1 s3); [by destruct Ht | apply line_server; [done | apply emit_audio_line]]. }
  destruct (_ <? _)%nat; [exact Hs |]. pose proof (flush_line (length (th_ulawBuffer (hn_hytera s3))) s3) as Hf. destruct (flush_groups _ s3) as [s4 outs].
  rewrite app_assoc. by eapply line_trans.
Qed.

Lemma read_line s r now : let '(s', outs) := read_round s r now in line_same s s' outs.
Proof.
  unfold read_round. destruct (negb _); [apply line_refl |]. destruct r as [data | |]; [| by apply line_server..].
  destruct (decodeNRL21Packet data); [apply packet_line | apply line_refl].
Qed.

(** The channel: no chunk waits while there is room. *)
Definition queue_ok (s : nrlSession) : Prop :=
  (length (ts_voiceQueue (hn_server s)) <= voiceQueue_cap)%nat /\
  (ts_waiting (hn_server s) <> [] -> length (ts_voiceQueue (hn_server s)) = voiceQueue_cap).

Lemma fill_backlog v : ts_voiceQueue (fill_queue v) ++ ts_waiting (fill_queue v) = ts_voiceQueue v ++ ts_waiting v.
Proof. cbn [fill_queue ts_voiceQueue ts_waiting]. by rewrite <- app_assoc, take_drop. Qed.

Lemma fill_ok s v : hn_server s = fill_queue v -> (length (ts_voiceQueue v) <= voiceQueue_cap)%nat -> queue_ok s.
Proof.
  intros E Hl. unfold queue_ok. rewrite E. cbn [fill_queue ts_voiceQueue ts_waiting]. rewrite length_app, length_take. split; [lia |].
  intros Hw. assert (Hd : (0 < length (drop (voiceQueue_cap - length (ts_voiceQueue v)) (ts_waiting v)))%nat) by (destruct (drop _ _); [done | cbn; lia]).
  rewrite length_drop in Hd. lia.
Qed.

Lemma sends_line s l : hn_closed s = false -> queue_ok s ->
  let s' := foldl (fun s chunk => sendNRLVoice s (ulawChunkToAlaw chunk)) s l in
  backlog s' = backlog s ++ (ulawChunkToAlaw <$> l) /\ queue_ok s' /\ ts_writing (hn_server s') = ts_writing (hn_server s) /\ hn_closed s' = false.
Proof.
  cbv zeta. revert s. induction l as [| c l IH]; intros s Hc Hq; cbn [foldl fmap list_fmap]; [by rewrite app_nil_r |].
  assert (Es : sendNRLVoice s (ulawChunkToAlaw c) = with_server s (fill_queue (mkToServer (ts_nextNRLCount (hn_server s)) (ts_voiceQueue (hn_server s))
    (ts_waiting (hn_server s) ++ [ulawChunkToAlaw c]) (ts_lastHeartbeatAt (hn_server s)) (ts_writing (hn_server s))))) by (unfold sendNRLVoice; by rewrite Hc).
  rewrite Es. set (s1 := with_server s _). assert (Hq1 : queue_ok s1) by (eapply fill_ok; [reflexivity | apply Hq]).
  destruct (IH s1 Hc Hq1) as (I1 & I2 & I3 & I4). split_and!; [| done | by rewrite I3 | done].
  rewrite I1. unfold backlog at 1. subst s1. cbn [hn_server with_server]. rewrite fill_backlog. cbn [ts_voiceQueue ts_waiting]. unfold backlog.
  rewrite (app_assoc (ts_voiceQueue _)), <- app_assoc. done.
Qed.

(** What a step does with the voice for the server: [lost] is a chunk that could
    not be written. *)
Definition transmits (s : nrlSession) (voice : list (list Z)) (r : nrlSession * list hn_output) : Prop :=
  exists lost, server_voice (snd r) ++ lost ++ backlog (fst r) = backlog s ++ voice /\ (length lost <= 1)%nat /\ queue_ok (fst r) /\
    (ts_writing (hn_server s) = false -> server_voice (snd r) = [] /\ lost = [] /\ ts_writing (hn_server (fst r)) = false) /\
    (ts_writing (hn_server (fst r)) = true -> lost = []).

Ltac split_five := split; [| split; [| split; [| split]]].

Lemma line_transmits s s' outs : queue_ok s -> line_same s s' outs -> transmits s [] (s', outs).
Proof.
  intros Hq [L1 L2 L3 L4]. exists []. cbn [fst snd]. rewrite (not_voice_none _ L4). unfold queue_ok, backlog. rewrite L1, L2, L3, app_nil_r. cbn [app length]. split_five; try done. lia.
Qed.

Lemma write_transmits s : queue_ok s -> transmits s [] (write_round s).
Proof.
  intros Hq. pose proof (line_transmits s s [] Hq (line_refl s)) as Hnone. unfold write_round. cbv zeta.
  destruct (hn_closed s) eqn:Hc; [done |]. destruct (ts_writing (hn_server s)) eqn:Hw; [| done]. cbn [negb orb].
  destruct (ts_voiceQueue (hn_server s)) as [| c queue] eqn:Eq; [done |].
  set (v := mkToServer _ queue _ _ true). unfold writeNRLPacket. cbn [hn_closed with_server hn_server hn_cfg]. rewrite Hc.
  set (d := encodeNRL21Packet _ _ _ _). destruct (nrl21_datagram (hn_cfg s) 1 c (ts_nextNRLCount (fill_queue v))) as [D1 D2]. fold d in D1, D2.
  assert (Hb : c :: (ts_voiceQueue (fill_queue v) ++ ts_waiting (fill_queue v)) = backlog s) by (rewrite fill_backlog; unfold backlog; by rewrite Eq).
  assert (Hok : forall s1 cnt beat w, hn_server s1 = mkToServer cnt (ts_voiceQueue (fill_queue v)) (ts_waiting (fill_queue v)) beat w -> queue_ok s1).
  { intros s1 cnt beat w E. assert (Hf : queue_ok (with_server s (fill_queue v))); [| unfold queue_ok in *; by rewrite E].
    eapply fill_ok; [reflexivity |]. destruct Hq as [Hq _]. rewrite Eq in Hq. cbn in *. lia. }
  destruct (nrl_write d).
  - exists []. cbn [fst snd app]. split_five; [| cbn; lia | by eapply Hok | by rewrite Hw | done].
    unfold server_voice. cbn [omap list_omap]. rewrite D1, D2. cbn [Z.eqb Pos.eqb app]. rewrite app_nil_r. exact Hb.
  - exists [c]. cbn [fst snd app]. split_five; [by rewrite app_nil_r | done | by eapply Hok | by rewrite Hw | done].
Qed.

Lemma voice_transmits s addr data now : queue_ok s -> isHyteraAnalogVoicePacket data = true ->
  transmits s (if negb (hn_closed s) then ulawChunkToAlaw <$> chunks (drop hyteraAnalogHeaderLen data) else []) (handleHyteraVoice s addr data now).
Proof.
  intros Hq Hv. unfold isHyteraAnalogVoicePacket in Hv. rewrite !andb_true_iff in Hv. destruct Hv as [[[Hl Hl2] _] _]. apply Nat.eqb_eq in Hl.
  unfold handleHyteraVoice. cbv zeta. rewrite Hl2. set (s1 := with_activity _ now). assert (E1 : hn_server s1 = hn_server s) by done. assert (E2 : hn_closed s1 = hn_closed s) by done.
  clearbody s1. rewrite Hl. change (hyteraAnalogPacketLen <=? hyteraAnalogHeaderLen)%nat with false. cbv iota.
  set (outs := emitAudioChunk _ _ _ _ _ _). assert (Ho : server_voice outs = []) by apply not_voice_none, emit_audio_line. clearbody outs.
  destruct (hn_closed s) eqn:Hc; cbn [negb].
  - set (s2 := foldl _ s1 _). assert (Es : hn_server s2 = hn_server s).
    { subst s2. apply (foldl_inv (fun s' => hn_server s' = hn_server s /\ hn_closed s' = true)); [by split |].
      intros s3 c _ [F1 F2]. unfold sendNRLVoice. by rewrite F2. }
    exists []. cbn [fst snd]. rewrite Ho. unfold backlog, queue_ok. rewrite Es, app_nil_r. cbn [app length]. split_five; try done. lia.
  - assert (Hq1 : queue_ok s1) by (unfold queue_ok; by rewrite E1).
    destruct (sends_line s1 (chunks (drop hyteraAnalogHeaderLen data)) E2 Hq1) as (S1 & S2 & S3 & S4). cbv zeta in *.
    exists []. cbn [fst snd]. rewrite Ho, S1, S3, E1. unfold backlog. rewrite E1. cbn [app length]. split_five; try done. lia.
Qed.

Lemma step_transmits s e : queue_ok s -> transmits s (spoken s e) (hn_step s e).
Proof.
  intros Hq. pose proof (line_transmits s s [] Hq (line_refl s)) as Hnone.
  destruct e as [addr data now | r now | | now | cfg | now |]; cbn [hn_step spoken].
  - destruct (isHyteraAnalogVoicePacket data) eqn:Hv; cbn [andb]; [| done]. destruct (bool_decide _); cbn [andb]; [by apply voice_transmits | done].
  - pose proof (read_line s r now) as Hr. destruct (read_round s r now). by apply line_transmits.
  - by apply write_transmits.
  - pose proof (tick_line s now) as Ht. destruct (tick_session s now) as [[s1 outs] ok]. by apply line_transmits.
  - apply line_transmits; [done | apply config_line].
  - pose proof (heartbeat_line (with_activity s now) now) as Hb. destruct (sendHeartbeat _ now) as [[s1 outs] ok]. apply line_transmits; [done |]. by destruct Hb.
  - pose proof (close_line s) as Hc. destruct (nrl_close s). by apply line_transmits.
Qed.

(** C35: The voice of the repeater reaches the NRL server.  Whatever a session goes
    through, the voice in the datagrams to the server, then at most one chunk lost
    with a write that failed, then what is in the channel and what waits for it,
    is the A-law of all chunks read from the repeater, in order; as long as the
    write loop runs nothing is lost; the channel never holds more than 256 chunks,
    and no chunk waits while it has room. *)
Theorem voice_to_server s evs :
  queue_ok s ->
  let '(s', outs) := hn_run s evs in
  exists lost, server_voice outs ++ lost ++ backlog s' = backlog s ++ spoken_run s evs /\ (length lost <= 1)%nat /\
    (ts_writing (hn_server s') = true -> lost = []) /\ queue_ok s'.
Proof.
  intros Hq. assert (Ht : transmits s (spoken_run s evs) (hn_run s evs)).
  { revert s Hq. induction evs as [| e evs IH]; intros s Hq; cbn [hn_run spoken_run]; [apply line_transmits; [done | apply line_refl] |].
    destruct (step_transmits s e Hq) as (lost & T1 & T2 & T3 & T4 & T5). destruct (hn_step s e) as [s1 o1]. cbn [fst snd] in *.
    destruct (IH s1 T3) as (lost' & U1 & U2 & U3 & U4 & U5). destruct (hn_run s1 evs) as [s2 o2]. cbn [fst snd] in *.
    exists (lost ++ lost'). cbn [fst snd]. rewrite server_voice_app. destruct (ts_writing (hn_server s1)) eqn:Ew.
    - rewrite (T5 eq_refl) in *. cbn [app] in *. split_five; [| done | done | intros Hs; destruct (T4 Hs) as (_ & _ & ?); congruence | done].
      rewrite <- app_assoc, U1, app_assoc, T1, <- app_assoc. done.
    - destruct (U4 eq_refl) as (V1 & -> & V3). rewrite V1, !app_nil_r in *. cbn [app] in U1. split_five; [| done | done | intros Hs; by destruct (T4 Hs) as (? & ? & ?) | congruence].
      by rewrite U1, app_assoc, app_assoc, <- (app_assoc _ lost), T1, <- app_assoc. }
  destruct (hn_run s evs) as [s' outs]. destruct Ht as (lost & T1 & T2 & T3 & _ & T5). by exists lost.
Qed.

(** ** After a failed write *)

(** The clock does not go back and the ticks come in time. *)
Fixpoint on_time (tick last : time) (evs : list hn_event) : Prop :=
  match evs with
  | [] => True
  | HnTick now :: evs => last <= now /\ now - tick <= nrlSessionTTL /\ on_time now now evs
  | (HnVoice _ _ now | HnRead _ now | HnPing now) :: evs => last <= now /\ on_time tick now evs
  | HnClose :: _ => False
  | _ :: evs => on_time tick last evs
  end.

(** The write loop is gone and the channel is full. *)
Record stuck (tick : time) (s : nrlSession) : Prop := {
  stuck_writing : ts_writing (hn_server s) = false;
  stuck_open : hn_closed s = false;
  stuck_waiting : ts_waiting (hn_server s) <> [];
  stuck_active : tick <= hn_lastActivityAt s
}.

(** What keeps the session as it is. *)
Definition stays_open (s s' : nrlSession) : Prop := hn_closed s' = hn_closed s.

Lemma emit_open s pkt now : stays_open s (fst (track_call s pkt now)) /\ hn_lastActivityAt (fst (track_call s pkt now)) = hn_lastActivityAt s.
Proof. unfold track_call. cbv zeta. by destruct (_ || _). Qed.

Lemma build_open s voice : stays_open s (fst (buildHyteraAnalogPacket s voice)) /\ hn_lastActivityAt (fst (buildHyteraAnalogPacket s voice)) = hn_lastActivityAt s.
Proof. unfold buildHyteraAnalogPacket, bootstrapHyteraFallbackLocked. cbv zeta. by repeat case_match. Qed.

Lemma flush_open fuel s : stays_open s (fst (flush_groups fuel s)) /\ hn_lastActivityAt (fst (flush_groups fuel s)) = hn_lastActivityAt s.
Proof.
  revert s. induction fuel as [| fuel IH]; intros s; [done |]. cbn [flush_groups]. destruct (_ <? _)%nat; [done |].
  destruct (build_open (with_ulaw s (drop hyteraAnalogFrameGroup (th_ulawBuffer (hn_hytera s)))) (take hyteraAnalogFrameGroup (th_ulawBuffer (hn_hytera s)))) as [B1 B2].
  destruct (buildHyteraAnalogPacket _ _) as [s1 packet]. destruct (IH s1) as [I1 I2]. destruct (flush_groups fuel s1) as [s2 outs]. cbn [fst] in *.
  unfold stays_open in *. split; [by rewrite I1, B1 | by rewrite I2, B2].
Qed.

Lemma packet_open s pkt now : stays_open s (fst (handleNRLPacket s pkt now)) /\ (hn_lastActivityAt (fst (handleNRLPacket s pkt now)) = now \/ fst (handleNRLPacket s pkt now) = s).
Proof.
  unfold handleNRLPacket. cbv zeta. destruct (_ || _); [by split; [| right] |].
  destruct (emit_open (with_activity s now) pkt now) as [T1 T2]. destruct (track_call (with_activity s now) pkt now) as [s1 calls]. cbn [fst] in T1, T2.
  set (s3 := with_ulaw (with_call s1 (heard_at (hn_call s1) now)) _). destruct (_ <? _)%nat; [by split; [| left] |].
  destruct (flush_open (length (th_ulawBuffer (hn_hytera s3))) s3) as [F1 F2]. destruct (flush_groups _ s3) as [s4 outs]. cbn [fst] in *.
  split; [unfold stays_open in *; by rewrite F1 | left; by rewrite F2].
Qed.

Lemma read_open s r now : stays_open s (fst (read_round s r now)) /\
  (hn_lastActivityAt (fst (read_round s r now)) = now \/ hn_lastActivityAt (fst (read_round s r now)) = hn_lastActivityAt s).
Proof.
  unfold read_round. destruct (negb _); [by split; [| right] |]. destruct r as [data | |]; [| by split; [| right]..].
  destruct (decodeNRL21Packet data) as [pkt |]; [| by split; [| right]]. destruct (packet_open s pkt now) as [P1 [P2 | P2]]; (split; [exact P1 |]); [by left | right; by rewrite P2].
Qed.

Lemma stuck_line tick s s' outs : stuck tick s -> line_same s s' outs -> hn_closed s' = false -> tick <= hn_lastActivityAt s' -> stuck tick s'.
Proof. intros [S1 S2 S3 S4] [L1 L2 L3 L4] Hc Ha. split; [by rewrite L3 | done | by rewrite L2 | done]. Qed.

(** A step of a stuck session in time: nothing moves. *)
Definition stands_still (tick : time) (s : nrlSession) (r : nrlSession * list hn_output) : Prop :=
  stuck tick (fst r) /\ line_same s (fst r) (snd r).

Context (heartbeats_pass : forall cfg count, nrl_write (encodeNRL21Packet cfg 2 [] count) = true).

Lemma heartbeat_open s now : hn_closed s = false ->
  let '(s', _, ok) := sendHeartbeat s now in ok = true /\ hn_closed s' = false /\ hn_lastActivityAt s' = hn_lastActivityAt s.
Proof. intros Hc. unfold sendHeartbeat. cbv zeta. rewrite Hc. destruct (_ && _); [done |]. cbn [hn_cfg with_server]. rewrite heartbeats_pass. done. Qed.

Lemma tick_stands tick s now : stuck tick s -> now - tick <= nrlSessionTTL ->
  let '(s', outs, _) := tick_session s now in stands_still now s (s', outs).
Proof.
  intros Hs Hn. pose proof (tick_line s now) as Hl. unfold tick_session in *. pose proof (expire_line s now) as He.
  assert (Hk : hn_closed (fst (expireCallIfIdle s now)) = false /\ hn_lastActivityAt (fst (expireCallIfIdle s now)) = hn_lastActivityAt s).
  { destruct Hs. unfold expireCallIfIdle. destruct (negb _); [done |]. by destruct (_ <=? _). }
  destruct (expireCallIfIdle s now) as [s1 ended]. cbn [fst] in Hk. destruct Hk as [K1 K2].
  assert (Hx : isExpired s1 now = false).
  { unfold isExpired. apply Z.ltb_ge. rewrite K2. destruct Hs as [_ _ _ Ha]. pose proof (time_sub_gt now (hn_lastActivityAt s) nrlSessionTTL) as Hg.
    unfold nrlSessionTTL, millisecond, max_duration in *. lia. }
  rewrite Hx in *. pose proof (heartbeat_open s1 now K1) as Hb. destruct (sendHeartbeat s1 now) as [[s2 outs] ok]. destruct Hb as (-> & B2 & B3).
  split; cbn [fst snd]; [| exact Hl]. destruct Hs as [S1 S2 S3 S4], Hl as [L1 L2 L3 L4]. split; [by rewrite L3 | exact B2 | by rewrite L2 | cbn; lia].
Qed.

Lemma stuck_step tick last s e evs : stuck tick s -> tick <= last -> on_time tick last (e :: evs) ->
  exists tick' last', stands_still tick' s (hn_step s e) /\ tick' <= last' /\ on_time tick' last' evs /\ spoken s e = [].
Proof.
  intros Hs Ht Hon. assert (Hfull : bool_decide (ts_waiting (hn_server s) = []) = false) by (apply bool_decide_false; by destruct Hs).
  assert (Hsame : stands_still tick s (s, [])) by (split; [exact Hs | apply line_refl]).
  destruct e as [addr data now | r now | | now | cfg | now |]; cbn [on_time hn_step spoken] in *.
  - destruct Hon as [H1 Hon]. exists tick, now. rewrite Hfull, andb_false_r. split; [exact Hsame |]. split; [lia | done].
  - destruct Hon as [H1 Hon]. exists tick, now. split; [| split; [lia | done]]. pose proof (read_line s r now) as Hr. destruct (read_open s r now) as [R1 R2].
    destruct (read_round s r now) as [s1 outs]. cbn [fst] in *. split; cbn [fst snd]; [| exact Hr].
    eapply stuck_line; [exact Hs | exact Hr | rewrite R1; by destruct Hs | destruct R2 as [-> | ->]; [lia | by destruct Hs]].
  - exists tick, last. split; [| done]. unfold write_round. destruct Hs as [-> -> ? ?]. exact Hsame.
  - destruct Hon as (H1 & H2 & Hon). exists now, now. split; [| split; [lia | done]]. pose proof (tick_stands tick s now Hs H2) as Htick.
    destruct (tick_session s now) as [[s1 outs] ok]. exact Htick.
  - exists tick, last. split; [| done]. split; cbn [fst snd]; [| apply config_line]. eapply stuck_line; [exact Hs | apply config_line | |].
    + destruct Hs. unfold updateConfig. cbv zeta. by repeat case_match.
    + destruct Hs. unfold updateConfig. cbv zeta. by repeat case_match.
  - destruct Hon as [H1 Hon]. exists tick, now. split; [| split; [lia | done]]. pose proof (heartbeat_line (with_activity s now) now) as Hl.
    assert (Hc : hn_closed (with_activity s now) = false) by (by destruct Hs).
    pose proof (heartbeat_open (with_activity s now) now Hc) as Hb. destruct (sendHeartbeat _ now) as [[s1 outs] ok]. destruct Hb as (_ & B2 & B3).
    assert (Hl' : line_same s s1 outs) by (by destruct Hl). split; cbn [fst snd]; [| exact Hl']. eapply stuck_line; [exact Hs | exact Hl' | exact B2 | rewrite B3; cbn; lia].
  - done.
Qed.

(** One failed write silences a repeater for good.  When the write loop has ended
    and the channel is full, then, as long as heartbeats can be sent and the ticks
    come within six seconds of each other, nothing the session goes through changes
    that, short of its removal: it stays open, not one more chunk is sent, none
    leaves the channel, and the loop that reads from the repeaters waits forever and
    reads no packet any more. *)
Theorem write_loop_stuck tick last s evs :
  stuck tick s -> tick <= last -> on_time tick last evs ->
  let '(s', outs) := hn_run s evs in
  hn_closed s' = false /\ server_voice outs = [] /\ backlog s' = backlog s /\ ts_waiting (hn_server s') <> [] /\ spoken_run s evs = [].
Proof.
  intros Hs Ht Hon. assert (Hrun : exists tick', stuck tick' (fst (hn_run s evs)) /\ line_same s (fst (hn_run s evs)) (snd (hn_run s evs)) /\ spoken_run s evs = []).
  { revert tick last s Hs Ht Hon. induction evs as [| e evs IH]; intros tick lst s Hs Ht Hon; [exists tick; split; [done | split; [apply line_refl | done]] |].
    destruct (stuck_step tick lst s e evs Hs Ht Hon) as (tick' & last' & [Hs1 Hl1] & Ht' & Hon' & Hsp). cbn [hn_run spoken_run].
    destruct (hn_step s e) as [s1 o1]. cbn [fst snd] in *. destruct (IH tick' last' s1 Hs1 Ht' Hon') as (tick2 & Hs2 & Hl2 & Hsp2).
    destruct (hn_run s1 evs) as [s2 o2]. cbn [fst snd] in *. exists tick2. split; [exact Hs2 |]. split; [by eapply line_trans | by rewrite Hsp, Hsp2]. }
  destruct Hrun as (tick' & [S1 S2 S3 S4] & [L1 L2 L3 L4] & Hsp). destruct (hn_run s evs) as [s' outs]. cbn [fst snd] in *.
  split_and!; [done | by apply not_voice_none | unfold backlog; by rewrite L1, L2 | done | done].
Qed.

End analog.

(** ** Concrete sessions *)

(** The bridge of the NRL server sends payloads of 500 bytes; 20 bytes of each are
    left out. *)
Lemma payload_tail_dropped b : length (concat (chunks (replicate 500 b))) = 480%nat.
Proof. reflexivity. Qed.

(** The gain of three wraps: a loud positive sample becomes a negative one. *)
Lemma gain_wraps : UlawToLinear 0x90 = 15996 /\ AlawToLinear <$> ulawChunkToAlaw [0x90] = [-17920].
Proof. by split; vm_compute. Qed.

Section sample.

(** A network on which the second datagram cannot be sent. *)
#[local] Instance sample_link : NrlLink := {|
  callHandler := true;
  audioHandler := true;
  nrl_write d := negb ((d.[20] =? 1) && (d.[23] =? 1));
  cfg_DMRPort := 0;
  ParseIP ip := Some ip;
  hn_iter m := map_to_list m
|}.

Definition analog_session : nrlSession := new_nrlSession "hytera:10.0.0.9" sample_peer ("192.0.2.1", 60050) 1000.
Definition analog_from (cs : string) (now : time) : hn_event :=
  HnRead (ReadData (encodeNRL21Packet (mkNRLPeer "" 0 7 cs 4600002 0) 1 (replicate 500 0xD5) 0)) now.
Definition analog_voice (now : time) : hn_event :=
  HnVoice (mkAddr "10.0.0.9" 50001 "") (hyteraAnalogFallbackHeader ++ replicate 480 0xFF) now.

Lemma calls_bracketed_witness :
  let '(s, outs) := hn_run analog_session [analog_from "BG4AAA" 1000; analog_from "BG4BBB" 2000; HnTick (2000 * millisecond)] in
  listens (Quiet 0) outs = Some (Quiet 2) /\
  omap (fun o => match o with OutCall e => Some (ca_Ended e, ca_StreamID e, ca_SourceCallsign e) | _ => None end) outs =
    [(false, 1, "BG4AAA-7"); (true, 1, "BG4AAA-7"); (false, 2, "BG4BBB-7"); (true, 2, "BG4BBB-7")]%string.
Proof.
  pose proof (calls_bracketed eq_refl eq_refl "hytera:10.0.0.9" sample_peer ("192.0.2.1", 60050) 1000
    [analog_from "BG4AAA" 1000; analog_from "BG4BBB" 2000; HnTick (2000 * millisecond)] ltac:(by_eval)) as Hc.
  fold analog_session in Hc. destruct (hn_run analog_session _) as [s outs] eqn:E. split.
  - rewrite Hc. replace s with (fst (hn_run analog_session [analog_from "BG4AAA" 1000; analog_from "BG4BBB" 2000; HnTick (2000 * millisecond)])) by (by rewrite E).
    vm_compute. reflexivity.
  - replace outs with (snd (hn_run analog_session [analog_from "BG4AAA" 1000; analog_from "BG4BBB" 2000; HnTick (2000 * millisecond)])) by (by rewrite E).
    vm_compute. reflexivity.
Defined.

(** Three payloads of 500 bytes give two packets of 480 and leave 480. *)
Lemma voice_to_repeater_witness :
  let '(s, outs) := hn_run analog_session [analog_from "BG4AAA" 1000; analog_from "BG4AAA" 2000; analog_from "BG4AAA" 3000] in
  repeater_voice outs ++ th_ulawBuffer (hn_hytera s) = replicate 1440 (LinearToUlaw 8) /\ length (repeater_voice outs) = 960%nat.
Proof.
  set (evs := [_; _; _]). assert (Hok : link_ok analog_session) by (split; [by intros ? | by right]).
  pose proof (voice_to_repeater analog_session evs Hok ltac:(cbn; unfold nrlVoiceFlushWatermark; lia)) as Hv.
  destruct (hn_run analog_session evs) as [s outs] eqn:E. destruct Hv as (-> & _ & _). split; [vm_compute; reflexivity |].
  replace outs with (snd (hn_run analog_session evs)) by (by rewrite E). vm_compute. reflexivity.
Defined.

(** Of three chunks the first is lost. *)
Lemma voice_to_server_witness :
  let '(s, outs) := hn_run analog_session [analog_voice 1000; HnWrite; HnWrite; HnWrite] in
  exists lost, server_voice outs ++ lost ++ backlog s = replicate 3 (replicate 160 0xD5) /\ (length lost <= 1)%nat.
Proof.
  set (evs := [_; _; _; _]). assert (Hq : queue_ok analog_session) by (split; [cbn; lia | done]).
  pose proof (voice_to_server analog_session evs Hq) as Hv. destruct (hn_run analog_session evs) as [s outs].
  destruct Hv as (lost & Hv & Hl & _). exists lost. split; [| exact Hl]. rewrite Hv. vm_compute. reflexivity.
Defined.

(** After the failed write, 86 packets of the repeater fill the channel. *)
Definition stuck_session : nrlSession := fst (hn_run analog_session ([analog_voice 1000; HnWrite; HnWrite] ++ replicate 86 (analog_voice 1000))).

Lemma write_loop_stuck_witness :
  let '(s', outs) := hn_run stuck_session [HnTick (2000 * millisecond); HnWrite; analog_voice (3000 * millisecond); HnTick (4000 * millisecond)] in
  hn_closed s' = false /\ server_voice outs = [].
Proof.
  assert (Hs : stuck 1000 stuck_session) by (split; by_eval).
  pose proof (write_loop_stuck (fun _ _ => eq_refl) 1000 1000 stuck_session
    [HnTick (2000 * millisecond); HnWrite; analog_voice (3000 * millisecond); HnTick (4000 * millisecond)] Hs ltac:(by_eval)) as Hr.
  destruct (hn_run stuck_session _) as [s' outs]. destruct Hr as (H1 & H2 & _); [cbn [on_time analog_voice]; split_and!; by_eval | by split].
Defined.

End sample.
