(* ===== verification/Audio.v ===== *)
(** * Audio for listeners (internal/audio/hub.go, dmr.go, internal/web/audio_mixer.go)

    Calls can be listened to in a browser.  A pool of vocoders decodes the DMR
    voice into chunks of 16-bit samples, the hub hands every chunk to all
    subscribers, and for each of them a mixer adds up the streams of a target and
    gives a frame of A-law every 20 ms. *)

From S2P Require Import Prelude Packet Strings Text IpscFrame VoiceBurst G711 NrlBridge.

(** ** Samples *)

Definition SampleRate8000 : Z := 8000.

Definition PCM16Bytes (samples : list Z) : list Z := concat ((fun s => [u8 (u16 s); u8 (Z.shiftr (u16 s) 8)]) <$> samples).
Definition ALawBytes (samples : list Z) : list Z := LinearToAlaw <$> samples.

Fixpoint decodePCM16 (raw : list Z) : list Z :=
  match raw with
  | lo :: hi :: raw => i16 (lo + Z.shiftl hi 8) :: decodePCM16 raw
  | _ => []
  end.

Definition clampPCM16 (sample : Z) : Z := if 32767 <? sample then 32767 else if sample <? -32768 then -32768 else sample.

(** ** The hub *)

Record Chunk := mkChunk {
  ch_Type : string;
  ch_StreamID : string;
  ch_Frontend : string;
  ch_SourceKey : string;
  ch_SourceDMRID : Z;
  ch_DstID : Z;
  ch_Slot : Z;
  ch_GroupCall : bool;
  ch_CallType : string;
  ch_SampleRate : Z;
  ch_Channels : Z;
  ch_PCM : list Z;
  ch_Ended : bool;
  ch_CreatedAt : time
}.

(** A subscriber is a channel with its waiting chunks. *)
Record Hub := mkHub { hub_subs : gmap nat (list Chunk); hub_next : nat }.
Definition subscription_cap : nat := 256.

Definition NewHub : Hub := mkHub ∅ 0.
Definition Subscribe (h : Hub) : Hub * nat := (mkHub (<[hub_next h := []]> (hub_subs h)) (S (hub_next h)), hub_next h).
Definition Unsubscribe (h : Hub) (ch : nat) : Hub := mkHub (delete ch (hub_subs h)) (hub_next h).
Definition Receive (h : Hub) (ch : nat) : Hub * option Chunk :=
  match hub_subs h !! ch with
  | Some (c :: waiting) => (mkHub (<[ch := waiting]> (hub_subs h)) (hub_next h), Some c)
  | _ => (h, None)
  end.

(** The defaults of [Publish]. *)
Definition complete (c : Chunk) (now : time) : Chunk :=
  mkChunk (if bool_decide (ch_Type c = "") then "audio_chunk" else ch_Type c) (ch_StreamID c) (ch_Frontend c) (ch_SourceKey c) (ch_SourceDMRID c) (ch_DstID c)
    (ch_Slot c) (ch_GroupCall c) (ch_CallType c) (if ch_SampleRate c =? 0 then SampleRate8000 else ch_SampleRate c) (if ch_Channels c =? 0 then 1 else ch_Channels c)
    (ch_PCM c) (ch_Ended c) (if time_is_zero (ch_CreatedAt c) then now else ch_CreatedAt c).

(** A subscriber whose channel is full misses the chunk. *)
Definition Publish (h : Hub) (c : Chunk) (now : time) : Hub :=
  if bool_decide (ch_StreamID c = "") then h
  else
    let c := complete c now in
    mkHub ((fun waiting => if (length waiting <? subscription_cap)%nat then waiting ++ [c] else waiting) <$> hub_subs h) (hub_next h).

(** ** The decoder pool *)

Definition dmrStreamIdleTimeout : Z := 3000 * millisecond.
Definition dmrDecodeQueueSize : nat := 256.

Definition packetSlot (pkt : Packet) : Z := if Slot pkt then 2 else 1.
Definition callType (groupCall : bool) : string := if groupCall then "group" else "private".

Record dmrDecodeTask := mkTask { task_frontend : string; task_sourceKey : string; task_pkt : Packet }.

Section pool.
Context `{Md380} `{Dmrgo} `{AmbeTables}.

Record dmrStreamDecoder := mkStreamDecoder { sd_vocoder : nat; sd_lastSeen : time }.

(** The vocoders are objects: [pl_vocoders] holds the state of each one made so
    far, the pool and the streams refer to them. *)
Record DMRDecoderPool := mkPool {
  pl_idle : list nat;
  pl_active : gmap string dmrStreamDecoder;
  pl_vocoders : list Vocoder;
  pl_queue : list dmrDecodeTask
}.

(** The order of an iteration over the streams. *)
Class PoolOrder := { stream_iter : gmap string dmrStreamDecoder -> list (string * dmrStreamDecoder) }.
Class PoolOrderLaws `{PoolOrder} : Prop := { stream_iter_elements m : stream_iter m ≡ₚ map_to_list m }.
Context `{PoolOrder}.

(** [made] are the vocoders [NewVocoder] gives, [None] when it fails. *)
Definition NewDMRDecoderPool (warmSpares : nat) (made : list (option Vocoder)) : option DMRDecoderPool :=
  let warmSpares := if (warmSpares <? 1)%nat then 2%nat else warmSpares in
  match mapM id (take warmSpares made) with
  | Some vs => if (length vs =? warmSpares)%nat then Some (mkPool (seq 0 warmSpares) ∅ vs []) else None
  | None => None
  end.

Definition HandlePacket (p : DMRDecoderPool) (frontend sourceKey : string) (pkt : Packet) : DMRDecoderPool :=
  if bool_decide (sourceKey = "") then p
  else if (length (pl_queue p) <? dmrDecodeQueueSize)%nat
  then mkPool (pl_idle p) (pl_active p) (pl_vocoders p) (pl_queue p ++ [mkTask frontend sourceKey pkt])
  else p.

Definition expire_stream (now : time) (p : DMRDecoderPool) (e : string * dmrStreamDecoder) : DMRDecoderPool :=
  if time_sub now (sd_lastSeen (snd e)) <=? dmrStreamIdleTimeout then p
  else mkPool (pl_idle p ++ [sd_vocoder (snd e)]) (delete (fst e) (pl_active p)) (pl_vocoders p) (pl_queue p).
Definition expireIdle (p : DMRDecoderPool) (now : time) : DMRDecoderPool := foldl (expire_stream now) p (stream_iter (pl_active p)).

(** [None] is an error. *)
Definition decoderForStream (p : DMRDecoderPool) (streamID : string) (fresh : option Vocoder) (now : time) : DMRDecoderPool * option nat :=
  match pl_active p !! streamID with
  | Some stream => (mkPool (pl_idle p) (<[streamID := mkStreamDecoder (sd_vocoder stream) now]> (pl_active p)) (pl_vocoders p) (pl_queue p), Some (sd_vocoder stream))
  | None =>
      match last (pl_idle p), fresh with
      | Some v, _ => (mkPool (take (length (pl_idle p) - 1) (pl_idle p)) (<[streamID := mkStreamDecoder v now]> (pl_active p)) (pl_vocoders p) (pl_queue p), Some v)
      | None, Some voc =>
          let v := length (pl_vocoders p) in
          (mkPool (pl_idle p) (<[streamID := mkStreamDecoder v now]> (pl_active p)) (pl_vocoders p ++ [voc]) (pl_queue p), Some v)
      | None, None => (p, None)
      end
  end.

(** The samples of the frames; [None] when one cannot be decoded. *)
Fixpoint decode_voice (v : Vocoder) (frames : list (list Z)) : Vocoder * option (list Z) :=
  match frames with
  | [] => (v, Some [])
  | frame :: frames =>
      let '(v, pcm) := Voc_Decode v (ambeFrameBytes frame) in
      match pcm with
      | None => (v, None)
      | Some pcm => let '(v, rest) := decode_voice v frames in (v, app pcm <$> rest)
      end
  end.

Definition chunk_of (streamID frontend sourceKey : string) (pkt : Packet) (pcm : list Z) (ended : bool) (now : time) : Chunk :=
  mkChunk "" streamID frontend sourceKey (u32 (Src pkt)) (u32 (Dst pkt)) (packetSlot pkt) (GroupCall pkt) (callType (GroupCall pkt)) SampleRate8000 1 pcm ended now.

Definition endStream (p : DMRDecoderPool) (streamID frontend sourceKey : string) (pkt : Packet) (now : time) : DMRDecoderPool * Chunk :=
  (match pl_active p !! streamID with
   | Some stream => mkPool (pl_idle p ++ [sd_vocoder stream]) (delete streamID (pl_active p)) (pl_vocoders p) (pl_queue p)
   | None => p
   end, chunk_of streamID frontend sourceKey pkt [] true now).

Definition decode_stream_id (sourceKey : string) (pkt : Packet) : string := "dmr:" +:+ sourceKey +:+ ":" +:+ pretty (StreamID pkt).

(** The chunk for the hub, if there is one. *)
Definition processPacket (p : DMRDecoderPool) (frontend sourceKey : string) (pkt : Packet) (fresh : option Vocoder) (now : time) : DMRDecoderPool * option Chunk :=
  if bool_decide (sourceKey = "") then (p, None)
  else
    let streamID := decode_stream_id sourceKey pkt in
    if (FrameType pkt =? 2) && (DTypeOrVSeq pkt =? 2) then let '(p, c) := endStream p streamID frontend sourceKey pkt now in (p, Some c)
    else if negb (FrameType pkt =? 0) && negb (FrameType pkt =? 1) then (expireIdle p now, None)
    else
      let burst := Burst_DecodeFromBytes Burst_zero (DMRData pkt) in
      if IsData burst then (expireIdle p now, None)
      else
        match decoderForStream p streamID fresh now with
        | (p, None) => (p, None)
        | (p, Some v) =>
            match pl_vocoders p !! v with
            | None => (p, None)
            | Some voc =>
                let '(voc, samples) := decode_voice voc (VoiceFrames burst) in
                let p := mkPool (pl_idle p) (pl_active p) (<[v := voc]> (pl_vocoders p)) (pl_queue p) in
                match samples with
                | None => (p, None)
                | Some samples => (expireIdle p now, Some (chunk_of streamID frontend sourceKey pkt (PCM16Bytes samples) false now))
                end
            end
        end.

(** A round of [run], and what the hub gets. *)
Definition pool_round (p : DMRDecoderPool) (h : Hub) (fresh : option Vocoder) (now : time) : DMRDecoderPool * Hub :=
  match pl_queue p with
  | [] => (p, h)
  | t :: queue =>
      let '(p, c) := processPacket (mkPool (pl_idle p) (pl_active p) (pl_vocoders p) queue) (task_frontend t) (task_sourceKey t) (task_pkt t) fresh now in
      (p, match c with Some c => Publish h c now | None => h end)
  end.

Inductive pool_event :=
| PoolPacket (frontend sourceKey : string) (pkt : Packet)
| PoolRound (fresh : option Vocoder) (now : time).

Definition pool_step (s : DMRDecoderPool * Hub) (e : pool_event) : DMRDecoderPool * Hub :=
  match e with
  | PoolPacket frontend sourceKey pkt => (HandlePacket (fst s) frontend sourceKey pkt, snd s)
  | PoolRound fresh now => pool_round (fst s) (snd s) fresh now
  end.

End pool.

(** ** The mixer *)

Definition mixedAudioFrameSamples : nat := 160.
Definition mixedAudioIdleTimeout : Z := 5 * second.

Record mixedAudioStream := mkMixed { mx_target : string; mx_samples : list Z; mx_lastSeen : time; mx_ended : bool }.
Notation wsAudioMixer := (gmap string mixedAudioStream).

Definition Mixer_Add (m : wsAudioMixer) (c : Chunk) (target : string) (clock : time) : wsAudioMixer :=
  if bool_decide (ch_StreamID c = "") || bool_decide (target = "") then m
  else
    let stream := default (mkMixed target [] 0 false) (m !! ch_StreamID c) in
    <[ch_StreamID c := mkMixed target (if (2 <=? length (ch_PCM c))%nat then mx_samples stream ++ decodePCM16 (ch_PCM c) else mx_samples stream)
      (if time_is_zero (ch_CreatedAt c) then clock else ch_CreatedAt c) (ch_Ended c || mx_ended stream)]> m.

Definition RemoveTarget (m : wsAudioMixer) (target : string) : wsAudioMixer :=
  if bool_decide (target = "") then m else filter (fun e => mx_target (snd e) <> target) m.

Definition i32 (z : Z) : Z := (z + 2 ^ 31) mod 2 ^ 32 - 2 ^ 31.

(** Add the first [n] samples to the frame. *)
Definition add_samples (mix samples : list Z) (n : nat) : list Z :=
  foldl (fun mix i => <[i := i32 (mix.[i] + samples.[i])]> mix) mix (seq 0 n).

Definition flush_stream (now : time) (acc : list Z * bool * wsAudioMixer) (e : string * mixedAudioStream) : list Z * bool * wsAudioMixer :=
  let '(mix, active, m) := acc in
  let '(streamID, stream) := e in
  if (length (mx_samples stream) =? 0)%nat then
    (mix, active, if mx_ended stream || (mixedAudioIdleTimeout <? time_sub now (mx_lastSeen stream)) then delete streamID m else m)
  else
    let n := if (length (mx_samples stream) <? mixedAudioFrameSamples)%nat then length (mx_samples stream) else mixedAudioFrameSamples in
    let rest := drop n (mx_samples stream) in
    (add_samples mix (mx_samples stream) n, true,
     if (length rest =? 0)%nat && mx_ended stream then delete streamID m
     else <[streamID := mkMixed (mx_target stream) rest (mx_lastSeen stream) (mx_ended stream)]> m).

(** The order of an iteration over the streams of a mixer. *)
Class MixOrder := { mix_iter : wsAudioMixer -> list (string * mixedAudioStream) }.
Class MixOrderLaws `{MixOrder} : Prop := { mix_iter_elements m : mix_iter m ≡ₚ map_to_list m }.

Definition Mixer_Flush `{MixOrder} (m : wsAudioMixer) (now : time) : wsAudioMixer * option (list Z) :=
  let '(mix, active, m) := foldl (flush_stream now) (replicate mixedAudioFrameSamples 0, false, m) (mix_iter m) in
  (m, if active : bool then Some (ALawBytes (clampPCM16 <$> mix)) else None).

(** ** Vocoders and streams *)

Section pool_theorems.
Context `{Md380} `{Dmrgo} `{AmbeTables} `{!PoolOrder} `{!PoolOrderLaws}.

(** Who has a vocoder. *)
Definition owners (p : DMRDecoderPool) : list nat := pl_idle p ++ ((fun e => sd_vocoder (snd e)) <$> map_to_list (pl_active p)).

(** Every vocoder has exactly one owner. *)
Definition pool_ok (p : DMRDecoderPool) : Prop := owners p ≡ₚ seq 0 (length (pl_vocoders p)).

Lemma owners_queue p q : owners (mkPool (pl_idle p) (pl_active p) (pl_vocoders p) q) = owners p.
Proof. done. Qed.

Lemma streams_delete p k st : pl_active p !! k = Some st ->
  ((fun e => sd_vocoder (snd e)) <$> map_to_list (pl_active p)) ≡ₚ sd_vocoder st :: ((fun e => sd_vocoder (snd e)) <$> map_to_list (delete k (pl_active p))).
Proof. intros Hk. by rewrite <- (map_to_list_delete _ _ _ Hk). Qed.

(** A stream gives its vocoder back. *)
Lemma owners_return p k st vs q : pl_active p !! k = Some st ->
  owners (mkPool (pl_idle p ++ [sd_vocoder st]) (delete k (pl_active p)) vs q) ≡ₚ owners p.
Proof.
  intros Hk. unfold owners. cbn [pl_idle pl_active]. by rewrite (streams_delete p k st Hk), <- app_assoc.
Qed.

(** A stream gets a vocoder. *)
Lemma owners_take p k v now idle vs q : pl_active p !! k = None -> pl_idle p ≡ₚ v :: idle ->
  owners (mkPool idle (<[k := mkStreamDecoder v now]> (pl_active p)) vs q) ≡ₚ owners p.
Proof.
  intros Hk Hi. unfold owners. cbn [pl_idle pl_active]. rewrite (map_to_list_insert _ _ _ Hk). cbn [fmap list_fmap snd sd_vocoder]. rewrite Hi.
  symmetry. apply Permutation_middle.
Qed.

Lemma owners_made p k v now vs q : pl_active p !! k = None ->
  owners (mkPool (pl_idle p) (<[k := mkStreamDecoder v now]> (pl_active p)) vs q) ≡ₚ v :: owners p.
Proof.
  intros Hk. unfold owners. cbn [pl_idle pl_active]. rewrite (map_to_list_insert _ _ _ Hk). cbn [fmap list_fmap snd sd_vocoder].
  symmetry. apply Permutation_middle.
Qed.

Lemma owners_touch p k st now q : pl_active p !! k = Some st ->
  owners (mkPool (pl_idle p) (<[k := mkStreamDecoder (sd_vocoder st) now]> (pl_active p)) (pl_vocoders p) q) ≡ₚ owners p.
Proof.
  intros Hk. unfold owners. cbn [pl_idle pl_active]. rewrite <- insert_delete_eq. rewrite map_to_list_insert by apply lookup_delete_eq.
  by rewrite (streams_delete p k st Hk).
Qed.

(** Expiry returns the vocoders of the streams it removes. *)
Lemma expire_owners p now : owners (expireIdle p now) ≡ₚ owners p /\ pl_vocoders (expireIdle p now) = pl_vocoders p.
Proof.
  unfold expireIdle. assert (Hl : Forall (fun e => pl_active p !! fst e = Some (snd e)) (stream_iter (pl_active p))).
  { apply Forall_forall. intros [k st] He. rewrite stream_iter_elements, elem_of_map_to_list in He. exact He. }
  assert (Hd : NoDup (fst <$> stream_iter (pl_active p))) by (rewrite stream_iter_elements; apply NoDup_fst_map_to_list).
  revert Hl Hd. generalize (stream_iter (pl_active p)) as l. intros l. revert p. induction l as [| [k st] l IH]; intros p Hl Hd; [done |].
  apply Forall_cons in Hl as [Hk Hl]. cbn [fmap list_fmap fst] in Hd. apply NoDup_cons in Hd as [Hnk Hd]. cbn [fst snd] in Hk. cbn [foldl].
  unfold expire_stream at 2 4. cbn [fst snd]. destruct (_ <=? _); [by apply IH |].
  match goal with |- owners (foldl _ ?q l) ≡ₚ _ /\ _ => set (p1 := q) end.
  destruct (IH p1) as [-> ->]; [| done | split; [by apply owners_return | done]].
  apply Forall_forall. intros [k' st'] He. subst p1. cbn [pl_active fst snd]. rewrite Forall_forall in Hl. specialize (Hl _ He). cbn [fst snd] in Hl.
  rewrite lookup_delete_ne; [done |]. intros ->. apply Hnk. apply list_elem_of_fmap. by exists (k', st').
Qed.

Lemma take_last {A} (l : list A) x : last l = Some x -> l ≡ₚ x :: take (length l - 1) l.
Proof.
  intros Hl. apply last_Some in Hl as [l' ->]. rewrite length_app. cbn [length]. replace (length l' + 1 - 1)%nat with (length l') by lia.
  rewrite take_app_length. symmetry. apply Permutation_cons_append.
Qed.

Lemma decoder_ok p k fresh now : pool_ok p -> pool_ok (fst (decoderForStream p k fresh now)).
Proof.
  unfold pool_ok. intros Hok. unfold decoderForStream. destruct (pl_active p !! k) as [st |] eqn:Hk; cbn [fst pl_vocoders]; [by rewrite owners_touch |].
  destruct (last (pl_idle p)) as [v |] eqn:Hi.
  - cbn [fst pl_vocoders]. rewrite (owners_take p k v now); [done | done | by apply take_last].
  - destruct fresh as [voc |]; [| done]. cbn [fst pl_vocoders]. rewrite owners_made, Hok by done. rewrite length_app, Nat.add_1_r, seq_S. apply Permutation_cons_append.
Qed.

Lemma process_ok p frontend sourceKey pkt fresh now : pool_ok p -> pool_ok (fst (processPacket p frontend sourceKey pkt fresh now)).
Proof.
  intros Hok. assert (He : forall q, pool_ok q -> pool_ok (expireIdle q now)).
  { intros q Hq. unfold pool_ok. by destruct (expire_owners q now) as [-> ->]. }
  unfold processPacket. destruct (bool_decide _); [done |]. cbv zeta. set (k := decode_stream_id sourceKey pkt).
  destruct ((FrameType pkt =? 2) && (DTypeOrVSeq pkt =? 2)).
  { unfold endStream. destruct (pl_active p !! k) as [st |] eqn:Hk; [| done]. unfold pool_ok. cbn [fst pl_vocoders]. by rewrite owners_return. }
  destruct (negb _ && negb _); [by apply He |]. destruct (IsData _); [by apply He |].
  pose proof (decoder_ok p k fresh now Hok) as Hd. destruct (decoderForStream p k fresh now) as [p1 [v |]]; [| done]. cbn [fst] in Hd.
  destruct (pl_vocoders p1 !! v) as [voc |]; [| done]. destruct (decode_voice voc _) as [voc' samples].
  assert (Hp : pool_ok (mkPool (pl_idle p1) (pl_active p1) (<[v := voc']> (pl_vocoders p1)) (pl_queue p1))).
  { unfold pool_ok. cbn [pl_vocoders]. rewrite length_insert. exact Hd. }
  destruct samples as [samples |]; [by apply He | done].
Qed.

(** Vocoders are neither shared nor lost.  Whatever packets are queued and decoded,
    however streams end, expire or fail to decode, every vocoder the pool has made
    is either idle or serves exactly one stream. *)
Theorem vocoders_exclusive spares made p h evs :
  NewDMRDecoderPool spares made = Some p ->
  let p' := fst (foldl pool_step (p, h) evs) in owners p' ≡ₚ seq 0 (length (pl_vocoders p')).
Proof.
  intros Hnew. cbv zeta. apply (foldl_inv (fun s => pool_ok (fst s))).
  - unfold NewDMRDecoderPool in Hnew. cbv zeta in Hnew. set (n := if (spares <? 1)%nat then 2%nat else spares) in *.
    destruct (mapM id (take n made)) as [vs |]; [| done]. destruct (Nat.eqb_spec (length vs) n) as [E |]; [| done]. injection Hnew as <-.
    unfold pool_ok, owners. cbn [fst pl_idle pl_active pl_vocoders]. rewrite map_to_list_empty, app_nil_r, E. done.
  - intros [q hub] [frontend sourceKey pkt | fresh now] _ Hq; cbn [pool_step fst snd] in *.
    + unfold HandlePacket. destruct (bool_decide _); [done |]. by destruct (_ <? _)%nat.
    + unfold pool_round. destruct (pl_queue q) as [| t queue]; [done |].
      pose proof (process_ok (mkPool (pl_idle q) (pl_active q) (pl_vocoders q) queue) (task_frontend t) (task_sourceKey t) (task_pkt t) fresh now Hq) as Hp.
      by destruct (processPacket _ _ _ _ _ _) as [p2 c].
Qed.

End pool_theorems.

(** ** Frames of the mixer *)

Section mixer_theorems.
Context `{!MixOrder} `{!MixOrderLaws}.

(** What is left of a stream after a frame. *)
Definition remaining (now : time) (st : mixedAudioStream) : option mixedAudioStream :=
  if (length (mx_samples st) =? 0)%nat then (if mx_ended st || (mixedAudioIdleTimeout <? time_sub now (mx_lastSeen st)) then None else Some st)
  else
    let rest := drop mixedAudioFrameSamples (mx_samples st) in
    if (length rest =? 0)%nat && mx_ended st then None else Some (mkMixed (mx_target st) rest (mx_lastSeen st) (mx_ended st)).

(** The sum of the samples number [i] of the streams. *)
Definition total (l : list (string * mixedAudioStream)) (i : nat) : Z := foldr Z.add 0 ((fun e => (mx_samples (snd e)).[i]) <$> l).

Definition speaks (e : string * mixedAudioStream) : bool := negb (length (mx_samples (snd e)) =? 0)%nat.

Definition samples_ok (m : wsAudioMixer) : Prop := map_Forall (fun _ st => Forall is_i16 (mx_samples st)) m.

Lemma i32_id z : - 2 ^ 31 <= z < 2 ^ 31 -> i32 z = z.
Proof. intros Hz. unfold i32. rewrite Z.mod_small; lia. Qed.

Lemma add_length mix s n : length (add_samples mix s n) = length mix.
Proof. unfold add_samples. apply (foldl_inv (fun m => length m = length mix)); [done |]. intros m i _ <-. apply length_insert. Qed.

Lemma add_at mix s n i : (n <= length mix)%nat -> (add_samples mix s n).[i] = if (i <? n)%nat then i32 (mix.[i] + s.[i]) else mix.[i].
Proof.
  intros Hn. induction n as [| n IH]; [done |]. assert (En : add_samples mix s (S n) = let m := add_samples mix s n in <[n := i32 (m.[n] + s.[n])]> m).
  { unfold add_samples. by rewrite seq_S, foldl_app. }
  rewrite En. cbv zeta. pose proof (add_length mix s n) as Hl. unfold byte_at at 1. destruct (decide (i = n)) as [-> |].
  - rewrite list_lookup_insert_eq by lia. cbn [default]. rewrite IH by lia. rewrite Nat.ltb_irrefl. by destruct (Nat.ltb_spec n (S n)); [| lia].
  - rewrite list_lookup_insert_ne by done. fold ((add_samples mix s n).[i]). rewrite IH by lia. destruct (Nat.ltb_spec i n), (Nat.ltb_spec i (S n)); done || lia.
Qed.

Lemma at_beyond (s : list Z) i : (length s <= i)%nat -> s.[i] = 0.
Proof. intros Hi. unfold byte_at. by rewrite lookup_ge_None_2. Qed.

Lemma at_i16 (s : list Z) i : Forall is_i16 s -> is_i16 (s.[i]).
Proof.
  intros Hs. unfold byte_at. destruct (s !! i) as [z |] eqn:E; [| unfold is_i16; cbn; lia]. rewrite Forall_lookup in Hs. exact (Hs _ _ E).
Qed.

(** A stream adds its samples to the frame. *)
Lemma flush_stream_spec now mix act m k st c :
  length mix = mixedAudioFrameSamples -> Forall is_i16 (mx_samples st) -> (forall i, - 32768 * c <= mix.[i] <= 32768 * c) -> c < 65535 ->
  let '(mix', act', m') := flush_stream now (mix, act, m) (k, st) in
  length mix' = mixedAudioFrameSamples /\ (forall i, (i < mixedAudioFrameSamples)%nat -> mix'.[i] = mix.[i] + (mx_samples st).[i]) /\
  (forall i, - 32768 * (c + 1) <= mix'.[i] <= 32768 * (c + 1)) /\ act' = act || speaks (k, st) /\
  (m !! k = Some st -> m' !! k = remaining now st) /\ (forall k', k' <> k -> m' !! k' = m !! k').
Proof.
  intros Hl Hs Hmix Hc. unfold flush_stream, speaks, remaining. cbn [snd]. destruct (Nat.eqb_spec (length (mx_samples st)) 0) as [E0 | Hne].
  - apply nil_length_inv in E0. rewrite E0. split; [done |]. split; [intros i Hi; rewrite (at_beyond []) by (cbn; lia); lia |].
    split; [intros i; specialize (Hmix i); lia |]. split; [by rewrite orb_false_r |]. destruct (_ || _).
    + split; [intros _; apply lookup_delete_eq | intros k' Hk; by rewrite lookup_delete_ne].
    + done.
  - set (n := if (length (mx_samples st) <? mixedAudioFrameSamples)%nat then _ else _).
    assert (Hn : (n <= mixedAudioFrameSamples)%nat /\ drop n (mx_samples st) = drop mixedAudioFrameSamples (mx_samples st) /\
      (forall i, (n <= i)%nat -> (i < mixedAudioFrameSamples)%nat -> (mx_samples st).[i] = 0)).
    { subst n. destruct (Nat.ltb_spec (length (mx_samples st)) mixedAudioFrameSamples); [| split; [done | split; [done | lia]]].
      split; [lia |]. split; [rewrite !drop_ge by lia; done | intros i Hi _; by apply at_beyond]. }
    destruct Hn as (Hn & Hd & Hz). clearbody n.
    assert (Hat : forall i, (add_samples mix (mx_samples st) n).[i] = if (i <? n)%nat then mix.[i] + (mx_samples st).[i] else mix.[i]).
    { intros i. rewrite add_at by (rewrite Hl; exact Hn). destruct (i <? n)%nat; [| done]. apply i32_id. specialize (Hmix i). pose proof (at_i16 _ i Hs) as Hi. unfold is_i16 in Hi. lia. }
    split; [by rewrite add_length |]. split.
    { intros i Hi. rewrite Hat. destruct (Nat.ltb_spec i n); [done |]. rewrite Hz by done. lia. }
    split.
    { intros i. rewrite Hat. specialize (Hmix i). pose proof (at_i16 _ i Hs) as Hi. unfold is_i16 in Hi. destruct (i <? n)%nat; lia. }
    split; [by rewrite orb_true_r |]. rewrite Hd. destruct (_ && _).
    + split; [intros _; apply lookup_delete_eq | intros k' Hk; by rewrite lookup_delete_ne].
    + split; [intros _; apply lookup_insert_eq | intros k' Hk; by rewrite lookup_insert_ne].
Qed.

Lemma flush_fold now l mix act m c :
  NoDup (fst <$> l) -> Forall (fun e => m !! fst e = Some (snd e) /\ Forall is_i16 (mx_samples (snd e))) l ->
  length mix = mixedAudioFrameSamples -> (forall i, - 32768 * c <= mix.[i] <= 32768 * c) -> c + Z.of_nat (length l) < 65536 ->
  let '(mix', act', m') := foldl (flush_stream now) (mix, act, m) l in
  length mix' = mixedAudioFrameSamples /\ (forall i, (i < mixedAudioFrameSamples)%nat -> mix'.[i] = mix.[i] + total l i) /\ act' = act || existsb speaks l /\
  (forall e, e ∈ l -> m' !! fst e = remaining now (snd e)) /\ (forall k, k ∉ (fst <$> l) -> m' !! k = m !! k).
Proof.
  revert mix act m c. induction l as [| [k st] l IH]; intros mix act m c Hnd Hin Hl Hmix Hc.
  - cbn [foldl]. split; [done |]. split; [intros i _; unfold total; cbn; lia |]. split; [by rewrite orb_false_r |]. split; [intros e He; by apply not_elem_of_nil in He | done].
  - cbn [fmap list_fmap fst] in Hnd. apply NoDup_cons in Hnd as [Hk Hnd]. apply Forall_cons in Hin as [[Hst Hi] Hin]. cbn [fst snd length] in *. cbn [foldl].
    pose proof (flush_stream_spec now mix act m k st c Hl Hi Hmix ltac:(lia)) as Hf. destruct (flush_stream now (mix, act, m) (k, st)) as [[mix1 act1] m1].
    destruct Hf as (F1 & F2 & F3 & F4 & F5 & F6).
    specialize (IH mix1 act1 m1 (c + 1) Hnd). destruct (foldl (flush_stream now) (mix1, act1, m1) l) as [[mix2 act2] m2]. destruct IH as (I1 & I2 & I3 & I4 & I5); [| done | done | lia |].
    { rewrite Forall_forall in Hin |- *. intros e He. destruct (Hin e He) as [He1 He2]. split; [| done]. rewrite F6; [done |]. intros <-. apply Hk, list_elem_of_fmap. by exists e. }
    split; [done |]. split; [intros i Hi'; rewrite I2, F2 by done; unfold total; cbn [fmap list_fmap foldr snd]; lia |].
    split; [rewrite I3, F4; cbn [existsb]; by rewrite orb_assoc |]. split.
    + intros e He. apply elem_of_cons in He as [-> | He]; [cbn [fst snd]; rewrite I5 by done; by apply F5 | by apply I4].
    + intros k' Hk'. cbn [fmap list_fmap fst] in Hk'. apply not_elem_of_cons in Hk' as [Hne Hk']. rewrite I5 by done. by apply F6.
Qed.

Lemma total_perm l k i : l ≡ₚ k -> total l i = total k i.
Proof.
  intros Hp. unfold total. induction Hp as [| e l k Hp IH | e e' l | l k j Hp1 IH1 Hp2 IH2]; cbn [fmap list_fmap foldr] in *; [done | by rewrite IH | lia | by rewrite IH1].
Qed.

Lemma speaks_perm l k : l ≡ₚ k -> existsb speaks l = existsb speaks k.
Proof.
  intros Hp. induction Hp as [| e l k Hp IH | e e' l | l k j Hp1 IH1 Hp2 IH2]; cbn [existsb]; [done | by rewrite IH | | by rewrite IH1].
  rewrite !orb_assoc. by rewrite (orb_comm (speaks e')).
Qed.

(** C21: A frame is the sum of the streams.  Whatever the order in which the mixer goes
    through its streams, a frame has, at each of its 160 places, the A-law of the
    sum of the samples of all streams at this place, cut to 16 bits, where a stream
    that is too short counts as silence; no frame is made when no stream has
    samples.  Of each stream exactly the samples played are taken off, and a stream
    disappears when it has ended and is played out, or has been silent for five
    seconds. *)
Theorem mixer_frame m now :
  samples_ok m -> Z.of_nat (size m) < 65536 ->
  let '(m', frame) := Mixer_Flush m now in
  frame = (if existsb speaks (map_to_list m)
           then Some ((fun i => LinearToAlaw (clampPCM16 (total (map_to_list m) i))) <$> seq 0 mixedAudioFrameSamples) else None) /\
  forall k, m' !! k = match m !! k with Some st => remaining now st | None => None end.
Proof.
  intros Hok Hsize. unfold Mixer_Flush. pose proof (mix_iter_elements m) as Hp.
  pose proof (flush_fold now (mix_iter m) (replicate mixedAudioFrameSamples 0) false m 0) as Hf.
  destruct (foldl (flush_stream now) _ (mix_iter m)) as [[mix act] m']. destruct Hf as (F1 & F2 & F3 & F4 & F5).
  - rewrite Hp. apply NoDup_fst_map_to_list.
  - apply Forall_forall. intros [k st] He. rewrite Hp, elem_of_map_to_list in He. split; [exact He | exact (Hok _ _ He)].
  - apply length_replicate.
  - intros i. unfold byte_at. destruct (replicate mixedAudioFrameSamples 0 !! i) eqn:E; [apply lookup_replicate in E as [-> _]; cbn; lia | cbn; lia].
  - rewrite Hp, length_map_to_list. lia.
  - split.
    + rewrite F3. cbn [orb]. rewrite (speaks_perm _ _ Hp). destruct (existsb speaks (map_to_list m)); [| done]. f_equal. unfold ALawBytes.
      apply list_eq. intros i. rewrite !list_lookup_fmap. destruct (decide (i < mixedAudioFrameSamples)%nat) as [Hi | Hi].
      * rewrite lookup_seq_lt by done. cbn [fmap option_fmap option_map]. destruct (mix !! i) as [z |] eqn:E; [| apply lookup_ge_None in E; lia].
        cbn [fmap option_fmap option_map]. specialize (F2 i Hi). unfold byte_at in F2. rewrite E, lookup_replicate_2 in F2 by done. change (z = 0 + total (mix_iter m) i) in F2.
        by rewrite F2, (total_perm _ _ i Hp).
      * rewrite lookup_seq_ge, lookup_ge_None_2 by lia. done.
    + intros k. destruct (m !! k) as [st |] eqn:E.
      * assert (He : (k, st) ∈ mix_iter m) by (by rewrite Hp, elem_of_map_to_list). exact (F4 _ He).
      * rewrite F5; [done |]. intros Hk. apply list_elem_of_fmap in Hk as ([k' st] & -> & Hk). rewrite Hp, elem_of_map_to_list in Hk. cbn [fst] in E. congruence.
Qed.

End mixer_theorems.

(** Samples survive the bytes of a chunk. *)
Lemma pcm16_roundtrip l : Forall is_i16 l -> decodePCM16 (PCM16Bytes l) = l.
Proof.
  unfold PCM16Bytes. induction 1 as [| s l Hs Hl IH]; [done |]. cbn [fmap list_fmap concat app decodePCM16]. rewrite IH. f_equal.
  unfold is_i16 in Hs. unfold i16, u16, u8. rewrite Z.shiftr_div_pow2, Z.shiftl_mul_pow2 by lia. change (2 ^ 8) with 256.
  assert (Eu : s mod 65536 = if s <? 0 then s + 65536 else s) by (destruct (Z.ltb_spec s 0); [symmetry; apply (Z.mod_unique_pos _ _ (-1)); lia | apply Z.mod_small; lia]).
  rewrite Eu. set (u := if s <? 0 then s + 65536 else s) in *. assert (Hu : 0 <= u < 65536) by (subst u; destruct (Z.ltb_spec s 0); lia).
  assert (Hq : 0 <= u / 256 < 256) by (split; [apply Z.div_pos; lia | apply Z.div_lt_upper_bound; lia]).
  rewrite (Z.mod_small (u / 256)) by lia. pose proof (Z.div_mod u 256 ltac:(lia)) as Hd. replace (u mod 256 + u / 256 * 256 + 32768) with (u + 32768) by lia.
  subst u. destruct (Z.ltb_spec s 0); [| rewrite Z.mod_small; lia].
  rewrite <- (Z.mod_unique_pos (s + 65536 + 32768) 65536 1 (s + 32768)); lia.
Qed.

(** ** Concrete listeners *)

Section sample.

#[local] Instance sample_mix : MixOrder := {| mix_iter m := map_to_list m |}.
#[local] Instance sample_mix_laws : MixOrderLaws.
Proof. by split. Qed.

(** Two loud streams of different length are cut to 16 bits and then heard alone. *)
Definition two_streams : wsAudioMixer :=
  <["a"%string := mkMixed "group:9" (replicate 200 30000) 1000 true]> (<["b"%string := mkMixed "group:9" (replicate 100 20000) 1000 false]> ∅).

Lemma mixer_frame_witness :
  snd (Mixer_Flush two_streams 2000) = Some (replicate 100 (LinearToAlaw 32767) ++ replicate 60 (LinearToAlaw 30000)) /\
  (mx_samples <$> fst (Mixer_Flush two_streams 2000) !! "a"%string) = Some (replicate 40 30000).
Proof.
  assert (Hok : samples_ok two_streams).
  { apply map_Forall_insert_2; [apply Forall_replicate; unfold is_i16; cbn; lia |]. apply map_Forall_insert_2; [apply Forall_replicate; unfold is_i16; cbn; lia | apply map_Forall_empty]. }
  pose proof (mixer_frame two_streams 2000 Hok ltac:(by_eval)) as Hm. destruct (Mixer_Flush two_streams 2000) as [m' frame]. destruct Hm as [-> Hm].
  split; [vm_compute; reflexivity |]. cbn [fst]. rewrite Hm. vm_compute. reflexivity.
Defined.

#[local] Instance sample_decoder : Md380 := {|
  Vocoder := Z;
  Voc_Decode v _ := (v + 1, Some (replicate 160 v));
  Voc_Encode v _ := (v, None);
  PCMFrameSize := 160;
  AMBEFrameSize := 9
|}.
#[local] Instance sample_voice : Dmrgo := {|
  FullLinkControl_Encode _ := None;
  FullLinkControl_DecodeFromBits _ _ := None;
  Burst := list Z;
  Burst_zero := [];
  Burst_DecodeFromBytes _ data := data;
  IsData _ := false;
  VoiceFrames _ := replicate 3 (replicate 49 0);
  HasEmbeddedSignalling _ := false;
  PackEmbeddedSignallingData _ := replicate 4 0;
  Burst_Encode b := ob_embedded b
|}.
#[local] Instance sample_tables : AmbeTables := {| Golay_24_12_8_EncodingTable _ := 0; Golay_23_12_7_EncodingTable _ := 0; PRNG_TABLE _ := 0 |}.
#[local] Instance sample_pool : PoolOrder := {| stream_iter m := map_to_list m |}.
#[local] Instance sample_pool_laws : PoolOrderLaws.
Proof. by split. Qed.

Definition listened (stream frame dtype : Z) : Packet := mkPacket (str_bytes "DMRD") 0 4600001 46001 0 false true frame dtype stream (repeat 0 33).

(** Three calls at a time with two vocoders: a third one is made, and after the
    first call its vocoder is idle. *)
Lemma vocoders_exclusive_witness :
  let evs := concat ((fun p => [PoolPacket "ipsc" "ipsc:1" p; PoolRound (Some 7) 1000]) <$> [listened 1 1 0; listened 2 1 0; listened 3 1 0; listened 1 2 2]) in
  let p' := fst (foldl pool_step (mkPool [0%nat; 1%nat] ∅ [0; 0] [], NewHub) evs) in
  owners p' ≡ₚ [0; 1; 2]%nat /\ pl_idle p' = [1%nat].
Proof.
  cbv zeta. split; [| vm_compute; reflexivity].
  pose proof (@vocoders_exclusive sample_decoder sample_voice sample_tables sample_pool sample_pool_laws 2 [Some 0; Some 0] (mkPool [0%nat; 1%nat] ∅ [0; 0] []) NewHub
    (concat ((fun p => [PoolPacket "ipsc" "ipsc:1" p; PoolRound (Some 7) 1000]) <$> [listened 1 1 0; listened 2 1 0; listened 3 1 0; listened 1 2 2])) eq_refl) as Ho.
  cbv zeta in Ho. etransitivity; [exact Ho |]. vm_compute. reflexivity.
Defined.

End sample.
