(* ===== verification/Dmrid.v ===== *)
(** * The table of DMR identifiers (internal/dmrid/resolver.go)

    A text file lists identifiers and callsigns, one pair to a line.  The lines a
    [bufio.Scanner] reads are an argument, with whether it failed. *)

From S2P Require Import Prelude Strings Text NrlFrame.

Section resolver.
Context `{Unicode}.

Record Resolver := mkResolver { byID : gmap Z (list Z); byCallsign : gmap (list Z) Z }.

(** A letter or digit; the runes the loop drops include all bytes of runes that
    are not ASCII. *)
Definition is_upper (c : Z) : bool := (65 <=? c) && (c <=? 90).
Definition is_decimal (c : Z) : bool := (48 <=? c) && (c <=? 57).

Definition NormalizeCallsign (value : list Z) : list Z := List.filter (fun c => is_upper c || is_decimal c) (ToUpper (TrimSpace value)).

Definition IsValidCallsign (value : list Z) : bool :=
  let callsign := NormalizeCallsign value in
  if (length callsign <? 4)%nat || (6 <? length callsign)%nat then false
  else
    let '(digits, letters) := foldl (fun '(digits, letters) c =>
      if is_decimal c then (S digits, letters) else if is_upper c then (digits, S letters) else (digits, letters)) (O, O) callsign in
    (digits =? 1)%nat && (letters + digits =? length callsign)%nat.

(** The first two parts of [strings.Split]; [None] when there is one only. *)
Fixpoint split_first (sep : Z) (line : list Z) : list Z * option (list Z) :=
  match line with
  | [] => ([], None)
  | c :: line => if c =? sep then ([], Some line) else let '(a, b) := split_first sep line in (c :: a, b)
  end.

(** [None] is false. *)
Definition parseLine (line : list Z) : option (Z * list Z) :=
  let delimiter := if bool_decide (59 ∈ line) then 59 else 44 in
  match split_first delimiter line with
  | (_, None) => None
  | (first, Some rest) =>
      match ParseUint32 (bytes_str (TrimSpace first)) with
      | None => None
      | Some id =>
          let callsign := TrimSpace (fst (split_first delimiter rest)) in
          if bool_decide (callsign = []) then None else Some (id, callsign)
      end
  end.

(** The entry of a line. *)
Definition entry (text : list Z) : option (Z * list Z) :=
  let line := TrimSpace text in
  if bool_decide (line = []) || bool_decide (head line = Some 35) then None else parseLine line.

Definition load_line (r : Resolver) (text : list Z) : Resolver :=
  match entry text with
  | None => r
  | Some (id, callsign) =>
      let normalized := NormalizeCallsign callsign in
      let r := mkResolver (<[id := callsign]> (byID r)) (byCallsign r) in
      if bool_decide (normalized = []) then r
      else match byCallsign r !! normalized with Some _ => r | None => mkResolver (byID r) (<[normalized := id]> (byCallsign r)) end
  end.

Definition Load (lines : list (list Z)) (failed : bool) : option Resolver :=
  let r := foldl load_line (mkResolver ∅ ∅) lines in if failed then None else Some r.

Definition Resolver_Lookup (r : option Resolver) (id : Z) : list Z :=
  match r with Some r => if id =? 0 then [] else default [] (byID r !! id) | None => [] end.

Definition LookupID (r : option Resolver) (callsign : list Z) : Z :=
  match r with Some r => default 0 (byCallsign r !! NormalizeCallsign callsign) | None => 0 end.

(** ** What the table says *)

Lemma load_spec lines r :
  let r' := foldl load_line r lines in
  let entries := omap entry lines in
  (forall id, byID r' !! id = match last (List.filter (fun e => fst e =? id) entries) with Some e => Some (snd e) | None => byID r !! id end) /\
  (forall cs, cs <> [] -> byCallsign r' !! cs =
    match byCallsign r !! cs with Some id => Some id | None => fst <$> head (List.filter (fun e => bool_decide (NormalizeCallsign (snd e) = cs)) entries) end) /\
  byCallsign r' !! [] = byCallsign r !! [].
Proof.
  cbv zeta. revert r. induction lines as [| text lines IH]; intros r.
  { split; [done |]. split; [| done]. intros cs _. cbn. by destruct (byCallsign r !! cs). }
  cbn [foldl]. destruct (IH (load_line r text)) as (I1 & I2 & I3). unfold load_line in *. cbn [omap list_omap].
  destruct (entry text) as [[id0 cs0] |] eqn:Ee; [| done]. cbn [List.filter fst snd] in *. cbv zeta in *.
  set (n := NormalizeCallsign cs0) in *.
  assert (Eb : forall id, byID (if bool_decide (n = []) then mkResolver (<[id0 := cs0]> (byID r)) (byCallsign r)
      else match byCallsign r !! n with Some _ => mkResolver (<[id0 := cs0]> (byID r)) (byCallsign r) | None => mkResolver (<[id0 := cs0]> (byID r)) (<[n := id0]> (byCallsign r)) end) !! id
    = <[id0 := cs0]> (byID r) !! id).
  { intros id. destruct (bool_decide (n = [])); [done |]. by destruct (byCallsign r !! n). }
  split; [| split].
  - intros id. rewrite I1. cbn [byID byCallsign] in *. rewrite Eb. destruct (Z.eqb_spec id0 id) as [-> | Hne].
    + rewrite lookup_insert_eq. rewrite last_cons. by destruct (last _).
    + by rewrite lookup_insert_ne.
  - intros cs Hcs. rewrite I2 by done. cbn [byID byCallsign]. destruct (bool_decide_reflect (n = [])) as [En | En].
    + rewrite bool_decide_false by congruence. done.
    + destruct (bool_decide_reflect (n = cs)) as [<- | Hne].
      * destruct (byCallsign r !! n) as [i |] eqn:E; cbn [byCallsign]; [by rewrite E | by rewrite lookup_insert_eq].
      * destruct (byCallsign r !! n) as [i |] eqn:E; cbn [byCallsign]; [done | by rewrite lookup_insert_ne].
  - rewrite I3. cbn [byCallsign]. destruct (bool_decide_reflect (n = [])) as [En | En]; [done |]. destruct (byCallsign r !! n); [done |]. cbn [byCallsign]. by rewrite lookup_insert_ne.
Qed.

(** The table holds what the file says: an identifier other than zero has the
    callsign of the last line that gives it one, and a callsign, in whatever
    spelling, has the identifier of the first line whose callsign has the same
    letters and digits; comments, blank lines and lines that cannot be read count
    for nothing. *)
Theorem table_exact lines r :
  Load lines false = Some r ->
  let entries := omap entry lines in
  (forall id, Resolver_Lookup (Some r) id =
    if id =? 0 then [] else match last (List.filter (fun e => fst e =? id) entries) with Some e => snd e | None => [] end) /\
  (forall cs, LookupID (Some r) cs =
    if bool_decide (NormalizeCallsign cs = []) then 0
    else match head (List.filter (fun e => bool_decide (NormalizeCallsign (snd e) = NormalizeCallsign cs)) entries) with Some e => fst e | None => 0 end).
Proof.
  unfold Load. cbv zeta. intros [= <-]. destruct (load_spec lines (mkResolver ∅ ∅)) as (L1 & L2 & L3). split.
  - intros id. unfold Resolver_Lookup. destruct (id =? 0); [done |]. rewrite L1. by destruct (last _).
  - intros cs. unfold LookupID. destruct (bool_decide_reflect (NormalizeCallsign cs = [])) as [E | E].
    + by rewrite E, L3.
    + rewrite L2 by done. cbn [byCallsign]. rewrite lookup_empty. by destruct (head _).
Qed.

(** Valid callsigns: four to six letters and digits with exactly one digit. *)
Lemma valid_callsign_iff cs :
  IsValidCallsign cs = true <-> let n := NormalizeCallsign cs in (4 <= length n <= 6)%nat /\ length (List.filter is_decimal n) = 1%nat.
Proof.
  unfold IsValidCallsign. cbv zeta. set (n := NormalizeCallsign cs).
  assert (Hall : forallb (fun c => is_upper c || is_decimal c) n = true).
  { apply forallb_forall. intros c Hc. unfold n, NormalizeCallsign in Hc. apply filter_In in Hc. apply Hc. }
  assert (Hcount : forall l d e, forallb (fun c => is_upper c || is_decimal c) l = true ->
    foldl (fun '(digits, letters) c => if is_decimal c then (S digits, letters) else if is_upper c then (digits, S letters) else (digits, letters)) (d, e) l
    = (d + length (List.filter is_decimal l), e + (length l - length (List.filter is_decimal l)))%nat /\ (length (List.filter is_decimal l) <= length l)%nat).
  { induction l as [| c l IH]; intros d e Hl; [cbn; split; [f_equal; lia | lia] |]. cbn [forallb] in Hl. apply andb_prop in Hl as [Hc Hl].
    cbn [foldl List.filter length]. destruct (is_decimal c) eqn:Ed.
    - destruct (IH (S d) e Hl) as [-> Hle]. cbn [length]. split; [f_equal; lia | lia].
    - rewrite orb_false_r in Hc. rewrite Hc. destruct (IH d (S e) Hl) as [-> Hle]. split; [f_equal; lia | lia]. }
  destruct (Hcount n 0%nat 0%nat Hall) as [-> Hle]. clear Hcount. cbn [Nat.add].
  destruct (Nat.ltb_spec (length n) 4); cbn [orb]; [split; [done | lia] |]. destruct (Nat.ltb_spec 6 (length n)); [split; [done | lia] |].
  rewrite andb_true_iff, !Nat.eqb_eq. lia.
Qed.

End resolver.

Lemma table_exact_witness :
  let r := Load (str_bytes <$> ["# radio id, callsign"; "4600001,BG4ABC,Someone"; ""; "4600002; bg4-abc ;x"; "4600001,BH1XYZ"; "nonsense"])%string false in
  Resolver_Lookup r 4600001 = str_bytes "BH1XYZ" /\ LookupID r (str_bytes "bg4abc") = 4600001.
Proof.
  cbv zeta. destruct (Load _ false) as [r |] eqn:E; [| discriminate E]. destruct (table_exact _ r E) as [T1 T2]. split; [rewrite T1 | rewrite T2]; vm_compute; reflexivity.
Defined.
