(* ===== verification/TimeText.v ===== *)
(** * Times as text

    The database holds times as text, in the layout RFC3339Nano of Go's time
    package: "2006-01-02T15:04:05.999999999Z", where the fraction has no zeros at
    its end and is left out when it is zero.  This file has the calendar, the
    layout and its reader ([formatTime] and [parseTime] of
    internal/registry/store.go). *)

From Stdlib Require Import Ascii.
From S2P Require Import Prelude Strings Text Rptc.
#[local] Open Scope Z_scope.

(** ** The calendar

    Days are counted from 1 January of the year 1. *)

Definition is_leap (y : Z) : bool := (y mod 4 =? 0) && (negb (y mod 100 =? 0) || (y mod 400 =? 0)).
Definition year_days (y : Z) : Z := if is_leap y then 366 else 365.
Definition year_start (y : Z) : Z := 365 * (y - 1) + (y - 1) / 4 - (y - 1) / 100 + (y - 1) / 400.

(** The days of a year before each month, and the days of the month. *)
Definition month_starts (leap : bool) : list Z :=
  if leap then [0; 31; 60; 91; 121; 152; 182; 213; 244; 274; 305; 335] else [0; 31; 59; 90; 120; 151; 181; 212; 243; 273; 304; 334].
Definition month_start (y m : Z) : Z := (month_starts (is_leap y)).[Z.to_nat (m - 1)].
Definition daysIn (m y : Z) : Z := (if m =? 12 then year_days y else month_start y (m + 1)) - month_start y m.

Definition year_of (d : Z) : Z :=
  let r := d mod 146097 in
  let n100 := Z.min 3 (r / 36524) in
  let r := r - 36524 * n100 in
  let n1 := Z.min 3 (r mod 1461 / 365) in
  400 * (d / 146097) + 100 * n100 + 4 * (r / 1461) + n1 + 1.
Definition year_day (d : Z) : Z := d - year_start (year_of d).
Definition month_of (d : Z) : Z := Z.of_nat (length (List.filter (fun s => s <=? year_day d) (month_starts (is_leap (year_of d))))).
Definition day_of (d : Z) : Z := year_day d - month_start (year_of d) (month_of d) + 1.

Definition days_of_date (y m d : Z) : Z := year_start y + month_start y m + d - 1.

(** ** Writing *)

Fixpoint trim_zeros (l : list Z) : list Z :=
  match l with
  | [] => []
  | c :: l => match trim_zeros l with [] => if c =? 48 then [] else [c] | l' => c :: l' end
  end.

Definition fraction (ns : Z) : list Z := match trim_zeros (dec_pad 9 ns) with [] => [] | l => 46 :: l end.

Definition day_seconds : Z := 86400.
Definition rfc3339nano (t : time) : list Z :=
  let secs := t / second in
  let d := secs / day_seconds in
  let s := secs mod day_seconds in
  dec_pad 4 (year_of d) ++ 45 :: dec_pad 2 (month_of d) ++ 45 :: dec_pad 2 (day_of d) ++ 84 ::
  dec_pad 2 (s / 3600) ++ 58 :: dec_pad 2 (s / 60 mod 60) ++ 58 :: dec_pad 2 (s mod 60) ++ fraction (t mod second) ++ [90].

Definition formatTime (t : time) : string := if time_is_zero t then "" else bytes_str (rfc3339nano t).

(** ** Reading *)

Definition digit (c : Z) : bool := (48 <=? c) && (c <=? 57).
Definition number (l : list Z) : Z := foldl (fun x c => x * 10 + (c - 48)) 0 l.
Definition parse_num (lo hi : Z) (l : list Z) : option Z :=
  if forallb digit l && (lo <=? number l) && (number l <=? hi) then Some (number l) else None.

Fixpoint digits_prefix (l : list Z) : list Z * list Z :=
  match l with
  | c :: r => if digit c then let '(ds, r) := digits_prefix r in (c :: ds, r) else ([], l)
  | [] => ([], [])
  end.

(** The fraction in nanoseconds, from at most nine digits, and what follows. *)
Definition parse_fraction (s : list Z) : Z * list Z :=
  match s with
  | 46 :: c :: _ =>
      if digit c then let '(ds, rest) := digits_prefix (drop 1 s) in (number (take 9 ds) * 10 ^ Z.of_nat (9 - length ds), rest) else (0, s)
  | _ => (0, s)
  end.

(** The offset of a time zone in seconds. *)
Definition parse_zone (s : list Z) : option Z :=
  match s with
  | [90] => Some 0
  | [sign; h1; h2; colon; m1; m2] =>
      h ← parse_num 0 23 [h1; h2]; m ← parse_num 0 59 [m1; m2];
      if ((sign =? 45) || (sign =? 43)) && (colon =? 58) then Some ((if sign =? 45 then -1 else 1) * ((h * 60 + m) * 60)) else None
  | _ => None
  end.

Definition field (i n : nat) (s : list Z) : list Z := take n (drop i s).
Definition parseRFC3339 (s : list Z) : option time :=
  if (length s <? 19)%nat then None else
  year ← parse_num 0 9999 (field 0 4 s);
  month ← parse_num 1 12 (field 5 2 s);
  day ← parse_num 1 (daysIn month year) (field 8 2 s);
  hour ← parse_num 0 23 (field 11 2 s);
  min ← parse_num 0 59 (field 14 2 s);
  sec ← parse_num 0 59 (field 17 2 s);
  if negb ((s.[4] =? 45) && (s.[7] =? 45) && (s.[10] =? 84) && (s.[13] =? 58) && (s.[16] =? 58)) then None else
  let '(nsec, rest) := parse_fraction (drop 19 s) in
  zoneOffset ← parse_zone rest;
  Some ((days_of_date year month day * day_seconds + hour * 3600 + min * 60 + sec - zoneOffset) * second + nsec).

(** A text that cannot be read is the zero time.  The library also accepts some
    texts beyond RFC 3339, which the program never writes. *)
Definition parseTime (raw : string) : time := if bool_decide (raw = "") then 0 else default 0 (parseRFC3339 (str_bytes raw)).

(** ** Dates are valid *)

Fixpoint upto (n : nat) (z : Z) : list Z := match n with O => [] | S n => z :: upto n (z + 1) end.
Lemma upto_forallb f n z x : forallb f (upto n z) = true -> z <= x < z + Z.of_nat n -> f x = true.
Proof.
  revert z. induction n as [| n IH]; intros z F Hx; [lia |]. cbn [upto forallb] in F. apply andb_prop in F as [F1 F2].
  destruct (decide (x = z)) as [-> | Hz]; [done | by apply (IH (z + 1)); [| lia]].
Qed.

(** The years, centuries and cycles of four and four hundred years before a day. *)
Lemma year_of_parts d : exists k a b c r,
  year_of d = 400 * k + 100 * a + 4 * b + c + 1 /\ d = 146097 * k + 36524 * a + 1461 * b + 365 * c + r /\
  0 <= a <= 3 /\ 0 <= b <= 24 /\ 0 <= c <= 3 /\ 0 <= r <= 365 /\ (r = 365 -> c = 3 /\ (b = 24 -> a = 3)).
Proof.
  unfold year_of. cbv zeta. set (k := d / 146097). set (r0 := d mod 146097). set (a := Z.min 3 (r0 / 36524)). set (r1 := r0 - 36524 * a).
  set (b := r1 / 1461). set (r2 := r1 mod 1461). set (c := Z.min 3 (r2 / 365)). exists k, a, b, c, (r2 - 365 * c).
  assert (d = 146097 * k + r0 /\ 0 <= r0 < 146097) as [E0 H0] by (split; [by apply Z.div_mod | by apply Z.mod_pos_bound]).
  assert (0 <= a <= 3 /\ 0 <= r1 <= 36524 /\ (r1 = 36524 -> a = 3)) as (Ha & H1 & Ha3) by (subst a r1; clearbody r0; Z.to_euclidean_division_equations; lia).
  assert (r1 = 1461 * b + r2 /\ 0 <= r2 < 1461) as [E1 H2] by (split; [by apply Z.div_mod | by apply Z.mod_pos_bound]).
  assert (0 <= c <= 3 /\ 0 <= r2 - 365 * c <= 365 /\ (r2 - 365 * c = 365 -> c = 3)) as (Hc & Hr & Hc3) by (subst c; clearbody r2; Z.to_euclidean_division_equations; lia).
  clearbody c r2 b. assert (r0 = r1 + 36524 * a) by (subst r1; lia). clearbody r1 a r0 k. lia.
Qed.

Lemma year_day_range d : 0 <= year_day d < year_days (year_of d) /\ 400 * (d / 146097) < year_of d <= 400 * (d / 146097) + 400.
Proof.
  destruct (year_of_parts d) as (k & a & b & c & r & Ey & Ed & Ha & Hb & Hc & Hr & Hlast).
  assert (Ek : d / 146097 = k) by (symmetry; apply (Z.div_unique d 146097 k (36524 * a + 1461 * b + 365 * c + r)); lia). rewrite Ek. split; [| lia].
  assert (Es : year_start (year_of d) = d - r).
  { unfold year_start. rewrite Ey. replace (400 * k + 100 * a + 4 * b + c + 1 - 1) with (400 * k + 100 * a + 4 * b + c) by lia.
    rewrite <- (Z.div_unique (400 * k + 100 * a + 4 * b + c) 4 (100 * k + 25 * a + b) c), <- (Z.div_unique (400 * k + 100 * a + 4 * b + c) 100 (4 * k + a) (4 * b + c)),
      <- (Z.div_unique (400 * k + 100 * a + 4 * b + c) 400 k (100 * a + 4 * b + c)) by lia. lia. }
  unfold year_day. rewrite Es. replace (d - (d - r)) with r by lia. unfold year_days. destruct (is_leap (year_of d)) eqn:El; [lia |].
  destruct (decide (r = 365)) as [-> |]; [| lia]. destruct (Hlast eq_refl) as [-> Hb24]. exfalso. unfold is_leap in El. rewrite Ey in El.
  rewrite <- (Z.mod_unique (400 * k + 100 * a + 4 * b + 3 + 1) 4 (100 * k + 25 * a + b + 1) 0) in El by lia. cbn [Z.eqb andb] in El.
  destruct (decide (b = 24)) as [-> | Hne].
  - rewrite (Hb24 eq_refl) in El. rewrite <- (Z.mod_unique (400 * k + 100 * 3 + 4 * 24 + 3 + 1) 400 (k + 1) 0) in El by lia. cbn in El. by rewrite orb_true_r in El.
  - rewrite <- (Z.mod_unique (400 * k + 100 * a + 4 * b + 3 + 1) 100 (4 * k + a) (4 * b + 4)) in El by lia.
    rewrite (proj2 (Z.eqb_neq (4 * b + 4) 0)) in El by lia. done.
Qed.

Lemma year_months : forallb (fun leap : bool => forallb (fun yd =>
    let m := Z.of_nat (length (List.filter (fun s => s <=? yd) (month_starts leap))) in
    let start := fun m => (month_starts leap).[Z.to_nat (m - 1)] in
    let days := (if m =? 12 then if leap then 366 else 365 else start (m + 1)) - start m in
    (1 <=? m) && (m <=? 12) && (0 <=? yd - start m) && (yd - start m <? days) && (days <=? 31)) (upto (if leap then 366%nat else 365%nat) 0)) [true; false] = true.
Proof. vm_compute. reflexivity. Qed.

Lemma date_valid d : 1 <= month_of d <= 12 /\ 1 <= day_of d <= daysIn (month_of d) (year_of d) /\ day_of d <= 31.
Proof.
  pose proof (proj1 (year_day_range d)) as Hd. unfold day_of, month_of, daysIn, month_start. unfold year_days in Hd |- *.
  pose proof year_months as E. cbn [forallb] in E. apply andb_prop in E as [E1 E]. apply andb_prop in E as [E2 _].
  destruct (is_leap (year_of d)).
  - pose proof (upto_forallb _ _ _ (year_day d) E1 ltac:(lia)) as F. cbv beta zeta in F. lia.
  - pose proof (upto_forallb _ _ _ (year_day d) E2 ltac:(lia)) as F. cbv beta zeta in F. lia.
Qed.

Lemma date_days d : days_of_date (year_of d) (month_of d) (day_of d) = d.
Proof. unfold days_of_date, day_of, year_day. lia. Qed.

(** ** Writing and reading *)

Lemma number_app a b : number (a ++ b) = foldl (fun x c => x * 10 + (c - 48)) (number a) b.
Proof. unfold number. by rewrite foldl_app. Qed.

Lemma number_bounds l : Forall is_digit l -> 0 <= number l < 10 ^ Z.of_nat (length l).
Proof.
  induction l as [| c l IH] using rev_ind; intros F; [cbn; lia |]. apply Forall_app in F as [F1 F2]. apply Forall_inv in F2.
  specialize (IH F1). rewrite number_app, length_app. cbn [foldl length]. unfold is_digit in F2.
  rewrite Nat.add_1_r, Nat2Z.inj_succ, Z.pow_succ_r by lia. lia.
Qed.

Lemma number_parse l : Forall is_digit l -> (length l <= 18)%nat -> number l = parseUintField l.
Proof.
  induction l as [| c l IH] using rev_ind; intros F L; [done |]. pose proof (number_bounds _ F) as B. rewrite length_app in L. cbn in L.
  assert (10 ^ Z.of_nat (length (l ++ [c])) <= 10 ^ 18) as B2 by (rewrite length_app; apply Z.pow_le_mono_r; cbn; lia).
  apply Forall_app in F as [F1 F2]. apply Forall_inv in F2. unfold is_digit in F2.
  rewrite parse_digits_app, <- IH by (done || lia). rewrite number_app in B |- *. cbn [foldl] in B |- *.
  unfold digit_step. rewrite (proj2 (Z.ltb_ge c 48)), (proj2 (Z.ltb_ge 57 c)) by lia. cbn [orb].
  unfold u64. rewrite Z.mod_small; lia.
Qed.

Lemma digit_forallb l : Forall is_digit l -> forallb digit l = true.
Proof. intros F. apply forallb_forall. intros x Hx. rewrite Forall_forall in F. apply list_elem_of_In, F in Hx. unfold is_digit, digit in *. lia. Qed.

Lemma parse_padded w n lo hi : (0 < w <= 9)%nat -> 0 <= n < 10 ^ Z.of_nat w -> lo <= n <= hi -> parse_num lo hi (dec_pad w n) = Some n.
Proof.
  intros Hw Hn Hr. pose proof (dec_pad_digits w n ltac:(lia)) as F.
  assert (10 ^ Z.of_nat w <= 10 ^ 9) by (apply Z.pow_le_mono_r; lia).
  unfold parse_num. rewrite number_parse, parse_dec_pad, digit_forallb by (done || lia || (rewrite dec_pad_length; lia)).
  by rewrite (proj2 (Z.leb_le lo n)), (proj2 (Z.leb_le n hi)) by lia.
Qed.

Lemma trim_zeros_spec l : exists k, l = trim_zeros l ++ replicate k 48.
Proof.
  induction l as [| c l [k E]]; [by exists 0%nat |]. cbn [trim_zeros]. destruct (trim_zeros l) as [| c' l'].
  - destruct (Z.eqb_spec c 48) as [-> |]; [exists (S k) | exists k]; cbn [app replicate] in *; by rewrite E at 1.
  - exists k. cbn [app] in *. by rewrite E at 1.
Qed.

Lemma number_zeros l k : number (l ++ replicate k 48) = number l * 10 ^ Z.of_nat k.
Proof.
  induction k as [| k IH]; [rewrite app_nil_r; cbn; lia |].
  replace (replicate (S k) 48) with (replicate k 48 ++ [48]) by (by rewrite <- replicate_S_end).
  rewrite app_assoc, number_app. cbn [foldl]. rewrite IH, Nat2Z.inj_succ, Z.pow_succ_r by lia. lia.
Qed.

Lemma digits_prefix_spec l r : Forall is_digit l -> (forall c, head r = Some c -> digit c = false) -> digits_prefix (l ++ r) = (l, r).
Proof.
  intros F Hr. induction F as [| c l Hc F IH]; [destruct r as [| c r]; [done |]; cbn; by rewrite (Hr c eq_refl) |].
  cbn. rewrite IH. unfold is_digit, digit in *. by rewrite (proj2 (Z.leb_le 48 c)), (proj2 (Z.leb_le c 57)) by lia.
Qed.

Lemma fraction_roundtrip ns : 0 <= ns < second -> parse_fraction (fraction ns ++ [90]) = (ns, [90]).
Proof.
  intros Hn. unfold fraction. destruct (trim_zeros_spec (dec_pad 9 ns)) as [k E]. pose proof (dec_pad_digits 9 ns ltac:(lia)) as F.
  pose proof (dec_pad_length 9 ns ltac:(lia) ltac:(change (10 ^ Z.of_nat 9) with 1000000000; change second with 1000000000 in Hn; lia)) as L.
  assert (number (dec_pad 9 ns) = ns) as N by (rewrite number_parse by (done || lia); apply parse_dec_pad; change second with 1000000000 in Hn; lia).
  rewrite E, number_zeros in N. rewrite E, length_app, length_replicate in L. rewrite E in F. apply Forall_app in F as [F _].
  destruct (trim_zeros (dec_pad 9 ns)) as [| c l]; [cbn in N |- *; f_equal; lia |].
  pose proof (Forall_inv F) as Hc. unfold is_digit in Hc. change ((46 :: c :: l) ++ [90]) with (46 :: c :: (l ++ [90])).
  cbn [parse_fraction]. unfold digit at 1. rewrite (proj2 (Z.leb_le 48 c)), (proj2 (Z.leb_le c 57)) by lia. cbn [andb drop].
  change (c :: l ++ [90]) with ((c :: l) ++ [90]). rewrite digits_prefix_spec by (done || intros ? [= <-]; done).
  rewrite firstn_all2 by lia. replace (9 - length (c :: l))%nat with k by lia. by rewrite N.
Qed.

Lemma parse_shape a b c d e f r :
  length a = 4%nat -> length b = 2%nat -> length c = 2%nat -> length d = 2%nat -> length e = 2%nat -> length f = 2%nat ->
  parseRFC3339 (a ++ 45 :: b ++ 45 :: c ++ 84 :: d ++ 58 :: e ++ 58 :: f ++ r) =
    (year ← parse_num 0 9999 a; month ← parse_num 1 12 b; day ← parse_num 1 (daysIn month year) c;
     hour ← parse_num 0 23 d; min ← parse_num 0 59 e; sec ← parse_num 0 59 f;
     let '(nsec, rest) := parse_fraction r in
     zoneOffset ← parse_zone rest;
     Some ((days_of_date year month day * day_seconds + hour * 3600 + min * 60 + sec - zoneOffset) * second + nsec)).
Proof.
  intros La Lb Lc Ld Le Lf.
  do 4 (destruct a as [| ? a]; [done |]). destruct a; [| done].
  do 2 (destruct b as [| ? b]; [done |]). destruct b; [| done]. do 2 (destruct c as [| ? c]; [done |]). destruct c; [| done].
  do 2 (destruct d as [| ? d]; [done |]). destruct d; [| done]. do 2 (destruct e as [| ? e]; [done |]). destruct e; [| done].
  do 2 (destruct f as [| ? f]; [done |]). destruct f; [| done]. reflexivity.
Qed.

Lemma bytes_of_str l : Forall is_byte l -> str_bytes (bytes_str l) = l.
Proof.
  unfold str_bytes, bytes_str, chars. induction 1 as [| z l Hz F IH]; [done |]. cbn [fmap list_fmap String.string_of_list_ascii String.list_ascii_of_string].
  unfold is_byte in Hz. f_equal; [| exact IH]. rewrite N_ascii_embedding by lia. lia.
Qed.

Lemma digits_bytes l : Forall is_digit l -> Forall is_byte l.
Proof. intros F. eapply Forall_impl; [exact F |]. unfold is_digit, is_byte. lia. Qed.

Lemma fraction_bytes ns : 0 <= ns -> Forall is_byte (fraction ns).
Proof.
  intros Hn. unfold fraction. destruct (trim_zeros_spec (dec_pad 9 ns)) as [k E]. pose proof (dec_pad_digits 9 ns Hn) as F.
  rewrite E in F. apply Forall_app in F as [F _]. apply digits_bytes in F. destruct (trim_zeros _); [constructor |]. constructor; [unfold is_byte; lia | done].
Qed.

(** The first instant of the year 10000. *)
Definition time_limit : time := year_start 10000 * day_seconds * second.

(** Times before the year 10000 are read back as they were written. *)
Theorem time_text_roundtrip t : 0 <= t < time_limit -> parseTime (formatTime t) = t.
Proof.
  intros Ht. unfold formatTime, time_is_zero. destruct (Z.eqb_spec t 0) as [-> | Hz]; [reflexivity |].
  set (secs := t / second). set (d := secs / day_seconds). set (s := secs mod day_seconds). set (ns := t mod second).
  assert (Hns : 0 <= ns < second) by (apply Z.mod_pos_bound; done). assert (Hs : 0 <= s < 86400) by (apply Z.mod_pos_bound; done).
  assert (Et : t = (d * day_seconds + s) * second + ns).
  { subst ns s d. pose proof (Z.div_mod t second ltac:(done)). pose proof (Z.div_mod secs day_seconds ltac:(done)). subst secs. lia. }
  assert (Hd : 0 <= d < year_start 10000) by (unfold time_limit, day_seconds in *; change (second) with 1000000000 in *; lia).
  pose proof (date_valid d) as (Hm & Hday & Hday'). pose proof (year_day_range d) as [_ Hy].
  assert (Hyear : 1 <= year_of d <= 9999).
  { pose proof (proj1 (year_day_range d)) as [Hyd _]. unfold year_day in Hyd. change (year_start 10000) with 3652059 in Hd.
    assert (Hq : d / 146097 < 25) by (apply Z.div_lt_upper_bound; lia). assert (0 <= d / 146097) by (apply Z.div_pos; lia). split; [lia |].
    destruct (decide (year_of d <= 9999)) as [| Hn]; [done |]. assert (year_of d = 10000) as E by lia. rewrite E in Hyd. change (year_start 10000) with 3652059 in Hyd. lia. }
  assert (Hb : Forall is_byte (rfc3339nano t)).
  { unfold rfc3339nano. fold secs d s ns.
    repeat (apply Forall_app; split; [apply digits_bytes, dec_pad_digits; (lia || (apply Z.mod_pos_bound; lia) || (apply Z.div_pos; lia)) |]; constructor; [unfold is_byte; lia |]).
    apply Forall_app; split; [apply digits_bytes, dec_pad_digits; apply Z.mod_pos_bound; lia |].
    apply Forall_app; split; [apply fraction_bytes; lia | repeat constructor; unfold is_byte; lia]. }
  assert (Hp : parseRFC3339 (rfc3339nano t) = Some t); cycle 1.
  { unfold parseTime. case_bool_decide as E; [| by rewrite bytes_of_str, Hp].
    apply (f_equal str_bytes) in E. rewrite bytes_of_str in E by done. rewrite E in Hp. discriminate Hp. }
  unfold rfc3339nano. fold secs d s ns.
  assert (Hsec : 0 <= s mod 60 <= 59) by (pose proof (Z.mod_pos_bound s 60); lia).
  assert (Hmin : 0 <= s / 60 mod 60 <= 59) by (pose proof (Z.mod_pos_bound (s / 60) 60); lia).
  assert (Hhour : 0 <= s / 3600 <= 23) by (split; [apply Z.div_pos; lia | apply Z.lt_succ_r, Z.div_lt_upper_bound; lia]).
  assert (P2 : 10 ^ Z.of_nat 2 = 100) by done. assert (P4 : 10 ^ Z.of_nat 4 = 10000) by done.
  rewrite parse_shape by (apply dec_pad_length; lia).
  rewrite parse_padded by lia. cbn [mbind option_bind]. rewrite parse_padded by lia. cbn [mbind option_bind]. rewrite !parse_padded by lia. cbn [mbind option_bind]. rewrite fraction_roundtrip by done. cbn [parse_zone mbind option_bind].
  rewrite parse_padded by lia. cbn [mbind option_bind]. f_equal. rewrite date_days. rewrite Et at 1. clearbody d s ns. assert (s = s / 3600 * 3600 + s / 60 mod 60 * 60 + s mod 60) by (Z.to_euclidean_division_equations; lia). lia.
Qed.

(** At the last second of 2024. *)
Lemma time_text_roundtrip_witness :
  let t := (days_of_date 2024 12 31 * day_seconds + 86399) * second + 120000000 in
  formatTime t = "2024-12-31T23:59:59.12Z" /\ parseTime (formatTime t) = t.
Proof. cbv zeta. split; [vm_compute; reflexivity |]. apply time_text_roundtrip. vm_compute. split; [discriminate | reflexivity]. Defined.

(** The order of the text is not the order of time: within a second, a fraction
    that is a prefix of a longer one comes after it. *)
Lemma text_order_not_time : exists t1 t2, t1 < t2 /\ String.compare (formatTime t1) (formatTime t2) = Gt.
Proof.
  exists (days_of_date 2024 12 31 * day_seconds * second), (days_of_date 2024 12 31 * day_seconds * second + 500000000).
  split; [lia | vm_compute; reflexivity].
Qed.
