(* ===== verification/RegistryTypes.v ===== *)
(** * The records of the registry, and its database as an interface
    (internal/registry/types.go, store.go)

    [RegistryStore] is what the service (file Registry) asks of the database, with
    what it relies on as laws; file Store models the database of the program and
    shows that it has them. *)

From Stdlib Require Import QArith.
From S2P Require Import Prelude.
#[local] Open Scope Z_scope.

(** ** Records *)

Record Device := mkDevice {
  d_ID : Z;
  d_Category : string;
  d_Protocol : string;
  d_SourceKey : string;
  d_OwnerUserID : Z;
  d_Name : string;
  d_Callsign : string;
  d_DMRID : Z;
  d_Model : string;
  d_Serial : string;
  d_IP : string;
  d_Port : Z;
  d_Status : string;
  d_Online : bool;
  d_FirstSeenAt : time;
  d_LastSeenAt : time;
  d_LastCallAt : time;
  d_RXFreq : Z;
  d_TXFreq : Z;
  d_TXPower : Z;
  d_ColorCode : Z;
  d_Latitude : Q;
  d_Longitude : Q;
  d_Height : Z;
  d_Location : string;
  d_Description : string;
  d_URL : string;
  d_Slots : Z;
  d_Notes : string;
  d_DevicePassword : string;
  d_NRLServerAddr : string;
  d_NRLServerPort : Z;
  d_NRLSSID : Z;
  d_NRLUDPPort : Z;
  d_NRLSlot : Z;
  d_Disabled : bool;
  d_ExtraJSON : string
}.

Definition with_callsign (d : Device) (cs : string) : Device :=
  mkDevice
    (d_ID d) (d_Category d) (d_Protocol d) (d_SourceKey d) (d_OwnerUserID d) (d_Name d) cs (d_DMRID d) (d_Model d) (d_Serial d) (d_IP d) (d_Port d)
    (d_Status d) (d_Online d) (d_FirstSeenAt d) (d_LastSeenAt d) (d_LastCallAt d) (d_RXFreq d) (d_TXFreq d) (d_TXPower d) (d_ColorCode d)
    (d_Latitude d) (d_Longitude d) (d_Height d) (d_Location d) (d_Description d) (d_URL d) (d_Slots d) (d_Notes d) (d_DevicePassword d)
    (d_NRLServerAddr d) (d_NRLServerPort d) (d_NRLSSID d) (d_NRLUDPPort d) (d_NRLSlot d) (d_Disabled d) (d_ExtraJSON d).
Definition device_offline (d : Device) (status : string) (now : time) : Device :=
  mkDevice
    (d_ID d) (d_Category d) (d_Protocol d) (d_SourceKey d) (d_OwnerUserID d) (d_Name d) (d_Callsign d) (d_DMRID d) (d_Model d) (d_Serial d) (d_IP d)
    (d_Port d) status false (d_FirstSeenAt d) now (d_LastCallAt d) (d_RXFreq d) (d_TXFreq d) (d_TXPower d) (d_ColorCode d) (d_Latitude d)
    (d_Longitude d) (d_Height d) (d_Location d) (d_Description d) (d_URL d) (d_Slots d) (d_Notes d) (d_DevicePassword d) (d_NRLServerAddr d)
    (d_NRLServerPort d) (d_NRLSSID d) (d_NRLUDPPort d) (d_NRLSlot d) (d_Disabled d) (d_ExtraJSON d).
Definition with_call_at (d : Device) (at_ : time) : Device :=
  mkDevice
    (d_ID d) (d_Category d) (d_Protocol d) (d_SourceKey d) (d_OwnerUserID d) (d_Name d) (d_Callsign d) (d_DMRID d) (d_Model d) (d_Serial d) (d_IP d)
    (d_Port d) (d_Status d) (d_Online d) (d_FirstSeenAt d) (d_LastSeenAt d) at_ (d_RXFreq d) (d_TXFreq d) (d_TXPower d) (d_ColorCode d) (d_Latitude d)
    (d_Longitude d) (d_Height d) (d_Location d) (d_Description d) (d_URL d) (d_Slots d) (d_Notes d) (d_DevicePassword d) (d_NRLServerAddr d)
    (d_NRLServerPort d) (d_NRLSSID d) (d_NRLUDPPort d) (d_NRLSlot d) (d_Disabled d) (d_ExtraJSON d).

Record CallRecord := mkCallRecord {
  r_ID : Z;
  r_CreatedAt : time;
  r_EndedAt : time;
  r_DurationMS : Z;
  r_Frontend : string;
  r_SourceCategory : string;
  r_SourceKey : string;
  r_SourceName : string;
  r_SourceCallsign : string;
  r_SourceDMRID : Z;
  r_SrcID : Z;
  r_DstID : Z;
  r_RepeaterID : Z;
  r_CallSlot : Z;
  r_CallType : string;
  r_StreamID : Z;
  r_FromIP : string;
  r_FromPort : Z
}.

Definition with_id (d : CallRecord) (id : Z) : CallRecord :=
  mkCallRecord
    id (r_CreatedAt d) (r_EndedAt d) (r_DurationMS d) (r_Frontend d) (r_SourceCategory d) (r_SourceKey d) (r_SourceName d) (r_SourceCallsign d)
    (r_SourceDMRID d) (r_SrcID d) (r_DstID d) (r_RepeaterID d) (r_CallSlot d) (r_CallType d) (r_StreamID d) (r_FromIP d) (r_FromPort d).
Definition with_source_callsign (d : CallRecord) (cs : string) : CallRecord :=
  mkCallRecord
    (r_ID d) (r_CreatedAt d) (r_EndedAt d) (r_DurationMS d) (r_Frontend d) (r_SourceCategory d) (r_SourceKey d) (r_SourceName d) cs (r_SourceDMRID d)
    (r_SrcID d) (r_DstID d) (r_RepeaterID d) (r_CallSlot d) (r_CallType d) (r_StreamID d) (r_FromIP d) (r_FromPort d).
Definition with_times (d : CallRecord) (created ended : time) (duration : Z) : CallRecord :=
  mkCallRecord
    (r_ID d) created ended duration (r_Frontend d) (r_SourceCategory d) (r_SourceKey d) (r_SourceName d) (r_SourceCallsign d) (r_SourceDMRID d)
    (r_SrcID d) (r_DstID d) (r_RepeaterID d) (r_CallSlot d) (r_CallType d) (r_StreamID d) (r_FromIP d) (r_FromPort d).


Definition recentCallLimit : nat := 50.
Definition event_cap : nat := 32.

Record User := mkUser {
  u_ID : Z;
  u_Username : string;
  u_Callsign : string;
  u_Email : string;
  u_PasswordHash : string;
  u_Role : string;
  u_Enabled : bool;
  u_CreatedAt : time;
  u_UpdatedAt : time;
  u_LastLoginAt : time
}.

Record StaticGroup := mkStaticGroup { sg_SourceKey : string; sg_Slot : Z; sg_GroupID : Z }.

(** The fields to change. *)
Record DevicePatch := mkDevicePatch {
  p_OwnerUserID : option Z;
  p_Name : option string;
  p_Callsign : option string;
  p_Notes : option string;
  p_Disabled : option bool;
  p_DMRID : option Z;
  p_Model : option string;
  p_Description : option string;
  p_Location : option string;
  p_DevicePassword : option string;
  p_NRLServerAddr : option string;
  p_NRLServerPort : option Z;
  p_NRLSSID : option Z;
  p_NRLUDPPort : option Z;
  p_NRLSlot : option Z
}.

(** ** The interface

    The operations of the store that the service is built on; [None] and [false]
    are errors, and the last argument of those that look at the clock is its
    time. *)
Class RegistryStore := {
  Db : Type;
  store_InsertCall : Db -> CallRecord -> time -> Db * option Z;
  store_UpdateCallDuration : Db -> Z -> time -> Z -> Db * bool;
  store_UpsertDevice : Db -> Device -> time -> Db * option Device;
  store_FindUserIDByCallsign : Db -> string -> Db * option Z;
  store_AssignDeviceOwner : Db -> Z -> Z -> Db * option Device;
  store_UpdateDeviceMetadata : Db -> Z -> DevicePatch -> Db * option Device;
  store_DeleteDevice : Db -> Z -> Db * option Device;
  (** the largest identifier of a call so far, and how many calls there were *)
  newest : Db -> Z;
  total : Db -> Z;
  (** no operation will fail *)
  reliable : Db -> Prop
}.

(** What an operation that is not about calls leaves as it was. *)
Definition calls_kept `{RegistryStore} (db db' : Db) : Prop := newest db' = newest db /\ total db' = total db /\ (reliable db -> reliable db').

(** Identifiers of calls are assigned in ascending order, and every call is
    counted. *)
Class RegistryStoreLaws `{RegistryStore} : Prop := {
  insert_ascends db c now : let '(db', id) := store_InsertCall db c now in
    match id with Some id => newest db < id /\ newest db' = id /\ total db' = total db + 1 | None => newest db' = newest db /\ total db' = total db end;
  update_keeps db id ended duration : calls_kept db (fst (store_UpdateCallDuration db id ended duration));
  update_reliable db id ended duration : reliable db -> snd (store_UpdateCallDuration db id ended duration) = true;
  upsert_keeps db d now : calls_kept db (fst (store_UpsertDevice db d now));
  find_keeps db callsign : calls_kept db (fst (store_FindUserIDByCallsign db callsign));
  assign_keeps db id owner : calls_kept db (fst (store_AssignDeviceOwner db id owner));
  metadata_keeps db id patch : calls_kept db (fst (store_UpdateDeviceMetadata db id patch));
  delete_keeps db id : calls_kept db (fst (store_DeleteDevice db id))
}.
