(* ===== verification/Store.v ===== *)
(** * The database of the registry (internal/registry/store.go)

    Every operation of the store is a sequence of SQL statements, some of them in a
    transaction.  The tables are lists of rows in the order of their row
    identifiers, and each statement is a function on them.  A statement can fail:
    [faults] says which of the coming ones do.  A failed statement changes nothing,
    and a transaction that fails or cannot be committed is undone.

    Columns hold what the program writes into them, times as the text of
    [formatTime]. *)

From Stdlib Require Import Ascii QArith.
From stdpp Require Import sorting.
From S2P Require Import Prelude Strings Text TimeText RegistryTypes.
#[local] Open Scope Z_scope.

(** ** Tables

    The columns of a row are the fields of the record, but for the times, which
    have columns of text; the time fields of [*_columns] are not used. *)

Record DeviceRow := mkDeviceRow { dv_columns : Device; dv_first_seen_at : string; dv_last_seen_at : string; dv_last_call_at : string }.
Record CallRow := mkCallRow { cl_columns : CallRecord; cl_created_at : string; cl_ended_at : string }.
Record UserRow := mkUserRow { us_columns : User; us_created_at : string; us_updated_at : string; us_last_login_at : string }.

Definition dv_id (r : DeviceRow) : Z := d_ID (dv_columns r).
Definition dv_key (r : DeviceRow) : string := d_SourceKey (dv_columns r).
Definition cl_id (r : CallRow) : Z := r_ID (cl_columns r).
Definition us_id (r : UserRow) : Z := u_ID (us_columns r).

(** The largest identifiers handed out are kept beside the tables (AUTOINCREMENT);
    [call_total] is the row of app_stats that opening the database creates. *)
Record Tables := mkTables {
  devices : list DeviceRow;
  devices_seq : Z;
  calls : list CallRow;
  calls_seq : Z;
  static_groups : list StaticGroup;
  users : list UserRow;
  users_seq : Z;
  call_total : Z
}.

Definition set_devices t v seq := mkTables v seq (calls t) (calls_seq t) (static_groups t) (users t) (users_seq t) (call_total t).
Definition set_calls t v seq := mkTables (devices t) (devices_seq t) v seq (static_groups t) (users t) (users_seq t) (call_total t).
Definition set_groups t v := mkTables (devices t) (devices_seq t) (calls t) (calls_seq t) v (users t) (users_seq t) (call_total t).
Definition set_users t v seq := mkTables (devices t) (devices_seq t) (calls t) (calls_seq t) (static_groups t) v seq (call_total t).
Definition set_total t v := mkTables (devices t) (devices_seq t) (calls t) (calls_seq t) (static_groups t) (users t) (users_seq t) v.

(** ** Statements *)

Record Database := mkDatabase { tables : Tables; faults : list bool }.
Inductive sql_error := ErrNoRows | ErrSql.
Definition action (A : Type) : Type := Database -> Database * (A + sql_error).

Definition ret {A} (a : A) : action A := fun db => (db, inl a).
Definition fail {A} (e : sql_error) : action A := fun db => (db, inr e).
Definition bind {A B} (m : action A) (f : A -> action B) : action B := fun db =>
  match m db with (db, inl a) => f a db | (db, inr e) => (db, inr e) end.
#[local] Notation "x <- m ;; f" := (bind m (fun x => f)) (at level 100, m at next level, right associativity).
#[local] Notation "m1 ;; m2" := (bind m1 (fun _ => m2)) (at level 100, right associativity).

(** One statement, which may be refused by a constraint. *)
Definition sql {A} (f : Tables -> option (Tables * A)) : action A := fun db =>
  match faults db with
  | true :: rest => (mkDatabase (tables db) rest, inr ErrSql)
  | _ =>
      match f (tables db) with
      | Some (t, a) => (mkDatabase t (tail (faults db)), inl a)
      | None => (mkDatabase (tables db) (tail (faults db)), inr ErrSql)
      end
  end.
Definition query {A} (f : Tables -> A) : action A := sql (fun t => Some (t, f t)).
Definition exec (f : Tables -> Tables) : action unit := sql (fun t => Some (f t, tt)).
Definition query_row {A} (f : Tables -> option A) : action A := r <- query f;; match r with Some a => ret a | None => fail ErrNoRows end.

(** Begin, the statements, and Commit or Rollback. *)
Definition transaction {A} (m : action A) : action A := fun db =>
  match (exec id;; (a <- m;; exec id;; ret a)) db with
  | (db', inl a) => (db', inl a)
  | (db', inr e) => (mkDatabase (tables db) (faults db'), inr e)
  end.

(** ** Expressions *)

(** The order of text is that of its bytes. *)
Definition text_le (a b : string) : bool := match String.compare a b with Gt => false | _ => true end.
Definition text_eq (a b : string) : bool := bool_decide (a = b).

(** LOWER and UPPER change ASCII letters only. *)
Fixpoint map_text (f : Z -> Z) (s : string) : string :=
  match s with EmptyString => EmptyString | String c s => String (ascii_of_N (Z.to_N (f (Z.of_N (N_of_ascii c))))) (map_text f s) end.
Definition sql_lower : string -> string := map_text (fun c => if (65 <=? c) && (c <=? 90) then c + 32 else c).
Definition sql_upper : string -> string := map_text (fun c => if (97 <=? c) && (c <=? 122) then c - 32 else c).

(** ORDER BY a text DESC, id DESC *)
Definition newer_first {A} (text : A -> string) (key : A -> Z) (a b : A) : Prop :=
  text a <> text b /\ text_le (text b) (text a) = true \/ text a = text b /\ key b <= key a.
#[export] Instance newer_first_dec {A} (text : A -> string) key : RelDecision (newer_first (A := A) text key).
Proof. intros a b. unfold newer_first. apply _. Defined.
Definition order_by {A} (text : A -> string) (key : A -> Z) (l : list A) : list A := merge_sort (newer_first text key) l.

Definition boolToInt (v : bool) : Z := if v then 1 else 0.
Definition TrimSpace_text (s : string) : string := bytes_str (TrimSpace (str_bytes s)).

(** ** Reading rows *)

Definition with_device_times (d : Device) (first last call : time) : Device :=
  mkDevice
    (d_ID d) (d_Category d) (d_Protocol d) (d_SourceKey d) (d_OwnerUserID d) (d_Name d) (d_Callsign d) (d_DMRID d) (d_Model d) (d_Serial d) (d_IP d)
    (d_Port d) (d_Status d) (boolToInt (d_Online d) =? 1) first last call (d_RXFreq d) (d_TXFreq d) (d_TXPower d) (d_ColorCode d) (d_Latitude d)
    (d_Longitude d) (d_Height d) (d_Location d) (d_Description d) (d_URL d) (d_Slots d) (d_Notes d) (d_DevicePassword d) (d_NRLServerAddr d)
    (d_NRLServerPort d) (d_NRLSSID d) (d_NRLUDPPort d) (d_NRLSlot d) (boolToInt (d_Disabled d) =? 1) (d_ExtraJSON d).
Definition scanDevice (r : DeviceRow) : Device :=
  with_device_times (dv_columns r) (parseTime (dv_first_seen_at r)) (parseTime (dv_last_seen_at r)) (parseTime (dv_last_call_at r)).

Definition scanCall (r : CallRow) : CallRecord :=
  with_times (cl_columns r) (parseTime (cl_created_at r)) (parseTime (cl_ended_at r)) (r_DurationMS (cl_columns r)).

Definition with_user_times (u : User) (created updated login : time) : User :=
  mkUser (u_ID u) (u_Username u) (u_Callsign u) (u_Email u) (u_PasswordHash u) (u_Role u) (boolToInt (u_Enabled u) =? 1) created updated login.
Definition scanUser (r : UserRow) : User :=
  with_user_times (us_columns r) (parseTime (us_created_at r)) (parseTime (us_updated_at r)) (parseTime (us_last_login_at r)).

(** ** Static groups *)

Definition group_le (a b : StaticGroup) : Prop :=
  sg_SourceKey a <> sg_SourceKey b /\ text_le (sg_SourceKey a) (sg_SourceKey b) = true \/
  sg_SourceKey a = sg_SourceKey b /\ (sg_Slot a < sg_Slot b \/ sg_Slot a = sg_Slot b /\ sg_GroupID a <= sg_GroupID b).
#[export] Instance group_le_dec : RelDecision group_le.
Proof. intros a b. unfold group_le. apply _. Defined.
#[export] Instance StaticGroup_eq_dec : EqDecision StaticGroup.
Proof. solve_decision. Defined.

Definition LoadStaticGroups : action (list StaticGroup) := query (fun t => merge_sort group_le (static_groups t)).

Definition delete_groups (t : Tables) (drop_it : StaticGroup -> bool) : Tables := set_groups t (List.filter (fun g => negb (drop_it g)) (static_groups t)).
(** The primary key is the whole row. *)
Definition insert_group (t : Tables) (g : StaticGroup) : option (Tables * unit) :=
  if bool_decide (g ∈ static_groups t) then None else Some (set_groups t (static_groups t ++ [g]), tt).

Fixpoint insert_groups (sourceKey : string) (slot : Z) (groups : list Z) : action unit :=
  match groups with
  | [] => ret tt
  | groupID :: groups =>
      if groupID =? 0 then insert_groups sourceKey slot groups
      else sql (fun t => insert_group t (mkStaticGroup sourceKey slot groupID));; insert_groups sourceKey slot groups
  end.
Definition ReplaceStaticGroups (sourceKey : string) (slot : Z) (groups : list Z) : action unit :=
  transaction (
    exec (fun t => delete_groups t (fun g => text_eq (sg_SourceKey g) sourceKey && (sg_Slot g =? slot)));;
    insert_groups sourceKey slot groups).

(** ** Calls *)

Definition latest_calls (t : Tables) : list CallRow := order_by cl_created_at cl_id (calls t).
Definition LoadCalls (limit : Z) : action (list CallRecord) :=
  let limit := if limit <=? 0 then 50 else limit in
  query (fun t => scanCall <$> take (Z.to_nat limit) (latest_calls t)).

Definition CountCalls : action Z := query call_total.

(** Keep the latest calls. *)
Definition trim_calls (t : Tables) : Tables :=
  let kept := cl_id <$> take recentCallLimit (latest_calls t) in
  set_calls t (List.filter (fun r => bool_decide (cl_id r ∈ kept)) (calls t)) (calls_seq t).

(** Opening a database whose tables exist, after its statements that create what
    is missing: [total] is the row of app_stats. *)
Definition migrate (total : option Z) (t : Tables) : Tables :=
  trim_calls (set_total t (match total with Some n => n | None => Z.of_nat (length (calls t)) end)).

Definition rowid_limit : Z := 2 ^ 63 - 1.
Definition insert_call (c : CallRecord) (t : Tables) : option (Tables * Z) :=
  let id := calls_seq t + 1 in
  if rowid_limit <? id then None
  else Some (set_calls t (calls t ++ [mkCallRow (with_id c id) (formatTime (r_CreatedAt c)) (formatTime (r_EndedAt c))]) id, id).

(** The identifier of the new row. *)
Definition InsertCall (c : CallRecord) (now : time) : action Z :=
  let c := if time_is_zero (r_CreatedAt c) then with_times c now (r_EndedAt c) (r_DurationMS c) else c in
  transaction (
    id <- sql (insert_call c);;
    exec (fun t => set_total t (call_total t + 1));;
    exec trim_calls;;
    ret id).

Definition update_call (id : Z) (endedAt : time) (durationMS : Z) (r : CallRow) : CallRow :=
  if cl_id r =? id
  then mkCallRow (with_times (cl_columns r) (r_CreatedAt (cl_columns r)) (r_EndedAt (cl_columns r)) durationMS) (cl_created_at r) (formatTime endedAt) else r.
Definition UpdateCallDuration (id : Z) (endedAt : time) (durationMS : Z) : action unit :=
  exec (fun t => set_calls t (update_call id endedAt durationMS <$> calls t) (calls_seq t)).

(** Calls that were left open. *)
Definition open_calls (t : Tables) : list (Z * time) :=
  (fun r => (cl_id r, parseTime (cl_created_at r))) <$> List.filter (fun r => text_eq (cl_ended_at r) "" || text_eq (cl_ended_at r) "0001-01-01T00:00:00Z") (calls t).
Definition stale_call (maxAge : Z) (now : time) (c : Z * time) : bool := negb (time_is_zero (snd c) || (time_sub now (snd c) <=? maxAge)).
Fixpoint end_calls (now : time) (l : list (Z * time)) : action unit :=
  match l with
  | [] => ret tt
  | (id, createdAt) :: l => UpdateCallDuration id now (Z.max 0 (Z.quot (time_sub now createdAt) millisecond));; end_calls now l
  end.
Definition RepairStaleOpenCalls (maxAge : Z) (now clock : time) : action unit :=
  let maxAge := if maxAge <=? 0 then 30 * second else maxAge in
  let now := if time_is_zero now then clock else now in
  open_ <- query open_calls;;
  end_calls now (List.filter (stale_call maxAge now) open_).

(** ** Devices *)

Definition LoadDevices : action (list Device) := query (fun t => scanDevice <$> order_by dv_last_seen_at dv_id (devices t)).
Definition find_device (p : DeviceRow -> bool) (t : Tables) : option Device := scanDevice <$> List.find p (devices t).
Definition DeviceByID (id : Z) : action Device := query_row (find_device (fun r => dv_id r =? id)).
Definition DeviceBySourceKey (sourceKey : string) : action Device := query_row (find_device (fun r => text_eq (dv_key r) sourceKey)).
Definition ListDevicesByOwner (ownerUserID : Z) : action (list Device) :=
  query (fun t => scanDevice <$> order_by (fun _ => "") dv_id (List.filter (fun r => d_OwnerUserID (dv_columns r) =? ownerUserID) (devices t))).

Definition dedupeByDMRID (protocol : string) : bool := text_eq protocol "ipsc" || text_eq protocol "hytera".

Definition or_text (a b : string) : string := if text_eq a "" then b else a.
Definition or_num (a b : Z) : Z := if a =? 0 then b else a.
Definition or_real (a b : Q) : Q := if Qeq_bool a 0 then b else a.

Definition mergePreferredDevice (i e : Device) : Device :=
  mkDevice
    (d_ID i) (d_Category i) (d_Protocol i) (d_SourceKey i) (d_OwnerUserID i) (or_text (d_Name i) (d_Name e)) (or_text (d_Callsign i) (d_Callsign e)) (d_DMRID i)
    (or_text (d_Model i) (d_Model e)) (or_text (d_Serial i) (d_Serial e)) (or_text (d_IP i) (d_IP e)) (or_num (d_Port i) (d_Port e)) (d_Status i) (d_Online i)
    (if time_is_zero (d_FirstSeenAt i) || (negb (time_is_zero (d_FirstSeenAt e)) && (d_FirstSeenAt e <? d_FirstSeenAt i)) then d_FirstSeenAt e else d_FirstSeenAt i)
    (d_LastSeenAt i)
    (if time_is_zero (d_LastCallAt i) && negb (time_is_zero (d_LastCallAt e)) then d_LastCallAt e else d_LastCallAt i)
    (d_RXFreq i) (d_TXFreq i) (d_TXPower i) (d_ColorCode i) (d_Latitude i) (d_Longitude i) (d_Height i)
    (or_text (d_Location i) (d_Location e)) (or_text (d_Description i) (d_Description e)) (or_text (d_URL i) (d_URL e)) (d_Slots i) (or_text (d_Notes i) (d_Notes e))
    (d_DevicePassword i) (or_text (d_NRLServerAddr i) (d_NRLServerAddr e)) (or_num (d_NRLServerPort i) (d_NRLServerPort e)) (or_num (d_NRLSSID i) (d_NRLSSID e))
    (or_num (d_NRLUDPPort i) (d_NRLUDPPort e)) (or_num (d_NRLSlot i) (d_NRLSlot e)) (if negb (d_Disabled i) then d_Disabled e else true) (or_text (d_ExtraJSON i) (d_ExtraJSON e)).

(** The rows with the identifier of a device under other source keys. *)
Definition same_dmrid (d : Device) (r : DeviceRow) : bool :=
  (d_DMRID (dv_columns r) =? d_DMRID d) && negb (text_eq (dv_key r) (d_SourceKey d)) && negb (text_eq (d_Protocol (dv_columns r)) "mmdvm-upstream").

(** INSERT OR IGNORE ... SELECT: the groups of a source key for another one. *)
Definition copy_groups (to_ from : string) (t : Tables) : Tables :=
  foldl (fun t g => match insert_group t (mkStaticGroup to_ (sg_Slot g) (sg_GroupID g)) with Some (t, _) => t | None => t end)
    t (List.filter (fun g => text_eq (sg_SourceKey g) from) (static_groups t)).
Definition delete_device (id : Z) (t : Tables) : Tables := set_devices t (List.filter (fun r => negb (dv_id r =? id)) (devices t)) (devices_seq t).

Fixpoint merge_duplicates (d : Device) (duplicates : list Device) : action Device :=
  match duplicates with
  | [] => ret d
  | dup :: duplicates =>
      let d := mergePreferredDevice d dup in
      exec (copy_groups (d_SourceKey d) (d_SourceKey dup));;
      (exec (fun t => delete_groups t (fun g => text_eq (sg_SourceKey g) (d_SourceKey dup)));;
      (exec (delete_device (d_ID dup));;
      merge_duplicates d duplicates))
  end.
Definition mergeDuplicateDMRID (d : Device) : action Device :=
  if (d_DMRID d =? 0) || text_eq (d_SourceKey d) "" || negb (dedupeByDMRID (d_Protocol d)) then ret d
  else
    duplicates <- query (fun t => scanDevice <$> order_by dv_last_seen_at dv_id (List.filter (same_dmrid d) (devices t)));;
    merge_duplicates d duplicates.

(** ON CONFLICT(source_key) DO UPDATE, with the row in the table and the new one. *)
Definition update_device_row (old new : DeviceRow) : DeviceRow :=
  let o := dv_columns old in
  let e := dv_columns new in
  mkDeviceRow
    (mkDevice
      (d_ID o) (d_Category e) (d_Protocol e) (d_SourceKey o) (if negb (d_OwnerUserID o =? 0) then d_OwnerUserID o else d_OwnerUserID e)
      (or_text (d_Name e) (d_Name o)) (or_text (d_Callsign e) (d_Callsign o)) (or_num (d_DMRID e) (d_DMRID o)) (or_text (d_Model e) (d_Model o))
      (or_text (d_Serial e) (d_Serial o)) (or_text (d_IP e) (d_IP o)) (or_num (d_Port e) (d_Port o)) (or_text (d_Status e) (d_Status o)) (d_Online e)
      (d_FirstSeenAt o) (d_LastSeenAt o) (d_LastCallAt o) (or_num (d_RXFreq e) (d_RXFreq o)) (or_num (d_TXFreq e) (d_TXFreq o)) (or_num (d_TXPower e) (d_TXPower o))
      (or_num (d_ColorCode e) (d_ColorCode o)) (or_real (d_Latitude e) (d_Latitude o)) (or_real (d_Longitude e) (d_Longitude o)) (or_num (d_Height e) (d_Height o))
      (or_text (d_Location e) (d_Location o)) (or_text (d_Description e) (d_Description o)) (or_text (d_URL e) (d_URL o)) (or_num (d_Slots e) (d_Slots o)) (d_Notes e)
      (or_text (d_DevicePassword e) (d_DevicePassword o)) (or_text (d_NRLServerAddr e) (d_NRLServerAddr o)) (or_num (d_NRLServerPort e) (d_NRLServerPort o))
      (or_num (d_NRLSSID e) (d_NRLSSID o)) (or_num (d_NRLUDPPort e) (d_NRLUDPPort o)) (or_num (d_NRLSlot e) (d_NRLSlot o)) (d_Disabled e)
      (or_text (d_ExtraJSON e) (d_ExtraJSON o)))
    (dv_first_seen_at old) (dv_last_seen_at new) (or_text (dv_last_call_at new) (dv_last_call_at old)).

Definition with_device_id (d : Device) (id : Z) : Device :=
  mkDevice
    id (d_Category d) (d_Protocol d) (d_SourceKey d) (d_OwnerUserID d) (d_Name d) (d_Callsign d) (d_DMRID d) (d_Model d) (d_Serial d) (d_IP d)
    (d_Port d) (d_Status d) (d_Online d) (d_FirstSeenAt d) (d_LastSeenAt d) (d_LastCallAt d) (d_RXFreq d) (d_TXFreq d) (d_TXPower d) (d_ColorCode d) (d_Latitude d)
    (d_Longitude d) (d_Height d) (d_Location d) (d_Description d) (d_URL d) (d_Slots d) (d_Notes d) (d_DevicePassword d) (d_NRLServerAddr d)
    (d_NRLServerPort d) (d_NRLSSID d) (d_NRLUDPPort d) (d_NRLSlot d) (d_Disabled d) (d_ExtraJSON d).

(** An INSERT that turns into an UPDATE may use up an identifier or not. *)
Class Autoincrement := seq_after_conflict : Z -> Z.
Class AutoincrementLaw `{Autoincrement} : Prop := seq_ascends n : n <= seq_after_conflict n.

(** The row of a device. *)
Definition device_row (d : Device) : DeviceRow :=
  mkDeviceRow d (formatTime (d_FirstSeenAt d)) (formatTime (d_LastSeenAt d)) (formatTime (d_LastCallAt d)).

Section store.
Context `{Autoincrement}.

Definition upsert_device (d : Device) (t : Tables) : option (Tables * unit) :=
  let row := device_row d in
  if existsb (fun r => text_eq (dv_key r) (d_SourceKey d)) (devices t)
  then Some (set_devices t ((fun r => if text_eq (dv_key r) (d_SourceKey d) then update_device_row r row else r) <$> devices t) (seq_after_conflict (devices_seq t)), tt)
  else
    let id := devices_seq t + 1 in
    if rowid_limit <? id then None
    else Some (set_devices t (devices t ++ [mkDeviceRow (with_device_id d id) (dv_first_seen_at row) (dv_last_seen_at row) (dv_last_call_at row)]) id, tt).

Definition with_seen_times (d : Device) (now : time) : Device :=
  with_device_times d (if time_is_zero (d_FirstSeenAt d) then now else d_FirstSeenAt d) (if time_is_zero (d_LastSeenAt d) then now else d_LastSeenAt d) (d_LastCallAt d).

Definition UpsertDevice (d : Device) (now : time) : action Device :=
  transaction (
    d <- mergeDuplicateDMRID (with_seen_times d now);;
    sql (upsert_device d));;
  DeviceBySourceKey (d_SourceKey d).

Definition patched (d : Device) (p : DevicePatch) : Device :=
  mkDevice
    (d_ID d) (d_Category d) (d_Protocol d) (d_SourceKey d) (default (d_OwnerUserID d) (p_OwnerUserID p)) (default (d_Name d) (p_Name p))
    (default (d_Callsign d) (p_Callsign p)) (default (d_DMRID d) (p_DMRID p)) (default (d_Model d) (p_Model p)) (d_Serial d) (d_IP d)
    (d_Port d) (d_Status d) (d_Online d) (d_FirstSeenAt d) (d_LastSeenAt d) (d_LastCallAt d) (d_RXFreq d) (d_TXFreq d) (d_TXPower d) (d_ColorCode d) (d_Latitude d)
    (d_Longitude d) (d_Height d) (default (d_Location d) (p_Location p)) (default (d_Description d) (p_Description p)) (d_URL d) (d_Slots d)
    (default (d_Notes d) (p_Notes p)) (default (d_DevicePassword d) (p_DevicePassword p)) (default (d_NRLServerAddr d) (p_NRLServerAddr p))
    (default (d_NRLServerPort d) (p_NRLServerPort p)) (default (d_NRLSSID d) (p_NRLSSID p)) (default (d_NRLUDPPort d) (p_NRLUDPPort p))
    (default (d_NRLSlot d) (p_NRLSlot p)) (default (d_Disabled d) (p_Disabled p)) (d_ExtraJSON d).

(** The columns the UPDATE sets. *)
Definition set_metadata (o d : Device) : Device :=
  mkDevice
    (d_ID o) (d_Category o) (d_Protocol o) (d_SourceKey o) (d_OwnerUserID d) (d_Name d) (d_Callsign d) (d_DMRID d) (d_Model d) (d_Serial o) (d_IP o)
    (d_Port o) (d_Status o) (d_Online o) (d_FirstSeenAt o) (d_LastSeenAt o) (d_LastCallAt o) (d_RXFreq o) (d_TXFreq o) (d_TXPower o) (d_ColorCode o) (d_Latitude o)
    (d_Longitude o) (d_Height o) (d_Location d) (d_Description d) (d_URL o) (d_Slots o) (d_Notes d) (d_DevicePassword d) (d_NRLServerAddr d)
    (d_NRLServerPort d) (d_NRLSSID d) (d_NRLUDPPort d) (d_NRLSlot d) (d_Disabled d) (d_ExtraJSON o).
Definition update_rows (p : DeviceRow -> bool) (f : Device -> Device) (t : Tables) : Tables :=
  set_devices t ((fun r => if p r then mkDeviceRow (f (dv_columns r)) (dv_first_seen_at r) (dv_last_seen_at r) (dv_last_call_at r) else r) <$> devices t) (devices_seq t).

Definition UpdateDeviceMetadata (id : Z) (patch : DevicePatch) : action Device :=
  current <- DeviceByID id;;
  (exec (update_rows (fun r => dv_id r =? id) (fun o => set_metadata o (patched current patch)));;
  DeviceByID id).

Definition DeleteDevice (id : Z) : action Device :=
  current <- DeviceByID id;;
  (exec (fun t => delete_groups t (fun g => text_eq (sg_SourceKey g) (d_SourceKey current)));;
  (exec (delete_device id);;
  ret current)).

Definition with_owner (owner : Z) (d : Device) : Device :=
  mkDevice
    (d_ID d) (d_Category d) (d_Protocol d) (d_SourceKey d) owner (d_Name d) (d_Callsign d) (d_DMRID d) (d_Model d) (d_Serial d) (d_IP d)
    (d_Port d) (d_Status d) (d_Online d) (d_FirstSeenAt d) (d_LastSeenAt d) (d_LastCallAt d) (d_RXFreq d) (d_TXFreq d) (d_TXPower d) (d_ColorCode d) (d_Latitude d)
    (d_Longitude d) (d_Height d) (d_Location d) (d_Description d) (d_URL d) (d_Slots d) (d_Notes d) (d_DevicePassword d) (d_NRLServerAddr d)
    (d_NRLServerPort d) (d_NRLSSID d) (d_NRLUDPPort d) (d_NRLSlot d) (d_Disabled d) (d_ExtraJSON d).
Definition AssignDeviceOwner (id ownerUserID : Z) : action Device :=
  exec (update_rows (fun r => dv_id r =? id) (with_owner ownerUserID));; DeviceByID id.

(** ** Users *)

Definition find_user (p : User -> bool) (t : Tables) : option User := scanUser <$> List.find (fun r => p (us_columns r)) (users t).
Definition UserByID (id : Z) : action User := query_row (find_user (fun u => u_ID u =? id)).
Definition UserByUsername (username : string) : action User :=
  query_row (find_user (fun u => text_eq (sql_lower (u_Username u)) (sql_lower (TrimSpace_text username)))).
Definition UserByCallsign (callsign : string) : action User :=
  query_row (find_user (fun u => text_eq (sql_upper (u_Callsign u)) (sql_upper (TrimSpace_text callsign)))).
Definition UserByEmail (email : string) : action User :=
  query_row (find_user (fun u => text_eq (sql_lower (u_Email u)) (sql_lower (TrimSpace_text email)))).
Definition FindUserIDByCallsign (callsign : string) : action Z :=
  query_row (fun t => us_id <$> List.find (fun r => text_eq (sql_upper (u_Callsign (us_columns r))) (sql_upper (TrimSpace_text callsign))) (users t)).
Definition ListUsers : action (list User) := query (fun t => scanUser <$> order_by (fun _ => "") us_id (users t)).
Definition UserCount : action Z := query (fun t => Z.of_nat (length (users t))).

(** The UNIQUE columns. *)
Definition user_conflict (u : User) (r : UserRow) : bool :=
  text_eq (u_Username (us_columns r)) (u_Username u) || text_eq (u_Callsign (us_columns r)) (u_Callsign u) || text_eq (u_Email (us_columns r)) (u_Email u).

Definition with_user_id (u : User) (id : Z) : User :=
  mkUser id (u_Username u) (u_Callsign u) (u_Email u) (u_PasswordHash u) (u_Role u) (u_Enabled u) (u_CreatedAt u) (u_UpdatedAt u) (u_LastLoginAt u).
Definition insert_user (u : User) (created now : time) (t : Tables) : option (Tables * Z) :=
  let id := users_seq t + 1 in
  if existsb (user_conflict u) (users t) || (rowid_limit <? id) then None
  else Some (set_users t (users t ++ [mkUserRow (with_user_id u id) (formatTime created) (formatTime now) (formatTime (u_LastLoginAt u))]) id, id).
Definition CreateUser (u : User) (now : time) : action User :=
  id <- sql (insert_user u (if time_is_zero (u_CreatedAt u) then now else u_CreatedAt u) now);; UserByID id.

Definition update_user (u : User) (now : time) (t : Tables) : option (Tables * unit) :=
  if existsb (fun r => us_id r =? u_ID u) (users t) && existsb (fun r => negb (us_id r =? u_ID u) && user_conflict u r) (users t) then None
  else Some (set_users t ((fun r => if us_id r =? u_ID u then mkUserRow u (us_created_at r) (formatTime now) (formatTime (u_LastLoginAt u)) else r) <$> users t) (users_seq t), tt).
Definition UpdateUser (u : User) (now : time) : action User := sql (update_user u now);; UserByID (u_ID u).

Definition DeleteUser (id : Z) : action unit :=
  exec (update_rows (fun r => d_OwnerUserID (dv_columns r) =? id) (with_owner 0));;
  exec (fun t => set_users t (List.filter (fun r => negb (us_id r =? id)) (users t)) (users_seq t)).

Definition UpdateUserLastLogin (id : Z) (when_ : time) : action unit :=
  exec (fun t => set_users t ((fun r => if us_id r =? id then mkUserRow (us_columns r) (us_created_at r) (formatTime when_) (formatTime when_) else r) <$> users t) (users_seq t)).

(** The first user, made when there is none (service.go). *)
Definition as_admin (u : User) : User :=
  mkUser (u_ID u) (u_Username u) (u_Callsign u) (u_Email u) (u_PasswordHash u) "admin" true (u_CreatedAt u) (u_UpdatedAt u) (u_LastLoginAt u).
Definition EnsureAdminUser (u : User) (now : time) : action (option User * bool) := fun db =>
  match UserCount db with
  | (db, inr e) => (db, inr e)
  | (db, inl count) =>
      if 0 <? count then
        match UserByUsername (u_Username u) db with
        | (db, inl existing) => (db, inl (Some existing, false))
        | (db, inr ErrNoRows) => (db, inl (None, false))
        | (db, inr e) => (db, inr e)
        end
      else (created <- CreateUser (as_admin u) now;; ret (Some created, true)) db
  end.

(** ** Reasoning about actions

    An action respects a relation between the tables before and after, whatever
    statements fail; and it consumes faults only. *)
Definition respects {A} (S : Tables -> Tables -> Prop) (m : action A) : Prop :=
  forall db, S (tables db) (tables (fst (m db))) /\ faults (fst (m db)) `suffix_of` faults db.

Section respects.
Context (S : Tables -> Tables -> Prop) `{!PreOrder S}.

Lemma respects_ret {A} (a : A) : respects S (ret a).
Proof. intros db. split; [cbn; reflexivity | done]. Qed.
Lemma respects_fail {A} e : respects S (fail (A := A) e).
Proof. intros db. split; [cbn; reflexivity | done]. Qed.
Lemma respects_bind {A B} (m : action A) (f : A -> action B) : respects S m -> (forall a, respects S (f a)) -> respects S (bind m f).
Proof.
  intros Hm Hf db. unfold bind. destruct (Hm db) as [S1 F1]. destruct (m db) as [db1 [a | e]]; [| done]. cbn [fst] in *.
  destruct (Hf a db1) as [S2 F2]. split; [by etrans | by etrans].
Qed.
Lemma respects_sql {A} (f : Tables -> option (Tables * A)) : (forall t t' a, f t = Some (t', a) -> S t t') -> respects S (sql f).
Proof.
  intros Hf db. unfold sql. destruct db as [t [| [|] rest]]; cbn [tables faults].
  - destruct (f t) as [[t' a] |] eqn:E; (split; [cbn; by eauto || reflexivity | done]).
  - split; [cbn; reflexivity | by exists [true]].
  - destruct (f t) as [[t' a] |] eqn:E; (split; [cbn; by eauto || reflexivity | by exists [false]]).
Qed.
Lemma respects_query {A} (f : Tables -> A) : respects S (query f).
Proof. apply respects_sql. intros t t' a [= <- _]. reflexivity. Qed.
Lemma respects_exec f : (forall t, S t (f t)) -> respects S (exec f).
Proof. intros Hf. apply respects_sql. by intros t t' a [= <- _]. Qed.
Lemma respects_query_row {A} (f : Tables -> option A) : respects S (query_row f).
Proof. apply respects_bind; [apply respects_query |]. intros [a |]; [apply respects_ret | apply respects_fail]. Qed.
Lemma respects_transaction {A} (m : action A) : respects S m -> respects S (transaction m).
Proof.
  intros Hm db. unfold transaction.
  assert (Hall : respects S (exec id;; (a <- m;; exec id;; ret a))).
  { apply respects_bind; [by apply respects_exec |]. intros _. apply respects_bind; [done |]. intros a.
    apply respects_bind; [by apply respects_exec |]. intros _. apply respects_ret. }
  specialize (Hall db). destruct ((exec id;; _) db) as [db1 [a | e]]; [done |]. cbn [fst tables faults] in *. split; [reflexivity | by destruct Hall].
Qed.
End respects.

Create HintDb store.
#[local] Hint Resolve respects_ret respects_fail respects_bind respects_query respects_query_row respects_transaction : store.

(** ** The tables are sound *)

(** Keys are unique, and no identifier is larger than the one handed out last. *)
Definition keyed {A} (key : A -> Z) (seq : Z) (l : list A) : Prop := NoDup (key <$> l) /\ Forall (fun r => key r <= seq) l.

Record tables_ok (t : Tables) : Prop := {
  ok_device_ids : keyed dv_id (devices_seq t) (devices t);
  ok_device_keys : NoDup (dv_key <$> devices t);
  ok_call_ids : keyed cl_id (calls_seq t) (calls t);
  ok_groups : NoDup (static_groups t);
  ok_user_ids : keyed us_id (users_seq t) (users t);
  ok_usernames : NoDup ((fun r => u_Username (us_columns r)) <$> users t);
  ok_callsigns : NoDup ((fun r => u_Callsign (us_columns r)) <$> users t);
  ok_emails : NoDup ((fun r => u_Email (us_columns r)) <$> users t)
}.
Definition keeps_ok (t t' : Tables) : Prop := tables_ok t -> tables_ok t'.
#[local] Instance keeps_ok_preorder : PreOrder keeps_ok.
Proof. split; unfold keeps_ok; [by intros t | by intros t1 t2 t3; auto]. Qed.

Lemma NoDup_fmap_filter {A B} (f : A -> B) (p : A -> bool) l : NoDup (f <$> l) -> NoDup (f <$> List.filter p l).
Proof.
  intros Hl. eapply sublist_NoDup; [exact Hl |]. induction l as [| x l IH]; [done |]. cbn in Hl |- *. apply NoDup_cons in Hl as [_ Hl].
  destruct (p x); [by apply sublist_skip, IH | by apply sublist_cons, IH].
Qed.
Lemma Forall_filter_bool {A} (P : A -> Prop) (p : A -> bool) l : Forall P l -> Forall P (List.filter p l).
Proof. intros Hl. apply Forall_forall. intros x Hx. apply list_elem_of_In, filter_In in Hx as [Hx _]. rewrite Forall_forall in Hl. apply Hl. by apply list_elem_of_In. Qed.
Lemma keyed_filter {A} (key : A -> Z) seq p l : keyed key seq l -> keyed key seq (List.filter p l).
Proof. intros [H1 H2]. split; [by apply NoDup_fmap_filter | by apply Forall_filter_bool]. Qed.
Lemma keyed_map {A} (key : A -> Z) seq f l : (forall r, key (f r) = key r) -> keyed key seq l -> keyed key seq (f <$> l).
Proof.
  intros Hf [H1 H2]. assert (E : key <$> (f <$> l) = key <$> l) by (rewrite <- list_fmap_compose; by apply list_fmap_ext; intros ? ? ?; cbn).
  split; [by rewrite E |]. apply Forall_fmap. eapply Forall_impl; [exact H2 |]. cbn. intros r. by rewrite Hf.
Qed.
Lemma keyed_append {A} (key : A -> Z) seq l r : keyed key seq l -> key r = seq + 1 -> keyed key (seq + 1) (l ++ [r]).
Proof.
  intros [H1 H2] E. rewrite Forall_forall in H2. split.
  - rewrite fmap_app. apply NoDup_app. split; [done |]. split; [| apply NoDup_singleton]. intros x Hx Hx'. cbn in Hx'. apply list_elem_of_singleton in Hx' as ->.
    apply list_elem_of_fmap in Hx as (y & Ey & Hy). specialize (H2 y Hy). cbn in H2. lia.
  - apply Forall_app. split; [apply Forall_forall; intros y Hy; specialize (H2 y Hy); cbn in H2; lia | constructor; [lia | constructor]].
Qed.
Lemma keyed_later {A} (key : A -> Z) seq seq' l : keyed key seq l -> seq <= seq' -> keyed key seq' l.
Proof. intros [H1 H2] Hs. split; [done |]. eapply Forall_impl; [exact H2 |]. cbn. lia. Qed.
Lemma NoDup_append_new {A B} (f : A -> B) l r : NoDup (f <$> l) -> f r ∉ (f <$> l) -> NoDup (f <$> (l ++ [r])).
Proof.
  intros H1 Hr. rewrite fmap_app. apply NoDup_app. split; [done |]. split; [| apply NoDup_singleton].
  intros x Hx Hx'. cbn in Hx'. apply list_elem_of_singleton in Hx' as ->. done.
Qed.
Lemma fmap_same {A B} (g : A -> B) (f : A -> A) (l : list A) : (forall r, g (f r) = g r) -> g <$> (f <$> l) = g <$> l.
Proof. intros Hf. rewrite <- list_fmap_compose. apply list_fmap_ext. intros i x _. cbn. apply Hf. Qed.
Lemma existsb_key {A B} (f : A -> B) (eqb : A -> bool) b (l : list A) :
  (forall r, eqb r = true <-> f r = b) -> existsb eqb l = false -> b ∉ (f <$> l).
Proof.
  intros He Hx Hin. apply list_elem_of_fmap in Hin as (r & -> & Hr). assert (existsb eqb l = true) as E; [| congruence].
  apply existsb_exists. exists r. split; [by apply list_elem_of_In |]. by apply He.
Qed.
Lemma text_eq_true a b : text_eq a b = true <-> a = b.
Proof. apply bool_decide_eq_true. Qed.

Lemma keeps_filter_groups t p : keeps_ok t (delete_groups t p).
Proof. intros []. split; try done. cbn. rewrite <- (list_fmap_id (List.filter _ _)). apply NoDup_fmap_filter. by rewrite list_fmap_id. Qed.
Lemma keeps_insert_group t g t' a : insert_group t g = Some (t', a) -> keeps_ok t t'.
Proof.
  unfold insert_group. case_bool_decide as Hg; [done |]. intros [= <- _] []. split; try done. cbn.
  rewrite <- (list_fmap_id (_ ++ _)). apply NoDup_append_new; by rewrite list_fmap_id.
Qed.
Lemma keeps_copy_groups a b t : keeps_ok t (copy_groups a b t).
Proof.
  intros Hok. unfold copy_groups. generalize (List.filter (fun g => text_eq (sg_SourceKey g) b) (static_groups t)) as l. intros l. revert t Hok.
  induction l as [| g l IH]; intros t Hok; [done |]. cbn [foldl]. apply IH. destruct (insert_group t _) as [[t' []] |] eqn:E; [by eapply keeps_insert_group | done].
Qed.
Lemma keeps_delete_device id t : keeps_ok t (delete_device id t).
Proof. intros []. split; try done; cbn; [by apply keyed_filter | by apply NoDup_fmap_filter]. Qed.
Lemma keeps_trim t : keeps_ok t (trim_calls t).
Proof. intros []. split; try done; cbn. by apply keyed_filter. Qed.
Lemma keeps_insert_call c t t' id : insert_call c t = Some (t', id) -> keeps_ok t t'.
Proof. unfold insert_call. destruct (rowid_limit <? _); [done |]. intros [= <- _] []. split; try done; cbn. by apply keyed_append. Qed.
Lemma keeps_update_rows p f t : (forall d, d_ID (f d) = d_ID d /\ d_SourceKey (f d) = d_SourceKey d) -> keeps_ok t (update_rows p f t).
Proof.
  intros Hf []. split; try done; cbn.
  - apply keyed_map; [| done]. intros r. destruct (p r); [unfold dv_id; cbn; apply Hf | done].
  - rewrite fmap_same; [done |]. intros r. destruct (p r); [unfold dv_key; cbn; apply Hf | done].
Qed.
Lemma keeps_update_call id e d t : keeps_ok t (set_calls t (update_call id e d <$> calls t) (calls_seq t)).
Proof. intros []. split; try done; cbn. apply keyed_map; [| done]. intros r. unfold update_call. by destruct (cl_id r =? id). Qed.

Context `{!AutoincrementLaw}.

Lemma keeps_upsert d t t' a : upsert_device d t = Some (t', a) -> keeps_ok t t'.
Proof.
  unfold upsert_device. cbv zeta. destruct (existsb _ _) eqn:E.
  - intros [= <- _] []. split; try done; cbn.
    + eapply keyed_later; [| apply seq_ascends]. apply keyed_map; [| done]. intros r. by destruct (text_eq _ _).
    + rewrite fmap_same; [done |]. intros r. by destruct (text_eq _ _).
  - destruct (rowid_limit <? _); [done |]. intros [= <- _] []. split; try done; cbn; [by apply keyed_append |].
    apply NoDup_append_new; [done |]. cbn. apply (existsb_key dv_key _ _ _ (fun r => text_eq_true _ _) E).
Qed.

Lemma keeps_insert_user u created now t t' id : insert_user u created now t = Some (t', id) -> keeps_ok t t'.
Proof.
  unfold insert_user. cbv zeta. destruct (existsb _ _) eqn:E; [done |]. destruct (rowid_limit <? _); [done |]. cbn [orb]. intros [= <- _] [].
  assert (Hnew : forall g : User -> string, (forall v, g (with_user_id u v) = g u) ->
    (forall r, user_conflict u r = false -> g (us_columns r) <> g u) -> g u ∉ ((fun r => g (us_columns r)) <$> users t)).
  { intros g Hg Hc Hin. apply list_elem_of_fmap in Hin as (r & Er & Hr). apply (Hc r); [| done].
    destruct (user_conflict u r) eqn:Ec; [| done]. assert (existsb (user_conflict u) (users t) = true); [| congruence].
    apply existsb_exists. exists r. split; [by apply list_elem_of_In | done]. }
  split; try done; cbn; [by apply keyed_append | | |]; apply NoDup_append_new; try done; cbn.
  - apply (Hnew u_Username); [done |]. intros r Hr E'. unfold user_conflict in Hr. apply text_eq_true in E'. by rewrite E' in Hr.
  - apply (Hnew u_Callsign); [done |]. intros r Hr E'. unfold user_conflict in Hr. apply text_eq_true in E'. by rewrite E', orb_true_r in Hr.
  - apply (Hnew u_Email); [done |]. intros r Hr E'. unfold user_conflict in Hr. apply text_eq_true in E'. by rewrite E', orb_true_r in Hr.
Qed.

(** One row changes to values no other row has. *)
Lemma NoDup_replace_row {A B} (key : A -> Z) (g : A -> B) k (f : A -> A) (l : list A) b : (forall r, g (f r) = b) ->
  NoDup (key <$> l) -> NoDup (g <$> l) -> (forall r, r ∈ l -> key r <> k -> g r <> b) -> NoDup (g <$> ((fun r => if key r =? k then f r else r) <$> l)).
Proof.
  intros Hf. induction l as [| x l IH]; intros Hk Hg Hb; [constructor |]. cbn in Hk, Hg |- *. apply NoDup_cons in Hk as [Hx Hk], Hg as [Hgx Hg].
  assert (IH' := IH Hk Hg ltac:(intros r Hr; apply Hb; by right)). apply NoDup_cons. split; [| done].
  intros Hin. apply list_elem_of_fmap in Hin as (y & Ey & Hy). apply list_elem_of_fmap in Hy as (z & -> & Hz).
  assert (Hne : key x <> key z) by (intros E; apply Hx; apply list_elem_of_fmap; by exists z).
  destruct (Z.eqb_spec (key x) k), (Z.eqb_spec (key z) k); try congruence.
  - apply (Hb z); [by right | congruence |]. by rewrite <- Ey, Hf.
  - apply (Hb x); [by left | done |]. by rewrite Ey, Hf.
  - apply Hgx. apply list_elem_of_fmap. by exists z.
Qed.

Lemma keeps_update_user u now t t' a : update_user u now t = Some (t', a) -> keeps_ok t t'.
Proof.
  unfold update_user. destruct (existsb (fun r => us_id r =? u_ID u) (users t)) eqn:E1; cycle 1.
  { cbn [andb]. intros [= <- _] Hok. replace ((fun r => if us_id r =? u_ID u then _ else r) <$> users t) with (users t); [by destruct t, Hok |].
    assert (Hall : forall r, r ∈ users t -> (us_id r =? u_ID u) = false).
    { intros r Hr. destruct (us_id r =? u_ID u) eqn:E; [| done]. assert (existsb (fun r => us_id r =? u_ID u) (users t) = true); [| congruence].
      apply existsb_exists. exists r. by rewrite <- list_elem_of_In. }
    clear E1. induction (users t) as [| r l IH]; [done |]. cbn. rewrite (Hall r) by (by left). f_equal. apply IH. intros r' Hr'. apply Hall. by right. }
  destruct (existsb (fun r => negb _ && _) _) eqn:E2; [done |]. cbn [andb]. intros [= <- _] [].
  assert (Hother : forall r, r ∈ users t -> us_id r <> u_ID u -> user_conflict u r = false).
  { intros r Hr Hne. destruct (user_conflict u r) eqn:E; [| done]. assert (existsb (fun r => negb (us_id r =? u_ID u) && user_conflict u r) (users t) = true); [| congruence].
    apply existsb_exists. exists r. rewrite <- list_elem_of_In, E, (proj2 (Z.eqb_neq _ _) Hne). done. }
  assert (Hrep : forall g : User -> string, NoDup ((fun r => g (us_columns r)) <$> users t) -> (forall r, user_conflict u r = false -> g (us_columns r) <> g u) ->
    NoDup ((fun r => g (us_columns r)) <$> ((fun r => if us_id r =? u_ID u then mkUserRow u (us_created_at r) (formatTime now) (formatTime (u_LastLoginAt u)) else r) <$> users t))).
  { intros g Hg Hc. apply (NoDup_replace_row us_id _ (u_ID u) (fun r => mkUserRow u (us_created_at r) (formatTime now) (formatTime (u_LastLoginAt u))) _ (g u)); [done | by destruct ok_user_ids0 | done |].
    intros r Hr Hne. by apply Hc, Hother. }
  split; try done; cbn.
  - apply keyed_map; [| done]. intros r. destruct (Z.eqb_spec (us_id r) (u_ID u)) as [E |]; [by rewrite E | done].
  - apply Hrep; [done |]. intros r Hr E. unfold user_conflict in Hr. apply text_eq_true in E. by rewrite E in Hr.
  - apply Hrep; [done |]. intros r Hr E. unfold user_conflict in Hr. apply text_eq_true in E. by rewrite E, orb_true_r in Hr.
  - apply Hrep; [done |]. intros r Hr E. unfold user_conflict in Hr. apply text_eq_true in E. by rewrite E, orb_true_r in Hr.
Qed.

Lemma keeps_delete_user id t : keeps_ok t (set_users t (List.filter (fun r => negb (us_id r =? id)) (users t)) (users_seq t)).
Proof. intros []. split; try done; cbn; [by apply keyed_filter | by apply (NoDup_fmap_filter (fun r => _)) ..]. Qed.
Lemma keeps_last_login id w t :
  keeps_ok t (set_users t ((fun r => if us_id r =? id then mkUserRow (us_columns r) (us_created_at r) (formatTime w) (formatTime w) else r) <$> users t) (users_seq t)).
Proof.
  intros []. split; try done; cbn.
  - apply keyed_map; [| done]. intros r. by destruct (us_id r =? id).
  - rewrite (fmap_same (fun r => u_Username (us_columns r))); [done |]. intros r. by destruct (us_id r =? id).
  - rewrite (fmap_same (fun r => u_Callsign (us_columns r))); [done |]. intros r. by destruct (us_id r =? id).
  - rewrite (fmap_same (fun r => u_Email (us_columns r))); [done |]. intros r. by destruct (us_id r =? id).
Qed.

(** ** Histories *)

Inductive store_op :=
| OpUpsertDevice (d : Device) (now : time)
| OpUpdateDeviceMetadata (id : Z) (patch : DevicePatch)
| OpDeleteDevice (id : Z)
| OpAssignDeviceOwner (id owner : Z)
| OpReplaceStaticGroups (sourceKey : string) (slot : Z) (groups : list Z)
| OpInsertCall (c : CallRecord) (now : time)
| OpUpdateCallDuration (id : Z) (endedAt : time) (durationMS : Z)
| OpRepairStaleOpenCalls (maxAge : Z) (now clock : time)
| OpCreateUser (u : User) (now : time)
| OpUpdateUser (u : User) (now : time)
| OpDeleteUser (id : Z)
| OpUpdateUserLastLogin (id : Z) (when_ : time)
| OpEnsureAdminUser (u : User) (now : time).

Definition store_step (db : Database) (op : store_op) : Database :=
  match op with
  | OpUpsertDevice d now => fst (UpsertDevice d now db)
  | OpUpdateDeviceMetadata id patch => fst (UpdateDeviceMetadata id patch db)
  | OpDeleteDevice id => fst (DeleteDevice id db)
  | OpAssignDeviceOwner id owner => fst (AssignDeviceOwner id owner db)
  | OpReplaceStaticGroups key slot groups => fst (ReplaceStaticGroups key slot groups db)
  | OpInsertCall c now => fst (InsertCall c now db)
  | OpUpdateCallDuration id e d => fst (UpdateCallDuration id e d db)
  | OpRepairStaleOpenCalls maxAge now clock => fst (RepairStaleOpenCalls maxAge now clock db)
  | OpCreateUser u now => fst (CreateUser u now db)
  | OpUpdateUser u now => fst (UpdateUser u now db)
  | OpDeleteUser id => fst (DeleteUser id db)
  | OpUpdateUserLastLogin id w => fst (UpdateUserLastLogin id w db)
  | OpEnsureAdminUser u now => fst (EnsureAdminUser u now db)
  end.

(** A relation that the statements about devices, groups and ends of calls
    respect, and one that those about users respect. *)
Record device_statements (S : Tables -> Tables -> Prop) : Prop := {
  st_preorder :: PreOrder S;
  st_delete_groups t p : S t (delete_groups t p);
  st_insert_group t g t' a : insert_group t g = Some (t', a) -> S t t';
  st_copy_groups a b t : S t (copy_groups a b t);
  st_delete_device id t : S t (delete_device id t);
  st_update_rows p f t : (forall d, d_ID (f d) = d_ID d /\ d_SourceKey (f d) = d_SourceKey d) -> S t (update_rows p f t);
  st_upsert d t t' a : upsert_device d t = Some (t', a) -> S t t';
  st_update_call id e d t : S t (set_calls t (update_call id e d <$> calls t) (calls_seq t))
}.
Record user_statements (S : Tables -> Tables -> Prop) : Prop := {
  st_insert_user u c now t t' a : insert_user u c now t = Some (t', a) -> S t t';
  st_update_user u now t t' a : update_user u now t = Some (t', a) -> S t t';
  st_delete_user id t : S t (set_users t (List.filter (fun r => negb (us_id r =? id)) (users t)) (users_seq t));
  st_last_login id w t :
    S t (set_users t ((fun r => if us_id r =? id then mkUserRow (us_columns r) (us_created_at r) (formatTime w) (formatTime w) else r) <$> users t) (users_seq t))
}.

Section operations.
Context (S : Tables -> Tables -> Prop) (HS : device_statements S).
#[local] Instance operations_preorder : PreOrder S := st_preorder S HS.
#[local] Hint Extern 0 (PreOrder _) => exact _ : store.
#[local] Hint Extern 1 (respects S (exec _)) => (apply respects_exec; intros; apply HS; intros; done) : store.
#[local] Hint Extern 1 (respects S (sql _)) => (apply respects_sql; [exact _ |]; intros;
  first [by eapply (st_insert_group S HS) | by eapply (st_upsert S HS)]) : store.

Lemma respects_merge d l : respects S (merge_duplicates d l).
Proof. revert d. induction l as [| dup l IH]; intros d; cbn [merge_duplicates]; auto 10 with store. Qed.
#[local] Hint Resolve respects_merge : store.

Lemma respects_UpsertDevice d now : respects S (UpsertDevice d now).
Proof.
  unfold UpsertDevice, mergeDuplicateDMRID, DeviceBySourceKey. apply respects_bind; [exact _ | | auto with store]. apply respects_transaction; [exact _ |].
  apply respects_bind; [exact _ | destruct (_ || _ || _); auto 10 with store | auto with store].
Qed.
Lemma respects_metadata id p : respects S (UpdateDeviceMetadata id p).
Proof. unfold UpdateDeviceMetadata, DeviceByID. auto 10 with store. Qed.
Lemma respects_delete id : respects S (DeleteDevice id).
Proof. unfold DeleteDevice, DeviceByID. auto 10 with store. Qed.
Lemma respects_assign id o : respects S (AssignDeviceOwner id o).
Proof. unfold AssignDeviceOwner, DeviceByID. auto 10 with store. Qed.
Lemma respects_insert_groups k s l : respects S (insert_groups k s l).
Proof. induction l as [| g l IH]; cbn [insert_groups]; [| destruct (g =? 0)]; auto with store. Qed.
#[local] Hint Resolve respects_insert_groups : store.
Lemma respects_replace k s l : respects S (ReplaceStaticGroups k s l).
Proof. unfold ReplaceStaticGroups. auto with store. Qed.
Lemma respects_update id e d : respects S (UpdateCallDuration id e d).
Proof. unfold UpdateCallDuration. auto with store. Qed.
#[local] Hint Resolve respects_update : store.
Lemma respects_end_calls now l : respects S (end_calls now l).
Proof. induction l as [| [id c] l IH]; cbn [end_calls]; auto with store. Qed.
#[local] Hint Resolve respects_end_calls : store.
Lemma respects_repair m n c : respects S (RepairStaleOpenCalls m n c).
Proof. unfold RepairStaleOpenCalls. cbv zeta. auto with store. Qed.
Lemma respects_find cs : respects S (FindUserIDByCallsign cs).
Proof. unfold FindUserIDByCallsign. auto with store. Qed.

Context (HU : user_statements S).
#[local] Hint Extern 2 (respects S (exec _)) => (apply respects_exec; [exact _ |]; intros; first [apply (st_delete_user S HU) | apply (st_last_login S HU)]) : store.
#[local] Hint Extern 2 (respects S (sql _)) => (apply respects_sql; [exact _ |]; intros; first [by eapply (st_insert_user S HU) | by eapply (st_update_user S HU)]) : store.

Lemma respects_create u now : respects S (CreateUser u now).
Proof. unfold CreateUser, UserByID. auto with store. Qed.
Lemma respects_update_user u now : respects S (UpdateUser u now).
Proof. unfold UpdateUser, UserByID. auto with store. Qed.
Lemma respects_delete_user id : respects S (DeleteUser id).
Proof. unfold DeleteUser. auto with store. Qed.
Lemma respects_login id w : respects S (UpdateUserLastLogin id w).
Proof. unfold UpdateUserLastLogin. auto with store. Qed.
Lemma respects_admin u now : respects S (EnsureAdminUser u now).
Proof.
  intros db. unfold EnsureAdminUser. pose proof (respects_query S (fun t => Z.of_nat (length (users t))) db) as Hc.
  change (query _) with UserCount in Hc. destruct (UserCount db) as [db1 [n | e]]; [| exact Hc]. cbn [fst] in Hc. destruct (0 <? n).
  - assert (Hu : respects S (UserByUsername (u_Username u))) by (unfold UserByUsername; auto with store). specialize (Hu db1).
    assert (Hall : S (tables db) (tables (fst (UserByUsername (u_Username u) db1))) /\ faults (fst (UserByUsername (u_Username u) db1)) `suffix_of` faults db).
    { destruct Hc, Hu. split; by etrans. }
    destruct (UserByUsername (u_Username u) db1) as [db2 [v | []]]; exact Hall.
  - assert (Hu : respects S (created <- CreateUser (as_admin u) now;; ret (Some created, true))) by (pose proof respects_create; auto with store).
    specialize (Hu db1). destruct Hc, Hu. split; by etrans.
Qed.

End operations.

(** ** What succeeded *)

Lemma bind_inl {A B} (m : action A) (f : A -> action B) db db' b :
  bind m f db = (db', inl b) -> exists db1 a, m db = (db1, inl a) /\ f a db1 = (db', inl b).
Proof. unfold bind. destruct (m db) as [db1 [a | e]]; [| done]. intros E. by exists db1, a. Qed.
Lemma sql_inl {A} (f : Tables -> option (Tables * A)) db db' a : sql f db = (db', inl a) -> f (tables db) = Some (tables db', a).
Proof.
  unfold sql. destruct (faults db) as [| [|] rest]; [| done |]; (destruct (f (tables db)) as [[t b] |]; [intros [= <- <-]; done | done]).
Qed.
Lemma exec_inl f db db' u : exec f db = (db', inl u) -> tables db' = f (tables db).
Proof. intros E. apply sql_inl in E. by injection E. Qed.
Lemma ret_inl {A} (a b : A) db db' : ret a db = (db', inl b) -> db' = db /\ b = a.
Proof. by intros [= <- <-]. Qed.

(** A transaction does all its statements or none. *)
Lemma transaction_spec {A} (m : action A) db :
  match transaction m db with
  | (db', inl a) => exists db1 db2, tables db1 = tables db /\ m db1 = (db2, inl a) /\ tables db' = tables db2
  | (db', inr _) => tables db' = tables db
  end.
Proof.
  unfold transaction. destruct ((exec id;; _) db) as [db' [a | e]] eqn:E; [| done].
  apply bind_inl in E as (db1 & u1 & E1 & E). apply exec_inl in E1. apply bind_inl in E as (db2 & a2 & E2 & E).
  apply bind_inl in E as (db3 & u3 & E3 & E). apply exec_inl in E3. apply ret_inl in E as [-> <-]. by exists db1, db2.
Qed.

Definition inserted (c : CallRecord) (t : Tables) : Tables :=
  trim_calls (mkTables (devices t) (devices_seq t) (calls t ++ [mkCallRow (with_id c (calls_seq t + 1)) (formatTime (r_CreatedAt c)) (formatTime (r_EndedAt c))])
    (calls_seq t + 1) (static_groups t) (users t) (users_seq t) (call_total t + 1)).
Definition created_at (c : CallRecord) (now : time) : CallRecord :=
  if time_is_zero (r_CreatedAt c) then with_times c now (r_EndedAt c) (r_DurationMS c) else c.

Lemma insert_call_spec c now db :
  match InsertCall c now db with
  | (db', inl id) => id = calls_seq (tables db) + 1 /\ tables db' = inserted (created_at c now) (tables db)
  | (db', inr _) => tables db' = tables db
  end.
Proof.
  unfold InsertCall. cbv zeta. fold (created_at c now). set (m := bind _ _). pose proof (transaction_spec m db) as Ht.
  destruct (transaction m db) as [db' [id | e]]; [| done]. destruct Ht as (db1 & db2 & E1 & Em & E2). subst m.
  apply bind_inl in Em as (db3 & id' & Ei & Em). apply sql_inl in Ei. apply bind_inl in Em as (db4 & u4 & E4 & Em). apply exec_inl in E4.
  apply bind_inl in Em as (db5 & u5 & E5 & Em). apply exec_inl in E5. apply ret_inl in Em as [<- ->].
  unfold insert_call in Ei. cbv zeta in Ei. destruct (rowid_limit <? _); [done |]. injection Ei as Ei <-. rewrite <- E1.
  split; [done |]. rewrite E2, E5, E4, <- Ei. reflexivity.
Qed.

(** ** At most fifty calls *)

Lemma length_by_key {A} (key : A -> Z) (l : list A) (kept : list Z) :
  NoDup (key <$> l) -> (length (List.filter (fun r => bool_decide (key r ∈ kept)) l) <= length kept)%nat.
Proof.
  intros Hnd. rewrite <- (length_fmap key). apply submseteq_length, NoDup_submseteq; [by apply NoDup_fmap_filter |].
  intros x Hx. apply list_elem_of_fmap in Hx as (r & -> & Hr). apply list_elem_of_In, filter_In in Hr as [_ Hr]. by apply bool_decide_eq_true in Hr.
Qed.

Lemma trim_bounded t : NoDup (cl_id <$> calls t) -> (length (calls (trim_calls t)) <= recentCallLimit)%nat.
Proof.
  intros Hnd. unfold trim_calls. cbn [calls set_calls]. etrans; [by apply length_by_key |]. rewrite length_fmap, length_take. lia.
Qed.

(** Nothing of the calls changes but their columns. *)
Definition same_calls (t t' : Tables) : Prop := calls_seq t' = calls_seq t /\ call_total t' = call_total t /\ length (calls t') = length (calls t).

Lemma keeps_ok_devices : device_statements keeps_ok.
Proof.
  split; [exact _ | | | | | | |];
    eauto using keeps_filter_groups, keeps_insert_group, keeps_copy_groups, keeps_delete_device, keeps_update_rows, keeps_upsert, keeps_update_call.
Qed.
Lemma keeps_ok_users : user_statements keeps_ok.
Proof. split; eauto using keeps_insert_user, keeps_update_user, keeps_delete_user, keeps_last_login. Qed.

Lemma same_calls_devices : device_statements same_calls.
Proof.
  unfold same_calls. split; try done.
  - split; [by intros t | intros t1 t2 t3 (-> & -> & ->) (-> & -> & ->); done].
  - unfold insert_group. intros t g t' a. case_bool_decide; [done |]. by intros [= <- _].
  - intros a b t. unfold copy_groups. generalize (List.filter (fun g => text_eq (sg_SourceKey g) b) (static_groups t)) as l. intros l. revert t.
    induction l as [| g l IH]; intros t; [done |]. cbn [foldl]. destruct (insert_group t _) as [[t' []] |] eqn:E; [| apply IH].
    unfold insert_group in E. case_bool_decide; [done |]. injection E as <-. apply (IH (set_groups _ _)).
  - unfold upsert_device. intros d t t' a. cbv zeta. destruct (existsb _ _); [by intros [= <- _] |]. destruct (rowid_limit <? _); [done |]. by intros [= <- _].
  - intros. cbn. by rewrite length_fmap.
Qed.
Lemma same_calls_users : user_statements same_calls.
Proof.
  unfold same_calls. split; try done.
  - unfold insert_user. intros u c now t t' a. cbv zeta. destruct (_ || _); [done |]. by intros [= <- _].
  - unfold update_user. intros u now t t' a. destruct (_ && _); [done |]. by intros [= <- _].
Qed.

(** Every operation but [InsertCall]. *)
Lemma step_respects S (HS : device_statements S) (HU : user_statements S) db op : match op with OpInsertCall _ _ => True | _ => S (tables db) (tables (store_step db op)) end.
Proof.
  destruct op; cbn [store_step]; try done;
    [apply respects_UpsertDevice | apply respects_metadata | apply respects_delete | apply respects_assign | apply respects_replace | apply respects_update
    | apply respects_repair | apply respects_create | apply respects_update_user | apply respects_delete_user | apply respects_login | apply respects_admin]; done.
Qed.

(** How many calls a history has put in. *)
Definition calls_put (db : Database) (op : store_op) : Z :=
  match op with OpInsertCall c now => match snd (InsertCall c now db) with inl _ => 1 | inr _ => 0 end | _ => 0 end.

Lemma step_sound db op :
  tables_ok (tables db) -> (length (calls (tables db)) <= recentCallLimit)%nat ->
  let t' := tables (store_step db op) in
  tables_ok t' /\ (length (calls t') <= recentCallLimit)%nat /\ call_total t' = call_total (tables db) + calls_put db op /\
  calls_seq t' = calls_seq (tables db) + calls_put db op.
Proof.
  intros Hok Hlen. cbv zeta. pose proof (step_respects _ keeps_ok_devices keeps_ok_users db op) as H1. pose proof (step_respects _ same_calls_devices same_calls_users db op) as H2.
  destruct op; try (destruct H2 as (E1 & E2 & E3); rewrite E1, E2, E3; cbn [calls_put]; split; [by apply H1 | lia]).
  cbn [store_step calls_put]. pose proof (insert_call_spec c now db) as Hi. destruct (InsertCall c now db) as [db' [id | e]]; cbn [fst snd]; cycle 1.
  { rewrite Hi. split; [done | lia]. }
  destruct Hi as [-> Hi]. rewrite Hi. assert (Hins : tables_ok (mkTables (devices (tables db)) (devices_seq (tables db)) (calls (tables db) ++ [mkCallRow (with_id (created_at c now) (calls_seq (tables db) + 1)) (formatTime (r_CreatedAt (created_at c now))) (formatTime (r_EndedAt (created_at c now)))])
    (calls_seq (tables db) + 1) (static_groups (tables db)) (users (tables db)) (users_seq (tables db)) (call_total (tables db) + 1))).
  { destruct Hok. split; try done. by apply keyed_append. }
  unfold inserted. split; [by apply keeps_trim |]. split; [apply trim_bounded, Hins | done].
Qed.

Fixpoint history_calls (db : Database) (ops : list store_op) : Z :=
  match ops with [] => 0 | op :: ops => calls_put db op + history_calls (store_step db op) ops end.

(** C14: The tables stay sound whatever is done, and whatever statements fail: row
    identifiers are unique and never reused, no two devices share a source key, no
    two users a name, a callsign or an address, no group is subscribed twice on a
    slot; there are at most fifty calls, and the counter of calls grows by one for
    each call put in. *)
Theorem tables_sound db ops :
  tables_ok (tables db) -> (length (calls (tables db)) <= recentCallLimit)%nat ->
  let t' := tables (foldl store_step db ops) in
  tables_ok t' /\ (length (calls t') <= recentCallLimit)%nat /\ call_total t' = call_total (tables db) + history_calls db ops /\
  calls_seq t' = calls_seq (tables db) + history_calls db ops.
Proof.
  cbv zeta. revert db. induction ops as [| op ops IH]; intros db Hok Hlen; [cbn; split; [done | lia] |]. cbn [foldl history_calls].
  destruct (step_sound db op Hok Hlen) as (H1 & H2 & H3 & H4). destruct (IH _ H1 H2) as (I1 & I2 & I3 & I4). rewrite I3, I4, H3, H4. split; [done | lia].
Qed.

(** ** Without failing statements *)

Definition all_ok (db : Database) : Prop := Forall (fun b => b = false) (faults db).

Lemma sql_ok {A} (f : Tables -> option (Tables * A)) db t a : all_ok db -> f (tables db) = Some (t, a) ->
  exists db', sql f db = (db', inl a) /\ tables db' = t /\ all_ok db'.
Proof.
  unfold all_ok, sql. intros Hok E. destruct (faults db) as [| b rest] eqn:Ef.
  - rewrite E. eexists. split; [reflexivity |]. done.
  - apply Forall_cons in Hok as [-> Hok]. rewrite E. eexists. split; [reflexivity |]. done.
Qed.
Lemma exec_ok f db : all_ok db -> exists db', exec f db = (db', inl tt) /\ tables db' = f (tables db) /\ all_ok db'.
Proof. intros Hok. by apply sql_ok. Qed.
Lemma query_ok {A} (f : Tables -> A) db : all_ok db -> exists db', query f db = (db', inl (f (tables db))) /\ tables db' = tables db /\ all_ok db'.
Proof. intros Hok. by apply sql_ok. Qed.
Lemma query_row_ok {A} (f : Tables -> option A) db a : all_ok db -> f (tables db) = Some a -> exists db', query_row f db = (db', inl a) /\ tables db' = tables db /\ all_ok db'.
Proof. intros Hok E. destruct (query_ok f db Hok) as (db' & Eq & T & O). exists db'. unfold query_row, bind. rewrite Eq, E. by split_ands. Qed.
Lemma transaction_ok {A} (m : action A) db (P : A -> Tables -> Prop) : all_ok db ->
  (forall db1, all_ok db1 -> tables db1 = tables db -> exists db2 a, m db1 = (db2, inl a) /\ all_ok db2 /\ P a (tables db2)) ->
  exists db' a, transaction m db = (db', inl a) /\ all_ok db' /\ P a (tables db').
Proof.
  intros Hok Hm. unfold transaction. destruct (exec_ok id db Hok) as (db1 & E1 & T1 & O1). destruct (Hm db1 O1 T1) as (db2 & a & E2 & O2 & P2).
  destruct (exec_ok id db2 O2) as (db3 & E3 & T3 & O3). unfold bind. rewrite E1, E2, E3. cbn [ret]. exists db3, a. rewrite T3. done.
Qed.

(** ** Static groups *)

Definition nonzero_groups (groups : list Z) : list Z := List.filter (fun g => negb (g =? 0)) groups.
Definition groups_of (key : string) (slot : Z) (groups : list Z) : list StaticGroup := mkStaticGroup key slot <$> nonzero_groups groups.
Definition is_slot (key : string) (slot : Z) (g : StaticGroup) : bool := text_eq (sg_SourceKey g) key && (sg_Slot g =? slot).
Definition other_groups (key : string) (slot : Z) (t : Tables) : list StaticGroup := List.filter (fun g => negb (is_slot key slot g)) (static_groups t).

Lemma set_groups_twice t a b : set_groups (set_groups t a) b = set_groups t b.
Proof. done. Qed.

Lemma insert_groups_inl key slot groups db db' u : insert_groups key slot groups db = (db', inl u) ->
  tables db' = set_groups (tables db) (static_groups (tables db) ++ groups_of key slot groups) /\
  (NoDup (static_groups (tables db)) -> NoDup (static_groups (tables db) ++ groups_of key slot groups)).
Proof.
  revert db. induction groups as [| g groups IH]; intros db; cbn [insert_groups].
  { intros E. apply ret_inl in E as [-> _]. cbn [groups_of nonzero_groups List.filter fmap list_fmap]. rewrite app_nil_r. by destruct db as [[] ?]. }
  unfold groups_of, nonzero_groups. cbn [List.filter]. destruct (Z.eqb_spec g 0) as [-> |]; cbn [negb]; [apply IH |].
  intros E. apply bind_inl in E as (db1 & u1 & E1 & E). apply sql_inl in E1. unfold insert_group in E1. case_bool_decide as Hin; [done |]. injection E1 as E1 _.
  apply IH in E as [E Hnd]. rewrite <- E1 in E, Hnd. cbn [static_groups set_groups] in E, Hnd. rewrite set_groups_twice, <- app_assoc in E. rewrite <- app_assoc in Hnd.
  split; [exact E |]. intros H1. apply Hnd. rewrite <- (list_fmap_id (_ ++ _)). apply NoDup_append_new; by rewrite list_fmap_id.
Qed.

Lemma insert_groups_ok key slot groups db : all_ok db -> NoDup (static_groups (tables db) ++ groups_of key slot groups) ->
  exists db', insert_groups key slot groups db = (db', inl tt) /\ all_ok db'.
Proof.
  revert db. induction groups as [| g groups IH]; intros db Hok Hnd; cbn [insert_groups]; [by exists db |].
  unfold groups_of, nonzero_groups in Hnd. cbn [List.filter] in Hnd. destruct (Z.eqb_spec g 0) as [-> |]; cbn [negb] in Hnd; [by apply IH |].
  cbn [fmap list_fmap] in Hnd. destruct (sql_ok (fun t => insert_group t (mkStaticGroup key slot g)) db (set_groups (tables db) (static_groups (tables db) ++ [mkStaticGroup key slot g])) tt) as (db1 & E1 & T1 & O1); [done | |].
  { unfold insert_group. rewrite bool_decide_eq_false_2; [done |]. intros Hin. apply NoDup_app in Hnd as (_ & Hd & _). apply (Hd _ Hin). by left. }
  destruct (IH db1 O1) as (db2 & E2 & O2); [rewrite T1; cbn [static_groups set_groups]; rewrite <- app_assoc; exact Hnd |].
  exists db2. unfold bind. by rewrite E1.
Qed.

(** The statements of a replacement, and the rows it leaves. *)
Lemma replace_body key slot groups db db' u :
  (exec (fun t => delete_groups t (is_slot key slot));; insert_groups key slot groups) db = (db', inl u) ->
  static_groups (tables db') = other_groups key slot (tables db) ++ groups_of key slot groups /\
  (NoDup (other_groups key slot (tables db)) -> NoDup (other_groups key slot (tables db) ++ groups_of key slot groups)).
Proof.
  intros E. apply bind_inl in E as (db3 & u3 & E3 & E). apply exec_inl in E3. apply insert_groups_inl in E as [E Hnd].
  rewrite E3 in E, Hnd. cbn [static_groups delete_groups set_groups] in *. by rewrite E.
Qed.
Lemma replace_rows key slot groups db :
  match ReplaceStaticGroups key slot groups db with
  | (db', inl _) => static_groups (tables db') = other_groups key slot (tables db) ++ groups_of key slot groups
  | (db', inr _) => tables db' = tables db
  end.
Proof.
  unfold ReplaceStaticGroups. set (m := bind _ _). pose proof (transaction_spec m db) as Ht. destruct (transaction m db) as [db' [u | e]]; [| done].
  destruct Ht as (db1 & db2 & T1 & Em & T2). apply replace_body in Em as [Em _]. by rewrite T2, Em, T1.
Qed.

#[local] Instance group_le_total : Total group_le.
Proof.
  intros a b. unfold group_le. destruct (decide (sg_SourceKey a = sg_SourceKey b)) as [E | E].
  - assert (sg_Slot a < sg_Slot b \/ sg_Slot a = sg_Slot b \/ sg_Slot b < sg_Slot a) as [| [|]] by lia; [left; right; auto | | right; right; auto].
    assert (sg_GroupID a <= sg_GroupID b \/ sg_GroupID b <= sg_GroupID a) as [|] by lia; [left | right]; right; auto.
  - assert (text_le (sg_SourceKey a) (sg_SourceKey b) = true \/ text_le (sg_SourceKey b) (sg_SourceKey a) = true) as [|]; [| left; by left | right; left; auto].
    unfold text_le. rewrite (String.compare_antisym (sg_SourceKey b) (sg_SourceKey a)). destruct (String.compare (sg_SourceKey a) (sg_SourceKey b)); cbn; auto.
Qed.

(** The static groups of a slot of a device are what was stored last: after a
    replacement they are read back, in order and without zeros, beside all the
    other groups unchanged; a replacement that fails changes nothing, and without
    failing statements it fails exactly when a group is given twice. *)
Theorem groups_roundtrip key slot groups db :
  tables_ok (tables db) ->
  match ReplaceStaticGroups key slot groups db with
  | (db', inl _) => forall db2 l, LoadStaticGroups db' = (db2, inl l) ->
      Sorted group_le l /\ NoDup l /\
      (forall g, g ∈ l <-> if is_slot key slot g then sg_GroupID g ∈ groups /\ sg_GroupID g <> 0 else g ∈ static_groups (tables db))
  | (db', inr _) => tables db' = tables db
  end /\
  (all_ok db -> (exists db' u, ReplaceStaticGroups key slot groups db = (db', inl u)) <-> NoDup (nonzero_groups groups)).
Proof.
  intros Hok. unfold ReplaceStaticGroups. set (m := bind _ _).
  assert (Hnd0 : NoDup (other_groups key slot (tables db))).
  { destruct (keeps_filter_groups (tables db) (is_slot key slot) Hok). done. }
  assert (Hm : forall db1 db2 u, tables db1 = tables db -> m db1 = (db2, inl u) ->
    static_groups (tables db2) = other_groups key slot (tables db) ++ groups_of key slot groups /\ NoDup (other_groups key slot (tables db) ++ groups_of key slot groups)).
  { intros db1 db2 u T1 E. apply replace_body in E as [E Hnd]. rewrite T1 in E, Hnd. split; [done | by apply Hnd]. }
  pose proof (transaction_spec m db) as Ht. split.
  - destruct (transaction m db) as [db' [u | e]]; [| done]. destruct Ht as (db1 & db2 & T1 & Em & T2). destruct (Hm _ _ _ T1 Em) as [E Hnd].
    intros db3 l El. apply sql_inl in El. injection El as _ <-. rewrite T2, E. split; [apply Sorted_merge_sort; exact _ |].
    rewrite merge_sort_Permutation. split; [done |]. intros g. rewrite merge_sort_Permutation, elem_of_app. unfold other_groups, groups_of, nonzero_groups.
    rewrite list_elem_of_In, filter_In, <- list_elem_of_In, list_elem_of_fmap. destruct (is_slot key slot g) eqn:Es; cbn [negb].
    + unfold is_slot in Es. apply andb_prop in Es as [Es1 Es2]. apply text_eq_true in Es1. apply Z.eqb_eq in Es2. split.
      * intros [[_ ?] | (x & -> & Hx)]; [done |]. apply list_elem_of_In, filter_In in Hx as [Hx Hz]. apply negb_true_iff, Z.eqb_neq in Hz. by rewrite list_elem_of_In.
      * intros [Hg Hz]. right. exists (sg_GroupID g). split; [destruct g; cbn in *; by subst |]. rewrite list_elem_of_In, filter_In, <- list_elem_of_In. split; [done |].
        by apply negb_true_iff, Z.eqb_neq.
    + split; [intros [[Hg _] | (x & -> & _)]; [done |] | by left].
      unfold is_slot in Es. cbn in Es. by rewrite (proj2 (text_eq_true key key) eq_refl), Z.eqb_refl in Es.
  - intros Hall. split.
    + intros (db' & u & E). rewrite E in Ht. destruct Ht as (db1 & db2 & T1 & Em & T2). destruct (Hm _ _ _ T1 Em) as [_ Hnd].
      apply NoDup_app in Hnd as (_ & _ & Hnd). unfold groups_of in Hnd. by apply NoDup_fmap_1 in Hnd.
    + intros Hnd. destruct (transaction_ok m db (fun _ _ => True) Hall) as (db' & u & E & _); [| by exists db', u].
      intros db1 O1 T1. subst m. destruct (exec_ok (fun t => delete_groups t (is_slot key slot)) db1 O1) as (db2 & E2 & T2 & O2).
      destruct (insert_groups_ok key slot groups db2 O2) as (db3 & E3 & O3).
      { rewrite T2, T1. cbn [static_groups delete_groups set_groups]. apply NoDup_app. split; [exact Hnd0 |]. split.
        - intros g Hg Hg'. unfold other_groups in Hg. apply list_elem_of_In, filter_In in Hg as [_ Hg]. apply list_elem_of_fmap in Hg' as (x & -> & _).
          unfold is_slot in Hg. cbn in Hg. by rewrite (proj2 (text_eq_true key key) eq_refl), Z.eqb_refl in Hg.
        - unfold groups_of. apply NoDup_fmap_2; [intros x y [= E]; exact E | exact Hnd]. }
      exists db3, tt. unfold bind. change (exec _ db1) with (exec (fun t => delete_groups t (is_slot key slot)) db1). rewrite E2. done.
Qed.

(** ** Devices with the same identifier are merged *)

Lemma NoDup_same_key {A B} (key : A -> B) (l : list A) x y : NoDup (key <$> l) -> x ∈ l -> y ∈ l -> key x = key y -> x = y.
Proof.
  induction l as [| z l IH]; intros Hnd Hx Hy E; [by apply not_elem_of_nil in Hx |]. cbn in Hnd. apply NoDup_cons in Hnd as [Hz Hnd].
  apply elem_of_cons in Hx as [-> | Hx]; apply elem_of_cons in Hy as [-> | Hy]; [done | | | by apply IH]; exfalso; apply Hz; apply list_elem_of_fmap; eauto.
Qed.

Lemma elem_filter {A} (p : A -> bool) l x : x ∈ List.filter p l <-> x ∈ l /\ p x = true.
Proof. by rewrite list_elem_of_In, filter_In, <- list_elem_of_In. Qed.

Lemma copy_groups_spec a b t : devices (copy_groups a b t) = devices t /\ devices_seq (copy_groups a b t) = devices_seq t /\
  (forall g, g ∈ static_groups (copy_groups a b t) <-> g ∈ static_groups t \/ exists g0, g0 ∈ static_groups t /\ sg_SourceKey g0 = b /\ g = mkStaticGroup a (sg_Slot g0) (sg_GroupID g0)).
Proof.
  unfold copy_groups. set (l := List.filter _ _).
  assert (Hl : forall g0, g0 ∈ l <-> g0 ∈ static_groups t /\ sg_SourceKey g0 = b) by (intros g0; subst l; by rewrite elem_filter, text_eq_true).
  assert (Hgen : forall t, let t' := foldl (fun t g => match insert_group t (mkStaticGroup a (sg_Slot g) (sg_GroupID g)) with Some (t, _) => t | None => t end) t l in
    devices t' = devices t /\ devices_seq t' = devices_seq t /\
    (forall g, g ∈ static_groups t' <-> g ∈ static_groups t \/ exists g0, g0 ∈ l /\ g = mkStaticGroup a (sg_Slot g0) (sg_GroupID g0))).
  { clear Hl. clearbody l. clear t. induction l as [| x l IH]; intros t; cbn [foldl]; cbv zeta.
    { split; [done |]. split; [done |]. intros g. split; [by left | intros [? | (g0 & Hg0 & _)]; [done | by apply not_elem_of_nil in Hg0]]. }
    unfold insert_group at 2 4 6. case_bool_decide as Hin.
    - destruct (IH t) as (I1 & I2 & I3). split; [done |]. split; [done |]. intros g. rewrite I3. split; (intros [? | (g0 & Hg0 & ->)]; [by left |]).
      + right. exists g0. split; [by right | done].
      + apply elem_of_cons in Hg0 as [-> | Hg0]; [by left | right; by exists g0].
    - destruct (IH (set_groups t (static_groups t ++ [mkStaticGroup a (sg_Slot x) (sg_GroupID x)]))) as (I1 & I2 & I3). cbn [static_groups set_groups devices devices_seq] in *.
      split; [done |]. split; [done |]. intros g. rewrite I3, elem_of_app, list_elem_of_singleton. split.
      + intros [[? | ->] | (g0 & Hg0 & ->)]; [by left | right; exists x; split; [by left | done] | right; exists g0; split; [by right | done]].
      + intros [? | (g0 & Hg0 & ->)]; [by left; left |]. apply elem_of_cons in Hg0 as [-> | Hg0]; [by left; right | right; by exists g0]. }
  destruct (Hgen t) as (G1 & G2 & G3). split; [done |]. split; [done |]. intros g. rewrite G3. apply or_iff_compat_l. split; intros (g0 & H1 & H2); exists g0; [apply Hl in H1 as [??]; done | destruct H2; split; [by apply Hl | done]].
Qed.

(** What is neither devices nor groups. *)
Definition elsewhere (t : Tables) := (calls t, calls_seq t, users t, users_seq t, call_total t).

Lemma copy_groups_elsewhere a b t : elsewhere (copy_groups a b t) = elsewhere t.
Proof.
  unfold copy_groups. generalize (List.filter (fun g => text_eq (sg_SourceKey g) b) (static_groups t)). intros l. revert t.
  induction l as [| g l IH]; intros t; [done |]. cbn [foldl]. rewrite IH. unfold insert_group. by case_bool_decide.
Qed.

(** The groups after those of the keys [from] went to [key]. *)
Definition moved (key : string) (from : list string) (before after : list StaticGroup) : Prop :=
  forall g, g ∈ after <->
    if text_eq (sg_SourceKey g) key
    then exists g0, g0 ∈ before /\ (sg_SourceKey g0 = key \/ sg_SourceKey g0 ∈ from) /\ sg_Slot g0 = sg_Slot g /\ sg_GroupID g0 = sg_GroupID g
    else g ∈ before /\ sg_SourceKey g ∉ from.

Lemma moved_one key k t : k <> key -> moved key [k] (static_groups t)
  (static_groups (delete_groups (copy_groups key k t) (fun g => text_eq (sg_SourceKey g) k))).
Proof.
  intros Hne g. destruct (copy_groups_spec key k t) as (_ & _ & Hc). cbn [static_groups delete_groups set_groups]. rewrite elem_filter, negb_true_iff, Hc.
  unfold text_eq. rewrite bool_decide_eq_false. case_bool_decide as E.
  - split.
    + intros [[Hg | (g0 & H1 & H2 & H3)] _]; [exists g; auto |]. exists g0. rewrite H3. cbn. split; [done |]. split; [right; rewrite H2; by left | done].
    + intros (g0 & H1 & [H2 | H2] & H3 & H4).
      * assert (g = g0) as -> by (destruct g, g0; cbn in *; congruence). split; [by left | congruence].
      * apply list_elem_of_singleton in H2. split; [| congruence]. right. exists g0. split; [done |]. split; [done |]. destruct g; cbn in *; congruence.
  - rewrite list_elem_of_singleton. split.
    + intros [[Hg | (g0 & _ & _ & ->)] Hk]; [done | cbn in E; done].
    + intros [Hg Hk]. split; [by left | done].
Qed.

Lemma moved_step key k ks a b c : k <> key -> moved key [k] a b -> moved key ks b c -> moved key (k :: ks) a c.
Proof.
  intros Hk H1 H2 g. rewrite (H2 g). destruct (text_eq (sg_SourceKey g) key) eqn:E.
  - split.
    + intros (g0 & Hg0 & Hs & H3 & H4). specialize (proj1 (H1 g0) Hg0). destruct (text_eq (sg_SourceKey g0) key) eqn:E0.
      * intros (g1 & Hg1 & Hs1 & H5 & H6). exists g1. split; [done |]. split; [| split; congruence]. destruct Hs1 as [| Hs1]; [by left | right]. apply list_elem_of_singleton in Hs1 as ->. by left.
      * intros [Hg1 Hn]. exists g0. split; [done |]. split; [destruct Hs; [by left | right; by right] | done].
    + intros (g0 & Hg0 & Hs & H3 & H4). destruct (decide (sg_SourceKey g0 = key \/ sg_SourceKey g0 = k)) as [Hd | Hd].
      * exists (mkStaticGroup key (sg_Slot g0) (sg_GroupID g0)). split; [| cbn; auto]. apply H1. cbn. rewrite (proj2 (text_eq_true key key) eq_refl).
        exists g0. split; [done |]. split; [| done]. destruct Hd as [| ->]; [by left | right; by left].
      * apply Decidable.not_or in Hd as [Hd1 Hd2]. exists g0. split; [| split; [| done]].
        -- apply H1. rewrite (bool_decide_eq_false_2 _ Hd1 : text_eq _ _ = false), list_elem_of_singleton. done.
        -- destruct Hs as [| Hs]; [by left | right]. by apply elem_of_cons in Hs as [|].
  - rewrite (H1 g), E. set_solver.
Qed.

Lemma filter_filter {A} (p q : A -> bool) l : List.filter p (List.filter q l) = List.filter (fun x => q x && p x) l.
Proof. induction l as [| x l IH]; [done |]. cbn. destruct (q x); cbn; [destruct (p x); by rewrite IH | done]. Qed.

Lemma merged_fields l d : let m := foldl mergePreferredDevice d l in
  d_SourceKey m = d_SourceKey d /\ d_DMRID m = d_DMRID d.
Proof. revert d. induction l as [| x l IH]; intros d; [done |]. exact (IH (mergePreferredDevice d x)). Qed.

Lemma merge_spec d dups db : all_ok db -> Forall (fun x => d_SourceKey x <> d_SourceKey d) dups ->
  exists db', merge_duplicates d dups db = (db', inl (foldl mergePreferredDevice d dups)) /\ all_ok db' /\
    devices (tables db') = List.filter (fun r => negb (existsb (fun x => dv_id r =? d_ID x) dups)) (devices (tables db)) /\
    devices_seq (tables db') = devices_seq (tables db) /\ elsewhere (tables db') = elsewhere (tables db) /\
    moved (d_SourceKey d) (d_SourceKey <$> dups) (static_groups (tables db)) (static_groups (tables db')).
Proof.
  revert d db. induction dups as [| x dups IH]; intros d db Hok Hk; cbn [merge_duplicates foldl].
  { exists db. split; [done |]. split; [done |]. split; [| split; [done |]; split; [done |]].
    - cbn [existsb negb]. induction (devices (tables db)) as [| r l IHl]; [done | cbn; by rewrite <- IHl].
    - intros g. destruct (text_eq _ _) eqn:E; [| cbn; rewrite elem_of_nil; naive_solver]. apply text_eq_true in E. split; [intros Hg; exists g; auto |].
      intros (g0 & H1 & [H2 | H2] & H3 & H4); [| by apply not_elem_of_nil in H2]. assert (g = g0) as -> by (destruct g, g0; cbn in *; congruence). done. }
  apply Forall_cons in Hk as [Hx Hk]. set (d1 := mergePreferredDevice d x). assert (Ek : d_SourceKey d1 = d_SourceKey d) by done.
  destruct (exec_ok (copy_groups (d_SourceKey d1) (d_SourceKey x)) db Hok) as (db1 & E1 & T1 & O1).
  destruct (exec_ok (fun t => delete_groups t (fun g => text_eq (sg_SourceKey g) (d_SourceKey x))) db1 O1) as (db2 & E2 & T2 & O2).
  destruct (exec_ok (delete_device (d_ID x)) db2 O2) as (db3 & E3 & T3 & O3). rewrite Ek in T1.
  destruct (IH d1 db3 O3 Hk) as (db4 & E4 & O4 & D4 & S4 & L4 & G4). exists db4. rewrite Ek in *.
  destruct (copy_groups_spec (d_SourceKey d) (d_SourceKey x) (tables db)) as (C1 & C2 & _).
  split; [unfold bind; rewrite E1, E2, E3; exact E4 |]. split; [done |]. split; [| split; [| split]].
  - rewrite D4, T3, T2, T1. cbn [devices delete_device set_devices delete_groups set_groups]. rewrite C1, filter_filter. apply List.filter_ext. intros r. cbn [existsb]. by rewrite negb_orb.
  - rewrite S4, T3, T2, T1. cbn. exact C2.
  - rewrite L4, T3, T2, T1. etrans; [| exact (copy_groups_elsewhere (d_SourceKey d) (d_SourceKey x) (tables db))]. done.
  - cbn [fmap list_fmap]. eapply moved_step; [exact Hx | | exact G4]. rewrite T3, T2, T1. by apply moved_one.
Qed.

Lemma moved_ext key ks ks' a b : (forall k, k ∈ ks <-> k ∈ ks') -> moved key ks a b -> moved key ks' a b.
Proof. intros Hk Hm g. rewrite (Hm g). destruct (text_eq _ _); [| by rewrite Hk]. split; intros (g0 & H1 & Hs & H2); exists g0; [rewrite <- Hk | rewrite Hk]; done. Qed.

(** The row of a device after it was entered. *)
Definition own_row (d : Device) (t : Tables) : DeviceRow :=
  match List.find (fun r => text_eq (dv_key r) (d_SourceKey d)) (devices t) with
  | Some old => update_device_row old (device_row d)
  | None => device_row (with_device_id d (devices_seq t + 1))
  end.

Lemma own_row_key d t : dv_key (own_row d t) = d_SourceKey d.
Proof.
  unfold own_row. destruct (List.find _ _) as [old |] eqn:E; [| done]. apply find_some in E as [_ E]. by apply text_eq_true in E.
Qed.

Lemma upsert_spec d t : NoDup (dv_key <$> devices t) -> devices_seq t < rowid_limit ->
  exists t', upsert_device d t = Some (t', tt) /\ static_groups t' = static_groups t /\ elsewhere t' = elsewhere t /\
    forall r, r ∈ devices t' <-> r = own_row d t \/ (dv_key r <> d_SourceKey d /\ r ∈ devices t).
Proof.
  intros Hnd Hseq. unfold upsert_device, own_row. cbv zeta. destruct (List.find _ _) as [old |] eqn:Ef.
  - apply find_some in Ef as [Hin Ek]. rewrite (proj2 (existsb_exists _ _)) by (by exists old). apply list_elem_of_In in Hin. apply text_eq_true in Ek.
    eexists. split; [reflexivity |]. split; [done |]. split; [done |]. cbn [devices set_devices]. intros r. rewrite list_elem_of_fmap. split.
    + intros (r0 & -> & Hr0). destruct (text_eq (dv_key r0) (d_SourceKey d)) eqn:E.
      * left. apply text_eq_true in E. by rewrite (NoDup_same_key dv_key _ r0 old Hnd Hr0 Hin) by congruence.
      * right. split; [| done]. by apply bool_decide_eq_false in E.
    + intros [-> | [Hk Hr]].
      * exists old. split; [| done]. by rewrite (proj2 (text_eq_true _ _) Ek).
      * exists r. split; [| done]. by rewrite (bool_decide_eq_false_2 _ Hk : text_eq _ _ = false).
  - destruct (existsb _ _) eqn:E; [exfalso; apply existsb_exists in E as (r & Hr & E); by rewrite (find_none _ _ Ef r Hr) in E |].
    rewrite (proj2 (Z.ltb_ge _ _)) by lia. eexists. split; [reflexivity |]. split; [done |]. split; [done |]. cbn [devices set_devices].
    intros r. rewrite elem_of_app, list_elem_of_singleton. split; [intros [Hr | ->] | intros [-> | [_ Hr]]]; [right | by left | by right | by left].
    split; [| done]. intros Hk. apply list_elem_of_In in Hr. pose proof (find_none _ _ Ef r Hr) as Hn. cbn beta in Hn.
    by rewrite (proj2 (text_eq_true _ _) Hk) in Hn.
Qed.

Lemma find_by_key key db : all_ok db -> (exists r, r ∈ devices (tables db) /\ dv_key r = key) ->
  exists db' r, DeviceBySourceKey key db = (db', inl (scanDevice r)) /\ tables db' = tables db /\ r ∈ devices (tables db) /\ dv_key r = key.
Proof.
  intros Hok (r0 & Hr0 & E0). unfold DeviceBySourceKey, query_row, bind. destruct (query_ok (find_device (fun r => text_eq (dv_key r) key)) db Hok) as (db' & -> & T & O).
  unfold find_device. destruct (List.find _ _) as [r |] eqn:E.
  - apply find_some in E as [Hr E]. apply text_eq_true in E. exists db', r. by rewrite list_elem_of_In.
  - exfalso. apply find_none with (x := r0) in E; [| by apply list_elem_of_In]. by rewrite (proj2 (text_eq_true _ _) E0) in E.
Qed.

(** The duplicates of a device as they are read, and the table without them. *)
Definition duplicates_of (d : Device) (t : Tables) : list Device := scanDevice <$> order_by dv_last_seen_at dv_id (List.filter (same_dmrid d) (devices t)).
Lemma duplicates_keys d t : (forall k, k ∈ (d_SourceKey <$> duplicates_of d t) <-> k ∈ (dv_key <$> List.filter (same_dmrid d) (devices t))) /\
  Forall (fun x => d_SourceKey x <> d_SourceKey d) (duplicates_of d t) /\
  (NoDup (dv_id <$> devices t) -> forall r, r ∈ devices t -> existsb (fun x => dv_id r =? d_ID x) (duplicates_of d t) = same_dmrid d r).
Proof.
  assert (Hin : forall r, r ∈ order_by dv_last_seen_at dv_id (List.filter (same_dmrid d) (devices t)) <-> r ∈ devices t /\ same_dmrid d r = true).
  { intros r. unfold order_by. by rewrite merge_sort_Permutation, elem_filter. }
  split; [| split].
  - intros k. unfold duplicates_of. rewrite <- list_fmap_compose. unfold order_by. by rewrite merge_sort_Permutation.
  - apply Forall_forall. intros x Hx. apply list_elem_of_fmap in Hx as (r & -> & Hr). apply Hin in Hr as [_ Hr]. unfold same_dmrid in Hr.
    apply andb_prop in Hr as [Hr _]. apply andb_prop in Hr as [_ Hr]. apply negb_true_iff, bool_decide_eq_false in Hr. exact Hr.
  - intros Hnd r Hr. apply eq_true_iff_eq. rewrite existsb_exists. split.
    + intros (x & Hx & E). apply list_elem_of_In, list_elem_of_fmap in Hx as (r' & -> & Hr'). apply Hin in Hr' as [Hr' Hs]. apply Z.eqb_eq in E.
      by rewrite (NoDup_same_key dv_id (devices t) r r' Hnd Hr Hr' E).
    + intros Hs. exists (scanDevice r). split; [| apply Z.eqb_refl]. apply list_elem_of_In, list_elem_of_fmap. exists r. split; [done |]. by apply Hin.
Qed.

Lemma find_filter {A} (p q : A -> bool) l : (forall x, x ∈ l -> p x = true -> q x = true) -> List.find p (List.filter q l) = List.find p l.
Proof.
  induction l as [| x l IH]; intros Hpq; [done |]. cbn. destruct (p x) eqn:Ep.
  - rewrite (Hpq x ltac:(by left) Ep). cbn. by rewrite Ep.
  - destruct (q x); cbn; rewrite ?Ep; apply IH; intros y Hy; apply Hpq; by right.
Qed.

(** The first text that is not empty. *)
Definition first_text (l : list string) : string := default "" (List.find (fun s => negb (text_eq s "")) l).

Lemma first_or a b l : first_text (or_text a b :: l) = first_text (a :: b :: l).
Proof. unfold first_text, or_text. cbn. destruct (text_eq a "") eqn:E; [done |]. cbn. by rewrite E. Qed.

Lemma merged_text (f : Device -> string) l d : (forall i e, f (mergePreferredDevice i e) = or_text (f i) (f e)) ->
  f (foldl mergePreferredDevice d l) = first_text (f d :: (f <$> l)).
Proof.
  intros Hf. revert d. induction l as [| x l IH]; intros d; cbn [foldl fmap list_fmap].
  - unfold first_text. cbn. destruct (text_eq (f d) "") eqn:E; [by apply text_eq_true in E | done].
  - rewrite IH, Hf. apply first_or.
Qed.

Lemma merged_disabled l d : d_Disabled (foldl mergePreferredDevice d l) = d_Disabled d || existsb d_Disabled l.
Proof.
  revert d. induction l as [| x l IH]; intros d; cbn [foldl existsb]; [by rewrite orb_false_r |]. rewrite IH. cbn. by destruct (d_Disabled d).
Qed.

(** C18: A device with an identifier, registered by IPSC or Hytera, takes the place of
    every other row with that identifier that is not an upstream link.  Those rows
    are gone, the latest heard first merged into the device: the row of the device
    is the merged device, put over its old row if it has one, so it is disabled if
    the device or any of the others is, its notes are the first that are not empty,
    and its name too, its old name last.  The static groups of the others are its
    own; all other rows, the calls and the users stay as they are. *)
Theorem upsert_merges d now db :
  tables_ok (tables db) -> all_ok db -> d_DMRID d <> 0 -> d_SourceKey d <> "" -> dedupeByDMRID (d_Protocol d) = true -> devices_seq (tables db) < rowid_limit ->
  let others := duplicates_of d (tables db) in
  let merged := foldl mergePreferredDevice (with_seen_times d now) others in
  let old := List.find (fun r => text_eq (dv_key r) (d_SourceKey d)) (devices (tables db)) in
  exists db' r, UpsertDevice d now db = (db', inl (scanDevice r)) /\
    r = match old with Some o => update_device_row o (device_row merged) | None => device_row (with_device_id merged (devices_seq (tables db) + 1)) end /\
    (forall x, x ∈ devices (tables db') <-> x = r \/ (dv_key x <> d_SourceKey d /\ x ∈ devices (tables db) /\ same_dmrid d x = false)) /\
    d_Disabled (dv_columns r) = d_Disabled d || existsb d_Disabled others /\
    d_Notes (dv_columns r) = first_text (d_Notes d :: (d_Notes <$> others)) /\
    d_Name (dv_columns r) = first_text (d_Name d :: (d_Name <$> others) ++ option_list ((fun o => d_Name (dv_columns o)) <$> old)) /\
    moved (d_SourceKey d) (dv_key <$> List.filter (same_dmrid d) (devices (tables db))) (static_groups (tables db)) (static_groups (tables db')) /\
    elsewhere (tables db') = elsewhere (tables db).
Proof.
  intros Hok Hall Hd Hk Hp Hseq others merged old. set (d0 := with_seen_times d now) in *.
  change (duplicates_of d (tables db)) with (duplicates_of d0 (tables db)) in *.
  destruct (duplicates_keys d0 (tables db)) as (K1 & K2 & K3). fold others in K1, K2, K3. change (same_dmrid d0) with (same_dmrid d) in K1, K3.
  pose proof (ok_device_keys _ Hok) as Hkeys. destruct (ok_device_ids _ Hok) as [Hids _].
  destruct (merged_fields others d0) as [Ek Em]. cbv zeta in Ek, Em. fold merged in Ek, Em. change (d_SourceKey d0) with (d_SourceKey d) in Ek.
  set (row := match old with Some _ => _ | None => _ end).
  pose (P := fun (_ : unit) (t : Tables) =>
    (forall x, x ∈ devices t <-> x = row \/ (dv_key x <> d_SourceKey d /\ x ∈ devices (tables db) /\ same_dmrid d x = false)) /\
    moved (d_SourceKey d) (dv_key <$> List.filter (same_dmrid d) (devices (tables db))) (static_groups (tables db)) (static_groups t) /\
    elsewhere t = elsewhere (tables db) /\ dv_key row = d_SourceKey d).
  assert (Hm : forall db1, all_ok db1 -> tables db1 = tables db -> exists db2 u, (d <- mergeDuplicateDMRID d0;; sql (upsert_device d)) db1 = (db2, inl u) /\ all_ok db2 /\ P u (tables db2)).
  { intros db1 O1 T1. unfold mergeDuplicateDMRID. change (d_DMRID d0) with (d_DMRID d). change (d_SourceKey d0) with (d_SourceKey d). change (d_Protocol d0) with (d_Protocol d).
    rewrite (proj2 (Z.eqb_neq _ _) Hd), (bool_decide_eq_false_2 _ Hk : text_eq _ _ = false), Hp. cbn [orb negb].
    destruct (query_ok (duplicates_of d0) db1 O1) as (db2 & E2 & T2 & O2). rewrite T1 in *. fold others in E2.
    destruct (merge_spec d0 others db2 O2 K2) as (db3 & E3 & O3 & D3 & S3 & L3 & G3). rewrite T2 in D3, S3, L3, G3. fold merged in E3.
    destruct (upsert_spec merged (tables db3)) as (t4 & E4 & G4 & L4 & R4); [rewrite D3; by apply NoDup_fmap_filter | by rewrite S3 |].
    destruct (sql_ok (upsert_device merged) db3 t4 tt O3 E4) as (db4 & E5 & T5 & O5). exists db4, tt. subst P. cbv beta. rewrite T5.
    split; [unfold bind; change (query _ db1) with (query (duplicates_of d0) db1); rewrite E2, E3; exact E5 |]. split; [done |].
    assert (Erow : own_row merged (tables db3) = row).
    { unfold own_row, row, old. rewrite D3, S3, Ek, find_filter; [done |]. intros x Hx E. apply text_eq_true in E. rewrite K3 by done.
      unfold same_dmrid. by rewrite (proj2 (text_eq_true _ _) E), andb_false_r. }
    split; [| split; [| split]].
    - intros x. rewrite R4, Erow, Ek, D3, elem_filter, negb_true_iff. apply or_iff_compat_l, and_iff_compat_l. split; intros [H1 H2]; (split; [done |]); [by rewrite <- K3 | by rewrite K3].
    - rewrite G4. eapply moved_ext; [exact K1 | exact G3].
    - by rewrite L4.
    - rewrite <- Erow, own_row_key. exact Ek. }
  unfold UpsertDevice. fold d0. destruct (transaction_ok _ db P Hall Hm) as (db1 & u & E1 & O1 & R & G & L & Erk). unfold bind at 1. rewrite E1.
  destruct (find_by_key (d_SourceKey d) db1 O1) as (db2 & r & E2 & T2 & Hr & Er); [exists row; split; [apply R; by left | done] |].
  assert (r = row) as -> by (apply R in Hr as [-> | [Hne _]]; done). exists db2, row. rewrite T2.
  split; [exact E2 |]. split; [done |]. split; [exact R |]. split; [| split; [| split; [| by split]]].
  - replace (d_Disabled d) with (d_Disabled d0) by (unfold d0; cbn; by destruct (d_Disabled d)). rewrite <- merged_disabled. fold merged. unfold row. by destruct old.
  - change (d_Notes d) with (d_Notes d0). rewrite <- (merged_text d_Notes others d0 (fun _ _ => eq_refl)). fold merged. unfold row. by destruct old.
  - pose proof (merged_text d_Name others d0 (fun _ _ => eq_refl)) as En. fold merged in En. change (d_Name d0) with (d_Name d) in En. unfold row.
    destruct old as [o |]; cbn [fmap option_fmap option_map option_list dv_columns update_device_row device_row d_Name with_device_id]; rewrite En; [| by rewrite app_nil_r].
    unfold first_text. rewrite app_comm_cons. generalize (d_Name d :: (d_Name <$> others)). intros l. induction l as [| x l IH]; cbn.
    + by destruct (text_eq (d_Name (dv_columns o)) "") eqn:E; [apply text_eq_true in E |].
    + destruct (text_eq x "") eqn:E; cbn; [exact IH |]. unfold or_text. by rewrite E.
Qed.

End store.

(** ** The store as the database of the registry *)

Definition result {A} (r : Database * (A + sql_error)) : Database * option A := (fst r, match snd r with inl a => Some a | inr _ => None end).
Definition success {A} (r : Database * (A + sql_error)) : Database * bool := (fst r, match snd r with inl _ => true | inr _ => false end).

#[export] Instance sqlite_store `{Autoincrement} : RegistryStore := {|
  Db := Database;
  store_InsertCall db c now := result (InsertCall c now db);
  store_UpdateCallDuration db id endedAt durationMS := success (UpdateCallDuration id endedAt durationMS db);
  store_UpsertDevice db d now := result (UpsertDevice d now db);
  store_FindUserIDByCallsign db callsign := result (FindUserIDByCallsign callsign db);
  store_AssignDeviceOwner db id owner := result (AssignDeviceOwner id owner db);
  store_UpdateDeviceMetadata db id patch := result (UpdateDeviceMetadata id patch db);
  store_DeleteDevice db id := result (DeleteDevice id db);
  newest db := calls_seq (tables db);
  total db := call_total (tables db);
  reliable := all_ok
|}.

Lemma respects_kept `{Autoincrement} {A} (m : action A) db : respects same_calls m -> calls_kept db (fst (m db)).
Proof.
  intros Hm. destruct (Hm db) as [(H1 & H2 & _) Hf]. split; [exact H1 |]. split; [exact H2 |]. cbn. unfold all_ok. destruct Hf as [used ->]. by rewrite Forall_app; intros [_ ?].
Qed.

#[export] Instance sqlite_store_laws `{AutoincrementLaw} : RegistryStoreLaws.
Proof.
  split; try (intros; cbn [fst result success store_UpdateCallDuration store_UpsertDevice store_FindUserIDByCallsign store_AssignDeviceOwner store_UpdateDeviceMetadata store_DeleteDevice sqlite_store];
    apply respects_kept;
    first [apply respects_update | apply respects_UpsertDevice | apply respects_find | apply respects_assign | apply respects_metadata | apply respects_delete]; apply same_calls_devices).
  - intros db c now. cbn. pose proof (insert_call_spec c now db) as Hi. destruct (InsertCall c now db) as [db' [id | e]]; cbn; [| by rewrite Hi].
    destruct Hi as [-> Hi]. rewrite Hi. unfold inserted. cbn. lia.
  - intros db id ended d Hok. cbn. unfold UpdateCallDuration. destruct (exec_ok (fun t => set_calls t (update_call id ended d <$> calls t) (calls_seq t)) db Hok) as (db' & -> & _). done.
Qed.

(** ** Examples *)

Section examples.
#[local] Instance no_gaps : Autoincrement := fun n => n.
#[local] Instance no_gaps_law : AutoincrementLaw.
Proof. intros n. unfold seq_after_conflict, no_gaps. lia. Qed.

Definition empty_db : Database := mkDatabase (mkTables [] 0 [] 0 [] [] 0 0) [].
Definition sample_device (protocol key : string) (dmrid : Z) : Device :=
  mkDevice 0 "moto" protocol key 0 "" "" dmrid "" "" "" 0 "online" true 0 0 0 0 0 0 0 0%Q 0%Q 0 "" "" "" 0 "" "" "" 0 0 0 0 false "".
Definition sample_time : time := days_of_date 2024 12 31 * day_seconds * second.
Definition sample_ops : list store_op :=
  [OpUpsertDevice (sample_device "hytera" "hytera:10.0.0.7" 460123) sample_time; OpReplaceStaticGroups "hytera:10.0.0.7" 1 [46001; 0; 46002];
   OpInsertCall (mkCallRecord 0 sample_time 0 0 "hytera" "hytera" "hytera:10.0.0.7" "" "" 0 4600001 46001 0 1 "group" 9 "" 0) sample_time].
Definition sample_db : Database := Eval vm_compute in foldl store_step empty_db sample_ops.

Lemma empty_ok : tables_ok (tables empty_db).
Proof. split; try apply NoDup_nil_2; by split; [apply NoDup_nil_2 | apply Forall_nil_2]. Qed.

Lemma sample_db_ok : tables_ok (tables sample_db).
Proof. split; try (split; by_eval); by_eval. Qed.

(** A device, its groups and a call. *)
Lemma tables_sound_witness :
  tables_ok (tables (foldl store_step empty_db sample_ops)) /\ call_total (tables (foldl store_step empty_db sample_ops)) = 1 /\
  (dv_key <$> devices (tables sample_db)) = ["hytera:10.0.0.7"].
Proof.
  split; [| vm_compute; done]. apply (tables_sound empty_db sample_ops); [exact empty_ok | cbn; unfold recentCallLimit; lia].
Defined.

(** Groups out of order. *)
Lemma groups_roundtrip_witness :
  (exists db' u, ReplaceStaticGroups "ipsc:1" 2 [9; 0; 3] sample_db = (db', inl u)) /\
  snd (LoadStaticGroups (fst (ReplaceStaticGroups "ipsc:1" 2 [9; 0; 3] sample_db))) =
    inl [mkStaticGroup "hytera:10.0.0.7" 1 46001; mkStaticGroup "hytera:10.0.0.7" 1 46002; mkStaticGroup "ipsc:1" 2 3; mkStaticGroup "ipsc:1" 2 9].
Proof.
  split; [| vm_compute; reflexivity]. destruct (groups_roundtrip "ipsc:1" 2 [9; 0; 3] sample_db) as [_ Hr].
  - apply sample_db_ok.
  - apply Hr; [by apply Forall_nil_2 | vm_compute]. apply NoDup_cons. split; [by set_solver | apply NoDup_singleton].
Defined.

(** The repeater was a Hytera device with a note and disabled; now it registers by
    IPSC.  The Hytera device is gone, and its note, the flag and its groups are
    those of the new one. *)
Definition noted_db : Database := Eval vm_compute in
  fst (UpdateDeviceMetadata 1 (mkDevicePatch None (Some "Old Device") None (Some "keep me") (Some true) None None None None None None None None None None) sample_db).
Lemma upsert_merges_witness :
  let d := sample_device "ipsc" "ipsc:460123" 460123 in
  (exists db' r, UpsertDevice d sample_time noted_db = (db', inl (scanDevice r)) /\ dv_key r = "ipsc:460123" /\
    d_Disabled (dv_columns r) = true /\ d_Notes (dv_columns r) = "keep me" /\ d_Name (dv_columns r) = "Old Device") /\
  let t := tables (fst (UpsertDevice d sample_time noted_db)) in
  (dv_key <$> devices t) = ["ipsc:460123"] /\ static_groups t = [mkStaticGroup "ipsc:460123" 1 46001; mkStaticGroup "ipsc:460123" 1 46002].
Proof.
  cbv zeta. split; [| vm_compute; done].
  destruct (upsert_merges (sample_device "ipsc" "ipsc:460123" 460123) sample_time noted_db) as (db' & r & E & Er & _ & Ed & En & Em & _);
    [| | discriminate | discriminate | reflexivity | vm_compute; reflexivity |].
  - split; try (split; by_eval); by_eval.
  - by apply Forall_nil_2.
  - exists db', r. split; [exact E |]. split; [rewrite Er; vm_compute; reflexivity |]. rewrite Ed, En, Em. clear. split; [| split]; vm_compute; reflexivity.
Defined.

End examples.
