(* ===== verification/Registry.v ===== *)
(** * The device registry (internal/registry/service.go)

    The service keeps the devices and the latest calls in memory, in front of a
    database.  A call is opened by its first packet, kept alive by the next ones,
    and closed by a terminator or after a time without packets; every change is
    published to subscribers.

    The theorems are proved against the interface [RegistryStore] of the database;
    the last part starts the service on the database of file Store. *)

From S2P Require Import Prelude Strings Text NrlFrame Dmrid TimeText RegistryTypes Store.
#[local] Open Scope Z_scope.

Inductive Event := EvDevice (type : string) (d : Device) | EvCall (type : string) (c : CallRecord).

Record activeCallState := mkActive {
  ac_ID : Z;
  ac_StartedAt : time;
  ac_LastSeenAt : time;
  ac_Frontend : string;
  ac_SourceKey : string;
  ac_Slot : Z;
  ac_CallType : string
}.

Section service.
Context `{Unicode} `{RegistryStore}.

(** ** State *)

Record Service := mkService {
  sv_store : Db;
  sv_dmrid : option Resolver;
  sv_devices : gmap string Device;
  sv_recent : list CallRecord;
  sv_callTotal : Z;
  sv_activeCall : gmap string activeCallState;
  sv_subs : gmap nat (list Event);
  sv_nextSub : nat
}.

Definition with_store s db := mkService db (sv_dmrid s) (sv_devices s) (sv_recent s) (sv_callTotal s) (sv_activeCall s) (sv_subs s) (sv_nextSub s).
Definition with_devices s m := mkService (sv_store s) (sv_dmrid s) m (sv_recent s) (sv_callTotal s) (sv_activeCall s) (sv_subs s) (sv_nextSub s).
Definition with_calls s recent total active := mkService (sv_store s) (sv_dmrid s) (sv_devices s) recent total active (sv_subs s) (sv_nextSub s).
Definition with_subs s m n := mkService (sv_store s) (sv_dmrid s) (sv_devices s) (sv_recent s) (sv_callTotal s) (sv_activeCall s) m n.

(** The orders of iterations. *)
Class RegistryOrder := {
  call_iter : gmap string activeCallState -> list (string * activeCallState);
  device_iter : gmap string Device -> list (string * Device)
}.
Class RegistryOrderLaws `{RegistryOrder} : Prop := {
  call_iter_elements m : call_iter m ≡ₚ map_to_list m;
  device_iter_elements m : device_iter m ≡ₚ map_to_list m
}.
Context `{RegistryOrder}.

(** ** Callsigns *)

Definition lookup_dmrid (s : Service) (id : Z) : string := bytes_str (Resolver_Lookup (sv_dmrid s) id).

Definition enrichDevice (s : Service) (d : Device) : Device :=
  if bool_decide (d_Callsign d = "") && negb (d_DMRID d =? 0) && bool_decide (is_Some (sv_dmrid s)) then with_callsign d (lookup_dmrid s (d_DMRID d)) else d.

Definition enrichCall (s : Service) (c : CallRecord) : CallRecord :=
  if bool_decide (r_SourceCallsign c = "") && bool_decide (is_Some (sv_dmrid s)) then
    let c := if negb (r_SourceDMRID c =? 0) then with_source_callsign c (lookup_dmrid s (r_SourceDMRID c)) else c in
    if bool_decide (r_SourceCallsign c = "") && negb (r_SrcID c =? 0) then with_source_callsign c (lookup_dmrid s (u32 (r_SrcID c))) else c
  else c.

(** ** Subscribers *)

Definition Registry_Subscribe (s : Service) : Service * nat := (with_subs s (<[sv_nextSub s := []]> (sv_subs s)) (S (sv_nextSub s)), sv_nextSub s).
Definition Registry_Unsubscribe (s : Service) (ch : nat) : Service := with_subs s (delete ch (sv_subs s)) (sv_nextSub s).

(** A subscriber whose channel is full misses the event. *)
Definition publish (s : Service) (e : Event) : Service :=
  with_subs s ((fun waiting => if (length waiting <? event_cap)%nat then waiting ++ [e] else waiting) <$> sv_subs s) (sv_nextSub s).

(** ** Devices *)

Definition deviceTimeout (category : string) : Z :=
  if bool_decide (category = "mmdvm") then 5 * minute
  else if bool_decide (category = "moto") || bool_decide (category = "hytera") then 90 * second
  else 60 * second.

(** The other devices with the identifier of [stored]. *)
Definition is_duplicate (stored : Device) (key : string) (existing : Device) : bool :=
  negb (bool_decide (key = d_SourceKey stored)) && (d_DMRID existing =? d_DMRID stored) && dedupeByDMRID (d_Protocol existing).

Definition UpsertDevice (s : Service) (d : Device) (now : time) : Service * option Device :=
  let d := enrichDevice s d in
  match store_UpsertDevice (sv_store s) d now with
  | (db, None) => (with_store s db, None)
  | (db, Some stored) =>
      let '(db, stored) :=
        if (d_OwnerUserID stored =? 0) && negb (bool_decide (d_Callsign stored = "")) then
          match store_FindUserIDByCallsign db (d_Callsign stored) with
          | (db, Some ownerID) =>
              if ownerID =? 0 then (db, stored)
              else match store_AssignDeviceOwner db (d_ID stored) ownerID with (db, Some reassigned) => (db, reassigned) | (db, None) => (db, stored) end
          | (db, None) => (db, stored)
          end
        else (db, stored) in
      let s := with_store s db in
      let devices :=
        if negb (d_DMRID stored =? 0) && dedupeByDMRID (d_Protocol stored)
        then filter (fun e => is_duplicate stored (fst e) (snd e) = false) (sv_devices s) else sv_devices s in
      let s := with_devices s (<[d_SourceKey stored := stored]> devices) in
      let stored := enrichDevice s stored in
      (publish s (EvDevice "device_updated" stored), Some stored)
  end.

(** [false] is an error. *)
Definition MarkDeviceOffline (s : Service) (sourceKey status : string) (now : time) : Service * bool :=
  match sv_devices s !! sourceKey with
  | None => (s, true)
  | Some d => let '(s, r) := UpsertDevice s (device_offline d status now) now in (s, bool_decide (is_Some r))
  end.

Definition UpdateDeviceMetadata (s : Service) (id : Z) (patch : DevicePatch) : Service * option Device :=
  match store_UpdateDeviceMetadata (sv_store s) id patch with
  | (db, None) => (with_store s db, None)
  | (db, Some d) =>
      let s := with_store s db in
      let d := enrichDevice s d in
      let s := with_devices s (<[d_SourceKey d := d]> (sv_devices s)) in
      (publish s (EvDevice "device_updated" d), Some d)
  end.

Definition DeleteDevice (s : Service) (id : Z) : Service * option Device :=
  match store_DeleteDevice (sv_store s) id with
  | (db, None) => (with_store s db, None)
  | (db, Some d) =>
      let s := with_devices (with_store s db) (delete (d_SourceKey d) (sv_devices s)) in
      let d := enrichDevice s d in
      (publish s (EvDevice "device_deleted" d), Some d)
  end.

Definition FindDevice (s : Service) (sourceKey : string) : option Device := sv_devices s !! sourceKey.

(** Whether the sweeper takes a device off. *)
Definition silent_device (d : Device) (now : time) : bool :=
  d_Online d && negb (deviceTimeout (d_Category d) =? 0) && (deviceTimeout (d_Category d) <? time_sub now (d_LastSeenAt d)).

Definition expireDevices (s : Service) (now : time) : Service :=
  let toOffline := List.filter (fun e => silent_device (snd e) now) (device_iter (sv_devices s)) in
  foldl (fun s e => fst (UpsertDevice s (device_offline (snd e) "offline" (d_LastSeenAt (snd e))) now)) s toOffline.

(** ** Calls *)

Definition callDedupKey (c : CallRecord) : string := r_Frontend c +:+ "|" +:+ r_SourceKey c +:+ "|" +:+ pretty (r_StreamID c).

Definition callIdleTimeout (frontend : string) : Z :=
  if bool_decide (frontend = "mmdvm") then 3 * second else if bool_decide (frontend = "nrl") then 4 * second else 12 * second.

Definition recentCallByIDLocked (s : Service) (id : Z) : option CallRecord := List.find (fun c => r_ID c =? id) (sv_recent s).

Definition matches_active (s : Service) (c : CallRecord) (ended : bool) (active : activeCallState) : bool :=
  bool_decide (ac_Frontend active = r_Frontend c) && bool_decide (ac_SourceKey active = r_SourceKey c) &&
  (bool_decide (r_Frontend c = "nrl")
   || ((ac_Slot active =? r_CallSlot c) && bool_decide (ac_CallType active = r_CallType c) &&
       (ended || (r_DstID c =? 0)
        || match recentCallByIDLocked s (ac_ID active) with
           | None => false
           | Some existing => (r_DstID existing =? r_DstID c) && ((r_SrcID c =? 0) || (r_SrcID existing =? 0) || (r_SrcID existing =? r_SrcID c))
           end))).

Definition findMatchingActiveCallLocked (s : Service) (c : CallRecord) (ended : bool) : option (string * activeCallState) :=
  List.find (fun e => matches_active s c ended (snd e)) (call_iter (sv_activeCall s)).

(** Set the end of the first record with identifier [id]. *)
Fixpoint end_record (recent : list CallRecord) (id : Z) (endedAt : time) (durationMS : Z) : list CallRecord * option CallRecord :=
  match recent with
  | [] => ([], None)
  | c :: recent =>
      if r_ID c =? id then let c := with_times c (r_CreatedAt c) endedAt durationMS in (c :: recent, Some c)
      else let '(recent, r) := end_record recent id endedAt durationMS in (c :: recent, r)
  end.

Definition call_duration (active : activeCallState) (endedAt : time) : Z :=
  Z.quot (time_sub endedAt (ac_StartedAt active)) millisecond.

(** The second part of [finishActiveCall], under the lock: the entry is removed
    and the record, if it is among the latest ones, ended. *)
Definition end_active (s : Service) (key : string) (active : activeCallState) (endedAt : time) : Service * option CallRecord :=
  let '(recent, updated) := end_record (sv_recent s) (ac_ID active) endedAt (call_duration active endedAt) in
  let s := with_calls s recent (sv_callTotal s) (delete key (sv_activeCall s)) in
  let updated := enrichCall s <$> updated in
  match updated with
  | Some c => if r_ID c =? 0 then (s, updated) else (publish s (EvCall "call_recorded" c), updated)
  | None => (s, None)
  end.

(** [None] is an error; a call that is not among the latest ones gives an empty
    record. *)
Definition finishActiveCall (s : Service) (key : string) (active : activeCallState) (endedAt : time) : Service * option (option CallRecord) :=
  match store_UpdateCallDuration (sv_store s) (ac_ID active) endedAt (call_duration active endedAt) with
  | (db, false) => (with_store s db, None)
  | (db, true) => let '(s, updated) := end_active (with_store s db) key active endedAt in (s, Some updated)
  end.

Definition seen_at (a : activeCallState) (now : time) : activeCallState :=
  mkActive (ac_ID a) (ac_StartedAt a) now (ac_Frontend a) (ac_SourceKey a) (ac_Slot a) (ac_CallType a).

(** The first part of [RecordCall], under the lock: the call the packet belongs to,
    which is to be finished, or was only touched, or is a new one. *)
Inductive checked_call := Finish (key : string) (active : activeCallState) | Touched | NewCall.

Definition record_check (s : Service) (c : CallRecord) (ended : bool) (now : time) : Service * checked_call :=
  let c := enrichCall s c in
  let key := callDedupKey c in
  let touch key active :=
    if ended then (s, Finish key active) else (with_calls s (sv_recent s) (sv_callTotal s) (<[key := seen_at active now]> (sv_activeCall s)), Touched) in
  match sv_activeCall s !! key with
  | Some active => touch key active
  | None => match findMatchingActiveCallLocked s c ended with Some (fallbackKey, active) => touch fallbackKey active | None => (s, NewCall) end
  end.

Definition trim_recent (l : list CallRecord) : list CallRecord := if (recentCallLimit <? length l)%nat then drop (length l - recentCallLimit) l else l.

(** The record that is put into the database for a new call. *)
Definition new_record (s : Service) (c : CallRecord) (ended : bool) (now : time) : CallRecord :=
  let c := enrichCall s c in
  if ended then with_times c now now 0 else with_times c now (r_EndedAt c) (r_DurationMS c).

(** The last part, under the lock: a record that the database has given an
    identifier is entered among the latest calls and, if the call goes on, among
    the active ones. *)
Definition record_enter (s : Service) (c : CallRecord) (id : Z) (ended : bool) (now : time) : Service * CallRecord :=
  let active := if ended then sv_activeCall s
    else <[callDedupKey c := mkActive id now now (r_Frontend c) (r_SourceKey c) (r_CallSlot c) (r_CallType c)]> (sv_activeCall s) in
  let stored := enrichCall s (with_id c id) in
  let s := with_calls s (trim_recent (sv_recent s ++ [stored])) (sv_callTotal s + 1) active in
  let s := match sv_devices s !! r_SourceKey c with
    | Some d => with_devices s (<[r_SourceKey c := with_call_at d (r_CreatedAt stored)]> (sv_devices s))
    | None => s
    end in
  (publish s (EvCall "call_recorded" stored), stored).

(** The second part, for a new call: insert it, and enter it. *)
Definition record_insert (s : Service) (c : CallRecord) (ended : bool) (now : time) : Service * option CallRecord :=
  let c := new_record s c ended now in
  match store_InsertCall (sv_store s) c now with
  | (db, None) => (with_store s db, None)
  | (db, Some id) => let '(s, stored) := record_enter (with_store s db) c id ended now in (s, Some stored)
  end.

(** The record, whether it is new; [None] is an error. *)
Definition RecordCall (s : Service) (c : CallRecord) (ended : bool) (now : time) : Service * option (option CallRecord * bool) :=
  match record_check s c ended now with
  | (s, Finish key active) => let '(s, r) := finishActiveCall s key active now in (s, (fun r => (r, false)) <$> r)
  | (s, Touched) => (s, Some (None, false))
  | (s, NewCall) => let '(s, r) := record_insert s c ended now in (s, (fun r => (Some r, true)) <$> r)
  end.

Definition idle_call (a : activeCallState) (now : time) : bool :=
  let lastSeenAt := if time_is_zero (ac_LastSeenAt a) then ac_StartedAt a else ac_LastSeenAt a in
  callIdleTimeout (ac_Frontend a) <? time_sub now lastSeenAt.

Definition expireCalls (s : Service) (now : time) : Service :=
  foldl (fun s e => fst (finishActiveCall s (fst e) (snd e) now)) s (List.filter (fun e => idle_call (snd e) now) (call_iter (sv_activeCall s))).

Definition sweep (s : Service) (now : time) : Service := expireCalls (expireDevices s now) now.

Definition Snapshot (s : Service) : list Device * list CallRecord * Z :=
  ((fun e => enrichDevice s (snd e)) <$> device_iter (sv_devices s), enrichCall s <$> sv_recent s, sv_callTotal s).

(** ** Histories *)

Inductive registry_event :=
| RegCall (c : CallRecord) (ended : bool) (now : time)
| RegSweep (now : time)
| RegUpsert (d : Device) (now : time)
| RegOffline (sourceKey status : string) (now : time)
| RegMetadata (id : Z) (patch : DevicePatch)
| RegDelete (id : Z)
| RegSubscribe
| RegUnsubscribe (ch : nat).

Definition registry_step (s : Service) (e : registry_event) : Service :=
  match e with
  | RegCall c ended now => fst (RecordCall s c ended now)
  | RegSweep now => sweep s now
  | RegUpsert d now => fst (UpsertDevice s d now)
  | RegOffline key status now => fst (MarkDeviceOffline s key status now)
  | RegMetadata id patch => fst (UpdateDeviceMetadata s id patch)
  | RegDelete id => fst (DeleteDevice s id)
  | RegSubscribe => fst (Registry_Subscribe s)
  | RegUnsubscribe ch => Registry_Unsubscribe s ch
  end.

(** ** The calls are sound *)

(** The latest calls, the identifiers of the calls that are going on, and the
    newest identifier of the database. *)
Record calls_inv (recent : list CallRecord) (ids : gmap string Z) (n : Z) : Prop := {
  few_recent : (length recent <= recentCallLimit)%nat;
  recent_distinct : NoDup (r_ID <$> recent);
  recent_known : Forall (fun c => r_ID c <= n) recent;
  active_known : map_Forall (fun _ id => id <= n) ids;
  active_distinct k1 k2 id : ids !! k1 = Some id -> ids !! k2 = Some id -> k1 = k2;
  open_iff_active : Forall (fun c => r_EndedAt c = 0 <-> exists k, ids !! k = Some (r_ID c)) recent
}.

Definition active_ids (s : Service) : gmap string Z := ac_ID <$> sv_activeCall s.
Definition calls_ok (s : Service) : Prop := calls_inv (sv_recent s) (active_ids s) (newest (sv_store s)) /\ sv_callTotal s = total (sv_store s).

(** The records after the end of one. *)
Lemma end_record_spec recent id t d :
  (r_ID <$> fst (end_record recent id t d)) = (r_ID <$> recent) /\
  (NoDup (r_ID <$> recent) -> Forall (fun c => r_ID c = id -> r_EndedAt c = t) (fst (end_record recent id t d))) /\
  (forall P : CallRecord -> Prop, Forall (fun c => r_ID c <> id -> P c) recent -> Forall (fun c => r_ID c <> id -> P c) (fst (end_record recent id t d))).
Proof.
  induction recent as [| c recent (I1 & I2 & I3)]; [split; [done | split; [intros _; constructor | intros P _; constructor]] |].
  cbn [end_record]. destruct (Z.eqb_spec (r_ID c) id) as [E | E]; cbn [fst].
  - split; [done |]. split.
    + cbn [fmap list_fmap]. intros Hnd. apply NoDup_cons in Hnd as [Hc _]. constructor; [done |]. apply Forall_forall. intros c' Hc' E'.
      exfalso. apply Hc. apply list_elem_of_fmap. exists c'. split; [congruence | done].
    + intros P HP. apply Forall_cons in HP as [_ HP]. constructor; [cbn; intros Hne; done | exact HP].
  - destruct (end_record recent id t d) as [recent' r]. cbn [fst] in *. split; [cbn [fmap list_fmap]; by rewrite I1 |]. split.
    + cbn [fmap list_fmap]. intros Hnd. apply NoDup_cons in Hnd as [_ Hnd]. constructor; [done | by apply I2].
    + intros P HP. apply Forall_cons in HP as [HP1 HP2]. constructor; [done | by apply I3].
Qed.

Lemma inv_newer recent ids n n' : calls_inv recent ids n -> n <= n' -> calls_inv recent ids n'.
Proof.
  intros [I1 I2 I3 I4 I5 I6] Hn. split; try done; [eapply Forall_impl; [exact I3 |]; cbn; intros; lia | intros k id Hk; specialize (I4 k id Hk); cbn in I4; lia].
Qed.

Lemma inv_finish recent ids n key id t d : calls_inv recent ids n -> ids !! key = Some id -> t <> 0 ->
  calls_inv (fst (end_record recent id t d)) (delete key ids) n.
Proof.
  intros [I1 I2 I3 I4 I5 I6] Hk Ht. destruct (end_record_spec recent id t d) as (E1 & E2 & E3). specialize (E2 I2). split.
  - rewrite <- (length_fmap r_ID), E1, length_fmap. exact I1.
  - by rewrite E1.
  - assert (I3' : Forall (fun i => i <= n) (r_ID <$> recent)) by (by apply Forall_fmap). rewrite <- E1, Forall_fmap in I3'. exact I3'.
  - by apply map_Forall_delete.
  - intros k1 k2 id' H1' H2'. apply lookup_delete_Some in H1' as [_ H1'], H2' as [_ H2']. by apply (I5 k1 k2 id').
  - assert (E3' := E3 (fun c => r_EndedAt c = 0 <-> exists k, delete key ids !! k = Some (r_ID c))). cbn beta in E3'.
    assert (Hother : Forall (fun c => r_ID c <> id -> r_EndedAt c = 0 <-> exists k, delete key ids !! k = Some (r_ID c)) recent).
    { apply Forall_forall. intros c Hc Hne. rewrite Forall_forall in I6. rewrite (I6 c Hc).
      split; intros [k Hk']; exists k; [| by apply lookup_delete_Some in Hk' as [_ ?]]. rewrite lookup_delete_ne; [done |]. intros <-. congruence. }
    specialize (E3' Hother). rewrite Forall_forall in E3'. rewrite Forall_forall in E2. apply Forall_forall. intros c Hc.
    destruct (decide (r_ID c = id)) as [E | E]; [| by apply E3'].
    rewrite (E2 c Hc E). split; [done |]. intros [k Hk']. apply lookup_delete_Some in Hk' as [Hne Hk']. exfalso. apply Hne. symmetry. apply (I5 k key id); [by rewrite Hk', E | done].
Qed.

Lemma trim_spec l : exists k, trim_recent l = drop k l /\ (length (trim_recent l) <= recentCallLimit)%nat.
Proof.
  unfold trim_recent. destruct (Nat.ltb_spec recentCallLimit (length l)); [eexists; split; [reflexivity |]; rewrite length_drop; lia | by exists 0%nat].
Qed.

Lemma inv_insert recent ids n id key stored ids' :
  calls_inv recent ids n -> n < id -> r_ID stored = id ->
  (ids' = ids /\ r_EndedAt stored <> 0 \/ ids !! key = None /\ ids' = <[key := id]> ids /\ r_EndedAt stored = 0) ->
  calls_inv (trim_recent (recent ++ [stored])) ids' id.
Proof.
  intros Hinv Hn Hid Hcase. destruct (inv_newer _ _ _ id Hinv ltac:(lia)) as [I1 I2 I3 I4 I5 I6]. destruct Hinv as [_ _ O3 O4 _ _].
  assert (Hnew : r_ID stored ∉ (r_ID <$> recent)).
  { intros Hc. apply list_elem_of_fmap in Hc as (c & Ec & Hc). rewrite Forall_forall in O3. specialize (O3 c Hc). cbn in O3. lia. }
  assert (Hnone : forall k, ids !! k <> Some id) by (intros k Hk; specialize (O4 k id Hk); cbn in O4; lia).
  assert (Hother : forall c, c ∈ recent -> (exists k, ids' !! k = Some (r_ID c)) <-> (exists k, ids !! k = Some (r_ID c))).
  { intros c Hc. assert (Hne : r_ID c <> id) by (rewrite Forall_forall in O3; specialize (O3 c Hc); cbn in O3; lia).
    destruct Hcase as [[-> _] | (Hk0 & -> & _)]; [done |]. split; intros [k Hk].
    - destruct (decide (k = key)) as [-> |]; [rewrite lookup_insert_eq in Hk; congruence | rewrite lookup_insert_ne in Hk by done; by exists k].
    - exists k. destruct (decide (k = key)) as [-> |]; [congruence | by rewrite lookup_insert_ne]. }
  destruct (trim_spec (recent ++ [stored])) as (d & Ed & Hlen).
  assert (Hall : NoDup (r_ID <$> (recent ++ [stored])) /\ Forall (fun c => r_ID c <= id) (recent ++ [stored]) /\
    Forall (fun c => r_EndedAt c = 0 <-> exists k, ids' !! k = Some (r_ID c)) (recent ++ [stored])).
  { split; [| split].
    - rewrite fmap_app. apply NoDup_app. split; [done |]. split; [intros x Hx Hx'; cbn in Hx'; apply list_elem_of_singleton in Hx' as ->; done | apply NoDup_singleton].
    - apply Forall_app. split; [done |]. constructor; [lia | constructor].
    - apply Forall_app. split.
      + apply Forall_forall. intros c Hc. rewrite (Hother c Hc). rewrite Forall_forall in I6. by apply I6.
      + constructor; [| constructor]. destruct Hcase as [[-> He] | (Hk0 & -> & He)].
        * split; [done |]. intros [k Hk]. exfalso. apply (Hnone k). congruence.
        * split; [intros _; exists key; rewrite lookup_insert_eq; congruence | done]. }
  destruct Hall as (A1 & A2 & A3). rewrite Ed in *. split.
  - exact Hlen.
  - rewrite fmap_drop. eapply sublist_NoDup; [exact A1 |]. apply sublist_drop.
  - by apply Forall_drop.
  - destruct Hcase as [[-> _] | (_ & -> & _)]; [done |]. apply map_Forall_insert_2; [cbn; lia | done].
  - destruct Hcase as [[-> _] | (Hk0 & -> & _)]; [done |]. intros k1 k2 i H1' H2'.
    apply lookup_insert_Some in H1' as [[<- <-] | [Hne1 H1']]; apply lookup_insert_Some in H2' as [[<- E2'] | [Hne2 H2']]; [done | | | by apply (I5 k1 k2 i)].
    + exfalso. by apply (Hnone k2).
    + exfalso. apply (Hnone k1). by rewrite E2'.
  - by apply Forall_drop.
Qed.

(** Nothing changes for the calls. *)
Definition calls_same (s s' : Service) : Prop :=
  sv_recent s' = sv_recent s /\ sv_activeCall s' = sv_activeCall s /\ sv_callTotal s' = sv_callTotal s /\ calls_kept (sv_store s) (sv_store s').

Lemma calls_same_ok s s' : calls_same s s' -> calls_ok s -> calls_ok s'.
Proof. unfold calls_ok, active_ids. intros (-> & -> & -> & -> & -> & _). done. Qed.

Lemma calls_kept_trans db1 db2 db3 : calls_kept db1 db2 -> calls_kept db2 db3 -> calls_kept db1 db3.
Proof. unfold calls_kept. intuition congruence. Qed.
Lemma calls_same_trans s1 s2 s3 : calls_same s1 s2 -> calls_same s2 s3 -> calls_same s1 s3.
Proof. unfold calls_same. intros (E1 & E2 & E3 & K1) (F1 & F2 & F3 & K2). rewrite F1, F2, F3, E1, E2, E3. repeat (split; [done |]). by eapply calls_kept_trans. Qed.

Context `{!RegistryStoreLaws} `{!RegistryOrderLaws}.

Lemma upsert_same s d now : calls_same s (fst (UpsertDevice s d now)).
Proof.
  unfold UpsertDevice. cbv zeta. set (d1 := enrichDevice s d). pose proof (upsert_keeps (sv_store s) d1 now) as Hu.
  destruct (store_UpsertDevice (sv_store s) d1 now) as [db [stored |]]; cbn [fst snd] in *; [| done].
  match goal with |- context [let '(x, y) := ?o in _] => assert (Ho : calls_kept (sv_store s) (fst o)); [| destruct o as [db' stored']] end; [| done].
  destruct (_ && _); [| done]. pose proof (find_keeps db (d_Callsign stored)) as Hf. destruct (store_FindUserIDByCallsign db _) as [db2 [ownerID |]]; cbn [fst] in *; [| by eapply calls_kept_trans].
  destruct (ownerID =? 0); [by eapply calls_kept_trans |]. pose proof (assign_keeps db2 (d_ID stored) ownerID) as Ha.
  destruct (store_AssignDeviceOwner db2 (d_ID stored) ownerID) as [db3 [d2 |]]; cbn [fst] in *; (eapply calls_kept_trans; [by eapply calls_kept_trans | done]).
Qed.

(** The end of a call that is going on. *)
Lemma finish_spec s key a now : calls_ok s -> sv_activeCall s !! key = Some a -> now <> 0 ->
  let s' := fst (finishActiveCall s key a now) in
  calls_ok s' /\ (sv_activeCall s' = delete key (sv_activeCall s) \/ sv_activeCall s' = sv_activeCall s) /\
  (reliable (sv_store s) -> sv_activeCall s' = delete key (sv_activeCall s) /\ reliable (sv_store s')) /\ sv_callTotal s' = sv_callTotal s.
Proof.
  intros [Hok Htot] Hk Hn. cbv zeta. unfold finishActiveCall, end_active. set (dur := call_duration a now). pose proof (update_keeps (sv_store s) (ac_ID a) now dur) as (Hu & Ht & Hr).
  pose proof (update_reliable (sv_store s) (ac_ID a) now dur) as Hs.
  destruct (store_UpdateCallDuration _ _ _ _) as [db [|]]; cbn [fst snd] in *; cycle 1.
  { split; [| split; [by right | split; [by intros; specialize (Hs ltac:(done)) | done]]]. unfold calls_ok, active_ids in *. cbn [sv_recent sv_activeCall sv_store sv_callTotal with_store]. by rewrite Hu, Ht. }
  assert (Hids : active_ids s !! key = Some (ac_ID a)) by (unfold active_ids; by rewrite lookup_fmap, Hk).
  pose proof (inv_finish _ _ _ key (ac_ID a) now dur Hok Hids Hn) as Hf. cbn [sv_recent with_store].
  destruct (end_record (sv_recent s) (ac_ID a) now dur) as [recent' updated]. cbn [fst] in Hf.
  set (s1 := with_calls _ _ _ _). assert (H1s : calls_ok s1 /\ sv_activeCall s1 = delete key (sv_activeCall s) /\ (reliable (sv_store s) -> reliable (sv_store s1)) /\ sv_callTotal s1 = sv_callTotal s).
  { split; [| done]. unfold calls_ok, active_ids. cbn [sv_recent sv_activeCall sv_store sv_callTotal with_calls with_store s1]. by rewrite fmap_delete, Hu, Ht. }
  clearbody s1. destruct H1s as (P1 & P2 & P3 & P4). destruct (enrichCall _ <$> updated) as [c |]; [destruct (r_ID c =? 0) |]; cbn [fst]; (split; [exact P1 |]; split; [by left |]; split; [by intros; split; auto | exact P4]).
Qed.

Lemma touch_ok s key a now : calls_ok s -> sv_activeCall s !! key = Some a ->
  calls_ok (with_calls s (sv_recent s) (sv_callTotal s) (<[key := seen_at a now]> (sv_activeCall s))).
Proof.
  intros Hok Hk. unfold calls_ok, active_ids in *. cbn [sv_recent sv_activeCall sv_store sv_callTotal with_calls]. rewrite fmap_insert, insert_id; [exact Hok |].
  by rewrite lookup_fmap, Hk.
Qed.

Lemma matching_active s c ended key a : findMatchingActiveCallLocked s c ended = Some (key, a) -> sv_activeCall s !! key = Some a.
Proof.
  unfold findMatchingActiveCallLocked. intros Hf. apply find_some in Hf as [Hin _]. apply list_elem_of_In in Hin.
  rewrite call_iter_elements, elem_of_map_to_list in Hin. exact Hin.
Qed.

(** What the first part of [RecordCall] finds. *)
Lemma check_spec s c ended now :
  match record_check s c ended now with
  | (s', Finish key a) => s' = s /\ sv_activeCall s !! key = Some a /\ ended = true
  | (s', Touched) => ended = false /\ exists key a, sv_activeCall s !! key = Some a /\ s' = with_calls s (sv_recent s) (sv_callTotal s) (<[key := seen_at a now]> (sv_activeCall s))
  | (s', NewCall) => s' = s /\ sv_activeCall s !! callDedupKey (enrichCall s c) = None
  end.
Proof.
  unfold record_check. cbv zeta. destruct (sv_activeCall s !! callDedupKey (enrichCall s c)) as [a |] eqn:E.
  - destruct ended; [done |]. split; [done |]. by exists (callDedupKey (enrichCall s c)), a.
  - destruct (findMatchingActiveCallLocked s (enrichCall s c) ended) as [[key a] |] eqn:Ef; [| done]. apply matching_active in Ef.
    destruct ended; [done |]. split; [done |]. by exists key, a.
Qed.

Lemma enrich_fields s c : let c' := enrichCall s c in
  r_ID c' = r_ID c /\ r_EndedAt c' = r_EndedAt c /\ r_CreatedAt c' = r_CreatedAt c /\ callDedupKey c' = callDedupKey c.
Proof. cbv zeta. unfold enrichCall, callDedupKey. cbv zeta. by repeat case_match. Qed.

Lemma insert_ok s c ended now : calls_ok s -> now <> 0 -> (ended = false -> r_EndedAt c = 0) -> sv_activeCall s !! callDedupKey (enrichCall s c) = None ->
  calls_ok (fst (record_insert s c ended now)).
Proof.
  intros [Hok Htot] Hn He Hk. unfold record_insert, new_record, record_enter. cbv zeta. destruct (enrich_fields s c) as (C1 & C2 & C3 & C4). cbv zeta in *. set (c1 := enrichCall s c) in *.
  set (c2 := if ended then _ else _). assert (Hc2 : r_EndedAt c2 = (if ended then now else 0) /\ callDedupKey c2 = callDedupKey c1).
  { subst c2. destruct ended; [done |]. split; [cbn; rewrite C2; by apply He | done]. }
  destruct Hc2 as [E2 K2]. clearbody c2. pose proof (insert_ascends (sv_store s) c2 now) as Hi.
  destruct (store_InsertCall (sv_store s) c2 now) as [db [id |]]; cbn [fst]; cycle 1.
  { destruct Hi as [Hi1 Hi2]. unfold calls_ok, active_ids. cbn [sv_recent sv_store sv_activeCall sv_callTotal with_store]. by rewrite Hi1, Hi2. }
  destruct Hi as (Hid & Hdb & Htot'). set (s1 := with_store s db).
  destruct (enrich_fields s1 (with_id c2 id)) as (D1 & D2 & D3 & D4). cbv zeta in *. set (stored := enrichCall s1 (with_id c2 id)) in *.
  set (s2 := with_calls s1 _ _ _).
  assert (Hs2 : calls_ok s2).
  { unfold calls_ok, active_ids. subst s2. cbn [sv_recent sv_activeCall sv_store sv_callTotal with_calls s1 with_store]. rewrite Hdb. split; [| by rewrite Htot', Htot].
    apply (inv_insert (sv_recent s) (active_ids s) (newest (sv_store s)) id (callDedupKey c2)); [exact Hok | exact Hid | by rewrite D1 |].
    rewrite D2. cbn [r_EndedAt with_id]. rewrite E2. destruct ended; [by left |]. right. split; [unfold active_ids; by rewrite lookup_fmap, K2, Hk |].
    split; [unfold active_ids; by rewrite fmap_insert | done]. }
  destruct (sv_devices s2 !! _); exact Hs2.
Qed.

Lemma record_ok s c ended now : calls_ok s -> now <> 0 -> (ended = false -> r_EndedAt c = 0) -> calls_ok (fst (RecordCall s c ended now)).
Proof.
  intros Hok Hn He. unfold RecordCall. pose proof (check_spec s c ended now) as Hc. destruct (record_check s c ended now) as [s1 [key a | |]].
  - destruct Hc as (-> & Hk & _). pose proof (finish_spec s key a now Hok Hk Hn) as [Hf _]. by destruct (finishActiveCall s key a now).
  - destruct Hc as (_ & key & a & Hk & ->). by apply touch_ok.
  - destruct Hc as [-> Hk]. pose proof (insert_ok s c ended now Hok Hn He Hk) as Hi. by destruct (record_insert s c ended now).
Qed.

(** The sweeper ends the calls it found, unless the database refuses. *)
Lemma finish_all now : now <> 0 -> forall l s, calls_ok s -> NoDup (fst <$> l) -> Forall (fun e => sv_activeCall s !! fst e = Some (snd e)) l ->
  let s' := foldl (fun s e => fst (finishActiveCall s (fst e) (snd e) now)) s l in
  calls_ok s' /\ sv_callTotal s' = sv_callTotal s /\ (forall k, k ∉ (fst <$> l) -> sv_activeCall s' !! k = sv_activeCall s !! k) /\
  (reliable (sv_store s) -> forall k, k ∈ (fst <$> l) -> sv_activeCall s' !! k = None).
Proof.
  intros Hn. cbv zeta. induction l as [| [key a] l IH]; intros s Hok Hnd Hl.
  { split; [done |]. split; [done |]. split; [done |]. intros _ k Hk. by apply not_elem_of_nil in Hk. }
  cbn [fmap list_fmap fst] in Hnd. apply NoDup_cons in Hnd as [Hkey Hnd]. apply Forall_cons in Hl as [Hk Hl]. cbn [fst snd] in Hk. cbn [foldl fst snd].
  pose proof (finish_spec s key a now Hok Hk Hn) as (F1 & F2 & Fr & F3). cbv zeta in *. set (s1 := fst (finishActiveCall s key a now)) in *.
  assert (Hsame : forall k, k <> key -> sv_activeCall s1 !! k = sv_activeCall s !! k) by (intros k Hne; destruct F2 as [-> | ->]; [by rewrite lookup_delete_ne | done]).
  destruct (IH s1 F1 Hnd) as (I1 & I2 & I3 & I4).
  { rewrite Forall_forall in Hl |- *. intros e He. rewrite Hsame; [by apply Hl |]. intros E. apply Hkey. rewrite <- E. apply list_elem_of_fmap. by exists e. }
  split; [done |]. split; [by rewrite I2 |]. split.
  - intros k Hk'. cbn [fmap list_fmap fst] in Hk'. apply not_elem_of_cons in Hk' as [Hne Hk']. rewrite I3 by done. by apply Hsame.
  - intros Hup k Hk'. cbn [fmap list_fmap fst] in Hk'. destruct (Fr Hup) as [F4 F5]. destruct (decide (k ∈ (fst <$> l))) as [Hin | Hin]; [by apply I4 |].
    apply elem_of_cons in Hk' as [-> | Hk']; [| done]. rewrite I3, F4 by done. apply lookup_delete_eq.
Qed.

Lemma find_all s now : let l := List.filter (fun e => idle_call (snd e) now) (call_iter (sv_activeCall s)) in
  NoDup (fst <$> l) /\ Forall (fun e => sv_activeCall s !! fst e = Some (snd e)) l /\ (forall k a, sv_activeCall s !! k = Some a -> (k ∈ (fst <$> l)) <-> idle_call a now = true).
Proof.
  cbv zeta. assert (Hnd : NoDup (fst <$> call_iter (sv_activeCall s))) by (rewrite call_iter_elements; apply NoDup_fst_map_to_list).
  assert (Hin : forall e, e ∈ call_iter (sv_activeCall s) <-> sv_activeCall s !! fst e = Some (snd e)) by (intros [k a]; by rewrite call_iter_elements, elem_of_map_to_list).
  assert (Hf : forall e, e ∈ List.filter (fun e => idle_call (snd e) now) (call_iter (sv_activeCall s)) <-> sv_activeCall s !! fst e = Some (snd e) /\ idle_call (snd e) now = true).
  { intros e. rewrite list_elem_of_In, filter_In, <- list_elem_of_In. by rewrite Hin. }
  split; [| split].
  - clear Hf Hin. revert Hnd. generalize (call_iter (sv_activeCall s)) as l. induction l as [| e l IH]; intros Hnd; [done |]. cbn [fmap list_fmap] in Hnd. apply NoDup_cons in Hnd as [He Hnd].
    cbn [List.filter]. destruct (idle_call _ _); [| by apply IH]. cbn [fmap list_fmap]. apply NoDup_cons. split; [| by apply IH].
    intros Hc. apply He. apply list_elem_of_fmap in Hc as (e' & E & Hc). apply list_elem_of_fmap. exists e'. split; [done |]. apply list_elem_of_In, filter_In in Hc as [Hc _]. by apply list_elem_of_In.
  - apply Forall_forall. intros e He. by apply Hf.
  - intros k a Hk. split.
    + intros Hc. apply list_elem_of_fmap in Hc as ([k' a'] & -> & Hc). apply Hf in Hc as [Hc Hi]. cbn [fst snd] in *. congruence.
    + intros Hi. apply list_elem_of_fmap. exists (k, a). split; [done |]. by apply Hf.
Qed.

Lemma expire_devices_same s now : calls_same s (expireDevices s now).
Proof.
  unfold expireDevices. apply (foldl_inv (fun s' => calls_same s s')); [done |]. intros s' e _ Hs. eapply calls_same_trans; [exact Hs | apply upsert_same].
Qed.

Lemma sweep_ok s now : calls_ok s -> now <> 0 -> calls_ok (sweep s now).
Proof.
  intros Hok Hn. unfold sweep, expireCalls. pose proof (calls_same_ok _ _ (expire_devices_same s now) Hok) as Hok1.
  destruct (find_all (expireDevices s now) now) as (F1 & F2 & _). by apply (finish_all now Hn).
Qed.

(** Events as the program makes them: with a time, and without an end for a call
    that is going on. *)
Definition event_ok (e : registry_event) : Prop :=
  match e with RegCall c ended now => now <> 0 /\ (ended = false -> r_EndedAt c = 0) | RegSweep now => now <> 0 | _ => True end.

(** The registry of calls is consistent as long as recorded packets and sweeps are
    handled one after the other.  After any such history that starts with ended
    calls, and also when database operations fail: there are at most 50 latest
    calls, each once; a call among them is open exactly as long as it is tracked as
    active; no two active entries stand for the same call; and the number of calls
    is that of the database.  What is left of this when goroutines overlap is the
    subject of [CallFlow]. *)
Theorem calls_sound s evs :
  calls_ok s -> Forall event_ok evs ->
  let s' := foldl registry_step s evs in
  (length (sv_recent s') <= recentCallLimit)%nat /\ NoDup (r_ID <$> sv_recent s') /\
  Forall (fun c => r_EndedAt c = 0 <-> exists k a, sv_activeCall s' !! k = Some a /\ ac_ID a = r_ID c) (sv_recent s') /\
  (forall k1 k2 a1 a2, sv_activeCall s' !! k1 = Some a1 -> sv_activeCall s' !! k2 = Some a2 -> ac_ID a1 = ac_ID a2 -> k1 = k2) /\
  sv_callTotal s' = total (sv_store s').
Proof.
  intros Hok Hevs. cbv zeta. assert (Hfin : calls_ok (foldl registry_step s evs)).
  { apply (foldl_inv calls_ok); [exact Hok |]. intros s1 e He Hs1. rewrite Forall_forall in Hevs. specialize (Hevs e He).
    destruct e as [c ended now | now | d now | key status now | id patch | id | | ch]; cbn [registry_step event_ok] in *.
    - destruct Hevs. by apply record_ok.
    - by apply sweep_ok.
    - eapply calls_same_ok; [apply upsert_same | done].
    - unfold MarkDeviceOffline. destruct (sv_devices s1 !! key) as [d |]; [| done].
      pose proof (upsert_same s1 (device_offline d status now) now) as Hu. destruct (UpsertDevice _ _ _) as [s2 r]. eapply calls_same_ok; [exact Hu | done].
    - unfold UpdateDeviceMetadata. pose proof (metadata_keeps (sv_store s1) id patch) as Hm. destruct (store_UpdateDeviceMetadata _ _ _) as [db [d |]]; cbn [fst] in *; (eapply calls_same_ok; [| exact Hs1]; done).
    - unfold DeleteDevice. pose proof (delete_keeps (sv_store s1) id) as Hm. destruct (store_DeleteDevice _ _) as [db [d |]]; cbn [fst] in *; (eapply calls_same_ok; [| exact Hs1]; done).
    - eapply calls_same_ok; [| exact Hs1]. done.
    - eapply calls_same_ok; [| exact Hs1]. done. }
  destruct Hfin as [[I1 I2 I3 I4 I5 I6] Htot]. split; [done |]. split; [done |]. split; [| split; [| exact Htot]].
  - eapply Forall_impl; [exact I6 |]. cbn beta. intros c ->. unfold active_ids. split.
    + intros [k Hk]. rewrite lookup_fmap in Hk. destruct (sv_activeCall _ !! k) as [a |] eqn:E; [| done]. injection Hk as Hk. by exists k, a.
    + intros (k & a & Hk & Ha). exists k. by rewrite lookup_fmap, Hk, <- Ha.
  - intros k1 k2 a1 a2 H1' H2' Ha. apply (I5 k1 k2 (ac_ID a1)); unfold active_ids; rewrite lookup_fmap; [by rewrite H1' | by rewrite H2', Ha].
Qed.

(** C20: A sweep ends exactly the calls that have been silent for too long (3 seconds
    for MMDVM, 4 for NRL, 12 for the others): if the database accepts the changes,
    the active calls afterwards are those that were not, unchanged, no call is
    added, and the latest calls stay consistent. *)
Theorem sweep_exact s now :
  calls_ok s -> now <> 0 -> reliable (sv_store s) ->
  (forall k, sv_activeCall (sweep s now) !! k = match sv_activeCall s !! k with Some a => if idle_call a now then None else Some a | None => None end) /\
  sv_callTotal (sweep s now) = sv_callTotal s /\ calls_ok (sweep s now).
Proof.
  intros Hok Hn Hup. pose proof (sweep_ok s now Hok Hn) as Hs. unfold sweep, expireCalls in *.
  pose proof (expire_devices_same s now) as Hsame. pose proof (calls_same_ok _ _ Hsame Hok) as Hok1. destruct Hsame as (S1 & S2 & S3 & S4). specialize (proj2 (proj2 S4) Hup) as Hup1.
  set (s1 := expireDevices s now) in *. destruct (find_all s1 now) as (F1 & F2 & F3). destruct (finish_all now Hn _ s1 Hok1 F1 F2) as (A1 & A2 & A3 & A4). cbv zeta in *.
  split; [| split; [by rewrite A2, S3 | exact Hs]]. intros k. rewrite <- S2.
  destruct (sv_activeCall s1 !! k) as [a |] eqn:E.
  - specialize (F3 k a E). destruct (idle_call a now) eqn:Hi; [apply A4; [exact Hup1 | by apply F3] |]. rewrite A3; [exact E |]. intros Hc. apply F3 in Hc. done.
  - rewrite A3; [exact E |]. intros Hc. apply list_elem_of_fmap in Hc as ([k' a] & -> & Hc). rewrite Forall_forall in F2. specialize (F2 _ Hc). cbn [fst snd] in *. congruence.
Qed.

End service.

(** ** Starting on the database *)

Section startup.
Context `{Unicode} `{AutoincrementLaw}.
#[local] Notation "x <- m ;; f" := (bind m (fun x => f)) (at level 100, m at next level, right associativity).

Definition service_of (resolver : option Resolver) (devices : list Device) (calls : list CallRecord) (callTotal : Z) (db : Database) : Service :=
  let s := mkService (db : Db) resolver ∅ (reverse calls) callTotal ∅ ∅ 0 in
  with_devices s (foldl (fun m d => <[d_SourceKey d := enrichDevice s d]> m) ∅ devices).

Definition NewService (resolver : option Resolver) (now : time) : action Service :=
  devices <- LoadDevices;;
  (_ <- RepairStaleOpenCalls (30 * second) now now;;
  (calls <- LoadCalls (Z.of_nat recentCallLimit);;
  (callTotal <- CountCalls;;
  (fun db => (db, inl (service_of resolver devices calls callTotal db)))))).

(** The rows after the ends of [l]. *)
Definition end_all (now : time) (l : list (Z * time)) (r : CallRow) : CallRow :=
  foldl (fun r c => update_call (fst c) now (Z.max 0 (Z.quot (time_sub now (snd c)) millisecond)) r) r l.

Lemma end_all_fields now l r : cl_id (end_all now l r) = cl_id r /\ cl_created_at (end_all now l r) = cl_created_at r /\
  (cl_id r ∈ (fst <$> l) -> cl_ended_at (end_all now l r) = formatTime now) /\ (cl_id r ∉ (fst <$> l) -> cl_ended_at (end_all now l r) = cl_ended_at r).
Proof.
  unfold end_all. revert r. induction l as [| c l IH]; intros r; cbn [foldl].
  { split; [done |]. split; [done |]. split; [intros Hin; by apply not_elem_of_nil in Hin | done]. }
  destruct (IH (update_call (fst c) now (Z.max 0 (Z.quot (time_sub now (snd c)) millisecond)) r)) as (I1 & I2 & I3 & I4). rewrite I1, I2.
  assert (Hu : forall d, let r' := update_call (fst c) now d r in cl_id r' = cl_id r /\ cl_created_at r' = cl_created_at r /\ cl_ended_at r' = if cl_id r =? fst c then formatTime now else cl_ended_at r).
  { intros d. cbv zeta. unfold update_call. by destruct (cl_id r =? fst c). }
  destruct (Hu (Z.max 0 (Z.quot (time_sub now (snd c)) millisecond))) as (U1 & U2 & U3). rewrite U1 in *. rewrite U2. split; [done |]. split; [done |]. cbn [fmap list_fmap]. split.
  - intros Hin. destruct (decide (cl_id r ∈ (fst <$> l))) as [Hl | Hl]; [by apply I3 |]. rewrite I4, U3 by done.
    apply elem_of_cons in Hin as [-> | Hin]; [by rewrite Z.eqb_refl | done].
  - intros Hin. apply not_elem_of_cons in Hin as [Hne Hin]. rewrite I4, U3 by done. by rewrite (proj2 (Z.eqb_neq _ _) Hne).
Qed.

Lemma end_calls_spec now l db : all_ok db -> exists db', end_calls now l db = (db', inl tt) /\ all_ok db' /\
  tables db' = set_calls (tables db) (end_all now l <$> calls (tables db)) (calls_seq (tables db)).
Proof.
  revert db. induction l as [| [id created] l IH]; intros db Hok; cbn [end_calls].
  { exists db. split; [done |]. split; [done |]. unfold end_all. cbn [foldl]. rewrite list_fmap_id. by destruct db as [[] ?]. }
  set (d := Z.max 0 _). destruct (exec_ok (fun t => set_calls t (update_call id now d <$> calls t) (calls_seq t)) db Hok) as (db1 & E1 & T1 & O1).
  destruct (IH db1 O1) as (db2 & E2 & O2 & T2). exists db2. split; [unfold bind, UpdateCallDuration; by rewrite E1 |]. split; [done |].
  rewrite T2, T1. cbn [calls calls_seq set_calls]. by rewrite <- list_fmap_compose.
Qed.

Definition open_row (r : CallRow) : bool := text_eq (cl_ended_at r) "" || text_eq (cl_ended_at r) "0001-01-01T00:00:00Z".
(** A call is ended, or was opened more than thirty seconds ago. *)
Definition ended_or_stale (now : time) (r : CallRow) : Prop :=
  if open_row r then parseTime (cl_created_at r) <> 0 /\ 30 * second < time_sub now (parseTime (cl_created_at r)) else parseTime (cl_ended_at r) <> 0.

#[export] Instance ended_or_stale_dec now r : Decision (ended_or_stale now r).
Proof. unfold ended_or_stale. destruct (open_row r); apply _. Defined.

Lemma repair_spec now db : all_ok db -> 0 < now < time_limit -> Forall (ended_or_stale now) (calls (tables db)) ->
  exists db' f, RepairStaleOpenCalls (30 * second) now now db = (db', inl tt) /\ all_ok db' /\
    tables db' = set_calls (tables db) (f <$> calls (tables db)) (calls_seq (tables db)) /\
    (forall r, cl_id (f r) = cl_id r) /\ Forall (fun r => parseTime (cl_ended_at (f r)) <> 0) (calls (tables db)).
Proof.
  intros Hok Hn Hst. unfold RepairStaleOpenCalls. cbv zeta. assert (Ez : time_is_zero now = false) by (apply Z.eqb_neq; lia). rewrite Ez. change (30 * second <=? 0) with false. cbv iota.
  destruct (query_ok open_calls db Hok) as (db1 & E1 & T1 & O1). set (l := List.filter (stale_call (30 * second) now) (open_calls (tables db))).
  destruct (end_calls_spec now l db1 O1) as (db2 & E2 & O2 & T2). exists db2, (end_all now l). rewrite T1 in T2.
  split; [unfold bind; rewrite E1; exact E2 |]. split; [done |]. split; [done |]. split; [intros r; apply end_all_fields |].
  rewrite Forall_forall in Hst |- *. intros r Hr. specialize (Hst r Hr). unfold ended_or_stale in Hst. destruct (end_all_fields now l r) as (_ & _ & F1 & F2).
  destruct (decide (cl_id r ∈ (fst <$> l))) as [Hin | Hin].
  - rewrite F1 by done. rewrite time_text_roundtrip; lia.
  - rewrite F2 by done. destruct (open_row r) eqn:Eo; [| done]. exfalso. apply Hin. destruct Hst as [Hc Hs]. apply list_elem_of_fmap. exists (cl_id r, parseTime (cl_created_at r)). split; [done |].
    subst l. apply elem_filter. split; [| unfold stale_call, time_is_zero; cbn [snd]; rewrite (proj2 (Z.eqb_neq _ _) Hc), (proj2 (Z.leb_gt _ _)); [done | lia]].
    unfold open_calls. apply list_elem_of_fmap. exists r. split; [done |]. by apply elem_filter.
Qed.

(** C19: The service starts from the database in a consistent state: the latest calls
    are those of the table, none of them open, the number of calls is the stored
    one, and there is a device for every row; as long as no call was opened in the
    last thirty seconds and left open. *)
Theorem startup_consistent resolver now db :
  tables_ok (tables db) -> (length (calls (tables db)) <= recentCallLimit)%nat -> all_ok db -> 0 < now < time_limit ->
  Forall (ended_or_stale now) (calls (tables db)) ->
  exists db' s, NewService resolver now db = (db', inl s) /\ sv_store s = db' /\ calls_ok s /\ sv_callTotal s = call_total (tables db) /\
    (r_ID <$> sv_recent s) ≡ₚ (cl_id <$> calls (tables db)) /\ (forall k, is_Some (sv_devices s !! k) <-> k ∈ (dv_key <$> devices (tables db))).
Proof.
  intros Htok Hlen Hok Hn Hst.
  destruct (query_ok (fun t => scanDevice <$> order_by dv_last_seen_at dv_id (devices t)) db Hok) as (db1 & E1 & T1 & O1).
  destruct (repair_spec now db1 O1 Hn ltac:(by rewrite T1)) as (db2 & f & E2 & O2 & T2 & Hid & Hend). rewrite T1 in T2, Hend.
  destruct (query_ok (fun t => scanCall <$> take (Z.to_nat (Z.of_nat recentCallLimit)) (latest_calls t)) db2 O2) as (db3 & E3 & T3 & O3).
  destruct (query_ok call_total db3 O3) as (db4 & E4 & T4 & O4). rewrite T3, T2 in E4. rewrite T2 in E3. cbn [call_total set_calls] in E4.
  set (devs := scanDevice <$> _) in E1. set (recent := scanCall <$> _) in E3.
  exists db4, (service_of resolver devs recent (call_total (tables db)) db4).
  split; [unfold NewService, bind; change LoadDevices with (query (fun t => scanDevice <$> order_by dv_last_seen_at dv_id (devices t))); rewrite E1, E2;
    change (LoadCalls (Z.of_nat recentCallLimit)) with (query (fun t => scanCall <$> take (Z.to_nat (Z.of_nat recentCallLimit)) (latest_calls t))); rewrite E3;
    change CountCalls with (query call_total); by rewrite E4 |]. split; [done |].
  assert (Hperm : take (Z.to_nat (Z.of_nat recentCallLimit)) (latest_calls (set_calls (tables db) (f <$> calls (tables db)) (calls_seq (tables db)))) ≡ₚ f <$> calls (tables db)).
  { unfold latest_calls, order_by. cbn [calls set_calls]. rewrite firstn_all2; [apply merge_sort_Permutation |]. rewrite Nat2Z.id, merge_sort_Permutation, length_fmap. exact Hlen. }
  assert (Hids : (r_ID <$> recent) ≡ₚ (cl_id <$> calls (tables db))).
  { subst recent. rewrite Hperm, <- !list_fmap_compose. apply Permutation_refl'. apply list_fmap_ext. intros i r _. cbn. apply Hid. }
  assert (Hended : Forall (fun c => r_EndedAt c <> 0) recent).
  { subst recent. apply Forall_fmap. rewrite Hperm. apply Forall_fmap. exact Hend. }
  split; [| split; [done |]; split].
  - split; [| cbn; rewrite T4, T3, T2; reflexivity]. destruct (ok_call_ids _ Htok) as [Hnd Hle].
    unfold service_of, active_ids. cbn [sv_recent sv_activeCall sv_store with_devices]. split.
    + rewrite length_reverse, <- (length_fmap r_ID), Hids, length_fmap. exact Hlen.
    + by rewrite reverse_Permutation, Hids.
    + rewrite reverse_Permutation. apply Forall_forall. intros c Hc. assert (Hc' : r_ID c ∈ (cl_id <$> calls (tables db))) by (rewrite <- Hids; apply list_elem_of_fmap; by exists c).
      apply list_elem_of_fmap in Hc' as (r & Er & Hr). rewrite Forall_forall in Hle. specialize (Hle r Hr). cbn in *. rewrite T4, T3, T2, Er. exact Hle.
    + rewrite fmap_empty. apply map_Forall_empty.
    + intros k1 k2 id. by rewrite fmap_empty.
    + rewrite reverse_Permutation. eapply Forall_impl; [exact Hended |]. cbn beta. intros c Hc. split; [done |]. intros [k Hk]. by rewrite fmap_empty in Hk.
  - cbn [service_of sv_recent with_devices]. by rewrite reverse_Permutation.
  - intros k. cbn [service_of sv_devices with_devices]. assert (Hk : (k ∈ (d_SourceKey <$> devs)) <-> k ∈ (dv_key <$> devices (tables db))).
    { subst devs. rewrite <- list_fmap_compose. unfold order_by. by rewrite merge_sort_Permutation. }
    rewrite <- Hk. clear. set (s0 := mkService _ _ _ _ _ _ _ _). clearbody s0 devs.
    induction devs as [| d devs IH] using rev_ind; [cbn; rewrite elem_of_nil; split; [by intros [? ?] | done] |].
    rewrite foldl_app, fmap_app, elem_of_app. cbn [foldl fmap list_fmap]. rewrite list_elem_of_singleton. destruct (decide (k = d_SourceKey d)) as [-> | Hne].
    + rewrite lookup_insert_eq. split; [by right | by eauto].
    + rewrite lookup_insert_ne by done. rewrite IH. naive_solver.
Qed.

End startup.

(** ** Examples *)

Section sample.
#[local] Instance ids_in_order : Autoincrement := fun n => n.
#[local] Instance ids_in_order_law : AutoincrementLaw.
Proof. intros n. unfold seq_after_conflict, ids_in_order. lia. Qed.
#[local] Instance sample_registry : RegistryOrder := {| call_iter m := map_to_list m; device_iter m := map_to_list m |}.
#[local] Instance sample_registry_laws : RegistryOrderLaws.
Proof. by split. Qed.

Definition sample_service : Service := service_of None [] [] 0 empty_db.
Definition ipsc_call (stream : Z) : CallRecord :=
  mkCallRecord 0 0 0 0 "ipsc" "moto" "ipsc:312000" "" "" 0 4600001 46001 312000 1 "group" stream "" 0.

Lemma sample_calls_ok : calls_ok sample_service.
Proof.
  split; [| reflexivity].
  split; [cbn; unfold recentCallLimit; lia | exact NoDup_nil_2 | apply Forall_nil_2 | intros k id E; discriminate E | intros k1 k2 id E; discriminate E | apply Forall_nil_2].
Qed.

(** A call of three packets and its terminator make one record, a second stream
    another, which is still open. *)
Lemma calls_sound_witness :
  let s := foldl registry_step sample_service
    [RegCall (ipsc_call 7) false 1000; RegCall (ipsc_call 7) false 2000; RegCall (ipsc_call 7) true (5 * second); RegCall (ipsc_call 8) false (6 * second)] in
  Forall (fun c => r_EndedAt c = 0 <-> exists k a, sv_activeCall s !! k = Some a /\ ac_ID a = r_ID c) (sv_recent s) /\
  ((fun c => (r_ID c, r_StreamID c, r_EndedAt c)) <$> sv_recent s) = [(1, 7, 5 * second); (2, 8, 0)].
Proof.
  cbv zeta. split; [| vm_compute; reflexivity].
  apply (calls_sound sample_service [RegCall (ipsc_call 7) false 1000; RegCall (ipsc_call 7) false 2000; RegCall (ipsc_call 7) true (5 * second); RegCall (ipsc_call 8) false (6 * second)]).
  - exact sample_calls_ok.
  - repeat constructor; done.
Defined.

(** A call that is silent for thirteen seconds is ended by the sweeper. *)
Lemma sweep_exact_witness :
  let s := registry_step sample_service (RegCall (ipsc_call 7) false 1000) in
  sv_activeCall (sweep s (13 * second)) !! callDedupKey (ipsc_call 7) = None /\ sv_activeCall s !! callDedupKey (ipsc_call 7) <> None.
Proof.
  cbv zeta. split; [| vm_compute; discriminate].
  assert (Hok : calls_ok (registry_step sample_service (RegCall (ipsc_call 7) false 1000))) by (apply (record_ok sample_service); [exact sample_calls_ok | done | done]).
  destruct (sweep_exact (registry_step sample_service (RegCall (ipsc_call 7) false 1000)) (13 * second) Hok ltac:(done) ltac:(by apply Forall_nil_2)) as [He _].
  rewrite He. vm_compute. reflexivity.
Defined.

(** The database of the example of file Store, whose call was left open, half a
    minute and a second later. *)
Lemma startup_consistent_witness :
  exists db' s, NewService None (sample_time + 31 * second) (mkDatabase (tables sample_db) []) = (db', inl s) /\ calls_ok s /\ sv_callTotal s = 1.
Proof.
  destruct (startup_consistent None (sample_time + 31 * second) (mkDatabase (tables sample_db) [])) as (db' & s & E & _ & Hc & Ht & _).
  - exact sample_db_ok.
  - by_eval.
  - by apply Forall_nil_2.
  - by_eval.
  - by_eval.
  - exists db', s. split; [exact E |]. split; [exact Hc |]. rewrite Ht. by_eval.
Defined.

End sample.
