(* ===== verification/CallFlow.v ===== *)
(** The registry's calls with its goroutines running at the same time
    (internal/registry/service.go:188-294, 380-447).

    [Registry.RecordCall], [finishActiveCall] and [expireCalls] are whole calls.
    In the program they are run by the goroutines of the frontends, by the sweeper
    and by the handlers of packets, and the lock of the service is held only for
    parts of them: the database is called in between.  Here they are cut at these
    points.  [Check] is the first critical section of [RecordCall], [Insert] the
    statement of the database, [Enter] its second critical section; [Sweep] is the
    critical section of [expireCalls]; [Update] is the statement of
    [finishActiveCall] and [EndCall] its critical section.  What a goroutine
    carries from one part to the next is kept in four lists, and any event may
    take any entry of them, so every interleaving of any number of goroutines is a
    history.  The operations on devices do not touch the calls and stay whole.

    [calls_consistent] holds for all histories.  An open record that nobody
    tracks is possible, as [overlapping_first_bursts] shows; that it is not when
    the parts of a call are not interrupted is [Registry.calls_sound], and
    [record_uninterrupted] connects the two models. *)

From S2P Require Import Prelude Strings Text NrlFrame Dmrid TimeText RegistryTypes Store Registry.
#[local] Open Scope Z_scope.

Section flow.
Context `{Unicode} `{RegistryStore} `{RegistryOrder}.

Record checked_record := mkChecked { ch_call : CallRecord; ch_ended : bool; ch_now : time }.
Record inserted_record := mkInserted { in_id : Z; in_call : CallRecord; in_ended : bool; in_now : time }.
Record finishing_call := mkFinishing { fi_key : string; fi_active : activeCallState; fi_endedAt : time }.

(** The service, and what the goroutines have in their hands: records to be put
    into the database, records in the database that are not entered, calls to be
    ended in the database, and calls ended there but not in memory. *)
Record Flow := mkFlow {
  fl_service : Service;
  fl_checked : list checked_record;
  fl_inserted : list inserted_record;
  fl_finishing : list finishing_call;
  fl_updated : list finishing_call
}.

Inductive flow_event :=
| Check (c : CallRecord) (ended : bool) (now : time)
| Insert (i : nat)
| Enter (i : nat)
| Sweep (now : time)
| Update (i : nat)
| EndCall (i : nat)
| SweepDevices (now : time)
| OnDevices (e : registry_event).

(** The operations of the service that are not about calls. *)
Definition about_devices (e : registry_event) : bool := match e with RegCall _ _ _ | RegSweep _ => false | _ => true end.

Definition flow_step (f : Flow) (e : flow_event) : Flow :=
  let '(mkFlow s checked inserted finishing updated) := f in
  match e with
  | Check c ended now =>
      match record_check s c ended now with
      | (s', Finish key active) => mkFlow s' checked inserted (finishing ++ [mkFinishing key active now]) updated
      | (s', Touched) => mkFlow s' checked inserted finishing updated
      | (s', NewCall) => mkFlow s' (checked ++ [mkChecked (new_record s c ended now) ended now]) inserted finishing updated
      end
  | Insert i =>
      match checked !! i with
      | None => f
      | Some (mkChecked c ended now) =>
          match store_InsertCall (sv_store s) c now with
          | (db, None) => mkFlow (with_store s db) (delete i checked) inserted finishing updated
          | (db, Some id) => mkFlow (with_store s db) (delete i checked) (inserted ++ [mkInserted id c ended now]) finishing updated
          end
      end
  | Enter i =>
      match inserted !! i with
      | None => f
      | Some (mkInserted id c ended now) => mkFlow (fst (record_enter s c id ended now)) checked (delete i inserted) finishing updated
      end
  | Sweep now =>
      let expired := List.filter (fun e => idle_call (snd e) now) (call_iter (sv_activeCall s)) in
      mkFlow s checked inserted (finishing ++ ((fun e => mkFinishing (fst e) (snd e) now) <$> expired)) updated
  | Update i =>
      match finishing !! i with
      | None => f
      | Some (mkFinishing key active endedAt as x) =>
          match store_UpdateCallDuration (sv_store s) (ac_ID active) endedAt (call_duration active endedAt) with
          | (db, false) => mkFlow (with_store s db) checked inserted (delete i finishing) updated
          | (db, true) => mkFlow (with_store s db) checked inserted (delete i finishing) (updated ++ [x])
          end
      end
  | EndCall i =>
      match updated !! i with
      | None => f
      | Some (mkFinishing key active endedAt) => mkFlow (fst (end_active s key active endedAt)) checked inserted finishing (delete i updated)
      end
  | SweepDevices now => mkFlow (expireDevices s now) checked inserted finishing updated
  | OnDevices e => if about_devices e then mkFlow (registry_step s e) checked inserted finishing updated else f
  end.

Definition flow_run (f : Flow) (evs : list flow_event) : Flow := foldl flow_step f evs.

(** A service with no goroutine inside. *)
Definition at_rest (s : Service) : Flow := mkFlow s [] [] [] [].

(** Events as the program makes them: without an end for a call that is going
    on. *)
Definition flow_event_ok (e : flow_event) : Prop :=
  match e with Check c ended _ => ended = false -> r_EndedAt c = 0 | _ => True end.

(** ** The invariant *)

(** The latest calls, the identifiers of the active calls by their keys, the
    identifiers of inserted calls that are not entered, the calls being ended and
    the newest identifier of the database. *)
Record flow_inv (recent : list CallRecord) (ids : gmap string Z) (ins : list Z) (fin : list (string * Z)) (n : Z) : Prop := {
  fi_few : (length recent <= recentCallLimit)%nat;
  fi_once : NoDup ((r_ID <$> recent) ++ ins);
  fi_known : Forall (fun id => id <= n) ((r_ID <$> recent) ++ ins);
  fi_active_known k id : ids !! k = Some id -> id <= n /\ id ∉ ins;
  fi_distinct k1 k2 id : ids !! k1 = Some id -> ids !! k2 = Some id -> k1 = k2;
  fi_open k c : c ∈ recent -> ids !! k = Some (r_ID c) -> r_EndedAt c = 0;
  fi_fin key id : (key, id) ∈ fin -> id <= n /\ id ∉ ins /\ forall k, ids !! k = Some id -> k = key
}.

Lemma flow_newer recent ids ins fin n id :
  flow_inv recent ids ins fin n -> n < id -> flow_inv recent ids (ins ++ [id]) fin id.
Proof.
  intros [I1 I2 I3 I4 I5 I6 I7] Hn. rewrite Forall_forall in I3.
  assert (Hnew : id ∉ (r_ID <$> recent) ++ ins) by (intros Hc; specialize (I3 _ Hc); cbn in I3; lia).
  split; try done.
  - rewrite app_assoc. apply NoDup_app. split; [done |]. split; [| apply NoDup_singleton].
    intros x Hx ->%list_elem_of_singleton. done.
  - rewrite app_assoc. apply Forall_app. split; [| repeat constructor; lia]. apply Forall_forall. intros x Hx. specialize (I3 x Hx). cbn in I3. lia.
  - intros k i Hk. destruct (I4 k i Hk) as [Hle Hni]. split; [lia |].
    intros [? | ->%list_elem_of_singleton]%elem_of_app; [done | lia].
  - intros key i Hin. destruct (I7 key i Hin) as (Hle & Hni & Hk). split; [lia |]. split; [| done].
    intros [? | ->%list_elem_of_singleton]%elem_of_app; [done | lia].
Qed.

(** Entries of the lists may be reordered, and calls being ended forgotten. *)
Lemma flow_reorder recent ids ins ins' fin fin' n :
  ins ≡ₚ ins' -> (forall x, x ∈ fin' -> x ∈ fin) -> flow_inv recent ids ins fin n -> flow_inv recent ids ins' fin' n.
Proof.
  intros Ep Hf [I1 I2 I3 I4 I5 I6 I7].
  split; try done; [by rewrite <- Ep | by rewrite <- Ep | intros k id; rewrite <- Ep; by apply I4 |].
  intros key id Hin. rewrite <- Ep. by apply I7, Hf.
Qed.

(** A call among the active ones is chosen to be ended. *)
Lemma flow_chosen recent ids ins fin n key id :
  flow_inv recent ids ins fin n -> ids !! key = Some id -> flow_inv recent ids ins (fin ++ [(key, id)]) n.
Proof.
  intros [I1 I2 I3 I4 I5 I6 I7] Hk. split; try done.
  intros key' id' [Hin | Heq%list_elem_of_singleton]%elem_of_app; [by apply I7 |]. injection Heq as -> ->.
  destruct (I4 _ _ Hk) as [Hle Hni]. split; [done |]. split; [done |]. intros k Hk'. by apply (I5 k key id).
Qed.

Lemma flow_ended recent ids ins fin n key id t d :
  flow_inv recent ids ins fin n -> (key, id) ∈ fin ->
  flow_inv (fst (end_record recent id t d)) (delete key ids) ins fin n.
Proof.
  intros [I1 I2 I3 I4 I5 I6 I7] Hin. destruct (end_record_spec recent id t d) as (E1 & _ & E3). split.
  - rewrite <- (length_fmap r_ID), E1, length_fmap. exact I1.
  - by rewrite E1.
  - by rewrite E1.
  - intros k i [_ Hk]%lookup_delete_Some. by apply (I4 k).
  - intros k1 k2 i [_ H1']%lookup_delete_Some [_ H2']%lookup_delete_Some. by apply (I5 k1 k2 i).
  - specialize (E3 (fun c => forall k, ids !! k = Some (r_ID c) -> r_EndedAt c = 0)). cbn beta in E3.
    rewrite !Forall_forall in E3. intros k c Hc [Hne Hk]%lookup_delete_Some. apply (E3 ltac:(intros c' Hc' _ k'; by apply I6) c Hc) with k; [| done].
    intros Ei. apply Hne. symmetry. apply (I7 key id Hin). by rewrite Hk, Ei.
  - intros key' i Hin'. destruct (I7 _ _ Hin') as (Hle & Hni & Hk). split; [done |]. split; [done |].
    intros k [_ Hk']%lookup_delete_Some. by apply Hk.
Qed.

Lemma flow_entered recent ids ins fin n id key stored ids' :
  flow_inv recent ids (id :: ins) fin n -> r_ID stored = id ->
  (ids' = ids \/ ids' = <[key := id]> ids /\ r_EndedAt stored = 0) ->
  flow_inv (trim_recent (recent ++ [stored])) ids' ins fin n.
Proof.
  intros [I1 I2 I3 I4 I5 I6 I7] Hid Hcase. destruct (trim_spec (recent ++ [stored])) as (d & Ed & Hlen).
  assert (Ep : (r_ID <$> recent) ++ id :: ins = (r_ID <$> recent ++ [stored]) ++ ins)
    by (rewrite fmap_app, <- app_assoc; cbn; by rewrite Hid).
  assert (Hsub : (r_ID <$> trim_recent (recent ++ [stored])) ++ ins `sublist_of` (r_ID <$> recent) ++ id :: ins).
  { rewrite Ep, Ed, fmap_drop. apply sublist_app; [apply sublist_drop | done]. }
  assert (Hids : forall k i, ids' !! k = Some i -> ids !! k = Some i \/ (k = key /\ i = id /\ r_EndedAt stored = 0)).
  { intros k i. destruct Hcase as [-> | [-> He]]; [by left |]. intros [[<- <-] | [_ ?]]%lookup_insert_Some; [by right | by left]. }
  assert (Hni : id ∉ (r_ID <$> recent) /\ id ∉ ins).
  { apply NoDup_app in I2 as (_ & N2 & N3). apply NoDup_cons in N3 as [N3 _]. split; [| done]. intros Hc. apply (N2 id Hc). by left. }
  assert (Hle : id <= n) by (rewrite Forall_forall in I3; apply I3, elem_of_app; right; by left).
  split.
  - exact Hlen.
  - by eapply sublist_NoDup.
  - rewrite Forall_forall in I3 |- *. intros x Hx. apply I3. by eapply elem_of_sublist.
  - intros k i Hk. destruct (Hids k i Hk) as [Hk' | (-> & -> & _)]; [| split; [exact Hle | apply Hni]]. destruct (I4 k i Hk') as [? Hn]. split; [done |].
    intros Hc. apply Hn. by right.
  - assert (Hno : forall k, ids !! k <> Some id) by (intros k Hk; apply (proj2 (I4 k id Hk)); by left).
    intros k1 k2 i H1' H2'. destruct (Hids k1 i H1') as [K1 | (-> & -> & _)], (Hids k2 _ H2') as [K2 | (-> & E2 & _)]; subst;
      [by apply (I5 k1 k2 i) | by destruct (Hno k1) | by destruct (Hno k2) | done].
  - intros k c Hc Hk. assert (Hc' : c ∈ recent ++ [stored]).
    { rewrite Ed in Hc. eapply elem_of_sublist; [exact Hc | apply sublist_drop]. }
    destruct (Hids k _ Hk) as [Hk' | (-> & Ei & He)]; apply elem_of_app in Hc' as [Hc' | ->%list_elem_of_singleton].
    + by apply (I6 k).
    + exfalso. apply (proj2 (I4 _ _ Hk')). rewrite Hid. by left.
    + exfalso. apply (proj1 Hni). rewrite <- Ei. apply list_elem_of_fmap. by exists c.
    + done.
  - intros key' i Hin. destruct (I7 _ _ Hin) as (? & Hn & Hk). split; [done |]. split; [intros Hc; apply Hn; by right |].
    intros k Hk'. destruct (Hids k i Hk') as [? | (_ & -> & _)]; [by apply Hk | exfalso; apply Hn; by left].
Qed.

Definition being_ended (x : finishing_call) : string * Z := (fi_key x, ac_ID (fi_active x)).

Record flow_ok (f : Flow) : Prop := {
  fo_inv : flow_inv (sv_recent (fl_service f)) (active_ids (fl_service f)) (in_id <$> fl_inserted f)
    (being_ended <$> fl_finishing f ++ fl_updated f) (newest (sv_store (fl_service f)));
  fo_total : sv_callTotal (fl_service f) + Z.of_nat (length (fl_inserted f)) = total (sv_store (fl_service f));
  fo_checked : Forall (fun x => ch_ended x = false -> r_EndedAt (ch_call x) = 0) (fl_checked f);
  fo_inserted : Forall (fun x => in_ended x = false -> r_EndedAt (in_call x) = 0) (fl_inserted f)
}.

Context `{!RegistryStoreLaws} `{!RegistryOrderLaws}.

(** What leaves the calls as they were keeps the invariant. *)
Lemma flow_same s s' checked inserted finishing updated :
  calls_same s s' -> flow_ok (mkFlow s checked inserted finishing updated) -> flow_ok (mkFlow s' checked inserted finishing updated).
Proof.
  intros (E1 & E2 & E3 & E4 & E5 & _) [Hi Ht Hc Hn]. cbn in *. split; cbn; [| by rewrite E3, E5 | done | done].
  unfold active_ids. rewrite E1, E2, E4. exact Hi.
Qed.

Lemma check_ok f c ended now : flow_ok f -> (ended = false -> r_EndedAt c = 0) -> flow_ok (flow_step f (Check c ended now)).
Proof.
  destruct f as [s checked inserted finishing updated]. intros [Hi Ht Hc Hn] He. cbn in *.
  pose proof (check_spec s c ended now) as S. destruct (record_check s c ended now) as [s' [key a | |]].
  - destruct S as (-> & Hk & _). split; cbn; try done.
    eapply flow_reorder; [reflexivity | | eapply (flow_chosen _ _ _ _ _ key (ac_ID a)); [exact Hi |]].
    + intros x. rewrite !fmap_app. cbn [fmap list_fmap]. set_solver.
    + unfold active_ids. by rewrite lookup_fmap, Hk.
  - destruct S as (_ & key & a & Hk & ->). split; cbn; try done.
    unfold active_ids. cbn. rewrite fmap_insert, insert_id; [exact Hi |]. by rewrite lookup_fmap, Hk.
  - destruct S as [-> _]. split; cbn; try done. apply Forall_app. split; [done |]. apply Forall_singleton. cbn. intros ->.
    unfold new_record. cbn [r_EndedAt with_times]. rewrite (proj1 (proj2 (enrich_fields s c))). by apply He.
Qed.

Lemma insert_step_ok f i : flow_ok f -> flow_ok (flow_step f (Insert i)).
Proof.
  destruct f as [s checked inserted finishing updated]. intros Hok. cbn. destruct (checked !! i) as [[c ended now] |] eqn:Ei; [| exact Hok].
  destruct Hok as [Hi Ht Hc Hn]. cbn in *. pose proof (insert_ascends (sv_store s) c now) as Hs.
  pose proof (Forall_lookup_1 _ _ _ _ Hc Ei) as Hci. cbn in Hci.
  destruct (store_InsertCall (sv_store s) c now) as [db [id |]].
  - destruct Hs as (Hid & Hdb & Htot). split; cbn; [| rewrite length_app, Htot; cbn; lia | by apply Forall_delete |].
    + unfold active_ids. cbn. rewrite Hdb, fmap_app. by eapply flow_newer.
    + apply Forall_app. split; [done |]. by apply Forall_singleton.
  - destruct Hs as [Hdb Htot]. split; cbn; [| by rewrite Htot | by apply Forall_delete | done].
    unfold active_ids. cbn. by rewrite Hdb.
Qed.

Lemma enter_step_ok f i : flow_ok f -> flow_ok (flow_step f (Enter i)).
Proof.
  destruct f as [s checked inserted finishing updated]. intros Hok. cbn. destruct (inserted !! i) as [[id c ended now] |] eqn:Ei; [| exact Hok].
  destruct Hok as [Hi Ht Hc Hn]. cbn in *. pose proof (Forall_lookup_1 _ _ _ _ Hn Ei) as Hci. cbn in Hci.
  pose proof (delete_Permutation _ _ _ Ei) as Ep.
  destruct (enrich_fields s (with_id c id)) as (D1 & D2 & _). cbv zeta in *. unfold record_enter. cbv zeta.
  set (stored := enrichCall s (with_id c id)) in *. set (s1 := with_calls s _ _ _).
  assert (Hs1 : flow_ok (mkFlow s1 checked (delete i inserted) finishing updated)).
  { subst s1. split; cbn; [| rewrite <- Ht; rewrite (Permutation_length Ep); cbn; lia | done | by apply Forall_delete].
    eapply (flow_entered _ _ _ _ _ id (callDedupKey c)); [| by rewrite D1 |].
    - eapply flow_reorder; [| | exact Hi]; [exact (Permutation_map in_id Ep) | done].
    - unfold active_ids. cbn. destruct ended; [by left | right]. split; [by rewrite fmap_insert |]. rewrite D2. by apply Hci. }
  clearbody s1. eapply flow_same, Hs1. unfold calls_same, calls_kept. cbn. by destruct (sv_devices s !! r_SourceKey c).
Qed.

Lemma sweep_step_ok f now : flow_ok f -> flow_ok (flow_step f (Sweep now)).
Proof.
  destruct f as [s checked inserted finishing updated]. intros [Hi Ht Hc Hn]. cbn in *. split; cbn; try done.
  destruct (find_all s now) as (_ & F2 & _). set (l := List.filter _ _) in *. clearbody l.
  assert (G : forall l fin, Forall (fun e => sv_activeCall s !! fst e = Some (snd e)) l -> flow_inv (sv_recent s) (active_ids s) (in_id <$> inserted) fin (newest (sv_store s)) ->
    flow_inv (sv_recent s) (active_ids s) (in_id <$> inserted) (fin ++ (being_ended <$> ((fun e => mkFinishing (fst e) (snd e) now) <$> l))) (newest (sv_store s))).
  { clear. induction l as [| [key a] l IH]; intros fin Hl Hi; [by rewrite app_nil_r |]. apply Forall_cons in Hl as [Hk Hl]. cbn [fst snd] in Hk.
    cbn [fmap list_fmap]. specialize (IH (fin ++ [(key, ac_ID a)]) Hl). rewrite <- app_assoc in IH. apply IH.
    apply flow_chosen; [done |]. unfold active_ids. by rewrite lookup_fmap, Hk. }
  eapply flow_reorder; [reflexivity | | exact (G l _ F2 Hi)]. intros x. rewrite !fmap_app. set_solver.
Qed.

Lemma update_step_ok f i : flow_ok f -> flow_ok (flow_step f (Update i)).
Proof.
  destruct f as [s checked inserted finishing updated]. intros Hok. cbn. destruct (finishing !! i) as [[key a t] |] eqn:Ei; [| exact Hok].
  destruct Hok as [Hi Ht Hc Hn]. cbn in *. pose proof (update_keeps (sv_store s) (ac_ID a) t (call_duration a t)) as (Hu & Htt & _).
  pose proof (delete_Permutation _ _ _ Ei) as Ep. assert (Hsub : forall x, x ∈ delete i finishing -> x ∈ finishing) by (intros x; rewrite Ep at 2; by right).
  destruct (store_UpdateCallDuration _ _ _ _) as [db [|]]; cbn [fst] in *; (split; cbn; [| by rewrite Htt | done | done]);
    unfold active_ids; cbn; rewrite Hu; (eapply flow_reorder; [reflexivity | | exact Hi]); intros x; rewrite !list_elem_of_fmap; intros (y & -> & Hy);
    exists y; (split; [done |]).
  - apply elem_of_app. apply elem_of_app in Hy as [Hy | [Hy | ->%list_elem_of_singleton]%elem_of_app]; [left; by apply Hsub | by right | left].
    by eapply list_elem_of_lookup_2.
  - apply elem_of_app. apply elem_of_app in Hy as [Hy | Hy]; [left; by apply Hsub | by right].
Qed.

Lemma end_step_ok f i : flow_ok f -> flow_ok (flow_step f (EndCall i)).
Proof.
  destruct f as [s checked inserted finishing updated]. intros Hok. cbn. destruct (updated !! i) as [[key a t] |] eqn:Ei; [| exact Hok].
  destruct Hok as [Hi Ht Hc Hn]. cbn in *. pose proof (delete_Permutation _ _ _ Ei) as Ep.
  assert (Hin : (key, ac_ID a) ∈ being_ended <$> finishing ++ updated).
  { apply list_elem_of_fmap. exists (mkFinishing key a t). split; [done |]. apply elem_of_app. right. by eapply list_elem_of_lookup_2. }
  pose proof (flow_ended _ _ _ _ _ _ _ t (call_duration a t) Hi Hin) as Hf. unfold end_active.
  destruct (end_record (sv_recent s) (ac_ID a) t (call_duration a t)) as [recent' r]. cbn [fst] in Hf. set (s1 := with_calls s _ _ _).
  assert (Hs1 : flow_ok (mkFlow s1 checked inserted finishing (delete i updated))).
  { subst s1. split; cbn; try done. unfold active_ids. cbn. rewrite fmap_delete. eapply flow_reorder; [reflexivity | | exact Hf].
    intros x. rewrite !list_elem_of_fmap. intros (y & -> & Hy). exists y. split; [done |]. apply elem_of_app. apply elem_of_app in Hy as [Hy | Hy]; [by left | right].
    rewrite Ep. by right. }
  clearbody s1. eapply flow_same; [| exact Hs1].
  destruct (enrichCall s1 <$> r) as [c |]; [destruct (r_ID c =? 0) |]; cbn; unfold calls_same, calls_kept; cbn; by split_ands.
Qed.

Lemma devices_same s e : about_devices e = true -> calls_same s (registry_step s e).
Proof.
  destruct e as [c ended now | now | d now | key status now | id patch | id | | ch]; intros He; try discriminate He; cbn [registry_step].
  - apply upsert_same.
  - unfold MarkDeviceOffline. destruct (sv_devices s !! key) as [d |]; [| by unfold calls_same, calls_kept; split_ands].
    pose proof (upsert_same s (device_offline d status now) now) as Hu. by destruct (UpsertDevice _ _ _).
  - unfold UpdateDeviceMetadata. pose proof (metadata_keeps (sv_store s) id patch) as Hm. unfold calls_same. by destruct (store_UpdateDeviceMetadata _ _ _) as [db [d |]].
  - unfold DeleteDevice. pose proof (delete_keeps (sv_store s) id) as Hm. unfold calls_same. by destruct (store_DeleteDevice _ _) as [db [d |]].
  - by unfold calls_same, calls_kept; split_ands.
  - by unfold calls_same, calls_kept; split_ands.
Qed.

Lemma flow_step_ok f e : flow_ok f -> flow_event_ok e -> flow_ok (flow_step f e).
Proof.
  intros Hf He. destruct e as [c ended now | i | i | now | i | i | now | e].
  - by apply check_ok.
  - by apply insert_step_ok.
  - by apply enter_step_ok.
  - by apply sweep_step_ok.
  - by apply update_step_ok.
  - by apply end_step_ok.
  - destruct f. cbn. eapply flow_same; [apply expire_devices_same | done].
  - destruct f. cbn. destruct (about_devices e) eqn:E; [| done]. eapply flow_same; [by apply devices_same | done].
Qed.

Lemma at_rest_ok s : calls_ok s -> flow_ok (at_rest s).
Proof.
  intros [[I1 I2 I3 I4 I5 I6] Ht]. split; cbn; [| lia | constructor | constructor]. split; rewrite ?app_nil_r; try done.
  - by apply Forall_fmap.
  - intros k id Hk. split; [by apply (I4 k) | apply not_elem_of_nil].
  - intros k c Hc Hk. rewrite Forall_forall in I6. apply (I6 c Hc). by exists k.
  - intros key id Hc. by apply not_elem_of_nil in Hc.
Qed.

(** C13: The registry of calls is consistent, with any number of goroutines inside.
    After any interleaving of the critical sections and statements of any number
    of recorded packets, ends of calls and sweeps, with changes of devices in
    between and also when statements fail, starting from a consistent service:
    there are at most 50 latest calls, each once; a call that is tracked as active
    and among them is open; no two active entries stand for the same call; and
    the number of calls, together with the records that are in the database and
    not entered yet, is that of the database. *)
Theorem calls_consistent s evs :
  calls_ok s -> Forall flow_event_ok evs ->
  let f := flow_run (at_rest s) evs in
  let s' := fl_service f in
  (length (sv_recent s') <= recentCallLimit)%nat /\ NoDup (r_ID <$> sv_recent s') /\
  (forall k a c, sv_activeCall s' !! k = Some a -> c ∈ sv_recent s' -> r_ID c = ac_ID a -> r_EndedAt c = 0) /\
  (forall k1 k2 a1 a2, sv_activeCall s' !! k1 = Some a1 -> sv_activeCall s' !! k2 = Some a2 -> ac_ID a1 = ac_ID a2 -> k1 = k2) /\
  sv_callTotal s' + Z.of_nat (length (fl_inserted f)) = total (sv_store s').
Proof.
  intros Hs Hevs. cbv zeta.
  assert (Hok : flow_ok (flow_run (at_rest s) evs)).
  { apply (foldl_inv flow_ok); [by apply at_rest_ok |]. intros f e He Hf. rewrite Forall_forall in Hevs. apply flow_step_ok; [done | by apply Hevs]. }
  destruct Hok as [[I1 I2 I3 I4 I5 I6 I7] Ht _ _].
  assert (Ha : forall k a, sv_activeCall (fl_service (flow_run (at_rest s) evs)) !! k = Some a ->
    active_ids (fl_service (flow_run (at_rest s) evs)) !! k = Some (ac_ID a)) by (intros k a Hk; unfold active_ids; by rewrite lookup_fmap, Hk).
  split_ands; [done | by apply NoDup_app in I2 as (? & _) | | | done].
  - intros k a c Hk Hc Hid. apply (I6 k c Hc). rewrite Hid. by apply Ha.
  - intros k1 k2 a1 a2 Hk1 Hk2 Hid. apply (I5 k1 k2 (ac_ID a1)); [by apply Ha |]. rewrite Hid. by apply Ha.
Qed.

(** A goroutine that is not interrupted does what [RecordCall] says. *)
Theorem record_uninterrupted s c ended now :
  exists evs, flow_run (at_rest s) (Check c ended now :: evs) = at_rest (fst (RecordCall s c ended now)).
Proof.
  unfold RecordCall. destruct (record_check s c ended now) as [s1 [key a | |]] eqn:Ec.
  - unfold finishActiveCall. destruct (store_UpdateCallDuration (sv_store s1) (ac_ID a) now (call_duration a now)) as [db [|]] eqn:Eu.
    + exists [Update 0; EndCall 0]. unfold flow_run, at_rest. cbn. rewrite Ec. cbn. rewrite Eu. cbn. by destruct (end_active (with_store s1 db) key a now).
    + exists [Update 0]. unfold flow_run, at_rest. cbn. rewrite Ec. cbn. by rewrite Eu.
  - exists []. unfold flow_run, at_rest. cbn. by rewrite Ec.
  - assert (E1 : s1 = s) by (pose proof (check_spec s c ended now) as S; rewrite Ec in S; apply S). subst s1.
    unfold record_insert. destruct (store_InsertCall (sv_store s) (new_record s c ended now) now) as [db [id |]] eqn:Ei.
    + exists [Insert 0; Enter 0]. unfold flow_run, at_rest. cbn. rewrite Ec. cbn. rewrite Ei. cbn. by destruct (record_enter (with_store s db) (new_record s c ended now) id ended now).
    + exists [Insert 0]. unfold flow_run, at_rest. cbn. rewrite Ec. cbn. by rewrite Ei.
Qed.

End flow.

(** ** Examples *)

Section sample_flow.
#[local] Existing Instances ids_in_order ids_in_order_law sample_registry sample_registry_laws.

(** Two first bursts of one stream are checked before either is entered; then the
    terminator comes. *)
Definition two_bursts : list flow_event :=
  [Check (ipsc_call 7) false 1000; Check (ipsc_call 7) false 1001; Insert 0; Insert 0; Enter 0; Enter 0;
   Check (ipsc_call 7) true (5 * second); Update 0; EndCall 0].

Lemma calls_consistent_witness :
  let f := flow_run (at_rest sample_service) (take 5 two_bursts) in
  NoDup (r_ID <$> sv_recent (fl_service f)) /\
  sv_callTotal (fl_service f) + Z.of_nat (length (fl_inserted f)) = total (sv_store (fl_service f)) /\ length (fl_inserted f) = 1%nat.
Proof.
  cbv zeta. destruct (calls_consistent sample_service (take 5 two_bursts) sample_calls_ok) as (_ & Hn & _ & _ & Ht).
  - repeat constructor.
  - split; [exact Hn |]. split; [exact Ht |]. vm_compute. reflexivity.
Defined.

(** Both bursts are entered as calls.  The second takes the place of the first
    among the active calls, so the terminator ends the second only: the first
    record stays open, nothing tracks it, and a sweep an hour later finds nothing
    to end. *)
Theorem overlapping_first_bursts :
  let f := flow_run (at_rest sample_service) two_bursts in
  (fun c => (r_ID c, r_EndedAt c)) <$> sv_recent (fl_service f) = [(1, 0); (2, 5 * second)] /\
  sv_activeCall (fl_service f) = ∅ /\ fl_finishing (flow_step f (Sweep (3600 * second))) = [].
Proof. split; [vm_compute; reflexivity |]. split; vm_compute; reflexivity. Qed.

End sample_flow.
