(* ===== verification/Managed.v ===== *)
(** * Links kept in the database (internal/mmdvm/managed_config.go)

    A link to an MMDVM master that was set up in the browser is a row of the device
    table; its rewrite rules are JSON text in the column extra_json.  The JSON
    encoder of the standard library is a parameter, [ExtraJson]. *)

From Stdlib Require Import Ascii QArith.
From S2P Require Import Prelude Strings Text Rewrite Rptc MmdvmLogin Config NrlFrame TimeText RegistryTypes Store.
#[local] Open Scope Z_scope.

Record ManagedExtra := mkManagedExtra { ex_MasterServer : string; ex_rules : RuleConfigs }.

(** [json.Marshal] and [json.Unmarshal] at this type; a list that is empty is the
    same as none. *)
Class ExtraJson := {
  marshal_extra : ManagedExtra -> string;
  unmarshal_extra : string -> option ManagedExtra
}.
Definition no_rules : RuleConfigs := mkRuleConfigs [] [] [] [] [] [].
Definition no_extra : ManagedExtra := mkManagedExtra "" no_rules.
Definition is_ascii_str (s : string) : bool := is_ascii_text (str_bytes s).
(** What was written is read back (for texts in ASCII), is a JSON object, without
    white space around it, and "{}" when every field is empty. *)
Class ExtraJsonLaws `{ExtraJson} : Prop := {
  marshal_roundtrip e : is_ascii_str (ex_MasterServer e) = true -> unmarshal_extra (marshal_extra e) = Some e;
  marshal_trimmed e : TrimSpace_text (marshal_extra e) = marshal_extra e;
  marshal_not_empty e : marshal_extra e <> "";
  marshal_no_extra e : marshal_extra e = "{}" <-> e = no_extra
}.

Section managed.
Context `{Unicode} `{ExtraJson}.

Definition ParseManagedExtra (raw : string) : option ManagedExtra :=
  let raw := TrimSpace_text raw in
  if text_eq raw "" then Some no_extra else unmarshal_extra raw.

Definition MarshalManagedExtra (extra : ManagedExtra) : string :=
  let data := marshal_extra extra in
  if text_eq data "{}" then "" else data.

(** [strconv.Atoi] without its error: nothing but digits after a sign, and the
    nearest number of the type when there are too many. *)
Definition Atoi (s : list Z) : Z :=
  let '(neg, digits) := match s with 45 :: r => (true, r) | 43 :: r => (false, r) | _ => (false, s) end in
  if bool_decide (digits = []) || negb (forallb digit digits) then 0
  else if neg then Z.max (- 2 ^ 63) (- number digits) else Z.min (2 ^ 63 - 1) (number digits).

Definition JoinHostPort (host port : string) : string :=
  if has_byte 58 (str_bytes host) || has_byte 37 (str_bytes host) then "[" +:+ host +:+ "]:" +:+ port else host +:+ ":" +:+ port.

Definition masterServerFromDevice (d : Device) : string :=
  if text_eq (TrimSpace_text (d_IP d)) "" then ""
  else if 0 <? d_Port d then JoinHostPort (TrimSpace_text (d_IP d)) (pretty (d_Port d))
  else TrimSpace_text (d_IP d).

Definition splitMasterServer (value : string) : string * Z :=
  let value := TrimSpace_text value in
  if text_eq value "" then ("", 0)
  else match SplitHostPort (str_bytes value) with None => (value, 0) | Some (host, port) => (bytes_str host, Atoi port) end.

Definition master_of (d : Device) (extra : ManagedExtra) : string :=
  let masterServer := TrimSpace_text (ex_MasterServer extra) in
  if text_eq masterServer "" then masterServerFromDevice d else masterServer.

Definition or_three (slots : Z) : Z := if slots =? 0 then 3 else slots.

Definition DeviceToConfig (d : Device) : option MMDVM :=
  extra ← ParseManagedExtra (d_ExtraJSON d);
  Some (mkMMDVM
    (d_SourceKey d) (TrimSpace_text (d_Name d)) (TrimSpace_text (d_Callsign d)) (d_DMRID d) (d_RXFreq d) (d_TXFreq d) (d_TXPower d) (d_ColorCode d)
    (d_Latitude d) (d_Longitude d) (d_Height d) (TrimSpace_text (d_Location d)) (TrimSpace_text (d_Description d)) (TrimSpace_text (d_URL d))
    (or_three (d_Slots d)) (master_of d extra) "" (d_DevicePassword d) (ex_rules extra)).

Definition HasManagedConfig (d : Device) : bool :=
  if negb (text_eq (d_Protocol d) "mmdvm-upstream") || negb (has_prefix "mmdvm-upstream:" (TrimSpace_text (d_SourceKey d))) then false
  else match ParseManagedExtra (d_ExtraJSON d) with
    | None => false
    | Some extra => negb (text_eq (TrimSpace_text (d_DevicePassword d)) "") && negb (text_eq (master_of d extra) "")
    end.

(** The fields that are not named are zero. *)
Definition ConfigToDevice (cfg : MMDVM) : Device :=
  let extraJSON := MarshalManagedExtra (mkManagedExtra (TrimSpace_text (MasterServer cfg)) (cfg_rules cfg)) in
  let '(host, port) := splitMasterServer (MasterServer cfg) in
  mkDevice
    0 "mmdvm" "mmdvm-upstream" (client_source_key cfg) 0 (TrimSpace_text (Name cfg)) (TrimSpace_text (Callsign cfg)) (ID cfg) "MMDVM Master" "" host port
    "configured" false 0 0 0 (RXFreq cfg) (TXFreq cfg) (TXPower cfg) (cfg_ColorCode cfg) (Latitude cfg) (Longitude cfg) (Height cfg)
    (TrimSpace_text (Location cfg)) (TrimSpace_text (Description cfg)) (TrimSpace_text (URL cfg)) (or_three (Slots cfg)) "" (Password cfg) "" 0 0 0 0 false extraJSON.

(** ** A link through the database *)

Definition trimmed (s : string) : Prop := TrimSpace_text s = s.

(** A link as the handlers make it: its texts without white space around them, with
    a source key and a master. *)
Record link_ok (cfg : MMDVM) : Prop := {
  lk_key : trimmed (SourceKey cfg) /\ SourceKey cfg <> "";
  lk_texts : Forall trimmed [Name cfg; Callsign cfg; Location cfg; Description cfg; URL cfg];
  lk_master : trimmed (MasterServer cfg) /\ MasterServer cfg <> "" /\ is_ascii_str (MasterServer cfg) = true
}.

(** The configuration with its defaults; what a client does not use is left out. *)
Definition normal_config (cfg : MMDVM) : MMDVM :=
  mkMMDVM
    (SourceKey cfg) (Name cfg) (Callsign cfg) (ID cfg) (RXFreq cfg) (TXFreq cfg) (TXPower cfg) (cfg_ColorCode cfg) (Latitude cfg) (Longitude cfg) (Height cfg)
    (Location cfg) (Description cfg) (URL cfg) (or_three (Slots cfg)) (MasterServer cfg) "" (Password cfg) (cfg_rules cfg).

Context `{!ExtraJsonLaws}.

Lemma trim_empty : TrimSpace_text "" = "".
Proof. reflexivity. Qed.

Lemma source_key_trimmed cfg : trimmed (SourceKey cfg) -> SourceKey cfg <> "" -> client_source_key cfg = SourceKey cfg.
Proof.
  unfold client_source_key, trimmed, TrimSpace_text. intros Ht Hne. destruct (decide _) as [E | E]; [| done].
  rewrite E in Ht. cbn in Ht. by rewrite <- Ht in Hne.
Qed.

Lemma or_three_twice n : or_three (or_three n) = or_three n.
Proof. unfold or_three. destruct (Z.eqb_spec n 0) as [-> |]; [done |]. by rewrite (proj2 (Z.eqb_neq n 0)). Qed.

Lemma extra_roundtrip cfg : link_ok cfg ->
  ParseManagedExtra (MarshalManagedExtra (mkManagedExtra (TrimSpace_text (MasterServer cfg)) (cfg_rules cfg))) = Some (mkManagedExtra (MasterServer cfg) (cfg_rules cfg)).
Proof.
  intros [_ _ (Ht & Hne & Ha)]. rewrite Ht. set (e := mkManagedExtra _ _). unfold MarshalManagedExtra, ParseManagedExtra.
  assert (text_eq (marshal_extra e) "{}" = false) as ->.
  { apply bool_decide_eq_false. rewrite marshal_no_extra. subst e. by intros [= E _]. }
  rewrite marshal_trimmed. rewrite (bool_decide_eq_false_2 _ (marshal_not_empty e) : text_eq _ _ = false). by apply marshal_roundtrip.
Qed.

(** The fields of a stored device that make up a configuration. *)
Lemma config_of_device cfg d : link_ok cfg ->
  d_SourceKey d = SourceKey cfg -> d_Name d = Name cfg -> d_Callsign d = Callsign cfg -> d_DMRID d = ID cfg -> d_RXFreq d = RXFreq cfg -> d_TXFreq d = TXFreq cfg ->
  d_TXPower d = TXPower cfg -> d_ColorCode d = cfg_ColorCode cfg -> d_Latitude d = Latitude cfg -> d_Longitude d = Longitude cfg -> d_Height d = Height cfg ->
  d_Location d = Location cfg -> d_Description d = Description cfg -> d_URL d = URL cfg -> d_Slots d = or_three (Slots cfg) -> d_DevicePassword d = Password cfg ->
  d_ExtraJSON d = MarshalManagedExtra (mkManagedExtra (TrimSpace_text (MasterServer cfg)) (cfg_rules cfg)) -> DeviceToConfig d = Some (normal_config cfg).
Proof.
  intros Hok. unfold DeviceToConfig, master_of. intros. repeat match goal with E : _ d = _ |- _ => rewrite E; clear E end.
  rewrite extra_roundtrip by done. cbn [mbind option_bind ex_MasterServer ex_rules]. rewrite or_three_twice. destruct Hok as [_ Ht (Hm & Hne & _)].
  rewrite Hm, (bool_decide_eq_false_2 _ Hne : text_eq _ _ = false). unfold normal_config. repeat (apply Forall_cons in Ht as [-> Ht]). done.
Qed.

Lemma config_fields cfg : link_ok cfg -> let d := ConfigToDevice cfg in
  d_SourceKey d = SourceKey cfg /\ d_Name d = Name cfg /\ d_Callsign d = Callsign cfg /\ d_Location d = Location cfg /\ d_Description d = Description cfg /\ d_URL d = URL cfg.
Proof.
  intros [[Hk1 Hk2] Ht _]. cbv zeta. unfold ConfigToDevice. cbv zeta. destruct (splitMasterServer _) as [host port]. cbn. rewrite source_key_trimmed by done.
  repeat (apply Forall_cons in Ht as [-> Ht]). done.
Qed.

Context `{AutoincrementLaw}.

(** What a link writes over: a field that is empty or zero in the link is so in the
    row too. *)
Record covers (cfg : MMDVM) (o : Device) : Prop := {
  cv_texts : Forall2 (fun new old : string => new = "" -> old = "")
    [Name cfg; Callsign cfg; Location cfg; Description cfg; URL cfg; Password cfg]
    [d_Name o; d_Callsign o; d_Location o; d_Description o; d_URL o; d_DevicePassword o];
  cv_numbers : Forall2 (fun new old : Z => new = 0 -> old = 0)
    [ID cfg; RXFreq cfg; TXFreq cfg; TXPower cfg; cfg_ColorCode cfg; Height cfg]
    [d_DMRID o; d_RXFreq o; d_TXFreq o; d_TXPower o; d_ColorCode o; d_Height o];
  cv_places : Forall2 (fun new old : Q => Qeq_bool new 0 = true -> old = new) [Latitude cfg; Longitude cfg] [d_Latitude o; d_Longitude o]
}.

Lemma or_text_new a b : (a = "" -> b = "") -> or_text a b = a.
Proof. intros Hb. unfold or_text. destruct (text_eq a "") eqn:E; [| done]. apply text_eq_true in E. rewrite E. by apply Hb. Qed.
Lemma or_num_new a b : (a = 0 -> b = 0) -> or_num a b = a.
Proof. intros Hb. unfold or_num. destruct (Z.eqb_spec a 0) as [E |]; [| done]. rewrite E. by apply Hb. Qed.
Lemma or_real_new a b : (Qeq_bool a 0 = true -> b = a) -> or_real a b = a.
Proof. intros Hb. unfold or_real. destruct (Qeq_bool a 0); [by apply Hb | done]. Qed.

(** The configuration of the row that is written. *)
Lemma row_config cfg now t : link_ok cfg -> (forall r, r ∈ devices t -> dv_key r = SourceKey cfg -> covers cfg (dv_columns r)) ->
  DeviceToConfig (scanDevice (own_row (with_seen_times (ConfigToDevice cfg) now) t)) = Some (normal_config cfg).
Proof.
  intros Hok Hc. destruct (config_fields cfg Hok) as (K & F1 & F2 & F3 & F4 & F5). unfold own_row.
  assert (Hextra : MarshalManagedExtra (mkManagedExtra (TrimSpace_text (MasterServer cfg)) (cfg_rules cfg)) <> "").
  { intros E. pose proof (extra_roundtrip cfg Hok) as R. rewrite E in R. unfold ParseManagedExtra in R. cbn in R. destruct Hok as [_ _ (_ & Hne & _)]. by injection R as R _. }
  destruct (List.find _ _) as [old |] eqn:Ef.
  - apply find_some in Ef as [Hin Ek]. apply list_elem_of_In in Hin. apply text_eq_true in Ek.
    assert (Ek' : dv_key old = SourceKey cfg) by (rewrite Ek; exact K).
    destruct (Hc old Hin Ek') as [Ht Hn Hp]. repeat (apply Forall2_cons in Ht as [? Ht]). repeat (apply Forall2_cons in Hn as [? Hn]). repeat (apply Forall2_cons in Hp as [? Hp]).
    assert (Hs : or_three (Slots cfg) <> 0) by (unfold or_three; destruct (Z.eqb_spec (Slots cfg) 0); lia).
    revert K F1 F2 F3 F4 F5 Hextra. unfold ConfigToDevice. cbv zeta. destruct (splitMasterServer _) as [host port]. cbn. intros K F1 F2 F3 F4 F5 Hextra.
    apply config_of_device; try exact Hok; cbn; rewrite ?F1, ?F2, ?F3, ?F4, ?F5;
      first [exact Ek' | by apply or_text_new | by apply or_num_new | by apply or_real_new].
  - revert K F1 F2 F3 F4 F5. unfold ConfigToDevice. cbv zeta. destruct (splitMasterServer _). intros. by apply config_of_device.
Qed.

(** C23: A link survives the database.  Its texts are without white space around them,
    its master is ASCII, and if a row has its source key already, then no field that
    is empty or zero in the link has a value there (an upsert would keep that).
    Then the link is stored as a device, and the device that is read back, then and
    when all devices are loaded, gives the configuration of the link, with its
    default slots. *)
Theorem link_stored cfg now db :
  link_ok cfg -> tables_ok (tables db) -> all_ok db -> devices_seq (tables db) < rowid_limit ->
  (forall r, r ∈ devices (tables db) -> dv_key r = SourceKey cfg -> covers cfg (dv_columns r)) ->
  exists db' d, Store.UpsertDevice (ConfigToDevice cfg) now db = (db', inl d) /\ DeviceToConfig d = Some (normal_config cfg) /\
    (forall db2 l, LoadDevices db' = (db2, inl l) -> d ∈ l).
Proof.
  intros Hok Htok Hall Hseq Hcov. set (d0 := with_seen_times (ConfigToDevice cfg) now). destruct (config_fields cfg Hok) as (K & _).
  set (row := own_row d0 (tables db)). pose proof (own_row_key d0 (tables db)) as Erow. fold row in Erow.
  destruct (upsert_spec d0 (tables db) (ok_device_keys _ Htok) Hseq) as (t' & Hup & _ & _ & Hrows). fold row in Hrows.
  unfold Store.UpsertDevice. fold d0.
  destruct (transaction_ok (bind (mergeDuplicateDMRID d0) (fun d => sql (upsert_device d))) db (fun _ t => t = t') Hall) as (db1 & u & E1 & O1 & T1).
  { intros db1 O1 T1. assert (mergeDuplicateDMRID d0 = ret d0) as ->.
    { unfold mergeDuplicateDMRID. replace (dedupeByDMRID (d_Protocol d0)) with false by (subst d0; unfold ConfigToDevice; cbv zeta; destruct (splitMasterServer _); reflexivity). by rewrite orb_true_r. }
    rewrite <- T1 in Hup. destruct (sql_ok _ db1 _ tt O1 Hup) as (db2 & E2 & T2 & O2). exists db2, tt. by split. }
  unfold bind at 1. rewrite E1. change (d_SourceKey d0) with (d_SourceKey (ConfigToDevice cfg)) in Erow, Hrows.
  destruct (find_by_key (d_SourceKey (ConfigToDevice cfg)) db1 O1) as (db2 & r & E2 & T2 & Hr & Er).
  { exists row. rewrite T1. split; [apply Hrows; by left | exact Erow]. }
  assert (r = row) as -> by (rewrite T1 in Hr; apply Hrows in Hr as [-> | [Hne _]]; done).
  exists db2, (scanDevice row). split; [exact E2 |]. split; [by apply row_config |].
  intros db3 l El. apply sql_inl in El. injection El as _ <-. apply list_elem_of_fmap. exists row. split; [done |]. unfold order_by. rewrite merge_sort_Permutation, T2. exact Hr.
Qed.

(** A value that is empty in an update leaves the column as it was: a description
    cannot be taken away again. *)
Lemma update_keeps_text old new : d_Description (dv_columns new) = "" -> d_Description (dv_columns (update_device_row old new)) = d_Description (dv_columns old).
Proof. intros E. cbn. by rewrite E. Qed.

End managed.

(** ** An example *)

Section example.
#[local] Instance no_gaps_link : Autoincrement := fun n => n.
#[local] Instance no_gaps_link_law : AutoincrementLaw.
Proof. intros n. unfold seq_after_conflict, no_gaps_link. lia. Qed.

(** A text for every value, in place of JSON. *)
#[local] Instance RewriteConfig_eq_dec : EqDecision RewriteConfig.
Proof. solve_decision. Defined.
#[local] Instance RewriteConfig_countable : Countable RewriteConfig :=
  inj_countable' (fun c => (rc_FromSlot c, rc_From c, rc_ToSlot c, rc_To c, rc_Range c)) (fun '(a, b, c, d, e) => mkRewriteConfig a b c d e) ltac:(by intros []).
#[local] Instance ManagedExtra_eq_dec : EqDecision ManagedExtra.
Proof. assert (EqDecision RuleConfigs) by solve_decision. solve_decision. Defined.
#[local] Instance ManagedExtra_countable : Countable ManagedExtra :=
  inj_countable' (fun e => (ex_MasterServer e, TGRewrites (ex_rules e), PCRewrites (ex_rules e), TypeRewrites (ex_rules e), SrcRewrites (ex_rules e), cfg_PassAllPC (ex_rules e), cfg_PassAllTG (ex_rules e)))
    (fun '(m, a, b, c, d, e, f) => mkManagedExtra m (mkRuleConfigs a b c d e f)) ltac:(by intros [? []]).

Fixpoint pos_text (p : positive) : list Z := match p with xH => [88] | xO p => 79 :: pos_text p | xI p => 73 :: pos_text p end.
Fixpoint text_pos (l : list Z) : option positive :=
  match l with 88 :: _ => Some xH | 79 :: l => xO <$> text_pos l | 73 :: l => xI <$> text_pos l | _ => None end.
Lemma text_pos_text p : text_pos (pos_text p) = Some p.
Proof. induction p as [p IH | p IH |]; cbn; [by rewrite IH | by rewrite IH | done]. Qed.
Lemma pos_text_print p : Forall (fun c => 73 <= c <= 88) (pos_text p).
Proof. induction p as [p IH | p IH |]; cbn; repeat constructor; try lia; exact IH. Qed.

Lemma pos_text_trimmed p : TrimSpace_text (bytes_str (pos_text p)) = bytes_str (pos_text p).
Proof.
  pose proof (pos_text_print p) as Hp. unfold TrimSpace_text. rewrite bytes_of_str by (eapply Forall_impl; [exact Hp |]; unfold is_byte; lia). f_equal. apply trim_text.
  rewrite Forall_forall in Hp. split.
  - apply Forall_forall. intros c Hc. specialize (Hp c Hc). cbn in Hp. lia.
  - intros E. assert (32 ∈ pos_text p) as Hin by (destruct (pos_text p); [done |]; injection E as ->; by left). specialize (Hp _ Hin). cbn in Hp. lia.
  - intros E. apply last_Some_elem_of, Hp in E. cbn in E. lia.
Qed.

#[local] Instance sample_json : ExtraJson := {|
  marshal_extra e := if decide (e = no_extra) then "{}" else bytes_str (pos_text (encode e));
  unmarshal_extra s := if decide (s = "{}") then Some no_extra else text_pos (str_bytes s) ≫= decode
|}.
Lemma pos_text_start p : exists c l, pos_text p = c :: l /\ 73 <= c <= 88.
Proof. pose proof (pos_text_print p) as Hp. destruct p; cbn in *; eexists _, _; (split; [reflexivity |]); lia. Qed.
Lemma pos_text_bytes p : str_bytes (bytes_str (pos_text p)) = pos_text p.
Proof. apply bytes_of_str. eapply Forall_impl; [apply pos_text_print |]. unfold is_byte. lia. Qed.
Lemma pos_text_not p s : str_bytes s = [] \/ (exists c l, str_bytes s = c :: l /\ 88 < c) -> bytes_str (pos_text p) <> s.
Proof.
  intros Hs E. apply (f_equal str_bytes) in E. rewrite pos_text_bytes in E. destruct (pos_text_start p) as (c & l & Ec & Hc). rewrite Ec in E.
  destruct Hs as [Hs | (c' & l' & Hs & Hc')]; rewrite Hs in E; [done |]. injection E as -> _. lia.
Qed.
#[local] Instance sample_json_laws : ExtraJsonLaws.
Proof.
  assert (Hb : exists c l, str_bytes "{}" = c :: l /\ 88 < c) by (by exists 123, [125]).
  split; intros e; cbn [marshal_extra unmarshal_extra sample_json].
  - intros _. destruct (decide (e = no_extra)) as [-> | Hne]; [by rewrite decide_True |].
    rewrite decide_False by (apply pos_text_not; by right). rewrite pos_text_bytes, text_pos_text. cbn. apply decode_encode.
  - destruct (decide (e = no_extra)); [reflexivity | apply pos_text_trimmed].
  - destruct (decide (e = no_extra)); [done | apply pos_text_not; by left].
  - destruct (decide (e = no_extra)); [done |]. split; [| done]. intros E. exfalso. revert E. apply pos_text_not. by right.
Qed.

Definition sample_link : MMDVM :=
  mkMMDVM "mmdvm-upstream:0a1b2c" "BM" "N0CALL" 3120001 430000000 430000000 10 1 0 0 0 "Springfield" "" "" 0 "master.example:62031" "" "secret"
    (mkRuleConfigs [mkRewriteConfig 1 1 2 46001 1] [] [] [] [] []).

(** The link is new, and then it is stored once more with another frequency. *)
Definition retuned_link : MMDVM := Eval vm_compute in
  mkMMDVM (SourceKey sample_link) (Name sample_link) (Callsign sample_link) (ID sample_link) 439000000 (TXFreq sample_link) (TXPower sample_link) (cfg_ColorCode sample_link)
    (Latitude sample_link) (Longitude sample_link) (Height sample_link) (Location sample_link) (Description sample_link) (URL sample_link) (Slots sample_link)
    (MasterServer sample_link) "" (Password sample_link) (cfg_rules sample_link).
Definition linked_db : Database := Eval vm_compute in fst (Store.UpsertDevice (ConfigToDevice sample_link) sample_time sample_db).

Lemma link_stored_witness :
  exists db' d, Store.UpsertDevice (ConfigToDevice retuned_link) sample_time linked_db = (db', inl d) /\ DeviceToConfig d = Some (normal_config retuned_link) /\
    Slots (normal_config retuned_link) = 3.
Proof.
  destruct (link_stored retuned_link sample_time linked_db) as (db' & d & E1 & E2 & _).
  - split; [split; [reflexivity | done] | repeat constructor | split; [reflexivity | split; [done | reflexivity]]].
  - split; try (split; by_eval); by_eval.
  - by apply Forall_nil_2.
  - vm_compute. reflexivity.
  - intros r Hr _. unfold linked_db in Hr. cbn [tables devices] in Hr. repeat (apply elem_of_cons in Hr as [-> | Hr]; [split; repeat constructor; intros; first [done | reflexivity] |]). by apply not_elem_of_nil in Hr.
  - exists db', d. split; [exact E1 |]. split; [exact E2 |]. reflexivity.
Defined.

End example.
