(* ===== verification/Web.v ===== *)
(** * The web server (internal/web/server.go, auth.go)

    Every request is answered by a handler that looks at the session cookie, checks
    what the user may do, and works on the registry, its database and the routing
    table.  JSON decoding is a parameter with one function for each kind of body;
    so are bcrypt and the address parser of net/mail.  The clock, random tokens and
    salts are arguments.  What is sent is the status and the value that is encoded
    as JSON. *)

From Stdlib Require Import Ascii QArith.
From S2P Require Import Prelude Strings Text Rewrite Routing Rptc Config NrlFrame Dmrid TimeText RegistryTypes Store Registry Managed.
#[local] Open Scope Z_scope.

(** ** Payloads *)

Record RegisterPayload := mkRegister { rg_Username : string; rg_Callsign : string; rg_Email : string; rg_Password : string }.
Record LoginPayload := mkLogin { lg_Username : string; lg_Password : string }.
Record NewUserPayload := mkNewUser { nu_profile : RegisterPayload; nu_Role : string; nu_Enabled : bool }.
Record UserPatchPayload := mkUserPatch {
  pp_Username : option string; pp_Callsign : option string; pp_Email : option string; pp_Role : option string; pp_Enabled : option bool }.

(** The rewrite rules are those of config.MMDVM. *)
Record deviceUpdatePayload := mkUpdate {
  up_OwnerUserID : option Z; up_Name : option string; up_Callsign : option string; up_Notes : option string; up_Disabled : option bool; up_DMRID : option Z;
  up_Model : option string; up_Description : option string; up_Location : option string; up_DevicePassword : option string; up_NRLServerAddr : option string;
  up_NRLServerPort : option Z; up_NRLSSID : option Z; up_NRLUDPPort : option Z; up_NRLSlot : option Z; up_RXFreq : option Z; up_TXFreq : option Z; up_TXPower : option Z;
  up_ColorCode : option Z; up_Latitude : option Q; up_Longitude : option Q; up_Height : option Z; up_URL : option string; up_Slots : option Z;
  up_MasterServer : option string; up_TGRewrites : option (list RewriteConfig); up_PCRewrites : option (list RewriteConfig); up_TypeRewrites : option (list RewriteConfig);
  up_SrcRewrites : option (list RewriteConfig); up_PassAllPC : option (list Z); up_PassAllTG : option (list Z); up_StaticSlot1 : option (list Z); up_StaticSlot2 : option (list Z)
}.
Record deviceCreatePayload := mkCreate {
  cr_Protocol : string; cr_Name : string; cr_Callsign : string; cr_DMRID : Z; cr_Model : string; cr_Description : string; cr_Location : string; cr_Notes : string;
  cr_NRLServerAddr : string; cr_NRLServerPort : Z; cr_NRLSSID : Z; cr_NRLUDPPort : Z; cr_NRLSlot : Z; cr_DevicePassword : string; cr_RXFreq : Z; cr_TXFreq : Z;
  cr_TXPower : Z; cr_ColorCode : Z; cr_Latitude : Q; cr_Longitude : Q; cr_Height : Z; cr_URL : string; cr_Slots : Z; cr_MasterServer : string; cr_rules : RuleConfigs;
  cr_StaticGroups : list Z
}.

(** What is outside: [None] is an error. *)
Class WebEnv := {
  decode_register : string -> option RegisterPayload;
  decode_login : string -> option LoginPayload;
  decode_new_user : string -> option NewUserPayload;
  decode_user_patch : string -> option UserPatchPayload;
  decode_password : string -> option string;
  decode_device_update : string -> option deviceUpdatePayload;
  decode_device_create : string -> option deviceCreatePayload;
  (** [mail.ParseAddress] accepts the address *)
  address_parses : string -> bool;
  (** bcrypt, with the salt that is drawn *)
  HashPassword : Z -> string -> option string;
  CheckPassword : string -> string -> bool
}.

Record Request := mkRequest { rq_Method : string; rq_Path : string; rq_Cookie : option string; rq_Body : string }.
Inductive Output := ErrorText | OkOut | UserOut (u : User) | UsersOut (l : list User) | DeviceOut (d : Device) | 
  SnapshotOut (devices : list Device) (calls : list CallRecord) (total : Z) (groups : gmap string (list GroupSubscription * list GroupSubscription)) | UiOut.
Record Response := mkResponse { rs_Status : Z; rs_Out : Output }.

(** The clock, a token from crypto/rand (none when it fails) and a salt. *)
Record Draw := mkDraw { dr_now : time; dr_token : option string; dr_salt : Z }.

Record sessionState := mkSession { ss_UserID : Z; ss_CreatedAt : time }.
#[export] Instance sessionState_eq_dec : EqDecision sessionState.
Proof. solve_decision. Defined.

Section web.
Context `{Unicode} `{ExtraJson} `{WebEnv} `{Autoincrement} `{RegistryOrder}.

(** The handler for changed devices, if there is one, is called with the entries of
    [wb_changed]. *)
Record WebServer := mkWeb {
  wb_registry : Service;
  wb_router : option SubscriptionManager;
  wb_sessions : gmap string sessionState;
  wb_changed : list (string * Device)
}.
Definition with_registry s v := mkWeb v (wb_router s) (wb_sessions s) (wb_changed s).
Definition with_router s v := mkWeb (wb_registry s) v (wb_sessions s) (wb_changed s).
Definition with_sessions s v := mkWeb (wb_registry s) (wb_router s) v (wb_changed s).
Definition changed s e := mkWeb (wb_registry s) (wb_router s) (wb_sessions s) (wb_changed s ++ [e]).

(** An operation of the store through the service. *)
Definition on_store {A} (m : action A) (s : WebServer) : WebServer * (A + sql_error) :=
  let '(db, r) := m (sv_store (wb_registry s)) in (with_registry s (with_store (wb_registry s) (db : Db)), r).
Definition route (f : SubscriptionManager -> SubscriptionManager) (s : WebServer) : WebServer := with_router s (f <$> wb_router s).

Definition error (code : Z) : Response := mkResponse code ErrorText.

(** ** Accounts *)

Definition validateUserProfile (username callsign email : string) : bool :=
  (3 <=? Z.of_nat (String.length (TrimSpace_text username))) && negb (text_eq (TrimSpace_text callsign) "") && address_parses (TrimSpace_text email).
Definition validateRegistration (p : RegisterPayload) : bool :=
  validateUserProfile (rg_Username p) (rg_Callsign p) (rg_Email p) && (8 <=? Z.of_nat (String.length (rg_Password p))).

Definition ToUpper_text (s : string) : string := bytes_str (ToUpper (str_bytes s)).
Definition sanitizeUser (u : User) : User :=
  mkUser (u_ID u) (u_Username u) (u_Callsign u) (u_Email u) "" (u_Role u) (u_Enabled u) (u_CreatedAt u) (u_UpdatedAt u) (u_LastLoginAt u).
Definition new_user (p : RegisterPayload) (hash role : string) (enabled : bool) : User :=
  mkUser 0 (TrimSpace_text (rg_Username p)) (ToUpper_text (TrimSpace_text (rg_Callsign p))) (TrimSpace_text (rg_Email p)) hash role enabled 0 0 0.

Definition create_account (s : WebServer) (p : RegisterPayload) (role : string) (enabled : bool) (dr : Draw) : WebServer * Response :=
  if negb (validateRegistration p) then (s, error 400)
  else match HashPassword (dr_salt dr) (rg_Password p) with
    | None => (s, error 500)
    | Some hash =>
        match on_store (CreateUser (new_user p hash role enabled) (dr_now dr)) s with
        | (s, inl user) => (s, mkResponse 201 (UserOut (sanitizeUser user)))
        | (s, inr _) => (s, error 400)
        end
    end.

Definition handleRegister (s : WebServer) (r : Request) (dr : Draw) : WebServer * Response :=
  if negb (text_eq (rq_Method r) "POST") then (s, error 405)
  else match decode_register (rq_Body r) with
    | None => (s, error 400)
    | Some p => create_account s p "ham" false dr
    end.

(** The user a login names, by username or else by callsign. *)
Definition login_user (loginID : string) (s : WebServer) : WebServer * (User + sql_error) :=
  match on_store (UserByUsername loginID) s with
  | (s, inr ErrNoRows) => on_store (UserByCallsign loginID) s
  | r => r
  end.

Definition handleLogin (s : WebServer) (r : Request) (dr : Draw) : WebServer * Response :=
  if negb (text_eq (rq_Method r) "POST") then (s, error 405)
  else match decode_login (rq_Body r) with
    | None => (s, error 400)
    | Some p =>
        match login_user (TrimSpace_text (lg_Username p)) s with
        | (s, inr ErrNoRows) => (s, error 401)
        | (s, inr ErrSql) => (s, error 500)
        | (s, inl user) =>
            if negb (u_Enabled user) then (s, error 403)
            else if negb (CheckPassword (u_PasswordHash user) (lg_Password p)) then (s, error 401)
            else match dr_token dr with
              | None => (s, error 500)
              | Some token =>
                  let s := with_sessions s (<[token := mkSession (u_ID user) (dr_now dr)]> (wb_sessions s)) in
                  let '(s, _) := on_store (UpdateUserLastLogin (u_ID user) (dr_now dr)) s in
                  (s, mkResponse 200 (UserOut (sanitizeUser user)))
              end
        end
    end.

Definition currentUser (s : WebServer) (r : Request) : WebServer * option User :=
  match rq_Cookie r with
  | None => (s, None)
  | Some token =>
      match wb_sessions s !! token with
      | None => (s, None)
      | Some session =>
          match on_store (UserByID (ss_UserID session)) s with
          | (s, inr _) => (s, None)
          | (s, inl user) => (s, if u_Enabled user then Some user else None)
          end
      end
  end.

Definition withAuth (next : WebServer -> Request -> User -> WebServer * Response) (s : WebServer) (r : Request) : WebServer * Response :=
  match currentUser s r with
  | (s, None) => (s, error 401)
  | (s, Some user) => next s r user
  end.
Definition withAdmin (next : WebServer -> Request -> User -> WebServer * Response) : WebServer -> Request -> WebServer * Response :=
  withAuth (fun s r user => if negb (text_eq (u_Role user) "admin") then (s, error 403) else next s r user).

Definition handleLogout (s : WebServer) (r : Request) (_ : User) : WebServer * Response :=
  if negb (text_eq (rq_Method r) "POST") then (s, error 405)
  else (match rq_Cookie r with Some token => with_sessions s (delete token (wb_sessions s)) | None => s end, mkResponse 200 OkOut).

Definition handleMe (s : WebServer) (r : Request) (user : User) : WebServer * Response :=
  if negb (text_eq (rq_Method r) "GET") then (s, error 405) else (s, mkResponse 200 (UserOut (sanitizeUser user))).

(** ** Users, for administrators *)

Definition normal_role (role : string) : string := if text_eq role "admin" then "admin" else "ham".

Definition handleUsers (s : WebServer) (r : Request) (_ : User) (dr : Draw) : WebServer * Response :=
  if text_eq (rq_Method r) "GET" then
    match on_store ListUsers s with
    | (s, inl users) => (s, mkResponse 200 (UsersOut (sanitizeUser <$> users)))
    | (s, inr _) => (s, error 500)
    end
  else if text_eq (rq_Method r) "POST" then
    match decode_new_user (rq_Body r) with
    | None => (s, error 400)
    | Some p => create_account s (nu_profile p) (normal_role (nu_Role p)) (nu_Enabled p) dr
    end
  else (s, error 405).

(** [strconv.ParseInt(s, 10, 64)] *)
Definition ParseInt (s : list Z) : option Z :=
  let '(neg, digits) := match s with 45 :: r => (true, r) | 43 :: r => (false, r) | _ => (false, s) end in
  if bool_decide (digits = []) || negb (forallb digit digits) then None
  else
    let v := if (neg : bool) then - number digits else number digits in
    if (- 2 ^ 63 <=? v) && (v <? 2 ^ 63) then Some v else None.
Definition path_id (prefix path : string) : option Z := ParseInt (str_bytes (trim_prefix prefix path)).

Definition reset_suffix : list Z := str_bytes "/reset-password".
(** The part before the suffix, when it is there. *)
Definition reset_id (path : list Z) : option (list Z) :=
  let n := (length path - length reset_suffix)%nat in
  if (length reset_suffix <=? length path)%nat && bool_decide (drop n path = reset_suffix) then Some (take n path) else None.

Definition with_hash (u : User) (hash : string) : User :=
  mkUser (u_ID u) (u_Username u) (u_Callsign u) (u_Email u) hash (u_Role u) (u_Enabled u) (u_CreatedAt u) (u_UpdatedAt u) (u_LastLoginAt u).
Definition patched_user (u : User) (p : UserPatchPayload) : User :=
  mkUser (u_ID u) (default (u_Username u) (TrimSpace_text <$> pp_Username p)) (default (u_Callsign u) ((fun c => ToUpper_text (TrimSpace_text c)) <$> pp_Callsign p))
    (default (u_Email u) (TrimSpace_text <$> pp_Email p)) (u_PasswordHash u) (default (u_Role u) (normal_role <$> pp_Role p)) (default (u_Enabled u) (pp_Enabled p))
    (u_CreatedAt u) (u_UpdatedAt u) (u_LastLoginAt u).

Definition update_account (s : WebServer) (u : User) (dr : Draw) : WebServer * Response :=
  match on_store (UpdateUser u (dr_now dr)) s with
  | (s, inl user) => (s, mkResponse 200 (UserOut (sanitizeUser user)))
  | (s, inr _) => (s, error 400)
  end.

Definition resetPassword (s : WebServer) (r : Request) (idPart : list Z) (dr : Draw) : WebServer * Response :=
  match ParseInt idPart with
  | None => (s, error 400)
  | Some id =>
      if negb (text_eq (rq_Method r) "POST") then (s, error 405)
      else match decode_password (rq_Body r) with
        | None => (s, error 400)
        | Some password =>
            if Z.of_nat (String.length password) <? 8 then (s, error 400)
            else match on_store (UserByID id) s with
              | (s, inr _) => (s, error 404)
              | (s, inl user) =>
                  match HashPassword (dr_salt dr) password with
                  | None => (s, error 500)
                  | Some hash => update_account s (with_hash user hash) dr
                  end
              end
        end
  end.

Definition handleUserByID (s : WebServer) (r : Request) (_ : User) (dr : Draw) : WebServer * Response :=
  let path := str_bytes (trim_prefix "/api/users/" (rq_Path r)) in
  match reset_id path with
  | Some idPart => resetPassword s r idPart dr
  | None =>
      match ParseInt path with
      | None => (s, error 400)
      | Some id =>
          if text_eq (rq_Method r) "PATCH" then
            match decode_user_patch (rq_Body r) with
            | None => (s, error 400)
            | Some p =>
                match on_store (UserByID id) s with
                | (s, inr _) => (s, error 404)
                | (s, inl user) =>
                    let user := patched_user user p in
                    if negb (validateUserProfile (u_Username user) (u_Callsign user) (u_Email user)) then (s, error 400) else update_account s user dr
                end
            end
          else if text_eq (rq_Method r) "DELETE" then
            match on_store (DeleteUser id) s with
            | (s, inl _) => (s, mkResponse 200 OkOut)
            | (s, inr _) => (s, error 500)
            end
          else (s, error 405)
      end
  end.

(** ** Devices *)

Definition canManageDevice (user : User) (d : Device) : bool :=
  text_eq (u_Role user) "admin" || (negb (d_OwnerUserID d =? 0) && (d_OwnerUserID d =? u_ID user))
  || EqualFold (str_bytes (TrimSpace_text (d_Callsign d))) (str_bytes (TrimSpace_text (u_Callsign user))).

Definition normalizeStringPtr (value : option string) (upper : bool) : option string :=
  (fun v => if upper then ToUpper_text (TrimSpace_text v) else TrimSpace_text v) <$> value.

(** The service in front of the store. *)
Definition service_DeviceByID (id : Z) (s : WebServer) : WebServer * option Device :=
  match on_store (DeviceByID id) s with
  | (s, inl d) => (s, Some (enrichDevice (wb_registry s) d))
  | (s, inr _) => (s, None)
  end.
Definition service_op {A} (f : Service -> Service * A) (s : WebServer) : WebServer * A :=
  let '(reg, r) := f (wb_registry s) in (with_registry s reg, r).

Definition updated_rules (rules : RuleConfigs) (p : deviceUpdatePayload) : RuleConfigs :=
  mkRuleConfigs (default (TGRewrites rules) (up_TGRewrites p)) (default (PCRewrites rules) (up_PCRewrites p)) (default (TypeRewrites rules) (up_TypeRewrites p))
    (default (SrcRewrites rules) (up_SrcRewrites p)) (default (cfg_PassAllPC rules) (up_PassAllPC p)) (default (cfg_PassAllTG rules) (up_PassAllTG p)).

Definition buildManagedMMDVMConfig (current : Device) (p : deviceUpdatePayload) : option MMDVM :=
  let trim := fmap TrimSpace_text in
  cfg ← DeviceToConfig current;
  Some (mkMMDVM
    (SourceKey cfg) (default (Name cfg) (trim (up_Name p))) (default (Callsign cfg) (trim (up_Callsign p))) (default (ID cfg) (up_DMRID p))
    (default (RXFreq cfg) (up_RXFreq p)) (default (TXFreq cfg) (up_TXFreq p)) (default (TXPower cfg) (up_TXPower p)) (default (cfg_ColorCode cfg) (up_ColorCode p))
    (default (Latitude cfg) (up_Latitude p)) (default (Longitude cfg) (up_Longitude p)) (default (Height cfg) (up_Height p))
    (default (Location cfg) (trim (up_Location p))) (default (Description cfg) (trim (up_Description p))) (default (URL cfg) (trim (up_URL p)))
    (or_three (default (Slots cfg) (up_Slots p))) (default (MasterServer cfg) (trim (up_MasterServer p))) (Listen cfg)
    (default (Password cfg) (up_DevicePassword p)) (updated_rules (cfg_rules cfg) p)).

(** The new device of a link with the state of the old one. *)
Definition relinked (d old : Device) (owner : Z) (disabled : bool) : Device :=
  mkDevice
    (d_ID old) (d_Category d) (d_Protocol d) (d_SourceKey d) owner (d_Name d) (d_Callsign d) (d_DMRID d) (d_Model d) (d_Serial d) (d_IP d)
    (d_Port d) (d_Status old) (d_Online old) (d_FirstSeenAt old) (d_LastSeenAt old) (d_LastCallAt old) (d_RXFreq d) (d_TXFreq d) (d_TXPower d) (d_ColorCode d) (d_Latitude d)
    (d_Longitude d) (d_Height d) (d_Location d) (d_Description d) (d_URL d) (d_Slots d) (d_Notes d) (d_DevicePassword d) (d_NRLServerAddr d)
    (d_NRLServerPort d) (d_NRLSSID d) (d_NRLUDPPort d) (d_NRLSlot d) disabled (d_ExtraJSON d).

Definition updateLink (s : WebServer) (user : User) (device : Device) (p : deviceUpdatePayload) (now : time) : WebServer * Response :=
  match buildManagedMMDVMConfig device p with
  | None => (s, error 400)
  | Some cfg =>
      match ValidateMMDVMClients [cfg] with
      | Some _ => (s, error 400)
      | None =>
          let owner := if text_eq (u_Role user) "admin" then default (d_OwnerUserID device) (up_OwnerUserID p) else d_OwnerUserID device in
          match service_op (fun reg => UpsertDevice reg (relinked (ConfigToDevice cfg) device owner (default (d_Disabled device) (up_Disabled p))) now) s with
          | (s, None) => (s, error 500)
          | (s, Some stored) => (s, mkResponse 200 (DeviceOut stored))
          end
      end
  end.

(** The static groups of a slot, in the database and in the routing table. *)
Definition replace_slot (key : string) (slot : Z) (groups : list Z) (s : WebServer) : WebServer * bool :=
  match on_store (ReplaceStaticGroups key slot groups) s with
  | (s, inl _) => (route (fun m => ReplaceStatic m key slot groups) s, true)
  | (s, inr _) => (s, false)
  end.
Definition replace_given (key : string) (slot : Z) (groups : option (list Z)) (s : WebServer) : WebServer * bool :=
  match groups with None => (s, true) | Some groups => replace_slot key slot groups s end.

(** An NRL link has one slot with at most one group. *)
Definition nrl_slot (slot : Z) : Z := if slot =? 2 then 2 else 1.
Definition replace_nrl (d : Device) (p : deviceUpdatePayload) (s : WebServer) : WebServer * bool :=
  let slot := nrl_slot (d_NRLSlot d) in
  let groups := take 1 (default [] (if slot =? 1 then up_StaticSlot1 p else up_StaticSlot2 p)) in
  match on_store (ReplaceStaticGroups (d_SourceKey d) slot groups) s with
  | (s, inr _) => (s, false)
  | (s, inl _) =>
      match on_store (ReplaceStaticGroups (d_SourceKey d) (3 - slot) []) s with
      | (s, inr _) => (s, false)
      | (s, inl _) => (route (fun m => ReplaceStatic (ReplaceStatic m (d_SourceKey d) slot groups) (d_SourceKey d) (3 - slot) []) s, true)
      end
  end.

Definition device_patch (user : User) (p : deviceUpdatePayload) : option DevicePatch :=
  let admin := text_eq (u_Role user) "admin" in
  if negb admin && (bool_decide (is_Some (up_Callsign p)) || bool_decide (is_Some (up_OwnerUserID p)) || bool_decide (is_Some (up_DMRID p))) then None
  else Some (mkDevicePatch
    (if admin then up_OwnerUserID p else None) (up_Name p) (if admin then normalizeStringPtr (up_Callsign p) true else None) (up_Notes p) (up_Disabled p)
    (if admin then up_DMRID p else None) (up_Model p) (up_Description p) (up_Location p) (up_DevicePassword p) (up_NRLServerAddr p) (up_NRLServerPort p) (up_NRLSSID p)
    (up_NRLUDPPort p) (up_NRLSlot p)).

Definition without_callsign (p : deviceUpdatePayload) : deviceUpdatePayload :=
  mkUpdate (up_OwnerUserID p) (up_Name p) None (up_Notes p) (up_Disabled p) (up_DMRID p) (up_Model p) (up_Description p) (up_Location p) (up_DevicePassword p) (up_NRLServerAddr p)
    (up_NRLServerPort p) (up_NRLSSID p) (up_NRLUDPPort p) (up_NRLSlot p) (up_RXFreq p) (up_TXFreq p) (up_TXPower p) (up_ColorCode p) (up_Latitude p) (up_Longitude p) (up_Height p)
    (up_URL p) (up_Slots p) (up_MasterServer p) (up_TGRewrites p) (up_PCRewrites p) (up_TypeRewrites p) (up_SrcRewrites p) (up_PassAllPC p) (up_PassAllTG p) (up_StaticSlot1 p)
    (up_StaticSlot2 p).

Definition updateDevice (s : WebServer) (user : User) (device : Device) (id : Z) (p : deviceUpdatePayload) : WebServer * Response :=
  let blank := match up_Callsign p with Some c => text_eq (TrimSpace_text c) "" | None => false end in
  let p := if text_eq (d_Protocol device) "nrl-virtual" && blank then without_callsign p else p in
  match device_patch user p with
  | None => (s, error 403)
  | Some patch =>
      match service_op (fun reg => UpdateDeviceMetadata reg id patch) s with
      | (s, None) => (s, error 500)
      | (s, Some updated) =>
          let finish s := (changed s ("device_updated", updated), mkResponse 200 (DeviceOut updated)) in
          if negb (bool_decide (is_Some (up_StaticSlot1 p)) || bool_decide (is_Some (up_StaticSlot2 p))) then finish s
          else match service_DeviceByID id s with
            | (s, None) => (s, error 500)
            | (s, Some deviceByID) =>
                if text_eq (d_Protocol deviceByID) "nrl-virtual" then
                  match replace_nrl deviceByID p s with (s, true) => finish s | (s, false) => (s, error 500) end
                else match replace_given (d_SourceKey deviceByID) 1 (up_StaticSlot1 p) s with
                  | (s, false) => (s, error 500)
                  | (s, true) => match replace_given (d_SourceKey deviceByID) 2 (up_StaticSlot2 p) s with (s, true) => finish s | (s, false) => (s, error 500) end
                  end
            end
      end
  end.

Definition deleteDevice (s : WebServer) (user : User) (id : Z) : WebServer * Response :=
  if negb (text_eq (u_Role user) "admin") then (s, error 403)
  else match service_op (fun reg => DeleteDevice reg id) s with
    | (s, None) => (s, error 500)
    | (s, Some device) => (changed (route (fun m => RemoveDevice m (d_SourceKey device)) s) ("device_deleted", device), mkResponse 200 (DeviceOut device))
    end.

Definition handleDeviceUpdate (s : WebServer) (r : Request) (user : User) (dr : Draw) : WebServer * Response :=
  if negb (text_eq (rq_Method r) "PATCH") && negb (text_eq (rq_Method r) "DELETE") then (s, error 405)
  else match path_id "/api/devices/" (rq_Path r) with
    | None => (s, error 400)
    | Some id =>
        match service_DeviceByID id s with
        | (s, None) => (s, error 404)
        | (s, Some device) =>
            if negb (canManageDevice user device) then (s, error 403)
            else if text_eq (rq_Method r) "DELETE" then deleteDevice s user id
            else match decode_device_update (rq_Body r) with
              | None => (s, error 400)
              | Some p => if text_eq (d_Protocol device) "mmdvm-upstream" then updateLink s user device p (dr_now dr) else updateDevice s user device id p
              end
        end
    end.

Definition created_link (p : deviceCreatePayload) (token : string) : MMDVM :=
  mkMMDVM ("mmdvm-upstream:" +:+ token) (TrimSpace_text (cr_Name p)) (TrimSpace_text (cr_Callsign p)) (cr_DMRID p) (cr_RXFreq p) (cr_TXFreq p) (cr_TXPower p) (cr_ColorCode p)
    (cr_Latitude p) (cr_Longitude p) (cr_Height p) (TrimSpace_text (cr_Location p)) (TrimSpace_text (cr_Description p)) (TrimSpace_text (cr_URL p)) (or_three (cr_Slots p))
    (TrimSpace_text (cr_MasterServer p)) "" (cr_DevicePassword p) (cr_rules p).

Definition createLink (s : WebServer) (p : deviceCreatePayload) (dr : Draw) : WebServer * Response :=
  match dr_token dr with
  | None => (s, error 500)
  | Some token =>
      match ValidateMMDVMClients [created_link p token] with
      | Some _ => (s, error 400)
      | None =>
          match service_op (fun reg => UpsertDevice reg (ConfigToDevice (created_link p token)) (dr_now dr)) s with
          | (s, None) => (s, error 500)
          | (s, Some stored) => (s, mkResponse 201 (DeviceOut stored))
          end
      end
  end.

Definition nrl_device (p : deviceCreatePayload) (callsign token : string) (slot : Z) : Device :=
  let name := TrimSpace_text (cr_Name p) in
  mkDevice
    0 "nrl" "nrl-virtual" ("nrl-virtual:" +:+ token) 0 (if text_eq name "" then "NRL Virtual Link" else name) callsign (cr_DMRID p) (TrimSpace_text (cr_Model p)) "" "" 0
    "configured" false 0 0 0 0 0 0 0 0%Q 0%Q 0 (TrimSpace_text (cr_Location p)) (TrimSpace_text (cr_Description p)) "" 1 (cr_Notes p) ""
    (TrimSpace_text (cr_NRLServerAddr p)) (cr_NRLServerPort p) (cr_NRLSSID p) (cr_NRLUDPPort p) slot false "".

Definition handleDeviceCreate (s : WebServer) (r : Request) (user : User) (dr : Draw) : WebServer * Response :=
  if negb (text_eq (rq_Method r) "POST") then (s, error 405)
  else match decode_device_create (rq_Body r) with
    | None => (s, error 400)
    | Some p =>
        if EqualFold (str_bytes (TrimSpace_text (cr_Protocol p))) (str_bytes "mmdvm-upstream") then createLink s p dr
        else
          let slot := nrl_slot (cr_NRLSlot p) in
          let callsign := ToUpper_text (TrimSpace_text (cr_Callsign p)) in
          let callsign := if text_eq callsign "" then ToUpper_text (TrimSpace_text (u_Callsign user)) else callsign in
          if text_eq callsign "" then (s, error 400)
          else match dr_token dr with
            | None => (s, error 500)
            | Some token =>
                match service_op (fun reg => UpsertDevice reg (nrl_device p callsign token slot) (dr_now dr)) s with
                | (s, None) => (s, error 500)
                | (s, Some dev) =>
                    let groups := take 1 (cr_StaticGroups p) in
                    match replace_slot (d_SourceKey dev) slot groups s with
                    | (s, false) => (s, error 500)
                    | (s, true) =>
                        (changed (route (fun m => ReplaceStatic m (d_SourceKey dev) (3 - slot) []) s) ("device_created", dev), mkResponse 201 (DeviceOut dev))
                    end
                end
            end
    end.

(** ** Snapshots *)

Definition snapshotPayload (s : WebServer) (now : time) : WebServer * Response :=
  let '(devices, calls, total) := Snapshot (wb_registry s) in
  let '(router, groups) := match wb_router s with Some m => let '(m, groups) := SnapshotAll m now now in (Some m, groups) | None => (None, ∅) end in
  (with_router s router, mkResponse 200 (SnapshotOut devices calls total groups)).

(** With a session or without one, the answer has the same devices and calls. *)
Definition handleSnapshotPublic (s : WebServer) (r : Request) (dr : Draw) : WebServer * Response :=
  if negb (text_eq (rq_Method r) "GET") then (s, error 405)
  else let '(s, _) := currentUser s r in snapshotPayload s (dr_now dr).

(** The first message of a websocket, once the upgrade has succeeded. *)
Definition handleWS (s : WebServer) (r : Request) (dr : Draw) : WebServer * Response :=
  let '(s, _) := currentUser s r in
  let '(s, answer) := snapshotPayload s (dr_now dr) in
  (s, mkResponse 101 (rs_Out answer)).

(** ** Routes *)

Definition serve (s : WebServer) (r : Request) (dr : Draw) : WebServer * Response :=
  let path := rq_Path r in
  if text_eq path "/api/auth/register" then handleRegister s r dr
  else if text_eq path "/api/auth/login" then handleLogin s r dr
  else if text_eq path "/api/auth/logout" then withAuth handleLogout s r
  else if text_eq path "/api/auth/me" then withAuth handleMe s r
  else if text_eq path "/api/snapshot" then handleSnapshotPublic s r dr
  else if text_eq path "/api/devices" then withAdmin (fun s r user => handleDeviceCreate s r user dr) s r
  else if has_prefix "/api/devices/" path then withAuth (fun s r user => handleDeviceUpdate s r user dr) s r
  else if text_eq path "/api/users" then withAdmin (fun s r user => handleUsers s r user dr) s r
  else if has_prefix "/api/users/" path then withAdmin (fun s r user => handleUserByID s r user dr) s r
  else if text_eq path "/ws" then handleWS s r dr
  else if has_prefix "/api/" path then (s, error 404)
  else (s, mkResponse 200 UiOut).

(** ** What requests change *)

Definition db_tables (s : WebServer) : Tables := tables (sv_store (wb_registry s)).
(** The tables are in a relation, and the sessions the same. *)
Definition web_kept (S : Tables -> Tables -> Prop) (s s' : WebServer) : Prop := S (db_tables s) (db_tables s') /\ wb_sessions s' = wb_sessions s.

Section kept.
Context (S : Tables -> Tables -> Prop) (HS : device_statements S) `{!AutoincrementLaw}.
#[local] Instance kept_preorder : PreOrder S := st_preorder S HS.

Lemma web_kept_refl s : web_kept S s s.
Proof. split; reflexivity. Qed.
Lemma web_kept_trans s1 s2 s3 : web_kept S s1 s2 -> web_kept S s2 s3 -> web_kept S s1 s3.
Proof. intros [A1 B1] [A2 B2]. split; [by etrans | by rewrite B2, B1]. Qed.
Lemma kept_route f s : web_kept S s (route f s).
Proof. split; reflexivity. Qed.
Lemma kept_changed e s : web_kept S s (changed s e).
Proof. split; reflexivity. Qed.
Lemma kept_on_store {A} (m : action A) s : respects S m -> web_kept S s (fst (on_store m s)).
Proof. intros Hm. unfold on_store. destruct (Hm (sv_store (wb_registry s))) as [Hs _]. destruct (m _) as [db r]. split; [exact Hs | done]. Qed.

(** Operations of the service. *)
Definition service_kept (reg reg' : Service) : Prop := S (tables (sv_store reg)) (tables (sv_store reg')).
Lemma kept_service_op {A} (f : Service -> Service * A) s : (forall reg, service_kept reg (fst (f reg))) -> web_kept S s (fst (service_op f s)).
Proof. intros Hf. unfold service_op. specialize (Hf (wb_registry s)). destruct (f _) as [reg r]. split; [exact Hf | done]. Qed.

Lemma service_upsert reg d now : service_kept reg (fst (UpsertDevice reg d now)).
Proof.
  unfold UpsertDevice, service_kept. cbv zeta. cbn [store_UpsertDevice store_FindUserIDByCallsign store_AssignDeviceOwner sqlite_store]. unfold result.
  pose proof (respects_UpsertDevice S HS (enrichDevice reg d) now (sv_store reg)) as [A1 _].
  destruct (Store.UpsertDevice (enrichDevice reg d) now (sv_store reg)) as [db [stored | e]]; cbn [fst snd] in *; [| exact A1].
  match goal with |- context [let '(x, y) := ?o in _] => assert (Ho : S (tables (sv_store reg)) (tables (fst o))); [| destruct o as [db' stored']; exact Ho] end.
  destruct (_ && _); [| exact A1]. pose proof (respects_find S HS (d_Callsign stored) db) as [A2 _]. destruct (FindUserIDByCallsign _ db) as [db2 [owner | e]]; cbn [fst snd] in *; [| by etrans].
  destruct (owner =? 0); [by etrans |]. pose proof (respects_assign S HS (d_ID stored) owner db2) as [A3 _]. destruct (AssignDeviceOwner _ _ db2) as [db3 [d2 | e]]; cbn [fst snd] in *; (etrans; [exact A1 |]; by etrans).
Qed.
Lemma service_metadata reg id p : service_kept reg (fst (UpdateDeviceMetadata reg id p)).
Proof.
  unfold UpdateDeviceMetadata, service_kept. cbn [store_UpdateDeviceMetadata sqlite_store]. unfold result. pose proof (respects_metadata S HS id p (sv_store reg)) as [A1 _].
  destruct (Store.UpdateDeviceMetadata id p (sv_store reg)) as [db [d | e]]; exact A1.
Qed.
Lemma service_delete reg id : service_kept reg (fst (DeleteDevice reg id)).
Proof.
  unfold DeleteDevice, service_kept. cbn [store_DeleteDevice sqlite_store]. unfold result. pose proof (respects_delete S HS id (sv_store reg)) as [A1 _].
  destruct (Store.DeleteDevice id (sv_store reg)) as [db [d | e]]; exact A1.
Qed.

Lemma kept_find id s : web_kept S s (fst (service_DeviceByID id s)).
Proof.
  unfold service_DeviceByID. pose proof (kept_on_store (DeviceByID id) s ltac:(apply respects_query_row; exact _)) as K. destruct (on_store _ s) as [s1 [d | e]]; exact K.
Qed.
Lemma kept_currentUser s r : web_kept S s (fst (currentUser s r)).
Proof.
  unfold currentUser. destruct (rq_Cookie r) as [token |]; [| apply web_kept_refl]. destruct (wb_sessions s !! token) as [session |]; [| apply web_kept_refl].
  pose proof (kept_on_store (UserByID (ss_UserID session)) s ltac:(apply respects_query_row; exact _)) as K. destruct (on_store _ s) as [s1 [u | e]]; exact K.
Qed.
Lemma kept_snapshot s now : web_kept S s (fst (snapshotPayload s now)).
Proof.
  unfold snapshotPayload. destruct (Snapshot _) as [[devices calls] total], (match wb_router s with Some _ => _ | None => _ end) as [router groups]. exact (web_kept_refl s).
Qed.
Lemma kept_snapshots s r dr : web_kept S s (fst (handleSnapshotPublic s r dr)) /\ web_kept S s (fst (handleWS s r dr)).
Proof.
  unfold handleSnapshotPublic, handleWS. pose proof (kept_currentUser s r) as K. destruct (currentUser s r) as [s1 u]. cbn [fst] in K. pose proof (kept_snapshot s1 (dr_now dr)) as K2. split.
  - destruct (negb _); [apply web_kept_refl | by eapply web_kept_trans].
  - destruct (snapshotPayload s1 (dr_now dr)). by eapply web_kept_trans.
Qed.

Lemma kept_replace key slot groups s : web_kept S s (fst (replace_slot key slot groups s)).
Proof.
  unfold replace_slot. pose proof (kept_on_store (ReplaceStaticGroups key slot groups) s (respects_replace S HS _ _ _)) as K. destruct (on_store _ s) as [s1 [u | e]]; [| exact K].
  eapply web_kept_trans; [exact K | apply kept_route].
Qed.
Lemma kept_given key slot groups s : web_kept S s (fst (replace_given key slot groups s)).
Proof. destruct groups; [apply kept_replace | apply web_kept_refl]. Qed.
Lemma kept_nrl d p s : web_kept S s (fst (replace_nrl d p s)).
Proof.
  unfold replace_nrl. cbv zeta. set (slot := nrl_slot _). set (groups := take 1 _).
  pose proof (kept_on_store (ReplaceStaticGroups (d_SourceKey d) slot groups) s (respects_replace S HS _ _ _)) as K. destruct (on_store _ s) as [s1 [u | e]]; [| exact K].
  pose proof (kept_on_store (ReplaceStaticGroups (d_SourceKey d) (3 - slot) []) s1 (respects_replace S HS _ _ _)) as K2. destruct (on_store _ s1) as [s2 [u2 | e]]; (eapply web_kept_trans; [exact K |]); [| exact K2].
  eapply web_kept_trans; [exact K2 | apply kept_route].
Qed.

Lemma kept_link s user d p now : web_kept S s (fst (updateLink s user d p now)).
Proof.
  unfold updateLink. destruct (buildManagedMMDVMConfig d p) as [cfg |]; [| apply web_kept_refl]. destruct (ValidateMMDVMClients [cfg]); [apply web_kept_refl |]. cbv zeta.
  match goal with |- context [service_op ?f s] => pose proof (kept_service_op f s (fun reg => service_upsert reg _ _)) as K; destruct (service_op f s) as [s1 [d1 |]]; exact K end.
Qed.
Lemma kept_update s user d id p : web_kept S s (fst (updateDevice s user d id p)).
Proof.
  unfold updateDevice. cbv zeta. set (p1 := if _ && _ then _ else _). destruct (device_patch user p1) as [patch |]; [| apply web_kept_refl].
  pose proof (kept_service_op (fun reg => UpdateDeviceMetadata reg id patch) s (fun reg => service_metadata reg _ _)) as K. destruct (service_op _ s) as [s1 [updated |]]; [| exact K].
  eapply web_kept_trans; [exact K |]. cbn [fst]. destruct (negb _); [apply kept_changed |].
  pose proof (kept_find id s1) as K1. destruct (service_DeviceByID id s1) as [s2 [d2 |]]; [| exact K1]. eapply web_kept_trans; [exact K1 |]. cbn [fst]. destruct (text_eq (d_Protocol d2) _).
  - pose proof (kept_nrl d2 p1 s2) as K2. destruct (replace_nrl d2 p1 s2) as [s3 []]; (eapply web_kept_trans; [exact K2 |]); [apply kept_changed | apply web_kept_refl].
  - pose proof (kept_given (d_SourceKey d2) 1 (up_StaticSlot1 p1) s2) as K2. destruct (replace_given _ _ _ s2) as [s3 []]; (eapply web_kept_trans; [exact K2 |]); [| apply web_kept_refl]. cbn [fst].
    pose proof (kept_given (d_SourceKey d2) 2 (up_StaticSlot2 p1) s3) as K3. destruct (replace_given _ _ _ s3) as [s4 []]; (eapply web_kept_trans; [exact K3 |]); [apply kept_changed | apply web_kept_refl].
Qed.
Lemma kept_delete s user id : web_kept S s (fst (deleteDevice s user id)).
Proof.
  unfold deleteDevice. destruct (negb _); [apply web_kept_refl |]. pose proof (kept_service_op (fun reg => DeleteDevice reg id) s (fun reg => service_delete reg _)) as K.
  destruct (service_op _ s) as [s1 [d |]]; [| exact K]. eapply web_kept_trans; [exact K |]. split; reflexivity.
Qed.
Lemma kept_handleDeviceUpdate s r user dr : web_kept S s (fst (handleDeviceUpdate s r user dr)).
Proof.
  unfold handleDeviceUpdate. destruct (_ && _); [apply web_kept_refl |]. destruct (path_id _ _) as [id |]; [| apply web_kept_refl].
  pose proof (kept_find id s) as K. destruct (service_DeviceByID id s) as [s1 [d |]]; [| exact K]. eapply web_kept_trans; [exact K |]. cbn [fst].
  destruct (negb _); [apply web_kept_refl |]. destruct (text_eq _ _); [apply kept_delete |]. destruct (decode_device_update _) as [p |]; [| apply web_kept_refl].
  destruct (text_eq _ _); [apply kept_link | apply kept_update].
Qed.
Lemma kept_handleDeviceCreate s r user dr : web_kept S s (fst (handleDeviceCreate s r user dr)).
Proof.
  unfold handleDeviceCreate, createLink. cbv zeta. destruct (negb _); [apply web_kept_refl |]. destruct (decode_device_create _) as [p |]; [| apply web_kept_refl]. destruct (EqualFold _ _).
  - destruct (dr_token dr) as [token |]; [| apply web_kept_refl]. destruct (ValidateMMDVMClients _); [apply web_kept_refl |].
    match goal with |- context [service_op ?f s] => pose proof (kept_service_op f s (fun reg => service_upsert reg _ _)) as K; destruct (service_op f s) as [s1 [d1 |]]; exact K end.
  - destruct (text_eq _ _); [apply web_kept_refl |]. destruct (dr_token dr) as [token |]; [| apply web_kept_refl].
    match goal with |- context [service_op ?f s] => pose proof (kept_service_op f s (fun reg => service_upsert reg _ _)) as K; destruct (service_op f s) as [s1 [d1 |]]; [| exact K] end.
    eapply web_kept_trans; [exact K |]. cbn [fst].
    match goal with |- context [replace_slot ?k ?sl ?g s1] => pose proof (kept_replace k sl g s1) as K1; destruct (replace_slot k sl g s1) as [s2 []] end; (eapply web_kept_trans; [exact K1 |]); split; reflexivity.
Qed.

End kept.

(** ** Accounts are safe *)

Definition same_users (t t' : Tables) : Prop := users t' = users t.
Lemma same_users_devices : device_statements same_users.
Proof.
  unfold same_users. split; try done.
  - split; [by intros t | by intros t1 t2 t3 -> ->].
  - unfold insert_group. intros t g t' a. case_bool_decide; [done |]. by intros [= <- _].
  - intros a b t. unfold copy_groups. generalize (List.filter (fun g => text_eq (sg_SourceKey g) b) (static_groups t)) as l. intros l. revert t.
    induction l as [| g l IH]; intros t; [done |]. cbn [foldl]. destruct (insert_group t _) as [[t' []] |] eqn:E; [| apply IH].
    unfold insert_group in E. case_bool_decide; [done |]. injection E as <-. apply (IH (set_groups _ _)).
  - unfold upsert_device. intros d t t' a. cbv zeta. destruct (existsb _ _); [by intros [= <- _] |]. destruct (rowid_limit <? _); [done |]. by intros [= <- _].
Qed.

(** Every enabled account was there before, with the same role and password. *)
Definition accounts_kept (t t' : Tables) : Prop :=
  forall r', r' ∈ users t' -> u_Enabled (us_columns r') = true -> exists r, r ∈ users t /\ us_columns r = us_columns r'.
#[local] Instance accounts_preorder : PreOrder accounts_kept.
Proof.
  split; [by intros t r Hr _; exists r |]. intros t1 t2 t3 K1 K2 r3 Hr3 He. destruct (K2 r3 Hr3 He) as (r2 & Hr2 & E2).
  destruct (K1 r2 Hr2) as (r1 & Hr1 & E1); [by rewrite E2 |]. exists r1. split; [done | congruence].
Qed.
Lemma same_users_accounts t t' : same_users t t' -> accounts_kept t t'.
Proof. intros E r Hr _. exists r. by rewrite <- E. Qed.
Lemma accounts_devices : device_statements accounts_kept.
Proof. destruct same_users_devices. split; [exact _ | | | | | | |]; intros; apply same_users_accounts; eauto. Qed.

Lemma accounts_create u now : u_Enabled u = false -> respects accounts_kept (CreateUser u now).
Proof.
  intros Hu. unfold CreateUser. apply respects_bind; [exact _ | | intros id; apply respects_query_row; exact _]. apply respects_sql; [exact _ |].
  intros t t' id E. unfold insert_user in E. cbv zeta in E. destruct (_ || _); [done |]. injection E as <- _. intros r Hr He. cbn [users set_users] in Hr.
  apply elem_of_app in Hr as [Hr | Hr]; [by exists r |]. apply list_elem_of_singleton in Hr as ->. cbn in He. congruence.
Qed.
Lemma accounts_login id w : respects accounts_kept (UpdateUserLastLogin id w).
Proof.
  unfold UpdateUserLastLogin. apply respects_exec; [exact _ |]. intros t r Hr He. cbn [users set_users] in Hr. apply list_elem_of_fmap in Hr as (r0 & -> & Hr0).
  exists r0. split; [done |]. by destruct (us_id r0 =? id).
Qed.

Context `{!AutoincrementLaw}.

Lemma kept_login_user S (HS : device_statements S) loginID s : web_kept S s (fst (login_user loginID s)).
Proof.
  pose proof (st_preorder S HS) as HP. unfold login_user. pose proof (kept_on_store S (UserByUsername loginID) s ltac:(apply respects_query_row; exact _)) as K.
  destruct (on_store _ s) as [s1 [u | []]]; [exact K | | exact K]. eapply web_kept_trans; [exact HS | exact K |]. apply kept_on_store. apply respects_query_row; exact _.
Qed.

Lemma accounts_register s r dr : accounts_kept (db_tables s) (db_tables (fst (handleRegister s r dr))).
Proof.
  unfold handleRegister, create_account. destruct (negb _); [reflexivity |]. destruct (decode_register _) as [p |]; [| reflexivity]. destruct (negb _); [reflexivity |].
  destruct (HashPassword _ _) as [hash |]; [| reflexivity].
  pose proof (kept_on_store accounts_kept (CreateUser (new_user p hash "ham" false) (dr_now dr)) s (accounts_create (new_user p hash "ham" false) (dr_now dr) eq_refl)) as [K _]. destruct (on_store _ s) as [s1 [u | e]]; exact K.
Qed.
Lemma accounts_handleLogin s r dr : accounts_kept (db_tables s) (db_tables (fst (handleLogin s r dr))).
Proof.
  unfold handleLogin. destruct (negb _); [reflexivity |]. destruct (decode_login _) as [p |]; [| reflexivity].
  pose proof (kept_login_user _ accounts_devices (TrimSpace_text (lg_Username p)) s) as [K _]. destruct (login_user _ s) as [s1 [u | []]]; [| exact K | exact K]. cbn [fst] in K.
  destruct (negb _); [exact K |]. destruct (negb _); [exact K |]. destruct (dr_token dr) as [token |]; [| exact K].
  set (s2 := with_sessions s1 _). pose proof (kept_on_store accounts_kept (UpdateUserLastLogin (u_ID u) (dr_now dr)) s2 (accounts_login _ _)) as [K2 _].
  destruct (on_store _ s2) as [s3 x]. cbn [fst] in *. etrans; [exact K | exact K2].
Qed.

(** C16: Without an administrator's session no account gains anything: after any request
    whose cookie is not that of an enabled administrator, every enabled account was
    enabled before with the same name, role and password hash.  Registering makes a
    disabled account. *)
Theorem accounts_safe s r dr :
  (forall user, snd (currentUser s r) = Some user -> u_Role user <> "admin") ->
  accounts_kept (db_tables s) (db_tables (fst (serve s r dr))).
Proof.
  intros Hna. pose proof (kept_currentUser _ accounts_devices s r) as [Kc _].
  assert (Hauth : forall next, (forall s user, web_kept accounts_kept s (fst (next s r user))) -> accounts_kept (db_tables s) (db_tables (fst (withAuth next s r)))).
  { intros next Hn. unfold withAuth. destruct (currentUser s r) as [s1 [user |]]; [| exact Kc]. etrans; [exact Kc | apply Hn]. }
  assert (Hadmin : forall next, accounts_kept (db_tables s) (db_tables (fst (withAdmin next s r)))).
  { intros next. unfold withAdmin, withAuth. destruct (currentUser s r) as [s1 [user |]]; [| exact Kc]. specialize (Hna user eq_refl).
    rewrite (bool_decide_eq_false_2 _ Hna : text_eq _ _ = false). exact Kc. }
  unfold serve. cbv zeta.
  destruct (text_eq _ _); [apply accounts_register |]. destruct (text_eq _ _); [apply accounts_handleLogin |].
  destruct (text_eq (rq_Path r) "/api/auth/logout").
  { unfold withAuth, handleLogout. destruct (currentUser s r) as [s1 [user |]]; [| exact Kc]. destruct (negb _); [exact Kc |]. destruct (rq_Cookie r); exact Kc. }
  destruct (text_eq _ _); [apply Hauth; intros s1 user; unfold handleMe; destruct (negb _); apply (web_kept_refl _ accounts_devices) |].
  destruct (text_eq _ _); [apply (proj1 (kept_snapshots _ accounts_devices s r dr)) |]. destruct (text_eq _ _); [apply Hadmin |].
  destruct (has_prefix _ _); [apply Hauth; intros s1 user; apply (kept_handleDeviceUpdate _ accounts_devices) |].
  destruct (text_eq _ _); [apply Hadmin |]. destruct (has_prefix _ _); [apply Hadmin |]. destruct (text_eq _ _); [apply (proj2 (kept_snapshots _ accounts_devices s r dr)) |].
  destruct (has_prefix _ _); reflexivity.
Qed.

(** ** Sessions come from logins *)

Lemma on_store_sessions {A} (m : action A) s : wb_sessions (fst (on_store m s)) = wb_sessions s.
Proof. unfold on_store. by destruct (m _). Qed.

Lemma create_sessions s p role enabled dr : wb_sessions (fst (create_account s p role enabled dr)) = wb_sessions s.
Proof.
  unfold create_account. destruct (negb _); [done |]. destruct (HashPassword _ _) as [hash |]; [| done].
  pose proof (on_store_sessions (CreateUser (new_user p hash role enabled) (dr_now dr)) s) as K. destruct (on_store _ s) as [s1 [u | e]]; exact K.
Qed.
Lemma update_sessions s u dr : wb_sessions (fst (update_account s u dr)) = wb_sessions s.
Proof. unfold update_account. pose proof (on_store_sessions (UpdateUser u (dr_now dr)) s) as K. destruct (on_store _ s) as [s1 [v | e]]; exact K. Qed.

Lemma users_sessions s r u dr : wb_sessions (fst (handleUsers s r u dr)) = wb_sessions s.
Proof.
  unfold handleUsers. destruct (text_eq _ _).
  - pose proof (on_store_sessions ListUsers s) as K. destruct (on_store _ s) as [s1 [l | e]]; exact K.
  - destruct (text_eq _ _); [| done]. destruct (decode_new_user _) as [p |]; [apply create_sessions | done].
Qed.
Lemma reset_sessions s r i dr : wb_sessions (fst (resetPassword s r i dr)) = wb_sessions s.
Proof.
  unfold resetPassword. destruct (ParseInt i) as [id |]; [| done]. destruct (negb _); [done |]. destruct (decode_password _) as [pw |]; [| done]. destruct (_ <? 8); [done |].
  pose proof (on_store_sessions (UserByID id) s) as K. destruct (on_store _ s) as [s1 [v | e]]; [| exact K]. destruct (HashPassword _ _); [| exact K]. by rewrite update_sessions.
Qed.
Lemma user_sessions s r u dr : wb_sessions (fst (handleUserByID s r u dr)) = wb_sessions s.
Proof.
  unfold handleUserByID. cbv zeta. destruct (reset_id _) as [i |]; [apply reset_sessions |]. destruct (ParseInt _) as [id |]; [| done]. destruct (text_eq _ _).
  - destruct (decode_user_patch _) as [p |]; [| done]. pose proof (on_store_sessions (UserByID id) s) as K. destruct (on_store _ s) as [s1 [v | e]]; [| exact K].
    destruct (negb _); [exact K |]. by rewrite update_sessions.
  - destruct (text_eq _ _); [| done]. pose proof (on_store_sessions (DeleteUser id) s) as K. destruct (on_store _ s) as [s1 [v | e]]; exact K.
Qed.

(** A login with the password of an enabled user, who gets the token. *)
Definition login_ok (s : WebServer) (r : Request) (dr : Draw) (token : string) (session : sessionState) : Prop :=
  exists p row, rq_Path r = "/api/auth/login" /\ decode_login (rq_Body r) = Some p /\ dr_token dr = Some token /\
    row ∈ users (db_tables s) /\ us_id row = ss_UserID session /\ u_Enabled (us_columns row) = true /\
    CheckPassword (u_PasswordHash (us_columns row)) (lg_Password p) = true.

Lemma query_row_inl {A} (f : Tables -> option A) db db' a : query_row f db = (db', inl a) -> f (tables db) = Some a.
Proof.
  unfold query_row. intros E. apply bind_inl in E as (db1 & x & E1 & E). apply sql_inl in E1. injection E1 as _ <-.
  destruct (f (tables db)) as [b |]; [| done]. apply ret_inl in E as [_ ->]. done.
Qed.
Lemma query_row_tables {A} (f : Tables -> option A) db : tables (fst (query_row f db)) = tables db.
Proof. unfold query_row, bind, query, sql. destruct (faults db) as [| [] ?]; cbn; by destruct (f (tables db)). Qed.
Lemma found_user p (s : WebServer) s' u : on_store (query_row (find_user p)) s = (s', inl u) -> exists row, row ∈ users (db_tables s) /\ u = scanUser row.
Proof.
  unfold on_store. destruct (query_row (find_user p) (sv_store (wb_registry s))) as [db r] eqn:E. intros [= _ ->]. apply query_row_inl in E. unfold find_user in E.
  destruct (List.find _ _) as [row |] eqn:Ef; [| done]. injection E as <-. apply find_some in Ef as [Hin _]. exists row. split; [by apply list_elem_of_In | done].
Qed.

Lemma login_sessions s r dr token session : rq_Path r = "/api/auth/login" ->
  wb_sessions (fst (handleLogin s r dr)) !! token = Some session -> wb_sessions s !! token <> Some session -> login_ok s r dr token session.
Proof.
  intros Hpath. unfold handleLogin. destruct (negb _); [done |]. destruct (decode_login _) as [p |] eqn:Ed; [| done].
  pose proof (kept_login_user _ same_users_devices (TrimSpace_text (lg_Username p)) s) as [_ K].
  assert (Hrow : forall s1 u, login_user (TrimSpace_text (lg_Username p)) s = (s1, inl u) -> exists row, row ∈ users (db_tables s) /\ u = scanUser row).
  { intros s1 u. unfold login_user. destruct (on_store (UserByUsername _) s) as [s2 [v | []]] eqn:E1; [intros [= <- <-]; by apply found_user in E1 | | done].
    intros E2. assert (Et : users (db_tables s2) = users (db_tables s)).
    { unfold on_store in E1. pose proof (query_row_tables (find_user (fun u => text_eq (sql_lower (u_Username u)) (sql_lower (TrimSpace_text (TrimSpace_text (lg_Username p)))))) (sv_store (wb_registry s))) as Hq.
      unfold UserByUsername in E1. destruct (query_row _ _) as [db x]. injection E1 as <- _. unfold db_tables. cbn [fst wb_registry with_registry sv_store with_store] in *. by rewrite Hq. }
    rewrite <- Et. by apply found_user in E2. }
  destruct (login_user _ s) as [s1 [u | []]]; cbn [fst] in *; [| by rewrite K | by rewrite K]. destruct (Hrow s1 u eq_refl) as (row & Hin & ->).
  destruct (u_Enabled (scanUser row)) eqn:He; cbn [negb]; [| by cbn [fst]; rewrite K]. destruct (CheckPassword _ _) eqn:Hpw; cbn [negb]; [| by cbn [fst]; rewrite K].
  destruct (dr_token dr) as [tok |] eqn:Et; [| by cbn [fst]; rewrite K]. set (s2 := with_sessions s1 _). pose proof (on_store_sessions (UpdateUserLastLogin (u_ID (scanUser row)) (dr_now dr)) s2) as K2.
  destruct (on_store _ s2) as [s3 x]. cbn [fst] in *. rewrite K2. subst s2. cbn [wb_sessions with_sessions]. intros Hl Hne.
  apply lookup_insert_Some in Hl as [[<- <-] | [_ Hl]]; [| by rewrite K in Hl]. exists p, row. repeat (split; [done |]). split; [| done]. cbn in He. by destruct (u_Enabled (us_columns row)).
Qed.

Lemma step_sessions s r dr token session :
  wb_sessions (fst (serve s r dr)) !! token = Some session -> wb_sessions s !! token <> Some session -> login_ok s r dr token session.
Proof.
  intros Hl Hne. destruct (decide (rq_Path r = "/api/auth/login")) as [Ep | Ep].
  { unfold serve in Hl. rewrite Ep in Hl. cbn in Hl. by apply login_sessions. }
  exfalso. apply Hne. pose proof (kept_currentUser _ same_users_devices s r) as [_ Kc].
  assert (Hauth : forall next, (forall s1 user, wb_sessions s1 = wb_sessions s -> wb_sessions (fst (next s1 r user)) !! token = Some session -> wb_sessions s !! token = Some session) ->
    wb_sessions (fst (withAuth next s r)) !! token = Some session -> wb_sessions s !! token = Some session).
  { intros next Hn. unfold withAuth. destruct (currentUser s r) as [s1 [user |]]; cbn [fst] in *; [by apply Hn | by rewrite Kc]. }
  assert (Hadmin : forall next, (forall s1 user, wb_sessions s1 = wb_sessions s -> wb_sessions (fst (next s1 r user)) !! token = Some session -> wb_sessions s !! token = Some session) ->
    wb_sessions (fst (withAdmin next s r)) !! token = Some session -> wb_sessions s !! token = Some session).
  { intros next Hn. apply Hauth. intros s1 user E. destruct (negb _); [by rewrite <- E | by apply Hn]. }
  revert Hl. unfold serve. cbv zeta. destruct (text_eq _ _).
  { unfold handleRegister. destruct (negb _); [done |]. destruct (decode_register _); [by rewrite create_sessions | done]. }
  rewrite (bool_decide_eq_false_2 _ Ep : text_eq _ _ = false).
  destruct (text_eq _ _).
  { apply Hauth. intros s1 user E. unfold handleLogout. destruct (negb _); [by rewrite <- E |]. cbn [fst]. destruct (rq_Cookie r); [| by rewrite <- E].
    cbn [wb_sessions with_sessions]. intros Hd. apply lookup_delete_Some in Hd as [_ Hd]. by rewrite <- E. }
  destruct (text_eq _ _); [apply Hauth; intros s1 user E; unfold handleMe; destruct (negb _); by rewrite <- E |].
  destruct (text_eq _ _); [by rewrite (proj2 (proj1 (kept_snapshots _ same_users_devices s r dr))) |].
  destruct (text_eq _ _); [apply Hadmin; intros s1 user E; by rewrite (proj2 (kept_handleDeviceCreate _ same_users_devices s1 r user dr)), E |].
  destruct (has_prefix _ _); [apply Hauth; intros s1 user E; by rewrite (proj2 (kept_handleDeviceUpdate _ same_users_devices s1 r user dr)), E |].
  destruct (text_eq _ _); [apply Hadmin; intros s1 user E; by rewrite users_sessions, E |].
  destruct (has_prefix _ _); [apply Hadmin; intros s1 user E; by rewrite user_sessions, E |].
  destruct (text_eq _ _); [by rewrite (proj2 (proj2 (kept_snapshots _ same_users_devices s r dr))) |]. by destruct (has_prefix _ _).
Qed.

Definition web_run (s : WebServer) (evs : list (Request * Draw)) : WebServer := foldl (fun s e => fst (serve s (fst e) (snd e))) s evs.

(** C15: A session goes back to a login.  After any requests to a server that started
    without sessions, whoever holds a session got its token from a login, in which
    the password of that user, who was enabled then, was given. *)
Theorem sessions_authentic s evs token session :
  wb_sessions s = ∅ -> wb_sessions (web_run s evs) !! token = Some session ->
  exists before r dr after, evs = before ++ (r, dr) :: after /\ login_ok (web_run s before) r dr token session.
Proof.
  intros H0'. induction evs as [| [r dr] evs IH] using rev_ind; intros Hl; [cbn in Hl; by rewrite H0' in Hl |].
  unfold web_run in Hl. rewrite foldl_app in Hl. cbn [foldl fst snd] in Hl. change (foldl _ s evs) with (web_run s evs) in Hl.
  destruct (decide (wb_sessions (web_run s evs) !! token = Some session)) as [Ho | Ho].
  - destruct (IH Ho) as (before & r' & dr' & after & -> & Hok). exists before, r', dr', (after ++ [(r, dr)]). split; [by rewrite <- app_assoc | done].
  - exists evs, r, dr, []. split; [done | by apply step_sessions].
Qed.

(** Without a session the snapshot has every device as the registry has it, with
    the passwords of links and devices. *)
Theorem snapshot_public s now body k d :
  sv_devices (wb_registry s) !! k = Some d -> (forall m, device_iter m ≡ₚ map_to_list m) ->
  exists devices calls n groups, snd (serve s (mkRequest "GET" "/api/snapshot" None body) (mkDraw now None 0)) = mkResponse 200 (SnapshotOut devices calls n groups) /\
    d_DevicePassword d ∈ (d_DevicePassword <$> devices).
Proof.
  intros Hd Hiter. unfold serve. cbn. unfold handleSnapshotPublic, snapshotPayload, Snapshot. cbn. destruct (match wb_router s with Some _ => _ | None => _ end) as [router groups]. eexists _, _, _, _. split; [reflexivity |].
  apply list_elem_of_fmap. exists (enrichDevice (wb_registry s) d). split; [unfold enrichDevice; by destruct (_ && _) |].
  apply list_elem_of_fmap. exists (k, d). split; [done |]. rewrite Hiter. by apply elem_of_map_to_list.
Qed.

End web.

(** ** Examples *)

Section sample_web.
#[local] Instance web_ids : Autoincrement := fun n => n.
#[local] Instance web_ids_law : AutoincrementLaw.
Proof. intros n. unfold seq_after_conflict, web_ids. lia. Qed.
#[local] Instance web_order : RegistryOrder := {| call_iter m := map_to_list m; device_iter m := map_to_list m |}.
#[local] Instance web_json : ExtraJson := {| marshal_extra _ := "{}"; unmarshal_extra _ := None |}.
#[local] Instance sample_env : WebEnv := {|
  decode_register b := Some (mkRegister b "n0call" "a@example.org" "password1");
  decode_login b := Some (mkLogin b "password1");
  decode_new_user _ := None;
  decode_user_patch _ := None;
  decode_password b := Some b;
  decode_device_update _ := None;
  decode_device_create _ := None;
  address_parses s := negb (text_eq s "");
  HashPassword _ p := Some ("#" +:+ p);
  CheckPassword h p := text_eq h ("#" +:+ p)
|}.

Definition admin_row : UserRow := mkUserRow (mkUser 1 "admin" "N0ADM" "root@example.org" "#password1" "admin" true 0 0 0) "" "" "".
Definition sample_web : WebServer :=
  mkWeb (with_devices (service_of None [] [] 0 (mkDatabase (mkTables [] 0 [] 0 [] [admin_row] 1 0) [])) {["hytera:1" := sample_device "hytera" "hytera:1" 460123]}) None ∅ [].
Definition register_request : Request := mkRequest "POST" "/api/auth/register" None "guest".
Definition login_request (name : string) : Request := mkRequest "POST" "/api/auth/login" None name.

(** A visitor registers: the administrator is as before, and the new account is
    disabled. *)
Lemma accounts_safe_witness :
  accounts_kept (db_tables sample_web) (db_tables (fst (serve sample_web register_request (mkDraw sample_time None 0)))) /\
  ((fun r => (u_Username (us_columns r), u_Enabled (us_columns r))) <$> users (db_tables (fst (serve sample_web register_request (mkDraw sample_time None 0))))) = [("admin", true); ("guest", false)].
Proof. split; [| vm_compute; reflexivity]. apply (accounts_safe sample_web register_request). intros user E. discriminate E. Defined.

(** A wrong name, then a login. *)
Lemma sessions_authentic_witness :
  let evs := [(login_request "nobody", mkDraw sample_time (Some "t0") 0); (login_request "admin", mkDraw sample_time (Some "t1") 0)] in
  wb_sessions (web_run sample_web evs) = {["t1" := mkSession 1 sample_time]} /\
  exists before r dr after, evs = before ++ (r, dr) :: after /\ login_ok (web_run sample_web before) r dr "t1" (mkSession 1 sample_time).
Proof.
  cbv zeta. split; [by_eval |]. apply (sessions_authentic sample_web _ "t1" (mkSession 1 sample_time)); [reflexivity | by_eval].
Defined.

Lemma snapshot_public_witness :
  exists devices calls n groups, snd (serve sample_web (mkRequest "GET" "/api/snapshot" None "") (mkDraw sample_time None 0)) = mkResponse 200 (SnapshotOut devices calls n groups) /\
    "" ∈ (d_DevicePassword <$> devices).
Proof.
  apply (snapshot_public sample_web sample_time "" "hytera:1" (sample_device "hytera" "hytera:1" 460123)); [reflexivity | done].
Defined.

End sample_web.
