(* ===== verification/WebSocket.v ===== *)
(** * Browsers on a websocket (internal/web/server.go)

    A browser that is connected gets the events of the registry and can listen to
    calls: it subscribes to targets, the chunks of the audio hub for its targets go
    into a mixer of its own, and every 20 ms a frame is sent.  The server counts the
    browsers and the targets they listen to, and tells every browser when a number
    changes.  The events of the registry are passed on as they are and not part of
    the model.  What a browser's loop does for one event, and what it defers to its
    end ([ws_close]: leaving the audio hub and the two counts, each under a lock of
    its own), is one step here. *)

From Stdlib Require Import Ascii.
From S2P Require Import Prelude Strings Text Packet IpscFrame VoiceBurst G711 NrlBridge Audio TimeText RegistryTypes Store.
#[local] Open Scope Z_scope.

(** [json.Unmarshal] into the type and target of a message; [None] is an error. *)
Class ControlJson := decode_control : string -> option (string * string).

Section websocket.
Context `{ControlJson} `{MixOrder}.

Definition parseWSControlMessage (data : string) : string * string :=
  let raw := TrimSpace_text data in
  if text_eq raw "audio_subscribe" then ("audio_subscribe", "")
  else if text_eq raw "audio_unsubscribe" then ("audio_unsubscribe", "")
  else match decode_control data with
    | None => ("", "")
    | Some (type, target) => (TrimSpace_text type, TrimSpace_text target)
    end.

Definition audioTargetKeyForChunk (c : Chunk) : string :=
  if text_eq (ch_CallType c) "analog" then
    let key := TrimSpace_text (ch_SourceKey c) in if text_eq key "" then "" else "analog:" +:+ key
  else if text_eq (ch_CallType c) "private" then if ch_DstID c =? 0 then "" else "private:" +:+ pretty (ch_DstID c)
  else if ch_DstID c =? 0 then "" else "group:" +:+ pretty (ch_DstID c).

(** A browser: its targets, its channel at the audio hub, its mixer, and the numbers
    it has still to be told. *)
Record wsClient := mkClient {
  wc_targets : gset string;
  wc_channel : option nat;
  wc_mixer : wsAudioMixer;
  wc_runtime : list (Z * Z)
}.

(** [ws_sent] are the frames, with the browser they went to. *)
Record wsServer := mkWsServer {
  ws_hub : option Hub;
  ws_clients : gmap nat wsClient;
  wsClients : Z;
  audioTargets : Z;
  ws_sent : list (nat * list Z)
}.
Definition runtime_cap : nat := 8.

Definition with_client s id c := mkWsServer (ws_hub s) (<[id := c]> (ws_clients s)) (wsClients s) (audioTargets s) (ws_sent s).
Definition with_hub s h := mkWsServer h (ws_clients s) (wsClients s) (audioTargets s) (ws_sent s).

(** The new numbers for all browsers; one whose channel is full misses them. *)
Definition announce (s : wsServer) : wsServer :=
  mkWsServer (ws_hub s)
    ((fun c => if (length (wc_runtime c) <? runtime_cap)%nat then mkClient (wc_targets c) (wc_channel c) (wc_mixer c) (wc_runtime c ++ [(wsClients s, audioTargets s)]) else c) <$> ws_clients s)
    (wsClients s) (audioTargets s) (ws_sent s).
Definition trackWSClient (s : wsServer) (delta : Z) : wsServer :=
  announce (mkWsServer (ws_hub s) (ws_clients s) (Z.max 0 (wsClients s + delta)) (audioTargets s) (ws_sent s)).
Definition trackAudioTargets (s : wsServer) (delta : Z) : wsServer :=
  announce (mkWsServer (ws_hub s) (ws_clients s) (wsClients s) (Z.max 0 (audioTargets s + delta)) (ws_sent s)).

(** *** The loop of a browser *)

Definition ws_connect (s : wsServer) (id : nat) : wsServer := with_client (trackWSClient s 1) id (mkClient ∅ None ∅ []).

Definition unsubscribe_audio (s : wsServer) (ch : option nat) : wsServer :=
  match ch, ws_hub s with Some ch, Some hub => with_hub s (Some (Unsubscribe hub ch)) | _, _ => s end.

(** What is deferred, in its order. *)
Definition ws_close (s : wsServer) (id : nat) (c : wsClient) : wsServer :=
  let s := match wc_channel c with
    | Some ch => trackAudioTargets (unsubscribe_audio s (Some ch)) (- Z.of_nat (size (wc_targets c)))
    | None => s
    end in
  trackWSClient (mkWsServer (ws_hub s) (delete id (ws_clients s)) (wsClients s) (audioTargets s) (ws_sent s)) (-1).

Definition audio_subscribe (s : wsServer) (id : nat) (c : wsClient) (target : string) : wsServer :=
  if text_eq target "" || bool_decide (target ∈ wc_targets c) then s
  else
    let '(s, ch) := match wc_channel c, ws_hub s with
      | None, Some hub => let '(hub, ch) := Subscribe hub in (with_hub s (Some hub), Some ch)
      | ch, _ => (s, ch)
      end in
    trackAudioTargets (with_client s id (mkClient ({[target]} ∪ wc_targets c) ch (wc_mixer c) (wc_runtime c))) 1.

(** Without targets there is nothing to listen for. *)
Definition stop_listening (s : wsServer) (id : nat) : wsServer :=
  match ws_clients s !! id with
  | Some c =>
      if bool_decide (size (wc_targets c) = 0%nat) && bool_decide (is_Some (wc_channel c))
      then with_client (unsubscribe_audio s (wc_channel c)) id (mkClient (wc_targets c) None ∅ (wc_runtime c)) else s
  | None => s
  end.
Definition audio_unsubscribe (s : wsServer) (id : nat) (c : wsClient) (target : string) : wsServer :=
  let s :=
    if text_eq target "" then
      trackAudioTargets (with_client s id (mkClient ∅ (wc_channel c) ∅ (wc_runtime c))) (- Z.of_nat (size (wc_targets c)))
    else if bool_decide (target ∈ wc_targets c) then
      trackAudioTargets (with_client s id (mkClient (wc_targets c ∖ {[target]}) (wc_channel c) (RemoveTarget (wc_mixer c) target) (wc_runtime c))) (-1)
    else s in
  stop_listening s id.

Definition ws_message (s : wsServer) (id : nat) (c : wsClient) (data : string) : wsServer :=
  let '(type, target) := parseWSControlMessage data in
  if text_eq type "audio_subscribe" then audio_subscribe s id c (TrimSpace_text target)
  else if text_eq type "audio_unsubscribe" then audio_unsubscribe s id c (TrimSpace_text target)
  else s.

(** A chunk from the channel of the browser. *)
Definition ws_chunk (s : wsServer) (id : nat) (c : wsClient) (clock : time) : wsServer :=
  match wc_channel c, ws_hub s with
  | Some ch, Some hub =>
      match Receive hub ch with
      | (_, None) => s
      | (hub, Some chunk) =>
          let s := with_hub s (Some hub) in
          let target := audioTargetKeyForChunk chunk in
          if text_eq target "" || negb (bool_decide (target ∈ wc_targets c)) then s
          else with_client s id (mkClient (wc_targets c) (wc_channel c) (Mixer_Add (wc_mixer c) chunk target clock) (wc_runtime c))
      end
  | _, _ => s
  end.

(** A tick of 20 ms. *)
Definition ws_tick (s : wsServer) (id : nat) (c : wsClient) (now : time) : wsServer :=
  if bool_decide (size (wc_targets c) = 0%nat) then s
  else
    let '(mixer, frame) := Mixer_Flush (wc_mixer c) now in
    let s := with_client s id (mkClient (wc_targets c) (wc_channel c) mixer (wc_runtime c)) in
    match frame with
    | Some frame => mkWsServer (ws_hub s) (ws_clients s) (wsClients s) (audioTargets s) (ws_sent s ++ [(id, frame)])
    | None => s
    end.

Inductive ws_event :=
| WsConnect (id : nat)
| WsMessage (id : nat) (data : string)
| WsChunk (id : nat) (clock : time)
| WsTick (id : nat) (now : time)
| WsRuntime (id : nat)
| WsClose (id : nat)
| WsPublish (c : Chunk) (now : time).

Definition on_client (s : wsServer) (id : nat) (f : wsClient -> wsServer) : wsServer := match ws_clients s !! id with Some c => f c | None => s end.
Definition ws_step (s : wsServer) (e : ws_event) : wsServer :=
  match e with
  | WsConnect id => match ws_clients s !! id with Some _ => s | None => ws_connect s id end
  | WsMessage id data => on_client s id (fun c => ws_message s id c data)
  | WsChunk id clock => on_client s id (fun c => ws_chunk s id c clock)
  | WsTick id now => on_client s id (fun c => ws_tick s id c now)
  | WsRuntime id => on_client s id (fun c => with_client s id (mkClient (wc_targets c) (wc_channel c) (wc_mixer c) (tail (wc_runtime c))))
  | WsClose id => on_client s id (fun c => ws_close s id c)
  | WsPublish c now => with_hub s ((fun hub => Publish hub c now) <$> ws_hub s)
  end.

(** ** The numbers are right *)

Definition listened (m : gmap nat wsClient) : Z := map_fold (fun _ c n => Z.of_nat (size (wc_targets c)) + n) 0 m.

Record client_mid (c : wsClient) : Prop := {
  co_listens : wc_targets c <> ∅ -> is_Some (wc_channel c);
  co_mixer : map_Forall (fun _ st => mx_target st ∈ wc_targets c) (wc_mixer c)
}.
(** A browser has a channel exactly while it has targets, and its mixer has streams
    of its targets only. *)
Definition client_ok (c : wsClient) : Prop := client_mid c /\ (is_Some (wc_channel c) -> wc_targets c <> ∅).

Record ws_inv (P : nat -> wsClient -> Prop) (s : wsServer) : Prop := {
  wo_hub : is_Some (ws_hub s);
  wo_clients : map_Forall P (ws_clients s);
  wo_count : wsClients s = Z.of_nat (size (ws_clients s));
  wo_audio : audioTargets s = listened (ws_clients s)
}.
Definition ws_ok : wsServer -> Prop := ws_inv (fun _ => client_ok).

Lemma listened_delete m id c : m !! id = Some c -> listened m = Z.of_nat (size (wc_targets c)) + listened (delete id m).
Proof. intros Hm. unfold listened. rewrite (map_fold_delete_L _ _ id c m); [done | | done]. intros. lia. Qed.
Lemma listened_insert m id c : m !! id = None -> listened (<[id := c]> m) = Z.of_nat (size (wc_targets c)) + listened m.
Proof. intros Hm. unfold listened. rewrite map_fold_insert_L; [done | | done]. intros. lia. Qed.
Lemma listened_replace m id c c' : m !! id = Some c -> listened (<[id := c']> m) = listened m - Z.of_nat (size (wc_targets c)) + Z.of_nat (size (wc_targets c')).
Proof.
  intros Hm. rewrite (listened_delete m id c Hm), <- insert_delete_eq, listened_insert by apply lookup_delete_eq. lia.
Qed.
Lemma listened_map f m : (forall c, wc_targets (f c) = wc_targets c) -> listened (f <$> m) = listened m.
Proof.
  intros Hf. induction m as [| id c m Hm IH] using map_ind; [by rewrite fmap_empty |].
  rewrite fmap_insert, !listened_insert by (done || by rewrite lookup_fmap, Hm). by rewrite Hf, IH.
Qed.
Lemma listened_nonneg m : 0 <= listened m.
Proof. induction m as [| id c m Hm IH] using map_ind; [done | rewrite listened_insert by done; lia]. Qed.

Definition told (c : wsClient) (l : list (Z * Z)) : wsClient := mkClient (wc_targets c) (wc_channel c) (wc_mixer c) l.
Definition any_told (P : nat -> wsClient -> Prop) : Prop := forall i c l, P i c -> P i (told c l).
Lemma ok_told : any_told (fun _ => client_ok).
Proof. intros i c l [[A1 A2] A3]. split; [split |]; done. Qed.

Section inv.
Context (P : nat -> wsClient -> Prop) (HP : any_told P).

Lemma announce_inv s : ws_inv P s -> ws_inv P (announce s).
Proof.
  intros [A1 A2 A3 A4]. split; cbn; [done | | by rewrite map_size_fmap | rewrite listened_map; [done | intros c; by case_match]].
  intros i c Hc. rewrite lookup_fmap in Hc. destruct (ws_clients s !! i) as [c0 |] eqn:E; [| done]. injection Hc as <-. specialize (A2 i c0 E).
  cbn beta. case_match; [by apply HP | done].
Qed.

(** A browser changes, and so does the number of targets. *)
Lemma track_inv Q s id c c' delta : (forall i x, i <> id -> Q i x -> P i x) -> ws_inv Q s -> ws_clients s !! id = Some c -> P id c' ->
  Z.of_nat (size (wc_targets c')) = Z.of_nat (size (wc_targets c)) + delta -> ws_inv P (trackAudioTargets (with_client s id c') delta).
Proof.
  intros HQ [A1 A2 A3 A4] Hc Hc' Hd. apply announce_inv. split; cbn; [done | | |].
  - intros i x Hx. apply lookup_insert_Some in Hx as [[<- <-] | [Hne Hx]]; [done |]. apply HQ; [done | by apply A2].
  - rewrite map_size_insert_Some by done. exact A3.
  - rewrite (listened_replace _ _ _ _ Hc), A4. pose proof (listened_delete _ _ _ Hc). pose proof (listened_nonneg (delete id (ws_clients s))). lia.
Qed.
Lemma put_inv s id c c' : ws_inv P s -> ws_clients s !! id = Some c -> P id c' -> wc_targets c' = wc_targets c -> ws_inv P (with_client s id c').
Proof.
  intros [A1 A2 A3 A4] Hc Hc' Ht. split; cbn; [done | by apply map_Forall_insert_2 | by rewrite map_size_insert_Some |].
  rewrite (listened_replace _ _ _ _ Hc), A4, Ht. lia.
Qed.
Lemma hub_inv s h : ws_inv P s -> is_Some h -> ws_inv P (with_hub s h).
Proof. intros [A1 A2 A3 A4] Hh. by split. Qed.
Lemma unsubscribe_inv s ch : ws_inv P s -> ws_inv P (unsubscribe_audio s ch).
Proof. intros Hs. unfold unsubscribe_audio. destruct ch as [ch |]; [| done]. destruct (ws_hub s); [by apply hub_inv | done]. Qed.
Lemma unsubscribe_clients s ch : ws_clients (unsubscribe_audio s ch) = ws_clients s.
Proof. unfold unsubscribe_audio. destruct ch; [| done]. by destruct (ws_hub s). Qed.
End inv.

Lemma size_zero (X : gset string) : size X = 0%nat <-> X = ∅.
Proof. rewrite size_empty_iff. by rewrite leibniz_equiv_iff. Qed.

Lemma subscribe_ok s id c target : ws_ok s -> ws_clients s !! id = Some c -> ws_ok (audio_subscribe s id c target).
Proof.
  intros Hs Hc. unfold audio_subscribe. destruct (_ || _) eqn:E; [done |]. apply orb_false_elim in E as [_ E]. apply bool_decide_eq_false in E.
  destruct (wo_hub _ _ Hs) as [hub Eh]. destruct (wo_clients _ _ Hs id c Hc) as [[C1 C2] C3]. rewrite Eh.
  assert (Hsize : Z.of_nat (size ({[target]} ∪ wc_targets c)) = Z.of_nat (size (wc_targets c)) + 1) by (rewrite size_union, size_singleton by set_solver; lia).
  assert (Hok : forall ch, client_ok (mkClient ({[target]} ∪ wc_targets c) (Some ch) (wc_mixer c) (wc_runtime c))).
  { intros ch. split; [split; [done |] | set_solver]. eapply map_Forall_impl; [exact C2 |]. cbn. set_solver. }
  destruct (wc_channel c) as [ch |].
  - by apply (track_inv _ ok_told (fun _ => client_ok) _ _ c).
  - destruct (Subscribe hub) as [hub' ch]. apply (track_inv _ ok_told (fun _ => client_ok) _ _ c); try done. by apply hub_inv.
Qed.

(** One browser may have a channel and no targets. *)
Definition mid_at (id : nat) (i : nat) (c : wsClient) : Prop := client_mid c /\ (i <> id -> client_ok c).
Lemma mid_told id : any_told (mid_at id).
Proof. intros i c l [[A1 A2] A3]. split; [by split |]. intros Hne. apply (ok_told i c l), (A3 Hne). Qed.

Lemma stop_ok s id : ws_inv (mid_at id) s -> ws_ok (stop_listening s id).
Proof.
  intros Hs. unfold stop_listening. assert (Hother : forall s', ws_inv (mid_at id) s' -> (forall c, ws_clients s' !! id = Some c -> client_ok c) -> ws_ok s').
  { intros s' [A1 A2 A3 A4] Hc. split; try done. intros i c Hi. destruct (decide (i = id)) as [-> | Hne]; [by apply Hc | by apply (A2 i c Hi)]. }
  destruct (ws_clients s !! id) as [c |] eqn:E; [| apply Hother; [done | congruence]]. destruct (wo_clients _ _ Hs id c E) as [[C1 C2] _].
  destruct (bool_decide (size (wc_targets c) = 0%nat)) eqn:Ez; cbn [andb].
  - apply bool_decide_eq_true, size_zero in Ez. assert (Hnew : client_ok (mkClient (wc_targets c) None ∅ (wc_runtime c))) by (split; [split; [done | apply map_Forall_empty] | by intros [? ?]]).
    destruct (bool_decide (is_Some (wc_channel c))) eqn:Ech.
    + apply Hother; [| intros c'; cbn; rewrite lookup_insert_eq; by intros [= <-]].
      apply (put_inv _ _ _ c); [by apply unsubscribe_inv | by rewrite unsubscribe_clients | split; [apply Hnew | done] | done].
    + apply bool_decide_eq_false in Ech. apply Hother; [done |]. intros c' Hc'. rewrite E in Hc'. injection Hc' as <-. split; [by split | done].
  - apply bool_decide_eq_false in Ez. apply Hother; [done |]. intros c' Hc'. rewrite E in Hc'. injection Hc' as <-. split; [by split |]. intros _ Hemp. by apply Ez, size_zero.
Qed.

Lemma unsubscribe_ok s id c target : ws_ok s -> ws_clients s !! id = Some c -> ws_ok (audio_unsubscribe s id c target).
Proof.
  intros Hs Hc. destruct (wo_clients _ _ Hs id c Hc) as [[C1 C2] C3]. unfold audio_unsubscribe. cbv zeta. apply stop_ok.
  assert (Hmid : ws_inv (mid_at id) s) by (destruct Hs as [A1 A2 A3 A4]; split; try done; intros i x Hx; specialize (A2 i x Hx); split; [apply A2 | done]).
  assert (HQ : forall i x, i <> id -> client_ok x -> mid_at id i x) by (intros i x _ Hx; split; [apply Hx | done]).
  destruct (text_eq target "") eqn:Et.
  - apply (track_inv _ (mid_told id) _ _ _ c _ _ HQ Hs Hc); [split; [split; [done | apply map_Forall_empty] | done] | cbn; rewrite size_empty; lia].
  - destruct (bool_decide (target ∈ wc_targets c)) eqn:Ein; [| done]. apply bool_decide_eq_true in Ein.
    apply (track_inv _ (mid_told id) _ _ _ c _ _ HQ Hs Hc); [split; [split | done] |]; cbn.
    + intros Hne. apply C1. intros Hemp. apply Hne. set_solver.
    + unfold RemoveTarget. rewrite bool_decide_false by (by intros ->). intros k st Hst. apply map_lookup_filter_Some in Hst as [Hst Hne]. specialize (C2 k st Hst). cbn in *. set_solver.
    + rewrite size_difference, size_singleton by set_solver. assert (size (wc_targets c) <> 0%nat); [| lia]. rewrite size_zero. set_solver.
Qed.

Context `{!MixOrderLaws}.

Lemma flush_targets (T : gset string) m now : map_Forall (fun _ st => mx_target st ∈ T) m -> map_Forall (fun _ st => mx_target st ∈ T) (fst (Mixer_Flush m now)).
Proof.
  intros Hm. unfold Mixer_Flush. assert (Hl : Forall (fun e => mx_target (snd e) ∈ T) (mix_iter m)).
  { rewrite mix_iter_elements. apply Forall_forall. intros [k st] Hin. apply elem_of_map_to_list in Hin. exact (Hm k st Hin). }
  assert (Hgen : forall l acc, Forall (fun e : string * mixedAudioStream => mx_target (snd e) ∈ T) l -> map_Forall (fun _ st => mx_target st ∈ T) (snd acc) ->
    map_Forall (fun _ st => mx_target st ∈ T) (snd (foldl (flush_stream now) acc l))).
  { induction l as [| [k st] l IH]; intros [[mix act] m1] Hf Ha; [done |]. apply Forall_cons in Hf as [Hst Hf]. cbn [foldl]. apply IH; [done |]. cbn [snd] in *.
    unfold flush_stream. cbn [fst snd]. destruct (_ =? 0)%nat; cbn [snd]; [destruct (_ || _); [by apply map_Forall_delete | done] |].
    destruct (_ && _); [by apply map_Forall_delete | by apply map_Forall_insert_2]. }
  specialize (Hgen (mix_iter m) (replicate mixedAudioFrameSamples 0, false, m) Hl Hm). destruct (foldl _ _ _) as [[mix act] m']. exact Hgen.
Qed.

Lemma chunk_ok s id c clock : ws_ok s -> ws_clients s !! id = Some c -> ws_ok (ws_chunk s id c clock).
Proof.
  intros Hs Hc. unfold ws_chunk. destruct (wc_channel c) as [ch |] eqn:Ec; [| done]. destruct (ws_hub s) as [hub |]; [| done].
  destruct (Receive hub ch) as [hub' [chunk |]]; [| done]. assert (Hs' : ws_ok (with_hub s (Some hub'))) by (by apply hub_inv).
  destruct (text_eq _ "" || _) eqn:E; [done |]. apply orb_false_elim in E as [_ E]. apply negb_false_iff, bool_decide_eq_true in E.
  destruct (wo_clients _ _ Hs id c Hc) as [[C1 C2] C3]. apply (put_inv _ _ _ c); [done | done | | done]. rewrite <- Ec. split; [split; [exact C1 |] | exact C3].
  cbn [wc_mixer wc_targets]. unfold Mixer_Add. destruct (_ || _); [exact C2 |]. by apply map_Forall_insert_2.
Qed.

Lemma tick_ok s id c now : ws_ok s -> ws_clients s !! id = Some c -> ws_ok (ws_tick s id c now).
Proof.
  intros Hs Hc. unfold ws_tick. destruct (bool_decide _); [done |]. destruct (wo_clients _ _ Hs id c Hc) as [[C1 C2] C3].
  pose proof (flush_targets _ _ now C2) as Hf. destruct (Mixer_Flush (wc_mixer c) now) as [mixer frame]. cbn [fst] in Hf.
  assert (Hs' : ws_ok (with_client s id (mkClient (wc_targets c) (wc_channel c) mixer (wc_runtime c)))) by (apply (put_inv _ _ _ c); [done | done | by split | done]).
  destruct frame; [| done]. by destruct Hs'.
Qed.

Lemma close_ok s id c : ws_ok s -> ws_clients s !! id = Some c -> ws_ok (ws_close s id c).
Proof.
  intros Hs Hc. destruct (wo_clients _ _ Hs id c Hc) as [[C1 C2] C3]. unfold ws_close.
  set (s1 := match wc_channel c with Some _ => _ | None => _ end).
  assert (Hs1 : is_Some (ws_hub s1) /\ map_Forall (fun _ => client_ok) (ws_clients s1) /\ wsClients s1 = Z.of_nat (size (ws_clients s1)) /\
    listened (delete id (ws_clients s1)) = audioTargets s1 /\ is_Some (ws_clients s1 !! id)).
  { pose proof (listened_delete _ _ _ Hc) as Hl. subst s1. destruct (wc_channel c) as [ch |] eqn:Ec.
    - pose proof (unsubscribe_inv _ s (Some ch) Hs) as [A1 A2 A3 A4]. rewrite unsubscribe_clients in *.
      unfold trackAudioTargets, announce. cbn [ws_hub ws_clients wsClients audioTargets].
      rewrite unsubscribe_clients. split; [done |]. split; [| split; [by rewrite map_size_fmap | split]].
      + intros i x Hx. rewrite lookup_fmap in Hx. destruct (ws_clients s !! i) as [x0 |] eqn:Ex; [| done]. injection Hx as <-. specialize (A2 i x0 Ex). cbn beta. case_match; [by apply (ok_told i) | done].
      + rewrite <- fmap_delete, listened_map by (intros x; by case_match). pose proof (listened_nonneg (delete id (ws_clients s))). lia.
      + rewrite lookup_fmap, Hc. by eauto.
    - destruct Hs as [A1 A2 A3 A4]. split; [done |]. split; [done |]. split; [done |]. split; [| by eauto].
      assert (wc_targets c = ∅) as E by (destruct (decide (wc_targets c = ∅)) as [| Hne]; [done | destruct (C1 Hne) as [? E]; congruence]). rewrite E, size_empty in Hl. lia. }
  clearbody s1. destruct Hs1 as (A1 & A2 & A3 & A4 & [c1 A5]). apply (announce_inv _ ok_told). split; cbn; [done | by apply map_Forall_delete | | done].
  rewrite A3. rewrite (map_size_delete_Some id (ws_clients s1) (mk_is_Some _ _ A5)). pose proof (map_size_non_empty_iff (ws_clients s1)) as [_ Hne].
  assert (size (ws_clients s1) <> 0%nat) by (apply Hne; intros Hemp; by rewrite Hemp, lookup_empty in A5). lia.
Qed.

Lemma connect_ok s id : ws_ok s -> ws_clients s !! id = None -> ws_ok (ws_connect s id).
Proof.
  intros [A1 A2 A3 A4] Hc. unfold ws_connect, trackWSClient.
  unfold announce. split; cbn; [done | | |].
  - apply map_Forall_insert_2; [split; [split; [done | apply map_Forall_empty] | by intros [? ?]] |].
    intros i x Hx. rewrite lookup_fmap in Hx. destruct (ws_clients s !! i) as [x0 |] eqn:Ex; [| done]. injection Hx as <-. specialize (A2 i x0 Ex). cbn beta. case_match; [by apply (ok_told i) | done].
  - rewrite map_size_insert_None by (by rewrite lookup_fmap, Hc). rewrite map_size_fmap. lia.
  - rewrite listened_insert by (by rewrite lookup_fmap, Hc). rewrite listened_map by (intros x; by case_match). cbn. rewrite size_empty. lia.
Qed.

Lemma ws_step_ok s e : ws_ok s -> ws_ok (ws_step s e).
Proof.
  intros Hs. destruct e as [id | id data | id clock | id now | id | id | chunk now]; cbn [ws_step]; unfold on_client; try (destruct (ws_clients s !! id) as [c |] eqn:Ec; [| done]).
  - destruct (ws_clients s !! id) eqn:Ec; [done | by apply connect_ok].
  - unfold ws_message. destruct (parseWSControlMessage data) as [type target]. destruct (text_eq _ _); [by apply subscribe_ok |]. destruct (text_eq _ _); [by apply unsubscribe_ok | done].
  - by apply chunk_ok.
  - by apply tick_ok.
  - apply (put_inv _ _ _ c); [done | done | | done]. apply (ok_told id c), (wo_clients _ _ Hs id c Ec).
  - by apply close_ok.
  - apply hub_inv; [done |]. destruct (wo_hub _ _ Hs) as [h ->]. by eauto.
Qed.

(** ** The channels at the hub *)

(** The channels of the browsers that have one. *)
Definition channels (m : gmap nat wsClient) : gmap nat nat := omap wc_channel m.

(** The subscribers of the hub are the channels of the browsers. *)
Record hub_agrees (h : Hub) (m : gmap nat nat) : Prop := {
  ha_subs ch : is_Some (hub_subs h !! ch) <-> exists id, m !! id = Some ch;
  ha_distinct id1 id2 ch : m !! id1 = Some ch -> m !! id2 = Some ch -> id1 = id2;
  ha_next ch : is_Some (hub_subs h !! ch) -> (ch < hub_next h)%nat
}.
Definition hub_ok (s : wsServer) : Prop := exists h, ws_hub s = Some h /\ hub_agrees h (channels (ws_clients s)).

Lemma channels_insert m id c : channels (<[id := c]> m) = match wc_channel c with Some ch => <[id := ch]> (channels m) | None => delete id (channels m) end.
Proof.
  apply map_eq. intros i. unfold channels. rewrite lookup_omap. destruct (decide (i = id)) as [-> | Hne].
  - rewrite lookup_insert_eq. cbn. destruct (wc_channel c); [by rewrite lookup_insert_eq | by rewrite lookup_delete_eq].
  - rewrite lookup_insert_ne by done. destruct (wc_channel c); [rewrite lookup_insert_ne by done | rewrite lookup_delete_ne by done]; by rewrite lookup_omap.
Qed.

Lemma channels_same m id c c' : m !! id = Some c -> wc_channel c' = wc_channel c -> channels (<[id := c']> m) = channels m.
Proof.
  intros Hc E. rewrite channels_insert, E. assert (El : channels m !! id = wc_channel c) by (unfold channels; by rewrite lookup_omap, Hc).
  destruct (wc_channel c); [by apply insert_id | by apply delete_id].
Qed.

Lemma channels_announced s : channels (ws_clients (announce s)) = channels (ws_clients s).
Proof.
  apply map_eq. intros i. unfold channels, announce. cbn. rewrite !lookup_omap, lookup_fmap. destruct (ws_clients s !! i) as [c |]; [| done]. cbn.
  case_match; done.
Qed.

Lemma hub_ok_same s s' : hub_ok s -> ws_hub s' = ws_hub s -> channels (ws_clients s') = channels (ws_clients s) -> hub_ok s'.
Proof. intros (h & E & Hh) E1 E2. exists h. by rewrite E1, E2. Qed.

(** The subscribers stay the same when chunks are added or taken. *)
Lemma agrees_same h h' m : hub_agrees h m -> hub_next h' = hub_next h -> (forall ch, is_Some (hub_subs h' !! ch) <-> is_Some (hub_subs h !! ch)) -> hub_agrees h' m.
Proof. intros [A1 A2 A3] En Es. split; [intros ch; by rewrite Es | done | intros ch; rewrite Es, En; apply A3]. Qed.

Lemma agrees_subscribe h m id : hub_agrees h m -> m !! id = None -> hub_agrees (fst (Subscribe h)) (<[id := snd (Subscribe h)]> m).
Proof.
  intros [A1 A2 A3] Hid. assert (Hfresh : forall i, m !! i <> Some (hub_next h)) by (intros i Hi; assert (is_Some (hub_subs h !! hub_next h)) as Hs by (apply A1; eauto); apply A3 in Hs; lia).
  unfold Subscribe. split; cbn.
  - intros ch. destruct (decide (ch = hub_next h)) as [-> | Hne].
    + rewrite lookup_insert_eq. split; [intros _; exists id; by rewrite lookup_insert_eq | by eauto].
    + rewrite lookup_insert_ne by done. rewrite A1. split; intros [i Hi]; exists i.
      * rewrite lookup_insert_ne; [done |]. intros <-. congruence.
      * apply lookup_insert_Some in Hi as [[_ ?] | [_ ?]]; [by subst | done].
  - intros i1 i2 ch H1' H2'. apply lookup_insert_Some in H1' as [[<- <-] | [? H1']], H2' as [[<- E] | [? H2']]; [done | by apply Hfresh in H2' | subst; by apply Hfresh in H1' | by apply (A2 i1 i2 ch)].
  - intros ch Hch. destruct (decide (ch = hub_next h)) as [-> | Hne]; [lia |]. rewrite lookup_insert_ne in Hch by done. apply A3 in Hch. lia.
Qed.

Lemma agrees_unsubscribe h m id ch : hub_agrees h m -> m !! id = Some ch -> hub_agrees (Unsubscribe h ch) (delete id m).
Proof.
  intros [A1 A2 A3] Hid. unfold Unsubscribe. split; cbn.
  - intros x. split.
    + intros [v [Hne Hv]%lookup_delete_Some]. destruct (proj1 (A1 x) ltac:(eauto)) as [i Hi]. exists i. apply lookup_delete_Some. split; [| done]. intros <-. congruence.
    + intros [i [Hne Hi]%lookup_delete_Some]. destruct (proj2 (A1 x) ltac:(eauto)) as [v Hv]. exists v. apply lookup_delete_Some. split; [| done].
      intros <-. apply Hne. by apply (A2 id i ch).
  - intros i1 i2 x [_ H1']%lookup_delete_Some [_ H2']%lookup_delete_Some. by apply (A2 i1 i2 x).
  - intros x [v [_ Hv]%lookup_delete_Some]. apply A3. eauto.
Qed.

Lemma subscribe_hub s id c target : hub_ok s -> ws_clients s !! id = Some c -> hub_ok (audio_subscribe s id c target).
Proof.
  intros Hs Hc. unfold audio_subscribe. destruct (_ || _); [done |]. destruct Hs as (h & Eh & Hh). destruct (wc_channel c) as [ch |] eqn:Ec.
  - apply (hub_ok_same s); [by exists h | done |]. unfold trackAudioTargets. rewrite channels_announced. cbn [ws_clients with_client]. by rewrite (channels_same _ _ c).
  - rewrite Eh. pose proof (agrees_subscribe h (channels (ws_clients s)) id Hh) as Ha. destruct (Subscribe h) as [h' ch]. cbn [fst snd] in Ha.
    exists h'. split; [done |]. unfold trackAudioTargets. rewrite channels_announced. cbn [ws_clients with_client with_hub]. rewrite channels_insert. cbn [wc_channel].
    apply Ha. unfold channels. by rewrite lookup_omap, Hc.
Qed.

Lemma stop_hub s id : hub_ok s -> hub_ok (stop_listening s id).
Proof.
  intros Hs. unfold stop_listening. destruct (ws_clients s !! id) as [c |] eqn:Hc; [| done]. destruct (bool_decide _); [| done]. cbn [andb].
  case_bool_decide as Hch; [| done]. destruct Hch as [ch Ec], Hs as (h & Eh & Hh). rewrite Ec. unfold unsubscribe_audio. rewrite Eh.
  exists (Unsubscribe h ch). split; [done |]. cbn [ws_clients with_client with_hub]. rewrite channels_insert. cbn [wc_channel].
  apply agrees_unsubscribe; [done |]. unfold channels. by rewrite lookup_omap, Hc.
Qed.

Lemma unsubscribe_hub s id c target : hub_ok s -> ws_clients s !! id = Some c -> hub_ok (audio_unsubscribe s id c target).
Proof.
  intros Hs Hc. unfold audio_unsubscribe. cbv zeta. apply stop_hub. destruct (text_eq _ _); [| destruct (bool_decide _); [| done]];
    (apply (hub_ok_same s); [done | done |]); unfold trackAudioTargets; rewrite channels_announced; cbn [ws_clients with_client]; by rewrite (channels_same _ _ c).
Qed.

Lemma close_hub s id c : hub_ok s -> ws_clients s !! id = Some c -> hub_ok (ws_close s id c).
Proof.
  intros (h & Eh & Hh) Hc. unfold ws_close, trackWSClient.
  assert (Hdel : forall s1, channels (delete id (ws_clients s1)) = delete id (channels (ws_clients s1))).
  { intros s1. apply map_eq. intros i. unfold channels. rewrite lookup_omap. destruct (decide (i = id)) as [-> |];
      [by rewrite !lookup_delete_eq | by rewrite !lookup_delete_ne, lookup_omap]. }
  assert (Hl : channels (ws_clients s) !! id = wc_channel c) by (unfold channels; by rewrite lookup_omap, Hc).
  destruct (wc_channel c) as [ch |].
  - unfold unsubscribe_audio. rewrite Eh. exists (Unsubscribe h ch). split; [done |]. rewrite channels_announced. cbn [ws_clients].
    rewrite Hdel. unfold trackAudioTargets. rewrite channels_announced. by apply agrees_unsubscribe.
  - exists h. split; [done |]. rewrite channels_announced. cbn [ws_clients]. by rewrite Hdel, delete_id.
Qed.

Lemma chunk_hub s id c clock : hub_ok s -> ws_clients s !! id = Some c -> hub_ok (ws_chunk s id c clock).
Proof.
  intros (h & Eh & Hh) Hc. unfold ws_chunk. destruct (wc_channel c) as [ch |] eqn:Ec; [| by exists h]. rewrite Eh.
  assert (Hr : hub_agrees (fst (Receive h ch)) (channels (ws_clients s))).
  { eapply agrees_same; [exact Hh | |]; unfold Receive; destruct (hub_subs h !! ch) as [[| x l] |] eqn:El; cbn; try done.
    intros x'. destruct (decide (x' = ch)) as [-> |]; [rewrite lookup_insert_eq, El; split; eauto | by rewrite lookup_insert_ne]. }
  destruct (Receive h ch) as [h' [chunk |]]; [| by exists h]. cbn [fst] in Hr.
  destruct (text_eq _ "" || _); exists h'; (split; [done |]); [done |]. cbn [ws_clients with_client with_hub]. by rewrite (channels_same _ _ c).
Qed.

Lemma ws_step_hub s e : hub_ok s -> hub_ok (ws_step s e).
Proof.
  intros Hs. destruct e as [id | id data | id clock | id now | id | id | chunk now]; cbn [ws_step]; unfold on_client; try (destruct (ws_clients s !! id) as [c |] eqn:Ec; [| done]).
  - destruct (ws_clients s !! id) eqn:Ec; [done |]. apply (hub_ok_same s); [done | done |]. unfold ws_connect, trackWSClient. cbn [with_client ws_clients].
    rewrite channels_insert. cbn [wc_channel]. rewrite channels_announced. cbn [ws_clients]. apply delete_id. unfold channels. by rewrite lookup_omap, Ec.
  - unfold ws_message. destruct (parseWSControlMessage data) as [type target]. destruct (text_eq _ _); [by apply subscribe_hub |]. destruct (text_eq _ _); [by apply unsubscribe_hub | done].
  - by apply chunk_hub.
  - unfold ws_tick. destruct (bool_decide _); [done |]. destruct (Mixer_Flush (wc_mixer c) now) as [mixer [frame |]];
      (apply (hub_ok_same s); [done | done |]); cbn [ws_clients with_client]; by rewrite (channels_same _ _ c).
  - apply (hub_ok_same s); [done | done |]. cbn [ws_clients with_client]. by rewrite (channels_same _ _ c).
  - by apply close_hub.
  - destruct Hs as (h & Eh & Hh). rewrite Eh. exists (Publish h chunk now). split; [done |]. eapply agrees_same; [exact Hh | |]; unfold Publish; destruct (bool_decide _); cbn; try done.
    intros ch. by rewrite lookup_fmap, fmap_is_Some.
Qed.

(** C22: The numbers shown to the browsers are right, whatever the browsers do: after any
    history the server counts exactly the browsers that are connected and the targets
    they listen to; a browser has a channel exactly while it has targets, and its
    mixer only has streams of its targets.  The subscribers of the audio hub are
    exactly the channels of the connected browsers: none is left behind when a
    browser stops listening or goes, and no two browsers share one. *)
Theorem browsers_counted evs :
  let s := foldl ws_step (mkWsServer (Some NewHub) ∅ 0 0 []) evs in
  wsClients s = Z.of_nat (size (ws_clients s)) /\ audioTargets s = listened (ws_clients s) /\
  (forall id c, ws_clients s !! id = Some c -> (is_Some (wc_channel c) <-> wc_targets c <> ∅) /\ map_Forall (fun _ st => mx_target st ∈ wc_targets c) (wc_mixer c)) /\
  (exists hub, ws_hub s = Some hub /\ forall ch, is_Some (hub_subs hub !! ch) <-> exists id c, ws_clients s !! id = Some c /\ wc_channel c = Some ch) /\
  (forall id1 id2 c1 c2 ch, ws_clients s !! id1 = Some c1 -> ws_clients s !! id2 = Some c2 -> wc_channel c1 = Some ch -> wc_channel c2 = Some ch -> id1 = id2).
Proof.
  cbv zeta. set (s := foldl _ _ _). assert (Hok : ws_ok s /\ hub_ok s).
  { apply (foldl_inv (fun s => ws_ok s /\ hub_ok s)); [| intros s1 e _ [Hs1 Hs2]; split; [by apply ws_step_ok | by apply ws_step_hub]]. split.
    - split; cbn; [by eauto | apply map_Forall_empty | done | done].
    - exists NewHub. split; [done |]. split; cbn; [intros ch; rewrite lookup_empty; split; [by intros [? ?] | by intros [id Hi]] | done | intros ch; rewrite lookup_empty; by intros [? ?]]. }
  destruct Hok as [[A1 A2 A3 A4] (h & Eh & [B1 B2 _])]. split; [done |]. split; [done |]. split; [| split].
  - intros id c Hc. by destruct (A2 id c Hc) as [[C1 C2] C3].
  - exists h. split; [done |]. intros ch. rewrite B1. unfold channels. setoid_rewrite lookup_omap_Some. naive_solver.
  - intros id1 id2 c1 c2 ch Hc1 Hc2 E1 E2. apply (B2 id1 id2 ch); unfold channels; rewrite lookup_omap; [by rewrite Hc1 | by rewrite Hc2].
Qed.

End websocket.

Section sample_ws.
#[local] Instance plain_control : ControlJson := fun s => if text_eq s "listen" then Some ("audio_subscribe", "group:46001") else None.
#[local] Instance ws_order : MixOrder := {| mix_iter m := map_to_list m |}.
#[local] Instance ws_order_laws : MixOrderLaws.
Proof. by split. Qed.

(** Two browsers, one of which listens to a talkgroup and goes. *)
Lemma browsers_counted_witness :
  let run evs := foldl ws_step (mkWsServer (Some NewHub) ∅ 0 0 []) evs in
  audioTargets (run [WsConnect 1; WsConnect 2; WsMessage 1 "listen"]) = 1 /\
  wsClients (run [WsConnect 1; WsConnect 2; WsMessage 1 "listen"; WsClose 1]) = 1 /\
  size (hub_subs (default NewHub (ws_hub (run [WsConnect 1; WsConnect 2; WsMessage 1 "listen"])))) = 1%nat /\
  exists hub, ws_hub (run [WsConnect 1; WsConnect 2; WsMessage 1 "listen"; WsClose 1]) = Some hub /\ hub_subs hub !! 0%nat = None.
Proof.
  cbv zeta. split; [vm_compute; reflexivity |]. split; [vm_compute; reflexivity |]. split; [vm_compute; reflexivity |].
  destruct (browsers_counted [WsConnect 1; WsConnect 2; WsMessage 1 "listen"; WsClose 1]) as (_ & _ & _ & (hub & Eh & Hh) & _).
  exists hub. split; [exact Eh |]. destruct (hub_subs hub !! 0%nat) as [l |] eqn:El; [| reflexivity]. exfalso.
  destruct (proj1 (Hh 0%nat) (ex_intro _ l El)) as (id & c & Hc & Ech).
  assert (Hall : map_Forall (fun _ c => wc_channel c = None) (ws_clients (foldl ws_step (mkWsServer (Some NewHub) ∅ 0 0 []) [WsConnect 1; WsConnect 2; WsMessage 1 "listen"; WsClose 1]))).
  { apply map_Forall_to_list. vm_compute. repeat constructor. }
  specialize (Hall id c Hc). cbn in Hall. congruence.
Defined.

End sample_ws.
