(* ===== verification/Wiring.v ===== *)
(** * The registry behind the frontends (cmd/root.go)

    [runRoot] hands closures to the frontends and to the bridge: they enter what is
    heard of repeaters, hotspots and links into the registry, keep the record of
    calls, and open and close the links to NRL servers as the devices of the
    registry change.  Here every closure is a function on the registry, the routing
    table and the bridge; the clock and the local address of a new socket are
    arguments. *)

From Stdlib Require Import Ascii QArith.
From S2P Require Import Prelude Strings Net Text Packet LinkControl VoiceBurst IpscFrame Rptc MmdvmLogin Config IpscServer HyteraFrame Hytera G711 NrlFrame NrlBridge HyteraNrl Routing Audio Dmrid TimeText RegistryTypes Store Registry Managed Web.
#[local] Open Scope Z_scope.

(** ** [net.IP.String] *)

Definition lower_hex (n : Z) : string := String.string_of_list_ascii [hex_digit n].
(** A group of an IPv6 address, without leading zeros. *)
Definition hex_group (n : Z) : string :=
  let digits := [Z.shiftr n 12; Z.land (Z.shiftr n 8) 15; Z.land (Z.shiftr n 4) 15; Z.land n 15] in
  let fix strip (l : list Z) := match l with d :: ((_ :: _) as rest) => if d =? 0 then strip rest else l | _ => l end in
  String.concat "" (lower_hex <$> strip digits).
Definition zero_run (words : list Z) : nat := let fix go l := match l with 0 :: l => S (go l) | _ => 0%nat end in go words.
(** Where the first of the longest runs of zeros starts and ends, if it has two. *)
Definition longest_zeros (words : list Z) : nat * nat :=
  foldl (fun best i => let n := zero_run (drop i words) in if (2 <=? n)%nat && (snd best - fst best <? n)%nat then (i, i + n)%nat else best) (255, 255)%nat (seq 0 8).
Definition ipv6_text (words : list Z) : string :=
  let '(from, upto) := longest_zeros words in
  let texts := hex_group <$> words in
  if (from =? 255)%nat then String.concat ":" texts else String.concat ":" (take from texts) +:+ "::" +:+ String.concat ":" (drop upto texts).
Definition ip_text (ip : list Z) : string :=
  match To4 ip with
  | [] =>
      if (length ip =? 0)%nat then "<nil>" else if (length ip =? 16)%nat then ipv6_text ((fun i => Z.lor (Z.shiftl (ip.[(2 * i)%nat]) 8) (ip.[(2 * i + 1)%nat])) <$> seq 0 8)
      else "?" +:+ hex_string ip
  | p4 => String.concat "." (pretty <$> p4)
  end.

Section wiring.
Context `{Unicode} `{RegistryStore} `{!RegistryOrder}.

Definition upserted (s : Service) (d : Device) (now : time) : Service := fst (UpsertDevice s d now).

(** Forwarding to a device that is not disabled; a device that is not known is not. *)
Definition registry_allows (s : Service) (targetKey : string) : bool :=
  if text_eq targetKey "" then false else match FindDevice s targetKey with None => true | Some dev => negb (d_Disabled dev) end.

(** ** Calls *)

Definition terminates (pkt : Packet) : bool := (FrameType pkt =? 2) && (DTypeOrVSeq pkt =? 2).

Definition sourceName (s : Service) (sourceKey : string) : string :=
  let field f := TrimSpace_text (from_option f "" (FindDevice s sourceKey)) in
  if negb (text_eq (field d_Callsign) "") then field d_Callsign else if negb (text_eq (field d_Name) "") then field d_Name else sourceKey.

Definition packet_call (s : Service) (frontend sourceKey category : string) (pkt : Packet) (addr : option UDPAddr) : CallRecord :=
  mkCallRecord
    0 0 0 0 frontend category sourceKey (sourceName s sourceKey) "" (u32 (Src pkt)) (Src pkt) (Dst pkt) (Repeater pkt) (packetSlot pkt) (callType (GroupCall pkt)) (StreamID pkt)
    (from_option addr_IP "" addr) (from_option addr_Port 0 addr).

Definition recordCall (s : Service) (frontend sourceKey category : string) (pkt : Packet) (addr : option UDPAddr) (now : time) : Service :=
  fst (RecordCall s (packet_call s frontend sourceKey category pkt addr) (terminates pkt) now).

(** ** Peers of the MMDVM frontends *)

(** The device of a link, as its client reports it. *)
Definition status_device (st : ClientStatus) : Device :=
  let cfg := st_cfg st in
  let '(host, port) :=
    match SplitHostPort (str_bytes (MasterServer cfg)) with
    | Some (host, port) => (bytes_str host, default 0 (ParseInt port))
    | None => (MasterServer cfg, 0)
    end in
  mkDevice
    0 "mmdvm" "mmdvm-upstream" (st_SourceKey st) 0 (Name cfg) (Callsign cfg) (ID cfg) "MMDVM Master" "" host port (st_Status st) (st_Online st) 0 (st_LastSeenAt st) 0
    (RXFreq cfg) (TXFreq cfg) (TXPower cfg) (cfg_ColorCode cfg) (Latitude cfg) (Longitude cfg) (Height cfg) (Location cfg) (Description cfg) (URL cfg) (Slots cfg)
    "" "" "" 0 0 0 0 false "".
Definition client_status (s : Service) (st : ClientStatus) (now : time) : Service := upserted s (status_device st) now.

Definition hotspot_device (p : PeerInfo) : Device :=
  mkDevice
    0 "mmdvm" "mmdvm" (pi_SourceKey p) 0 (pi_Listener p) (pi_Callsign p) (pi_DMRID p) (pi_Model p) "" (pi_IP p) (pi_Port p) (if pi_Online p then "online" else "offline") (pi_Online p)
    0 (pi_LastSeenAt p) 0 (pi_RXFreq p) (pi_TXFreq p) (pi_TXPower p) (pi_ColorCode p) (pi_Latitude p) (pi_Longitude p) (pi_Height p) (pi_Location p) (pi_Description p) (pi_URL p)
    (pi_Slots p) "" "" "" 0 0 0 0 false "".
Definition hotspot_update (s : Service) (p : PeerInfo) (now : time) : Service := upserted s (hotspot_device p) now.

(** ** Repeaters *)

Definition with_status (d : Device) (status : string) (online : bool) (seen : time) : Device :=
  mkDevice
    (d_ID d) (d_Category d) (d_Protocol d) (d_SourceKey d) (d_OwnerUserID d) (d_Name d) (d_Callsign d) (d_DMRID d) (d_Model d) (d_Serial d) (d_IP d)
    (d_Port d) status online (d_FirstSeenAt d) seen (d_LastCallAt d) (d_RXFreq d) (d_TXFreq d) (d_TXPower d) (d_ColorCode d) (d_Latitude d)
    (d_Longitude d) (d_Height d) (d_Location d) (d_Description d) (d_URL d) (d_Slots d) (d_Notes d) (d_DevicePassword d) (d_NRLServerAddr d)
    (d_NRLServerPort d) (d_NRLSSID d) (d_NRLUDPPort d) (d_NRLSlot d) (d_Disabled d) (d_ExtraJSON d).
Definition with_endpoint (d : Device) (ip : string) (port : Z) : Device :=
  mkDevice
    (d_ID d) (d_Category d) (d_Protocol d) (d_SourceKey d) (d_OwnerUserID d) (d_Name d) (d_Callsign d) (d_DMRID d) (d_Model d) (d_Serial d) ip
    port (d_Status d) (d_Online d) (d_FirstSeenAt d) (d_LastSeenAt d) (d_LastCallAt d) (d_RXFreq d) (d_TXFreq d) (d_TXPower d) (d_ColorCode d) (d_Latitude d)
    (d_Longitude d) (d_Height d) (d_Location d) (d_Description d) (d_URL d) (d_Slots d) (d_Notes d) (d_DevicePassword d) (d_NRLServerAddr d)
    (d_NRLServerPort d) (d_NRLSSID d) (d_NRLUDPPort d) (d_NRLSlot d) (d_Disabled d) (d_ExtraJSON d).

(** The offline handler of the Hytera and of the IPSC server. *)
Definition peer_offline (s : Service) (sourceKey : string) (now : time) : Service :=
  match FindDevice s sourceKey with None => s | Some dev => upserted s (with_status dev "offline" false (d_LastSeenAt dev)) now end.

Definition quote : string := bytes_str [34].
Definition json_number (name : string) (n : Z) : string := quote +:+ name +:+ quote +:+ ":" +:+ pretty n.

(** A repeater that is heard of, with most fields zero. *)
Definition repeater_device (category protocol key name : string) (dmrid : Z) (model ip : string) (port : Z) (seen : time) (extra : string) : Device :=
  mkDevice 0 category protocol key 0 name "" dmrid model "" ip port "online" true 0 seen 0 0 0 0 0 0%Q 0%Q 0 "" "" "" 0 "" "" "" 0 0 0 0 false extra.

Definition hytera_device (s : Service) (u : PeerUpdate) (now : time) : Device :=
  let ip := addr_IP (up_addr u) in
  let sourceKey := "hytera:" +:+ ip in
  let dmrid := if up_dmrid u =? 0 then from_option d_DMRID 0 (FindDevice s sourceKey) else up_dmrid u in
  let extra := "{" +:+ json_number "p2pPort" (up_p2pPort u) +:+ "," +:+ json_number "dmrPort" (up_dmrPort u) +:+
    (if 0 <? up_rdacPort u then "," +:+ json_number "rdacPort" (up_rdacPort u) else "") +:+ "}" in
  repeater_device "hytera" "hytera" sourceKey "Hytera Repeater" dmrid "Hytera Repeater" ip (up_dmrPort u) now extra.
Definition hytera_update (s : Service) (u : PeerUpdate) (now : time) : Service := upserted s (hytera_device s u now) now.

(** The verb [% X]: hexadecimal digits of bytes, in capitals, with blanks between. *)
Definition spaced_hex (l : list Z) : string :=
  String.concat " " ((fun b => bytes_str ((fun d => if d <? 10 then 48 + d else 55 + d) <$> [Z.shiftr b 4; Z.land b 15])) <$> l).

Definition ipsc_device (p : Peer) : Device :=
  let '(ip, port) := match peer_Addr p with Some a => (ip_text (default [] (na_IP a)), na_Port a) | None => ("", 0) end in
  let extra := "{" +:+ json_number "mode" (peer_Mode p) +:+ "," +:+ quote +:+ "flags" +:+ quote +:+ ":" +:+ quote +:+ spaced_hex (peer_Flags p) +:+ quote +:+ "," +:+
    json_number "keepAlive" (peer_KeepAliveReceived p) +:+ "}" in
  repeater_device "moto" "ipsc" ("moto:" +:+ pretty (peer_ID p)) ("Moto " +:+ pretty (peer_ID p)) (peer_ID p) "Motorola IPSC Repeater" ip port (peer_LastSeen p) extra.
Definition ipsc_update (s : Service) (p : Peer) (now : time) : Service := upserted s (ipsc_device p) now.

(** ** The NRL bridge of the Hytera server *)

Definition port_or_default (port : Z) : Z := if port =? 0 then 60050 else port.

Definition hytera_nrl_config (s : Service) (sourceKey : string) : option NRLPeerConfig :=
  dev ← FindDevice s sourceKey;
  let serverAddr := TrimSpace_text (d_NRLServerAddr dev) in
  if text_eq serverAddr "" then None
  else Some (mkNRLPeer serverAddr (port_or_default (d_NRLServerPort dev)) (d_NRLSSID dev) (d_Callsign dev) (d_DMRID dev) (d_Port dev)).

Definition analog_call (s : Service) (call : NRLCallEvent) : CallRecord :=
  let name :=
    match FindDevice s (ca_HyteraSourceKey call) with
    | None => ca_SourceName call
    | Some dev =>
        if negb (text_eq (TrimSpace_text (d_Callsign dev)) "") then TrimSpace_text (d_Callsign dev)
        else if negb (text_eq (TrimSpace_text (d_Name dev)) "") then TrimSpace_text (d_Name dev) else ca_SourceName call
    end in
  mkCallRecord
    0 0 0 0 "nrl" "hytera" (ca_SourceKey call) name (ca_SourceCallsign call) (ca_SourceDMRID call) (ca_SourceDMRID call) 0 0 1 "analog" (ca_StreamID call) (ca_FromIP call)
    (ca_FromPort call).
Definition recordAnalogCall (s : Service) (call : NRLCallEvent) (now : time) : Service := fst (RecordCall s (analog_call s call) (ca_Ended call) now).

Definition analog_chunk (e : AnalogAudioEvent) : Chunk :=
  mkChunk "" (au_StreamID e) (au_Frontend e) (au_SourceKey e) (au_SourceDMRID e) 0 0 false "analog" SampleRate8000 1 (PCM16Bytes (au_PCM e)) (au_Ended e) 0.
Definition publish_analog (h : Hub) (e : AnalogAudioEvent) (now : time) : Hub := Publish h (analog_chunk e) now.

End wiring.

(** ** Links to NRL servers *)

Section nrl.
Context `{Unicode} `{RegistryStore} `{!RegistryOrder} `{Md380} `{Dmrgo} `{AmbeTables} `{!NrlNet}.

Record Program := mkProgram { pg_registry : Service; pg_router : SubscriptionManager; pg_bridge : Bridge }.
Definition with_bridge p b := mkProgram (pg_registry p) (pg_router p) b.

Definition is_nrl (dev : Device) : bool := text_eq (d_Protocol dev) "nrl-virtual".
(** The link has to be open. *)
Definition wanted (dev : Device) : bool := negb (d_Disabled dev) && negb (text_eq (TrimSpace_text (d_NRLServerAddr dev)) "").

(** The first talkgroup the device is subscribed to by configuration. *)
Definition first_static (subs : list GroupSubscription) : Z :=
  from_option GroupID 0 (List.find (fun sub => bool_decide (Kind sub = SubscriptionStatic) && negb (GroupID sub =? 0)) subs).

Definition nrl_config (dev : Device) (sourceKey : string) (targetTG : Z) : DeviceConfig :=
  NrlFrame.mkDevice sourceKey (d_Name dev) (d_Callsign dev) (d_DMRID dev) (TrimSpace_text (d_NRLServerAddr dev)) (port_or_default (d_NRLServerPort dev)) 0 (d_NRLSSID dev)
    (nrl_slot (d_NRLSlot dev)) targetTG (d_ColorCode dev).
(** The snapshot of the subscriptions drops those that are over. *)
Definition nrl_resolver (s : Service) (m : SubscriptionManager) (sourceKey : string) (now : time) : SubscriptionManager * option DeviceConfig :=
  match FindDevice s sourceKey with
  | Some dev =>
      if is_nrl dev && wanted dev then
        let '(m, (slot1, slot2)) := SnapshotDevice m sourceKey now now in
        (m, Some (nrl_config dev sourceKey (first_static (if nrl_slot (d_NRLSlot dev) =? 2 then slot2 else slot1))))
      else (m, None)
  | None => (m, None)
  end.

Definition callsign_resolver (r : option Resolver) (dmrid : Z) : list Z := match r with None => [] | Some _ => if dmrid =? 0 then [] else Resolver_Lookup r dmrid end.

(** The identifier of a caller from an NRL server: its own if it fits the callsign,
    else the one of the callsign, else its own. *)
Definition inbound_source (r : option Resolver) (dmrid : Z) (originalCallsign : list Z) : Z :=
  match r with
  | None => dmrid
  | Some _ =>
      let normalized := NormalizeCallsign originalCallsign in
      if bool_decide (normalized = []) then dmrid
      else if negb (dmrid =? 0) && bool_decide (NormalizeCallsign (Resolver_Lookup r dmrid) = normalized) then dmrid
      else let matched := LookupID r normalized in if matched =? 0 then dmrid else matched
  end.

Definition nrl_status (s : Service) (key status : string) (online : bool) (now : time) : Service :=
  match FindDevice s key with
  | None => s
  | Some dev =>
      if text_eq (d_Status dev) status && Bool.eqb (d_Online dev) online then s
      else upserted s (with_status dev status online (if online then now else d_LastSeenAt dev)) now
  end.
Definition nrl_endpoint (s : Service) (key ip : string) (port : Z) (now : time) : Service :=
  match FindDevice s key with
  | None => s
  | Some dev =>
      if text_eq (TrimSpace_text (d_IP dev)) (TrimSpace_text ip) && (d_Port dev =? port) then s else upserted s (with_endpoint dev ip port) now
  end.

(** What the bridge has published is entered into the registry. *)
Definition published (p : Program) (now : time) : Program :=
  let b := pg_bridge p in
  let s := foldl (fun s e => nrl_status s (fst (fst e)) (snd (fst e)) (snd e) now) (pg_registry p) (br_status b) in
  let s := foldl (fun s e => nrl_endpoint s (fst (fst e)) (snd (fst e)) (snd e) now) s (br_endpoints b) in
  mkProgram s (pg_router p) (mkBridge (br_sessions b) [] []).

Definition activate (p : Program) (key : string) (dialed : option (string * Z)) (now : time) : Program :=
  if text_eq key "" then p
  else
    let '(m, resolved) := nrl_resolver (pg_registry p) (pg_router p) key now in
    published (mkProgram (pg_registry p) m (fst (Activate (pg_bridge p) key resolved dialed))) now.
Definition deactivate (p : Program) (key : string) (now : time) : Program := published (with_bridge p (Deactivate (pg_bridge p) key)) now.

(** A device was changed in the browser. *)
Definition device_changed (p : Program) (eventType : string) (dev : Device) (dialed : option (string * Z)) (now : time) : Program :=
  if negb (is_nrl dev) then p
  else if text_eq eventType "device_deleted" || negb (wanted dev) then deactivate p (d_SourceKey dev) now
  else activate p (d_SourceKey dev) dialed now.

(** An event of the registry. *)
Definition registry_changed (p : Program) (e : Event) (dialed : option (string * Z)) (now : time) : Program :=
  match e with
  | EvCall _ _ => p
  | EvDevice type dev =>
      let key := d_SourceKey dev in
      if negb (is_nrl dev) then p
      else if text_eq type "device_deleted" || negb (wanted dev) then if IsActive (pg_bridge p) key then deactivate p key now else p
      else
        let '(m, resolved) := nrl_resolver (pg_registry p) (pg_router p) key now in
        let p := mkProgram (pg_registry p) m (pg_bridge p) in
        if MatchesResolvedConfig (pg_bridge p) key resolved then p
        else
          let p := if IsActive (pg_bridge p) key then deactivate p key now else p in
          activate p key dialed now
  end.

(** At the start, and every five seconds; [dial] is what comes of opening a socket. *)
Definition start_link (dial : string -> option (string * Z)) (now : time) (p : Program) (dev : Device) : Program :=
  if negb (is_nrl dev && wanted dev) then p else activate p (d_SourceKey dev) (dial (d_SourceKey dev)) now.
Definition start_links (p : Program) (dial : string -> option (string * Z)) (now : time) : Program :=
  foldl (start_link dial now) p (fst (fst (Snapshot (pg_registry p)))).

Definition scan_link (dial : string -> option (string * Z)) (now : time) (p : Program) (dev : Device) : Program :=
  let key := d_SourceKey dev in
  if negb (is_nrl dev) then p
  else if negb (wanted dev) then deactivate p key now
  else if IsActive (pg_bridge p) key then p
  else activate p key (dial key) now.
Definition scan_links (p : Program) (dial : string -> option (string * Z)) (now : time) : Program :=
  foldl (scan_link dial now) p (fst (fst (Snapshot (pg_registry p)))).

(** What the scan does to the session of a key. *)
Lemma published_sessions p now : br_sessions (pg_bridge (published p now)) = br_sessions (pg_bridge p).
Proof. done. Qed.

Lemma activate_active p key dialed now k : IsActive (pg_bridge p) k = true \/ k <> key ->
  IsActive (pg_bridge (activate p key dialed now)) k = IsActive (pg_bridge p) k.
Proof.
  intros Hk. unfold activate. destruct (text_eq key ""); [done |]. destruct (nrl_resolver _ _ _ _) as [m resolved]. unfold IsActive. rewrite published_sessions. cbn [pg_bridge].
  destruct (decide (k = "")); [done |]. unfold Activate. destruct (decide (key = "")); [done |]. unfold ensureSession.
  assert (Hins : forall sess, bool_decide (is_Some (<[key := sess]> (br_sessions (pg_bridge p)) !! k)) = bool_decide (is_Some (br_sessions (pg_bridge p) !! k))).
  { intros sess. apply bool_decide_ext. destruct (decide (k = key)) as [-> | Hne]; [| by rewrite lookup_insert_ne]. rewrite lookup_insert_eq. split; [| eauto].
    intros _. destruct Hk as [Hk | ?]; [| done]. unfold IsActive in Hk. rewrite decide_False in Hk by done. by apply bool_decide_eq_true in Hk. }
  destruct (br_sessions (pg_bridge p) !! key) as [sess |]; [apply Hins |]. destruct resolved as [cfg |]; [| done]. destruct dialed as [[ip port] |]; [| done]. apply Hins.
Qed.

Lemma deactivate_active p key now k : IsActive (pg_bridge (deactivate p key now)) k = IsActive (pg_bridge p) k && negb (text_eq k key).
Proof.
  unfold deactivate, IsActive. rewrite published_sessions. cbn [pg_bridge with_bridge]. destruct (decide (k = "")); [done |]. unfold Deactivate, text_eq.
  destruct (br_sessions (pg_bridge p) !! key) as [sess |] eqn:E; [destruct (decide (key = "")) as [-> |] |].
  - rewrite (bool_decide_eq_false_2 (k = "")) by done. by rewrite andb_true_r.
  - cbn [br_sessions publishStatus with_nsessions]. destruct (decide (k = key)) as [-> | Hne].
    + rewrite lookup_delete_eq, (bool_decide_eq_true_2 (key = key)) by done. by rewrite andb_false_r.
    + rewrite lookup_delete_ne, (bool_decide_eq_false_2 (k = key)) by done. by rewrite andb_true_r.
  - destruct (decide (k = key)) as [-> | Hne]; [by rewrite E | by rewrite (bool_decide_eq_false_2 (k = key)), andb_true_r].
Qed.

Lemma scan_other dial now p dev k : is_nrl dev = false \/ k <> d_SourceKey dev -> IsActive (pg_bridge (scan_link dial now p dev)) k = IsActive (pg_bridge p) k.
Proof.
  intros Hk. unfold scan_link. cbv zeta. destruct (is_nrl dev) eqn:En; cbn [negb]; [| done]. destruct Hk as [? | Hne]; [done |].
  destruct (wanted dev); cbn [negb]; [destruct (IsActive (pg_bridge p) (d_SourceKey dev)); [done | apply activate_active; by right] |].
  by rewrite deactivate_active, (bool_decide_eq_false_2 _ Hne : text_eq _ _ = false), andb_true_r.
Qed.

Lemma scan_own dial now p dev : is_nrl dev = true -> wanted dev = false -> IsActive (pg_bridge (scan_link dial now p dev)) (d_SourceKey dev) = false.
Proof.
  intros En Ew. unfold scan_link. cbv zeta. rewrite En, Ew. cbn [negb].
  by rewrite deactivate_active, (bool_decide_eq_true_2 _ eq_refl : text_eq _ _ = true), andb_false_r.
Qed.

Lemma scan_rest dial now l : forall p k, (forall dev, dev ∈ l -> is_nrl dev = false \/ k <> d_SourceKey dev) ->
  IsActive (pg_bridge (foldl (scan_link dial now) p l)) k = IsActive (pg_bridge p) k.
Proof. induction l as [| dev l IH]; intros p k Hk; [done |]. cbn [foldl]. rewrite IH by set_solver. apply scan_other. set_solver. Qed.

(** The periodic scan settles the links.  When the devices of the registry have
    different source keys, then after the scan a link that is disabled or has no
    server is closed, one that was open and is to be open still is, and the
    sessions of other keys are as before. *)
Theorem scan_settles p dial now :
  let devices := fst (fst (Snapshot (pg_registry p))) in
  let b := pg_bridge (scan_links p dial now) in
  NoDup (d_SourceKey <$> devices) ->
  (forall dev, dev ∈ devices -> is_nrl dev = true -> wanted dev = false -> IsActive b (d_SourceKey dev) = false) /\
  (forall dev, dev ∈ devices -> is_nrl dev = true -> wanted dev = true -> IsActive (pg_bridge p) (d_SourceKey dev) = true -> IsActive b (d_SourceKey dev) = true) /\
  (forall k, (forall dev, dev ∈ devices -> is_nrl dev = true -> k <> d_SourceKey dev) -> IsActive b k = IsActive (pg_bridge p) k).
Proof.
  cbv zeta. unfold scan_links. set (l := fst (fst (Snapshot _))). intros Hnd. clearbody l.
  assert (Hsplit : forall dev, dev ∈ l -> exists l1 l2, l = l1 ++ dev :: l2 /\ (forall d, d ∈ l1 \/ d ∈ l2 -> d_SourceKey dev <> d_SourceKey d)).
  { intros dev Hdev. apply list_elem_of_split in Hdev as (l1 & l2 & ->). exists l1, l2. split; [done |]. rewrite fmap_app in Hnd. cbn in Hnd.
    apply NoDup_app in Hnd as (_ & Hd & Hn2). apply NoDup_cons in Hn2 as [Hn2 _]. intros d [Hd1 | Hd2] E.
    - apply (Hd (d_SourceKey d)); [apply list_elem_of_fmap; eauto | rewrite <- E; left].
    - apply Hn2. rewrite E. apply list_elem_of_fmap. eauto. }
  split_ands.
  - intros dev Hdev En Ew. destruct (Hsplit dev Hdev) as (l1 & l2 & -> & Hne). rewrite foldl_app. cbn [foldl]. rewrite scan_rest by (intros d Hd; right; apply Hne; by right).
    by apply scan_own.
  - intros dev Hdev En Ew Ha. destruct (Hsplit dev Hdev) as (l1 & l2 & -> & Hne). rewrite foldl_app. cbn [foldl]. rewrite scan_rest by (intros d Hd; right; apply Hne; by right).
    assert (Ha1 : IsActive (pg_bridge (foldl (scan_link dial now) p l1)) (d_SourceKey dev) = true) by (rewrite scan_rest; [done | intros d Hd; right; apply Hne; by left]).
    unfold scan_link at 1. cbv zeta. by rewrite En, Ew, Ha1.
  - intros k Hk. apply scan_rest. intros dev Hdev. destruct (is_nrl dev) eqn:En; [right; by apply Hk | by left].
Qed.

End nrl.

(** ** A device that is heard again *)

Section heard_again.
Context `{Unicode} `{AutoincrementLaw} `{!RegistryOrder}.

(** What a frontend reports to the registry: a peer of the IPSC server, a repeater of
    the Hytera server, a hotspot of an MMDVM server, the state of an MMDVM client. *)
Inductive Report :=
| IpscReport (p : Peer)
| HyteraReport (u : PeerUpdate)
| HotspotReport (p : PeerInfo)
| LinkReport (st : ClientStatus).

Definition take_report (s : Service) (r : Report) (now : time) : Service :=
  match r with
  | IpscReport p => ipsc_update s p now
  | HyteraReport u => hytera_update s u now
  | HotspotReport p => hotspot_update s p now
  | LinkReport st => client_status s st now
  end.
Definition reported (s : Service) (r : Report) (now : time) : Device :=
  match r with
  | IpscReport p => ipsc_device p
  | HyteraReport u => hytera_device s u now
  | HotspotReport p => hotspot_device p
  | LinkReport st => status_device st
  end.

Lemma report_upserts s r now : take_report s r now = upserted s (reported s r now) now.
Proof. by destruct r. Qed.

(** The reports carry no flag and no notes. *)
Lemma reported_fields s r now : d_Disabled (reported s r now) = false /\ d_Notes (reported s r now) = "".
Proof.
  destruct r as [p | u | p | st]; cbn [reported]; [| done | done |].
  - unfold ipsc_device. by destruct (peer_Addr p).
  - unfold status_device. by destruct (SplitHostPort _) as [[host port] |].
Qed.

(** A device without others of its identifier is stored as it is given. *)
Lemma upsert_stored d now db :
  all_ok db -> tables_ok (tables db) -> devices_seq (tables db) < rowid_limit -> List.filter (same_dmrid d) (Store.devices (tables db)) = [] ->
  exists db' r, Store.UpsertDevice d now db = (db', inl (scanDevice r)) /\ all_ok db' /\ tables_ok (tables db') /\
    r ∈ Store.devices (tables db') /\ dv_key r = d_SourceKey d /\ d_Disabled (dv_columns r) = d_Disabled d /\ d_Notes (dv_columns r) = d_Notes d.
Proof.
  intros Hok Htok Hseq Hdup. set (d0 := with_seen_times d now). pose proof (own_row_key d0 (tables db)) as Ek.
  destruct (upsert_spec d0 (tables db) (ok_device_keys _ Htok) Hseq) as (t' & Eu & _ & _ & Hrows). set (row := own_row d0 (tables db)) in *.
  pose proof (respects_UpsertDevice _ keeps_ok_devices d now db) as [Hkeep [used Hused]].
  assert (Hup : exists db', Store.UpsertDevice d now db = (db', inl (scanDevice row)) /\ tables db' = t').
  { unfold Store.UpsertDevice. fold d0.
    destruct (transaction_ok (bind (mergeDuplicateDMRID d0) (fun d => sql (upsert_device d))) db (fun _ t => t = t') Hok) as (db1 & u & E1 & O1 & T1).
    { intros db1 O1 T1. assert (Hm : exists db2, mergeDuplicateDMRID d0 db1 = (db2, inl d0) /\ tables db2 = tables db /\ all_ok db2).
      { unfold mergeDuplicateDMRID. destruct (_ || _); [by exists db1 |]. destruct (query_ok (duplicates_of d0) db1 O1) as (db2 & E2 & T2 & O2). exists db2. unfold bind.
        change (query _ db1) with (query (duplicates_of d0) db1). rewrite E2, T1. unfold duplicates_of. change (same_dmrid d0) with (same_dmrid d). rewrite Hdup. split; [reflexivity | split; [congruence | exact O2]]. }
      destruct Hm as (db2 & E2 & T2 & O2). rewrite <- T2 in Eu. destruct (sql_ok (upsert_device d0) db2 t' tt O2 Eu) as (db3 & E3 & T3 & O3).
      exists db3, tt. unfold bind. rewrite E2. by split_and!. }
    unfold bind at 1. rewrite E1. destruct (find_by_key (d_SourceKey d) db1 O1) as (db2 & r & E2 & T2 & Hr & Er).
    { exists row. rewrite T1. split; [apply Hrows; by left | exact Ek]. }
    assert (r = row) as -> by (rewrite T1 in Hr; apply Hrows in Hr as [-> | [Hne _]]; done). exists db2. split; [exact E2 | congruence]. }
  destruct Hup as (db' & E & T). rewrite E in Hkeep, Hused. cbn [fst] in *. exists db', row. split; [exact E |]. split; [| split; [| split; [| split; [exact Ek |]]]].
  - unfold all_ok in *. rewrite Hused in Hok. by apply Forall_app in Hok as [_ ?].
  - by apply Hkeep.
  - rewrite T. apply Hrows. by left.
  - unfold row, own_row. destruct (List.find _ _); cbn; split; [| done | | done]; unfold d0; cbn; by destruct (d_Disabled d).
Qed.

(** Giving a device an owner changes nothing else of it. *)
Lemma assigned db r owner : all_ok db -> tables_ok (tables db) -> r ∈ Store.devices (tables db) ->
  exists db' r', AssignDeviceOwner (dv_id r) owner db = (db', inl (scanDevice r')) /\
    dv_key r' = dv_key r /\ d_Disabled (dv_columns r') = d_Disabled (dv_columns r) /\ d_Notes (dv_columns r') = d_Notes (dv_columns r).
Proof.
  intros Hok Htok Hr. unfold AssignDeviceOwner, DeviceByID. set (f := update_rows _ _). destruct (exec_ok f db Hok) as (db1 & E1 & T1 & O1).
  set (g := fun r0 => if dv_id r0 =? dv_id r then mkDeviceRow (with_owner owner (dv_columns r0)) (dv_first_seen_at r0) (dv_last_seen_at r0) (dv_last_call_at r0) else r0).
  assert (Hf : List.find (fun r0 => dv_id r0 =? dv_id r) (g <$> Store.devices (tables db)) = Some (g r)).
  { pose proof (ok_device_ids _ Htok) as [Hnd _]. revert Hnd Hr. generalize (Store.devices (tables db)). intros l. induction l as [| x l IH]; intros Hnd Hr; [by apply not_elem_of_nil in Hr |].
    cbn [fmap list_fmap] in *. apply NoDup_cons in Hnd as [Hx Hnd]. cbn [List.find]. assert (Hid : dv_id (g x) = dv_id x) by (unfold g; by destruct (_ =? _)). rewrite Hid.
    apply elem_of_cons in Hr as [<- | Hr]; [by rewrite Z.eqb_refl |]. destruct (Z.eqb_spec (dv_id x) (dv_id r)) as [E | E]; [| by apply IH].
    exfalso. apply Hx. rewrite E. apply list_elem_of_fmap. by exists r. }
  destruct (query_row_ok (find_device (fun r0 => dv_id r0 =? dv_id r)) db1 (scanDevice (g r)) O1) as (db2 & E2 & _).
  { rewrite T1. unfold f, update_rows, find_device. cbn [Store.devices set_devices]. fold g. by rewrite Hf. }
  exists db2, (g r). unfold bind. rewrite E1. split; [exact E2 |]. unfold g. by rewrite Z.eqb_refl.
Qed.

(** C24: What a frontend reports of a device overwrites what the browser set.  The
    handlers of all four frontends, IPSC, Hytera, the hotspots of MMDVM servers and
    the links of MMDVM clients, report a device that is neither disabled nor has
    notes; whatever was stored before, afterwards the registry has the device
    enabled and without notes, and it is forwarded to again.  (The statements
    succeed, and no other device has the identifier of the report.  The handlers of
    peers that went offline write the stored flag back instead.) *)
Theorem reports_overwrite s r now :
  all_ok (sv_store s) -> tables_ok (tables (sv_store s)) -> devices_seq (tables (sv_store s)) < rowid_limit ->
  List.filter (same_dmrid (reported s r now)) (Store.devices (tables (sv_store s))) = [] ->
  let key := d_SourceKey (reported s r now) in
  let s' := take_report s r now in
  (exists d, FindDevice s' key = Some d /\ d_Disabled d = false /\ d_Notes d = "") /\ (key <> "" -> registry_allows s' key = true).
Proof.
  intros Hok Htok Hseq Hdup. cbv zeta. rewrite report_upserts. destruct (reported_fields s r now) as [Hd Hn]. set (d := reported s r now) in *. clearbody d.
  assert (Hfind : exists x, FindDevice (upserted s d now) (d_SourceKey d) = Some x /\ d_Disabled x = false /\ d_Notes x = "");
    [| destruct Hfind as (x & Ex & Edis & Enotes); split; [by exists x |]; intros Hne; unfold registry_allows; rewrite (bool_decide_eq_false_2 _ Hne : text_eq _ _ = false), Ex, Edis; done].
  unfold upserted, UpsertDevice. cbv zeta. set (d1 := enrichDevice s d).
  assert (E1 : d_SourceKey d1 = d_SourceKey d /\ d_Disabled d1 = d_Disabled d /\ d_Notes d1 = d_Notes d /\ same_dmrid d1 = same_dmrid d) by (unfold d1, enrichDevice; by case_match).
  destruct E1 as (K1 & D1 & N1 & S1). clearbody d1.
  destruct (upsert_stored d1 now (sv_store s) Hok Htok Hseq ltac:(by rewrite S1)) as (db' & row & E & O & T & Hrow & Ek & Ed & En).
  cbn [store_UpsertDevice store_FindUserIDByCallsign store_AssignDeviceOwner sqlite_store]. unfold result. rewrite E. cbn [fst snd].
  match goal with |- context [let '(x, y) := ?o in _] => assert (Ho : d_SourceKey (snd o) = d_SourceKey d /\ d_Disabled (snd o) = false /\ d_Notes (snd o) = "") end.
  { assert (Hrow' : forall r', dv_key r' = dv_key row -> d_Disabled (dv_columns r') = d_Disabled (dv_columns row) -> d_Notes (dv_columns r') = d_Notes (dv_columns row) ->
      d_SourceKey (scanDevice r') = d_SourceKey d /\ d_Disabled (scanDevice r') = false /\ d_Notes (scanDevice r') = "").
    { intros r' F1 F2 F3. split; [change (dv_key r' = d_SourceKey d); congruence |]. split; [| change (d_Notes (dv_columns r') = ""); congruence].
      change (d_Disabled (scanDevice r')) with (boolToInt (d_Disabled (dv_columns r')) =? 1). by rewrite F2, Ed, D1, Hd. }
    destruct (_ && _); [| by apply Hrow']. unfold FindUserIDByCallsign, query_row, bind.
    match goal with |- context [query ?f db'] => destruct (query_ok f db' O) as (db2 & E2 & T2 & O2) end. rewrite E2.
    destruct (us_id <$> _) as [owner |]; cbn [fst snd ret fail]; [| by apply Hrow']. destruct (owner =? 0); [by apply Hrow' |].
    destruct (assigned db2 row owner O2 ltac:(by rewrite T2) ltac:(by rewrite T2)) as (db3 & r' & E3 & F1 & F2 & F3).
    change (d_ID (scanDevice row)) with (dv_id row). rewrite E3. by apply Hrow'. }
  destruct (if _ && _ then _ else _) as [db2 stored]. cbn [snd] in Ho. destruct Ho as (O1 & O2 & O3). exists stored. split; [| done].
  unfold FindDevice. cbn. rewrite O1. apply lookup_insert_eq.
Qed.

End heard_again.

(** ** Examples *)

Section sample_wiring.
#[local] Existing Instances ids_in_order ids_in_order_law sample_registry sample_registry_laws.

(** A repeater that was disabled in the browser, with a note, sends its next
    keep-alive. *)
Definition keep_alive_peer (seen : time) : Peer := mkPeer 312000 None 0 [] seen 1 true.
Definition broken_antenna : DevicePatch := mkDevicePatch None None None (Some "broken antenna") (Some true) None None None None None None None None None None.
Definition disabled_service : Service :=
  fst (UpdateDeviceMetadata (take_report sample_service (IpscReport (keep_alive_peer sample_time)) sample_time) 1 broken_antenna).
Lemma reports_overwrite_witness :
  ((fun d => (d_Disabled d, d_Notes d)) <$> FindDevice disabled_service "moto:312000") = Some (true, "broken antenna") /\
  registry_allows disabled_service "moto:312000" = false /\
  registry_allows (take_report disabled_service (IpscReport (keep_alive_peer (sample_time + 15 * second))) (sample_time + 15 * second)) "moto:312000" = true.
Proof.
  split; [vm_compute; reflexivity |]. split; [vm_compute; reflexivity |].
  apply (reports_overwrite disabled_service (IpscReport (keep_alive_peer (sample_time + 15 * second))) (sample_time + 15 * second)).
  - vm_compute. apply Forall_nil_2.
  - assert (Et : exists t, tables (sv_store disabled_service) = t /\ tables_ok t); [| by destruct Et as (t & -> & ?)].
    eexists. split; [vm_compute; reflexivity |]. split; try (split; by_eval); by_eval.
  - vm_compute. reflexivity.
  - vm_compute. reflexivity.
  - discriminate.
Defined.

End sample_wiring.
