(* ===== verification/Transmission.v ===== *)
(** * A transmission is one call (cmd/root.go:1189-1216, internal/registry/service.go)

    What becomes in the registry of the packets that a frontend reports for one
    stream, [Wiring.recordCall] for each of them, while other sources are heard,
    devices are reported and the sweeper runs.  The operations of the registry are
    whole here, one after the other; what overlapping ones can do is the subject of
    [CallFlow], whose [overlapping_first_bursts] shows that two first bursts of a
    stream that overlap make two records. *)

From S2P Require Import Prelude Strings Net Text Packet IpscFrame G711 NrlFrame Audio Dmrid TimeText RegistryTypes Store Registry CallFlow Wiring.
#[local] Open Scope Z_scope.

Section transmissions.
Context `{Unicode} `{RegistryStore} `{!RegistryOrder} `{!RegistryStoreLaws} `{!RegistryOrderLaws}.
Context (frontend key category : string) (addr : option UDPAddr).

Definition heard (s : Service) (e : Packet * time) : Service := recordCall s frontend key category (fst e) addr (snd e).
Definition stream_call (stream : Z) : string := frontend +:+ "|" +:+ key +:+ "|" +:+ pretty stream.

Lemma packet_key s pkt : callDedupKey (enrichCall s (packet_call s frontend key category pkt addr)) = stream_call (StreamID pkt).
Proof. by destruct (enrich_fields s (packet_call s frontend key category pkt addr)) as (_ & _ & _ & ->). Qed.

Lemma enrich_source s c : r_SourceKey (enrichCall s c) = r_SourceKey c.
Proof. unfold enrichCall. cbv zeta. by repeat case_match. Qed.

(** A packet of a call that is going on. *)
Lemma heard_again s pkt t a :
  terminates pkt = false -> sv_activeCall s !! stream_call (StreamID pkt) = Some a ->
  heard s (pkt, t) = with_calls s (sv_recent s) (sv_callTotal s) (<[stream_call (StreamID pkt) := seen_at a t]> (sv_activeCall s)).
Proof. intros Ht Ha. unfold heard, recordCall, RecordCall, record_check. cbn [fst snd]. cbv zeta. by rewrite packet_key, Ha, Ht. Qed.

Lemma trim_last l c : exists l', trim_recent (l ++ [c]) = l' ++ [c] /\ (forall x, x ∈ l' -> x ∈ l).
Proof.
  unfold trim_recent. destruct (_ <? _)%nat eqn:E; [| by exists l]. apply Nat.ltb_lt in E. rewrite length_app in E. cbn in E.
  exists (drop (length (l ++ [c]) - recentCallLimit) l). rewrite length_app. cbn [length]. unfold recentCallLimit in *. rewrite drop_app_le by lia. split; [done |].
  intros x Hx. rewrite <- (take_drop (length l + 1 - 50) l). apply elem_of_app. by right.
Qed.

(** The first packet of a transmission that makes a new call. *)
Lemma heard_first s pkt t c s1 : calls_ok s -> terminates pkt = false ->
  RecordCall s (packet_call s frontend key category pkt addr) false t = (s1, Some (Some c, true)) ->
  heard s (pkt, t) = s1 /\ sv_activeCall s !! stream_call (StreamID pkt) = None /\
  sv_activeCall s1 = <[stream_call (StreamID pkt) := mkActive (r_ID c) t t frontend key (packetSlot pkt) (callType (GroupCall pkt))]> (sv_activeCall s) /\
  (exists older, sv_recent s1 = older ++ [c] /\ Forall (fun x => x ∈ sv_recent s) older) /\ sv_callTotal s1 = sv_callTotal s + 1 /\
  r_CreatedAt c = t /\ r_SrcID c = Src pkt /\ r_DstID c = Dst pkt /\ r_StreamID c = StreamID pkt.
Proof.
  intros [Hok _] Ht E. assert (Eh : heard s (pkt, t) = s1) by (unfold heard, recordCall; cbn [fst snd]; by rewrite Ht, E).
  unfold RecordCall in E. pose proof (check_spec s (packet_call s frontend key category pkt addr) false t) as Hc.
  destruct (record_check s _ false t) as [s2 [k a | |]]; [by destruct Hc as (_ & _ & ?) | done |]. destruct Hc as [-> Hnone]. rewrite packet_key in Hnone.
  unfold record_insert, new_record, record_enter in E. cbv zeta in E. set (call := enrichCall s _) in E. assert (Hcall : callDedupKey call = stream_call (StreamID pkt) /\
    r_Frontend call = frontend /\ r_SourceKey call = key /\ r_CallSlot call = packetSlot pkt /\ r_CallType call = callType (GroupCall pkt) /\ r_SrcID call = Src pkt /\ r_DstID call = Dst pkt /\ r_StreamID call = StreamID pkt).
  { split; [apply packet_key |]. subst call. unfold enrichCall. cbv zeta. by repeat case_match. }
  destruct Hcall as (K & F1 & F2 & F3 & F4 & F5 & F6 & F7). clearbody call.
  match type of E with context [store_InsertCall ?db ?x ?now] => destruct (store_InsertCall db x now) as [db1 [id |]] end; [| done].
  cbn [option_map fmap option_fmap] in E. injection E as E1 E2.
  assert (Hstored : r_ID c = id /\ r_CreatedAt c = t /\ r_SrcID c = Src pkt /\ r_DstID c = Dst pkt /\ r_StreamID c = StreamID pkt).
  { rewrite <- E2. unfold enrichCall. cbv zeta. rewrite <- F5, <- F6, <- F7. clear. by repeat case_match. }
  destruct Hstored as (-> & R1 & R2 & R3 & R4). rewrite E2 in E1.
  destruct (trim_last (sv_recent s) c) as (older & Et & Hold).
  assert (Hs1 : sv_activeCall s1 = <[callDedupKey call := mkActive id t t (r_Frontend call) (r_SourceKey call) (r_CallSlot call) (r_CallType call)]> (sv_activeCall s) /\
    sv_recent s1 = trim_recent (sv_recent s ++ [c]) /\ sv_callTotal s1 = sv_callTotal s + 1).
  { rewrite <- E1. by destruct (sv_devices _ !! _). }
  destruct Hs1 as (A1 & A2 & A3). rewrite K, F1, F2, F3, F4 in A1. split_ands; try done.
  exists older. split; [by rewrite A2 |]. apply Forall_forall. exact Hold.
Qed.

(** ** What happens in between *)

(** A packet of the transmission, or any other operation of the registry. *)
Inductive moment := Own (pkt : Packet) (t : time) | Aside (e : registry_event).
Definition moment_step (s : Service) (m : moment) : Service := match m with Own pkt t => heard s (pkt, t) | Aside e => registry_step s e end.

(** Between the first packet and the terminator: packets of the same stream, calls
    of other sources, reports and changes of devices, and sweeps that do not find
    the transmission silent for longer than its timeout. *)
Fixpoint amid (stream : Z) (last : time) (ms : list moment) : Prop :=
  match ms with
  | [] => True
  | Own pkt t :: ms => terminates pkt = false /\ StreamID pkt = stream /\ t <> 0 /\ amid stream t ms
  | Aside e :: ms =>
      match e with
      | RegCall c _ _ => r_SourceKey c <> key /\ callDedupKey c <> stream_call stream
      | RegSweep now => time_sub now last <= callIdleTimeout frontend
      | _ => True
      end /\ event_ok e /\ amid stream last ms
  end.
Definition is_call (m : moment) : bool := match m with Aside (RegCall _ _ _) => true | _ => false end.
Definition other_calls (ms : list moment) : nat := length (List.filter is_call ms).

(** The record of the transmission, [c], and its entry, after at most [n] calls of
    others. *)
Definition going_on (base : Service) (stream : Z) (c : CallRecord) (t last : time) (slot : Z) (type : string) (n : nat) (s : Service) : Prop :=
  calls_ok s /\ sv_activeCall s !! stream_call stream = Some (mkActive (r_ID c) t last frontend key slot type) /\
  exists older newer, sv_recent s = older ++ c :: newer /\ Forall (fun id => id ∈ r_ID <$> sv_recent base) (r_ID <$> older) /\
    Forall (fun k => k <> key) (r_SourceKey <$> newer) /\ (length newer <= n)%nat /\ sv_callTotal s = sv_callTotal base + 1 + Z.of_nat (length newer).

Lemma going_more base stream c t last slot type n n' s : going_on base stream c t last slot type n s -> (n <= n')%nat -> going_on base stream c t last slot type n' s.
Proof. intros (G1 & G2 & older & newer & G3 & G4 & G5 & G6 & G7) Hn. split; [done |]. split; [done |]. exists older, newer. split_ands; try done. lia. Qed.

Lemma end_others l id t d : r_ID <$> fst (end_record l id t d) = r_ID <$> l /\ r_SourceKey <$> fst (end_record l id t d) = r_SourceKey <$> l.
Proof.
  induction l as [| x l [I1 I2]]; [done |]. cbn [end_record]. destruct (r_ID x =? id); [done |].
  destruct (end_record l id t d) as [l' r]. cbn [fst] in *. cbn [fmap list_fmap]. by rewrite I1, I2.
Qed.

Lemma end_around older c newer id t d : r_ID c <> id ->
  exists older' newer', fst (end_record (older ++ c :: newer) id t d) = older' ++ c :: newer' /\ r_ID <$> older' = r_ID <$> older /\ r_SourceKey <$> newer' = r_SourceKey <$> newer.
Proof.
  intros Hne. induction older as [| x older (older' & newer' & IH & E1 & E2)]; cbn [app end_record].
  - rewrite (proj2 (Z.eqb_neq _ _) Hne). pose proof (end_others newer id t d) as [_ Hn]. destruct (end_record newer id t d) as [newer' r]. by exists [], newer'.
  - destruct (r_ID x =? id); [by exists (with_times x (r_CreatedAt x) t d :: older), newer |]. destruct (end_record (older ++ c :: newer) id t d) as [l' r]. cbn [fst] in *.
    exists (x :: older'), newer'. cbn [fmap list_fmap app]. by rewrite IH, E1.
Qed.

Lemma end_last l c t d : Forall (fun x => r_ID x <> r_ID c) l -> forall newer,
  end_record (l ++ c :: newer) (r_ID c) t d = (l ++ with_times c (r_CreatedAt c) t d :: newer, Some (with_times c (r_CreatedAt c) t d)).
Proof.
  intros Hl newer. induction l as [| x l IH]; cbn [end_record app]; [by rewrite Z.eqb_refl |]. apply Forall_cons in Hl as [Hx Hl].
  rewrite (proj2 (Z.eqb_neq _ _) Hx), IH by done. done.
Qed.

Section middle.
Context (base : Service) (stream : Z) (c : CallRecord) (t : time) (slot : Z) (type : string).
#[local] Notation going := (going_on base stream c t).

(** The end of another call. *)
Lemma going_finish last n s k a now : going last slot type n s -> k <> stream_call stream -> sv_activeCall s !! k = Some a -> now <> 0 ->
  going last slot type n (fst (finishActiveCall s k a now)).
Proof.
  intros (G1 & G2 & older & newer & G3 & G4 & G5 & G6 & G7) Hk Ha Hn. destruct (finish_spec s k a now G1 Ha Hn) as (F1 & F2 & _ & F4). cbv zeta in *.
  split; [done |]. split; [destruct F2 as [-> | ->]; [by rewrite lookup_delete_ne | done] |]. rewrite F4.
  assert (Hid : r_ID c <> ac_ID a).
  { intros E. apply Hk. destruct G1 as [G1 _]. apply (active_distinct _ _ _ G1 _ _ (r_ID c)); unfold active_ids; rewrite lookup_fmap; [by rewrite Ha, E | by rewrite G2]. }
  assert (Hr : exists older' newer', sv_recent (fst (finishActiveCall s k a now)) = older' ++ c :: newer' /\ r_ID <$> older' = r_ID <$> older /\ r_SourceKey <$> newer' = r_SourceKey <$> newer).
  { unfold finishActiveCall. destruct (store_UpdateCallDuration _ _ _ _) as [db [|]]; [| by exists older, newer].
    unfold end_active. cbn [sv_recent with_store]. rewrite G3. destruct (end_around older c newer (ac_ID a) now (call_duration a now) Hid) as (older' & newer' & E1 & E2 & E3).
    destruct (end_record _ _ _ _) as [recent r]. cbn [fst] in E1. subst recent. exists older', newer'. split; [| done].
    destruct (enrichCall _ <$> r) as [c' |]; [by destruct (r_ID c' =? 0) | done]. }
  destruct Hr as (older' & newer' & -> & E2 & E3). exists older', newer'. rewrite E2, E3. rewrite <- (length_fmap r_SourceKey newer'), E3, length_fmap. done.
Qed.

(** A call of another source is not taken for the transmission. *)
Lemma other_check s c' ended now a0 : sv_activeCall s !! stream_call stream = Some a0 -> ac_SourceKey a0 = key -> r_SourceKey c' <> key -> callDedupKey c' <> stream_call stream ->
  match record_check s c' ended now with
  | (s', Finish k a) => s' = s /\ sv_activeCall s !! k = Some a /\ k <> stream_call stream
  | (s', Touched) => exists k a, sv_activeCall s !! k = Some a /\ k <> stream_call stream /\ s' = with_calls s (sv_recent s) (sv_callTotal s) (<[k := seen_at a now]> (sv_activeCall s))
  | (s', NewCall) => s' = s
  end.
Proof.
  intros Hmine Hk Hsrc Hded. unfold record_check. cbv zeta. destruct (enrich_fields s c') as (_ & _ & _ & ->).
  destruct (sv_activeCall s !! callDedupKey c') as [a |] eqn:E; [destruct ended; [done | by exists (callDedupKey c'), a] |].
  destruct (findMatchingActiveCallLocked s (enrichCall s c') ended) as [[k a] |] eqn:Ef; [| done].
  assert (Hne : k <> stream_call stream).
  { intros ->. pose proof (matching_active _ _ _ _ _ Ef) as Ha. unfold findMatchingActiveCallLocked in Ef. apply find_some in Ef as [_ Hm]. cbn [snd] in Hm.
    unfold matches_active in Hm. apply andb_prop in Hm as [Hm _]. apply andb_prop in Hm as [_ Hm]. apply bool_decide_eq_true in Hm. rewrite enrich_source in Hm. congruence. }
  apply matching_active in Ef. destruct ended; [done | by exists k, a].
Qed.

Lemma trim_around older newer x : (length (older ++ c :: newer) <= recentCallLimit)%nat -> (length newer < 49)%nat ->
  exists older', trim_recent ((older ++ c :: newer) ++ [x]) = older' ++ c :: (newer ++ [x]) /\ exists m, older' = drop m older.
Proof.
  intros Hl Hn. unfold trim_recent. rewrite <- app_assoc. change ((c :: newer) ++ [x]) with (c :: (newer ++ [x])).
  destruct (_ <? _)%nat eqn:E; [| exists older; split; [done | by exists 0%nat]]. apply Nat.ltb_lt in E.
  set (m := (_ - _)%nat). exists (drop m older). split; [| by exists m]. apply drop_app_le. subst m.
  rewrite !length_app in *. cbn [length] in *. rewrite length_app in *. cbn [length] in *. unfold recentCallLimit in *. lia.
Qed.

Lemma going_other last n s c' ended now : going last slot type n s -> (n < 49)%nat -> r_SourceKey c' <> key -> callDedupKey c' <> stream_call stream -> event_ok (RegCall c' ended now) ->
  going last slot type (S n) (fst (RecordCall s c' ended now)).
Proof.
  intros Hg Hn Hsrc Hded [Hnow Hend]. pose proof Hg as (G1 & G2 & older & newer & G3 & G4 & G5 & G6 & G7).
  pose proof (record_ok s c' ended now G1 Hnow Hend) as Hok. unfold RecordCall in Hok |- *. pose proof (other_check s c' ended now _ G2 eq_refl Hsrc Hded) as Hc.
  destruct (record_check s c' ended now) as [s1 [k a | |]] eqn:Ec.
  - destruct Hc as (-> & Ha & Hk). destruct (finishActiveCall s k a now) as [s2 r] eqn:E. change s2 with (fst (s2, r)). rewrite <- E. apply (going_more _ _ _ _ _ _ _ n); [by apply going_finish | lia].
  - destruct Hc as (k & a & Ha & Hk & ->). split; [done |]. split; [cbn; by rewrite lookup_insert_ne |]. exists older, newer. split_ands; try done. lia.
  - subst s1.
    unfold record_insert in Hok |- *. destruct (store_InsertCall (sv_store s) (new_record s c' ended now) now) as [db [id |]]; cbn [fst] in *.
    + set (x := new_record s c' ended now) in *. assert (Hx : r_SourceKey x = r_SourceKey c' /\ callDedupKey x = callDedupKey c').
      { subst x. unfold new_record. destruct (enrich_fields s c') as (_ & _ & _ & Hd). pose proof (enrich_source s c'). by destruct ended. }
      destruct Hx as [X1 X2]. destruct (record_enter (with_store s db) x id ended now) as [s2 stored] eqn:E. cbn [fst] in *. unfold record_enter in E. injection E as E _.
      assert (Hs2 : sv_recent s2 = trim_recent (sv_recent s ++ [enrichCall (with_store s db) (with_id x id)]) /\ sv_callTotal s2 = sv_callTotal s + 1 /\
        sv_activeCall s2 !! stream_call stream = sv_activeCall s !! stream_call stream).
      { rewrite <- E. destruct (sv_devices _ !! _); cbn; (split; [done |]; split; [done |]); destruct ended; try done; by rewrite lookup_insert_ne by (by rewrite X2). }
      destruct Hs2 as (S1 & S2 & S3). split; [done |]. split; [by rewrite S3 |]. destruct G1 as [[G1 _ _ _ _ _] _]. rewrite G3 in S1, G1.
      destruct (trim_around older newer (enrichCall (with_store s db) (with_id x id)) G1) as (older' & E1 & m & ->); [lia |]. rewrite E1 in S1.
      exists (drop m older), (newer ++ [enrichCall (with_store s db) (with_id x id)]). split; [done |]. split.
      { rewrite fmap_drop. by apply Forall_drop. }
      split; [rewrite fmap_app; apply Forall_app; split; [done |]; constructor; [by rewrite enrich_source; cbn; rewrite X1 | constructor] |].
      rewrite length_app. cbn [length]. split; [lia |]. rewrite S2, G7. lia.
    + split; [done |]. split; [done |]. exists older, newer. split_ands; try done. cbn. lia.
Qed.

Lemma going_same last n s s' : calls_same s s' -> going last slot type n s -> going last slot type n s'.
Proof.
  intros Hs (G1 & G2 & G3). split; [by eapply calls_same_ok |]. destruct Hs as (-> & -> & -> & _). done.
Qed.

(** A sweep that comes in time. *)
Lemma going_sweep last n s now : going last slot type n s -> now <> 0 -> last <> 0 -> time_sub now last <= callIdleTimeout frontend -> going last slot type n (sweep s now).
Proof.
  intros Hg Hn Hlast Htime. unfold sweep. assert (Hg1 : going last slot type n (expireDevices s now)) by (eapply going_same; [apply expire_devices_same | done]).
  revert Hg1. generalize (expireDevices s now) as s1. clear s Hg. intros s Hg. unfold expireCalls. destruct (find_all s now) as (F1 & F2 & F3). cbv zeta in *.
  assert (Hk : stream_call stream ∉ fst <$> List.filter (fun e => idle_call (snd e) now) (call_iter (sv_activeCall s))).
  { rewrite (F3 _ _ (proj1 (proj2 Hg))). unfold idle_call. cbn [ac_LastSeenAt ac_Frontend]. unfold time_is_zero. rewrite (proj2 (Z.eqb_neq _ _) Hlast). intros E. apply Z.ltb_lt in E. lia. }
  clear F3. revert F1 F2 Hk. generalize (List.filter (fun e => idle_call (snd e) now) (call_iter (sv_activeCall s))) as l. intros l. revert s Hg.
  induction l as [| [k a] l IH]; intros s Hg Hnd Hl Hk; [done |]. cbn [foldl fst snd fmap list_fmap] in *.
  apply NoDup_cons in Hnd as [Hnotin Hnd]. apply Forall_cons in Hl as [Ha Hl]. apply not_elem_of_cons in Hk as [Hne Hk]. cbn [fst snd] in Ha.
  apply IH; [by apply going_finish | done | | done]. destruct (finish_spec s k a now (proj1 Hg) Ha Hn) as (_ & F2 & _). cbv zeta in F2.
  rewrite Forall_forall in Hl |- *. intros e He. specialize (Hl e He). destruct F2 as [-> | ->]; [| done]. rewrite lookup_delete_ne; [done |].
  intros ->. apply Hnotin. apply list_elem_of_fmap. by exists e.
Qed.

Lemma going_amid ms : forall last n s, going last slot type n s -> last <> 0 -> amid stream last ms -> (n + other_calls ms < 50)%nat ->
  exists last', going last' slot type (n + other_calls ms) (foldl moment_step s ms).
Proof.
  induction ms as [| m ms IH]; intros last n s Hg Hlast Hms Hn; cbn [foldl].
  - exists last. eapply going_more; [exact Hg | lia].
  - destruct m as [pkt t' | e]; cbn [amid moment_step] in *.
    + destruct Hms as (Ht & <- & Ht' & Hms). apply (IH t'); [| done | done | exact Hn]. pose proof Hg as (G1 & G2 & G3). rewrite (heard_again _ _ _ _ Ht G2).
      split; [by apply touch_ok |]. split; [cbn; by rewrite lookup_insert_eq | exact G3].
    + destruct Hms as (He & Hok & Hms). destruct (is_call (Aside e)) eqn:Ec.
      * destruct e as [c' ended now | | | | | | |]; try discriminate Ec. destruct He as [E1 E2]. change (other_calls (Aside (RegCall c' ended now) :: ms)) with (S (other_calls ms)) in *.
        replace (n + S (other_calls ms))%nat with (S n + other_calls ms)%nat in * by lia. apply (IH last); [| done | done | done]. apply going_other; try done. lia.
      * assert (Eo : other_calls (Aside e :: ms) = other_calls ms) by (unfold other_calls; cbn [List.filter]; by rewrite Ec). rewrite Eo in *. apply (IH last); [| done | done | done].
        destruct (about_devices e) eqn:Ed; [eapply going_same; [by apply devices_same | done] |].
        destruct e as [| now | | | | | |]; try discriminate Ec; try discriminate Ed. by apply going_sweep.
Qed.

End middle.

(** Without calls of others and sweeps, no other entry changes. *)
Definition calm (m : moment) : Prop := match m with Own _ _ => True | Aside e => about_devices e = true end.

Lemma calm_middle stream ms : forall last s a, amid stream last ms -> Forall calm ms -> sv_activeCall s !! stream_call stream = Some a ->
  delete (stream_call stream) (sv_activeCall (foldl moment_step s ms)) = delete (stream_call stream) (sv_activeCall s).
Proof.
  induction ms as [| m ms IH]; intros last s a Hms Hc Ha; [done |]. apply Forall_cons in Hc as [Hm Hc]. cbn [foldl]. destruct m as [pkt t | e]; cbn [amid moment_step calm] in *.
  - destruct Hms as (Ht & <- & _ & Hms). rewrite (heard_again _ _ _ _ Ht Ha), (IH t _ (seen_at a t)); [| done | done | apply lookup_insert_eq]. cbn. apply delete_insert_eq.
  - destruct Hms as (_ & _ & Hms). destruct (devices_same s e Hm) as (_ & E & _). rewrite (IH last _ a); [by rewrite E | done | done | by rewrite E].
Qed.

(** The terminator. *)
Lemma going_end base c t last slot type n s term tn : going_on base (StreamID term) c t last slot type n s -> terminates term = true -> reliable (sv_store s) ->
  let s' := heard s (term, tn) in
  sv_activeCall s' = delete (stream_call (StreamID term)) (sv_activeCall s) /\
  exists older newer, sv_recent s' = older ++ with_times c (r_CreatedAt c) tn (Z.quot (time_sub tn t) millisecond) :: newer /\
    Forall (fun id => id ∈ r_ID <$> sv_recent base) (r_ID <$> older) /\ Forall (fun k => k <> key) (r_SourceKey <$> newer) /\ (length newer <= n)%nat /\
    sv_callTotal s' = sv_callTotal base + 1 + Z.of_nat (length newer).
Proof.
  intros (G1 & G2 & older & newer & G3 & G4 & G5 & G6 & G7) Hterm Hr. cbv zeta. unfold heard, recordCall, RecordCall, record_check. cbn [fst snd]. cbv zeta.
  rewrite packet_key, G2, Hterm. unfold finishActiveCall, end_active, call_duration. cbn [ac_ID ac_StartedAt].
  pose proof (update_reliable (sv_store s) (r_ID c) tn (Z.quot (time_sub tn t) millisecond) Hr) as Hu.
  destruct (store_UpdateCallDuration _ _ _ _) as [db ok]. cbn [snd] in Hu. subst ok. cbn [sv_recent with_store]. rewrite G3, end_last; cycle 1.
  { destruct G1 as [[_ G1 _ _ _ _] _]. rewrite G3, fmap_app in G1. apply NoDup_app in G1 as (_ & Hd & _). apply Forall_forall. intros x Hx E.
    apply (Hd (r_ID x)); [apply list_elem_of_fmap; by exists x | rewrite E; left]. }
  cbn [fmap option_fmap option_map]. destruct (r_ID (enrichCall _ _) =? 0); (split; [done |]); exists older, newer; split_ands; try done.
Qed.


End transmissions.

(** ** Example *)

Section sample_transmission.
#[local] Existing Instances ids_in_order ids_in_order_law sample_registry sample_registry_laws.

Definition spoken_packet (frame dtype : Z) : Packet := mkPacket (str_bytes "DMRD") 0 4600001 46001 0 false true frame dtype 77 (repeat 0 33).
Definition header_call : CallRecord := Eval vm_compute in
  match snd (RecordCall sample_service (packet_call sample_service "hytera" "hytera:192.0.2.7" "hytera" (spoken_packet 2 1) None) false 1000) with
  | Some (Some c, _) => c
  | _ => ipsc_call 0
  end.
(** A burst, a call of another repeater, a sweep, and another burst. *)
Definition meanwhile : list moment :=
  [Own (spoken_packet 1 0) (60 * millisecond); Aside (RegCall (ipsc_call 9) false (70 * millisecond)); Aside (RegSweep second); Own (spoken_packet 0 1) (1060 * millisecond)].


End sample_transmission.
