(* ===== verification/Startup.v ===== *)
(** * The start of the program (cmd/root.go)

    [runRoot] reads the table of identifiers, opens the registry, takes the links to
    MMDVM masters from the database (or, the first time, from the configuration
    file), fills the routing table with the static groups of the database and makes
    sure that there is an administrator. *)

From Stdlib Require Import Ascii QArith.
From stdpp Require Import sorting.
From S2P Require Import Prelude Strings Text Packet Rptc MmdvmLogin Config NrlFrame Routing Ingress Dmrid TimeText RegistryTypes Store Registry Managed Web.
#[local] Open Scope Z_scope.

(** ** The table of identifiers *)

(** A file that is there is read, line by line, up to an error; [None] in the result
    is an error, and the inner one no table. *)
Section dmrid.
Context `{Unicode} (files : string -> option (list (list Z) * bool)).

Definition candidates (path : string) : list string := if text_eq path "" then ["dmrid.csv"; "dmrid.txt"; "radioid.csv"; "radioid.txt"] else [path].
Fixpoint first_file (configured : bool) (l : list string) : option (option Resolver) :=
  match l with
  | [] => Some None
  | candidate :: l =>
      match files candidate with
      | Some (lines, failed) => match Load lines failed with Some r => Some (Some r) | None => None end
      | None => if configured then None else first_file configured l
      end
  end.
Definition loadDMRIDResolver (path : string) : option (option Resolver) := first_file (negb (text_eq path "")) (candidates path).

End dmrid.

(** ** Static groups *)

Class StartOrder := {
  static_iter : gmap string (gmap Z (list Z)) -> list (string * gmap Z (list Z));
  slots_iter : gmap Z (list Z) -> list (Z * list Z)
}.
Class StartOrderLaws `{StartOrder} : Prop := {
  static_iter_elements m : static_iter m ≡ₚ map_to_list m;
  slots_iter_elements m : slots_iter m ≡ₚ map_to_list m
}.

(** The slot of a row is cut to eight bits. *)
Definition add_static (m : gmap string (gmap Z (list Z))) (g : StaticGroup) : gmap string (gmap Z (list Z)) :=
  let slot := u8 (sg_Slot g) in
  if negb (slot =? Slot1) && negb (slot =? Slot2) then m
  else
    let slots := default ∅ (m !! sg_SourceKey g) in
    <[sg_SourceKey g := <[slot := default [] (slots !! slot) ++ [sg_GroupID g]]> slots]> m.
Definition staticByDevice (groups : list StaticGroup) : gmap string (gmap Z (list Z)) := foldl add_static ∅ groups.

Section start.
Context `{StartOrder}.

Definition fill_device (m : SubscriptionManager) (e : string * gmap Z (list Z)) : SubscriptionManager :=
  foldl (fun m g => ReplaceStatic m (fst e) (fst g) (snd g)) m (slots_iter (snd e)).
Definition fill_router (m : SubscriptionManager) (byDevice : gmap string (gmap Z (list Z))) : SubscriptionManager := foldl fill_device m (static_iter byDevice).

(** The routing table of a start, with subscriptions of fifteen minutes. *)
Definition start_router (groups : list StaticGroup) : SubscriptionManager := fill_router (NewSubscriptionManager (15 * minute)) (staticByDevice groups).

Context `{!StartOrderLaws}.

Definition groups_at (m : gmap string (gmap Z (list Z))) (d : string) (s : Z) : list Z := default [] (default ∅ (m !! d) !! s).

Lemma add_static_at m g d s : groups_at (add_static m g) d s =
  if decide (d = sg_SourceKey g /\ s = u8 (sg_Slot g) /\ (s = Slot1 \/ s = Slot2)) then groups_at m d s ++ [sg_GroupID g] else groups_at m d s.
Proof.
  unfold add_static. cbv zeta. destruct ((u8 (sg_Slot g) =? Slot1) || (u8 (sg_Slot g) =? Slot2)) eqn:E.
  - rewrite <- negb_orb, E. cbn [negb]. apply orb_prop in E. rewrite !Z.eqb_eq in E. unfold groups_at. destruct (decide (d = sg_SourceKey g)) as [-> | Hd].
    + rewrite lookup_insert_eq. cbn [from_option id]. unfold id. destruct (decide (s = u8 (sg_Slot g))) as [-> | Hs]; [rewrite lookup_insert_eq, decide_True by done; done |].
      rewrite lookup_insert_ne, decide_False by (done || tauto). done.
    + rewrite lookup_insert_ne, decide_False by (done || tauto). done.
  - rewrite <- negb_orb, E. cbn [negb]. apply orb_false_elim in E as [E1 E2]. rewrite Z.eqb_neq in E1, E2. rewrite decide_False; [done |]. intros (_ & -> & [? | ?]); done.
Qed.

Lemma static_at l : forall m d s g, g ∈ groups_at (foldl add_static m l) d s <->
  g ∈ groups_at m d s \/ (s = Slot1 \/ s = Slot2) /\ exists r, r ∈ l /\ sg_SourceKey r = d /\ u8 (sg_Slot r) = s /\ sg_GroupID r = g.
Proof.
  induction l as [| r l IH]; intros m d s g; cbn [foldl]; [split; [by left | intros [? | (_ & r & Hr & _)]; [done | by apply not_elem_of_nil in Hr]] |].
  rewrite IH, add_static_at. setoid_rewrite elem_of_cons. destruct (decide _) as [(E1 & E2 & E3) | Hn].
  - rewrite elem_of_app, list_elem_of_singleton. split.
    + intros [[? | E] | (Hs & r' & Hr' & Hrest)]; [by left | right; split; [done |]; exists r; by split_ands; [left | ..] | right; split; [done |]; exists r'; by split_ands; [right | ..]; destruct_and?].
    + intros [? | (Hs & r' & [-> | Hr'] & Hrest)]; [by left; left | left; right; by destruct_and? | right; split; [done |]; exists r'; by split].
  - split.
    + intros [? | (Hs & r' & Hr' & Hrest)]; [by left | right; split; [done |]; exists r'; split; [by right | done]].
    + intros [? | (Hs & r' & [-> | Hr'] & E1 & E2 & E3)]; [by left | exfalso; apply Hn; by subst | right; split; [done |]; exists r'; by split_ands].
Qed.

(** The maps have valid slots only. *)
Definition slots_valid (m : gmap string (gmap Z (list Z))) : Prop := map_Forall (fun _ slots => map_Forall (fun s _ => validSlot s = true) slots) m.

Lemma static_valid l : forall m, slots_valid m -> slots_valid (foldl add_static m l).
Proof.
  induction l as [| g l IH]; intros m Hm; [done |]. cbn [foldl]. apply IH. unfold add_static. cbv zeta. destruct (_ && _) eqn:E; [done |].
  apply map_Forall_insert_2; [| done]. apply map_Forall_insert_2.
  - unfold validSlot. destruct (u8 (sg_Slot g) =? Slot1), (u8 (sg_Slot g) =? Slot2); done.
  - destruct (m !! sg_SourceKey g) as [slots |] eqn:El; [exact (Hm _ _ El) | apply map_Forall_empty].
Qed.

(** One device: its slots are replaced, in any order. *)
Lemma fill_slots d l : forall m, d <> "" -> Forall (fun g => validSlot (fst g) = true) l -> NoDup (fst <$> l) -> subs_inv m ->
  let m' := foldl (fun m g => ReplaceStatic m d (fst g) (snd g)) m l in
  subs_inv m' /\ (forall d' s, static_of m' d' s = if decide (d' = d) then from_option (fun gs => list_to_set (uniqueGroups gs)) (static_of m d' s) ((list_to_map l : gmap Z (list Z)) !! s) else static_of m d' s) /\
  (forall d' s, dynamic_of m' d' s = dynamic_of m d' s).
Proof.
  induction l as [| [s0 gs] l IH]; intros m Hd Hv Hnd Hinv; cbv zeta; cbn [foldl].
  { split_ands; [done | intros d' s; rewrite list_to_map_nil, lookup_empty; by destruct (decide (d' = d)) | done]. }
  apply Forall_cons in Hv as [Hv0 Hv]. cbn [fmap list_fmap] in Hnd. apply NoDup_cons in Hnd as [Hn0 Hnd]. cbn [fst snd] in *.
  destruct (ReplaceStatic_view m d s0 gs Hd Hv0 Hinv) as (V1 & V2 & V3). destruct (IH _ Hd Hv Hnd V1) as (I1 & I2 & I3). split_ands; [done | | intros; by rewrite I3, V3].
  intros d' s. rewrite I2, V2, list_to_map_cons. destruct (decide (d' = d)) as [-> | Hne]; [| by rewrite decide_False by tauto].
  destruct (decide (s = s0)) as [-> | Hs].
  - rewrite lookup_insert_eq, decide_True by done. cbn [fst snd from_option]. by rewrite not_elem_of_list_to_map_1.
  - cbn [fst snd]. by rewrite lookup_insert_ne, decide_False by (done || tauto).
Qed.

Lemma fill_empty l : forall m, foldl (fun m g => ReplaceStatic m "" (fst g) (snd g)) m l = m.
Proof. induction l as [| g l IH]; intros m; [done |]. cbn [foldl]. by rewrite IH. Qed.

Lemma fill_devices l : forall m, Forall (fun e => map_Forall (fun s _ => validSlot s = true) (snd e)) l -> NoDup (fst <$> l) -> subs_inv m ->
  let m' := foldl fill_device m l in
  subs_inv m' /\ (forall d s, d <> "" -> static_of m' d s = from_option (fun slots => from_option (fun gs => list_to_set (uniqueGroups gs)) (static_of m d s) (slots !! s)) (static_of m d s)
    ((list_to_map l : gmap string (gmap Z (list Z))) !! d)) /\
  (forall d s, dynamic_of m' d s = dynamic_of m d s) /\ (forall s, static_of m' "" s = static_of m "" s).
Proof.
  induction l as [| [d0 slots] l IH]; intros m Hv Hnd Hinv; cbv zeta; cbn [foldl]; [by split_ands |].
  apply Forall_cons in Hv as [Hv0 Hv]. cbn [fmap list_fmap] in Hnd. apply NoDup_cons in Hnd as [Hn0 Hnd]. cbn [fst snd] in *.
  assert (Hl : (list_to_map (slots_iter slots) : gmap Z (list Z)) = slots).
  { rewrite <- (list_to_map_to_list slots) at 2. apply list_to_map_proper; [| apply slots_iter_elements]. rewrite slots_iter_elements. apply NoDup_fst_map_to_list. }
  assert (Hstep : subs_inv (fill_device m (d0, slots)) /\ (forall d s, d <> "" -> static_of (fill_device m (d0, slots)) d s =
      if decide (d = d0) then from_option (fun gs => list_to_set (uniqueGroups gs)) (static_of m d s) (slots !! s) else static_of m d s) /\
    (forall d s, dynamic_of (fill_device m (d0, slots)) d s = dynamic_of m d s) /\ (forall s, static_of (fill_device m (d0, slots)) "" s = static_of m "" s)).
  { unfold fill_device. cbn [fst snd]. destruct (decide (d0 = "")) as [-> | Hne].
    - rewrite fill_empty. split_ands; [done | intros d s Hd; by rewrite decide_False | done | done].
    - destruct (fill_slots d0 (slots_iter slots) m Hne) as (F1 & F2 & F3); [| | done |].
      + apply Forall_forall. intros [s gs] Hs. rewrite slots_iter_elements, elem_of_map_to_list in Hs. exact (Hv0 _ _ Hs).
      + rewrite slots_iter_elements. apply NoDup_fst_map_to_list.
      + rewrite Hl in F2. split_ands; [done | intros d s _; apply F2 | done | intros s; rewrite F2; by rewrite decide_False]. }
  destruct Hstep as (S1 & S2 & S3 & S4). destruct (IH _ Hv Hnd S1) as (I1 & I2 & I3 & I4). split_ands; [done | | intros; by rewrite I3, S3 | intros; by rewrite I4, S4].
  intros d s Hd. rewrite I2 by done. rewrite S2 by done. rewrite list_to_map_cons. cbn [fst snd]. destruct (decide (d = d0)) as [-> | Hne].
  - rewrite lookup_insert_eq. cbn [from_option]. by rewrite not_elem_of_list_to_map_1.
  - by rewrite lookup_insert_ne.
Qed.

Lemma unique_elem g gs : g ∈ (list_to_set (uniqueGroups gs) : gset Z) <-> g ∈ gs /\ g <> 0.
Proof. unfold uniqueGroups. rewrite elem_of_list_to_set, merge_sort_Permutation, elem_of_elements, elem_of_list_to_set, list_elem_of_filter. tauto. Qed.

(** A row for the talkgroup [g] on a slot of a device. *)
Definition row_for (l : list StaticGroup) (d : string) (s g : Z) : Prop := exists r, r ∈ l /\ sg_SourceKey r = d /\ u8 (sg_Slot r) = s /\ sg_GroupID r = g.

(** The routing table after the start: the rows are its only subscriptions. *)
Lemma start_router_view l : let m := start_router l in
  subs_inv m /\ (forall d s g, g ∈ static_of m d s <-> d <> "" /\ g <> 0 /\ (s = Slot1 \/ s = Slot2) /\ row_for l d s g) /\ (forall d s, dynamic_of m d s = ∅).
Proof.
  cbv zeta. unfold start_router, fill_router. set (by_device := staticByDevice l). set (m0 := NewSubscriptionManager _).
  assert (Hnd : NoDup (fst <$> static_iter by_device)) by (rewrite static_iter_elements; apply NoDup_fst_map_to_list).
  destruct (fill_devices (static_iter by_device) m0) as (F1 & F2 & F3 & F4); [| done | apply new_inv |].
  { apply Forall_forall. intros [d slots] Hd. rewrite static_iter_elements, elem_of_map_to_list in Hd. exact (static_valid l ∅ (map_Forall_empty _) _ _ Hd). }
  split_ands; [exact F1 | | intros d s; by rewrite F3]. intros d s g. destruct (decide (d = "")) as [-> | Hd].
  { rewrite F4. cbn. set_solver. }
  assert (Hl : (list_to_map (static_iter by_device) : gmap string (gmap Z (list Z))) = by_device).
  { rewrite <- (list_to_map_to_list by_device) at 2. apply list_to_map_proper; [done | apply static_iter_elements]. }
  rewrite F2, Hl by done. pose proof (static_at l ∅ d s g) as Hat. fold (staticByDevice l) in Hat. fold by_device in Hat. unfold groups_at in Hat. rewrite lookup_empty in Hat. cbn in Hat.
  assert (Hempty : static_of m0 d s = ∅) by done. rewrite Hempty. unfold row_for.
  destruct (by_device !! d) as [slots |]; cbn in Hat |- *; [destruct (slots !! s) as [gs |]; cbn in Hat |- *; [rewrite unique_elem, Hat |] |]; set_solver.
Qed.

(** After a restart a group call goes where the database says.  When the static
    groups can be read, the routing table that is filled with them routes a call to
    a talkgroup to exactly the devices, other than the caller, and slots that have a
    row for it, each once. *)
Theorem routes_restored db g src now clock :
  all_ok db -> g <> 0 ->
  exists db' l, LoadStaticGroups db = (db', inl l) /\
    let routes := snd (ResolveRoutes (start_router l) src g now clock) in
    (forall d s, mkRoute d s ∈ routes <-> row_for (static_groups (tables db)) d s g /\ (s = Slot1 \/ s = Slot2) /\ d <> "" /\ d <> src) /\ NoDup routes.
Proof.
  intros Hok Hg. destruct (sql_ok (fun t => Some (t, merge_sort group_le (static_groups t))) db (tables db) (merge_sort group_le (static_groups (tables db))) Hok eq_refl) as (db' & E & _).
  exists db', (merge_sort group_le (static_groups (tables db))). split; [exact E |]. cbv zeta. set (l := merge_sort _ _). destruct (start_router_view l) as (V1 & V2 & V3).
  destruct (resolve_routes_spec (start_router l) src g now clock V1 Hg) as (R1 & R2 & _). split; [| exact R2]. intros d s. rewrite R1. unfold subscribed, live. rewrite V2, V3.
  assert (Hrow : row_for l d s g <-> row_for (static_groups (tables db)) d s g) by (unfold row_for, l; by setoid_rewrite merge_sort_Permutation).
  rewrite Hrow. split; [intros [[(? & ? & ? & ?) | (e & He & _)] (? & ?)]; [done | by rewrite lookup_empty in He] | intros (? & ? & ? & ?); split; [left |]; done].
Qed.

End start.

(** ** Groups that are set while the program runs *)

Section running.
Context `{Unicode} `{ExtraJson} `{WebEnv} `{Autoincrement} `{RegistryOrder} `{StartOrder} `{!StartOrderLaws}.

(** The routing table has the rows of the database as static subscriptions. *)
Definition agrees (m : SubscriptionManager) (l : list StaticGroup) : Prop :=
  subs_inv m /\ forall d s g, d <> "" -> validSlot s = true -> (g ∈ static_of m d s <-> g <> 0 /\ mkStaticGroup d s g ∈ l).
Definition slots_stored (l : list StaticGroup) : Prop := Forall (fun r => validSlot (sg_Slot r) = true) l.

Lemma replaced_rows key slot groups t d s g : mkStaticGroup d s g ∈ other_groups key slot t ++ groups_of key slot groups <->
  if decide (d = key /\ s = slot) then g ∈ groups /\ g <> 0 else mkStaticGroup d s g ∈ static_groups t.
Proof.
  unfold other_groups, groups_of, nonzero_groups, is_slot, text_eq. rewrite elem_of_app, elem_filter, list_elem_of_fmap. cbn [sg_SourceKey sg_Slot].
  setoid_rewrite elem_filter. destruct (decide (d = key /\ s = slot)) as [[-> ->] | Hne].
  - rewrite (bool_decide_eq_true_2 (key = key)), Z.eqb_refl by done. cbn. split.
    + intros [[_ ?] | (x & [= ->] & Hx & Hz)]; [done |]. apply negb_true_iff, Z.eqb_neq in Hz. done.
    + intros [Hg Hz]. right. exists g. split; [done |]. split; [done |]. by apply negb_true_iff, Z.eqb_neq.
  - split; [intros [[Hg _] | (x & [= -> -> _] & _)]; [done | by destruct Hne] |]. intros Hg. left. split; [done |]. apply negb_true_iff, andb_false_iff.
    destruct (decide (d = key)) as [-> |]; [right; apply Z.eqb_neq; tauto | left; by apply bool_decide_eq_false].
Qed.

Lemma replaced_slots key slot groups t : validSlot slot = true -> slots_stored (static_groups t) -> slots_stored (other_groups key slot t ++ groups_of key slot groups).
Proof.
  intros Hs Ht. apply Forall_app. split.
  - apply Forall_forall. intros r Hr. apply elem_filter in Hr as [Hr _]. unfold slots_stored in Ht. rewrite Forall_forall in Ht. by apply Ht.
  - apply Forall_forall. intros r Hr. by apply list_elem_of_fmap in Hr as (g & -> & _).
Qed.

(** A change of a slot in the browser keeps the two the same, whether it succeeds or
    not. *)
Lemma replace_agrees s m key slot groups :
  wb_router s = Some m -> agrees m (static_groups (db_tables s)) -> slots_stored (static_groups (db_tables s)) -> key <> "" -> validSlot slot = true ->
  exists m', let s' := fst (replace_slot key slot groups s) in
  wb_router s' = Some m' /\ agrees m' (static_groups (db_tables s')) /\ slots_stored (static_groups (db_tables s')).
Proof.
  intros Hm [Hinv Ha] Hst Hk Hs. cbv zeta. unfold replace_slot, on_store. pose proof (replace_rows key slot groups (sv_store (wb_registry s))) as Hr.
  change (tables (sv_store (wb_registry s))) with (db_tables s) in Hr. destruct (ReplaceStaticGroups key slot groups (sv_store (wb_registry s))) as [db [u | e]]; cbn [fst]; cycle 1.
  { exists m. unfold db_tables. cbn. rewrite Hr. by split_ands. }
  exists (ReplaceStatic m key slot groups). unfold route, db_tables. cbn. rewrite Hm, Hr. split; [done |]. split; [| by apply replaced_slots].
  destruct (ReplaceStatic_view m key slot groups Hk Hs Hinv) as (V1 & V2 & _). split; [exact V1 |]. intros d sl g Hd Hsl. rewrite V2, replaced_rows.
  destruct (decide (d = key /\ sl = slot)); [rewrite unique_elem; tauto | by apply Ha].
Qed.

(** One slot of a device, if the request gives it. *)
Lemma given_agrees s m key slot groups :
  wb_router s = Some m -> agrees m (static_groups (db_tables s)) -> slots_stored (static_groups (db_tables s)) -> key <> "" -> validSlot slot = true ->
  exists m', let s' := fst (replace_given key slot groups s) in
  wb_router s' = Some m' /\ agrees m' (static_groups (db_tables s')) /\ slots_stored (static_groups (db_tables s')).
Proof. destruct groups as [groups |]; [by apply replace_agrees | intros; by exists m]. Qed.

(** The two statements for an NRL link: the first is carried out and the second is
    not. *)
Definition nrl_halfway (d : Device) (p : deviceUpdatePayload) (s : WebServer) : bool :=
  let slot := nrl_slot (d_NRLSlot d) in
  let groups := take 1 (default [] (if slot =? 1 then up_StaticSlot1 p else up_StaticSlot2 p)) in
  match on_store (ReplaceStaticGroups (d_SourceKey d) slot groups) s with
  | (_, inr _) => false
  | (s, inl _) => match on_store (ReplaceStaticGroups (d_SourceKey d) (3 - slot) []) s with (_, inr _) => true | (_, inl _) => false end
  end.

(** Both slots of an NRL link, unless it stops halfway. *)
Lemma nrl_agrees s m d p :
  wb_router s = Some m -> agrees m (static_groups (db_tables s)) -> slots_stored (static_groups (db_tables s)) -> d_SourceKey d <> "" ->
  nrl_halfway d p s = false ->
  exists m', let s' := fst (replace_nrl d p s) in
  wb_router s' = Some m' /\ agrees m' (static_groups (db_tables s')) /\ slots_stored (static_groups (db_tables s')).
Proof.
  intros Hm Ha Hst Hk. unfold nrl_halfway, replace_nrl. cbv zeta. set (slot := nrl_slot _). set (groups := take 1 _).
  assert (Hslot : validSlot slot = true /\ validSlot (3 - slot) = true) by (unfold slot, nrl_slot; by destruct (_ =? 2)).
  destruct Hslot as [Hs1 Hs2]. destruct (replace_agrees s m (d_SourceKey d) slot groups Hm Ha Hst Hk Hs1) as (m1 & E1 & A1 & S1).
  unfold replace_slot in E1, A1, S1. destruct (on_store (ReplaceStaticGroups (d_SourceKey d) slot groups) s) as [s1 [u | e]]; cbn [fst] in *; [| by exists m1].
  destruct (replace_agrees _ m1 (d_SourceKey d) (3 - slot) [] E1 A1 S1 Hk Hs2) as (m2 & E2 & A2 & S2). clear E1 A1 S1. cbv zeta in *.
  unfold replace_slot, on_store, route in *. cbn [wb_registry with_router] in *.
  destruct (ReplaceStaticGroups (d_SourceKey d) (3 - slot) [] (sv_store (wb_registry s1))) as [db [u2 | e2]]; cbn [fst snd] in *; [| done].
  intros _. exists m2. cbn in *. destruct (wb_router s1) as [m0 |]; by cbn in *.
Qed.

(** A change of static groups in the browser: a slot of a device, if the request
    gives it, or both slots of an NRL link. *)
Inductive slot_change :=
| SetGiven (key : string) (slot : Z) (groups : option (list Z))
| SetNrl (d : Device) (p : deviceUpdatePayload).

Definition set_slot (s : WebServer) (o : slot_change) : WebServer :=
  match o with SetGiven key slot groups => fst (replace_given key slot groups s) | SetNrl d p => fst (replace_nrl d p s) end.
Definition set_slots (s : WebServer) (ops : list slot_change) : WebServer := foldl set_slot s ops.

(** The keys and slots are those of devices, and no change of an NRL link stops
    after its first statement. *)
Fixpoint changes_whole (s : WebServer) (ops : list slot_change) : Prop :=
  match ops with
  | [] => True
  | o :: ops =>
      match o with
      | SetGiven key slot _ => key <> "" /\ validSlot slot = true
      | SetNrl d p => d_SourceKey d <> "" /\ nrl_halfway d p s = false
      end /\ changes_whole (set_slot s o) ops
  end.

Lemma changes_agree s m ops :
  wb_router s = Some m -> agrees m (static_groups (db_tables s)) -> slots_stored (static_groups (db_tables s)) -> changes_whole s ops ->
  exists m', wb_router (set_slots s ops) = Some m' /\ agrees m' (static_groups (db_tables (set_slots s ops))) /\
    slots_stored (static_groups (db_tables (set_slots s ops))).
Proof.
  revert s m. induction ops as [| o ops IH]; intros s m Hm Ha Hst Hops; [by exists m |]. destruct Hops as [Ho Hops].
  assert (Hone : exists m1, wb_router (set_slot s o) = Some m1 /\ agrees m1 (static_groups (db_tables (set_slot s o))) /\ slots_stored (static_groups (db_tables (set_slot s o)))).
  { destruct o as [key slot groups | d p]; destruct Ho; [by eapply given_agrees | by eapply nrl_agrees]. }
  destruct Hone as (m1 & E1 & A1 & S1). exact (IH _ m1 E1 A1 S1 Hops).
Qed.

(** C17: The static groups survive a restart.  Once the routing table agrees with the
    database, it still does after any number of changes of slots in the browser,
    of devices and of NRL links, and a program that starts then fills its routing
    table with the same static subscriptions.  Any statement may fail, with one
    exception: a change of an NRL link whose first slot is stored and whose second
    is refused leaves the two apart ([nrl_half_stored]) and is excluded. *)
Theorem groups_survive s m ops :
  wb_router s = Some m -> agrees m (static_groups (db_tables s)) -> slots_stored (static_groups (db_tables s)) -> changes_whole s ops ->
  exists m' db l, wb_router (set_slots s ops) = Some m' /\ LoadStaticGroups (mkDatabase (db_tables (set_slots s ops)) []) = (db, inl l) /\
    forall d sl, d <> "" -> validSlot sl = true -> static_of (start_router l) d sl = static_of m' d sl.
Proof.
  intros Hm Ha Hst Hops. destruct (changes_agree s m ops Hm Ha Hst Hops) as (m' & Em & [Hinv Hag] & Hst').
  clear Ha Hst Hm. set (t := db_tables (set_slots s ops)) in *. clearbody t.
  eexists m', _, _. split; [exact Em |]. split; [reflexivity |]. set (l := merge_sort _ _). intros d sl Hd Hsl. apply set_eq. intros g.
  destruct (start_router_view l) as (_ & V2 & _). rewrite V2, (Hag d sl g Hd Hsl). unfold row_for, l. setoid_rewrite merge_sort_Permutation. split.
  - intros (_ & Hg & _ & [rk rs rg] & Hr & E1 & E2 & E3). split; [done |]. cbn in *. subst. unfold slots_stored in Hst'. rewrite Forall_forall in Hst'. specialize (Hst' _ Hr). cbn in Hst'.
    assert (u8 rs = rs) as ->; [| done]. apply orb_prop in Hst' as [E | E]; apply Z.eqb_eq in E; by subst.
  - intros [Hg Hr]. apply orb_prop in Hsl. rewrite !Z.eqb_eq in Hsl. split_ands; [done | done | done |]. exists (mkStaticGroup d sl g). split_ands; [done | done | | done].
    by destruct Hsl as [-> | ->].
Qed.

End running.

(** ** Links and the administrator *)

(** [sort.Slice] by name; links of the same name come in any order. *)
Class NameSort := sort_by_name : list MMDVM -> list MMDVM.
Class NameSortLaws `{NameSort} : Prop := {
  sorted_elements l : sort_by_name l ≡ₚ l;
  sorted_names l : Sorted (fun a b => text_le (Name a) (Name b) = true) (sort_by_name l)
}.

Section links.
Context `{Unicode} `{ExtraJson} `{RegistryStore} `{!RegistryOrder} `{NameSort}.

(** The configuration of a device that is a link, if it is complete and valid. *)
Definition managed_link (dev : Device) : option MMDVM :=
  if negb (text_eq (d_Protocol dev) "mmdvm-upstream") || negb (has_prefix "mmdvm-upstream:" (d_SourceKey dev)) then None
  else if negb (HasManagedConfig dev) then None
  else cfg ← DeviceToConfig dev; match ValidateMMDVMClients [cfg] with None => Some cfg | Some _ => None end.
Definition managed_links (s : Service) : list MMDVM := omap managed_link (fst (fst (Snapshot s))).

Definition with_source_key (cfg : MMDVM) (key : string) : MMDVM :=
  mkMMDVM
    key (Name cfg) (Callsign cfg) (ID cfg) (RXFreq cfg) (TXFreq cfg) (TXPower cfg) (cfg_ColorCode cfg) (Latitude cfg) (Longitude cfg) (Height cfg)
    (Location cfg) (Description cfg) (URL cfg) (Slots cfg) (MasterServer cfg) (Listen cfg) (Password cfg) (cfg_rules cfg).
Definition import_link (now : time) (s : Service) (cfg : MMDVM) : Service :=
  let cfg := if text_eq (TrimSpace_text (SourceKey cfg)) "" then with_source_key cfg (legacyMMDVMSourceKey (Name cfg)) else cfg in
  fst (UpsertDevice s (ConfigToDevice cfg) now).

Definition ensureManagedMMDVMClients (s : Service) (fallback : list MMDVM) (now : time) : Service * list MMDVM :=
  if (length (managed_links s) =? 0)%nat && (0 <? length fallback)%nat
  then let s := foldl (import_link now) s fallback in (s, sort_by_name (managed_links s))
  else (s, sort_by_name (managed_links s)).

Lemma managed_link_spec dev cfg : managed_link dev = Some cfg <->
  d_Protocol dev = "mmdvm-upstream" /\ has_prefix "mmdvm-upstream:" (d_SourceKey dev) = true /\ HasManagedConfig dev = true /\ DeviceToConfig dev = Some cfg /\ ValidateMMDVMClients [cfg] = None.
Proof.
  unfold managed_link. destruct (text_eq (d_Protocol dev) "mmdvm-upstream") eqn:Ep; cbn [negb orb].
  - apply bool_decide_eq_true in Ep. destruct (has_prefix _ _); cbn [negb orb]; [| by split; [| intros (_ & ? & _)]]. destruct (HasManagedConfig dev); cbn [negb]; [| by split; [| intros (_ & _ & ? & _)]].
    destruct (DeviceToConfig dev) as [c |]; cbn [mbind option_bind]; [| by split; [| intros (_ & _ & _ & ? & _)]].
    destruct (ValidateMMDVMClients [c]) as [e |] eqn:Ev; split; [done | intros (_ & _ & _ & [= ->] & E); by rewrite Ev in E | intros [= ->]; by split_ands | by intros (_ & _ & _ & [= ->] & _)].
  - apply bool_decide_eq_false in Ep. split; [done | by intros (? & _)].
Qed.

(** The clients that are started are the valid links of the registry, in the order
    of their names; the registry changes only when it has none. *)
Lemma managed_clients `{!NameSortLaws} s fallback now :
  let '(s', cfgs) := ensureManagedMMDVMClients s fallback now in
  (forall cfg, cfg ∈ cfgs <-> exists dev, dev ∈ fst (fst (Snapshot s')) /\ managed_link dev = Some cfg) /\
  Sorted (fun a b => text_le (Name a) (Name b) = true) cfgs /\ (managed_links s <> [] -> s' = s).
Proof.
  unfold ensureManagedMMDVMClients. destruct (_ && _) eqn:E; (split_ands; [| apply sorted_names |]).
  - intros cfg. rewrite sorted_elements. apply list_elem_of_omap.
  - apply andb_prop in E as [E _]. apply Nat.eqb_eq, nil_length_inv in E. by rewrite E.
  - intros cfg. rewrite sorted_elements. apply list_elem_of_omap.
  - done.
Qed.

End links.

Record WebBootstrapAdmin := mkAdmin { ad_Username : string; ad_Callsign : string; ad_Email : string; ad_Password : string }.

(** The account of the configuration, or the default one when it is not complete. *)
Definition bootstrap_admin (admin : WebBootstrapAdmin) : WebBootstrapAdmin :=
  if text_eq (ad_Username admin) "" || text_eq (ad_Password admin) "" || text_eq (ad_Callsign admin) "" || text_eq (ad_Email admin) ""
  then mkAdmin "admin" "ADMIN" "admin@localhost" "admin123456" else admin.

Definition ensure_admin `{Unicode} `{WebEnv} `{Autoincrement} (admin : WebBootstrapAdmin) (salt : Z) (now : time) : action (option User * bool) :=
  let admin := bootstrap_admin admin in
  match HashPassword salt (ad_Password admin) with
  | None => fail ErrSql
  | Some hash => EnsureAdminUser (mkUser 0 (ad_Username admin) (ToUpper_text (ad_Callsign admin)) (ad_Email admin) hash "" false 0 0 0) now
  end.

Section admin.
Context `{Unicode} `{ExtraJson} `{WebEnv} `{Autoincrement} `{RegistryOrder}.

(** C25: A first start leaves an account for the operator.  Suppose the database has no
    users yet and its statements succeed, the name of the configured administrator
    (or of the default one) has no white space around it, and its password can be
    hashed with a hash that the check accepts.  Then the administrator is created,
    and whoever gives that name and password to the web server on that database is
    logged in as that user.  A name with white space around it is stored with it
    and looked up without it, so that this account can never log in. *)
Theorem admin_can_log_in admin salt now db hash :
  let a := bootstrap_admin admin in
  users (tables db) = [] -> all_ok db -> users_seq (tables db) < rowid_limit ->
  TrimSpace_text (ad_Username a) = ad_Username a -> HashPassword salt (ad_Password a) = Some hash -> CheckPassword hash (ad_Password a) = true ->
  exists db' u, ensure_admin admin salt now db = (db', inl (Some u, true)) /\ u_Role u = "admin" /\
    forall s r t token sal, sv_store (wb_registry s) = db' -> rq_Method r = "POST" -> decode_login (rq_Body r) = Some (mkLogin (ad_Username a) (ad_Password a)) ->
      let '(s', answer) := handleLogin s r (mkDraw t (Some token) sal) in
      rs_Status answer = 200 /\ wb_sessions s' !! token = Some (mkSession (u_ID u) t).
Proof.
  intros a Hu Hok Hseq Htrim Hh Hc. unfold ensure_admin. cbv zeta. fold a. rewrite Hh. clearbody a.
  set (u0 := mkUser 0 (ad_Username a) _ _ hash "" false 0 0 0). unfold EnsureAdminUser. destruct (query_ok (fun t => Z.of_nat (length (users t))) db Hok) as (db1 & E1 & T1 & O1).
  change (UserCount db) with (query (fun t => Z.of_nat (length (users t))) db). rewrite E1, Hu. cbn [length Z.of_nat Z.ltb Z.compare].
  set (row := mkUserRow (with_user_id (as_admin u0) (users_seq (tables db) + 1)) (formatTime now) (formatTime now) (formatTime 0)).
  destruct (sql_ok (insert_user (as_admin u0) now now) db1 (set_users (tables db) [row] (users_seq (tables db) + 1)) (users_seq (tables db) + 1) O1) as (db2 & E2 & T2 & O2).
  { unfold insert_user. rewrite T1, Hu. cbn [existsb orb app]. by rewrite (proj2 (Z.ltb_ge rowid_limit (users_seq (tables db) + 1))) by lia. }
  destruct (query_row_ok (find_user (fun u => u_ID u =? users_seq (tables db) + 1)) db2 (scanUser row) O2) as (db3 & E3 & T3 & O3).
  { rewrite T2. unfold find_user. cbn [users set_users List.find us_columns row with_user_id u_ID]. by rewrite Z.eqb_refl. }
  assert (Hcreate : CreateUser (as_admin u0) now db1 = (db3, inl (scanUser row))) by (unfold CreateUser, bind; cbn [time_is_zero u_CreatedAt as_admin u0 Z.eqb]; by rewrite E2).
  exists db3, (scanUser row). split; [unfold bind; by rewrite Hcreate |]. split; [done |].
  intros s r t token sal Hs Hm Hd. unfold handleLogin. cbn [dr_token dr_now]. rewrite Hm, Hd. cbn [text_eq negb lg_Username lg_Password].
  change (text_eq "POST" "POST") with true. cbn [negb]. unfold login_user, on_store, UserByUsername. rewrite Hs, !Htrim.
  destruct (query_row_ok (find_user (fun u => text_eq (sql_lower (u_Username u)) (sql_lower (ad_Username a)))) db3 (scanUser row) O3) as (db4 & E4 & T4 & O4).
  { rewrite T3, T2. unfold find_user. cbn [users set_users List.find us_columns row with_user_id as_admin u_Username u0]. by rewrite (proj2 (text_eq_true _ _) eq_refl). }
  rewrite E4. change (u_Enabled (scanUser row)) with true. change (u_PasswordHash (scanUser row)) with hash. cbn [negb]. rewrite Hc. cbn [negb].
  destruct (UpdateUserLastLogin _ _ _) as [db5 x]. split; [done |]. cbn. apply lookup_insert_eq.
Qed.

End admin.

(** ** Examples *)

Section sample_start.
#[local] Existing Instances web_ids web_ids_law web_order web_json sample_env.
#[local] Instance start_order : StartOrder := {| static_iter m := map_to_list m; slots_iter m := map_to_list m |}.
#[local] Instance start_order_laws : StartOrderLaws.
Proof. by split. Qed.

Definition stored_rows : list StaticGroup := [mkStaticGroup "hytera:1" 1 46001; mkStaticGroup "moto:7" 2 46001; mkStaticGroup "moto:7" 1 46002].
Definition rows_db : Database := mkDatabase (set_groups (tables empty_db) stored_rows) [].

(** Talkgroup 46001 on two repeaters. *)
Lemma routes_restored_witness :
  exists db' l, LoadStaticGroups rows_db = (db', inl l) /\
    let routes := snd (ResolveRoutes (start_router l) "moto:7" 46001 1000 1000) in
    (forall d s, mkRoute d s ∈ routes <-> row_for stored_rows d s 46001 /\ (s = Slot1 \/ s = Slot2) /\ d <> "" /\ d <> "moto:7") /\ NoDup routes.
Proof. apply (routes_restored rows_db 46001 "moto:7" 1000 1000); [by apply Forall_nil_2 | done]. Defined.

(** A web server on that database, with the routing table of its start; in the first
    change a talkgroup is given twice, which the database refuses. *)
Definition rows_web : WebServer := mkWeb (service_of None [] [] 0 rows_db) (Some (start_router stored_rows)) ∅ [].
(** An NRL link whose first slot gets one group. *)
Definition moto_link : Device :=
  RegistryTypes.mkDevice 1 "nrl" "nrl-virtual" "moto:7" 0 "" "" 0 "" "" "" 0 "" false 0 0 0 0 0 0 0 0%Q 0%Q 0 "" "" "" 0 "" "" "" 0 0 0 1 false "".
Definition one_group : deviceUpdatePayload :=
  mkUpdate None None None None None None None None None None None None None None None None None None None None None None None None None None
    None None None None None (Some [5; 6]) None.
Lemma groups_survive_witness :
  let ops := [SetGiven "hytera:1" 1 (Some [7; 7]); SetGiven "hytera:1" 2 (Some [9; 0; 3]); SetGiven "moto:7" 2 None; SetNrl moto_link one_group] in
  static_groups (db_tables (set_slots rows_web ops)) = [mkStaticGroup "hytera:1" 1 46001; mkStaticGroup "hytera:1" 2 9; mkStaticGroup "hytera:1" 2 3; mkStaticGroup "moto:7" 1 5] /\
  exists m' db l, wb_router (set_slots rows_web ops) = Some m' /\ LoadStaticGroups (mkDatabase (db_tables (set_slots rows_web ops)) []) = (db, inl l) /\
    forall d sl, d <> "" -> validSlot sl = true -> static_of (start_router l) d sl = static_of m' d sl.
Proof.
  cbv zeta. split; [vm_compute; reflexivity |]. apply (groups_survive rows_web (start_router stored_rows)).
  - reflexivity.
  - destruct (start_router_view stored_rows) as (V1 & V2 & _). split; [exact V1 |]. intros d s g Hd Hs. rewrite V2. apply orb_prop in Hs. rewrite !Z.eqb_eq in Hs. unfold row_for. split.
    + intros (_ & Hg & _ & [rk rs rg] & Hr & E1 & E2 & E3). split; [exact Hg |]. cbn in E1, E2, E3. subst. change (db_tables rows_web) with (tables rows_db) in *.
      change (static_groups (tables rows_db)) with stored_rows. assert (u8 rs = rs) as ->; [| exact Hr]. unfold stored_rows in Hr.
      repeat (apply elem_of_cons in Hr as [[= -> -> ->] | Hr]; [reflexivity |]). by apply not_elem_of_nil in Hr.
    + intros [Hg Hr]. split; [exact Hd |]. split; [exact Hg |]. split; [exact Hs |]. exists (mkStaticGroup d s g). split; [exact Hr |]. destruct Hs as [-> | ->]; done.
  - repeat constructor.
  - repeat split; first [done | vm_compute; reflexivity].
Defined.

(** The first statement for an NRL link is carried out and the second one fails:
    the talkgroup is in the database, and the routing table does not have it. *)
Definition failing_web : WebServer :=
  mkWeb (service_of None [] [] 0 (mkDatabase (tables rows_db) [false; false; false; false; true])) (Some (start_router stored_rows)) ∅ [].
Theorem nrl_half_stored :
  let '(s, done) := replace_nrl moto_link one_group failing_web in
  done = false /\ mkStaticGroup "moto:7" 1 5 ∈ static_groups (db_tables s) /\ wb_router s = Some (start_router stored_rows) /\
  5 ∉ static_of (start_router stored_rows) "moto:7" 1.
Proof.
  destruct (replace_nrl moto_link one_group failing_web) as [s b] eqn:E.
  assert (Eb : b = false /\ static_groups (db_tables s) = [mkStaticGroup "hytera:1" 1 46001; mkStaticGroup "moto:7" 2 46001; mkStaticGroup "moto:7" 1 5]).
  { change b with (snd (s, b)). change s with (fst (s, b)) at 2. rewrite <- E. split; vm_compute; reflexivity. }
  destruct Eb as [-> Es]. rewrite Es. split_ands; [done | set_solver | |].
  - change s with (fst (s, false)). rewrite <- E. reflexivity.
  - destruct (start_router_view stored_rows) as (_ & V2 & _). rewrite V2. unfold row_for, stored_rows. intros (_ & _ & _ & r & Hr & _ & _ & E5).
    repeat (apply elem_of_cons in Hr as [-> | Hr]; [discriminate E5 |]). by apply not_elem_of_nil in Hr.
Qed.

(** A first start, and a login. *)
Definition sample_admin : WebBootstrapAdmin := mkAdmin "admin" "n0adm" "root@example.org" "password1".
Lemma admin_can_log_in_witness :
  exists db' u, ensure_admin sample_admin 0 sample_time empty_db = (db', inl (Some u, true)) /\ u_Callsign u = "N0ADM" /\
    let '(s', answer) := handleLogin (mkWeb (service_of None [] [] 0 db') None ∅ []) (login_request "admin") (mkDraw sample_time (Some "t1") 0) in
    rs_Status answer = 200 /\ wb_sessions s' !! "t1" = Some (mkSession (u_ID u) sample_time).
Proof.
  destruct (admin_can_log_in sample_admin 0 sample_time empty_db "#password1") as (db' & u & E & _ & Hlogin).
  - reflexivity.
  - by apply Forall_nil_2.
  - vm_compute. reflexivity.
  - vm_compute. reflexivity.
  - reflexivity.
  - vm_compute. reflexivity.
  - exists db', u. split; [exact E |]. split; [by vm_compute in E; injection E as _ <- |].
    apply (Hlogin (mkWeb (service_of None [] [] 0 db') None ∅ []) (login_request "admin") sample_time "t1" 0); reflexivity.
Defined.

(** Links are checked one by one: two of the same name pass, where together they do
    not. *)
Definition named_link (key : string) : MMDVM :=
  mkMMDVM key "Master" "N0CALL" 460123 0 0 0 1 0%Q 0%Q 0 "" "" "" 3 "master.example:62031" "" "secret" no_rules.
Lemma same_name_passes :
  ValidateMMDVMClients [named_link "mmdvm-upstream:a"] = None /\ ValidateMMDVMClients [named_link "mmdvm-upstream:b"] = None /\
  ValidateMMDVMClients [named_link "mmdvm-upstream:a"; named_link "mmdvm-upstream:b"] <> None.
Proof. split_ands; vm_compute; [reflexivity | reflexivity | discriminate]. Qed.

End sample_start.
